(* ===== verification/_CoqProject ===== *)
-Q . S2P
Prelude.v
PyBytes.v
PyStr.v
ModbusCrc.v
RtuFrames.v
RtuSlave.v
UartDrain.v
QemuPorts.v
Sockets.v
ModbusTcp.v
RegisterCsv.v
Injector.v
TreeLock.v
TreeLockSystem.v
SnifferPoll.v
SnifferWs.v
IoBus.v
IdfPatch.v
ApiClient.v
Gateway.v
Bridge.v
Collection.v
Rs485.v
LeakGuard.v
Preflight.v
PollLog.v
PollingClient.v
PollingProof.v
DeinitTest.v
ConfigButton.v
FactoryReset.v
MbDevice.v
SelfUnit.v
UnityReport.v
NetLog.v
HeapSession.v
WebPort.v
AuthRing.v
AuthTests.v
AuthAccept.v
StreamSplitter.v
Sniffer.v
JsonText.v
SnifferWire.v
SlowResponse.v
SlowAccept.v
WsTests.v
WsVerdicts.v
SettingsTests.v
CachePool.v
MbReasm.v
CacheServer.v
CacheTests.v
