(* ===== verification/Prelude.v ===== *)
(** * A verification library for the WB-MGE test and build tooling

    WB-MGE is a Modbus gateway: firmware in C, a web frontend, and a large
    body of Python that builds it, runs it under QEMU and tests it end to end.
    This library models that Python code (src/api_tests, src/patches,
    src/scripts), with the parts of the firmware it is judged against, and
    proves what makes it trustworthy: that the simulators speak correct
    Modbus, that waits neither miss defects nor blame slow devices, that
    shared resources (the working tree, host ports, the single-client UART
    sockets, device settings) are taken and given back on every path.

    ** How the program fits together

    A run is a pytest process (conftest.py).  It takes the lock of the
    working tree (tree_lock.py), resolves a block of host ports
    (qemu_ports.py), launches QEMU with the UARTs as TCP sockets, and drives
    the firmware over HTTP (api_client.py), Modbus TCP (modbus_helpers.py),
    the UART sockets (packet_injector.py, rtu_slave_helpers.py), a WebSocket
    (sniffer_helpers.py) and a UDP bus (io_bus_helpers.py).  Fixtures put
    ports into a mode and restore settings afterwards.  The ESP-IDF tree the
    firmware is built against is patched by apply_idf_patch.py.

    ** Method

    Pure functions are Rocq functions.  Code with effects is a function in the
    monad [eff W] below, over a record [W] of what the code can observe; it
    returns a value, raises one of the exception classes of [exn], or is
    [Blocked] (it has not returned).  What is outside the repository - the
    device, sockets and their peers, the kernel, other programs, clocks and
    the scheduler - is a parameter or a script in the world, never fixed by
    the model.  Loops whose length depends on a clock take fuel; each such
    theorem states how much fuel is enough from the clock or the script, and
    concludes that the call returns.  Numbers are [Z] with the code's
    wrap-around written out, bytes are [list Z], times are rationals [Q],
    dictionaries are [gmap] or association lists where order matters.
    Message texts are kept only where code reads them back; [print] and
    standard error are not modelled.

    ** The files

    Shared:
    - Prelude: exceptions, outcomes, the effect monad, automation.
    - PyBytes, PyStr: Python's bytes and (ASCII) str operations, with their
      laws: int and str round trips, split and join, strip, splitlines,
      universal newlines.

    The simulators and clients:
    - ModbusCrc: [modbus_crc16] and [_crc16] against the firmware's table-free
      routine (main/bridge/modbus_helpers.c, stream_splitter.c); burst errors
      are detected (C12).
    - RtuFrames: the frame builders of packet_injector.py: every exchange
      passes the CRC check and has the documented length.
    - RtuSlave: [ModbusRtuSlaveThread]: the incremental parser refines its
      specification, whatever the chunking (C9); the reads that kill the
      thread. UartDrain: [_UartNoEchoThread].
    - QemuPorts: qemu_ports.py: slot resolution, disjoint port blocks below
      the ephemeral range, the QEMU arguments.
    - Sockets, ModbusTcp, RegisterCsv: modbus_helpers.py: framing, decoding
      against the simulated slave, register passes, workers, the staleness
      test, the CSV register map.
    - Injector: [PacketInjector] as interleaved steps of the caller and the
      background thread: no connected socket is leaked.
    - SnifferPoll, SnifferWs: sniffer_helpers.py: the settle window and the
      poll budget, the WebSocket.
    - IoBus: io_bus_helpers.py: record parser, view of the bus, button press.
    - ApiClient: api_client.py over a device parameter: the retry of
      [set_port_mode], [wait_for_ready].

    The session around the tests:
    - TreeLock, TreeLockSystem: tree_lock.py over a kernel of inodes, open
      file descriptions and flocks, and all processes of a host as a step
      relation: mutual exclusion, refusal, inherited locks, the wrapper (C1).
    - IdfPatch: apply_idf_patch.py: verdict, diff parser, idempotence (C32,
      C37).
    - Gateway: [build_gateway_fixture] of conftest.py, against the class
      [SettingsClient] that the HTTP client implements (C31).
    - Rs485: the session baseline and its per-module restore.
    - Bridge: [_connect_ready_bridge], [_poll_tcp_connect].
    - Collection: the order of the run. LeakGuard: the UART leak guard.
    - Preflight: the hooks and the fixture around QEMU, over the tree lock's
      kernel, with other programs at work in every stretch of the session
      (C2).

    The end-to-end tests with logic of their own:
    - PollLog: [_longest_send_gap] of 37_test_cache_server_deinit_hang.py,
      equal to a direct definition on the two logs (C10), and its bounds.
    - PollingClient: [_PollingClient] of the same file, its sender, its
      drainer and its owner as programs over shared statistics, the peer and
      the network free to interleave; PollingProof: its evidence is sound, its
      books balance, and [stop] ends both threads (C11, C36).
    - DeinitTest: the test that uses them: what its verdict rests on in the
      record of its client calls, that it ends and restores, and the one
      interleaving in which it blames the firmware too early (C3, C39).
    - ConfigButton: the button task of main/config_button.c (C22).
    - FactoryReset: the factory-reset test of 47_test_io_indication.py: it
      presses the button through IoBus, reads the serial log back, and accuses
      the firmware only where no run of ConfigButton's task can have left that
      log (C8); it ends and restores.
    - MbDevice: the firmware's own register map, main/bridge/mb_device.c:
      every answer is a well-formed frame (C38).
    - SelfUnit: 43_test_device_self_unit_e2e.py, run on the frames MbDevice
      builds through the framing of Sockets and ModbusTcp: twelve of the tests
      accept the firmware, and the version, string and RAM checks decide what
      they say they decide (C18).
    - NetLog: requests on the record, and one judgement over the code that
      makes them: what a call shows of the device, what it costs and what it
      leaves behind. WebPort (40_test_web_port.py): a pass means that the port
      moved and came back (C20), within the budget its constants add up (C21).
    - HeapSession: 00_test_heap_session.py: the boot wait returns the verdict
      that is true of its samples (C16), and a leak verdict has evidence
      (C30).
    - AuthRing: the session ring of main/auth.c and the reboot command of
      main/cmd_handler.c; it refines an abstract session store (C4) and reads
      its own cookies back. AuthTests: 33_test_auth_settings.py: what a pass
      of the reboot tests shows, and their cost (C17). AuthAccept puts the two
      together: the reboot tests pass on the ring (C14).
    - StreamSplitter, Sniffer: main/bridge/stream_splitter.c and sniffer.c,
      the frame processing as steps of several tasks with the response timer:
      labels, merged buffers, the wait for a response and the interleaving
      that loses its timer (C7, C25, C26, C28). JsonText (json.loads) and
      SnifferWire: the JSON of a packet is read back (C27).
    - SlowResponse: 38_test_sniffer_slow_response.py: its tests clean up, and
      what some of them do not see (C29); SlowAccept runs them on the
      firmware's sniffer (C13).
    - WsTests: 12_test_sniffer_ws.py: every test closes what it connected and
      restores the port mode it read (C23); WsVerdicts: its checks, exactly,
      and on the messages the firmware sends in any run of its sniffer (C24).
    - SettingsTests: 03_test_settings.py: every test writes the settings back
      (C33), what the structure check establishes (C35), and what the
      per-field test does not see (C40).
    - CachePool: main/bridge/cache_multimaster.c, the register cache as an
      array of slots under a mutex: every interleaving of its critical
      sections refines a bounded map (C5). MbReasm: mbtcp_reasm.c, the
      reassembly of Modbus TCP streams per connection. CacheServer:
      cache_modbus_server.c over the two: every read request is answered once,
      in order, with what the cache held (C6).
    - CacheTests: 31_test_cache_modbus_server_e2e.py: what its tests accept
      (C19), that they accept the firmware from the bytes on the serial line
      to the bytes on the socket (C15), and what its fixture leaves behind
      (C34).
    - UnityReport: scripts/unity_to_junit.py: the log parser and the report.

    ** Bounds and fuel

    [_connect_ready_bridge] makes at most five attempts per second of budget,
    since its backoff never drops below 0.2 s; [wait_for_ready] one round per
    interval; the poll loops as many rounds as the clock needs to pass the
    deadline, which the theorems take from the clock; the diff parser one
    round per line.  The parser of the RTU slave consumes at least one byte
    per round.  The factory-reset test ends with fuel over 2F on a clock that
    advances 30 s in every F readings; the deinit test with any fuel past a
    number that depends on its clock.  The web-port test needs fuel 601, one
    round per second of its longest wait; the reboot tests 1801 for the same
    reason; the boot wait of the heap guard 87 rounds.  sniffer_process consumes
    a frame or a byte per round, so the length of the buffer and one more is
    enough; the timer service ends within three steps per command.  The
    reassembler consumes a byte per round, and its buffer is never full when a
    round starts; the fixture of the cache server tests polls at most 30 times,
    a second apart, so fuel 31 is enough.  The
    receive loops of the WebSocket tests end when the clock passes 30 s within
    as many looks as there is fuel.  The threads of the polling client
    are step relations and need no fuel: 40 steps of a thread are enough to
    end it once it is told to stop.

    ** Not modelled

    The frontend, the C unit tests, and the firmware but for its CRC check,
    the button task, the self unit's register map, the session store, the
    stream splitter, the sniffer, the register cache without the HTTP handlers
    that print it, and the cache server over a TCP server that is a sequence of
    events; of the self-unit tests those of the uptime, the statistics block and
    the cache server; the other
    numbered end-to-end tests, whose bodies are sequences of requests and
    assertions on a running device; terminal output; the rule that decides
    whether a UART socket belongs to this run (it needs urlsplit and
    ipaddress; its answer is an input); the serial-port bench scripts. *)

From Stdlib Require Import QArith Qminmax Lqa.
From stdpp Require Import base list gmap strings.
From Stdlib Require Import ZArith Lia.

Open Scope Z_scope.

(** ** Python exceptions

    Exceptions are the classes the sources raise or catch.  The interpolated
    message text is not kept; a payload is kept only where a handler reads
    it (the exit status of [SystemExit] and of pytest's [Exit], the holder
    line of [TreeLockBusy]). *)

Inductive exn : Type :=
| BaseException
| KeyboardInterrupt
| SystemExit (code : Z)
| PytestExit (code : Z)
| PytestFail
| PytestSkip
| Exception_
| ValueError
| JSONDecodeError
| StructError
| TypeError
| CsvError
| KeyError
| IndexError
| AttributeError
| ZeroDivisionError
| AssertionError
| RuntimeError
| BrokenBarrierError
| TreeLockBusy (holder strerror : string)
| SubprocessError
| OSError
| FileNotFoundError
| ProcessLookupError
| PermissionError
| TimeoutError
| ConnectionError
| ConnectionRefusedError
| ConnectionResetError
| RequestException
| WebSocketTimeoutException
| WebSocketPayloadException
| WebSocketProtocolException
| WebSocketConnectionClosed
| WebSocketBadStatusException.

#[export] Instance exn_eq_dec : EqDecision exn.
Proof. solve_decision. Defined.

(** The direct base class of each exception class. *)
Definition exn_base (e : exn) : option exn :=
  match e with
  | BaseException => None
  | KeyboardInterrupt | SystemExit _ | PytestExit _ | PytestFail | PytestSkip
  | Exception_ => Some BaseException
  | JSONDecodeError => Some ValueError
  | BrokenBarrierError | TreeLockBusy _ _ => Some RuntimeError
  | FileNotFoundError | ProcessLookupError | PermissionError | TimeoutError
  | ConnectionError | RequestException => Some OSError
  | ConnectionRefusedError | ConnectionResetError => Some ConnectionError
  | _ => Some Exception_
  end.

(** [except c] catches [e] when [c] is [e] or one of its bases; the class
    tree above is at most five deep. *)
Fixpoint catches_upto (fuel : nat) (c e : exn) : bool :=
  if decide (c = e) then true
  else match fuel, exn_base e with
       | S fuel, Some b => catches_upto fuel c b
       | _, _ => false
       end.

Definition catches (c e : exn) : bool := catches_upto 5 c e.

Arguments catches : simpl never.

(** ** Outcomes and the effect monad

    [Blocked] is a call that has not returned: the environment script is
    exhausted, or the fuel of a loop ran out. *)

Inductive outcome (A : Type) : Type :=
| Ok (a : A)
| Raise (e : exn)
| Blocked.
Arguments Ok {A} a.
Arguments Raise {A} e.
Arguments Blocked {A}.

#[export] Instance outcome_eq_dec {A} `{EqDecision A} : EqDecision (outcome A).
Proof. solve_decision. Defined.

Definition obind {A B} (m : outcome A) (k : A -> outcome B) : outcome B :=
  match m with
  | Ok a => k a
  | Raise e => Raise e
  | Blocked => Blocked
  end.

Definition omap_ok {A B} (f : A -> B) (m : outcome A) : outcome B :=
  obind m (fun a => Ok (f a)).

(** An effectful computation over a world [W]: it returns an outcome and
    the world it leaves behind, also when it raises. *)
Definition eff (W A : Type) : Type := W -> outcome A * W.

Definition ret {W A} (a : A) : eff W A := fun w => (Ok a, w).
Definition raise {W A} (e : exn) : eff W A := fun w => (Raise e, w).
Definition block {W A} : eff W A := fun w => (Blocked, w).
Definition lift {W A} (m : outcome A) : eff W A := fun w => (m, w).

Definition bind {W A B} (m : eff W A) (k : A -> eff W B) : eff W B :=
  fun w => match m w with
           | (Ok a, w') => k a w'
           | (Raise e, w') => (Raise e, w')
           | (Blocked, w') => (Blocked, w')
           end.

Definition get {W} : eff W W := fun w => (Ok w, w).
Definition modify {W} (f : W -> W) : eff W unit := fun w => (Ok tt, f w).

(** [try m except c: h] *)
Definition try_except {W A} (m : eff W A) (c : exn -> bool) (h : exn -> eff W A)
  : eff W A :=
  fun w => match m w with
           | (Raise e, w') => if c e then h e w' else (Raise e, w')
           | r => r
           end.

(** [try m finally f]: [f] runs on return and on raise; an exception of [f]
    replaces the pending one, as in Python. *)
Definition try_finally {W A} (m : eff W A) (f : eff W unit) : eff W A :=
  fun w => match m w with
           | (Ok a, w') => match f w' with
                           | (Ok _, w'') => (Ok a, w'')
                           | (Raise e, w'') => (Raise e, w'')
                           | (Blocked, w'') => (Blocked, w'')
                           end
           | (Raise e, w') => match f w' with
                              | (Ok _, w'') => (Raise e, w'')
                              | (Raise e', w'') => (Raise e', w'')
                              | (Blocked, w'') => (Blocked, w'')
                              end
           | (Blocked, w') => (Blocked, w')
           end.

Declare Scope py_scope.
Delimit Scope py_scope with py.

Notation "'let*' x ':=' m 'in' k" := (bind m (fun x => k))
  (at level 10, x pattern, m at level 200, k at level 200) : py_scope.
Notation "'let?' x ':=' m 'in' k" := (obind m (fun x => k))
  (at level 10, x pattern, m at level 200, k at level 200) : py_scope.
Notation "m ';;;' k" := (bind m (fun _ => k))
  (at level 199, right associativity) : py_scope.

Open Scope py_scope.

Definition is_ok {A} (m : outcome A) : bool :=
  match m with Ok _ => true | _ => false end.

(** ** Automation *)

Create HintDb wbmge.

(** Case analysis on the next scrutinee of the goal or of a hypothesis. *)
Ltac split_match :=
  match goal with
  | |- context [match ?x with _ => _ end] =>
      lazymatch x with
      | context [match _ with _ => _ end] => fail
      | _ => destruct x eqn:?
      end
  end.

Ltac split_match_in H :=
  match type of H with
  | context [match ?x with _ => _ end] =>
      lazymatch x with
      | context [match _ with _ => _ end] => fail
      | _ => destruct x eqn:?
      end
  end.

(** Turn the boolean tests of the sources into arithmetic facts. *)
Ltac bool_to_prop :=
  repeat match goal with
  | H : (_ && _)%bool = true |- _ => apply andb_true_iff in H; destruct H
  | H : (_ && _)%bool = false |- _ => apply andb_false_iff in H
  | H : (_ || _)%bool = true |- _ => apply orb_true_iff in H
  | H : (_ || _)%bool = false |- _ => apply orb_false_iff in H; destruct H
  | H : negb _ = true |- _ => apply negb_true_iff in H
  | H : negb _ = false |- _ => apply negb_false_iff in H
  | H : (_ <? _) = true |- _ => apply Z.ltb_lt in H
  | H : (_ <? _) = false |- _ => apply Z.ltb_ge in H
  | H : (_ <=? _) = true |- _ => apply Z.leb_le in H
  | H : (_ <=? _) = false |- _ => apply Z.leb_gt in H
  | H : (_ =? _) = true |- _ => apply Z.eqb_eq in H
  | H : (_ =? _) = false |- _ => apply Z.eqb_neq in H
  | H : (_ <? _)%nat = true |- _ => apply Nat.ltb_lt in H
  | H : (_ <? _)%nat = false |- _ => apply Nat.ltb_ge in H
  | H : (_ <=? _)%nat = true |- _ => apply Nat.leb_le in H
  | H : (_ <=? _)%nat = false |- _ => apply Nat.leb_gt in H
  | H : (_ =? _)%nat = true |- _ => apply Nat.eqb_eq in H
  | H : (_ =? _)%nat = false |- _ => apply Nat.eqb_neq in H
  | H : bool_decide _ = true |- _ => apply bool_decide_eq_true in H
  | H : bool_decide _ = false |- _ => apply bool_decide_eq_false in H
  end.

(** ** Monad laws *)

Lemma bind_ret {W A B} (a : A) (k : A -> eff W B) w : bind (ret a) k w = k a w.
Proof. reflexivity. Qed.

Lemma bind_bind {W A B C} (m : eff W A) (k : A -> eff W B) (j : B -> eff W C) w :
  bind (bind m k) j w = bind m (fun a => bind (k a) j) w.
Proof. unfold bind. destruct (m w) as [[a|e|] w']; reflexivity. Qed.

Lemma bind_ok {W A B} (m : eff W A) (k : A -> eff W B) w b w' :
  bind m k w = (Ok b, w') ->
  exists a w1, m w = (Ok a, w1) /\ k a w1 = (Ok b, w').
Proof. unfold bind. destruct (m w) as [[a|e|] w1]; intros H; eauto; discriminate. Qed.

Lemma obind_ok {A B} (m : outcome A) (k : A -> outcome B) b :
  obind m k = Ok b -> exists a, m = Ok a /\ k a = Ok b.
Proof. destruct m; simpl; intros H; eauto; discriminate. Qed.

(** A computation that returns or raises. *)
Definition settled {A} (m : outcome A) : Prop := m <> Blocked.

Lemma obind_settled {A B} (m : outcome A) (k : A -> outcome B) :
  settled m -> (forall a, settled (k a)) -> settled (obind m k).
Proof. destruct m; simpl; unfold settled; auto. Qed.

Lemma ok_settled {A} (a : A) : settled (Ok a).
Proof. done. Qed.

Lemma raise_settled {A} e : @settled A (Raise e).
Proof. done. Qed.

#[export] Hint Resolve obind_settled ok_settled raise_settled : wbmge.

(** Every exception the computation can raise satisfies [P]. *)
Definition raises_only (P : exn -> bool) {A} (m : outcome A) : Prop :=
  match m with Raise e => P e = true | _ => True end.

Lemma obind_raises P {A B} (m : outcome A) (k : A -> outcome B) :
  raises_only P m -> (forall a, raises_only P (k a)) -> raises_only P (obind m k).
Proof. destruct m; simpl; auto. Qed.

Lemma ok_raises P {A} (a : A) : raises_only P (Ok a).
Proof. done. Qed.

#[export] Hint Resolve obind_raises ok_raises : wbmge.

(** The cleanup of a [finally] that cannot fail runs whatever the body
    did, and keeps the body's outcome. *)
Lemma try_finally_total {W A} (m : eff W A) (f : W -> W) w :
  try_finally m (modify f) w =
  match m w with
  | (Blocked, w') => (Blocked, w')
  | (r, w') => (r, f w')
  end.
Proof. unfold try_finally, modify. destruct (m w) as [[a|e|] w']; reflexivity. Qed.

(** ** Association lists as finite maps *)

Lemma list_to_map_middle `{Countable K} {A} (l1 l2 : list (K * A)) k x :
  NoDup (l1 ++ (k, x) :: l2).*1 -> (list_to_map (l1 ++ (k, x) :: l2) : gmap K A) = <[k := x]> (list_to_map (l1 ++ l2)).
Proof.
  intros Hn. rewrite <- list_to_map_cons. apply list_to_map_proper; [done|]. symmetry. apply Permutation_middle.
Qed.

Lemma list_to_map_replace `{Countable K} {A} (l1 l2 : list (K * A)) k x y :
  NoDup (l1 ++ (k, x) :: l2).*1 ->
  <[k := y]> (list_to_map (l1 ++ (k, x) :: l2) : gmap K A) = list_to_map (l1 ++ (k, y) :: l2) /\
  NoDup (l1 ++ (k, y) :: l2).*1.
Proof.
  intros Hn. assert (Hn' : NoDup (l1 ++ (k, y) :: l2).*1) by (rewrite fmap_app in Hn |- *; exact Hn). split; [|done].
  rewrite !list_to_map_middle by done. apply insert_insert_eq.
Qed.
