(* ===== verification/PyBytes.v ===== *)
(** * Python byte strings, integers and [struct]

    A [bytes] object is a list of integers in 0..255 ([bytes_ok]); [struct]
    formats are big-endian as in the sources.  Operations that raise on an
    out-of-range value return an [outcome]. *)

From Stdlib Require Import ZArith Lia.
From stdpp Require Import base list.
From S2P Require Import Prelude.

Open Scope Z_scope.

Definition is_byte (b : Z) : Prop := 0 <= b < 256.
Definition is_u16 (x : Z) : Prop := 0 <= x < 65536.
Definition bytes_ok (l : list Z) : Prop := Forall is_byte l.

#[export] Instance is_byte_dec b : Decision (is_byte b).
Proof. unfold is_byte. apply _. Defined.
#[export] Instance is_u16_dec b : Decision (is_u16 b).
Proof. unfold is_u16. apply _. Defined.
#[export] Instance bytes_ok_dec l : Decision (bytes_ok l).
Proof. unfold bytes_ok. apply _. Defined.

(** [len(l)] *)
Definition zlen {A} (l : list A) : Z := Z.of_nat (length l).

Lemma zlen_app {A} (l k : list A) : zlen (l ++ k) = zlen l + zlen k.
Proof. unfold zlen. rewrite length_app. lia. Qed.

(** [l[i]] where the code has already checked the length. *)
Definition byte_at (l : list Z) (i : nat) : Z := default 0 (l !! i).

(** [l[i:j]] for [0 <= i], [0 <= j]: clamped, never an error. *)
Definition slice {A} (i j : nat) (l : list A) : list A := take (j - i) (drop i l).

(** [bytes([...])] / [bytearray([...])]: [ValueError] outside 0..255. *)
Definition py_bytes (l : list Z) : outcome (list Z) :=
  if decide (bytes_ok l) then Ok l else Raise ValueError.

(** [struct.pack('B', x)] and [struct.pack('>H', x)] *)
Definition pack_B (x : Z) : outcome (list Z) :=
  if decide (is_byte x) then Ok [x] else Raise StructError.

Definition pack_H (x : Z) : outcome (list Z) :=
  if decide (is_u16 x) then Ok [x / 256; x mod 256] else Raise StructError.

(** [struct.pack(f'>{n}H', *values)] for a list of [n] values. *)
Fixpoint pack_Hs (xs : list Z) : outcome (list Z) :=
  match xs with
  | [] => Ok []
  | x :: xs => let? h := pack_H x in let? t := pack_Hs xs in Ok (h ++ t)
  end.

(** [struct.unpack('>H', b)[0]]: needs exactly two bytes. *)
Definition unpack_H (b : list Z) : outcome Z :=
  match b with
  | [h; l] => Ok (256 * h + l)
  | _ => Raise StructError
  end.

(** [struct.unpack(f'>{n}H', b)]: needs exactly [2 n] bytes. *)
Fixpoint unpack_Hs (n : nat) (b : list Z) : outcome (list Z) :=
  match n, b with
  | O, [] => Ok []
  | S n, h :: l :: b => let? t := unpack_Hs n b in Ok (256 * h + l :: t)
  | _, _ => Raise StructError
  end.

(** ** Bit-level helpers *)

Lemma lxor_range n a b : 0 <= n -> 0 <= a < 2 ^ n -> 0 <= b < 2 ^ n -> 0 <= Z.lxor a b < 2 ^ n.
Proof.
  intros Hn Ha Hb. split; [apply Z.lxor_nonneg; lia|].
  destruct (Z.eq_dec (Z.lxor a b) 0) as [->|Hne]; [lia|].
  pose proof (proj2 (Z.lxor_nonneg a b)) as Hpos.
  apply Z.log2_lt_pow2; [lia|].
  pose proof (Z.log2_lxor a b ltac:(lia) ltac:(lia)).
  assert (forall x, 0 <= x < 2 ^ n -> x <> 0 -> Z.log2 x < n) as Hl.
  { intros x ? ?. apply Z.log2_lt_pow2; lia. }
  destruct (Z.eq_dec a 0) as [->|]; [rewrite Z.lxor_0_l in *; apply Hl; lia|].
  destruct (Z.eq_dec b 0) as [->|]; [rewrite Z.lxor_0_r in *; apply Hl; lia|].
  pose proof (Hl a). pose proof (Hl b). lia.
Qed.

Lemma land_255 x : Z.land x 255 = x mod 256.
Proof. apply (Z.land_ones x 8). lia. Qed.

Lemma land_65535 x : Z.land x 65535 = x mod 65536.
Proof. apply (Z.land_ones x 16). lia. Qed.

Lemma land_1 x : Z.land x 1 = x mod 2.
Proof. apply (Z.land_ones x 1). lia. Qed.

Lemma land_255_byte x : is_byte (Z.land x 255).
Proof. rewrite land_255. unfold is_byte. pose proof (Z.mod_pos_bound x 256). lia. Qed.

Lemma shiftr_8 x : Z.shiftr x 8 = x / 256.
Proof. apply (Z.shiftr_div_pow2 x 8). lia. Qed.

Lemma lor_byte x y : 0 <= x < 256 -> 0 <= y < 256 -> 0 <= Z.lor x y < 256.
Proof.
  intros Hx Hy. split; [apply Z.lor_nonneg; lia|].
  destruct (Z.eq_dec (Z.lor x y) 0) as [->|Hne]; [lia|].
  assert (0 <= Z.lor x y) by (apply Z.lor_nonneg; lia).
  change 256 with (2 ^ 8). apply Z.log2_lt_pow2; [lia|]. rewrite Z.log2_lor by lia.
  assert (forall z, 0 <= z < 256 -> Z.log2 z < 8) as Hl.
  { intros z Hz. destruct (Z.eq_dec z 0) as [->|]; [done|]. apply Z.log2_lt_pow2; [lia|].
    change (2 ^ 8) with 256. lia. }
  pose proof (Hl x Hx). pose proof (Hl y Hy). lia.
Qed.

(** Clearing the low byte by xor leaves the high byte shifted up. *)
Lemma lxor_low_byte c : Z.lxor c (Z.land c 255) = 256 * (c / 256).
Proof.
  rewrite <- shiftr_8. change 256 with (2 ^ 8). rewrite Z.mul_comm, <- Z.shiftl_mul_pow2 by lia.
  apply Z.bits_inj'. intros i Hi. change 255 with (Z.ones 8).
  rewrite Z.lxor_spec, Z.land_spec.
  destruct (Z.ltb_spec i 8).
  - rewrite Z.ones_spec_low, Z.shiftl_spec_low by lia. by destruct (Z.testbit c i).
  - rewrite Z.ones_spec_high, Z.shiftl_spec, Z.shiftr_spec by lia.
    rewrite andb_false_r, xorb_false_r. f_equal. lia.
Qed.

Lemma u16_split x : is_u16 x -> is_byte (x / 256) /\ is_byte (x mod 256).
Proof.
  intros Hx. unfold is_byte, is_u16 in *. pose proof (Z.mod_pos_bound x 256).
  assert (x / 256 < 256) by (apply Z.div_lt_upper_bound; lia).
  pose proof (Z.div_pos x 256). lia.
Qed.

Lemma u16_join x : 256 * (x / 256) + x mod 256 = x.
Proof. pose proof (Z.div_mod x 256). lia. Qed.

(** A byte and a multiple of 256 have no bit in common. *)
Lemma land_byte_high x y : is_byte x -> Z.land x (256 * y) = 0.
Proof.
  intros Hx. unfold is_byte in *. apply Z.bits_inj'. intros i Hi. rewrite Z.land_spec, Z.bits_0.
  change 256 with (2 ^ 8). rewrite Z.mul_comm, <- Z.shiftl_mul_pow2 by lia.
  destruct (Z.ltb_spec i 8); [rewrite Z.shiftl_spec_low by lia; by rewrite andb_false_r|].
  rewrite (Z.bits_above_log2 x i); [done|lia|].
  destruct (Z.eq_dec x 0) as [->|]; [simpl; lia|].
  assert (Z.log2 x < 8) by (apply Z.log2_lt_pow2; lia). lia.
Qed.

(** [(h << 8) | l] *)
Lemma lor_shiftl_8 h l : is_byte l -> Z.lor (Z.shiftl h 8) l = 256 * h + l.
Proof.
  intros Hl. rewrite Z.shiftl_mul_pow2 by lia. change (2 ^ 8) with 256.
  rewrite (Z.mul_comm h), Z.lor_comm, <- Z.add_nocarry_lor; [lia|by apply land_byte_high].
Qed.

(** ** Byte lists *)

(** A test that holds below a bound, checked number by number. *)
Lemma all_below (f : Z -> bool) k n : forallb f (seqZ 0 k) = true -> 0 <= n < k -> f n = true.
Proof. intros Hf Hn. rewrite forallb_forall in Hf. apply Hf, list_elem_of_In, elem_of_seqZ. lia. Qed.

Lemma bytes_ok_app l k : bytes_ok (l ++ k) <-> bytes_ok l /\ bytes_ok k.
Proof. unfold bytes_ok. apply Forall_app. Qed.

Lemma bytes_ok_cons b l : bytes_ok (b :: l) <-> is_byte b /\ bytes_ok l.
Proof. unfold bytes_ok. apply Forall_cons. Qed.

Lemma bytes_ok_nil : bytes_ok [].
Proof. constructor. Qed.

Lemma bytes_ok_take n l : bytes_ok l -> bytes_ok (take n l).
Proof. apply Forall_take. Qed.

Lemma bytes_ok_drop n l : bytes_ok l -> bytes_ok (drop n l).
Proof. apply Forall_drop. Qed.

Lemma bytes_ok_replicate n b : is_byte b -> bytes_ok (replicate n b).
Proof. intros. by apply Forall_replicate. Qed.

Lemma byte_at_ok l i : bytes_ok l -> is_byte (byte_at l i).
Proof.
  intros Hl. unfold byte_at. destruct (l !! i) as [b|] eqn:E; simpl; [|unfold is_byte; lia].
  eapply Forall_lookup_1; eauto.
Qed.

Lemma byte_at_app_l l k i : (i < length l)%nat -> byte_at (l ++ k) i = byte_at l i.
Proof. intros. unfold byte_at. by rewrite lookup_app_l. Qed.

Lemma slice_app_l {A} i j (l k : list A) :
  (j <= length l)%nat -> slice i j (l ++ k) = slice i j l.
Proof.
  intros. unfold slice. destruct (decide (i <= length l)%nat).
  - rewrite drop_app_le, take_app_le; [done| rewrite length_drop; lia |lia].
  - by replace (j - i)%nat with 0%nat by lia.
Qed.

Lemma length_slice {A} i j (l : list A) :
  (i <= j <= length l)%nat -> length (slice i j l) = (j - i)%nat.
Proof. intros. unfold slice. rewrite length_take, length_drop. lia. Qed.

Lemma bytes_ok_slice i j l : bytes_ok l -> bytes_ok (slice i j l).
Proof. intros. by apply bytes_ok_take, bytes_ok_drop. Qed.

Lemma py_bytes_ok l : bytes_ok l -> py_bytes l = Ok l.
Proof. intros. unfold py_bytes. by rewrite decide_True. Qed.

Lemma py_bytes_inv l l' : py_bytes l = Ok l' -> l' = l /\ bytes_ok l.
Proof. unfold py_bytes. case_decide; intros [=]; subst; auto. Qed.

(** ** [struct] round trips *)

Lemma pack_H_ok x : is_u16 x -> pack_H x = Ok [x / 256; x mod 256].
Proof. intros. unfold pack_H. by rewrite decide_True. Qed.

Lemma pack_H_inv x l : pack_H x = Ok l -> is_u16 x /\ l = [x / 256; x mod 256].
Proof. unfold pack_H. case_decide; intros [=]; subst; auto. Qed.

Lemma unpack_pack_H x l : pack_H x = Ok l -> unpack_H l = Ok x.
Proof. intros [_ ->]%pack_H_inv. simpl. by rewrite u16_join. Qed.

Lemma pack_H_bytes x l : pack_H x = Ok l -> bytes_ok l /\ length l = 2%nat.
Proof.
  intros [Hx ->]%pack_H_inv. apply u16_split in Hx as [? ?].
  split; [|done]. rewrite !bytes_ok_cons. auto using bytes_ok_nil.
Qed.

Lemma pack_Hs_spec xs :
  Forall is_u16 xs -> exists l, pack_Hs xs = Ok l /\ bytes_ok l /\ length l = (2 * length xs)%nat.
Proof.
  induction 1 as [|x xs Hx _ (l & Hl & Hb & Hn)]; simpl.
  - eexists; repeat split; constructor.
  - rewrite (pack_H_ok x Hx). simpl. rewrite Hl. simpl. eexists; split; [done|].
    apply u16_split in Hx as [? ?]. split; [|simpl; lia].
    rewrite !bytes_ok_cons. auto.
Qed.

Lemma unpack_pack_Hs xs l : pack_Hs xs = Ok l -> unpack_Hs (length xs) l = Ok xs.
Proof.
  revert l. induction xs as [|x xs IH]; intros l; simpl; [by intros [= <-]|].
  intros (h & Hh & (t & Ht & [= <-])%obind_ok)%obind_ok.
  apply pack_H_inv in Hh as [_ ->]. simpl. rewrite (IH _ Ht). simpl. by rewrite u16_join.
Qed.

Lemma py_bytes_settled l : settled (py_bytes l).
Proof. unfold py_bytes, settled. by case_decide. Qed.

Lemma pack_H_settled x : settled (pack_H x).
Proof. unfold pack_H, settled. by case_decide. Qed.

Lemma pack_Hs_settled xs : settled (pack_Hs xs).
Proof.
  induction xs; simpl; [done|]. apply obind_settled; [apply pack_H_settled|].
  intros. by apply obind_settled.
Qed.

Lemma unpack_Hs_settled n l : settled (unpack_Hs n l).
Proof.
  revert l. induction n as [|n IH]; intros [|h [|? l]]; simpl; try done.
  apply obind_settled; [apply IH|done].
Qed.

#[export] Hint Resolve py_bytes_settled pack_H_settled pack_Hs_settled unpack_Hs_settled : wbmge.
(** The two errors of packing a value into bytes. *)
Definition build_error (e : exn) : bool :=
  bool_decide (e = ValueError) || bool_decide (e = StructError).

Lemma py_bytes_raises l : raises_only build_error (py_bytes l).
Proof. unfold py_bytes. by case_decide. Qed.

Lemma pack_H_raises x : raises_only build_error (pack_H x).
Proof. unfold pack_H. by case_decide. Qed.

Lemma pack_Hs_raises xs : raises_only build_error (pack_Hs xs).
Proof. induction xs; simpl; auto using obind_raises, ok_raises, pack_H_raises. Qed.

Lemma unpack_Hs_raises n l : raises_only build_error (unpack_Hs n l).
Proof.
  revert l. induction n as [|n IH]; intros [|h [|? l]]; simpl; try done.
  apply obind_raises; [apply IH|done].
Qed.

#[export] Hint Resolve py_bytes_raises pack_H_raises pack_Hs_raises unpack_Hs_raises : wbmge.
#[export] Hint Resolve bytes_ok_nil bytes_ok_take bytes_ok_drop bytes_ok_replicate
  bytes_ok_slice byte_at_ok land_255_byte : wbmge.
