(* ===== verification/PyStr.v ===== *)
(** * Python strings

    Text is a [string]; the operations below are Python's [str] methods
    restricted to ASCII (the texts the sources parse are ASCII: ports, pids,
    make flags, unified diffs, unit-test logs).  Non-ASCII characters only
    occur in messages and are carried as their UTF-8 bytes. *)

From Stdlib Require Import ZArith Lia Ascii String.
From stdpp Require Import base list strings.
From S2P Require Import Prelude.

Open Scope Z_scope.

(** [str.isspace] on ASCII. *)
Definition is_space (c : ascii) : bool :=
  let n := nat_of_ascii c in
  ((9 <=? n) && (n <=? 13) || (28 <=? n) && (n <=? 32))%nat.

Definition digit_val (c : ascii) : option Z :=
  let n := Z.of_nat (nat_of_ascii c) in
  if (48 <=? n) && (n <=? 57) then Some (n - 48) else None.

Definition is_digit (c : ascii) : bool := bool_decide (is_Some (digit_val c)).

(** [str.isalnum] for one ASCII character. *)
Definition is_alnum (c : ascii) : bool :=
  let n := nat_of_ascii c in
  is_digit c || ((65 <=? n) && (n <=? 90) || (97 <=? n) && (n <=? 122))%nat.

Fixpoint lstrip_by (p : ascii -> bool) (s : string) : string :=
  match s with
  | String c s' => if p c then lstrip_by p s' else s
  | EmptyString => s
  end.

Definition srev (s : string) : string := String.rev s.

Definition rstrip_by (p : ascii -> bool) (s : string) : string := srev (lstrip_by p (srev s)).

(** [s.strip()] *)
Definition strip (s : string) : string := rstrip_by is_space (lstrip_by is_space s).

Definition startswith (p s : string) : bool := String.prefix p s.

Fixpoint sdrop (n : nat) (s : string) : string :=
  match n, s with
  | S n, String _ s => sdrop n s
  | _, _ => s
  end.

Fixpoint stake (n : nat) (s : string) : string :=
  match n, s with
  | S n, String c s => String c (stake n s)
  | _, _ => EmptyString
  end.

(** [needle in hay] *)
Fixpoint contains (needle hay : string) : bool :=
  String.prefix needle hay ||
  match hay with
  | EmptyString => false
  | String _ hay' => contains needle hay'
  end.

Definition endswith (p s : string) : bool := String.prefix (srev p) (srev s).

(** [s.partition(c)]: head and tail around the first [c]; an empty tail
    when there is none. *)
Fixpoint partition_at (c : ascii) (s : string) : string * string :=
  match s with
  | EmptyString => (EmptyString, EmptyString)
  | String d s' =>
      if Ascii.eqb c d then (EmptyString, s')
      else let '(h, t) := partition_at c s' in (String d h, t)
  end.

(** [s.split(c)] for a one-character separator. *)
Fixpoint split_on (c : ascii) (s : string) : list string :=
  match s with
  | EmptyString => [EmptyString]
  | String d s' =>
      if Ascii.eqb c d then EmptyString :: split_on c s'
      else match split_on c s' with
           | h :: t => String d h :: t
           | [] => [String d EmptyString]
           end
  end.

(** [s.split()]: maximal runs of non-whitespace. *)
Fixpoint split_ws_go (cur : string) (s : string) : list string :=
  match s with
  | EmptyString => if String.eqb cur "" then [] else [srev cur]
  | String c s' =>
      if is_space c then
        if String.eqb cur "" then split_ws_go "" s'
        else srev cur :: split_ws_go "" s'
      else split_ws_go (String c cur) s'
  end.

Definition split_ws (s : string) : list string := split_ws_go "" s.

(** The ASCII line boundaries of [str.splitlines]. *)
Definition is_break (c : ascii) : bool :=
  let n := nat_of_ascii c in
  ((10 <=? n) && (n <=? 13) || (28 <=? n) && (n <=? 30))%nat.

Definition CR : ascii := "013"%char.
Definition LF : ascii := "010"%char.

(** [cur] is the current line, reversed. *)
Fixpoint splitlines_go (cur : string) (s : string) : list string :=
  match s with
  | EmptyString => if String.eqb cur "" then [] else [srev cur]
  | String c s' =>
      if is_break c then
        srev cur ::
        match s' with
        | String d s'' =>
            if Ascii.eqb c CR && Ascii.eqb d LF then splitlines_go "" s'' else splitlines_go "" s'
        | EmptyString => []
        end
      else splitlines_go (String c cur) s'
  end.

Definition splitlines (s : string) : list string := splitlines_go "" s.

(** A text file opened with mode ["r"]: CR LF and CR are read as LF. *)
Fixpoint universal_newlines (s : string) : string :=
  match s with
  | EmptyString => EmptyString
  | String c s' =>
      if Ascii.eqb c CR then
        match s' with
        | String d s'' => if Ascii.eqb d LF then String LF (universal_newlines s'')
                          else String LF (universal_newlines s')
        | EmptyString => String LF EmptyString
        end
      else String c (universal_newlines s')
  end.

Fixpoint all_chars (p : ascii -> bool) (s : string) : bool :=
  match s with
  | EmptyString => true
  | String c s' => p c && all_chars p s'
  end.

Fixpoint any_char (p : ascii -> bool) (s : string) : bool :=
  match s with
  | EmptyString => false
  | String c s' => p c || any_char p s'
  end.

(** [s.isdigit()]: non-empty and digits only. *)
Definition isdigit (s : string) : bool := negb (String.eqb s "") && all_chars is_digit s.

(** ** [int(s)]

    Optional surrounding whitespace, an optional sign, and decimal digits
    with single underscores between digits. *)
Fixpoint int_digits (acc : Z) (s : string) : option Z :=
  match s with
  | EmptyString => Some acc
  | String c s' =>
      match digit_val c with
      | Some d => int_digits (10 * acc + d) s'
      | None =>
          if Ascii.eqb c "_" then
            match s' with
            | String c' s'' =>
                match digit_val c' with
                | Some d => int_digits (10 * acc + d) s''
                | None => None
                end
            | EmptyString => None
            end
          else None
      end
  end.

Definition int_unsigned (s : string) : option Z :=
  match s with
  | String c s' =>
      match digit_val c with
      | Some d => int_digits d s'
      | None => None
      end
  | EmptyString => None
  end.

Definition py_int_opt (s : string) : option Z :=
  match strip s with
  | String c s' =>
      if Ascii.eqb c "-" then Z.opp <$> int_unsigned s'
      else if Ascii.eqb c "+" then int_unsigned s'
      else int_unsigned (String c s')
  | EmptyString => None
  end.

Definition py_int (s : string) : outcome Z :=
  match py_int_opt s with
  | Some z => Ok z
  | None => Raise ValueError
  end.

(** ** [str(n)] *)
Definition digit_char (d : Z) : ascii := ascii_of_nat (48 + Z.to_nat d).

Fixpoint show_digits (fuel : nat) (n : Z) (tail : string) : string :=
  match fuel with
  | O => tail
  | S fuel =>
      if n <? 10 then String (digit_char n) tail
      else show_digits fuel (n / 10) (String (digit_char (n mod 10)) tail)
  end.

Definition show_nonneg (n : Z) : string := show_digits (S (Z.to_nat (Z.log2 n))) n "".

Definition show_Z (n : Z) : string :=
  if n <? 0 then "-" +:+ show_nonneg (- n) else show_nonneg n.

(** [sep.join(l)] *)
Fixpoint join (sep : string) (l : list string) : string :=
  match l with
  | [] => ""
  | [x] => x
  | x :: l => x +:+ sep +:+ join sep l
  end.

Arguments digit_char : simpl never.
Arguments digit_val : simpl never.
Arguments is_digit : simpl never.
Arguments is_space : simpl never.

(** ** Lemmas *)

Lemma digit_val_char d : 0 <= d < 10 -> digit_val (digit_char d) = Some d.
Proof.
  intros Hd. unfold digit_val, digit_char.
  rewrite nat_ascii_embedding by lia.
  assert ((48 <=? Z.of_nat (48 + Z.to_nat d)) = true) as -> by (apply Z.leb_le; lia).
  assert ((Z.of_nat (48 + Z.to_nat d) <=? 57) = true) as -> by (apply Z.leb_le; lia).
  cbn [andb]. f_equal. lia.
Qed.

Lemma int_digits_show fuel n tail :
  0 <= n < 10 ^ Z.of_nat fuel ->
  int_digits 0 (show_digits fuel n tail) = int_digits n tail.
Proof.
  revert n tail. induction fuel as [|fuel IH]; intros n tail Hn; cbn [show_digits].
  { simpl in Hn. by replace n with 0 by lia. }
  destruct (n <? 10) eqn:E; bool_to_prop.
  - cbn [int_digits]. rewrite digit_val_char by lia. done.
  - rewrite IH.
    + cbn [int_digits]. rewrite digit_val_char by (apply Z.mod_pos_bound; lia).
      f_equal. pose proof (Z.div_mod n 10). lia.
    + rewrite Nat2Z.inj_succ, Z.pow_succ_r in Hn by lia.
      split; [apply Z.div_pos; lia|]. apply Z.div_lt_upper_bound; lia.
Qed.

Lemma show_nonneg_bound n : 0 <= n -> 0 <= n < 10 ^ Z.of_nat (S (Z.to_nat (Z.log2 n))).
Proof.
  intros Hn. split; [done|]. pose proof (Z.log2_nonneg n) as Hl.
  replace (Z.of_nat (S (Z.to_nat (Z.log2 n)))) with (Z.succ (Z.log2 n)) by lia.
  destruct (Z.eq_dec n 0) as [->|]; [simpl; lia|].
  pose proof (Z.log2_spec n ltac:(lia)).
  pose proof (Z.pow_le_mono_l 2 10 (Z.succ (Z.log2 n)) ltac:(lia)). lia.
Qed.

(** Decimal text is digits only, and not empty. *)
Lemma show_digits_all fuel n tail :
  0 <= n -> all_chars is_digit (show_digits fuel n tail) = all_chars is_digit tail.
Proof.
  assert (forall d, 0 <= d < 10 -> is_digit (digit_char d) = true) as Hc.
  { intros d Hd. unfold is_digit. rewrite digit_val_char by done. done. }
  revert n tail. induction fuel as [|fuel IH]; intros n tail Hn; cbn [show_digits]; [done|].
  destruct (n <? 10) eqn:E; bool_to_prop.
  - cbn [all_chars]. by rewrite Hc by lia.
  - rewrite IH by (apply Z.div_pos; lia). cbn [all_chars].
    rewrite Hc; [done|]. apply Z.mod_pos_bound; lia.
Qed.

Lemma show_digits_cons fuel n tail :
  exists c s, show_digits (S fuel) n tail = String c s.
Proof.
  revert n tail. induction fuel as [|fuel IH]; intros n tail.
  - simpl. split_match; eauto.
  - cbn [show_digits]. destruct (n <? 10); [eauto|]. apply IH.
Qed.

Lemma rev_app_rev_app s1 s2 s3 :
  String.rev_app (String.rev_app s1 s2) s3 = String.rev_app s2 (s1 +:+ s3).
Proof.
  revert s2 s3. induction s1 as [|c s1 IH]; intros s2 s3; [done|].
  cbn [String.rev_app]. rewrite IH. done.
Qed.

Lemma sapp_nil_r s : s +:+ "" = s.
Proof.
  induction s as [|c s IH]; [done|].
  change (String c s +:+ "") with (String c (s +:+ "")). by rewrite IH.
Qed.

Lemma srev_involutive s : srev (srev s) = s.
Proof. unfold srev, String.rev. rewrite rev_app_rev_app. apply sapp_nil_r. Qed.

Lemma all_chars_rev_app p s1 s2 :
  all_chars p (String.rev_app s1 s2) = all_chars p s1 && all_chars p s2.
Proof.
  revert s2. induction s1 as [|c s1 IH]; intros s2; [done|].
  cbn [String.rev_app all_chars]. rewrite IH. cbn [all_chars].
  rewrite (andb_comm (p c) (all_chars p s1)). by rewrite andb_assoc.
Qed.

Lemma all_chars_srev p s : all_chars p (srev s) = all_chars p s.
Proof. unfold srev, String.rev. rewrite all_chars_rev_app. apply andb_true_r. Qed.

Lemma lstrip_id p s : all_chars (fun c => negb (p c)) s = true -> lstrip_by p s = s.
Proof. destruct s as [|c s]; [done|]. cbn [all_chars lstrip_by]. by destruct (p c). Qed.

Lemma strip_id s : all_chars (fun c => negb (is_space c)) s = true -> strip s = s.
Proof.
  intros H. unfold strip, rstrip_by. rewrite (lstrip_id _ _ H).
  rewrite lstrip_id by by rewrite all_chars_srev. apply srev_involutive.
Qed.

Lemma digit_not_space c : is_digit c = true -> is_space c = false.
Proof.
  unfold is_digit, digit_val, is_space. intros H. bool_to_prop.
  destruct ((48 <=? Z.of_nat (nat_of_ascii c)) && (Z.of_nat (nat_of_ascii c) <=? 57)) eqn:E;
    [|by destruct H]. bool_to_prop.
  apply orb_false_iff; split; apply andb_false_iff; right; apply Nat.leb_gt; lia.
Qed.

Lemma all_chars_impl (p q : ascii -> bool) s :
  (forall c, p c = true -> q c = true) -> all_chars p s = true -> all_chars q s = true.
Proof.
  intros Hpq. induction s as [|c s IH]; [done|]. cbn [all_chars].
  rewrite !andb_true_iff. intros [? ?]. auto.
Qed.

Lemma show_nonneg_digits n : 0 <= n -> all_chars is_digit (show_nonneg n) = true.
Proof. intros. unfold show_nonneg. by rewrite show_digits_all. Qed.

Lemma int_unsigned_show n : 0 <= n -> int_unsigned (show_nonneg n) = Some n.
Proof.
  intros Hn. pose proof (show_nonneg_digits n Hn) as Hd.
  pose proof (int_digits_show _ n "" (show_nonneg_bound n Hn)) as Hi.
  unfold show_nonneg in *. destruct (show_digits_cons (Z.to_nat (Z.log2 n)) n "") as (c & s & E).
  rewrite E in *. cbn [int_unsigned int_digits all_chars] in *. bool_to_prop.
  unfold is_digit in *. bool_to_prop. destruct H as [d Hdv]. rewrite Hdv in *. exact Hi.
Qed.

Lemma ascii_eqb_digit c d : is_digit c = true -> is_digit d = false -> Ascii.eqb c d = false.
Proof. intros H1 H2. apply Ascii.eqb_neq. intros ->. congruence. Qed.

(** Printing a number and reading it back with [int] is the identity. *)
Lemma py_int_show n : py_int (show_Z n) = Ok n.
Proof.
  unfold py_int, py_int_opt, show_Z. destruct (n <? 0) eqn:E; bool_to_prop.
  - pose proof (show_nonneg_digits (- n) ltac:(lia)) as Hd.
    rewrite strip_id.
    + change ("-" +:+ show_nonneg (- n)) with (String "-" (show_nonneg (- n))).
      change (Ascii.eqb "-" "-") with true. cbv iota.
      rewrite int_unsigned_show by lia. simpl. f_equal. lia.
    + change ("-" +:+ show_nonneg (- n)) with (String "-" (show_nonneg (- n))).
      cbn [all_chars]. apply andb_true_iff. split; [done|].
      eapply all_chars_impl; [|exact Hd]. intros c ->%digit_not_space. done.
  - pose proof (show_nonneg_digits n ltac:(lia)) as Hd.
    pose proof (int_unsigned_show n ltac:(lia)) as Hi.
    rewrite strip_id.
    + destruct (show_nonneg n) as [|c s]; [done|]. cbn [all_chars] in Hd. bool_to_prop.
      rewrite !ascii_eqb_digit, Hi by done. done.
    + eapply all_chars_impl; [|exact Hd]. intros c ->%digit_not_space. done.
Qed.

(** A decimal text is equal to another only for the same number. *)
Lemma show_Z_inj m n : show_Z m = show_Z n -> m = n.
Proof. intros E. pose proof (py_int_show m) as Hm. rewrite E, py_int_show in Hm. congruence. Qed.

#[export] Instance show_Z_Inj : Inj (=) (=) show_Z.
Proof. intros m n. apply show_Z_inj. Qed.

(** ** Splitting and the texts it is applied to *)

Definition no_char (c : ascii) (s : string) : bool := all_chars (fun d => negb (Ascii.eqb c d)) s.

Lemma sapp_cons c s t : String c s +:+ t = String c (s +:+ t).
Proof. done. Qed.

Lemma sapp_nil t : "" +:+ t = t.
Proof. done. Qed.

Lemma sapp_assoc s t u : (s +:+ t) +:+ u = s +:+ (t +:+ u).
Proof. induction s as [|c s IH]; [done|]. by rewrite !sapp_cons, IH. Qed.

Lemma all_chars_app p s t : all_chars p (s +:+ t) = all_chars p s && all_chars p t.
Proof.
  induction s as [|c s IH]; [done|]. rewrite sapp_cons. cbn [all_chars].
  by rewrite IH, andb_assoc.
Qed.

Lemma no_char_app c s t : no_char c (s +:+ t) = no_char c s && no_char c t.
Proof. apply all_chars_app. Qed.

Lemma split_on_none c s : no_char c s = true -> split_on c s = [s].
Proof.
  induction s as [|d s IH]; [done|]. unfold no_char. cbn [all_chars split_on]. intros H.
  bool_to_prop. rewrite H, IH; done.
Qed.

Lemma split_on_app c s t :
  no_char c s = true -> split_on c (s +:+ String c t) = s :: split_on c t.
Proof.
  induction s as [|d s IH].
  - intros _. rewrite sapp_nil. cbn [split_on]. by rewrite Ascii.eqb_refl.
  - unfold no_char. cbn [all_chars]. intros H. bool_to_prop. rewrite sapp_cons.
    cbn [split_on]. rewrite H, IH; done.
Qed.

Lemma split_on_nonempty c s : split_on c s <> [].
Proof. destruct s as [|d s]; [done|]. cbn [split_on]. repeat split_match; done. Qed.

(** Splitting a joined list gives the list back. *)
Lemma split_on_join c l :
  l <> [] -> Forall (fun s => no_char c s = true) l ->
  split_on c (join (String c "") l) = l.
Proof.
  intros Hl. induction 1 as [|s l Hs Hall IH]; [done|]. destruct l as [|t l].
  - cbn [join]. by apply split_on_none.
  - change (join (String c "") (s :: t :: l))
      with (s +:+ String c (join (String c "") (t :: l))).
    rewrite split_on_app by done. f_equal. apply IH. done.
Qed.

Lemma partition_at_app c s t :
  no_char c s = true -> partition_at c (s +:+ String c t) = (s, t).
Proof.
  induction s as [|d s IH].
  - intros _. rewrite sapp_nil. cbn [partition_at]. by rewrite Ascii.eqb_refl.
  - unfold no_char. cbn [all_chars]. intros H. bool_to_prop. rewrite sapp_cons.
    cbn [partition_at]. rewrite H, IH by done. done.
Qed.

Lemma show_Z_nonneg_digits n : 0 <= n -> all_chars is_digit (show_Z n) = true.
Proof.
  intros Hn. unfold show_Z. destruct (n <? 0) eqn:E; bool_to_prop; [lia|].
  by apply show_nonneg_digits.
Qed.

Lemma no_char_show c n : 0 <= n -> is_digit c = false -> no_char c (show_Z n) = true.
Proof.
  intros Hn Hc. eapply all_chars_impl; [|apply show_Z_nonneg_digits, Hn].
  intros d Hd. apply negb_true_iff, Ascii.eqb_neq. intros ->. congruence.
Qed.

Lemma py_int_opt_show n : py_int_opt (show_Z n) = Some n.
Proof. pose proof (py_int_show n) as H. unfold py_int in H. split_match_in H; congruence. Qed.

Lemma show_Z_nonempty n : show_Z n <> "".
Proof. intros E. pose proof (py_int_show n) as H. rewrite E in H. discriminate H. Qed.

Lemma split_ws_go_word cur s :
  all_chars (fun c => negb (is_space c)) s = true -> cur <> "" \/ s <> "" ->
  split_ws_go cur s = [String.rev_app cur s].
Proof.
  revert cur. induction s as [|c s IH]; intros cur Hs Hne.
  - cbn [split_ws_go]. destruct (String.eqb_spec cur ""); [tauto|done].
  - cbn [all_chars split_ws_go] in *. bool_to_prop. rewrite H, IH; [done|done|left; done].
Qed.

(** A text without whitespace is its own single word. *)
Lemma split_ws_word s :
  all_chars (fun c => negb (is_space c)) s = true -> s <> "" -> split_ws s = [s].
Proof. intros Hs Hne. unfold split_ws. rewrite split_ws_go_word by auto. done. Qed.

Lemma startswith_app p s : startswith p (p +:+ s) = true.
Proof.
  unfold startswith. induction p as [|c p IH]; [by destruct s|]. rewrite sapp_cons. cbn.
  destruct (ascii_dec c c); done.
Qed.

Lemma sdrop_app p s : sdrop (String.length p) (p +:+ s) = s.
Proof. induction p as [|c p IH]; [by destruct s|]. rewrite sapp_cons. exact IH. Qed.

Lemma sapp_length s t : String.length (s +:+ t) = (String.length s + String.length t)%nat.
Proof. induction s as [|c s IH]; [done|]. rewrite sapp_cons. cbn. by rewrite IH. Qed.

Lemma stake_all n s : (String.length s <= n)%nat -> stake n s = s.
Proof.
  revert n. induction s as [|c s IH]; intros [|n] H; cbn in *; try done; [lia|]. rewrite IH; [done|lia].
Qed.

(** A number below [10 ^ k] has at most [k] digits. *)
Lemma show_digits_length fuel k n tail :
  0 <= n < 10 ^ Z.of_nat (S k) -> (String.length (show_digits fuel n tail) <= S k + String.length tail)%nat.
Proof.
  revert fuel n tail. induction k as [|k IH]; intros [|fuel] n tail H; cbn [show_digits]; try lia.
  - replace (n <? 10) with true by (symmetry; apply Z.ltb_lt; cbn in H; lia). cbn. lia.
  - destruct (n <? 10) eqn:E; bool_to_prop; [cbn; lia|].
    etransitivity; [apply IH|cbn; lia]. rewrite Nat2Z.inj_succ, Z.pow_succ_r in H by lia.
    split; [apply Z.div_pos; lia|apply Z.div_lt_upper_bound; lia].
Qed.

Lemma show_Z_length k n : 0 <= n < 10 ^ Z.of_nat (S k) -> (String.length (show_Z n) <= S k)%nat.
Proof.
  intros H. unfold show_Z. destruct (n <? 0) eqn:E; bool_to_prop; [lia|]. unfold show_nonneg.
  etransitivity; [by apply (show_digits_length _ k)|]. cbn. lia.
Qed.
