(* ===== verification/ModbusCrc.v ===== *)
(** * CRC-16/Modbus

    [modbus_crc16] of api_tests/packet_injector.py, [_crc16] of
    api_tests/rtu_slave_helpers.py and of
    api_tests/39_test_gateway_large_rtu_response.py, and the firmware's
    [modbus_crc16] (main/bridge/modbus_helpers.c) against which the frames
    are checked on the device.  Python integers are unbounded; the firmware
    works on [uint16_t]. *)

From Stdlib Require Import ZArith Lia.
From stdpp Require Import base list.
From S2P Require Import Prelude PyBytes.

Open Scope Z_scope.

(** One round of the inner loop: shift, and xor the polynomial when the bit
    shifted out was set. *)
Definition crc_round (crc : Z) : Z :=
  if Z.land crc 1 =? 0 then Z.shiftr crc 1 else Z.lxor (Z.shiftr crc 1) 0xA001.

(** [for _ in range(8): ...] *)
Definition crc_byte (crc byte : Z) : Z := Nat.iter 8 crc_round (Z.lxor crc byte).

(** packet_injector.modbus_crc16 *)
Definition modbus_crc16 (data : list Z) : Z := fold_left crc_byte data 0xFFFF.

(** rtu_slave_helpers._crc16 and 39_'s _crc16: the same loop with the round
    written as a conditional expression. *)
Definition crc_round_cond (crc : Z) : Z :=
  let crc' := Z.shiftr crc 1 in
  if Z.land crc 1 =? 0 then crc' else Z.lxor crc' 0xA001.

Definition _crc16 (data : list Z) : Z :=
  fold_left (fun crc b => Nat.iter 8 crc_round_cond (Z.lxor crc b)) data 0xFFFF.

(** packet_injector.append_crc: payload ++ crc.to_bytes(2, little). *)
Definition append_crc (payload : list Z) : list Z :=
  let crc := modbus_crc16 payload in payload ++ [crc mod 256; crc / 256].

(** The firmware routine on [uint16_t] values: every store wraps. *)
Module Firmware.
Definition u16 (x : Z) : Z := x mod 65536.

Fixpoint bits (n : nat) (crc : Z) : Z :=
  match n with
  | O => crc
  | S n =>
      if Z.land crc 1 =? 0 then bits n (u16 (Z.shiftr crc 1))
      else bits n (u16 (Z.lxor (u16 (Z.shiftr crc 1)) 0xA001))
  end.

(** The [pos < len] loop over the buffer, [pos] a [uint16_t]. *)
Fixpoint loop (n : nat) (pos : nat) (data : list Z) (crc : Z) : Z :=
  match n with
  | O => crc
  | S n => loop n (S pos) data (bits 8 (u16 (Z.lxor crc (u16 (byte_at data pos)))))
  end.

Definition fw_modbus_crc16 (data : list Z) (len : Z) : Z :=
  loop (Z.to_nat len) 0 data 0xFFFF.

(** stream_splitter.c frame_crc_ok: the last two bytes carry the CRC of the
    rest, low byte first. *)
Definition frame_crc_ok (buf : list Z) (len : Z) : bool :=
  if len <? 4 then false
  else
    let crc := fw_modbus_crc16 buf (u16 (len - 2)) in
    let crc_lo := Z.land crc 255 in
    let crc_hi := Z.shiftr crc 8 in
    (byte_at buf (Z.to_nat (len - 2)) =? crc_lo)
    && (byte_at buf (Z.to_nat (len - 1)) =? crc_hi).
End Firmware.

Arguments crc_byte : simpl never.
Arguments modbus_crc16 : simpl never.
Arguments append_crc : simpl never.
Arguments Firmware.bits : simpl never.

(** ** One round on 16-bit values *)

Lemma crc_round_even x : crc_round (2 * x) = x.
Proof.
  unfold crc_round. rewrite land_1, Z.mul_comm, Z.mod_mul by lia. simpl.
  rewrite Z.shiftr_div_pow2 by lia. change (2 ^ 1) with 2. by rewrite Z.div_mul.
Qed.

Lemma shiftr_1_range c : is_u16 c -> 0 <= Z.shiftr c 1 < 2 ^ 15.
Proof.
  unfold is_u16. intros. rewrite Z.shiftr_div_pow2 by lia. change (2 ^ 1) with 2.
  split; [apply Z.div_pos; lia | apply Z.div_lt_upper_bound; lia].
Qed.

Lemma crc_round_u16 c : is_u16 c -> is_u16 (crc_round c).
Proof.
  intros H. pose proof (shiftr_1_range c H). unfold crc_round, is_u16 in *.
  split_match; [lia|]. apply (lxor_range 16); lia.
Qed.

(** A round is linear over xor. *)
Lemma crc_round_lxor a b : crc_round (Z.lxor a b) = Z.lxor (crc_round a) (crc_round b).
Proof.
  unfold crc_round. rewrite Z.shiftr_lxor.
  assert (forall x, (Z.land x 1 =? 0) = negb (Z.testbit x 0)) as E.
  { intros x. rewrite land_1, <- Z.bit0_mod. by destruct (Z.testbit x 0). }
  rewrite !E, Z.lxor_spec.
  set (u := Z.shiftr a 1). set (v := Z.shiftr b 1).
  destruct (Z.testbit a 0), (Z.testbit b 0); simpl; apply Z.bits_inj'; intros i _;
    rewrite ?Z.lxor_spec;
    destruct (Z.testbit u i), (Z.testbit v i), (Z.testbit 40961 i); reflexivity.
Qed.

(** The inverse round: bit 15 tells whether the polynomial was applied. *)
Definition crc_unround (r : Z) : Z :=
  if r <? 32768 then 2 * r else 2 * Z.lxor r 0xA001 + 1.

Lemma lxor_poly_high x : 0 <= x < 2 ^ 15 -> 32768 <= Z.lxor x 0xA001.
Proof.
  intros Hx. assert (Z.testbit (Z.lxor x 0xA001) 15 = true) as Hb.
  { rewrite Z.lxor_spec, (Z.bits_above_log2 x 15); [done|lia|].
    destruct (Z.eq_dec x 0) as [->|]; [simpl; lia|apply Z.log2_lt_pow2; lia]. }
  pose proof (lxor_range 16 x 0xA001 ltac:(lia) ltac:(lia) ltac:(lia)) as Hr.
  destruct (Z.lt_ge_cases (Z.lxor x 0xA001) 32768) as [Hlt|]; [|done]. exfalso.
  rewrite (Z.bits_above_log2 _ 15) in Hb; [done|lia|].
  destruct (Z.eq_dec (Z.lxor x 0xA001) 0) as [->|]; [simpl; lia|].
  apply Z.log2_lt_pow2; lia.
Qed.

Lemma crc_unround_round c : is_u16 c -> crc_unround (crc_round c) = c.
Proof.
  intros H. pose proof (shiftr_1_range c H) as Hs. unfold crc_round, crc_unround.
  assert (c = 2 * Z.shiftr c 1 + Z.land c 1) as Ec.
  { rewrite land_1, Z.shiftr_div_pow2 by lia. change (2 ^ 1) with 2.
    pose proof (Z.div_mod c 2). lia. }
  rewrite land_1 in *. pose proof (Z.mod_pos_bound c 2 ltac:(lia)).
  destruct (c mod 2 =? 0) eqn:E; bool_to_prop.
  - assert ((Z.shiftr c 1 <? 32768) = true) as -> by (apply Z.ltb_lt; lia). lia.
  - pose proof (lxor_poly_high _ Hs).
    assert ((Z.lxor (Z.shiftr c 1) 40961 <? 32768) = false) as -> by (apply Z.ltb_ge; lia).
    rewrite Z.lxor_assoc, Z.lxor_nilpotent, Z.lxor_0_r. lia.
Qed.

(** ** Iterated rounds *)

Lemma rounds_u16 n c : is_u16 c -> is_u16 (Nat.iter n crc_round c).
Proof. intros. induction n; simpl; auto using crc_round_u16. Qed.

Lemma rounds_lxor n a b :
  Nat.iter n crc_round (Z.lxor a b) = Z.lxor (Nat.iter n crc_round a) (Nat.iter n crc_round b).
Proof. induction n; simpl; [done|]. rewrite IHn. apply crc_round_lxor. Qed.

Lemma rounds_inj n a b :
  is_u16 a -> is_u16 b -> Nat.iter n crc_round a = Nat.iter n crc_round b -> a = b.
Proof.
  intros Ha Hb. induction n; simpl; [done|]. intros E. apply IHn.
  rewrite <- (crc_unround_round (Nat.iter n crc_round a)), E by auto using rounds_u16.
  apply crc_unround_round, rounds_u16, Hb.
Qed.

(** Eight rounds shift a value with a clear low byte down by one byte. *)
Lemma rounds_high h : Nat.iter 8 crc_round (256 * h) = h.
Proof.
  simpl.
  replace (256 * h) with (2 * (2 * (2 * (2 * (2 * (2 * (2 * (2 * h)))))))) by lia.
  by rewrite !crc_round_even.
Qed.

Lemma crc_byte_u16 c b : is_u16 c -> is_byte b -> is_u16 (crc_byte c b).
Proof.
  intros. unfold crc_byte. apply rounds_u16. unfold is_u16, is_byte in *.
  apply (lxor_range 16); lia.
Qed.

Lemma crc_fold_u16 l c : bytes_ok l -> is_u16 c -> is_u16 (fold_left crc_byte l c).
Proof.
  revert c. induction l as [|b l IH]; intros c; simpl; [done|].
  rewrite bytes_ok_cons. intros [? ?] ?. apply IH; auto using crc_byte_u16.
Qed.

Lemma modbus_crc16_u16 l : bytes_ok l -> is_u16 (modbus_crc16 l).
Proof. intros. apply crc_fold_u16; [done|]. unfold is_u16; lia. Qed.

Lemma crc_byte_inj a b x :
  is_u16 a -> is_u16 b -> is_byte x -> crc_byte a x = crc_byte b x -> a = b.
Proof.
  unfold crc_byte. intros Ha Hb Hx E. apply rounds_inj in E;
    [|unfold is_u16, is_byte in *; apply (lxor_range 16); lia..].
  apply (f_equal (fun y => Z.lxor y x)) in E.
  by rewrite !Z.lxor_assoc, Z.lxor_nilpotent, !Z.lxor_0_r in E.
Qed.

(** The state after a common suffix determines the state before it. *)
Lemma crc_fold_inj l a b :
  bytes_ok l -> is_u16 a -> is_u16 b ->
  fold_left crc_byte l a = fold_left crc_byte l b -> a = b.
Proof.
  revert a b. induction l as [|x l IH]; intros a b; simpl; [done|].
  rewrite bytes_ok_cons. intros [Hx Hl] Ha Hb E.
  apply IH in E; auto using crc_byte_u16. eauto using crc_byte_inj.
Qed.

(** Two bytes fed one after the other are sixteen rounds on one 16-bit word. *)
Lemma crc_two_bytes c x y :
  crc_byte (crc_byte c x) y = Nat.iter 16 crc_round (Z.lxor c (Z.lxor x (256 * y))).
Proof.
  unfold crc_byte. change 16%nat with (8 + 8)%nat.
  by rewrite Nat.iter_add, <- Z.lxor_assoc, (rounds_lxor 8 (Z.lxor c x)), rounds_high.
Qed.

Lemma lxor_bytes x y : is_byte x -> is_byte y -> Z.lxor x (256 * y) = x + 256 * y.
Proof. intros Hx Hy. symmetry. by apply Z.add_nocarry_lxor, land_byte_high. Qed.

Lemma crc_two_bytes_inj c x y x' y' :
  is_u16 c -> is_byte x -> is_byte y -> is_byte x' -> is_byte y' ->
  crc_byte (crc_byte c x) y = crc_byte (crc_byte c x') y' -> x = x' /\ y = y'.
Proof.
  intros Hc Hx Hy Hx' Hy'. rewrite !crc_two_bytes, !lxor_bytes by done.
  intros E. unfold is_u16, is_byte in *.
  apply rounds_inj in E; [|apply (lxor_range 16); lia..].
  apply (f_equal (Z.lxor c)) in E.
  rewrite <- !Z.lxor_assoc, Z.lxor_nilpotent, !Z.lxor_0_l in E. lia.
Qed.

(** ** The two Python spellings and the firmware routine *)

Lemma crc16_modbus data : _crc16 data = modbus_crc16 data.
Proof. reflexivity. Qed.

Lemma fw_bits_S n crc :
  Firmware.bits (S n) crc =
  if Z.land crc 1 =? 0 then Firmware.bits n (Firmware.u16 (Z.shiftr crc 1))
  else Firmware.bits n (Firmware.u16 (Z.lxor (Firmware.u16 (Z.shiftr crc 1)) 0xA001)).
Proof. reflexivity. Qed.

Lemma fw_bits_rounds n crc : is_u16 crc -> Firmware.bits n crc = Nat.iter n crc_round crc.
Proof.
  revert crc. induction n as [|n IH]; intros crc Hc; [done|].
  rewrite Nat.iter_succ_r, fw_bits_S.
  pose proof (shiftr_1_range crc Hc).
  pose proof (crc_round_u16 crc Hc) as Hr. revert Hr. unfold crc_round, Firmware.u16.
  rewrite (Z.mod_small (Z.shiftr crc 1)) by lia.
  split_match; intros Hr; [by rewrite IH|].
  unfold is_u16 in *. rewrite Z.mod_small by lia. by apply IH.
Qed.

Lemma fw_loop_fold n data pos crc :
  bytes_ok data -> is_u16 crc -> (pos + n <= length data)%nat ->
  Firmware.loop n pos data crc = fold_left crc_byte (slice pos (pos + n) data) crc.
Proof.
  intros Hd. unfold slice. rewrite Nat.add_comm, Nat.add_sub. rewrite Nat.add_comm.
  revert pos crc. induction n as [|n IH]; intros pos crc Hc Hn; cbn [Firmware.loop]; [done|].
  destruct (lookup_lt_is_Some_2 data pos) as [b Hb]; [lia|].
  assert (is_byte b) as Hbb by (eapply Forall_lookup_1; eauto).
  assert (byte_at data pos = b) as -> by (unfold byte_at; by rewrite Hb).
  rewrite (drop_S _ _ _ Hb). cbn [take fold_left].
  rewrite <- IH by (auto using crc_byte_u16; lia).
  f_equal. unfold crc_byte. rewrite <- fw_bits_rounds.
  all: unfold Firmware.u16, is_byte, is_u16 in *.
  - rewrite (Z.mod_small b), Z.mod_small; [done| |lia]. apply (lxor_range 16); lia.
  - apply (lxor_range 16); lia.
Qed.

Lemma fw_crc_prefix data k :
  bytes_ok data -> (k <= length data)%nat ->
  Firmware.fw_modbus_crc16 data (Z.of_nat k) = modbus_crc16 (take k data).
Proof.
  intros Hd Hk. unfold Firmware.fw_modbus_crc16. rewrite Nat2Z.id.
  rewrite fw_loop_fold; [|done|unfold is_u16; lia|lia].
  unfold slice. by rewrite drop_0, Nat.sub_0_r.
Qed.

(** ** Appending the CRC *)

Lemma modbus_crc16_app p l : modbus_crc16 (p ++ l) = fold_left crc_byte l (modbus_crc16 p).
Proof. apply fold_left_app. Qed.

Lemma crc_fold_2 c x y : fold_left crc_byte [x; y] c = crc_byte (crc_byte c x) y.
Proof. reflexivity. Qed.

Lemma append_crc_length p : length (append_crc p) = (length p + 2)%nat.
Proof. unfold append_crc. rewrite length_app. simpl. lia. Qed.

Lemma append_crc_bytes p : bytes_ok p -> bytes_ok (append_crc p).
Proof.
  intros Hp. unfold append_crc. rewrite bytes_ok_app, !bytes_ok_cons.
  destruct (u16_split _ (modbus_crc16_u16 p Hp)). auto using bytes_ok_nil.
Qed.

Lemma take_append_crc p : take (length p) (append_crc p) = p.
Proof. unfold append_crc. by rewrite take_app_length. Qed.

Lemma append_crc_lo p : byte_at (append_crc p) (length p) = modbus_crc16 p mod 256.
Proof. unfold append_crc, byte_at. by rewrite lookup_app_r, Nat.sub_diag by lia. Qed.

Lemma append_crc_hi p : byte_at (append_crc p) (S (length p)) = modbus_crc16 p / 256.
Proof.
  unfold append_crc, byte_at. rewrite lookup_app_r by lia.
  by replace (S (length p) - length p)%nat with 1%nat by lia.
Qed.

(** The CRC of a frame including its own CRC bytes is zero. *)
Lemma append_crc_residue p : bytes_ok p -> modbus_crc16 (append_crc p) = 0.
Proof.
  intros Hp. unfold append_crc. rewrite modbus_crc16_app, crc_fold_2, crc_two_bytes.
  destruct (u16_split _ (modbus_crc16_u16 p Hp)).
  rewrite lxor_bytes, Z.add_comm, u16_join, Z.lxor_nilpotent by done. reflexivity.
Qed.

(** Conversely a zero residue pins the two CRC bytes. *)
Lemma residue_append_crc p lo hi :
  bytes_ok p -> is_byte lo -> is_byte hi ->
  modbus_crc16 (p ++ [lo; hi]) = 0 -> p ++ [lo; hi] = append_crc p.
Proof.
  intros Hp Hlo Hhi E. pose proof (append_crc_residue p Hp) as R.
  pose proof (modbus_crc16_u16 p Hp) as Hc. destruct (u16_split _ Hc) as [? ?].
  unfold append_crc in *. rewrite modbus_crc16_app, crc_fold_2 in E, R.
  rewrite <- R in E. apply crc_two_bytes_inj in E as [-> ->]; auto.
Qed.

(** The firmware's frame check is the zero-residue test. *)
Lemma frame_crc_ok_residue f :
  bytes_ok f -> (4 <= length f)%nat -> zlen f < 65538 ->
  Firmware.frame_crc_ok f (zlen f) = true <-> modbus_crc16 f = 0.
Proof.
  intros Hf Hn Hl. unfold zlen in *.
  destruct (exists_last (l := f)) as (f1 & hi & E1); [intros ->; simpl in *; lia|].
  destruct (exists_last (l := f1)) as (p & lo & E2); [intros ->; subst; simpl in *; lia|].
  assert (f = p ++ [lo; hi]) as E by (subst; by rewrite <- app_assoc).
  assert (length f = (length p + 2)%nat) as El by (rewrite E, length_app; done).
  assert (bytes_ok p /\ is_byte lo /\ is_byte hi) as (Hp & Hlo & Hhi).
  { rewrite E, bytes_ok_app, !bytes_ok_cons in Hf. tauto. }
  assert (Firmware.frame_crc_ok f (Z.of_nat (length f)) = true <->
          lo = modbus_crc16 p mod 256 /\ hi = modbus_crc16 p / 256) as ->.
  { unfold Firmware.frame_crc_ok, Firmware.u16.
    assert ((Z.of_nat (length f) <? 4) = false) as -> by (apply Z.ltb_ge; lia).
    rewrite El, Nat2Z.inj_add. change (Z.of_nat 2) with 2.
    replace (Z.of_nat (length p) + 2 - 2) with (Z.of_nat (length p)) by lia.
    rewrite Z.mod_small, fw_crc_prefix by (auto; lia).
    replace (Z.to_nat (Z.of_nat (length p) + 2 - 1)) with (S (length p)) by lia.
    rewrite Nat2Z.id, E, take_app_length, land_255, shiftr_8.
    unfold byte_at. rewrite !lookup_app_r, Nat.sub_diag by lia.
    replace (S (length p) - length p)%nat with 1%nat by lia. simpl.
    by rewrite andb_true_iff, !Z.eqb_eq. }
  split.
  - intros [-> ->]. rewrite E. by apply append_crc_residue.
  - rewrite E. intros R. apply residue_append_crc in R; auto.
    unfold append_crc in R. apply app_inv_head in R. by injection R as -> ->.
Qed.

(** A frame built by [append_crc] passes the firmware check. *)
Lemma append_crc_accepted p :
  bytes_ok p -> (2 <= length p)%nat -> zlen p < 65536 ->
  Firmware.frame_crc_ok (append_crc p) (zlen (append_crc p)) = true.
Proof.
  intros Hp Hn Hl. apply frame_crc_ok_residue; auto using append_crc_bytes, append_crc_residue;
    unfold zlen in *; rewrite append_crc_length; lia.
Qed.

(** A frame the firmware accepts, corrupted in any way within two adjacent
    bytes, is rejected by the firmware check. *)
Lemma burst_rejected pre x y x' y' suf :
  let f := pre ++ [x; y] ++ suf in
  let f' := pre ++ [x'; y'] ++ suf in
  bytes_ok f -> is_byte x' -> is_byte y' ->
  (4 <= length f)%nat -> zlen f < 65538 ->
  Firmware.frame_crc_ok f (zlen f) = true ->
  f' <> f -> Firmware.frame_crc_ok f' (zlen f') = false.
Proof.
  intros f f' Hf Hx' Hy' Hn Hl Hok Hne.
  assert (bytes_ok pre /\ is_byte x /\ is_byte y /\ bytes_ok suf) as (? & ? & ? & ?).
  { unfold f in Hf. rewrite !bytes_ok_app, !bytes_ok_cons in Hf. tauto. }
  assert (bytes_ok f') as Hf'.
  { unfold f'. rewrite !bytes_ok_app, !bytes_ok_cons. auto using bytes_ok_nil. }
  assert (length f' = length f) as El by (unfold f, f'; rewrite !length_app; done).
  apply not_true_is_false. unfold zlen in *. intros Hok'.
  apply frame_crc_ok_residue in Hok; auto.
  apply frame_crc_ok_residue in Hok'; unfold zlen; rewrite ?El; auto.
  rewrite <- Hok' in Hok. unfold f, f' in Hok.
  rewrite !modbus_crc16_app, !fold_left_app, !crc_fold_2 in Hok.
  pose proof (modbus_crc16_u16 pre).
  apply crc_fold_inj in Hok; auto using crc_byte_u16.
  apply crc_two_bytes_inj in Hok as [-> ->]; auto.
Qed.

(** C12. The firmware accepts what the injector sends, and only that.  The
    frame [append_crc] makes of any payload of at least two (and less than
    65536) bytes passes the firmware's check; the same frame corrupted in any way within two adjacent bytes, CRC bytes
    included (so by every burst of up to nine bits, and every byte-aligned
    burst of sixteen), is rejected. *)
Theorem burst_error_detected p :
  bytes_ok p -> (2 <= length p)%nat -> zlen p < 65536 ->
  Firmware.frame_crc_ok (append_crc p) (zlen (append_crc p)) = true /\
  forall pre x y x' y' suf,
    append_crc p = pre ++ [x; y] ++ suf -> is_byte x' -> is_byte y' ->
    x' <> x \/ y' <> y ->
    let f' := pre ++ [x'; y'] ++ suf in Firmware.frame_crc_ok f' (zlen f') = false.
Proof.
  intros Hp Hn Hl. pose proof (append_crc_accepted p Hp Hn Hl) as Hok. split; [exact Hok|].
  intros pre x y x' y' suf Ef Hx' Hy' Hne f'. pose proof (append_crc_length p) as El.
  pose proof (append_crc_bytes p Hp) as Hb. unfold zlen in *. rewrite Ef in *.
  apply (burst_rejected pre x y x' y' suf); auto; unfold zlen; try lia.
  unfold f'. intros E. apply app_inv_head in E. injection E as -> ->. tauto.
Qed.

(** A concrete request frame with its address bytes damaged. *)
Lemma burst_error_detected_witness :
  append_crc [1; 3; 0; 7; 0; 1] = [1; 3] ++ [0; 7] ++ [0; 1; 0x35; 0xCB] /\
  Firmware.frame_crc_ok [1; 3; 1; 6; 0; 1; 0x35; 0xCB] 8 = false.
Proof.
  split; [reflexivity|].
  refine (proj2 (burst_error_detected [1; 3; 0; 7; 0; 1] _ _ _) [1; 3] 0 7 1 6 [0; 1; 0x35; 0xCB] eq_refl _ _ _);
    try (apply (bool_decide_unpack _); vm_compute; exact I); vm_compute; try done; try lia.
Defined.
