(* ===== verification/RtuFrames.v ===== *)
(** * RTU frame builders of api_tests/packet_injector.py

    Requests mask every field to a byte and never fail; responses build a
    [bytearray] with the byte count unmasked, so a count past 255 raises
    [ValueError].  Theorems: the shape of each frame, acceptance by the
    firmware's CRC check, and exactly when a response cannot be built. *)

From Stdlib Require Import ZArith Lia.
From stdpp Require Import base list numbers.
From S2P Require Import Prelude PyBytes ModbusCrc.

Open Scope Z_scope.

(** [x & 0xFF] *)
Definition u8 (x : Z) : Z := Z.land x 0xFF.

Definition build_fc03_request (slave start_addr reg_count : Z) : list Z :=
  append_crc [u8 slave; 0x03;
              u8 (Z.shiftr start_addr 8); u8 start_addr;
              u8 (Z.shiftr reg_count 8); u8 reg_count].

(** The loop body of the register responses: value = (base + i) & 0xFFFF,
    high byte then low byte. *)
Definition reg_bytes (base_value i : Z) : list Z :=
  let value := Z.land (base_value + i) 0xFFFF in
  [u8 (Z.shiftr value 8); u8 value].

Definition build_fc03_response (slave reg_count base_value : Z) : outcome (list Z) :=
  let byte_count := reg_count * 2 in
  let? body := py_bytes [u8 slave; 0x03; byte_count] in
  Ok (append_crc (body ++ (seqZ 0 reg_count ≫= reg_bytes base_value))).

Definition build_fc03_exchange (slave start_addr reg_count base_value : Z) : outcome (list Z) :=
  let? resp := build_fc03_response slave reg_count base_value in
  Ok (build_fc03_request slave start_addr reg_count ++ resp).

Definition build_fc01_request (slave start_addr bit_count : Z) : list Z :=
  append_crc [u8 slave; 0x01;
              u8 (Z.shiftr start_addr 8); u8 start_addr;
              u8 (Z.shiftr bit_count 8); u8 bit_count].

Definition build_fc01_response (slave bit_count value : Z) : outcome (list Z) :=
  let byte_count := (bit_count + 7) / 8 in
  let bit_byte := if Z.land value 1 =? 0 then 0x00 else 0xFF in
  let? body := py_bytes [u8 slave; 0x01; byte_count] in
  Ok (append_crc (body ++ replicate (Z.to_nat byte_count) bit_byte)).

Definition build_fc01_exchange (slave start_addr bit_count value : Z) : outcome (list Z) :=
  let? resp := build_fc01_response slave bit_count value in
  Ok (build_fc01_request slave start_addr bit_count ++ resp).

Definition build_fc02_request (slave start_addr bit_count : Z) : list Z :=
  append_crc [u8 slave; 0x02;
              u8 (Z.shiftr start_addr 8); u8 start_addr;
              u8 (Z.shiftr bit_count 8); u8 bit_count].

Definition build_fc02_response (slave bit_count value : Z) : outcome (list Z) :=
  let byte_count := (bit_count + 7) / 8 in
  let bit_byte := if Z.land value 1 =? 0 then 0x00 else 0xFF in
  let? body := py_bytes [u8 slave; 0x02; byte_count] in
  Ok (append_crc (body ++ replicate (Z.to_nat byte_count) bit_byte)).

Definition build_fc02_exchange (slave start_addr bit_count value : Z) : outcome (list Z) :=
  let? resp := build_fc02_response slave bit_count value in
  Ok (build_fc02_request slave start_addr bit_count ++ resp).

Definition build_fc04_request (slave start_addr reg_count : Z) : list Z :=
  append_crc [u8 slave; 0x04;
              u8 (Z.shiftr start_addr 8); u8 start_addr;
              u8 (Z.shiftr reg_count 8); u8 reg_count].

Definition build_fc04_response (slave reg_count base_value : Z) : outcome (list Z) :=
  let byte_count := reg_count * 2 in
  let? body := py_bytes [u8 slave; 0x04; byte_count] in
  Ok (append_crc (body ++ (seqZ 0 reg_count ≫= reg_bytes base_value))).

Definition build_fc04_exchange (slave start_addr reg_count base_value : Z) : outcome (list Z) :=
  let? resp := build_fc04_response slave reg_count base_value in
  Ok (build_fc04_request slave start_addr reg_count ++ resp).

(** The golden bad-CRC frame shared by the tests. *)
Definition BAD_CRC_PACKET : list Z := [0x01; 0x03; 0x00; 0x00; 0x00; 0x01; 0xFF; 0xFF].

Arguments reg_bytes : simpl never.
Arguments u8 : simpl never.

(** ** The common shape of the builders *)

(** Every request builder is this function at its function code. *)
Definition read_request (fc slave start_addr count : Z) : list Z :=
  append_crc [u8 slave; fc; u8 (Z.shiftr start_addr 8); u8 start_addr;
              u8 (Z.shiftr count 8); u8 count].

Definition reg_response (fc slave reg_count base_value : Z) : outcome (list Z) :=
  let? body := py_bytes [u8 slave; fc; reg_count * 2] in
  Ok (append_crc (body ++ (seqZ 0 reg_count ≫= reg_bytes base_value))).

Definition bit_response (fc slave bit_count value : Z) : outcome (list Z) :=
  let byte_count := (bit_count + 7) / 8 in
  let? body := py_bytes [u8 slave; fc; byte_count] in
  Ok (append_crc (body ++ replicate (Z.to_nat byte_count)
                            (if Z.land value 1 =? 0 then 0x00 else 0xFF))).

(** An exchange of the given read function code, as the injector composes it. *)
Definition exchange (fc slave start_addr count v : Z) : outcome (list Z) :=
  if fc =? 1 then build_fc01_exchange slave start_addr count v
  else if fc =? 2 then build_fc02_exchange slave start_addr count v
  else if fc =? 3 then build_fc03_exchange slave start_addr count v
  else build_fc04_exchange slave start_addr count v.

Lemma u8_byte x : is_byte (u8 x).
Proof. apply land_255_byte. Qed.

Lemma u8_small x : is_byte x -> u8 x = x.
Proof. unfold u8. rewrite land_255. unfold is_byte. intros. by apply Z.mod_small. Qed.

Lemma u8_shiftr x : is_u16 x -> u8 (Z.shiftr x 8) = x / 256.
Proof. intros H. rewrite shiftr_8. apply u8_small. by apply u16_split. Qed.

Lemma u8_mod x : u8 x = x mod 256.
Proof. apply land_255. Qed.

Lemma reg_bytes_spec base i :
  let v := (base + i) mod 65536 in is_u16 v /\ reg_bytes base i = [v / 256; v mod 256].
Proof.
  simpl. assert (is_u16 ((base + i) mod 65536)) as Hv
    by (unfold is_u16; pose proof (Z.mod_pos_bound (base + i) 65536); lia).
  split; [done|]. unfold reg_bytes. rewrite land_65535. by rewrite u8_shiftr, u8_mod.
Qed.

Lemma regs_bytes_ok base l : bytes_ok (l ≫= reg_bytes base).
Proof.
  induction l as [|i l IH]; [apply bytes_ok_nil|]. rewrite bind_cons.
  destruct (reg_bytes_spec base i) as [Hv ->]. simpl. apply u16_split in Hv as [? ?].
  rewrite !bytes_ok_cons. auto.
Qed.

Lemma regs_length base l : length (l ≫= reg_bytes base) = (2 * length l)%nat.
Proof.
  induction l as [|i l IH]; [done|]. rewrite bind_cons, length_app, IH.
  destruct (reg_bytes_spec base i) as [_ ->]. simpl. lia.
Qed.

Lemma request_bytes_ok fc slave a n :
  is_byte fc ->
  bytes_ok [u8 slave; fc; u8 (Z.shiftr a 8); u8 a; u8 (Z.shiftr n 8); u8 n].
Proof. intros. rewrite !bytes_ok_cons. auto 10 using u8_byte, bytes_ok_nil. Qed.

Lemma read_request_length fc slave a n : length (read_request fc slave a n) = 8%nat.
Proof. unfold read_request. by rewrite append_crc_length. Qed.

Lemma read_request_bytes fc slave a n : is_byte fc -> bytes_ok (read_request fc slave a n).
Proof. intros. by apply append_crc_bytes, request_bytes_ok. Qed.

Lemma read_request_accepted fc slave a n :
  is_byte fc ->
  Firmware.frame_crc_ok (read_request fc slave a n) (zlen (read_request fc slave a n)) = true.
Proof. intros. apply append_crc_accepted; [by apply request_bytes_ok|simpl; lia|vm_compute; done]. Qed.

(** A response body is the header and a data block of [byte_count] bytes. *)
Definition is_response (fc slave byte_count : Z) (frame : list Z) : Prop :=
  exists data, bytes_ok data /\ zlen data = byte_count /\ is_byte byte_count /\
               frame = append_crc ([u8 slave; fc; byte_count] ++ data).

Lemma reg_response_ok fc slave n base :
  is_byte fc -> 0 <= n <= 127 ->
  exists f, reg_response fc slave n base = Ok f /\ is_response fc slave (n * 2) f /\
            f = append_crc ([u8 slave; fc; n * 2] ++ (seqZ 0 n ≫= reg_bytes base)).
Proof.
  intros Hfc Hn. unfold reg_response. assert (is_byte (n * 2)) by (unfold is_byte; lia).
  rewrite py_bytes_ok by (rewrite !bytes_ok_cons; auto using u8_byte, bytes_ok_nil).
  eexists; split; [done|]. split; [|done].
  exists (seqZ 0 n ≫= reg_bytes base). split; [apply regs_bytes_ok|]. split; [|done].
  unfold zlen. rewrite regs_length, length_seqZ. lia.
Qed.

Lemma bit_response_ok fc slave n v :
  is_byte fc -> 0 <= n <= 2040 ->
  exists f, bit_response fc slave n v = Ok f /\ is_response fc slave ((n + 7) / 8) f.
Proof.
  intros Hfc Hn. unfold bit_response.
  assert (is_byte ((n + 7) / 8)) as Hb.
  { unfold is_byte. split; [apply Z.div_pos; lia|apply Z.div_lt_upper_bound; lia]. }
  rewrite py_bytes_ok by (rewrite !bytes_ok_cons; auto using u8_byte, bytes_ok_nil).
  eexists; split; [done|]. eexists; split; [|split; [|split; [done|done]]].
  - apply bytes_ok_replicate. unfold is_byte. split_match; lia.
  - unfold zlen. rewrite length_replicate. unfold is_byte in Hb. lia.
Qed.

Lemma is_response_accepted fc slave bc f :
  is_byte fc -> is_response fc slave bc f ->
  bytes_ok f /\ zlen f = bc + 5 /\ Firmware.frame_crc_ok f (zlen f) = true.
Proof.
  intros Hfc (d & Hd & Hn & Hbc & ->).
  assert (bytes_ok ([u8 slave; fc; bc] ++ d)) as Hok
    by (rewrite bytes_ok_app, !bytes_ok_cons; auto using u8_byte, bytes_ok_nil).
  unfold zlen, is_byte in *. split; [by apply append_crc_bytes|].
  split; [rewrite append_crc_length, length_app; simpl; lia|].
  apply append_crc_accepted; [done|rewrite length_app; simpl; lia|].
  unfold zlen. rewrite length_app. simpl. lia.
Qed.

(** ** Properties *)

(** Whenever the counts fit their byte-count field, an injected exchange
    is a request frame of exactly eight bytes followed by a response frame of
    [byte_count + 5] bytes, both for the same slave and function code, and
    the firmware's CRC check accepts each of the two. *)
Theorem exchange_frames fc slave start_addr count v :
  fc = 1 \/ fc = 2 \/ fc = 3 \/ fc = 4 ->
  0 <= count <= 127 ->
  exists req resp bc,
    exchange fc slave start_addr count v = Ok (req ++ resp) /\
    req = read_request fc slave start_addr count /\ length req = 8%nat /\
    Firmware.frame_crc_ok req (zlen req) = true /\
    bc = (if fc <=? 2 then (count + 7) / 8 else count * 2) /\
    is_response fc slave bc resp /\ zlen resp = bc + 5 /\
    Firmware.frame_crc_ok resp (zlen resp) = true.
Proof.
  intros Hfc Hn.
  assert (is_byte fc) as Hb by (unfold is_byte; lia).
  assert (exists resp, exchange fc slave start_addr count v =
            Ok (read_request fc slave start_addr count ++ resp) /\
            is_response fc slave (if fc <=? 2 then (count + 7) / 8 else count * 2) resp)
    as (resp & E & Hr).
  { destruct (bit_response_ok fc slave count v Hb ltac:(lia)) as (f & Ef & Hf).
    destruct (reg_response_ok fc slave count v Hb ltac:(lia)) as (g & Eg & Hg & _).
    destruct Hfc as [->|[->|[->| ->]]]; unfold exchange; simpl in *.
    - exists f. change (build_fc01_exchange slave start_addr count v) with
        (let? r := bit_response 1 slave count v in Ok (read_request 1 slave start_addr count ++ r)).
      by rewrite Ef.
    - exists f. change (build_fc02_exchange slave start_addr count v) with
        (let? r := bit_response 2 slave count v in Ok (read_request 2 slave start_addr count ++ r)).
      by rewrite Ef.
    - exists g. change (build_fc03_exchange slave start_addr count v) with
        (let? r := reg_response 3 slave count v in Ok (read_request 3 slave start_addr count ++ r)).
      by rewrite Eg.
    - exists g. change (build_fc04_exchange slave start_addr count v) with
        (let? r := reg_response 4 slave count v in Ok (read_request 4 slave start_addr count ++ r)).
      by rewrite Eg. }
  pose proof (is_response_accepted _ _ _ _ Hb Hr) as (_ & Hlen & Hacc).
  eexists _, resp, _. split; [exact E|]. split; [done|].
  split; [apply read_request_length|]. split; [by apply read_request_accepted|]. auto.
Qed.

Lemma exchange_frames_witness :
  exists req resp bc,
    exchange 3 1 0 5 1000 = Ok (req ++ resp) /\
    req = read_request 3 1 0 5 /\ length req = 8%nat /\
    Firmware.frame_crc_ok req (zlen req) = true /\
    bc = (if 3 <=? 2 then (5 + 7) / 8 else 5 * 2) /\
    is_response 3 1 bc resp /\ zlen resp = bc + 5 /\
    Firmware.frame_crc_ok resp (zlen resp) = true.
Proof. apply (exchange_frames 3 1 0 5 1000); [lia|lia]. Defined.

(** Register responses fail exactly outside 0..127 registers. *)
Lemma reg_response_error fc slave n base :
  is_byte fc ->
  reg_response fc slave n base = Raise ValueError <-> n < 0 \/ 127 < n.
Proof.
  intros Hfc. unfold reg_response, py_bytes. case_decide as H.
  - rewrite !bytes_ok_cons in H. unfold is_byte in H. simpl. split; [done|lia].
  - simpl. split; [intros _|done].
    destruct (decide (0 <= n <= 127)); [|lia]. exfalso. apply H.
    assert (is_byte (n * 2)) by (unfold is_byte; lia).
    rewrite !bytes_ok_cons. auto using u8_byte, bytes_ok_nil.
Qed.

(** The golden packet is the read request of one register at address 0 with
    its two CRC bytes overwritten, and the firmware rejects it. *)
Lemma bad_crc_packet_rejected :
  Firmware.frame_crc_ok BAD_CRC_PACKET (zlen BAD_CRC_PACKET) = false /\
  take 6 BAD_CRC_PACKET = take 6 (build_fc03_request 1 0 1) /\
  drop 6 (build_fc03_request 1 0 1) = [0x84; 0x0A].
Proof. by vm_compute. Qed.
