(* ===== verification/RtuSlave.v ===== *)
(** * The simulated RTU slave: api_tests/rtu_slave_helpers.py

    [ModbusRtuSlaveThread] reads Modbus RTU requests from the UART chardev
    socket and answers with synthesised values.  The thread's attributes are
    the record [slave]; [_process_buffer] is a loop over [process_one], with
    the number of buffered bytes as fuel (every continuing iteration consumes
    at least one); [run] drives it over the outcomes of [recv].

    Theorems: the loop terminates, leaves a suffix of its input, is
    independent of how TCP cuts the stream into chunks, answers every request
    of a well-formed stream exactly once and in order, and which requests
    make [_build_response] raise (an exception no handler of [run] catches). *)

From Stdlib Require Import ZArith Lia.
From stdpp Require Import base list gmap numbers.
From S2P Require Import Prelude PyBytes ModbusCrc RtuFrames.

Open Scope Z_scope.

(** [_build_rtu_response]: header, payload and CRC. *)
Definition _build_rtu_response (slave_id fc : Z) (data : list Z) : outcome (list Z) :=
  let? head := py_bytes [slave_id; fc] in
  let body := head ++ data in
  let crc := _crc16 body in
  let? tail := py_bytes [Z.land crc 0xFF; Z.shiftr crc 8] in
  Ok (body ++ tail).

(** The attributes of [ModbusRtuSlaveThread] the protocol reads or writes.
    [sent] is what went out through the socket; [send_fails n] tells whether
    the [n]-th [sendall] raises [OSError]. *)
Record slave := Slave {
  fake_value : Z;
  exception_fc : gmap Z Z;
  drop_count : Z;
  request_count : Z;
  last_write_addr : option Z;
  last_write_qty : option Z;
  last_write_values : option (list Z);
  has_sock : bool;
  sent : list (list Z);
  send_tries : nat;
  send_fails : nat -> bool
}.

(** [__init__] followed by a successful connect, with a socket on which no
    send fails. *)
Definition slave_init (fake : Z) (exc : gmap Z Z) (drop : Z) : slave :=
  Slave fake exc drop 0 None None None true [] 0 (fun _ => false).

Definition set_last_write (addr qty : Z) (values : list Z) (s : slave) : slave :=
  Slave (fake_value s) (exception_fc s) (drop_count s) (request_count s)
    (Some addr) (Some qty) (Some values)
    (has_sock s) (sent s) (send_tries s) (send_fails s).

(** [self.drop_count -= 1; self.request_count += 1] *)
Definition count_dropped (s : slave) : slave :=
  Slave (fake_value s) (exception_fc s) (drop_count s - 1) (request_count s + 1)
    (last_write_addr s) (last_write_qty s) (last_write_values s)
    (has_sock s) (sent s) (send_tries s) (send_fails s).

Definition count_request (s : slave) : slave :=
  Slave (fake_value s) (exception_fc s) (drop_count s) (request_count s + 1)
    (last_write_addr s) (last_write_qty s) (last_write_values s)
    (has_sock s) (sent s) (send_tries s) (send_fails s).

Definition log_send (ok : bool) (data : list Z) (s : slave) : slave :=
  Slave (fake_value s) (exception_fc s) (drop_count s) (request_count s)
    (last_write_addr s) (last_write_qty s) (last_write_values s)
    (has_sock s) (if ok then sent s ++ [data] else sent s) (S (send_tries s)) (send_fails s).

(** FC01/FC02: a zeroed bytearray with bit [i] set for each [i < count] when
    the fake value is non-zero. *)
Definition coil_bytes (fake count byte_count : Z) : list Z :=
  fold_left
    (fun (cb : list Z) i =>
       if fake =? 0 then cb
       else <[Z.to_nat (i / 8) :=
                Z.lor (byte_at cb (Z.to_nat (i / 8))) (Z.shiftl 1 (i mod 8))]> cb)
    (seqZ 0 count) (replicate (Z.to_nat byte_count) 0).

Definition _build_response (s : slave) (slave_id fc addr count : Z) : outcome (list Z) :=
  match exception_fc s !! fc with
  | Some exc_code =>
      let? data := py_bytes [exc_code] in
      _build_rtu_response slave_id (Z.lor fc 0x80) data
  | None =>
      if (fc =? 0x03) || (fc =? 0x04) then
        let? payload := pack_Hs (replicate (Z.to_nat count) (fake_value s)) in
        let? n := py_bytes [zlen payload] in
        _build_rtu_response slave_id fc (n ++ payload)
      else if (fc =? 0x01) || (fc =? 0x02) then
        let byte_count := (count + 7) / 8 in
        let? n := py_bytes [byte_count] in
        _build_rtu_response slave_id fc (n ++ coil_bytes (fake_value s) count byte_count)
      else if fc =? 0x10 then
        let? a := pack_H addr in
        let? c := pack_H count in
        _build_rtu_response slave_id fc (a ++ c)
      else _build_rtu_response slave_id (Z.lor fc 0x80) [0x01]
  end.

(** What one iteration of [while True] in [_process_buffer] does. *)
Inductive step :=
| Return (buf : list Z) (s : slave)
| Continue (buf : list Z) (s : slave)
| Throw (e : exn) (s : slave).

(** The tail shared by both request kinds: build, send, count, consume. *)
Definition respond (s : slave) (slave_id fc addr count : Z) (buf rest : list Z) : step :=
  match _build_response s slave_id fc addr count with
  | Ok response =>
      if has_sock s then
        if send_fails s (send_tries s) then Return buf (log_send false response s)
        else Continue rest (count_request (log_send true response s))
      else Continue rest (count_request s)
  | Raise e => Throw e s
  | Blocked => Return buf s
  end.

(** One iteration of the loop. *)
Definition process_one (buf : list Z) (s : slave) : step :=
  if (length buf <? 4)%nat then Return buf s
  else
    let fc := byte_at buf 1 in
    if fc =? 0x10 then
      if (length buf <? 7)%nat then Return buf s
      else
        let byte_count := byte_at buf 6 in
        let req_len := (9 + Z.to_nat byte_count)%nat in
        if (length buf <? req_len)%nat then Return buf s
        else
          let crc_recv := Z.lor (Z.shiftl (byte_at buf (req_len - 1)) 8)
                                (byte_at buf (req_len - 2)) in
          let crc_calc := _crc16 (take (req_len - 2) buf) in
          if negb (crc_recv =? crc_calc) then Continue (drop 1 buf) s
          else
            let slave_id := byte_at buf 0 in
            let addr := Z.lor (Z.shiftl (byte_at buf 2) 8) (byte_at buf 3) in
            let qty := Z.lor (Z.shiftl (byte_at buf 4) 8) (byte_at buf 5) in
            let after_store :=
              if (byte_count =? qty * 2) && (0 <? qty) then
                match unpack_Hs (Z.to_nat qty) (slice 7 (7 + Z.to_nat byte_count) buf) with
                | Ok values => Continue buf (set_last_write addr qty values s)
                | Raise e => Throw e s
                | Blocked => Return buf s
                end
              else Continue buf s in
            match after_store with
            | Continue _ s' =>
                if 0 <? drop_count s' then Continue (drop req_len buf) (count_dropped s')
                else respond s' slave_id fc addr qty buf (drop req_len buf)
            | other => other
            end
    else if (length buf <? 8)%nat then Return buf s
    else
      let slave_id := byte_at buf 0 in
      let addr := Z.lor (Z.shiftl (byte_at buf 2) 8) (byte_at buf 3) in
      let count := Z.lor (Z.shiftl (byte_at buf 4) 8) (byte_at buf 5) in
      let crc_recv := Z.lor (Z.shiftl (byte_at buf 7) 8) (byte_at buf 6) in
      let crc_calc := _crc16 (take 6 buf) in
      if negb (crc_recv =? crc_calc) then Continue (drop 1 buf) s
      else if 0 <? drop_count s then Continue (drop 8 buf) (count_dropped s)
      else respond s slave_id fc addr count buf (drop 8 buf).

Fixpoint process_loop (fuel : nat) (buf : list Z) (s : slave) : outcome (list Z) * slave :=
  match fuel with
  | O => (Blocked, s)
  | S fuel =>
      match process_one buf s with
      | Return buf' s' => (Ok buf', s')
      | Continue buf' s' => process_loop fuel buf' s'
      | Throw e s' => (Raise e, s')
      end
  end.

Definition _process_buffer (buf : list Z) (s : slave) : outcome (list Z) * slave :=
  process_loop (S (length buf)) buf s.

(** ** The thread: [run]

    One iteration sees the stop flag and, when it is clear, one outcome of
    [recv(256)]. *)
Inductive rx_event :=
| RxChunk (bs : list Z)
| RxTimeout
| RxError (e : exn).

Record iteration := Iteration { stop_is_set : bool; rx : rx_event }.

Fixpoint serve (script : list iteration) (buf : list Z) (s : slave) : outcome (list Z) * slave :=
  match script with
  | [] => (Blocked, s)
  | it :: script =>
      if stop_is_set it then (Ok buf, s)
      else match rx it with
           | RxChunk [] => (Ok buf, s)
           | RxChunk chunk =>
               match _process_buffer (buf ++ chunk) s with
               | (Ok buf', s') => serve script buf' s'
               | (Raise e, s') =>
                   if catches TimeoutError e then serve script (buf ++ chunk) s'
                   else if catches OSError e then (Ok (buf ++ chunk), s')
                   else (Raise e, s')
               | (Blocked, s') => (Blocked, s')
               end
           | RxTimeout => serve script buf s
           | RxError e =>
               if catches TimeoutError e then serve script buf s
               else if catches OSError e then (Ok buf, s) else (Raise e, s)
           end
  end.

(** [run]: connect, then serve; a failed connect returns at once. The
    second component tells whether [connected] was set. *)
Definition run (connect : option exn) (script : list iteration) (s : slave)
  : outcome unit * bool * slave :=
  match connect with
  | Some e => if catches OSError e then (Ok tt, false, s) else (Raise e, false, s)
  | None =>
      match serve script [] s with
      | (Ok _, s') => (Ok tt, true, s')
      | (Raise e, s') => (Raise e, true, s')
      | (Blocked, s') => (Blocked, true, s')
      end
  end.

(** Feeding a list of non-empty chunks with nothing else happening. *)
Definition chunks_script (chunks : list (list Z)) : list iteration :=
  map (fun c => Iteration false (RxChunk c)) chunks ++ [Iteration true RxTimeout].

Arguments _crc16 : simpl never.
Arguments process_one : simpl never.

(** ** One iteration *)

Lemma respond_continue s i fc a c buf rest buf' s' :
  respond s i fc a c buf rest = Continue buf' s' -> buf' = rest.
Proof. unfold respond. intros H. repeat split_match_in H; congruence. Qed.

Lemma respond_return s i fc a c buf rest buf' s' :
  respond s i fc a c buf rest = Return buf' s' -> buf' = buf.
Proof. unfold respond. intros H. repeat split_match_in H; congruence. Qed.

(** An iteration that continues drops at least one byte of a buffer of at
    least four; one that returns leaves the buffer as it is. *)
Lemma process_one_continue buf s buf' s' :
  process_one buf s = Continue buf' s' ->
  exists k, (1 <= k <= length buf)%nat /\ buf' = drop k buf.
Proof.
  unfold process_one. intros H.
  repeat (split_match_in H; try discriminate); bool_to_prop; simplify_eq;
    try (apply respond_continue in H; subst);
    try (eexists; split; [|reflexivity]; lia).
Qed.

Lemma process_one_return buf s buf' s' :
  process_one buf s = Return buf' s' -> buf' = buf.
Proof.
  unfold process_one. intros H.
  repeat (split_match_in H; try discriminate); simplify_eq; try done;
    by apply respond_return in H.
Qed.

(** ** The loop *)

Lemma process_loop_total fuel buf s :
  (length buf < fuel)%nat -> fst (process_loop fuel buf s) <> Blocked.
Proof.
  revert buf s. induction fuel as [|fuel IH]; intros buf s Hf; [lia|]. simpl.
  destruct (process_one buf s) as [b' s'|b' s'|e s'] eqn:E; simpl; try done.
  apply process_one_continue in E as (k & Hk & ->). apply IH.
  rewrite length_drop. lia.
Qed.

Lemma process_loop_fuel fuel fuel' buf s :
  (length buf < fuel)%nat -> (fuel <= fuel')%nat ->
  process_loop fuel' buf s = process_loop fuel buf s.
Proof.
  revert fuel' buf s. induction fuel as [|fuel IH]; intros fuel' buf s Hf Hle; [lia|].
  destruct fuel' as [|fuel']; [lia|]. simpl.
  destruct (process_one buf s) as [b' s'|b' s'|e s'] eqn:E; try done.
  apply process_one_continue in E as (k & Hk & ->). apply IH; rewrite ?length_drop; lia.
Qed.

(** The loop as an equation on [_process_buffer]. *)
Lemma process_buffer_unfold buf s :
  _process_buffer buf s =
  match process_one buf s with
  | Return buf' s' => (Ok buf', s')
  | Continue buf' s' => _process_buffer buf' s'
  | Throw e s' => (Raise e, s')
  end.
Proof.
  unfold _process_buffer at 1. simpl.
  destruct (process_one buf s) as [b' s'|b' s'|e s'] eqn:E; try done.
  apply process_one_continue in E as (k & Hk & ->).
  unfold _process_buffer. apply process_loop_fuel; rewrite length_drop; lia.
Qed.

(** Induction along the iterations. *)
Lemma process_buffer_ind (P : list Z -> slave -> outcome (list Z) * slave -> Prop) :
  (forall buf s s', process_one buf s = Return buf s' -> P buf s (Ok buf, s')) ->
  (forall buf s e s', process_one buf s = Throw e s' -> P buf s (Raise e, s')) ->
  (forall buf s buf' s', process_one buf s = Continue buf' s' ->
     P buf' s' (_process_buffer buf' s') -> P buf s (_process_buffer buf' s')) ->
  forall buf s, P buf s (_process_buffer buf s).
Proof.
  intros HR HT HC buf. remember (length buf) as n eqn:En. revert buf En.
  induction (lt_wf n) as [n _ IH]. intros buf -> s. rewrite process_buffer_unfold.
  destruct (process_one buf s) as [b' s'|b' s'|e s'] eqn:E; auto.
  - pose proof (process_one_return _ _ _ _ E) as ->. auto.
  - apply HC; [done|]. pose proof (process_one_continue _ _ _ _ E) as (k & Hk & ->).
    eapply IH; [|done]. rewrite length_drop. lia.
Qed.

(** What is left is a suffix of what came in. *)
Lemma process_buffer_suffix buf s rest s' :
  _process_buffer buf s = (Ok rest, s') -> rest `suffix_of` buf.
Proof.
  revert rest s'. apply (process_buffer_ind
    (fun buf s r => forall rest s', r = (Ok rest, s') -> rest `suffix_of` buf)).
  - intros ? ? ? _ ? ? [=]. subst. done.
  - done.
  - intros b0 ? ? ? (k & _ & ->)%process_one_continue IH rest s'' H.
    trans (drop k b0); [by eapply IH|apply suffix_drop].
Qed.

Lemma build_rtu_response_settled i fc d : settled (_build_rtu_response i fc d).
Proof. unfold _build_rtu_response. auto 10 with wbmge. Qed.
#[local] Hint Resolve build_rtu_response_settled : wbmge.

(** Building a response always returns or raises. *)
Lemma build_response_settled s i fc a c : settled (_build_response s i fc a c).
Proof. unfold _build_response. repeat split_match; auto 10 with wbmge. Qed.

(** ** Chunking

    A decision the loop takes on [a] it also takes on [a ++ b]: every length
    test guards exactly the bytes read after it. *)
Definition step_app (st : step) (b : list Z) : step :=
  match st with
  | Return x s => Return (x ++ b) s
  | Continue x s => Continue (x ++ b) s
  | Throw e s => Throw e s
  end.

Lemma respond_app s i fc a c buf rest b :
  respond s i fc a c (buf ++ b) (rest ++ b) = step_app (respond s i fc a c buf rest) b.
Proof. unfold respond. repeat split_match; done. Qed.

(** No [sendall] fails from this state on. *)
Definition sends_ok (s : slave) : Prop := forall n, send_fails s n = false.

Lemma respond_sends_ok s i fc a c buf rest :
  sends_ok s ->
  match respond s i fc a c buf rest with
  | Return _ _ => False
  | Continue _ s' | Throw _ s' => sends_ok s'
  end.
Proof.
  intros H. unfold respond. destruct (_build_response s i fc a c) eqn:E; [|done|].
  - destruct (has_sock s); [rewrite H|]; done.
  - by apply build_response_settled in E.
Qed.

(** Without send failures an iteration returns only to wait for more
    input, in the state it started from. *)
Lemma process_one_sends_ok buf s :
  sends_ok s ->
  match process_one buf s with
  | Return _ s' => s' = s
  | Continue _ s' | Throw _ s' => sends_ok s'
  end.
Proof.
  intros Hs. unfold process_one.
  repeat (split_match; try done); simplify_eq; try done;
  match goal with
  | H : respond ?s0 ?i ?f ?a ?c ?b ?r = _ |- _ =>
      pose proof (respond_sends_ok s0 i f a c b r Hs) as R; rewrite H in R; try done
  | H : unpack_Hs _ _ = Blocked |- _ => by apply unpack_Hs_settled in H
  end.
Qed.

Lemma ltb_length_app {A} n (a b : list A) :
  (length a <? n)%nat = false -> (length (a ++ b) <? n)%nat = false.
Proof. intros. bool_to_prop. apply Nat.ltb_ge. rewrite length_app. lia. Qed.

Lemma process_one_app a b s :
  (forall s', process_one a s <> Return a s') ->
  process_one (a ++ b) s = step_app (process_one a s) b.
Proof.
  intros Hne. unfold process_one in *.
  destruct (length a <? 4)%nat eqn:H4; [by destruct (Hne s)|].
  rewrite (ltb_length_app _ _ b H4). bool_to_prop. rewrite !byte_at_app_l by lia.
  destruct (byte_at a 1 =? 16) eqn:Hfc.
  - destruct (length a <? 7)%nat eqn:H7; [by destruct (Hne s)|].
    rewrite (ltb_length_app _ _ b H7). bool_to_prop. rewrite !byte_at_app_l by lia.
    set (req_len := (9 + Z.to_nat (byte_at a 6))%nat) in *.
    destruct (length a <? req_len)%nat eqn:Hr; [by destruct (Hne s)|].
    rewrite (ltb_length_app _ _ b Hr). bool_to_prop.
    rewrite !byte_at_app_l, take_app_le, slice_app_l by lia.
    split_match; [by rewrite drop_app_le by lia|].
    rewrite drop_app_le by lia.
    match goal with |- context [if ?c then ?x else ?y] =>
      destruct c; [destruct (unpack_Hs _ _)|] end; cbn in *; try done;
      try (by destruct (Hne s)); split_match; try done; apply respond_app.
  - destruct (length a <? 8)%nat eqn:H8; [by destruct (Hne s)|].
    rewrite (ltb_length_app _ _ b H8). bool_to_prop.
    rewrite !byte_at_app_l, take_app_le by lia.
    repeat (split_match; [by rewrite drop_app_le by lia|]).
    rewrite drop_app_le by lia. apply respond_app.
Qed.

(** Go on with [b] from where a call of [_process_buffer] stopped. *)
Definition resume (r : outcome (list Z) * slave) (b : list Z) : outcome (list Z) * slave :=
  match r with
  | (Ok rest, s') => _process_buffer (rest ++ b) s'
  | (Raise e, s') => (Raise e, s')
  | (Blocked, s') => (Blocked, s')
  end.

(** Processing a concatenation is processing the parts in turn. *)
Lemma process_buffer_app a b s :
  sends_ok s -> _process_buffer (a ++ b) s = resume (_process_buffer a s) b.
Proof.
  apply (process_buffer_ind (fun a s r =>
    sends_ok s -> _process_buffer (a ++ b) s = resume r b)).
  - intros buf s0 s' E Hs. pose proof (process_one_sends_ok buf s0 Hs) as R.
    rewrite E in R. by subst.
  - intros buf s0 e s' E Hs. rewrite process_buffer_unfold, process_one_app, E; [done|].
    intros s''. by rewrite E.
  - intros buf s0 buf' s' E IH Hs. pose proof (process_one_sends_ok buf s0 Hs) as R.
    rewrite E in R. rewrite process_buffer_unfold, process_one_app, E; [by apply IH|].
    intros s''. by rewrite E.
Qed.

Lemma process_buffer_sends_ok buf s :
  sends_ok s -> sends_ok (snd (_process_buffer buf s)).
Proof.
  apply (process_buffer_ind (fun buf s r => sends_ok s -> sends_ok (snd r))).
  all: intros b0 s0; intros; pose proof (process_one_sends_ok b0 s0 ltac:(done)) as R;
    repeat match goal with E : process_one _ _ = _ |- _ => rewrite E in R end;
    simpl; subst; auto.
Qed.

Lemma process_buffer_idle buf s rest s' :
  sends_ok s -> _process_buffer buf s = (Ok rest, s') -> _process_buffer rest s' = (Ok rest, s').
Proof.
  intros Hs E. pose proof (process_buffer_app buf [] s Hs) as R.
  rewrite app_nil_r, E in R. simpl in R. by rewrite app_nil_r in R.
Qed.

(** The only exceptions a request can cause come from the response. *)
Lemma build_rtu_response_raises i fc d : raises_only build_error (_build_rtu_response i fc d).
Proof. unfold _build_rtu_response. auto 10 with wbmge. Qed.
#[local] Hint Resolve build_rtu_response_raises : wbmge.

Lemma build_response_raises s i fc a c : raises_only build_error (_build_response s i fc a c).
Proof. unfold _build_response. repeat split_match; auto 10 with wbmge. Qed.

Lemma respond_throw s i fc a c buf rest e s' :
  respond s i fc a c buf rest = Throw e s' -> build_error e = true.
Proof.
  unfold respond. pose proof (build_response_raises s i fc a c) as R.
  destruct (_build_response s i fc a c); intros H; repeat split_match_in H; by simplify_eq.
Qed.

Lemma process_one_throw buf s e s' :
  process_one buf s = Throw e s' -> build_error e = true.
Proof.
  unfold process_one. intros H.
  repeat split_match_in H; simplify_eq; eauto using respond_throw;
  match goal with
  | H : unpack_Hs ?n ?l = _ |- _ => pose proof (unpack_Hs_raises n l) as R; by rewrite H in R
  end.
Qed.

Lemma process_buffer_raises buf s e s' :
  _process_buffer buf s = (Raise e, s') -> build_error e = true.
Proof.
  revert e s'. apply (process_buffer_ind
    (fun buf s r => forall e s', r = (Raise e, s') -> build_error e = true)); eauto.
  - done.
  - intros ? ? ? ? H%process_one_throw ? ? [=]. by subst.
Qed.

(** ** [serve] and [run] on a stream cut into chunks *)

Lemma serve_chunks chunks buf s :
  sends_ok s -> Forall (fun c => c <> []) chunks ->
  _process_buffer buf s = (Ok buf, s) ->
  serve (chunks_script chunks) buf s = _process_buffer (buf ++ concat chunks) s.
Proof.
  unfold chunks_script. intros Hs Hc. revert buf s Hs.
  induction Hc as [|c chunks Hne _ IH]; intros buf s Hs Hidle; simpl.
  { by rewrite app_nil_r. }
  rewrite app_assoc, (process_buffer_app (buf ++ c) (concat chunks)) by done.
  destruct c as [|x c]; [done|].
  pose proof (process_buffer_sends_ok (buf ++ x :: c) s Hs) as Hs'.
  destruct (_process_buffer (buf ++ x :: c) s) as [[rest|e|] s'] eqn:E; simpl in *.
  - apply IH; [done|]. exact (process_buffer_idle _ _ _ _ Hs E).
  - apply process_buffer_raises in E. by destruct e.
  - done.
Qed.

(** What the slave thread sends and stores, the bytes it leaves and
    whether it dies depend on the byte stream alone, not on how TCP cut the
    stream into [recv] chunks. *)
Theorem run_chunking_independent chunks chunks' s :
  sends_ok s ->
  Forall (fun c => c <> []) chunks -> Forall (fun c => c <> []) chunks' ->
  concat chunks = concat chunks' ->
  run None (chunks_script chunks) s = run None (chunks_script chunks') s.
Proof. intros Hs H H' E. unfold run. rewrite !serve_chunks, E; done. Qed.

(** ** Well-formed request streams *)

Inductive request :=
| ReadReq (slave_id fc addr count : Z)
| WriteReq (slave_id addr : Z) (values : list Z).

Definition req_ok (r : request) : Prop :=
  match r with
  | ReadReq i fc a c => is_byte i /\ is_byte fc /\ fc <> 0x10 /\ is_u16 a /\ is_u16 c
  | WriteReq i a vs => is_byte i /\ is_u16 a /\ Forall is_u16 vs /\ (1 <= length vs <= 127)%nat
  end.

Definition word_bytes (x : Z) : list Z := [x / 256; x mod 256].

(** The frame a Modbus master puts on the wire for a request. *)
Definition encode (r : request) : list Z :=
  match r with
  | ReadReq i fc a c => append_crc ([i; fc] ++ word_bytes a ++ word_bytes c)
  | WriteReq i a vs =>
      append_crc ([i; 0x10] ++ word_bytes a ++ word_bytes (zlen vs) ++ [2 * zlen vs]
                  ++ (vs ≫= word_bytes))
  end.

(** The specification of one request: note the write, drop or answer. *)
Definition answer (s : slave) (r : request) : outcome slave :=
  let s1 := match r with
            | ReadReq _ _ _ _ => s
            | WriteReq _ a vs => set_last_write a (zlen vs) vs s
            end in
  let '(i, fc, a, c) := match r with
                        | ReadReq i fc a c => (i, fc, a, c)
                        | WriteReq i a vs => (i, 0x10, a, zlen vs)
                        end in
  if 0 <? drop_count s1 then Ok (count_dropped s1)
  else let? resp := _build_response s1 i fc a c in
       Ok (count_request (if has_sock s1 then log_send true resp s1 else s1)).

Fixpoint answer_all (s : slave) (rs : list request) : outcome slave :=
  match rs with
  | [] => Ok s
  | r :: rs => let? s' := answer s r in answer_all s' rs
  end.

Lemma crc_bytes_join p :
  bytes_ok p ->
  Z.lor (Z.shiftl (modbus_crc16 p / 256) 8) (modbus_crc16 p mod 256) = _crc16 p.
Proof.
  intros Hp. destruct (u16_split _ (modbus_crc16_u16 p Hp)) as [_ H].
  by rewrite lor_shiftl_8, u16_join.
Qed.

Lemma word_join x : is_u16 x -> Z.lor (Z.shiftl (x / 256) 8) (x mod 256) = x.
Proof. intros [_ H]%u16_split. by rewrite lor_shiftl_8, u16_join. Qed.

Lemma word_bytes_ok x : is_u16 x -> bytes_ok (word_bytes x).
Proof. intros [? ?]%u16_split. unfold word_bytes. rewrite !bytes_ok_cons. auto using bytes_ok_nil. Qed.

Lemma words_bytes_ok vs : Forall is_u16 vs -> bytes_ok (vs ≫= word_bytes).
Proof.
  induction 1 as [|x vs Hx _ IH]; [apply bytes_ok_nil|].
  rewrite bind_cons, bytes_ok_app. auto using word_bytes_ok.
Qed.

Lemma words_length vs : length (vs ≫= word_bytes) = (2 * length vs)%nat.
Proof. induction vs as [|x vs IH]; [done|]. rewrite bind_cons, length_app, IH. simpl. lia. Qed.

Lemma unpack_words vs : unpack_Hs (length vs) (vs ≫= word_bytes) = Ok vs.
Proof.
  induction vs as [|x vs IH]; [done|]. rewrite bind_cons. simpl. rewrite IH. simpl.
  by rewrite u16_join.
Qed.

(** The common end of both request kinds. *)
Lemma respond_answer s i fc a c buf rest s' :
  sends_ok s ->
  (let? resp := _build_response s i fc a c in
   Ok (count_request (if has_sock s then log_send true resp s else s))) = Ok s' ->
  respond s i fc a c buf rest = Continue rest s'.
Proof.
  intros Hs. unfold respond. destruct (_build_response s i fc a c); simpl; try done.
  rewrite Hs. intros [= <-]. by destruct (has_sock s).
Qed.

Lemma process_one_read_frame i fc a c s :
  req_ok (ReadReq i fc a c) ->
  process_one (encode (ReadReq i fc a c)) s =
  if 0 <? drop_count s then Continue [] (count_dropped s)
  else respond s i fc a c (encode (ReadReq i fc a c)) [].
Proof.
  intros (Hi & Hfc & Hne & Ha & Hc).
  assert (bytes_ok ([i; fc] ++ word_bytes a ++ word_bytes c)) as Hb.
  { rewrite !bytes_ok_app, !bytes_ok_cons. auto using bytes_ok_nil, word_bytes_ok. }
  pose proof (crc_bytes_join _ Hb) as Hcrc.
  unfold encode, append_crc. set (crc := modbus_crc16 _) in *.
  unfold process_one. cbn -[Z.lor Z.shiftl Z.div Z.modulo _crc16 respond].
  assert ((fc =? 16) = false) as -> by by apply Z.eqb_neq.
  unfold byte_at; cbn -[Z.lor Z.shiftl Z.div Z.modulo _crc16 respond].
  cbn -[Z.lor Z.shiftl Z.div Z.modulo _crc16] in Hcrc.
  by rewrite Hcrc, Z.eqb_refl, !word_join by done.
Qed.

Lemma process_one_read i fc a c s s' :
  req_ok (ReadReq i fc a c) -> sends_ok s -> answer s (ReadReq i fc a c) = Ok s' ->
  process_one (encode (ReadReq i fc a c)) s = Continue [] s'.
Proof.
  intros Hr Hs Hans. rewrite process_one_read_frame by done. unfold answer in Hans.
  destruct (0 <? drop_count s); [by simplify_eq|]. by apply respond_answer.
Qed.

Lemma process_one_write i a vs s s' :
  req_ok (WriteReq i a vs) -> sends_ok s -> answer s (WriteReq i a vs) = Ok s' ->
  process_one (encode (WriteReq i a vs)) s = Continue [] s'.
Proof.
  intros (Hi & Ha & Hvs & Hn) Hs Hans.
  set (head := [i; 16; a / 256; a mod 256; zlen vs / 256; zlen vs mod 256; 2 * zlen vs]).
  set (body := head ++ (vs ≫= word_bytes)).
  assert (encode (WriteReq i a vs) = append_crc body) as -> by done.
  assert (is_u16 (zlen vs)) as Hq by (unfold is_u16, zlen; lia).
  assert (bytes_ok body) as Hb.
  { unfold body, head. rewrite bytes_ok_app, !bytes_ok_cons.
    pose proof (u16_split _ Ha) as [? ?]. pose proof (u16_split _ Hq) as [? ?].
    assert (is_byte 16) by (unfold is_byte; lia).
    assert (is_byte (2 * zlen vs)) by (unfold is_byte, zlen; lia).
    auto 12 using words_bytes_ok, bytes_ok_nil. }
  assert (length body = (7 + 2 * length vs)%nat) as Hl
    by (unfold body; rewrite length_app, words_length; done).
  assert (forall k, (k < 7)%nat -> byte_at (append_crc body) k = byte_at head k) as Hat.
  { intros k Hk. unfold append_crc, body. rewrite !byte_at_app_l; [done|..];
      rewrite ?length_app; simpl; lia. }
  unfold process_one. cbv zeta. rewrite append_crc_length, Hl.
  rewrite (Hat 0%nat), (Hat 1%nat), (Hat 2%nat), (Hat 3%nat), (Hat 4%nat), (Hat 5%nat),
    (Hat 6%nat) by lia.
  change (byte_at head 0) with i. change (byte_at head 1) with 16.
  change (byte_at head 2) with (a / 256). change (byte_at head 3) with (a mod 256).
  change (byte_at head 4) with (zlen vs / 256). change (byte_at head 5) with (zlen vs mod 256).
  change (byte_at head 6) with (2 * zlen vs). rewrite Z.eqb_refl.
  assert (9 + Z.to_nat (2 * zlen vs) = S (S (length body)))%nat as Er by (unfold zlen; lia).
  repeat match goal with |- context [(?x <? ?y)%nat] =>
    assert ((x <? y)%nat = false) as -> by (apply Nat.ltb_ge; unfold zlen; lia) end.
  rewrite Er. replace (S (S (length body)) - 1)%nat with (S (length body)) by lia.
  replace (S (S (length body)) - 2)%nat with (length body) by lia.
  rewrite append_crc_hi, append_crc_lo, take_append_crc, crc_bytes_join, Z.eqb_refl by done.
  cbn [negb]. rewrite !word_join by done. rewrite (Z.mul_comm 2), Z.eqb_refl.
  assert ((0 <? zlen vs) = true) as -> by (apply Z.ltb_lt; unfold zlen; lia). cbn [andb].
  assert (slice 7 (7 + Z.to_nat (zlen vs * 2)) (append_crc body) = (vs ≫= word_bytes)) as ->.
  { unfold append_crc. rewrite slice_app_l by (unfold zlen; lia). unfold slice, body.
    rewrite (drop_app_length' head) by done. rewrite take_ge; [done|].
    rewrite words_length. unfold zlen. lia. }
  unfold zlen at 1. rewrite Nat2Z.id, unpack_words. cbn [step_rect].
  assert (drop (S (S (length body))) (append_crc body) = []) as ->
    by (apply drop_ge; rewrite append_crc_length; lia).
  unfold answer in Hans. cbn [drop_count set_last_write] in *.
  destruct (0 <? drop_count s); [by simplify_eq|]. by apply respond_answer.
Qed.

Lemma process_one_encode r rest s s' :
  req_ok r -> sends_ok s -> answer s r = Ok s' ->
  process_one (encode r ++ rest) s = Continue rest s'.
Proof.
  intros Hr Hs Hans.
  assert (process_one (encode r) s = Continue [] s') as E
    by (destruct r; [by apply process_one_read|by apply process_one_write]).
  rewrite process_one_app, E; [done|]. intros s''. by rewrite E.
Qed.

Lemma answer_sends_ok s r s' : sends_ok s -> answer s r = Ok s' -> sends_ok s'.
Proof.
  intros Hs. unfold answer. destruct r; simpl; split_match; try (intros [= <-]; done);
    intros (resp & _ & [= <-])%obind_ok; by destruct (has_sock s).
Qed.

Lemma process_requests rs s s' :
  Forall req_ok rs -> sends_ok s -> answer_all s rs = Ok s' ->
  _process_buffer (concat (map encode rs)) s = (Ok [], s').
Proof.
  intros Hrs. revert s. induction Hrs as [|r rs Hr _ IH]; intros s Hs; simpl.
  - intros [= ->]. done.
  - intros (s1 & H1 & H2)%obind_ok.
    rewrite process_buffer_unfold, (process_one_encode r _ s s1) by done.
    eauto using answer_sends_ok.
Qed.

(** C9. On a stream of well-formed requests, cut into chunks in any way, the
    slave refines its specification: it answers (or drops) every request
    exactly once and in order, remembers the last write, and leaves no byte
    unread. *)
Theorem run_refines_answer_all rs chunks s s' :
  Forall req_ok rs -> sends_ok s ->
  Forall (fun c => c <> []) chunks -> concat chunks = concat (map encode rs) ->
  answer_all s rs = Ok s' ->
  serve (chunks_script chunks) [] s = (Ok [], s') /\
  run None (chunks_script chunks) s = (Ok tt, true, s').
Proof.
  intros Hrs Hs Hc E Hans.
  assert (serve (chunks_script chunks) [] s = (Ok [], s')) as R.
  { rewrite serve_chunks by done. simpl. rewrite E. by apply process_requests. }
  split; [done|]. unfold run. by rewrite R.
Qed.

Lemma run_refines_answer_all_witness :
  exists s',
    answer_all (slave_init 0x1234 ∅ 0) [ReadReq 1 3 0 2; WriteReq 1 16 [7; 258]] = Ok s' /\
    last_write_values s' = Some [7; 258] /\ request_count s' = 2 /\
    run None (chunks_script [take 3 (encode (ReadReq 1 3 0 2));
                             drop 3 (encode (ReadReq 1 3 0 2)) ++ encode (WriteReq 1 16 [7; 258])])
        (slave_init 0x1234 ∅ 0) = (Ok tt, true, s').
Proof.
  eexists. split; [vm_compute; reflexivity|]. split; [done|]. split; [done|].
  eapply (run_refines_answer_all [ReadReq 1 3 0 2; WriteReq 1 16 [7; 258]]).
  - repeat constructor; vm_compute; congruence.
  - done.
  - repeat constructor; vm_compute; congruence.
  - vm_compute. reflexivity.
  - vm_compute. reflexivity.
Defined.

Lemma run_chunking_independent_witness :
  run None (chunks_script [[1; 3; 0]; [0; 0; 1; 0x84; 0x0A]]) (slave_init 5 ∅ 0)
  = run None (chunks_script [[1]; [3; 0; 0; 0]; [1; 0x84; 0x0A]]) (slave_init 5 ∅ 0).
Proof. apply run_chunking_independent; [done|by repeat constructor|by repeat constructor|done]. Defined.

(** ** The responses *)

Lemma build_rtu_response_ok i fc d :
  is_byte i -> is_byte fc -> bytes_ok d ->
  _build_rtu_response i fc d = Ok (append_crc ([i; fc] ++ d)).
Proof.
  intros Hi Hfc Hd. unfold _build_rtu_response.
  rewrite py_bytes_ok by (rewrite !bytes_ok_cons; auto using bytes_ok_nil).
  cbn [obind app]. rewrite !crc16_modbus.
  assert (bytes_ok (i :: fc :: d)) as Hb by (rewrite !bytes_ok_cons; auto).
  destruct (u16_split _ (modbus_crc16_u16 _ Hb)) as [? ?].
  rewrite shiftr_8, land_255, py_bytes_ok by (rewrite !bytes_ok_cons; auto using bytes_ok_nil).
  cbn [obind]. unfold append_crc. by rewrite <- !app_comm_cons.
Qed.

Lemma pack_Hs_words xs : Forall is_u16 xs -> pack_Hs xs = Ok (xs ≫= word_bytes).
Proof.
  induction 1 as [|x xs Hx _ IH]; [done|]. rewrite bind_cons. simpl.
  rewrite pack_H_ok, IH by done. done.
Qed.

(** The frame answering a register read of up to 127 registers. *)
Lemma build_response_registers s i fc a c :
  is_byte i -> fc = 3 \/ fc = 4 -> 0 <= c <= 127 -> is_u16 (fake_value s) ->
  exception_fc s !! fc = None ->
  _build_response s i fc a c =
  Ok (append_crc ([i; fc; 2 * c] ++ (replicate (Z.to_nat c) (fake_value s) ≫= word_bytes))).
Proof.
  intros Hi Hfc Hc Hv Hex. unfold _build_response. rewrite Hex.
  assert ((fc =? 3) || (fc =? 4) = true) as -> by (destruct Hfc as [-> | ->]; done).
  assert (Forall is_u16 (replicate (Z.to_nat c) (fake_value s))) as Hr
    by by apply Forall_replicate.
  rewrite pack_Hs_words by done. cbn [obind].
  assert (zlen (replicate (Z.to_nat c) (fake_value s) ≫= word_bytes) = 2 * c) as ->.
  { unfold zlen. rewrite words_length, length_replicate. lia. }
  assert (bytes_ok [2 * c]) by (repeat constructor; unfold is_byte; lia).
  rewrite py_bytes_ok by done. cbn [obind].
  rewrite build_rtu_response_ok; [done|done|unfold is_byte; lia|].
  rewrite bytes_ok_app. split; [done|by apply words_bytes_ok].
Qed.

(** A register read of more than 127 registers makes the response
    builder raise [ValueError] (the byte count does not fit a byte), which
    no handler of [run] catches: the thread dies without answering, whatever
    follows on the line. *)
Theorem run_dies_on_long_read i fc a c chunk script s :
  req_ok (ReadReq i fc a c) -> fc = 3 \/ fc = 4 -> 127 < c ->
  is_u16 (fake_value s) -> exception_fc s !! fc = None -> drop_count s <= 0 ->
  chunk = encode (ReadReq i fc a c) ->
  run None (Iteration false (RxChunk chunk) :: script) s = (Raise ValueError, true, s).
Proof.
  intros Hr Hfc Hc Hv Hex Hd ->.
  assert (_build_response s i fc a c = Raise ValueError) as Hb.
  { unfold _build_response. rewrite Hex.
    assert ((fc =? 3) || (fc =? 4) = true) as -> by (destruct Hfc as [-> | ->]; done).
    rewrite pack_Hs_words by by apply Forall_replicate. cbn [obind]. unfold py_bytes.
    rewrite decide_False; [done|]. rewrite bytes_ok_cons. unfold is_byte, zlen.
    rewrite words_length, length_replicate. lia. }
  assert (_process_buffer (encode (ReadReq i fc a c)) s = (Raise ValueError, s)) as E.
  { rewrite process_buffer_unfold, process_one_read_frame by done.
    assert ((0 <? drop_count s) = false) as -> by (apply Z.ltb_ge; lia).
    unfold respond. by rewrite Hb. }
  unfold run. simpl. simpl in E. by rewrite E.
Qed.

Lemma run_dies_on_long_read_witness :
  run None [Iteration false (RxChunk (encode (ReadReq 1 3 0 128)))] (slave_init 7 ∅ 0)
  = (Raise ValueError, true, slave_init 7 ∅ 0).
Proof.
  refine (run_dies_on_long_read 1 3 0 128 _ _ (slave_init 7 ∅ 0) _ _ _ _ _ _ eq_refl).
  - unfold req_ok, is_byte, is_u16. lia.
  - by left.
  - lia.
  - unfold is_u16. simpl. lia.
  - reflexivity.
  - simpl. lia.
Defined.
