(* ===== verification/UartDrain.v ===== *)
(** * The silent UART peer: rtu_slave_helpers._UartNoEchoThread

    The thread connects, counts the bytes it drains and never answers; [stop]
    and [wait_connected] are the control calls it shares with
    [ModbusRtuSlaveThread]. *)

From Stdlib Require Import ZArith QArith Lia.
From stdpp Require Import base list.
From S2P Require Import Prelude PyBytes RtuSlave.

Open Scope Z_scope.

Record drain := Drain {
  connected : bool;
  bytes_received : Z;
  stop_event : bool;
  dsock : option bool          (* self._sock: [Some true] while it is open *)
}.

Definition drain_init : drain := Drain false 0 false None.

(** The loop, over what each iteration meets (see [RtuSlave.iteration]). *)
Fixpoint drain_loop (script : list iteration) (d : drain) : outcome unit * drain :=
  match script with
  | [] => (Blocked, d)
  | it :: script =>
      if stop_is_set it then (Ok tt, d)
      else match rx it with
           | RxChunk [] => (Ok tt, d)
           | RxChunk chunk =>
               drain_loop script (Drain (connected d) (bytes_received d + zlen chunk) (stop_event d) (dsock d))
           | RxTimeout => drain_loop script d
           | RxError e =>
               if catches TimeoutError e then drain_loop script d
               else if catches OSError e then (Ok tt, d) else (Raise e, d)
           end
  end.

(** [try: self._sock.close() except OSError: pass] *)
Definition close_quietly (close_err : option exn) (d : drain) : outcome unit * drain :=
  let d' := Drain (connected d) (bytes_received d) (stop_event d) (Some false) in
  match close_err with
  | Some e => if catches OSError e then (Ok tt, d') else (Raise e, d')
  | None => (Ok tt, d')
  end.

Definition drain_run (create connect : option exn) (script : list iteration) (close_err : option exn)
    (d : drain) : outcome unit * drain :=
  match create with
  | Some e => if catches OSError e then (Ok tt, d) else (Raise e, d)
  | None =>
      let d1 := Drain (connected d) (bytes_received d) (stop_event d) (Some true) in
      match connect with
      | Some e => if catches OSError e then (Ok tt, d1) else (Raise e, d1)
      | None =>
          match drain_loop script (Drain true (bytes_received d) (stop_event d) (Some true)) with
          | (Ok _, d2) => close_quietly close_err d2
          | r => r
          end
      end
  end.

Definition drain_stop (close_err : option exn) (d : drain) : outcome unit * drain :=
  let d' := Drain (connected d) (bytes_received d) true (dsock d) in
  match dsock d with
  | Some _ => close_quietly close_err d'
  | None => (Ok tt, d')
  end.

(** [wait_connected(timeout)]: [flag n] is the value of [self.connected] the
    n-th look at it sees, [clock] the readings of the monotonic clock (the
    first one computes the deadline). *)
Fixpoint wait_loop (fuel : nat) (flag : nat -> bool) (clock : nat -> Q) (deadline : Q) (n : nat)
  : outcome bool :=
  match fuel with
  | O => Blocked
  | S fuel =>
      if negb (Qle_bool deadline (clock (S n))) then
        if flag n then Ok true else wait_loop fuel flag clock deadline (S n)
      else Ok false
  end.

Definition wait_connected (fuel : nat) (flag : nat -> bool) (clock : nat -> Q) (timeout : Q) : outcome bool :=
  wait_loop fuel flag clock (clock O + timeout)%Q O.

(** The bytes an undisturbed thread drains until it is told to stop. *)
Definition drained (script : list iteration) : Z :=
  foldr (fun it n => match rx it with RxChunk c => zlen c + n | _ => n end) 0 script.

Definition keeps_going (it : iteration) : Prop :=
  stop_is_set it = false /\
  match rx it with
  | RxChunk c => c <> []
  | RxTimeout => True
  | RxError e => catches TimeoutError e = true
  end.

Lemma drain_loop_counts script tail d :
  Forall keeps_going script ->
  drain_loop (script ++ tail) d =
  drain_loop tail (Drain (connected d) (bytes_received d + drained script) (stop_event d) (dsock d)).
Proof.
  intros Hs. revert d. induction Hs as [|it script [Hst Hrx] Hs IH]; intros d.
  { cbn. rewrite Z.add_0_r. by destruct d. }
  cbn [app drain_loop drained foldr]. rewrite Hst. destruct (rx it) as [c| |e].
  - destruct c as [|b c]; [done|]. rewrite IH. cbn. by rewrite Z.add_assoc.
  - apply IH.
  - rewrite Hrx. apply IH.
Qed.

(** The silent peer drains everything: fed any chunks and timeouts and
    then stopped (or closed by its peer), its thread ends without an
    exception, with its socket closed and every byte counted. *)
Theorem drain_run_counts script last_it close_err d :
  Forall keeps_going script ->
  stop_is_set last_it = true \/ rx last_it = RxChunk [] ->
  (forall e, close_err = Some e -> catches OSError e = true) ->
  drain_run None None (script ++ [last_it]) close_err d =
  (Ok tt, Drain true (bytes_received d + drained script) (stop_event d) (Some false)).
Proof.
  intros Hs Hl Hc. unfold drain_run. rewrite drain_loop_counts by done. cbn [drain_loop].
  assert (forall d', close_quietly close_err d' =
    (Ok tt, Drain (connected d') (bytes_received d') (stop_event d') (Some false))) as Hq.
  { intros d'. unfold close_quietly. destruct close_err as [e|]; [|done]. by rewrite (Hc e eq_refl). }
  destruct (stop_is_set last_it); [rewrite Hq; done|]. destruct Hl as [|Hl]; [done|]. rewrite Hl, Hq. done.
Qed.

Lemma drain_run_counts_witness :
  drain_run None None ([Iteration false (RxChunk [1; 2; 3]); Iteration false RxTimeout;
                        Iteration false (RxChunk [4])] ++ [Iteration true RxTimeout])
    (Some OSError) drain_init = (Ok tt, Drain true 4 false (Some false)).
Proof.
  apply (drain_run_counts [Iteration false (RxChunk [1; 2; 3]); Iteration false RxTimeout;
    Iteration false (RxChunk [4])] (Iteration true RxTimeout) (Some OSError) drain_init).
  - repeat constructor; discriminate.
  - left. reflexivity.
  - intros e [= <-]. reflexivity.
Defined.

(** [wait_connected] ends, and answers [true] exactly when some look before
    the first clock reading past the deadline sees the flag. *)
Lemma wait_loop_spec fuel flag clock d n m :
  (n <= m)%nat -> (m - n < fuel)%nat ->
  (forall i, (n <= i < m)%nat -> ~ (d <= clock (S i))%Q) -> (d <= clock (S m))%Q ->
  wait_loop fuel flag clock d n = Ok (existsb flag (seq n (m - n))).
Proof.
  revert n. induction fuel as [|fuel IH]; intros n Hn Hf Hlt Hm; [lia|]. cbn [wait_loop].
  destruct (decide (n = m)) as [->|].
  - rewrite Nat.sub_diag. apply Qle_bool_iff in Hm. rewrite Hm. done.
  - destruct (Qle_bool d (clock (S n))) eqn:E.
    { apply Qle_bool_iff in E. exfalso. apply (Hlt n); [lia|done]. }
    replace (m - n)%nat with (S (m - S n)) by lia. cbn [negb seq existsb].
    destruct (flag n); [done|]. apply IH; [lia|lia| |done]. intros i Hi. apply Hlt. lia.
Qed.
