(* ===== verification/QemuPorts.v ===== *)
(** * Host port slots (api_tests/qemu_ports.py)

    Every host port of a run is derived from one integer slot.  The module
    reads two inputs of its host: the text of
    [/proc/sys/net/ipv4/ip_local_port_range] ([None] when it cannot be
    opened) and the environment.  Its top-level constants are functions of
    these inputs here; the warnings it issues are collected in order. *)

From Stdlib Require Import ZArith Lia Ascii String.
From stdpp Require Import base list gmap strings.
From S2P Require Import Prelude PyStr.

Open Scope Z_scope.

Definition _BLOCK_BASE : Z := 21000.
Definition _BLOCK_SIZE : Z := 16.
Definition _DEFAULT_EPHEMERAL_FLOOR : Z := 32768.

(** The pair is (floor the ceiling is derived from, floor the host reports). *)
Definition _ephemeral_floor (proc : option string) : Z * option Z :=
  match proc with
  | None => (_DEFAULT_EPHEMERAL_FLOOR, None)
  | Some text =>
      match split_ws text with
      | [] => (_DEFAULT_EPHEMERAL_FLOOR, None)
      | w :: _ =>
          match py_int w with
          | Ok low =>
              if _BLOCK_BASE + _BLOCK_SIZE <? low then (low, Some low)
              else (_DEFAULT_EPHEMERAL_FLOOR, Some low)
          | _ => (_DEFAULT_EPHEMERAL_FLOOR, None)
          end
      end
  end.

Definition EPHEMERAL_FLOOR (proc : option string) : Z := (_ephemeral_floor proc).1.
Definition EPHEMERAL_FLOOR_OBSERVED (proc : option string) : option Z := (_ephemeral_floor proc).2.

Definition _MAX_SLOT (proc : option string) : Z :=
  (EPHEMERAL_FLOOR proc - _BLOCK_BASE) / _BLOCK_SIZE - 1.

Definition _ceiling_reason (proc : option string) : string :=
  let floor := show_Z (EPHEMERAL_FLOOR proc) in
  match EPHEMERAL_FLOOR_OBSERVED proc with
  | None =>
      "the ceiling keeps every port of the block below " +:+ floor +:+ ", the " +:+
      "assumed ephemeral floor — this host publishes no " +:+
      "/proc/sys/net/ipv4/ip_local_port_range"
  | Some o =>
      if o =? EPHEMERAL_FLOOR proc then
        "the ceiling keeps every port of the block below this host's ephemeral " +:+
        "floor " +:+ floor +:+ " (ip_local_port_range)"
      else
        "the ceiling keeps every port of the block below " +:+ floor +:+ ", the assumed " +:+
        "floor; this host's ip_local_port_range actually starts at " +:+
        show_Z o +:+ ", i.e. below the whole " +:+ show_Z _BLOCK_BASE +:+ " block, so NO " +:+
        "slot avoids the ephemeral range here and the ceiling is only a convention"
  end.

Definition _parse_slot (proc : option string) (raw : string) : outcome Z :=
  let? slot := py_int raw in
  if (slot <? 0) || (_MAX_SLOT proc <? slot) then Raise ValueError else Ok slot.

Inductive slot_source : Type :=
| WB_MGE_PORT_SLOT | EXECUTOR_NUMBER | PYTEST_XDIST_WORKER | default_slot.

Definition source_name (s : slot_source) : string :=
  match s with
  | WB_MGE_PORT_SLOT => "WB_MGE_PORT_SLOT"
  | EXECUTOR_NUMBER => "EXECUTOR_NUMBER"
  | PYTEST_XDIST_WORKER => "PYTEST_XDIST_WORKER"
  | default_slot => "default"
  end.

Abbreviation environ := (gmap string string).

Definition env_get (env : environ) (k : string) : string := default "" (env !! k).

(** The world is the list of values a warning was issued for, latest last. *)
Definition _slot_from_env (proc : option string) (env : environ)
  : eff (list string) (Z * slot_source) :=
  let worker := env_get env "PYTEST_XDIST_WORKER" in
  let xdist : eff (list string) (Z * slot_source) :=
    if startswith "gw" worker && isdigit (sdrop 2 worker) then
      match _parse_slot proc (sdrop 2 worker) with
      | Ok s => ret (s, PYTEST_XDIST_WORKER)
      | _ => ret (0, default_slot)
      end
    else ret (0, default_slot) in
  let raw := strip (env_get env "WB_MGE_PORT_SLOT") in
  if negb (String.eqb raw "") then
    lift (omap_ok (fun s => (s, WB_MGE_PORT_SLOT)) (_parse_slot proc raw))
  else
    let raw := strip (env_get env "EXECUTOR_NUMBER") in
    if negb (String.eqb raw "") then
      match _parse_slot proc raw with
      | Ok s => ret (s, EXECUTOR_NUMBER)
      | _ => modify (fun warned => warned ++ [raw]) ;;; xdist
      end
    else xdist.

(** ** The block of a slot *)

Definition _BLOCK_START (slot : Z) : Z := _BLOCK_BASE + slot * _BLOCK_SIZE.
Definition HOST : string := "127.0.0.1".
Definition HTTP_HOST_PORT (slot : Z) : Z := _BLOCK_START slot + 0.
Definition ALT_WEB_HOST_PORT (slot : Z) : Z := _BLOCK_START slot + 1.
Definition GATEWAY_HOST_PORT (slot : Z) : Z := _BLOCK_START slot + 2.
Definition TRANSPARENT_PORT2_HOST_PORT (slot : Z) : Z := _BLOCK_START slot + 3.
Definition CACHE_MODBUS_HOST_PORT (slot : Z) : Z := _BLOCK_START slot + 4.
Definition IO_BUS_UDP_PORT (slot : Z) : Z := _BLOCK_START slot + 5.
Definition UART1_TCP_PORT (slot : Z) : Z := _BLOCK_START slot + 6.
Definition UART2_TCP_PORT (slot : Z) : Z := _BLOCK_START slot + 7.

Definition _GUEST_HTTP : Z := 80.
Definition _GUEST_ALT_WEB : Z := 8081.
Definition _GUEST_GATEWAY : Z := 502.
Definition _GUEST_TRANSPARENT_P2 : Z := 503.
Definition _GUEST_CACHE_MODBUS : Z := 50504.
Definition _GUEST_IO_BUS : Z := 5570.

Definition MY_TCP_HOST_PORTS (slot : Z) : list Z :=
  [HTTP_HOST_PORT slot; ALT_WEB_HOST_PORT slot; GATEWAY_HOST_PORT slot;
   TRANSPARENT_PORT2_HOST_PORT slot; CACHE_MODBUS_HOST_PORT slot;
   UART1_TCP_PORT slot; UART2_TCP_PORT slot].
Definition MY_UDP_HOST_PORTS (slot : Z) : list Z := [IO_BUS_UDP_PORT slot].

(** One [hostfwd] rule of the [-nic] value. *)
Definition hostfwd (proto : string) (host_port guest_port : Z) : string :=
  "hostfwd=" +:+ proto +:+ ":" +:+ HOST +:+ ":" +:+ show_Z host_port +:+ "-:" +:+ show_Z guest_port.

Definition qemu_nic_arg (slot : Z) : string :=
  "user,model=open_eth," +:+
  hostfwd "tcp" (HTTP_HOST_PORT slot) _GUEST_HTTP +:+ "," +:+
  hostfwd "tcp" (ALT_WEB_HOST_PORT slot) _GUEST_ALT_WEB +:+ "," +:+
  hostfwd "tcp" (GATEWAY_HOST_PORT slot) _GUEST_GATEWAY +:+ "," +:+
  hostfwd "tcp" (TRANSPARENT_PORT2_HOST_PORT slot) _GUEST_TRANSPARENT_P2 +:+ "," +:+
  hostfwd "tcp" (CACHE_MODBUS_HOST_PORT slot) _GUEST_CACHE_MODBUS +:+ "," +:+
  hostfwd "udp" (IO_BUS_UDP_PORT slot) _GUEST_IO_BUS.

Definition qemu_serial_args (slot : Z) : list string :=
  ["-serial"; "tcp::" +:+ show_Z (UART1_TCP_PORT slot) +:+ ",server,nowait";
   "-serial"; "tcp::" +:+ show_Z (UART2_TCP_PORT slot) +:+ ",server,nowait"].

Definition qemu_serial_args_str (slot : Z) : string := join " " (qemu_serial_args slot).

Definition port_summary (slot : Z) (source : slot_source) : string :=
  "slot " +:+ show_Z slot +:+ " (from " +:+ source_name source +:+ "): " +:+
  "web=" +:+ show_Z (HTTP_HOST_PORT slot) +:+ "->80 altweb=" +:+
  show_Z (ALT_WEB_HOST_PORT slot) +:+ "->" +:+ show_Z _GUEST_ALT_WEB +:+ " " +:+
  "gateway=" +:+ show_Z (GATEWAY_HOST_PORT slot) +:+ "->" +:+ show_Z _GUEST_GATEWAY +:+ " " +:+
  "bridge2=" +:+ show_Z (TRANSPARENT_PORT2_HOST_PORT slot) +:+ "->" +:+
  show_Z _GUEST_TRANSPARENT_P2 +:+ " " +:+
  "cache/bridge1=" +:+ show_Z (CACHE_MODBUS_HOST_PORT slot) +:+ "->" +:+
  show_Z _GUEST_CACHE_MODBUS +:+ " " +:+
  "io-bus/udp=" +:+ show_Z (IO_BUS_UDP_PORT slot) +:+ "->" +:+ show_Z _GUEST_IO_BUS +:+ " " +:+
  "uart1=" +:+ show_Z (UART1_TCP_PORT slot) +:+ " uart2=" +:+ show_Z (UART2_TCP_PORT slot).

(** ** Reading the command line back

    What QEMU does with the [-nic] value and the two [-serial] values: the
    host ports they open, taken from the text. *)

(** The host port of one comma-separated [-nic] field, if it is a rule. *)
Definition nic_field_port (f : string) : option (string * Z) :=
  match split_on ":" f with
  | [proto; _; mid; _] =>
      match py_int_opt (partition_at "-" mid).1 with
      | Some p => Some (sdrop 8 proto, p)
      | None => None
      end
  | _ => None
  end.

Definition nic_ports (nic : string) : list (string * Z) :=
  omap nic_field_port (split_on "," nic).

(** The port of a ["tcp::<port>,server,nowait"] chardev value. *)
Definition chardev_port (a : string) : option (string * Z) :=
  match split_on "," a with
  | addr :: _ =>
      match split_on ":" addr with
      | ["tcp"; _; p] => (fun p => ("tcp", p)) <$> py_int_opt p
      | _ => None
      end
  | [] => None
  end.

Definition opened_ports (nic : string) (serial : list string) : list (string * Z) :=
  nic_ports nic ++ omap chardev_port serial.

(** ** Lemmas *)

Lemma ephemeral_floor_above proc : _BLOCK_BASE + _BLOCK_SIZE < EPHEMERAL_FLOOR proc.
Proof.
  unfold EPHEMERAL_FLOOR, _ephemeral_floor. repeat split_match; bool_to_prop; simpl;
    unfold _BLOCK_BASE, _BLOCK_SIZE, _DEFAULT_EPHEMERAL_FLOOR in *; lia.
Qed.

(** The ceiling admits the default slot on every host. *)
Lemma max_slot_nonneg proc : 0 <= _MAX_SLOT proc.
Proof.
  pose proof (ephemeral_floor_above proc). unfold _MAX_SLOT, _BLOCK_BASE, _BLOCK_SIZE in *.
  pose proof (Z.div_le_lower_bound (EPHEMERAL_FLOOR proc - 21000) 16 1). lia.
Qed.

Lemma parse_slot_range proc raw slot :
  _parse_slot proc raw = Ok slot -> py_int raw = Ok slot /\ 0 <= slot <= _MAX_SLOT proc.
Proof.
  unfold _parse_slot. intros (s & -> & H)%obind_ok. split_match_in H; [done|].
  injection H as ->. bool_to_prop. done.
Qed.

Lemma parse_slot_iff proc raw slot :
  _parse_slot proc raw = Ok slot <-> py_int raw = Ok slot /\ 0 <= slot <= _MAX_SLOT proc.
Proof.
  split; [apply parse_slot_range|]. intros [E H]. unfold _parse_slot. rewrite E. cbn [obind].
  replace (slot <? 0) with false by (symmetry; apply Z.ltb_ge; lia).
  replace (_MAX_SLOT proc <? slot) with false by (symmetry; apply Z.ltb_ge; lia). done.
Qed.

Lemma py_int_value_error s : raises_only (catches ValueError) (py_int s).
Proof. unfold py_int. by destruct (py_int_opt s). Qed.

Lemma parse_slot_value_error proc raw e : _parse_slot proc raw = Raise e -> e = ValueError.
Proof.
  unfold _parse_slot, py_int. destruct (py_int_opt raw); simpl; [|congruence].
  split_match; congruence.
Qed.

Lemma parse_slot_settled proc raw : _parse_slot proc raw <> Blocked.
Proof. unfold _parse_slot, py_int. destruct (py_int_opt raw); simpl; [split_match|]; done. Qed.

Lemma slot_from_env_range proc env w slot src w' :
  _slot_from_env proc env w = (Ok (slot, src), w') -> 0 <= slot <= _MAX_SLOT proc.
Proof.
  pose proof (max_slot_nonneg proc). unfold _slot_from_env, lift, omap_ok, ret, bind, modify.
  intros E. repeat split_match_in E; simplify_eq/=; try lia;
    try (eapply parse_slot_range; eassumption).
  apply obind_ok in H0 as (s & Hs & ?). simplify_eq/=. by eapply parse_slot_range.
Qed.

(** The host ports a run reserves, TCP and UDP. *)
Definition reserved_ports (slot : Z) : list Z := MY_TCP_HOST_PORTS slot ++ MY_UDP_HOST_PORTS slot.

Lemma reserved_ports_iff slot p :
  p ∈ reserved_ports slot <-> _BLOCK_START slot <= p < _BLOCK_START slot + 8.
Proof.
  unfold reserved_ports, MY_TCP_HOST_PORTS, MY_UDP_HOST_PORTS, HTTP_HOST_PORT, ALT_WEB_HOST_PORT,
    GATEWAY_HOST_PORT, TRANSPARENT_PORT2_HOST_PORT, CACHE_MODBUS_HOST_PORT, UART1_TCP_PORT,
    UART2_TCP_PORT, IO_BUS_UDP_PORT.
  cbn [app]. rewrite !elem_of_cons, elem_of_nil. lia.
Qed.

Lemma reserved_ports_nodup slot : NoDup (reserved_ports slot).
Proof.
  unfold reserved_ports, MY_TCP_HOST_PORTS, MY_UDP_HOST_PORTS, HTTP_HOST_PORT, ALT_WEB_HOST_PORT,
    GATEWAY_HOST_PORT, TRANSPARENT_PORT2_HOST_PORT, CACHE_MODBUS_HOST_PORT, UART1_TCP_PORT,
    UART2_TCP_PORT, IO_BUS_UDP_PORT.
  cbn [app]. rewrite !NoDup_cons, !elem_of_cons, !elem_of_nil. repeat split; try lia.
  apply NoDup_nil_2.
Qed.

Lemma block_ports_below proc slot p :
  0 <= slot <= _MAX_SLOT proc -> p ∈ reserved_ports slot ->
  _BLOCK_BASE <= p < EPHEMERAL_FLOOR proc.
Proof.
  intros Hs Hp%reserved_ports_iff. unfold _MAX_SLOT in Hs.
  pose proof (Z.mul_div_le (EPHEMERAL_FLOOR proc - _BLOCK_BASE) _BLOCK_SIZE eq_refl).
  unfold _BLOCK_START, _BLOCK_BASE, _BLOCK_SIZE in *. lia.
Qed.

Lemma floor_observed proc low :
  EPHEMERAL_FLOOR_OBSERVED proc = Some low -> _BLOCK_BASE + _BLOCK_SIZE < low ->
  EPHEMERAL_FLOOR proc = low.
Proof.
  unfold EPHEMERAL_FLOOR_OBSERVED, EPHEMERAL_FLOOR, _ephemeral_floor. intros H Hl.
  repeat split_match_in H; simplify_eq/=; try done. bool_to_prop. lia.
Qed.

(** Whatever the host and the environment, when the module loads, every
    port of the run's block lies at or above 21000 and below the floor the
    ceiling is computed from, and below the floor the host itself reports
    when that floor leaves room for a block: the kernel never hands one of
    the reserved numbers to a client socket. *)
Theorem accepted_slot_avoids_ephemeral proc env w slot src w' p :
  _slot_from_env proc env w = (Ok (slot, src), w') ->
  p ∈ reserved_ports slot ->
  _BLOCK_BASE <= p < EPHEMERAL_FLOOR proc /\
  (forall low, EPHEMERAL_FLOOR_OBSERVED proc = Some low ->
     _BLOCK_BASE + _BLOCK_SIZE < low -> p < low).
Proof.
  intros Hs%slot_from_env_range Hp. pose proof (block_ports_below _ _ _ Hs Hp) as Hb.
  split; [done|]. intros low Ho Hl. rewrite <- (floor_observed _ _ Ho Hl). lia.
Qed.

Lemma accepted_slot_avoids_ephemeral_witness :
  _slot_from_env (Some "21100 60999") {[ "EXECUTOR_NUMBER" := "99"; "PYTEST_XDIST_WORKER" := "gw4" ]} []
    = (Ok (4, PYTEST_XDIST_WORKER), ["99"]) /\
  _BLOCK_BASE <= 21071 < EPHEMERAL_FLOOR (Some "21100 60999").
Proof.
  split; [vm_compute; reflexivity|].
  apply (accepted_slot_avoids_ephemeral (Some "21100 60999")
    {[ "EXECUTOR_NUMBER" := "99"; "PYTEST_XDIST_WORKER" := "gw4" ]} []
    4 PYTEST_XDIST_WORKER ["99"] 21071).
  - vm_compute. reflexivity.
  - apply reserved_ports_iff. vm_compute. split; congruence.
Defined.

(** Runs in different slots never share a host port, and the eight
    ports of one block are pairwise different. *)
Theorem slots_never_alias slot slot' :
  NoDup (reserved_ports slot) /\ length (reserved_ports slot) = 8%nat /\
  (reserved_ports slot ## reserved_ports slot' <-> slot <> slot').
Proof.
  split_and!; [apply reserved_ports_nodup|done|]. split.
  - intros H ->. apply (H (_BLOCK_START slot')); apply reserved_ports_iff; lia.
  - intros Hne p Hp%reserved_ports_iff Hp'%reserved_ports_iff.
    unfold _BLOCK_START, _BLOCK_SIZE in *. lia.
Qed.

(** The slot the variables ask for, by priority, as the module docstring
    states it: [None] is the explicit request that is refused. *)
Definition usable (proc : option string) (raw : string) : option Z :=
  match py_int_opt raw with
  | Some s => if bool_decide (0 <= s <= _MAX_SLOT proc) then Some s else None
  | None => None
  end.

Definition requested_slot (proc : option string) (env : environ) : option (Z * slot_source) :=
  let explicit := strip (env_get env "WB_MGE_PORT_SLOT") in
  let executor := strip (env_get env "EXECUTOR_NUMBER") in
  let worker := env_get env "PYTEST_XDIST_WORKER" in
  if bool_decide (explicit <> "") then (fun s => (s, WB_MGE_PORT_SLOT)) <$> usable proc explicit
  else match (if bool_decide (executor <> "") then usable proc executor else None) with
       | Some s => Some (s, EXECUTOR_NUMBER)
       | None =>
           match (if startswith "gw" worker && isdigit (sdrop 2 worker)
                  then usable proc (sdrop 2 worker) else None) with
           | Some s => Some (s, PYTEST_XDIST_WORKER)
           | None => Some (0, default_slot)
           end
       end.

Lemma parse_slot_usable proc raw :
  _parse_slot proc raw = match usable proc raw with Some s => Ok s | None => Raise ValueError end.
Proof.
  unfold _parse_slot, usable, py_int. destruct (py_int_opt raw) as [s|]; [|done]. cbn [obind].
  case_bool_decide.
  - replace (s <? 0) with false by (symmetry; apply Z.ltb_ge; lia).
    replace (_MAX_SLOT proc <? s) with false by (symmetry; apply Z.ltb_ge; lia). done.
  - destruct (s <? 0) eqn:E1, (_MAX_SLOT proc <? s) eqn:E2; try done. bool_to_prop. lia.
Qed.

Lemma eqb_empty_decide s : negb (String.eqb s "") = bool_decide (s <> "").
Proof. destruct s; [done|]. by rewrite bool_decide_eq_true_2. Qed.

(** Slot resolution is total and follows the documented priority: it
    raises only for an explicit [WB_MGE_PORT_SLOT] that is not a usable
    slot, and a warning is issued exactly for a present but unusable
    [EXECUTOR_NUMBER] that was consulted. *)
Theorem slot_resolution proc env w :
  _slot_from_env proc env w =
  (match requested_slot proc env with Some r => Ok r | None => Raise ValueError end,
   w ++ (let executor := strip (env_get env "EXECUTOR_NUMBER") in
         if bool_decide (strip (env_get env "WB_MGE_PORT_SLOT") = "" /\ executor <> "" /\
                         usable proc executor = None)
         then [executor] else [])).
Proof.
  unfold _slot_from_env, requested_slot. rewrite !eqb_empty_decide, !parse_slot_usable.
  case_bool_decide as He.
  - rewrite (bool_decide_eq_false_2 (_ /\ _)) by by intros [? _].
    rewrite app_nil_r. by destruct (usable proc _).
  - rewrite He. case_bool_decide as Hx.
    + destruct (usable proc (strip (env_get env "EXECUTOR_NUMBER"))) eqn:Eu.
      * rewrite bool_decide_eq_false_2 by (by intros (_ & _ & ?)). by rewrite app_nil_r.
      * rewrite bool_decide_eq_true_2 by done. unfold bind, modify.
        repeat split_match; simplify_eq; done.
    + rewrite bool_decide_eq_false_2 by (by intros (_ & ? & _)). rewrite app_nil_r.
      repeat split_match; simplify_eq; done.
Qed.

(** Asking for a slot by number gives that slot. *)
Lemma explicit_slot_roundtrip proc env w n :
  0 <= n <= _MAX_SLOT proc ->
  _slot_from_env proc (<["WB_MGE_PORT_SLOT" := show_Z n]> env) w = (Ok (n, WB_MGE_PORT_SLOT), w).
Proof.
  intros Hn. unfold _slot_from_env, env_get. rewrite lookup_insert_eq. cbn [default from_option id].
  change (default "" (Some (show_Z n))) with (show_Z n). rewrite (strip_id (show_Z n)).
  - rewrite (eqb_empty_decide (show_Z n)), bool_decide_eq_true_2 by apply show_Z_nonempty.
    rewrite (parse_slot_usable _ (show_Z n)). unfold usable. rewrite py_int_opt_show.
    by rewrite bool_decide_eq_true_2.
  - eapply all_chars_impl; [|apply show_Z_nonneg_digits; lia]. by intros c ->%digit_not_space.
Qed.

(** ** The command line *)

Lemma no_char_hostfwd proto p g :
  0 <= p -> 0 <= g -> no_char "," proto = true -> no_char "," (hostfwd proto p g) = true.
Proof.
  intros Hp Hg Hc. unfold hostfwd. rewrite !no_char_app, Hc, !no_char_show by done. done.
Qed.

Lemma nic_field_hostfwd proto p g :
  0 <= p -> 0 <= g -> no_char ":" proto = true ->
  nic_field_port (hostfwd proto p g) = Some (proto, p).
Proof.
  intros Hp Hg Hc. unfold nic_field_port, hostfwd.
  replace ("hostfwd=" +:+ proto +:+ ":" +:+ HOST +:+ ":" +:+ show_Z p +:+ "-:" +:+ show_Z g)
    with (join ":" ["hostfwd=" +:+ proto; HOST; show_Z p +:+ "-"; show_Z g])
    by (cbn [join]; by rewrite !sapp_assoc).
  rewrite split_on_join; [|done|].
  - rewrite (partition_at_app "-" (show_Z p) "") by (apply no_char_show; done).
    cbn [fst]. by rewrite py_int_opt_show.
  - repeat constructor; rewrite ?no_char_app, ?no_char_show; done.
Qed.

Lemma block_start_nonneg slot i : 0 <= slot -> 0 <= i -> 0 <= _BLOCK_START slot + i.
Proof. unfold _BLOCK_START, _BLOCK_BASE, _BLOCK_SIZE. lia. Qed.

Lemma chardev_port_uart p :
  0 <= p -> chardev_port ("tcp::" +:+ show_Z p +:+ ",server,nowait") = Some ("tcp", p).
Proof.
  intros Hp. unfold chardev_port.
  replace ("tcp::" +:+ show_Z p +:+ ",server,nowait")
    with (join "," ["tcp::" +:+ show_Z p; "server"; "nowait"])
    by (cbn [join]; by rewrite !sapp_assoc).
  rewrite split_on_join; [|done|].
  - replace ("tcp::" +:+ show_Z p) with (join ":" ["tcp"; ""; show_Z p]) by done.
    rewrite split_on_join; [|done|].
    + by rewrite py_int_opt_show.
    + repeat constructor; rewrite ?no_char_show; done.
  - repeat constructor; rewrite ?no_char_app, ?no_char_show; done.
Qed.

(** The QEMU command line opens exactly the ports the run reserves: the
    [-nic] and [-serial] values, parsed back, name every TCP and every UDP
    port of the block once and nothing else. *)
Theorem command_line_opens_reserved_ports slot :
  0 <= slot ->
  opened_ports (qemu_nic_arg slot) (qemu_serial_args slot) ≡ₚ
  (pair "tcp" <$> MY_TCP_HOST_PORTS slot) ++ (pair "udp" <$> MY_UDP_HOST_PORTS slot).
Proof.
  intros Hs. pose proof (fun i => block_start_nonneg slot i Hs) as Hb.
  unfold opened_ports, nic_ports.
  replace (qemu_nic_arg slot) with (join ","
    ["user"; "model=open_eth"; hostfwd "tcp" (HTTP_HOST_PORT slot) _GUEST_HTTP;
     hostfwd "tcp" (ALT_WEB_HOST_PORT slot) _GUEST_ALT_WEB;
     hostfwd "tcp" (GATEWAY_HOST_PORT slot) _GUEST_GATEWAY;
     hostfwd "tcp" (TRANSPARENT_PORT2_HOST_PORT slot) _GUEST_TRANSPARENT_P2;
     hostfwd "tcp" (CACHE_MODBUS_HOST_PORT slot) _GUEST_CACHE_MODBUS;
     hostfwd "udp" (IO_BUS_UDP_PORT slot) _GUEST_IO_BUS]) by reflexivity.
  rewrite split_on_join; [|done|].
  - cbn [omap list_omap]. rewrite !nic_field_hostfwd by (done || (apply Hb; lia)).
    unfold qemu_serial_args. cbn [omap list_omap].
    rewrite !chardev_port_uart by (apply Hb; lia).
    cbn [app fmap list_fmap MY_TCP_HOST_PORTS MY_UDP_HOST_PORTS]. solve_Permutation.
  - repeat (constructor; [first [done | apply no_char_hostfwd; first [done | apply Hb; lia]]|]).
    constructor.
Qed.

Lemma command_line_opens_reserved_ports_witness :
  0 <= 3 /\
  opened_ports (qemu_nic_arg 3) (qemu_serial_args 3) ≡ₚ
  (pair "tcp" <$> MY_TCP_HOST_PORTS 3) ++ (pair "udp" <$> MY_UDP_HOST_PORTS 3).
Proof. split; [lia|]. apply (command_line_opens_reserved_ports 3). lia. Defined.
