(* ===== verification/Sockets.v ===== *)
(** * Sockets, the clock, and the receive loops of modbus_helpers.py

    A connected TCP socket is the script of what its [recv] calls meet
    ([incoming]), in order: bytes the peer sent (cut anywhere), a wait longer
    than the socket timeout, an error, or the end of the stream.  [recv(n)]
    takes at most [n] bytes of the first arrival and leaves the rest.  The
    monotonic clock is an arbitrary function from the number of the reading
    to its value.

    [recv_exactly] and [recv_modbus_tcp_response] (api_tests/modbus_helpers.py)
    are the two ways the test helpers read a Modbus TCP frame. *)

From Stdlib Require Import ZArith QArith Lia.
From stdpp Require Import base list sets.
From S2P Require Import Prelude PyBytes.

Open Scope Z_scope.

Inductive arrival : Type :=
| Bytes (b : Z) (bs : list Z)
| Quiet
| Fault (e : exn)
| Eof.

Record sock := Sock {
  incoming : list arrival;
  armed : bool;                      (* a timeout was set with settimeout() *)
  outgoing : list (list Z);          (* arguments of sendall, in order *)
  send_faults : list (option exn);   (* outcomes of the next sendall calls *)
  is_closed : bool
}.

Definition set_incoming (q : list arrival) (k : sock) : sock :=
  Sock q (armed k) (outgoing k) (send_faults k) (is_closed k).

Definition push_bytes (bs : list Z) (q : list arrival) : list arrival :=
  match bs with
  | [] => q
  | b :: bs => Bytes b bs :: q
  end.

(** [sock.recv(n)], [n >= 1] *)
Definition sock_recv (n : Z) : eff sock (list Z) := fun k =>
  if is_closed k then (Raise OSError, k)
  else match incoming k with
       | [] => if armed k then (Raise TimeoutError, k) else (Blocked, k)
       | Bytes b bs :: q =>
           (Ok (take (Z.to_nat n) (b :: bs)),
            set_incoming (push_bytes (drop (Z.to_nat n) (b :: bs)) q) k)
       | Quiet :: q => (Raise TimeoutError, set_incoming q k)
       | Fault e :: q => (Raise e, set_incoming q k)
       | Eof :: _ => (Ok [], k)
       end.

(** [sock.sendall(data)] *)
Definition sock_sendall (data : list Z) : eff sock unit := fun k =>
  if is_closed k then (Raise OSError, k)
  else let k' := Sock (incoming k) (armed k) (outgoing k ++ [data])
                   (tail (send_faults k)) (is_closed k) in
       match send_faults k with
       | Some e :: _ => (Raise e, k')
       | _ => (Ok tt, k')
       end.

(** [sock.close()] *)
Definition sock_close : eff sock unit := fun k =>
  (Ok tt, Sock (incoming k) (armed k) (outgoing k) (send_faults k) true).

(** A socket with the monotonic clock. *)
Record timed := Timed { chan : sock; clock : nat -> Q; readings : nat }.

Definition on_chan {A} (m : eff sock A) : eff timed A := fun w =>
  let '(r, k) := m (chan w) in (r, Timed k (clock w) (readings w)).

(** [time.monotonic()] *)
Definition monotonic : eff timed Q := fun w =>
  (Ok (clock w (readings w)), Timed (chan w) (clock w) (S (readings w))).

(** ** recv_exactly *)

Fixpoint recv_loop (fuel : nat) (n : Z) (buf : list Z) : eff sock (list Z) :=
  match fuel with
  | O => block
  | S fuel =>
      if zlen buf <? n then
        let* chunk := sock_recv (n - zlen buf) in
        match chunk with
        | [] => raise ConnectionError
        | _ => recv_loop fuel n (buf ++ chunk)
        end
      else ret buf
  end.

(** Every [recv] of the loop returns at least one byte or ends it. *)
Definition recv_exactly (n : Z) : eff sock (list Z) := recv_loop (S (Z.to_nat n)) n [].

(** ** recv_modbus_tcp_response *)

(** The body shared by its two loops: until [target] bytes are there, check
    the deadline, [recv(256)], and go round again on a socket timeout.  On an
    empty chunk the first loop raises ([Some e]), the second breaks ([None]). *)
Fixpoint read_upto (fuel : nat) (deadline : Q) (target : Z) (on_eof : option exn)
    (response : list Z) : eff timed (list Z) :=
  match fuel with
  | O => block
  | S fuel =>
      if zlen response <? target then
        let* now := monotonic in
        if Qle_bool deadline now then raise TimeoutError
        else
          let* r := try_except (let* c := on_chan (sock_recv 256) in ret (Some c))
                      (catches TimeoutError) (fun _ => ret None) in
          match r with
          | None => read_upto fuel deadline target on_eof response
          | Some [] => match on_eof with Some e => raise e | None => ret response end
          | Some chunk => read_upto fuel deadline target on_eof (response ++ chunk)
          end
      else ret response
  end.

(** [struct.unpack('>HHH', response[:6])[2]] *)
Definition mbap_length (response : list Z) : Z :=
  256 * byte_at response 4 + byte_at response 5.

Definition recv_modbus_tcp_response (fuel : nat) (deadline : Q) : eff timed (list Z) :=
  let* response := read_upto fuel deadline 6 (Some ConnectionError) [] in
  read_upto fuel deadline (6 + mbap_length response) None response.

(** ** The byte stream of a socket *)

(** All the bytes the socket can still deliver. *)
Fixpoint stream (q : list arrival) : list Z :=
  match q with
  | Bytes b bs :: q => b :: bs ++ stream q
  | Quiet :: q | Fault _ :: q => stream q
  | _ => []
  end.

(** The bytes that arrive before anything else happens, and what happens. *)
Fixpoint ready (q : list arrival) : list Z :=
  match q with
  | Bytes b bs :: q => b :: bs ++ ready q
  | _ => []
  end.

Fixpoint obstacle (q : list arrival) : list arrival :=
  match q with
  | Bytes _ _ :: q => obstacle q
  | _ => q
  end.

Lemma push_bytes_stream bs q : stream (push_bytes bs q) = bs ++ stream q.
Proof. by destruct bs. Qed.

Lemma push_bytes_ready bs q : ready (push_bytes bs q) = bs ++ ready q.
Proof. by destruct bs. Qed.

Lemma push_bytes_obstacle bs q : obstacle (push_bytes bs q) = obstacle q.
Proof. by destruct bs. Qed.

(** A [recv] moves a prefix of the stream to its caller and touches nothing
    else; an empty result is the end of the stream. *)
Lemma sock_recv_frame n k r k' :
  sock_recv n k = (r, k') -> 0 < n ->
  armed k' = armed k /\ is_closed k' = is_closed k /\ outgoing k' = outgoing k /\
  (forall e, Fault e ∈ incoming k' -> Fault e ∈ incoming k) /\
  match r with
  | Ok bs => stream (incoming k) = bs ++ stream (incoming k') /\
             (bs = [] -> exists q, incoming k' = Eof :: q)
  | Raise e => stream (incoming k') = stream (incoming k) /\
               (e = TimeoutError \/ is_closed k = true \/ Fault e ∈ incoming k)
  | Blocked => armed k = false
  end.
Proof.
  unfold sock_recv. intros H Hn.
  destruct (is_closed k) eqn:Ec; [simplify_eq; split_and!; auto|].
  destruct (incoming k) as [|[b bs| |e|] q] eqn:Eq; [destruct (armed k) eqn:Ea| | | |];
    simplify_eq/=; rewrite ?Ec, ?Eq; split_and!; eauto; try (intros; by right).
  - intros e He. apply elem_of_cons; right. destruct (drop (Z.to_nat n) (b :: bs)); [done|].
    by apply elem_of_cons in He as [?|?].
  - rewrite push_bytes_stream, app_assoc.
    change (b :: bs ++ stream q) with ((b :: bs) ++ stream q). by rewrite take_drop.
  - destruct (Z.to_nat n) eqn:E; [lia|done].
  - do 2 right. apply elem_of_cons. by left.
Qed.

Definition at_eof (k : sock) : Prop := exists q, incoming k = Eof :: q.

(** What one of the two loops of [recv_modbus_tcp_response] guarantees: it
    returns or raises; what it returns was read from the stream and is
    complete unless the stream ended; it raises only at the deadline, at the
    end of the stream or for a fault of the socket. *)
Definition loop_post (d : Q) (target : Z) (on_eof : option exn) (resp : list Z) (w : timed)
    (out : outcome (list Z) * timed) : Prop :=
  let '(r, w') := out in
  armed (chan w') = true /\ is_closed (chan w') = false /\ clock w' = clock w /\
  (readings w <= readings w')%nat /\
  (forall e, Fault e ∈ incoming (chan w') -> Fault e ∈ incoming (chan w)) /\
  match r with
  | Ok full => exists got, full = resp ++ got /\
      stream (incoming (chan w)) = got ++ stream (incoming (chan w')) /\
      (target <= zlen full \/ on_eof = None /\ at_eof (chan w'))
  | Raise e =>
      (e = TimeoutError /\ exists i, (readings w <= i < readings w')%nat /\ (d <= clock w i)%Q) \/
      (on_eof = Some e /\ at_eof (chan w') /\ zlen (resp ++ stream (incoming (chan w))) < target) \/
      Fault e ∈ incoming (chan w)
  | Blocked => False
  end.

Lemma loop_post_step d target on_eof resp got0 k w out :
  stream (incoming (chan w)) = got0 ++ stream (incoming k) ->
  (forall e, Fault e ∈ incoming k -> Fault e ∈ incoming (chan w)) ->
  loop_post d target on_eof (resp ++ got0) (Timed k (clock w) (S (readings w))) out ->
  loop_post d target on_eof resp w out.
Proof.
  destruct out as [r w']. unfold loop_post. cbn [chan clock readings].
  intros Hs Hfa (Ha & Hc & Hk & Hn & Hf & Hr). split_and!; auto with lia.
  destruct r as [full|e|]; [| |done].
  - destruct Hr as (got & -> & Hst & Hd). exists (got0 ++ got).
    rewrite Hs, Hst, <- !app_assoc in *. auto.
  - destruct Hr as [(-> & i & Hi & Hq)|[(-> & Hq & Hl)|Hin]]; auto.
    + left. split; [done|]. exists i. split; [lia|done].
    + right; left. split_and!; auto. by rewrite Hs, app_assoc.
Qed.

(** The guarantee holds on an open socket with a timeout once reading [m] of
    the clock is past the deadline. *)
Lemma read_upto_spec fuel d target on_eof resp w m :
  armed (chan w) = true -> is_closed (chan w) = false ->
  (forall i, (m <= i)%nat -> (d <= clock w i)%Q) -> (m - readings w < fuel)%nat ->
  loop_post d target on_eof resp w (read_upto fuel d target on_eof resp w).
Proof.
  revert resp w. induction fuel as [|fuel IH]; intros resp w Ha Hc Hm Hf; [lia|].
  cbn [read_upto]. destruct (zlen resp <? target) eqn:El; bool_to_prop.
  2: { unfold loop_post. split_and!; auto. exists []. rewrite app_nil_r. auto. }
  unfold bind at 1. cbn [monotonic]. destruct (Qle_bool d (clock w (readings w))) eqn:Eq.
  { apply Qle_bool_iff in Eq. cbn. split_and!; auto with lia.
    left. split; [done|]. exists (readings w). auto with lia. }
  assert (readings w < m)%nat as Hlt.
  { destruct (decide (readings w < m)%nat); [done|].
    assert (d <= clock w (readings w))%Q as Hd%Qle_bool_iff by (apply Hm; lia). congruence. }
  unfold bind at 1, try_except, bind at 1, on_chan. cbn [chan clock readings].
  destruct (sock_recv 256 (chan w)) as [r k] eqn:Er.
  destruct (sock_recv_frame _ _ _ _ Er ltac:(lia)) as (Ha' & Hc' & _ & Hfa & Hr).
  rewrite Ha in Ha'. rewrite Hc in Hc', Hr.
  assert (forall resp', loop_post d target on_eof resp' (Timed k (clock w) (S (readings w)))
    (read_upto fuel d target on_eof resp' (Timed k (clock w) (S (readings w))))) as Hrec
    by (intros resp'; apply IH; cbn; auto; lia).
  destruct r as [[|b bs]|e|].
  - destruct Hr as [Hs He]. pose proof (He eq_refl) as Hq. destruct on_eof as [e|]; cbn;
      split_and!; auto with lia.
    + right; left. split_and!; auto. rewrite Hs. destruct Hq as [q ->]. by rewrite app_nil_r.
    + exists []. rewrite app_nil_r. split_and!; auto.
  - cbn. eapply loop_post_step; [apply Hr|done|]. apply Hrec.
  - destruct Hr as [Hs He]. destruct (catches TimeoutError e) eqn:Et; cbn.
    + eapply (loop_post_step _ _ _ _ []); [by rewrite Hs|done|]. rewrite app_nil_r. apply Hrec.
    + destruct He as [-> | [? | Hin]]; [done..|]. split_and!; auto with lia.
  - congruence.
Qed.

(** Whatever the peer sends and however TCP cuts it,
    [recv_modbus_tcp_response] on a socket with a timeout ends (fuel: one
    iteration per clock reading before the deadline), reads a prefix of the
    stream, returns at least the six header bytes, and returns less than the
    frame its length field announces only when the peer closed the
    connection; it raises [TimeoutError] only once a reading of the clock
    reached the deadline and [ConnectionError] only for a stream that ends
    inside the header. *)
Theorem recv_modbus_tcp_response_spec fuel d w m :
  armed (chan w) = true -> is_closed (chan w) = false ->
  (forall i, (m <= i)%nat -> (d <= clock w i)%Q) -> (m - readings w < fuel)%nat ->
  let '(r, w') := recv_modbus_tcp_response fuel d w in
  match r with
  | Ok full => stream (incoming (chan w)) = full ++ stream (incoming (chan w')) /\
      6 <= zlen full /\ (6 + mbap_length full <= zlen full \/ at_eof (chan w'))
  | Raise e =>
      (e = TimeoutError /\ exists i, (i < readings w')%nat /\ (d <= clock w i)%Q) \/
      (e = ConnectionError /\ zlen (stream (incoming (chan w))) < 6) \/
      Fault e ∈ incoming (chan w)
  | Blocked => False
  end.
Proof.
  intros Ha Hc Hm Hf. unfold recv_modbus_tcp_response, bind.
  pose proof (read_upto_spec fuel d 6 (Some ConnectionError) [] w m Ha Hc Hm Hf) as H1.
  destruct (read_upto fuel d 6 _ [] w) as [[hd|e|] w1]; unfold loop_post in H1;
    destruct H1 as (Ha1 & Hc1 & Hk1 & Hr1 & Hf1 & H1); [| |done].
  2: { destruct H1 as [(-> & i & Hi & Hq)|[(? & _ & Hl)|Hin]]; [left|right; left|by auto].
       - split; [done|]. exists i. auto with lia.
       - simplify_eq. auto. }
  destruct H1 as (got & Eh & Hs & [Hl|[? _]]); [|done]. simpl in Eh; subst got.
  pose proof (read_upto_spec fuel d (6 + mbap_length hd) None hd w1 m Ha1 Hc1) as H2.
  rewrite Hk1 in H2. specialize (H2 Hm ltac:(lia)).
  destruct (read_upto fuel d _ None hd w1) as [[full|e|] w2]; unfold loop_post in H2;
    destruct H2 as (Ha2 & Hc2 & Hk2 & Hr2 & Hf2 & H2); [| |done].
  - destruct H2 as (got & -> & Hs2 & Hd).
    assert (mbap_length (hd ++ got) = mbap_length hd) as ->.
    { unfold mbap_length. unfold zlen in Hl. by rewrite !byte_at_app_l by lia. }
    split_and!; [by rewrite Hs, Hs2, app_assoc|unfold zlen in *; rewrite length_app; lia|].
    destruct Hd as [|[_ ?]]; auto.
  - rewrite Hk1 in H2. destruct H2 as [(-> & i & Hi & Hq)|[(? & _)|Hin]]; [left|done|by auto].
    split; [done|]. exists i. split; [lia|done].
Qed.

Lemma recv_modbus_tcp_response_spec_witness :
  let w := Timed (Sock [Bytes 0 [1; 0]; Quiet; Bytes 0 [0; 3; 1; 3]; Eof] true [] [] false)
             (fun i => inject_Z (Z.of_nat i)) 0 in
  exists w', recv_modbus_tcp_response 9 7 w = (Ok [0; 1; 0; 0; 0; 3; 1; 3], w') /\ at_eof (chan w') /\
  [0; 1; 0; 0; 0; 3; 1; 3] = [0; 1; 0; 0; 0; 3; 1; 3] ++ stream (incoming (chan w')).
Proof.
  intros w.
  pose proof (recv_modbus_tcp_response_spec 9 7 w 7 eq_refl eq_refl) as H.
  assert (forall i, (7 <= i)%nat -> (7 <= clock w i)%Q) as Hc.
  { intros i Hi. change (inject_Z 7 <= inject_Z (Z.of_nat i))%Q. rewrite <- Zle_Qle. lia. }
  specialize (H Hc ltac:(cbn; lia)). revert H. vm_compute recv_modbus_tcp_response.
  intros (H & _ & [Hl|He]); [by vm_compute in Hl|].
  eexists. split; [reflexivity|]. split; [exact He|exact H].
Defined.

(** ** recv_exactly *)

Lemma sock_recv_open n k b bs q :
  is_closed k = false -> incoming k = Bytes b bs :: q ->
  sock_recv n k = (Ok (take (Z.to_nat n) (b :: bs)),
                   set_incoming (push_bytes (drop (Z.to_nat n) (b :: bs)) q) k).
Proof. intros Hc Hq. unfold sock_recv. by rewrite Hc, Hq. Qed.

(** How a read that needs more bytes than are ready ends. *)
Definition starved (k : sock) : outcome (list Z) :=
  match obstacle (incoming k) with
  | Eof :: _ => Raise ConnectionError
  | Fault e :: _ => Raise e
  | Quiet :: _ => Raise TimeoutError
  | _ => if armed k then Raise TimeoutError else Blocked
  end.

Lemma recv_loop_spec fuel n buf k :
  is_closed k = false -> (Z.to_nat n - length buf < fuel)%nat ->
  let need := (Z.to_nat n - length buf)%nat in
  let '(r, k') := recv_loop fuel n buf k in
  armed k' = armed k /\ is_closed k' = false /\ outgoing k' = outgoing k /\
  send_faults k' = send_faults k /\
  if decide (need <= length (ready (incoming k)))%nat
  then r = Ok (buf ++ take need (ready (incoming k))) /\
       ready (incoming k') = drop need (ready (incoming k)) /\
       obstacle (incoming k') = obstacle (incoming k)
  else r = starved k.
Proof.
  revert buf k. induction fuel as [|fuel IH]; intros buf k Hc Hf; [lia|]. cbn zeta.
  cbn [recv_loop]. destruct (zlen buf <? n) eqn:El; unfold zlen in *; bool_to_prop.
  2: { replace (Z.to_nat n - length buf)%nat with 0%nat by lia.
       unfold ret. rewrite decide_True by lia. rewrite take_0, app_nil_r, drop_0. done. }
  unfold bind. destruct (incoming k) as [|a q] eqn:Eq.
  { unfold sock_recv, starved. rewrite Hc, Eq. cbn [ready length obstacle].
    destruct (armed k) eqn:Ea; cbv beta iota; rewrite decide_False by lia; split_and!; auto. }
  destruct a as [b bs| |e|]; cycle 1.
  1-3: unfold sock_recv, starved; rewrite Hc, Eq; cbn [ready length obstacle];
    unfold raise; cbv beta iota; rewrite decide_False by lia; destruct k; cbn in *; split_and!; auto.
  rewrite (sock_recv_open _ _ _ _ _ Hc Eq).
  set (c := Z.to_nat (n - Z.of_nat (length buf))).
  assert (c = (Z.to_nat n - length buf)%nat) as Ec by (unfold c; lia).
  destruct (take c (b :: bs)) as [|x xs] eqn:Et; [destruct c; [lia|done]|]. rewrite <- Et.
  specialize (IH (buf ++ take c (b :: bs)) (set_incoming (push_bytes (drop c (b :: bs)) q) k) Hc).
  assert (0 < length (take c (b :: bs)))%nat as Hpos by (rewrite Et; simpl; lia).
  rewrite length_app in IH. specialize (IH ltac:(lia)). cbn zeta in IH.
  change (incoming (set_incoming (push_bytes (drop c (b :: bs)) q) k))
    with (push_bytes (drop c (b :: bs)) q) in IH.
  rewrite push_bytes_ready, push_bytes_obstacle in IH.
  destruct (recv_loop fuel n _ _) as [r k']. destruct IH as (Ha & Hc' & Ho & Hsf & IH).
  split_and!; auto. cbn [ready obstacle]. rewrite app_comm_cons.
  set (l := b :: bs) in *. rewrite length_take in *. rewrite <- Ec.
  replace (Z.to_nat n - (length buf + c `min` length l))%nat with (c - length l)%nat in IH by lia.
  rewrite !length_app, length_drop in IH. rewrite length_app.
  assert (starved (set_incoming (push_bytes (drop c l) q) k) = starved k) as Hst.
  { unfold starved. cbn. rewrite push_bytes_obstacle, Eq. done. }
  destruct (decide (c - length l <= length l - c + length (ready q))%nat);
    [rewrite decide_True by lia|rewrite decide_False by lia; by rewrite IH, Hst].
  destruct IH as (-> & -> & ->). rewrite <- app_assoc. destruct (decide (c <= length l)%nat).
  - replace (c - length l)%nat with 0%nat by lia.
    by rewrite take_0, drop_0, app_nil_r, take_app_le, drop_app_le by lia.
  - rewrite (drop_ge l c), (take_ge l c), app_nil_l by lia.
    by rewrite take_app_ge, drop_app_ge by lia.
Qed.

(** [recv_exactly n] returns the first [n] bytes of the stream and leaves
    the rest, however they were cut, or reports what stopped it. *)
Lemma recv_exactly_spec n k :
  is_closed k = false ->
  let '(r, k') := recv_exactly n k in
  armed k' = armed k /\ is_closed k' = false /\ outgoing k' = outgoing k /\
  send_faults k' = send_faults k /\
  if decide (Z.to_nat n <= length (ready (incoming k)))%nat
  then r = Ok (take (Z.to_nat n) (ready (incoming k))) /\
       ready (incoming k') = drop (Z.to_nat n) (ready (incoming k)) /\
       obstacle (incoming k') = obstacle (incoming k)
  else r = starved k.
Proof.
  intros Hc. pose proof (recv_loop_spec (S (Z.to_nat n)) n [] k Hc) as H.
  cbn [length] in H. rewrite Nat.sub_0_r in H. apply H. lia.
Qed.
