(* ===== verification/ModbusTcp.v ===== *)
(** * The Modbus TCP client helpers: api_tests/modbus_helpers.py

    Request building, the request/response exchange, the response decoders,
    one pass over a register map, the worker thread, the single-register
    query and the staleness test.  Sockets and the clock are those of
    [Sockets]; messages are kept as constructors with the data they print. *)

From Stdlib Require Import ZArith QArith Lia String.
From stdpp Require Import base list gmap strings.
From S2P Require Import Prelude PyBytes ModbusCrc RtuFrames RtuSlave Sockets.

Open Scope Z_scope.

Definition TYPE_TO_FC (reg_type : string) : option Z :=
  if String.eqb reg_type "holding" then Some 0x03
  else if String.eqb reg_type "input" then Some 0x04
  else if String.eqb reg_type "coil" then Some 0x01
  else if String.eqb reg_type "discrete" then Some 0x02
  else None.

(** [TYPE_TO_FC[reg_type]] *)
Definition fc_of (reg_type : string) : outcome Z :=
  match TYPE_TO_FC reg_type with
  | Some fc => Ok fc
  | None => Raise KeyError
  end.

Definition MIN_RESPONSE_SIZE : Z := 8.
Definition MAX_TID : Z := 65535.

Definition make_mbap_request (tid slave_id fc start_addr count : Z) : outcome (list Z) :=
  let? b := pack_B fc in
  let? a := pack_H start_addr in
  let? c := pack_H count in
  let pdu := b ++ a ++ c in
  let? t := pack_H tid in
  let? p := pack_H 0 in
  let? l := pack_H (zlen pdu + 1) in
  let? s := pack_B slave_id in
  Ok ((t ++ p ++ l ++ s) ++ pdu).

(** (tid, unit_id, fc, payload) *)
Record response := Response { r_tid : Z; r_unit : Z; r_fc : Z; r_payload : list Z }.

Definition send_and_receive (request : list Z) : eff sock response :=
  sock_sendall request ;;;
  let* header := recv_exactly MIN_RESPONSE_SIZE in
  let tid := 256 * byte_at header 0 + byte_at header 1 in
  let length := 256 * byte_at header 4 + byte_at header 5 in
  let unit_id := byte_at header 6 in
  let fc := byte_at header 7 in
  let remaining := length - 2 in
  let* payload := if 0 <? remaining then recv_exactly remaining else ret [] in
  ret (Response tid unit_id fc payload).

(** ** Decoders *)

(** [[f i for i in range(n)]] where [f] may raise. *)
Fixpoint mapM_ok {A B} (f : A -> outcome B) (l : list A) : outcome (list B) :=
  match l with
  | [] => Ok []
  | x :: l => let? y := f x in let? ys := mapM_ok f l in Ok (y :: ys)
  end.

Definition decode_fc03_fc04 (payload : list Z) (count : Z) : outcome (list Z) :=
  match payload with
  | [] => Raise ValueError
  | byte_count :: _ =>
      if zlen payload <? 1 + byte_count then Raise ValueError
      else mapM_ok (fun i => unpack_H (slice (1 + i * 2) (1 + i * 2 + 2) payload))
             (seq 0 (Z.to_nat (byte_count / 2)))
  end.

Definition decode_fc01_fc02 (payload : list Z) (count : Z) : outcome (list Z) :=
  match payload with
  | [] => Raise ValueError
  | byte_count :: _ =>
      if zlen payload <? 1 + byte_count then Raise ValueError
      else
        let bits :=
          seq 0 (Z.to_nat byte_count) ≫= (fun byte_idx =>
            let b := byte_at payload (1 + byte_idx) in
            (fun bit_idx => Z.land (Z.shiftr b bit_idx) 1) <$> seqZ 0 8) in
        Ok (take (Z.to_nat count) bits)
  end.

Definition decode_response (fc : Z) (payload : list Z) (count : Z) : outcome (list Z) :=
  if (fc =? 0x03) || (fc =? 0x04) then decode_fc03_fc04 payload count
  else if (fc =? 0x01) || (fc =? 0x02) then decode_fc01_fc02 payload count
  else Raise ValueError.

(** ** One pass over the register map *)

Record reg_key := RegKey { k_slave : Z; k_type : string; k_addr : Z }.

#[export] Instance reg_key_eq_dec : EqDecision reg_key.
Proof. solve_decision. Defined.

Inductive check_error : Type :=
| SocketFailed (key : reg_key) (e : exn)
| TidMismatch (key : reg_key) (sent got : Z)
| NotInCache (key : reg_key)
| ModbusException (key : reg_key) (code : Z)
| DecodeFailed (key : reg_key)
| EmptyDecode (key : reg_key).

Record thread_result := ThreadResult {
  connected_at : Q;
  errors : list check_error;
  checks_passed : Z;
  checks_failed : Z;
  iterations : Z;
  exception : option exn
}.

Definition thread_result_init : thread_result := ThreadResult 0 [] 0 0 0 None.

Definition add_error (msg : check_error) (r : thread_result) : thread_result :=
  ThreadResult (connected_at r) (errors r ++ [msg]) (checks_passed r) (checks_failed r + 1)
    (iterations r) (exception r).

Definition add_pass (r : thread_result) : thread_result :=
  ThreadResult (connected_at r) (errors r) (checks_passed r + 1) (checks_failed r)
    (iterations r) (exception r).

(** The world of a pass: the socket and the thread's result object. *)
Definition pass_world : Type := sock * thread_result.

Definition on_sock {A} (m : eff sock A) : eff pass_world A := fun w =>
  let '(r, k) := m w.1 in (r, (k, w.2)).

Definition note (f : thread_result -> thread_result) : eff pass_world unit :=
  modify (fun w => (w.1, f w.2)).

(** The verdict on one answer, as the chain of [if ...: add_error; continue]. *)
Definition judge (key : reg_key) (fc tid : Z) (r : response) : outcome (thread_result -> thread_result) :=
  if negb (r_tid r =? tid) then Ok (add_error (TidMismatch key tid (r_tid r)))
  else if negb (Z.land (r_fc r) 0x80 =? 0) then
    let exception_code := match r_payload r with b :: _ => b | [] => -1 end in
    if exception_code =? 0x02 then Ok (add_error (NotInCache key))
    else Ok (add_error (ModbusException key exception_code))
  else match decode_response fc (r_payload r) 1 with
       | Ok [] => Ok (add_error (EmptyDecode key))
       | Ok _ => Ok add_pass
       | Raise e => if catches ValueError e then Ok (add_error (DecodeFailed key)) else Raise e
       | Blocked => Blocked
       end.

(** The body of the loop; it returns the next transaction id. *)
Definition check_register (key : reg_key) (tid : Z) : eff pass_world Z :=
  let* fc := lift (fc_of (k_type key)) in
  let tid := tid mod (MAX_TID + 1) in
  let* request := lift (make_mbap_request tid (k_slave key) fc (k_addr key) 1) in
  let* answer := try_except (let* r := on_sock (send_and_receive request) in ret (inl r))
                   (catches Exception_) (fun e => ret (inr e)) in
  match answer with
  | inr e => note (add_error (SocketFailed key e)) ;;; ret (tid + 1)
  | inl r =>
      let* verdict := lift (judge key fc tid r) in
      note verdict ;;; ret (tid + 1)
  end.

Fixpoint _run_register_pass (register_map : list reg_key) (tid : Z) : eff pass_world Z :=
  match register_map with
  | [] => ret tid
  | key :: rest => let* tid := check_register key tid in _run_register_pass rest tid
  end.

(** ** The worker thread

    [barrier] and [connect] are the exceptions of [start_barrier.wait] and
    [sock.connect]; the clock is that of [Sockets.timed]. *)

Definition set_exception (e : exn) (r : thread_result) : thread_result :=
  ThreadResult (connected_at r) (errors r) (checks_passed r) (checks_failed r) (iterations r) (Some e).

Definition set_iterations (n : Z) (r : thread_result) : thread_result :=
  ThreadResult (connected_at r) (errors r) (checks_passed r) (checks_failed r) n (exception r).

Definition set_connected (t : Q) (r : thread_result) : thread_result :=
  ThreadResult t (errors r) (checks_passed r) (checks_failed r) (iterations r) (exception r).

Definition worker_world : Type := timed * thread_result.

Definition timed_step {A} (m : eff timed A) : eff worker_world A := fun w =>
  let '(r, t) := m w.1 in (r, (t, w.2)).

Definition pass_step {A} (m : eff pass_world A) : eff worker_world A := fun w =>
  let '(r, (k, res)) := m (chan w.1, w.2) in (r, (Timed k (clock w.1) (readings w.1), res)).

Definition update (f : thread_result -> thread_result) : eff worker_world unit :=
  modify (fun w => (w.1, f w.2)).

Fixpoint timed_passes (fuel : nat) (register_map : list reg_key) (deadline : Q) (tid : Z)
  : eff worker_world Z :=
  match fuel with
  | O => block
  | S fuel =>
      let* now := timed_step monotonic in
      if Qle_bool deadline now then ret tid
      else
        let* tid := pass_step (_run_register_pass register_map tid) in
        update (fun r => set_iterations (iterations r + 1) r) ;;;
        timed_passes fuel register_map deadline tid
  end.

Definition raise_opt {W} (e : option exn) : eff W unit :=
  match e with Some e => raise e | None => ret tt end.

Definition worker (fuel : nat) (thread_id : Z) (register_map : list reg_key)
    (barrier connect : option exn) (duration : Q) : eff worker_world unit :=
  try_except
    (raise_opt barrier ;;;
     raise_opt connect ;;;
     let* now := timed_step monotonic in
     update (set_connected now) ;;;
     let tid := thread_id * 1000 in
     (if negb (Qle_bool duration 0) then
        timed_passes fuel register_map (now + duration)%Q tid ;;; ret tt
      else
        pass_step (_run_register_pass register_map tid) ;;;
        update (set_iterations 1)) ;;;
     timed_step (on_chan sock_close))
    (catches Exception_)
    (fun e => if catches BrokenBarrierError e then update (set_exception RuntimeError)
              else update (set_exception e)).

(** ** check_simultaneous_connection *)

Definition qmax_list (l : list Q) (d : Q) : Q := fold_left (fun a b => if Qle_bool a b then b else a) l d.
Definition qmin_list (l : list Q) (d : Q) : Q := fold_left (fun a b => if Qle_bool a b then a else b) l d.

Inductive connection_report : Type :=
| NeverConnected (missed : Z)
| SpreadTooLarge (spread_ms : Q)
| AllConnected (spread_ms : Q).

Definition check_simultaneous_connection (results : list thread_result) (num_threads : Z)
  : outcome (bool * connection_report) :=
  let connect_times := List.filter (fun t => negb (Qle_bool t 0)) (connected_at <$> results) in
  if zlen connect_times <? num_threads then
    Ok (false, NeverConnected (num_threads - zlen connect_times))
  else match connect_times with
       | [] => Raise ValueError
       | t :: ts =>
           let spread_ms := ((qmax_list ts t - qmin_list ts t) * 1000)%Q in
           if negb (Qle_bool spread_ms 2000) then Ok (false, SpreadTooLarge spread_ms)
           else Ok (true, AllConnected spread_ms)
       end.

(** ** query_register_once *)

Inductive query_result : Type :=
| QError
| QException (code : Z)
| QOk (value : Z).

#[export] Instance query_result_eq_dec : EqDecision query_result.
Proof. solve_decision. Defined.

(** [create] and [connect] are the exceptions of the constructor and of
    [sock.connect]. *)
Definition query_register_once (key : reg_key) (create connect : option exn) : eff sock query_result :=
  let* fc := lift (fc_of (k_type key)) in
  let* request := lift (make_mbap_request 1 (k_slave key) fc (k_addr key) 1) in
  let* answer :=
    try_except
      (raise_opt create ;;;
       let* r := try_finally (raise_opt connect ;;; send_and_receive request) sock_close in
       ret (Some r))
      (catches Exception_) (fun _ => ret None) in
  match answer with
  | None => ret QError
  | Some r =>
      if negb (Z.land (r_fc r) 0x80 =? 0) then
        ret (QException (match r_payload r with b :: _ => b | [] => -1 end))
      else match decode_response fc (r_payload r) 1 with
           | Ok (v :: _) => ret (QOk v)
           | Ok [] => ret QError
           | Raise e => if catches ValueError e then ret QError else raise e
           | Blocked => block
           end
  end.

(** ** run_staleness_test

    The device is a service: [net n] is what the [n]-th fresh connection
    meets, [http n] the status or exception of the [n]-th settings POST. *)

Record staleness_env := StalenessEnv {
  net : nat -> option exn * option exn * sock;
  http : nat -> outcome Z;
  st_clock : nat -> Q;
  connections : nat;
  posts : list Z;          (* values written to cache_value_timeout_s, in order *)
  st_readings : nat
}.

Inductive report_line : Type :=
| Selected (n : Z)
| TimeoutSet (v : Z)
| NotStaleInTime
| PassLine (key : reg_key) (r : query_result)
| FailLine (key : reg_key) (r : query_result)
| Restored (v : Z)
| RestoreFailed (v : Z)
| EmptyMap.

Definition query (key : reg_key) : eff staleness_env query_result := fun w =>
  let '(create, connect, k) := net w (connections w) in
  let '(r, _) := query_register_once key create connect k in
  (r, StalenessEnv (net w) (http w) (st_clock w) (S (connections w)) (posts w) (st_readings w)).

Definition post_timeout (v : Z) : eff staleness_env Z := fun w =>
  (http w (length (posts w)),
   StalenessEnv (net w) (http w) (st_clock w) (connections w) (posts w ++ [v]) (st_readings w)).

Definition st_monotonic : eff staleness_env Q := fun w =>
  (Ok (st_clock w (st_readings w)),
   StalenessEnv (net w) (http w) (st_clock w) (connections w) (posts w) (S (st_readings w))).

Definition status_ok (s : Z) : bool := (s =? 200) || (s =? 204).

(** POST a value and raise [RuntimeError] unless the status is 200 or 204. *)
Definition set_timeout (v : Z) : eff staleness_env unit :=
  let* status := post_timeout v in
  if status_ok status then ret tt else raise RuntimeError.

Fixpoint poll_stale (fuel : nat) (key : reg_key) (deadline : Q) : eff staleness_env bool :=
  match fuel with
  | O => block
  | S fuel =>
      let* now := st_monotonic in
      if Qle_bool deadline now then ret false
      else
        let* probe := query key in
        if decide (probe = QException 0x0B) then ret true else poll_stale fuel key deadline
  end.

(** A loop over the candidates: query each, [PASS] when [good], else [FAIL]. *)
Fixpoint check_candidates (good : query_result -> bool) (candidates : list reg_key)
    (passed : bool) (lines : list report_line) : eff staleness_env (bool * list report_line) :=
  match candidates with
  | [] => ret (passed, lines)
  | key :: rest =>
      let* r := query key in
      if good r then check_candidates good rest passed (lines ++ [PassLine key r])
      else check_candidates good rest false (lines ++ [FailLine key r])
  end.

Definition is_stale (r : query_result) : bool := bool_decide (r = QException 0x0B).
Definition is_readable (r : query_result) : bool := match r with QOk _ => true | _ => false end.

(** The body of the [try]. *)
Definition staleness_body (fuel : nat) (first : reg_key) (candidates : list reg_key)
    (lines : list report_line) : eff staleness_env (bool * list report_line) :=
  set_timeout 1 ;;;
  let lines := lines ++ [TimeoutSet 1] in
  let* now := st_monotonic in
  let* went_stale := poll_stale fuel first (now + 8)%Q in
  let lines := if went_stale then lines else lines ++ [NotStaleInTime] in
  let* r := check_candidates is_stale candidates true lines in
  set_timeout 0 ;;;
  check_candidates is_readable candidates r.1 (r.2 ++ [TimeoutSet 0]).

(** The [finally] block: it never raises an [Exception]; [true] when the
    original value was written back. *)
Definition restore_timeout (original : Z) : eff staleness_env bool :=
  try_except (set_timeout original ;;; ret true) (catches Exception_) (fun _ => ret false).

(** [original] is the value read by the initial GET, or its exception.  An
    exception of the body is re-raised after the [finally] block. *)
Definition run_staleness_test (fuel : nat) (register_map : list reg_key) (original : outcome Z)
  : eff staleness_env (bool * list report_line) :=
  match take 5 register_map with
  | [] => ret (false, [EmptyMap])
  | first :: others =>
      let candidates := first :: others in
      let* original_timeout := lift original in
      fun w =>
        let '(body, w1) :=
          staleness_body fuel first candidates [Selected (zlen candidates)] w in
        match body with
        | Blocked => (Blocked, w1)
        | _ =>
            let '(restored, w2) := restore_timeout original_timeout w1 in
            match restored, body with
            | Ok ok, Ok (passed, lines) =>
                (Ok (passed && ok,
                     lines ++ [if ok then Restored original_timeout
                               else RestoreFailed original_timeout]), w2)
            | Ok _, Raise e => (Raise e, w2)
            | Raise e, _ => (Raise e, w2)
            | _, _ => (Blocked, w2)
            end
        end
  end.

(** ** Framing *)

Definition word (x : Z) : list Z := [x / 256; x mod 256].

(** The Modbus TCP frame of a response. *)
Definition encode_response (r : response) : list Z :=
  word (r_tid r) ++ word 0 ++ word (2 + zlen (r_payload r)) ++ [r_unit r; r_fc r] ++ r_payload r.

Lemma make_mbap_request_ok tid slave fc addr count :
  is_u16 tid -> is_byte slave -> is_byte fc -> is_u16 addr -> is_u16 count ->
  make_mbap_request tid slave fc addr count =
  Ok (word tid ++ word 0 ++ word 6 ++ [slave; fc] ++ word addr ++ word count).
Proof.
  intros Ht Hs Hf Ha Hc. unfold make_mbap_request, pack_B.
  rewrite !(pack_H_ok addr), !(pack_H_ok count), !(pack_H_ok tid) by done.
  rewrite !decide_True by done. reflexivity.
Qed.

Lemma sendall_ok data k :
  is_closed k = false ->
  (forall e, head (send_faults k) <> Some (Some e)) ->
  sock_sendall data k =
  (Ok tt, Sock (incoming k) (armed k) (outgoing k ++ [data]) (tail (send_faults k)) (is_closed k)).
Proof.
  intros Hc Hs. unfold sock_sendall. rewrite Hc.
  destruct (send_faults k) as [|[e|] q]; auto. by destruct (Hs e).
Qed.

(** What [send_and_receive] does once the request is sent. *)
Definition receive_response : eff sock response :=
  let* header := recv_exactly MIN_RESPONSE_SIZE in
  let* payload := if 0 <? 256 * byte_at header 4 + byte_at header 5 - 2
                  then recv_exactly (256 * byte_at header 4 + byte_at header 5 - 2) else ret [] in
  ret (Response (256 * byte_at header 0 + byte_at header 1) (byte_at header 6) (byte_at header 7) payload).

Lemma send_then_receive request : send_and_receive request = (sock_sendall request ;;; receive_response).
Proof. reflexivity. Qed.

Lemma receive_framing k r more :
  is_closed k = false -> ready (incoming k) = encode_response r ++ more ->
  exists k', receive_response k = (Ok r, k') /\
    ready (incoming k') = more /\ obstacle (incoming k') = obstacle (incoming k) /\
    outgoing k' = outgoing k /\ is_closed k' = false /\ send_faults k' = send_faults k.
Proof.
  intros Hc Hq. unfold receive_response.
  pose proof (recv_exactly_spec MIN_RESPONSE_SIZE k Hc) as H1.
  unfold bind at 1. destruct (recv_exactly MIN_RESPONSE_SIZE k) as [r1 k2]. rewrite Hq in H1.
  destruct H1 as (_ & Hc2 & Ho2 & Hs2 & H1). unfold MIN_RESPONSE_SIZE in H1.
  rewrite decide_True in H1 by (unfold encode_response; cbn; lia).
  destruct H1 as (-> & Hr2 & Hb2).
  change (Z.to_nat 8) with 8%nat in *. unfold encode_response in *. cbn [app word take drop] in *.
  cbn [byte_at lookup list_lookup default]. unfold byte_at. cbn [lookup list_lookup].
  cbn [default from_option id].
  rewrite drop_0 in Hr2. destruct r as [tid unit fc payload]. cbn [r_tid r_unit r_fc r_payload] in *.
  rewrite !u16_join. replace (2 + zlen payload - 2) with (zlen payload) by lia.
  destruct (0 <? zlen payload) eqn:Ep; bool_to_prop; unfold bind.
  - pose proof (recv_exactly_spec (zlen payload) k2 Hc2) as H2.
    destruct (recv_exactly (zlen payload) k2) as [r2 k3]. rewrite Hr2 in H2.
    destruct H2 as (_ & Hc3 & Ho3 & Hs3 & H2). unfold zlen in H2. rewrite Nat2Z.id in H2.
    rewrite decide_True in H2 by (rewrite length_app; lia).
    destruct H2 as (-> & Hr3 & Hb3). rewrite take_app_length, drop_app_length in *.
    exists k3. split_and!; auto; [by rewrite Hb3|by rewrite Ho3|by rewrite Hs3].
  - destruct payload; [|unfold zlen in Ep; simpl in Ep; lia]. exists k2. by split_and!.
Qed.

(** The exchange is framed by the length field alone: however TCP cuts
    the stream, a response followed by any bytes is returned with exactly
    its fields, and exactly the bytes after it are left in the stream. *)
Theorem send_and_receive_framing request k r more :
  is_closed k = false -> (forall e, head (send_faults k) <> Some (Some e)) ->
  ready (incoming k) = encode_response r ++ more ->
  exists k', send_and_receive request k = (Ok r, k') /\
    ready (incoming k') = more /\ obstacle (incoming k') = obstacle (incoming k) /\
    outgoing k' = outgoing k ++ [request] /\ is_closed k' = false.
Proof.
  intros Hc Hs Hq. rewrite send_then_receive. unfold bind. rewrite sendall_ok by auto.
  destruct (receive_framing (Sock (incoming k) (armed k) (outgoing k ++ [request]) (tail (send_faults k)) (is_closed k)) r more Hc Hq)
    as (k' & -> & ? & ? & ? & ? & _). by exists k'.
Qed.

Lemma send_and_receive_framing_witness :
  let k := Sock [Bytes 0 [7; 0]; Bytes 0 [0; 4; 1; 3; 9]; Bytes 8 [5]; Quiet] true [] [] false in
  exists k', send_and_receive [1] k = (Ok (Response 7 1 3 [9; 8]), k') /\ ready (incoming k') = [5].
Proof.
  intros k.
  destruct (send_and_receive_framing [1] k (Response 7 1 3 [9; 8]) [5]) as (k' & H & Hr & _);
    [reflexivity|done|vm_compute; reflexivity|].
  exists k'. split; [exact H|exact Hr].
Defined.

(** ** Decoders against the slave's answers *)

Lemma mapM_ok_seq {B} (f : nat -> outcome B) (l : list B) i :
  (forall j x, l !! j = Some x -> f (i + j)%nat = Ok x) ->
  mapM_ok f (seq i (length l)) = Ok l.
Proof.
  revert i. induction l as [|x l IH]; intros i H; [done|]. cbn [length seq mapM_ok].
  rewrite <- (Nat.add_0_r i), (H 0%nat x eq_refl). cbn [obind]. rewrite Nat.add_0_r, IH; [done|].
  intros j y Hj. rewrite <- (H (S j) y Hj). f_equal. lia.
Qed.

Lemma words_slice vs j x :
  vs !! j = Some x -> slice (j * 2) (j * 2 + 2) (vs ≫= word_bytes) = word_bytes x.
Proof.
  revert j. induction vs as [|v vs IH]; intros j Hj; [done|]. rewrite bind_cons.
  destruct j as [|j]; simpl in Hj; [simplify_eq|].
  - done.
  - rewrite <- (IH j Hj). unfold slice.
    replace (S j * 2 + 2 - S j * 2)%nat with 2%nat by lia.
    replace (j * 2 + 2 - j * 2)%nat with 2%nat by lia. reflexivity.
Qed.

(** Decoding inverts the register payload of a response. *)
Lemma decode_registers vs count :
  decode_fc03_fc04 (2 * zlen vs :: (vs ≫= word_bytes)) count = Ok vs.
Proof.
  unfold decode_fc03_fc04. destruct (_ <? _) eqn:E; bool_to_prop; unfold zlen in *;
    cbn [length] in *; [rewrite words_length in *; lia|].
  replace (Z.to_nat (2 * Z.of_nat (length vs) / 2)) with (length vs)
    by (rewrite Z.mul_comm, Z.div_mul by lia; lia).
  apply mapM_ok_seq. intros j x Hj. cbn [Nat.add].
  change (slice (S (j * 2)) (S (j * 2 + 2)) (?h :: ?t)) with (slice (j * 2) (j * 2 + 2) t).
  transitivity (unpack_H (word_bytes x)).
  - f_equal. by apply words_slice.
  - unfold word_bytes. cbn [unpack_H]. by rewrite u16_join.
Qed.

(** Bit [j] of the bit field the slave sends, counted from the low bit of
    its first byte. *)
Definition field_bit (l : list Z) (j : nat) : Z := Z.land (Z.shiftr (byte_at l (j / 8)) (Z.of_nat (j mod 8))) 1.

Lemma field_bit_testbit l j :
  field_bit l j = Z.b2z (Z.testbit (byte_at l (j / 8)) (Z.of_nat (j mod 8))).
Proof.
  unfold field_bit. rewrite land_1, Z.shiftr_div_pow2 by lia. rewrite Z.testbit_spec' by lia. done.
Qed.

Lemma bits_of_bytes l payload n :
  n = length l -> (forall i, byte_at payload (1 + i) = byte_at l i) ->
  seq 0 n ≫= (fun byte_idx =>
    (fun bit_idx => Z.land (Z.shiftr (byte_at payload (1 + byte_idx)) bit_idx) 1) <$> seqZ 0 8) =
  field_bit l <$> seq 0 (8 * n).
Proof.
  intros _ Hb. induction n as [|n IH]; [done|].
  rewrite seq_S, bind_app, IH. replace (8 * S n)%nat with (8 * n + 8)%nat by lia.
  rewrite seq_app, fmap_app. f_equal. rewrite Nat.add_0_l. unfold mbind, list_bind.
  rewrite app_nil_r, Hb. change (seqZ 0 8) with [0; 1; 2; 3; 4; 5; 6; 7].
  assert (forall r, (r < 8)%nat ->
    field_bit l (r + 8 * n) = Z.land (Z.shiftr (byte_at l n) (Z.of_nat r)) 1) as Hf.
  { intros r Hr. unfold field_bit. replace (r + 8 * n)%nat with (r + n * 8)%nat by lia.
    rewrite Nat.div_add, Nat.Div0.mod_add, Nat.div_small, Nat.mod_small by lia. done. }
  change (seq (0 + 8 * n) 8) with ((fun r => r + 8 * n)%nat <$> [0; 1; 2; 3; 4; 5; 6; 7]%nat).
  cbn [fmap list_fmap].
  by rewrite !Hf by lia.
Qed.

Lemma byte_at_insert l i b :
  (i < length l)%nat -> forall j, byte_at (<[i := b]> l) j = if decide (i = j) then b else byte_at l j.
Proof.
  intros Hi j. unfold byte_at. destruct (decide (i = j)) as [->|].
  - by rewrite list_lookup_insert_eq.
  - by rewrite list_lookup_insert_ne.
Qed.

(** Setting bit [i] of a bit field. *)
Lemma field_bit_set l i j :
  (i / 8 < length l)%nat ->
  field_bit (<[(i / 8)%nat := Z.lor (byte_at l (i / 8)) (Z.shiftl 1 (Z.of_nat (i mod 8)))]> l) j =
  if decide (i = j) then 1 else field_bit l j.
Proof.
  intros Hi. rewrite !field_bit_testbit, byte_at_insert by done.
  pose proof (Nat.div_mod_eq i 8). pose proof (Nat.div_mod_eq j 8).
  destruct (decide (i / 8 = j / 8)%nat) as [E|E]; [|by rewrite decide_False by congruence].
  rewrite E, Z.lor_spec, Z.shiftl_spec by lia. destruct (decide (i = j)) as [->|Hne].
  - by rewrite Z.sub_diag, orb_true_r.
  - assert (Z.testbit 1 (Z.of_nat (j mod 8) - Z.of_nat (i mod 8)) = false) as ->; [|by rewrite orb_false_r].
    destruct (decide (j mod 8 < i mod 8)%nat); [apply Z.testbit_neg_r; lia|].
    change 1 with (2 ^ 0). apply Z.pow2_bits_false. lia.
Qed.

Lemma field_bit_zeros n j : field_bit (replicate n 0) j = 0.
Proof.
  rewrite field_bit_testbit. unfold byte_at. destruct (replicate n 0 !! (j / 8)%nat) as [b|] eqn:E; [|by rewrite Z.testbit_0_l].
  apply lookup_replicate in E as [-> _]. cbn. by rewrite Z.testbit_0_l.
Qed.

(** The bit field of FC01/FC02: bit [j] is set exactly for [j < count] when
    the fake value is not zero. *)
Lemma coil_bytes_bits fake count n m :
  (m <= count)%nat -> (count <= 8 * n)%nat ->
  let cb := coil_bytes fake (Z.of_nat m) (Z.of_nat n) in
  length cb = n /\
  forall j, (j < 8 * n)%nat -> field_bit cb j = if decide (fake <> 0 /\ (j < m)%nat) then 1 else 0.
Proof.
  intros Hm Hc. cbn zeta. unfold coil_bytes. rewrite Nat2Z.id.
  induction m as [|m IH].
  - change (seqZ 0 (Z.of_nat 0)) with (@nil Z). cbn [fold_left]. rewrite length_replicate. split; [done|]. intros j Hj.
    rewrite decide_False by lia. apply field_bit_zeros.
  - rewrite Nat2Z.inj_succ, <- Z.add_1_r, seqZ_app by lia.
    rewrite fold_left_app. destruct IH as [Hl IH]; [lia|].
    set (cb := fold_left _ _ _) in *. change (seqZ (0 + Z.of_nat m) 1) with [Z.of_nat m].
    cbn [fold_left]. destruct (Z.eqb_spec fake 0) as [->|Hf].
    { split; [done|]. intros j Hj. rewrite IH by done. by rewrite !decide_False by (intros [? _]; done). }
    change 8 with (Z.of_nat 8). rewrite <- Nat2Z.inj_div, <- Nat2Z.inj_mod, Nat2Z.id.
    assert (m / 8 < length cb)%nat as Hi by (rewrite Hl; apply Nat.Div0.div_lt_upper_bound; lia).
    split; [by rewrite length_insert|]. intros j Hj. rewrite field_bit_set, IH by done.
    destruct (decide (m = j)) as [->|]; [by rewrite decide_True by lia|].
    destruct (decide (fake <> 0 /\ (j < m)%nat)); [by rewrite decide_True by lia|].
    rewrite decide_False; [done|]. lia.
Qed.

Lemma decode_bits l count :
  (count <= 8 * length l)%nat ->
  decode_fc01_fc02 (zlen l :: l) (Z.of_nat count) = Ok (field_bit l <$> seq 0 count).
Proof.
  intros Hc. unfold decode_fc01_fc02. destruct (_ <? _) eqn:E; bool_to_prop; unfold zlen in *;
    cbn [length] in *; [lia|].
  rewrite (bits_of_bytes l) by (auto using Nat2Z.id). rewrite !Nat2Z.id, <- fmap_take, take_seq.
  do 3 f_equal. lia.
Qed.

Lemma coil_bytes_ok fake count n : bytes_ok (coil_bytes fake count n).
Proof.
  unfold coil_bytes. generalize (seqZ 0 count) as l. intros l.
  assert (bytes_ok (replicate (Z.to_nat n) 0)) as H by (by apply bytes_ok_replicate).
  revert H. generalize (replicate (Z.to_nat n) 0) as cb. induction l as [|i l IH]; intros cb Hcb;
    cbn [fold_left]; [done|].
  apply IH. destruct (fake =? 0); [done|]. apply Forall_insert; [done|].
  apply lor_byte; [by apply byte_at_ok|]. rewrite Z.shiftl_1_l.
  pose proof (Z.mod_pos_bound i 8 ltac:(lia)).
  split; [apply Z.pow_nonneg; lia|]. change 256 with (2 ^ 8). apply Z.pow_lt_mono_r; lia.
Qed.

Lemma build_response_coils s i fc a c :
  is_byte i -> fc = 1 \/ fc = 2 -> 0 <= c <= 2040 -> exception_fc s !! fc = None ->
  _build_response s i fc a c =
  Ok (append_crc ([i; fc; (c + 7) / 8] ++ coil_bytes (fake_value s) c ((c + 7) / 8))).
Proof.
  intros Hi Hfc Hc Hex. unfold _build_response. rewrite Hex.
  assert ((fc =? 3) || (fc =? 4) = false) as -> by (destruct Hfc as [-> | ->]; done).
  assert ((fc =? 1) || (fc =? 2) = true) as -> by (destruct Hfc as [-> | ->]; done).
  assert (is_byte ((c + 7) / 8)) as Hn.
  { unfold is_byte. pose proof (Z.div_mod (c + 7) 8). pose proof (Z.mod_pos_bound (c + 7) 8). lia. }
  rewrite py_bytes_ok by (rewrite bytes_ok_cons; auto using bytes_ok_nil). cbn [obind].
  rewrite build_rtu_response_ok; [done|done| |].
  - destruct Hfc as [-> | ->]; done.
  - apply bytes_ok_cons. split; [done|]. apply coil_bytes_ok.
Qed.

Lemma fmap_seq_const {A} (f : nat -> A) x n i :
  (forall j, (i <= j < i + n)%nat -> f j = x) -> f <$> seq i n = replicate n x.
Proof.
  revert i. induction n as [|n IH]; intros i H; [done|].
  change (seq i (S n)) with (i :: seq (S i) n). rewrite fmap_cons, H by lia.
  cbn [replicate]. f_equal. apply IH. intros j Hj. apply H. lia.
Qed.

(** The part of an RTU response a gateway puts after the unit id and the
    function code of the Modbus TCP response: everything between the
    two-byte header and the CRC. *)
Definition pdu_payload (frame : list Z) : list Z := drop 2 (take (length frame - 2) frame).

Lemma pdu_payload_append_crc i fc d : pdu_payload (append_crc ([i; fc] ++ d)) = d.
Proof.
  unfold pdu_payload, append_crc. rewrite length_app. cbn [length].
  rewrite Nat.add_sub, take_app_length. done.
Qed.

Definition slave_value (s : slave) (fc : Z) : Z :=
  if (fc =? 3) || (fc =? 4) then fake_value s else if fake_value s =? 0 then 0 else 1.

(** The client decodes what the simulated slave sends: every read of a
    legal size, registers or bits, is answered with a frame whose payload
    decodes to exactly the requested number of the configured value. *)
Theorem slave_answer_decodes s i fc a c :
  is_byte i -> is_u16 (fake_value s) -> exception_fc s !! fc = None ->
  (fc = 3 \/ fc = 4) /\ 0 <= c <= 127 \/ (fc = 1 \/ fc = 2) /\ 0 <= c <= 2040 ->
  exists frame, _build_response s i fc a c = Ok frame /\
    decode_response fc (pdu_payload frame) c = Ok (replicate (Z.to_nat c) (slave_value s fc)).
Proof.
  intros Hi Hv Hex [[Hfc Hc]|[Hfc Hc]].
  - eexists. split; [by apply build_response_registers|].
    change ([i; fc; 2 * c] ++ ?d) with ([i; fc] ++ (2 * c :: d)). rewrite pdu_payload_append_crc.
    unfold decode_response, slave_value.
    assert ((fc =? 3) || (fc =? 4) = true) as -> by (destruct Hfc as [-> | ->]; done).
    pose proof (decode_registers (replicate (Z.to_nat c) (fake_value s)) c) as H.
    unfold zlen in H. rewrite length_replicate, Z2Nat.id in H by lia. exact H.
  - eexists. split; [by apply build_response_coils|].
    set (n := (c + 7) / 8). change ([i; fc; n] ++ ?d) with ([i; fc] ++ (n :: d)).
    rewrite pdu_payload_append_crc. unfold decode_response, slave_value.
    assert ((fc =? 3) || (fc =? 4) = false) as -> by (destruct Hfc as [-> | ->]; done).
    assert ((fc =? 1) || (fc =? 2) = true) as -> by (destruct Hfc as [-> | ->]; done).
    assert (0 <= n /\ c <= 8 * n) as [Hn Hcn].
    { unfold n. pose proof (Z.div_mod (c + 7) 8). pose proof (Z.mod_pos_bound (c + 7) 8). lia. }
    destruct (coil_bytes_bits (fake_value s) (Z.to_nat c) (Z.to_nat n) (Z.to_nat c)) as [Hl Hb];
      [lia..|]. rewrite !Z2Nat.id in Hl, Hb by lia.
    set (cb := coil_bytes (fake_value s) c n) in *.
    replace n with (zlen cb) by (unfold zlen; lia). rewrite <- (Z2Nat.id c) at 1 by lia.
    rewrite decode_bits by lia. f_equal. apply fmap_seq_const. intros j Hj. rewrite Hb by lia.
    destruct (Z.eqb_spec (fake_value s) 0); [by rewrite decide_False by (intros [? _]; done)|].
    by rewrite decide_True by (split; [done|lia]).
Qed.

Lemma slave_answer_decodes_witness :
  exists frame, _build_response (slave_init 0x1234 {[ 4 := 2 ]} 0) 1 1 7 10 = Ok frame /\
    decode_response 1 (pdu_payload frame) 10 = Ok (replicate 10 1).
Proof.
  apply (slave_answer_decodes (slave_init 0x1234 {[ 4 := 2 ]} 0) 1 1 7 10).
  - unfold is_byte. lia.
  - unfold is_u16. simpl. lia.
  - vm_compute. reflexivity.
  - right. lia.
Defined.

(** ** A pass over the registers *)

Definition key_ok (key : reg_key) : Prop :=
  is_byte (k_slave key) /\ is_u16 (k_addr key) /\ is_Some (TYPE_TO_FC (k_type key)).

(** A socket on which no call hangs and every failure is an [Exception]. *)
Definition sane_arrival (a : arrival) : Prop :=
  match a with Fault e => catches Exception_ e = true | _ => True end.

Definition sane_fault (f : option exn) : Prop :=
  match f with Some e => catches Exception_ e = true | None => True end.

Definition sane_sock (k : sock) : Prop :=
  armed k = true /\ Forall sane_arrival (incoming k) /\ Forall sane_fault (send_faults k).

(** The effect is total on sane sockets: it returns or raises an
    [Exception], and keeps the socket sane. *)
Definition sane_eff {A} (m : eff sock A) : Prop :=
  forall k, sane_sock k ->
  let '(r, k') := m k in
  sane_sock k' /\ settled r /\ raises_only (catches Exception_) r.

Lemma sane_ret {A} (a : A) : sane_eff (ret a).
Proof. intros k Hk. done. Qed.

Lemma sane_raise {A} e : catches Exception_ e = true -> sane_eff (@raise _ A e).
Proof. intros He k Hk. done. Qed.

Lemma sane_bind {A B} (m : eff sock A) (f : A -> eff sock B) :
  sane_eff m -> (forall a, sane_eff (f a)) -> sane_eff (bind m f).
Proof.
  intros Hm Hf k Hk. unfold bind. specialize (Hm k Hk). destruct (m k) as [[a|e|] k1].
  - apply Hf, Hm.
  - destruct Hm as (? & _ & ?). done.
  - exfalso. by apply (proj1 (proj2 Hm)).
Qed.

Lemma sane_recv n : 0 < n -> sane_eff (sock_recv n).
Proof.
  intros Hn k (Ha & Hi & Hs). unfold sock_recv. destruct (is_closed k); [done|].
  destruct (incoming k) as [|[b bs| |e|] q] eqn:Eq; [rewrite Ha|..];
    try (apply Forall_cons in Hi as [Hhd Hi]);
    unfold sane_sock, settled; cbn; rewrite ?Eq; split_and!; try done; try by constructor.
  destruct (drop (Z.to_nat n) (b :: bs)); [done|]. by constructor.
Qed.

Lemma sane_recv_loop fuel n buf :
  (Z.to_nat n - length buf < fuel)%nat -> sane_eff (recv_loop fuel n buf).
Proof.
  revert buf. induction fuel as [|fuel IH]; intros buf Hf; [lia|]. cbn [recv_loop].
  destruct (zlen buf <? n) eqn:E; unfold zlen in *; bool_to_prop; [|apply sane_ret].
  apply sane_bind; [apply sane_recv; lia|]. intros [|c cs]; [by apply sane_raise|].
  apply IH. rewrite length_app. cbn [length]. lia.
Qed.

Lemma sane_sendall data : sane_eff (sock_sendall data).
Proof.
  intros k (Ha & Hi & Hs). unfold sock_sendall. destruct (is_closed k); [done|].
  destruct (send_faults k) as [|[e|] q]; unfold sane_sock; cbn; try done;
    inversion Hs; subst; done.
Qed.

Lemma sane_send_and_receive request : sane_eff (send_and_receive request).
Proof.
  unfold send_and_receive. apply sane_bind; [apply sane_sendall|]. intros _.
  apply sane_bind; [apply sane_recv_loop; cbn; lia|]. intros header.
  apply sane_bind; [|intros; apply sane_ret].
  destruct (0 <? _); [apply sane_recv_loop; cbn [length]; lia|apply sane_ret].
Qed.

Lemma unpack_slice_ok l i : (i + 2 <= length l)%nat -> is_ok (unpack_H (slice i (i + 2) l)) = true.
Proof.
  intros Hl. unfold slice. replace (i + 2 - i)%nat with 2%nat by lia.
  assert (length (take 2 (drop i l)) = 2)%nat as Hn by (rewrite length_take, length_drop; lia).
  destruct (take 2 (drop i l)) as [|x [|y [|z t]]]; cbn in Hn; done || lia.
Qed.

Lemma mapM_ok_total {A B} (f : A -> outcome B) l :
  Forall (fun x => is_ok (f x) = true) l -> exists ys, mapM_ok f l = Ok ys /\ length ys = length l.
Proof.
  induction 1 as [|x l Hx Hl (ys & IH & Hn)]; [by exists []|]. cbn [mapM_ok].
  destruct (f x) as [y| |] eqn:E; [|done..]. cbn [obind]. rewrite IH. cbn [obind].
  eexists. split; [done|]. cbn. by rewrite Hn.
Qed.

(** The decoders never fail with anything but [ValueError]. *)
Lemma decode_response_errors fc payload count :
  (exists vs, decode_response fc payload count = Ok vs) \/
  decode_response fc payload count = Raise ValueError.
Proof.
  unfold decode_response, decode_fc03_fc04, decode_fc01_fc02.
  destruct (_ || _); [|destruct (_ || _); [|by right]].
  - destruct payload as [|n l]; [by right|]. destruct (_ <? _) eqn:E; [by right|]. bool_to_prop.
    left. edestruct @mapM_ok_total as (ys & -> & _); [|by eexists].
    apply Forall_forall. intros i Hi%elem_of_seq. apply unpack_slice_ok.
    unfold zlen in *.
    pose proof (Z.mul_div_le n 2 ltac:(lia)). lia.
  - destruct payload as [|n l]; [by right|]. destruct (_ <? _) eqn:E; [by right|]. left. by eexists.
Qed.

Lemma judge_total key fc tid r :
  exists v, judge key fc tid r = Ok v /\ (v = add_pass \/ exists e, v = add_error e).
Proof.
  unfold judge. destruct (negb (r_tid r =? tid)); [eauto|].
  destruct (negb (Z.land (r_fc r) 128 =? 0)); [destruct (_ =? 2); eauto|].
  destruct (decode_response_errors fc (r_payload r) 1) as [[[|v vs] ->]| ->]; eauto.
Qed.

Lemma type_to_fc_byte t fc : TYPE_TO_FC t = Some fc -> is_byte fc /\ (fc = 1 \/ fc = 2 \/ fc = 3 \/ fc = 4).
Proof. unfold TYPE_TO_FC, is_byte. intros H. repeat split_match_in H; simplify_eq; lia. Qed.

(** What a pass leaves of the result object: one more check per register,
    and an error message per failed check. *)
Definition accounts_for (n : Z) (r r' : thread_result) : Prop :=
  checks_passed r' + checks_failed r' = checks_passed r + checks_failed r + n /\
  zlen (errors r') - checks_failed r' = zlen (errors r) - checks_failed r /\
  checks_passed r <= checks_passed r' /\
  connected_at r' = connected_at r /\ iterations r' = iterations r /\ exception r' = exception r.

Lemma accounts_pass r : accounts_for 1 r (add_pass r).
Proof. unfold accounts_for, add_pass. cbn. repeat split; lia. Qed.

Lemma accounts_error e r : accounts_for 1 r (add_error e r).
Proof.
  unfold accounts_for, add_error, zlen. cbn. rewrite length_app. cbn. repeat split; lia.
Qed.

Lemma accounts_trans m n r r' r'' :
  accounts_for m r r' -> accounts_for n r' r'' -> accounts_for (m + n) r r''.
Proof. unfold accounts_for. intros (?&?&?&->&->&->) (?&?&?&?&?&?). repeat split; lia || congruence. Qed.

#[export] Hint Resolve accounts_pass accounts_error : wbmge.

Lemma check_register_spec key tid k res :
  key_ok key -> sane_sock k ->
  exists k' res',
    check_register key tid (k, res) = (Ok (tid mod 65536 + 1), (k', res')) /\
    sane_sock k' /\ accounts_for 1 res res'.
Proof.
  intros (Hs & Ha & fc & Hfc) Hk. unfold check_register, fc_of. rewrite Hfc.
  destruct (type_to_fc_byte _ _ Hfc) as [Hb _].
  change (MAX_TID + 1) with 65536. assert (is_u16 (tid mod 65536)) as Ht
    by (unfold is_u16; pose proof (Z.mod_pos_bound tid 65536); lia).
  unfold bind at 1, lift at 1. rewrite make_mbap_request_ok by done.
  unfold bind at 1, lift at 1. set (request := _ ++ _). unfold bind at 1, try_except.
  unfold bind at 1, on_sock. cbn [fst snd].
  pose proof (sane_send_and_receive request k Hk) as H.
  destruct (send_and_receive request k) as [[r|e|] k']; destruct H as (Hk' & Hset & He).
  - unfold ret at 1. destruct (judge_total key fc (tid mod 65536) r) as (v & Hv & Hkind).
    unfold bind at 1, lift. rewrite Hv. cbn. eexists _, _. split; [done|]. split; [done|].
    destruct Hkind as [-> |[e ->]]; auto with wbmge.
  - cbn in He. rewrite He. cbn. eexists _, _. split; [done|]. auto with wbmge.
  - by destruct Hset.
Qed.

Lemma register_pass_spec regs tid k res :
  Forall key_ok regs -> sane_sock k ->
  exists tid' k' res',
    _run_register_pass regs tid (k, res) = (Ok tid', (k', res')) /\
    sane_sock k' /\ accounts_for (zlen regs) res res' /\
    (regs <> [] -> 0 <= tid' <= MAX_TID + 1) /\ tid' mod 65536 = (tid + zlen regs) mod 65536.
Proof.
  intros Hregs. revert tid k res.
  induction Hregs as [|key regs Hkey Hregs IH]; intros tid k res Hk.
  { exists tid, k, res. unfold zlen, accounts_for. cbn. rewrite !Z.add_0_r.
    split_and!; first [done|lia|by intros []]. }
  cbn [_run_register_pass]. unfold bind.
  destruct (check_register_spec key tid k res Hkey Hk) as (k1 & res1 & -> & Hk1 & Hacc).
  pose proof (Z.mod_pos_bound tid 65536 ltac:(lia)) as Hm.
  destruct (IH (tid mod 65536 + 1) k1 res1 Hk1) as (t & k' & res' & E & Hk' & Ha' & Ht & Hmod).
  rewrite E. exists t, k', res'.
  replace (zlen (key :: regs)) with (1 + zlen regs) by (unfold zlen; cbn; lia).
  split_and!; [done|done|by eapply accounts_trans| |].
  - intros _. destruct regs as [|key2 regs]; [|by apply Ht].
    cbn [_run_register_pass] in E. unfold ret in E. simplify_eq. unfold MAX_TID. lia.
  - rewrite Hmod, <- Z.add_assoc. by rewrite Zplus_mod_idemp_l.
Qed.

(** A pass over a register map of encodable registers, on a socket
    whose calls return or raise an [Exception], always completes: every
    register is counted exactly once, as a pass or as a failure with its
    message, and the transaction ids it uses stay within 16 bits and come
    back in step with the number of registers. *)
Theorem run_register_pass_accounts regs tid k res :
  Forall key_ok regs -> sane_sock k -> regs <> [] ->
  exists tid' k' res',
    _run_register_pass regs tid (k, res) = (Ok tid', (k', res')) /\
    sane_sock k' /\ accounts_for (zlen regs) res res' /\
    0 <= tid' <= MAX_TID + 1 /\ tid' mod 65536 = (tid + zlen regs) mod 65536.
Proof.
  intros Hregs Hk Hne.
  destruct (register_pass_spec regs tid k res Hregs Hk) as (t & k' & res' & ? & ? & ? & Ht & ?).
  exists t, k', res'. auto 10.
Qed.

Lemma run_register_pass_accounts_witness :
  let k := Sock [Bytes 255 [255; 0; 0; 0; 5; 1; 3; 2; 0; 9]; Quiet] true [] [] false in
  exists tid' k' res',
    _run_register_pass [RegKey 1 "holding" 5; RegKey 2 "coil" 7] 65535 (k, thread_result_init) =
      (Ok tid', (k', res')) /\ accounts_for 2 thread_result_init res' /\ 0 <= tid' <= 65536.
Proof.
  intros k.
  destruct (run_register_pass_accounts [RegKey 1 "holding" 5; RegKey 2 "coil" 7] 65535 k
    thread_result_init) as (t & k' & res' & H & _ & Ha & Ht & _).
  - repeat constructor; vm_compute; try split; try eexists; congruence || reflexivity.
  - unfold k. repeat constructor.
  - discriminate.
  - exists t, k', res'. split; [exact H|]. split; [exact Ha|exact Ht].
Defined.

(** ** The worker *)

Lemma timed_passes_spec fuel regs d tid w res m :
  Forall key_ok regs -> sane_sock (chan w) ->
  (forall i, (m <= i)%nat -> (d <= clock w i)%Q) -> (m - readings w < fuel)%nat ->
  exists tid' w' res', timed_passes fuel regs d tid (w, res) = (Ok tid', (w', res')) /\
    sane_sock (chan w') /\ iterations res <= iterations res' /\
    accounts_for ((iterations res' - iterations res) * zlen regs)
      (set_iterations (iterations res') res) res'.
Proof.
  intros Hregs. revert tid w res. induction fuel as [|fuel IH]; intros tid w res Hk Hm Hf; [lia|].
  cbn [timed_passes]. unfold bind at 1, timed_step. cbn [monotonic fst snd].
  destruct (Qle_bool d (clock w (readings w))) eqn:Eq.
  { eexists _, _, _. split; [done|]. cbn [chan]. split_and!; [done|lia|].
    rewrite Z.sub_diag. destruct res. unfold accounts_for. cbn. repeat split; lia. }
  assert (readings w < m)%nat as Hlt.
  { destruct (decide (readings w < m)%nat); [done|].
    assert (d <= clock w (readings w))%Q as Hd%Qle_bool_iff by (apply Hm; lia). congruence. }
  unfold bind at 1, pass_step. cbn [fst snd chan clock readings].
  destruct (register_pass_spec regs tid (chan w) res Hregs Hk) as (t1 & k1 & res1 & -> & Hk1 & Ha & _).
  unfold bind, update, modify. cbn [fst snd].
  destruct (IH t1 (Timed k1 (clock w) (S (readings w))) (set_iterations (iterations res1 + 1) res1))
    as (t' & w' & res' & -> & Hk' & Hle & Ha'); [done..|cbn; lia|].
  exists t', w', res'. cbn [iterations set_iterations] in *. split_and!; [done|done| |];
    unfold accounts_for in *; cbn in *; destruct Ha as (?&?&?&?&Ei&?), Ha' as (?&?&?&?&?&?);
    [lia|]. rewrite Ei in *. repeat split; try (nia || congruence).
Qed.

(** The exceptions the threading and socket calls of [worker] may raise. *)
Definition ordinary (e : option exn) : Prop := sane_fault e.

(** A worker thread on a socket whose calls return or raise ends, with
    fuel for the clock readings before its deadline, and never lets an
    exception escape: either the barrier or the connect failed and the
    result records it with no check made, or the result has no exception,
    the socket was closed, and the checks are exactly one per register and
    iteration. *)
Theorem worker_reports fuel id regs barrier connect duration w m :
  Forall key_ok regs -> sane_sock (chan w) -> ordinary barrier -> ordinary connect ->
  (forall i, (m <= i)%nat -> (clock w (readings w) + duration <= clock w i)%Q) ->
  (m - S (readings w) < fuel)%nat ->
  exists w' res', worker fuel id regs barrier connect duration (w, thread_result_init)
                  = (Ok tt, (w', res')) /\
  if decide (barrier = None /\ connect = None)
  then exception res' = None /\ is_closed (chan w') = true /\
       connected_at res' = clock w (readings w) /\ 0 <= iterations res' /\
       checks_passed res' + checks_failed res' = iterations res' * zlen regs /\
       zlen (errors res') = checks_failed res'
  else exception res' <> None /\ checks_passed res' = 0 /\ checks_failed res' = 0.
Proof.
  intros Hregs Hk Hb Hc Hm Hf. unfold worker, try_except.
  destruct barrier as [e|].
  { cbn in Hb. unfold bind, raise_opt, raise. rewrite Hb.
    destruct (catches BrokenBarrierError e); eexists _, _; (split; [done|]);
      rewrite decide_False by (by intros [? _]); done. }
  destruct connect as [e|].
  { cbn in Hc. unfold bind, raise_opt, raise, ret. rewrite Hc.
    destruct (catches BrokenBarrierError e); eexists _, _; (split; [done|]);
      rewrite decide_False by (by intros [_ ?]); done. }
  unfold raise_opt. unfold bind at 1, ret at 1. unfold bind at 1, ret at 1.
  unfold bind at 1, timed_step at 1. cbn [monotonic fst snd].
  unfold bind at 1, update at 1, modify. cbn [fst snd].
  set (now := clock w (readings w)) in *. unfold bind at 1.
  set (res0 := set_connected now thread_result_init).
  set (w1 := Timed (chan w) (clock w) (S (readings w))).
  destruct (negb (Qle_bool duration 0)).
  - unfold bind at 1.
    destruct (timed_passes_spec fuel regs (now + duration) (id * 1000) w1 res0 m Hregs Hk Hm Hf)
      as (t & w2 & res2 & -> & Hk2 & Hle & Ha).
    unfold ret. cbn. eexists _, _. split; [done|]. rewrite decide_True by done. unfold accounts_for in Ha. cbn in *.
    destruct Ha as (?&?&?&?&?&?). unfold zlen in *. cbn in *. split_and!; try done; lia.
  - unfold bind at 1, pass_step. cbn [fst snd]. change (chan w1) with (chan w).
    destruct (register_pass_spec regs (id * 1000) (chan w) res0 Hregs Hk)
      as (t & k2 & res2 & -> & Hk2 & Ha & _).
    cbn. eexists _, _. split; [done|]. rewrite decide_True by done. unfold accounts_for in Ha.
    cbn in *. destruct Ha as (?&?&?&?&?&?). unfold zlen in *. cbn in *. split_and!; try done; lia.
Qed.

Lemma worker_reports_witness :
  let w := Timed (Sock [Bytes 15 [160; 0; 0; 0; 5; 1; 3; 2; 0; 9]] true [] [] false)
             (fun i => inject_Z (Z.of_nat i)) 0 in
  exists w' res', worker 9 4 [RegKey 1 "holding" 5] None None (5 # 2) (w, thread_result_init)
                  = (Ok tt, (w', res')) /\
  checks_passed res' + checks_failed res' = iterations res' * 1.
Proof.
  intros w.
  destruct (worker_reports 9 4 [RegKey 1 "holding" 5] None None (5 # 2) w 3) as (w' & res' & H & Hr).
  - repeat constructor; vm_compute; try split; try eexists; congruence || reflexivity.
  - unfold w. repeat constructor.
  - exact I.
  - exact I.
  - intros i Hi. change (inject_Z 0 + (5 # 2) <= inject_Z (Z.of_nat i))%Q.
    apply (Qle_trans _ (inject_Z 3)); [vm_compute; congruence|]. rewrite <- Zle_Qle. lia.
  - cbn. lia.
  - exists w', res'. split; [exact H|]. rewrite decide_True in Hr by done. apply Hr.
Defined.

(** ** Single queries *)

Lemma query_register_once_closes key create connect k :
  key_ok key -> sane_sock k -> ordinary create -> ordinary connect ->
  exists r k', query_register_once key create connect k = (Ok r, k') /\
    (create = None -> is_closed k' = true) /\
    (create <> None \/ connect <> None -> r = QError).
Proof.
  intros (Hs & Ha & fc & Hfc) Hk Hcr Hco. unfold query_register_once, fc_of. rewrite Hfc.
  destruct (type_to_fc_byte _ _ Hfc) as [Hb _]. unfold bind at 1, lift at 1.
  rewrite make_mbap_request_ok by done. unfold bind at 1, lift at 1. set (request := _ ++ _).
  unfold bind at 1, try_except. destruct create as [e|].
  { cbn in Hcr. unfold bind, raise_opt, raise. rewrite Hcr. eexists _, _. split; [done|]. done. }
  unfold raise_opt at 1, bind at 1, ret at 1. unfold bind at 1, try_finally.
  destruct connect as [e|].
  { cbn in Hco. unfold bind, raise_opt, raise, sock_close. rewrite Hco. eexists _, _. split; done. }
  unfold raise_opt, bind at 1, ret at 1. pose proof (sane_send_and_receive request k Hk) as H.
  destruct (send_and_receive request k) as [[r|e|] k']; destruct H as (Hk' & Hset & He).
  - unfold sock_close, ret at 1. destruct (negb _); [eexists _, _; split_and!; [done..|by intros []]|].
    destruct (decode_response_errors fc (r_payload r) 1) as [[[|v vs] ->]| ->];
      eexists _, _; split_and!; done || (by intros []).
  - unfold sock_close. cbn in He. rewrite He. eexists _, _. split_and!; done.
  - by destruct Hset.
Qed.

(** A query of an encodable register never raises and never leaks: it
    ends with one of its three results, and whenever a socket was created it
    is closed, on success and on every failure. *)
Theorem query_register_once_total key create connect k :
  key_ok key -> sane_sock k -> ordinary create -> ordinary connect ->
  exists r k', query_register_once key create connect k = (Ok r, k') /\
    (create = None -> is_closed k' = true) /\
    (create <> None \/ connect <> None -> r = QError).
Proof. apply query_register_once_closes. Qed.

Lemma query_register_once_total_witness :
  exists r k', query_register_once (RegKey 1 "input" 5) None None
      (Sock [Bytes 0 [1; 0; 0; 0; 3; 1]; Bytes 132 [11]] true [] [] false) = (Ok r, k') /\
    is_closed k' = true.
Proof.
  destruct (query_register_once_total (RegKey 1 "input" 5) None None
    (Sock [Bytes 0 [1; 0; 0; 0; 3; 1]; Bytes 132 [11]] true [] [] false)) as (r & k' & H & Hc & _).
  - repeat constructor; vm_compute; try split; try eexists; congruence || reflexivity.
  - repeat constructor.
  - exact I.
  - exact I.
  - exists r, k'. split; [exact H|]. apply Hc. reflexivity.
Defined.

(** ** The staleness test *)

Record sane_env (w : staleness_env) : Prop := {
  sane_net : forall n, let '(create, connect, k) := net w n in
               ordinary create /\ ordinary connect /\ sane_sock k;
  sane_http : forall n, settled (http w n) /\ raises_only (catches Exception_) (http w n)
}.

(** [w'] is [w] with more connections and clock readings, nothing posted. *)
Definition quiet_step (w w' : staleness_env) : Prop :=
  net w' = net w /\ http w' = http w /\ st_clock w' = st_clock w /\ posts w' = posts w /\
  (st_readings w <= st_readings w')%nat.

Lemma quiet_step_refl w : quiet_step w w.
Proof. unfold quiet_step. auto with lia. Qed.

Lemma quiet_step_trans w1 w2 w3 : quiet_step w1 w2 -> quiet_step w2 w3 -> quiet_step w1 w3.
Proof. unfold quiet_step. intros (->&->&->&->&?) (->&->&->&->&?). auto with lia. Qed.

Lemma quiet_step_sane w w' : quiet_step w w' -> sane_env w -> sane_env w'.
Proof. intros (En & Eh & _) [Hn Hh]. split; rewrite ?En, ?Eh; done. Qed.

Lemma query_spec key w :
  key_ok key -> sane_env w -> exists r w', query key w = (Ok r, w') /\ quiet_step w w'.
Proof.
  intros Hk [Hn _]. unfold query. specialize (Hn (connections w)).
  destruct (net w (connections w)) as [[create connect] k]. destruct Hn as (H1 & H2 & H3).
  destruct (query_register_once_closes key create connect k Hk H3 H1 H2) as (r & k' & -> & _).
  eexists _, _. split; [done|]. unfold quiet_step. cbn. auto with lia.
Qed.

Definition failing (l : report_line) : bool :=
  match l with FailLine _ _ | RestoreFailed _ => true | _ => false end.

Definition checked (l : report_line) : list reg_key :=
  match l with PassLine key _ | FailLine key _ => [key] | _ => [] end.

(** The lines of one loop: a line per candidate, and the flag records a
    failing one. *)
Lemma check_candidates_spec good candidates passed lines w :
  Forall key_ok candidates -> sane_env w ->
  exists ls w', check_candidates good candidates passed lines w =
      (Ok (passed && forallb (fun l => negb (failing l)) ls, lines ++ ls), w') /\
    quiet_step w w' /\ ls ≫= checked = candidates /\
    (forall key r, PassLine key r ∈ ls -> good r = true).
Proof.
  intros Hc. revert passed lines w. induction Hc as [|key rest Hk Hc IH]; intros passed lines w Hw.
  { exists [], w. rewrite andb_true_r, app_nil_r. split; [done|].
    split_and!; [apply quiet_step_refl|done|]. by intros key r ?%not_elem_of_nil. }
  cbn [check_candidates]. unfold bind.
  destruct (query_spec key w Hk Hw) as (r & w1 & -> & Hq).
  destruct (good r) eqn:Eg.
  - destruct (IH passed (lines ++ [PassLine key r]) w1 (quiet_step_sane _ _ Hq Hw))
      as (ls & w' & -> & Hq' & Hch & Hgood).
    exists (PassLine key r :: ls), w'. cbn [forallb failing negb andb]. rewrite <- app_assoc.
    split_and!; [done|by eapply quiet_step_trans|by rewrite bind_cons, Hch|].
    intros key' r' [?|?]%elem_of_cons; [by simplify_eq|by eapply Hgood].
  - destruct (IH false (lines ++ [FailLine key r]) w1 (quiet_step_sane _ _ Hq Hw))
      as (ls & w' & -> & Hq' & Hch & Hgood).
    exists (FailLine key r :: ls), w'. cbn [forallb failing negb andb]. rewrite <- app_assoc, andb_false_r.
    split_and!; [done|by eapply quiet_step_trans|by rewrite bind_cons, Hch|].
    intros key' r' [?|?]%elem_of_cons; [done|by eapply Hgood].
Qed.

Lemma poll_stale_spec fuel key d w m :
  key_ok key -> sane_env w -> (forall i, (m <= i)%nat -> (d <= st_clock w i)%Q) ->
  (m - st_readings w < fuel)%nat ->
  exists b w', poll_stale fuel key d w = (Ok b, w') /\ quiet_step w w'.
Proof.
  intros Hk. revert w. induction fuel as [|fuel IH]; intros w Hw Hm Hf; [lia|].
  cbn [poll_stale]. unfold bind at 1. cbn [st_monotonic].
  set (w1 := StalenessEnv _ _ _ _ _ _).
  assert (quiet_step w w1) as H1 by (unfold quiet_step; cbn; auto with lia).
  destruct (Qle_bool d (st_clock w (st_readings w))) eqn:Eq; [by eexists _, _|].
  assert (st_readings w < m)%nat as Hlt.
  { destruct (decide (st_readings w < m)%nat); [done|].
    assert (d <= st_clock w (st_readings w))%Q as Hd%Qle_bool_iff by (apply Hm; lia). congruence. }
  unfold bind. pose proof (quiet_step_sane _ _ H1 Hw) as Hw1.
  destruct (query_spec key w1 Hk Hw1) as (r & w2 & -> & H2).
  pose proof (quiet_step_trans _ _ _ H1 H2) as H12.
  destruct (decide (r = QException 11)); [by eexists _, _|].
  destruct (IH w2) as (b & w' & -> & H3).
  - by eapply quiet_step_sane.
  - destruct H12 as (_ & _ & -> & _). done.
  - destruct H2 as (_ & _ & _ & _ & ?). cbn in *. lia.
  - eexists _, _. split; [done|]. by eapply quiet_step_trans.
Qed.

Definition same_world (w w' : staleness_env) : Prop :=
  net w' = net w /\ http w' = http w /\ st_clock w' = st_clock w /\
  (st_readings w <= st_readings w')%nat.

Lemma quiet_same w w' : quiet_step w w' -> same_world w w'.
Proof. unfold quiet_step, same_world. tauto. Qed.

Lemma same_world_trans w1 w2 w3 : same_world w1 w2 -> same_world w2 w3 -> same_world w1 w3.
Proof. unfold same_world. intros (->&->&->&?) (->&->&->&?). auto with lia. Qed.

Lemma same_world_sane w w' : same_world w w' -> sane_env w -> sane_env w'.
Proof. intros (En & Eh & _) [Hn Hh]. split; rewrite ?En, ?Eh; done. Qed.

Lemma set_timeout_spec v w :
  sane_env w ->
  exists r w', set_timeout v w = (r, w') /\ same_world w w' /\
    st_readings w' = st_readings w /\ posts w' = posts w ++ [v] /\
    (r = Ok tt \/ exists e, r = Raise e /\ catches Exception_ e = true).
Proof.
  intros [_ Hh]. unfold set_timeout, bind, post_timeout. specialize (Hh (length (posts w))).
  destruct Hh as [Hset He].
  destruct (http w (length (posts w))) as [st|e|]; [destruct (status_ok st)| |by destruct Hset];
    eexists _, _; (split; [reflexivity|]); unfold same_world; cbn; split_and!; auto;
    right; [by exists RuntimeError|by exists e].
Qed.

Definition all_pass (ls : list report_line) : bool := forallb (fun l => negb (failing l)) ls.

Lemma all_pass_app l k : all_pass (l ++ k) = all_pass l && all_pass k.
Proof. apply forallb_app. Qed.

Lemma staleness_body_spec fuel first candidates lines w m :
  key_ok first -> Forall key_ok candidates -> sane_env w ->
  (forall i, (m <= i)%nat -> (st_clock w (st_readings w) + 8 <= st_clock w i)%Q) ->
  (m - S (st_readings w) < fuel)%nat ->
  exists r w', staleness_body fuel first candidates lines w = (r, w') /\ same_world w w' /\
    ((exists e, r = Raise e /\ catches Exception_ e = true) \/
     exists ls, r = Ok (all_pass ls, lines ++ ls) /\ ls ≫= checked = candidates ++ candidates).
Proof.
  intros Hf Hc Hw Hm Hfuel. unfold staleness_body, bind at 1.
  destruct (set_timeout_spec 1 w Hw) as (r1 & w1 & -> & H1 & Hr1 & _ & [-> | (e & -> & He)]);
    [|eexists _, _; eauto 10].
  pose proof (same_world_sane _ _ H1 Hw) as Hw1. unfold bind at 1. cbn [st_monotonic].
  set (w2 := StalenessEnv _ _ _ _ _ _).
  assert (same_world w w2) as H2.
  { eapply same_world_trans; [exact H1|]. unfold same_world, w2. cbn. auto with lia. }
  pose proof (same_world_sane _ _ H2 Hw) as Hw2. unfold bind at 1.
  destruct (poll_stale_spec fuel first (st_clock w1 (st_readings w1) + 8) w2 m) as (b & w3 & -> & H3);
    [done|done| |cbn; lia|].
  { intros i Hi. unfold w2. cbn. destruct H1 as (_ & _ & -> & _). rewrite Hr1. by apply Hm. }
  pose proof (same_world_trans _ _ _ H2 (quiet_same _ _ H3)) as H3'.
  set (lines3 := if b then _ else _). unfold bind at 1.
  destruct (check_candidates_spec is_stale candidates true lines3 w3 Hc (same_world_sane _ _ H3' Hw))
    as (ls1 & w4 & -> & H4 & Hch1 & _).
  pose proof (same_world_trans _ _ _ H3' (quiet_same _ _ H4)) as H4'. unfold bind at 1.
  destruct (set_timeout_spec 0 w4 (same_world_sane _ _ H4' Hw))
    as (r5 & w5 & -> & H5 & _ & _ & [-> | (e & -> & He)]); cycle 1.
  { eexists _, _. split; [done|]. split; [by eapply same_world_trans|eauto]. }
  pose proof (same_world_trans _ _ _ H4' H5) as H5'.
  destruct (check_candidates_spec is_readable candidates (true && all_pass ls1)
    ((lines3 ++ ls1) ++ [TimeoutSet 0]) w5 Hc (same_world_sane _ _ H5' Hw))
    as (ls2 & w6 & E & H6 & Hch2 & _).
  eexists _, _. split; [exact E|]. split; [by eapply same_world_trans, quiet_same|]. right.
  exists ([TimeoutSet 1] ++ (if b then [] else [NotStaleInTime]) ++ ls1 ++ [TimeoutSet 0] ++ ls2).
  split.
  - rewrite !all_pass_app. unfold lines3. destruct b; cbn [all_pass forallb failing negb andb];
      rewrite ?andb_true_l; unfold all_pass; f_equal; f_equal; simplify_list_eq; done.
  - rewrite !bind_app, Hch1, Hch2. by destruct b.
Qed.

(** Once the staleness test has read the original timeout, it ends
    (fuel: the clock readings of its eight-second poll) and the last value
    it writes is that original, whether it returned or an exception of the
    body is on its way out.  Its verdict is true exactly when no line of its
    report is a failure, every candidate was checked once stale and once
    readable, and a true verdict means the original value was restored. *)
Theorem staleness_test_restores fuel regs v w m :
  regs <> [] -> Forall key_ok regs -> sane_env w ->
  (forall i, (m <= i)%nat -> (st_clock w (st_readings w) + 8 <= st_clock w i)%Q) ->
  (m - S (st_readings w) < fuel)%nat ->
  exists r w', run_staleness_test fuel regs (Ok v) w = (r, w') /\ settled r /\
    last (posts w') = Some v /\
    forall passed lines, r = Ok (passed, lines) ->
      passed = all_pass lines /\ lines ≫= checked = take 5 regs ++ take 5 regs /\
      (passed = true -> last lines = Some (Restored v)).
Proof.
  intros Hne Hregs Hw Hm Hf. unfold run_staleness_test.
  assert (Forall key_ok (take 5 regs)) as Hc by by apply Forall_take.
  destruct (take 5 regs) as [|first others] eqn:Et; [by destruct regs|].
  unfold bind, lift.
  destruct (staleness_body_spec fuel first (first :: others) [Selected (zlen (first :: others))] w m
    ltac:(by inversion Hc) Hc Hw Hm Hf) as (r1 & w1 & -> & H1 & Hr).
  destruct (set_timeout_spec v w1 (same_world_sane _ _ H1 Hw)) as (r2 & w2 & E2 & _ & _ & Hp & Hr2).
  assert (exists ok, restore_timeout v w1 = (Ok ok, w2)) as [ok Eo].
  { unfold restore_timeout, try_except, bind. rewrite E2.
    destruct Hr2 as [-> | (e & -> & He)]; [by eexists|]. rewrite He. by eexists. }
  assert (last (posts w2) = Some v) as Hl by by rewrite Hp, last_snoc.
  destruct Hr as [(e & -> & He)|(ls & -> & Hch)]; rewrite Eo; eexists _, _; split_and!; try done.
  intros passed lines [= <- <-]. rewrite app_comm_cons, last_snoc. split_and!.
  - rewrite all_pass_app. f_equal. by destruct ok.
  - rewrite bind_app, bind_cons. destruct ok; cbn [checked app mbind list_bind];
      rewrite app_nil_r; exact Hch.
  - intros [_ ->]%andb_true_iff. done.
Qed.

Lemma staleness_test_restores_witness :
  let w := StalenessEnv (fun n => (None, None, Sock [Quiet] true [] [] false)) (fun n => Ok 200)
             (fun i => inject_Z (Z.of_nat i)) 0 [] 0 in
  exists r w', run_staleness_test 12 [RegKey 1 "holding" 5] (Ok 60) w = (r, w') /\
    last (posts w') = Some 60.
Proof.
  intros w.
  destruct (staleness_test_restores 12 [RegKey 1 "holding" 5] 60 w 8) as (r & w' & H & _ & Hl & _).
  - discriminate.
  - repeat constructor; vm_compute; try split; try eexists; congruence || reflexivity.
  - split; intros n; cbn; split; done || (split; [done|repeat constructor]).
  - intros i Hi. change (inject_Z 0 + inject_Z 8 <= inject_Z (Z.of_nat i))%Q.
    rewrite <- inject_Z_plus, <- Zle_Qle. lia.
  - cbn. lia.
  - exists r, w'. split; [exact H|exact Hl].
Defined.
