(* ===== verification/RegisterCsv.v ===== *)
(** * The register map as CSV: modbus_helpers.parse_csv

    [csv.reader] with the default dialect is its state machine on the
    characters of each line ([None] is the end of a line), [csv.DictReader]
    pairs the rows with the header; [parse_csv] builds the register map from
    them.  The map keeps Python's insertion order. *)

From Stdlib Require Import ZArith Lia Ascii String.
From stdpp Require Import base list strings.
From S2P Require Import Prelude PyBytes PyStr Sockets ModbusTcp.

Open Scope Z_scope.

Definition cr : ascii := "013"%char.
Definition lf : ascii := "010"%char.
Definition quote : ascii := "034"%char.

Inductive csv_state : Type :=
| START_RECORD | START_FIELD | IN_FIELD | IN_QUOTED_FIELD | QUOTE_IN_QUOTED_FIELD | EAT_CRNL.

#[export] Instance csv_state_eq_dec : EqDecision csv_state.
Proof. solve_decision. Defined.

Record reader := Reader { r_state : csv_state; r_field : string; r_fields : list string }.

Definition fresh_reader : reader := Reader START_RECORD "" [].

Definition is_newline (c : ascii) : bool := Ascii.eqb c cr || Ascii.eqb c lf.

Definition save_field (st : csv_state) (r : reader) : reader :=
  Reader st "" (r_fields r ++ [r_field r]).

Definition add_char (c : ascii) (r : reader) : reader :=
  Reader IN_FIELD (r_field r +:+ String c "") (r_fields r).

Definition to_state (st : csv_state) (r : reader) : reader := Reader st (r_field r) (r_fields r).

(** The start of a field. *)
Definition field_start (c : option ascii) (r : reader) : reader :=
  match c with
  | None => save_field START_RECORD r
  | Some c =>
      if is_newline c then save_field EAT_CRNL r
      else if Ascii.eqb c quote then to_state IN_QUOTED_FIELD r
      else if Ascii.eqb c "," then save_field START_FIELD r
      else add_char c r
  end.

Definition process_char (c : option ascii) (r : reader) : outcome reader :=
  match r_state r, c with
  | START_RECORD, None => Ok r
  | START_RECORD, Some ch => if is_newline ch then Ok (to_state EAT_CRNL r) else Ok (field_start c r)
  | START_FIELD, _ => Ok (field_start c r)
  | IN_FIELD, None => Ok (save_field START_RECORD r)
  | IN_FIELD, Some ch =>
      if is_newline ch then Ok (save_field EAT_CRNL r)
      else if Ascii.eqb ch "," then Ok (save_field START_FIELD r)
      else Ok (add_char ch r)
  | IN_QUOTED_FIELD, None => Ok r
  | IN_QUOTED_FIELD, Some ch =>
      if Ascii.eqb ch quote then Ok (to_state QUOTE_IN_QUOTED_FIELD r)
      else Ok (to_state IN_QUOTED_FIELD (add_char ch r))
  | QUOTE_IN_QUOTED_FIELD, None => Ok (save_field START_RECORD r)
  | QUOTE_IN_QUOTED_FIELD, Some ch =>
      if Ascii.eqb ch quote then Ok (to_state IN_QUOTED_FIELD (add_char ch r))
      else if Ascii.eqb ch "," then Ok (save_field START_FIELD r)
      else if is_newline ch then Ok (save_field EAT_CRNL r)
      else Ok (add_char ch r)
  | EAT_CRNL, None => Ok (to_state START_RECORD r)
  | EAT_CRNL, Some ch => if is_newline ch then Ok r else Raise CsvError
  end.

Fixpoint process_line (line : string) (r : reader) : outcome reader :=
  match line with
  | EmptyString => process_char None r
  | String c line => let? r := process_char (Some c) r in process_line line r
  end.

(** The rows the reader yields from the remaining lines, and the exception
    that ends the iteration, if any. *)
Fixpoint csv_rows (lines : list string) (r : reader) : list (list string) * option exn :=
  match lines with
  | [] =>
      if negb (String.eqb (r_field r) "") || bool_decide (r_state r = IN_QUOTED_FIELD)
      then ([r_fields r ++ [r_field r]], None) else ([], None)
  | line :: lines =>
      match process_line line r with
      | Ok r =>
          if bool_decide (r_state r = START_RECORD) then
            let '(rows, err) := csv_rows lines fresh_reader in (r_fields r :: rows, err)
          else csv_rows lines r
      | Raise e => ([], Some e)
      | Blocked => ([], None)
      end
  end.

(** Iterating over [io.StringIO(text)]: lines with their newline. *)
Fixpoint text_lines (s : string) : list string :=
  match s with
  | EmptyString => []
  | String c s' =>
      if Ascii.eqb c lf then String c "" :: text_lines s'
      else match text_lines s' with
           | l :: ls => String c l :: ls
           | [] => [String c ""]
           end
  end.

(** [row[name]] of a [DictReader] row: the last column of that name wins, a
    missing cell is [None]. *)
Fixpoint last_index (name : string) (names : list string) : option nat :=
  match names with
  | [] => None
  | n :: names =>
      match last_index name names with
      | Some i => Some (S i)
      | None => if String.eqb n name then Some O else None
      end
  end.

Definition dict_get (fieldnames row : list string) (name : string) : outcome (option string) :=
  match last_index name fieldnames with
  | Some i => Ok (row !! i)
  | None => Raise KeyError
  end.

(** [int(row[name])] and [row[name].strip()] *)
Definition int_cell (fieldnames row : list string) (name : string) : outcome Z :=
  let? cell := dict_get fieldnames row name in
  match cell with
  | Some s => py_int s
  | None => Raise TypeError
  end.

Definition strip_cell (fieldnames row : list string) (name : string) : outcome string :=
  let? cell := dict_get fieldnames row name in
  match cell with
  | Some s => Ok (strip s)
  | None => Raise AttributeError
  end.

Definition register_entry : Type := reg_key * (Z * Z).

(** The [try] block of one row. *)
Definition read_row (fieldnames row : list string) : outcome register_entry :=
  let? slave_id := int_cell fieldnames row "slave_id" in
  let? reg_type := strip_cell fieldnames row "type" in
  let? address := int_cell fieldnames row "address" in
  let? value := int_cell fieldnames row "value" in
  let? age_s := int_cell fieldnames row "age_s" in
  Ok (RegKey slave_id reg_type address, (value, age_s)).

(** [register_map[key] = v] on an insertion-ordered dict. *)
Fixpoint dict_set (k : reg_key) (v : Z * Z) (m : list register_entry) : list register_entry :=
  match m with
  | [] => [(k, v)]
  | (k', v') :: m => if decide (k = k') then (k', v) :: m else (k', v') :: dict_set k v m
  end.

(** The rows [DictReader] skips are the empty ones. *)
Fixpoint parse_rows (fieldnames : list string) (rows : list (list string)) (m : list register_entry)
  : outcome (list register_entry) :=
  match rows with
  | [] => Ok m
  | [] :: rows => parse_rows fieldnames rows m
  | row :: rows =>
      match read_row fieldnames row with
      | Ok (key, v) =>
          if decide (is_Some (TYPE_TO_FC (k_type key)))
          then parse_rows fieldnames rows (dict_set key v m)
          else parse_rows fieldnames rows m
      | Raise e =>
          if catches KeyError e || catches ValueError e then parse_rows fieldnames rows m
          else Raise e
      | Blocked => Blocked
      end
  end.

Definition parse_csv (raw_csv : string) : outcome (list register_entry) :=
  let '(rows, err) := csv_rows (text_lines raw_csv) fresh_reader in
  let? m := match rows with
            | [] => Ok []
            | fieldnames :: rows => parse_rows fieldnames rows []
            end in
  match err with
  | Some e => Raise e
  | None => Ok m
  end.

(** ** What the firmware prints

    [cache_csv_handler] (main/bridge/cache_multimaster.c): the header and one
    ["%u,%s,%u,%u,%u"] line per register, ended by carriage return and line
    feed. *)

Definition crlf : string := String cr (String lf "").

Definition csv_line (cells : list string) : string := join "," cells +:+ crlf.

Definition header_cells : list string := ["slave_id"; "type"; "address"; "value"; "age_s"].

Definition entry_cells (e : register_entry) : list string :=
  let '(RegKey slave_id reg_type address, (value, age_s)) := e in
  [show_Z slave_id; reg_type; show_Z address; show_Z value; show_Z age_s].

Definition cache_csv (m : list register_entry) : string :=
  csv_line header_cells +:+ foldr (fun e t => csv_line (entry_cells e) +:+ t) "" m.

(** ** Lemmas *)

(** A character the reader copies into the current field. *)
Definition plain (c : ascii) : bool :=
  negb (is_newline c) && negb (Ascii.eqb c quote) && negb (Ascii.eqb c ",").

Definition plain_string (s : string) : bool := all_chars plain s.

Lemma process_plain_char c r :
  plain c = true -> r_state r = START_RECORD \/ r_state r = START_FIELD \/ r_state r = IN_FIELD ->
  process_char (Some c) r = Ok (add_char c r).
Proof.
  unfold plain. intros H Hs. bool_to_prop. destruct r as [st f fs]. cbn [r_state] in Hs.
  destruct Hs as [-> |[-> | ->]]; unfold process_char, field_start; cbn [r_state];
    repeat match goal with H : ?x = false |- _ => rewrite H end; done.
Qed.

(** Reading a plain field and its separator. *)
Lemma process_plain s line st f fs :
  plain_string s = true -> st = IN_FIELD \/ (st = START_FIELD \/ st = START_RECORD) /\ f = "" ->
  process_line (s +:+ line) (Reader st f fs) =
  process_line line (Reader (if String.eqb s "" then st else IN_FIELD) (f +:+ s) fs).
Proof.
  revert st f. induction s as [|c s IH]; intros st f Hs Hst.
  - by rewrite sapp_nil_r.
  - unfold plain_string in Hs. cbn [all_chars] in Hs. bool_to_prop.
    rewrite sapp_cons. cbn [process_line]. rewrite process_plain_char; [|done|cbn; tauto].
    cbn [obind]. unfold add_char. cbn [r_field r_fields]. rewrite IH by auto.
    rewrite sapp_assoc. change (String c "" +:+ s) with (String c s).
    change (String.eqb (String c s) "") with false. cbv iota. by destruct (String.eqb s "").
Qed.

Lemma process_crlf st f fs :
  st = IN_FIELD \/ st = START_FIELD ->
  process_line crlf (Reader st f fs) = Ok (Reader START_RECORD "" (fs ++ [f])).
Proof. intros [-> | ->]; reflexivity. Qed.

(** A line of plain cells is the row of those cells. *)
Lemma process_cells cells st f fs :
  cells <> [] -> Forall (fun s => plain_string s = true) cells ->
  (st = START_FIELD \/ st = START_RECORD /\ head cells <> Some "") -> f = "" ->
  process_line (csv_line cells) (Reader st f fs) = Ok (Reader START_RECORD "" (fs ++ cells)).
Proof.
  intros Hne Hall. revert st f fs. induction Hall as [|s cells Hs Hall IH]; intros st f fs Hst ->; [done|].
  unfold csv_line. destruct cells as [|t cells].
  - cbn [join]. rewrite process_plain by (auto; right; tauto). rewrite sapp_nil.
    apply process_crlf. destruct (String.eqb_spec s ""); [|by left].
    right. destruct Hst as [-> |[_ Hh]]; [done|]. subst. by destruct Hh.
  - change (join "," (s :: t :: cells)) with (s +:+ String "," (join "," (t :: cells))).
    rewrite sapp_assoc, process_plain by (auto; right; tauto). rewrite sapp_nil, sapp_cons.
    cbn [process_line].
    assert (process_char (Some ","%char) (Reader (if String.eqb s "" then st else IN_FIELD) s fs) =
            Ok (Reader START_FIELD "" (fs ++ [s]))) as ->.
    { destruct (String.eqb_spec s ""); [|done]. destruct Hst as [-> |[-> _]]; done. }
    cbn [obind]. change (join "," (t :: cells) +:+ crlf) with (csv_line (t :: cells)).
    rewrite IH by auto. by rewrite <- app_assoc.
Qed.

Lemma text_lines_app l s :
  no_char lf l = true -> text_lines (l +:+ String lf s) = (l +:+ String lf "") :: text_lines s.
Proof.
  induction l as [|c l IH]; [done|]. unfold no_char. cbn [all_chars]. intros H. bool_to_prop.
  rewrite !sapp_cons. cbn [text_lines]. rewrite (proj2 (Ascii.eqb_neq c lf)).
  - by rewrite IH.
  - intros ->. by rewrite Ascii.eqb_refl in H.
Qed.

Lemma plain_no_lf s : plain_string s = true -> no_char lf s = true.
Proof.
  apply all_chars_impl. intros c Hc. unfold plain, is_newline in Hc. bool_to_prop.
  apply negb_true_iff. by rewrite Ascii.eqb_sym.
Qed.

Lemma join_no_lf cells :
  Forall (fun s => plain_string s = true) cells -> no_char lf (join "," cells) = true.
Proof.
  induction 1 as [|s cells Hs Hall IH]; [done|]. destruct cells as [|t cells].
  - by apply plain_no_lf.
  - change (join "," (s :: t :: cells)) with (s +:+ "," +:+ join "," (t :: cells)).
    rewrite !no_char_app, IH, (plain_no_lf s) by done. done.
Qed.

Lemma csv_rows_line cells t :
  cells <> [] -> Forall (fun s => plain_string s = true) cells -> head cells <> Some "" ->
  csv_rows (text_lines (csv_line cells +:+ t)) fresh_reader =
  (cells :: (csv_rows (text_lines t) fresh_reader).1, (csv_rows (text_lines t) fresh_reader).2).
Proof.
  intros Hne Hall Hh. unfold csv_line at 1, crlf.
  replace ((join "," cells +:+ String cr (String lf "")) +:+ t)
    with ((join "," cells +:+ String cr "") +:+ String lf t) by (by rewrite !sapp_assoc).
  rewrite text_lines_app by (rewrite no_char_app, join_no_lf by done; done).
  replace ((join "," cells +:+ String cr "") +:+ String lf "") with (csv_line cells)
    by (unfold csv_line, crlf; by rewrite sapp_assoc).
  cbn [csv_rows]. unfold fresh_reader at 1. rewrite process_cells by auto.
  rewrite bool_decide_eq_true_2 by done. by destruct (csv_rows (text_lines t) fresh_reader).
Qed.

Lemma show_plain n : 0 <= n -> plain_string (show_Z n) = true.
Proof.
  intros Hn. eapply all_chars_impl; [|apply show_Z_nonneg_digits, Hn].
  intros c Hc. unfold plain, is_newline.
  rewrite !(ascii_eqb_digit c) by done. done.
Qed.

Definition entry_ok (e : register_entry) : Prop :=
  let '(RegKey slave_id reg_type address, (value, age_s)) := e in
  0 <= slave_id /\ 0 <= address /\ 0 <= value /\ 0 <= age_s /\ is_Some (TYPE_TO_FC reg_type).

Lemma known_type t : is_Some (TYPE_TO_FC t) -> plain_string t = true /\ strip t = t.
Proof.
  unfold TYPE_TO_FC. intros [fc H].
  repeat match type of H with context [String.eqb t ?x] => destruct (String.eqb_spec t x) end;
    subst; done.
Qed.

Lemma entry_cells_plain e : entry_ok e -> Forall (fun s => plain_string s = true) (entry_cells e).
Proof.
  destruct e as [[sl t a] [v g]]. intros (H1 & H2 & H3 & H4 & H5%known_type).
  cbn [entry_cells]. repeat constructor; try (by apply show_plain). apply H5.
Qed.

Lemma read_row_entry e : entry_ok e -> read_row header_cells (entry_cells e) = Ok e.
Proof.
  destruct e as [[sl t a] [v g]]. intros (H1 & H2 & H3 & H4 & H5%known_type).
  unfold read_row, int_cell, strip_cell, dict_get.
  change (last_index "slave_id" header_cells) with (Some 0%nat).
  change (last_index "type" header_cells) with (Some 1%nat).
  change (last_index "address" header_cells) with (Some 2%nat).
  change (last_index "value" header_cells) with (Some 3%nat).
  change (last_index "age_s" header_cells) with (Some 4%nat).
  cbn [obind lookup list_lookup entry_cells]. rewrite !py_int_show. cbn [obind].
  by rewrite (proj2 H5).
Qed.

Lemma dict_set_fresh k v m : k ∉ m.*1 -> dict_set k v m = m ++ [(k, v)].
Proof.
  induction m as [|[k' v'] m IH]; [done|]. rewrite fmap_cons, not_elem_of_cons. intros [Hk Hm].
  cbn [dict_set]. cbn [fst] in Hk. rewrite decide_False by done. by rewrite IH.
Qed.

Lemma parse_rows_entries m rows acc :
  Forall entry_ok m -> NoDup (acc ++ m).*1 ->
  parse_rows header_cells ((entry_cells <$> m) ++ rows) acc = parse_rows header_cells rows (acc ++ m).
Proof.
  intros Hm. revert acc. induction Hm as [|e m He Hm IH]; intros acc Hnd.
  { by rewrite app_nil_r. }
  rewrite fmap_cons. cbn [app]. pose proof (read_row_entry e He) as Hr.
  destruct e as [[sl t a] [v g]]. cbn [entry_cells] in *. cbn [parse_rows]. rewrite Hr.
  rewrite decide_True by apply He. rewrite dict_set_fresh.
  - rewrite IH; [by rewrite <- app_assoc|]. by rewrite <- app_assoc.
  - rewrite fmap_app, fmap_cons in Hnd. apply NoDup_app in Hnd as (_ & Hd & _).
    intros Hin. apply (Hd _ Hin). apply elem_of_cons. by left.
Qed.

Lemma entry_cells_head e : head (entry_cells e) <> Some "".
Proof. destruct e as [[sl t a] [v g]]. cbn. intros [= E]. by apply show_Z_nonempty in E. Qed.

Lemma csv_rows_entries m t :
  Forall entry_ok m ->
  csv_rows (text_lines (foldr (fun e t => csv_line (entry_cells e) +:+ t) t m)) fresh_reader =
  ((entry_cells <$> m) ++ (csv_rows (text_lines t) fresh_reader).1,
   (csv_rows (text_lines t) fresh_reader).2).
Proof.
  induction 1 as [|e m He Hm IH]; [cbn [foldr fmap list_fmap app]; apply surjective_pairing|].
  cbn [foldr]. rewrite csv_rows_line, IH; [done| |by apply entry_cells_plain|apply entry_cells_head].
  by destruct e as [[sl ty a] [v g]].
Qed.

(** Reading the CSV text the firmware prints gives back the register
    map it was printed from, registers in the same order. *)
Theorem parse_csv_roundtrip m :
  Forall entry_ok m -> NoDup m.*1 -> parse_csv (cache_csv m) = Ok m.
Proof.
  intros Hm Hnd. unfold parse_csv, cache_csv.
  rewrite csv_rows_line by (first [done | repeat constructor]).
  rewrite csv_rows_entries by done. cbn [fst snd csv_rows text_lines].
  rewrite parse_rows_entries by done. done.
Qed.

Lemma parse_csv_roundtrip_witness :
  parse_csv (cache_csv [(RegKey 1 "holding" 5, (700, 3)); (RegKey 247 "coil" 65535, (1, 0))]) =
  Ok [(RegKey 1 "holding" 5, (700, 3)); (RegKey 247 "coil" 65535, (1, 0))].
Proof.
  apply (parse_csv_roundtrip [(RegKey 1 "holding" 5, (700, 3)); (RegKey 247 "coil" 65535, (1, 0))]).
  - repeat constructor; cbn; try lia; eexists; reflexivity.
  - apply NoDup_cons. split; [|apply NoDup_singleton].
    intros [H|H]%elem_of_cons; [discriminate|]. by apply not_elem_of_nil in H.
Defined.

(** A row cut short is not skipped like the other malformed rows: after
    any printed map, a last line with only the first cells of an entry makes
    [parse_csv] raise [TypeError] (or [AttributeError] when the type column
    is the first one missing), which its handler does not catch. *)
Theorem parse_csv_truncated_row m e n :
  Forall entry_ok m -> NoDup m.*1 -> entry_ok e -> (1 <= n < 5)%nat ->
  parse_csv (csv_line header_cells +:+
             foldr (fun e t => csv_line (entry_cells e) +:+ t) (csv_line (take n (entry_cells e))) m) =
  Raise (if (n =? 1)%nat then AttributeError else TypeError).
Proof.
  intros Hm Hnd He Hn. unfold parse_csv. rewrite csv_rows_line by (first [done | repeat constructor]).
  rewrite csv_rows_entries by done.
  pose proof (csv_rows_line (take n (entry_cells e)) "") as Hrow. rewrite sapp_nil_r in Hrow.
  pose proof (entry_cells_plain e He) as Hp. pose proof (entry_cells_head e) as Hh.
  rewrite Hrow; cycle 1.
  { destruct e as [[sl t a] [v g]], n; cbn; lia || done. }
  { by apply Forall_take. }
  { destruct n; [lia|]. by destruct e as [[sl t a] [v g]]. }
  cbn [fst snd csv_rows text_lines]. rewrite parse_rows_entries by done. clear Hrow Hp Hh.
  destruct e as [[sl t a] [v g]].
  destruct n as [|[|[|[|[|n]]]]]; try lia; cbn [take entry_cells app parse_rows];
    unfold read_row, int_cell, strip_cell, dict_get;
    change (last_index "slave_id" header_cells) with (Some 0%nat);
    change (last_index "type" header_cells) with (Some 1%nat);
    change (last_index "address" header_cells) with (Some 2%nat);
    change (last_index "value" header_cells) with (Some 3%nat);
    change (last_index "age_s" header_cells) with (Some 4%nat);
    cbn [obind lookup list_lookup]; rewrite ?py_int_show; done.
Qed.

Lemma parse_csv_truncated_row_witness :
  parse_csv (csv_line header_cells +:+ csv_line ["7"; "input"; "12"]) = Raise TypeError.
Proof.
  apply (parse_csv_truncated_row [] (RegKey 7 "input" 12, (1, 2)) 3).
  - constructor.
  - apply NoDup_nil_2.
  - cbn. split_and!; try lia. eexists. reflexivity.
  - lia.
Defined.
