(* ===== verification/Injector.v ===== *)
(** * The traffic generator: packet_injector.PacketInjector

    The object's attributes are [injector]; its background threads are
    program counters that advance by [bg_step], one call of the code at a
    time, so that any interleaving with [start] and [stop] is a sequence of
    [op]s.  The connected sockets the injector holds open are the set
    [open_socks]; a socket whose connect raised is never closed by the code
    and only counted, in [unconnected].
    What the outside decides is a parameter of the world: the outcome of the
    n-th connect, of the n-th send, whether closing a socket raises, whether
    a thread can be spawned. *)

From Stdlib Require Import ZArith Lia.
From stdpp Require Import base list gmap sets.
From S2P Require Import Prelude PyBytes ModbusCrc RtuFrames.

Open Scope Z_scope.

(** The constructor's arguments. *)
Record config := Config {
  port : Z;
  slave_id : Z;
  live_start : Z;
  live_count : Z;
  live_base : Z;
  static_start : option Z;
  static_count : Z;
  static_base : Z;
  bad_crc_period : Z;
  include_bad_crc : bool;
  include_all_fc : bool
}.

Definition default_config (p : Z) : config :=
  Config p 1 0 5 1000 (Some 5) 5 2000 5 true true.

(** Where a background thread is in [_run]; [Unstarted] is a [Thread] object
    whose [start] failed. *)
Inductive pc : Type :=
| Unstarted
| Check (cycle : Z)        (* while not self._stop.is_set() *)
| SendBad (cycle : Z)
| SendLive (cycle : Z)
| Sleep (cycle : Z)
| Finished.

#[export] Instance pc_eq_dec : EqDecision pc.
Proof. solve_decision. Defined.

Record world := World {
  cfg : config;
  stop_set : bool;
  thread : option nat;               (* self._thread, an index of threads *)
  error : option exn;
  isock : option nat;                (* self._sock *)
  threads : list pc;
  open_socks : gset nat;             (* connected and not closed *)
  unconnected : nat;                 (* made, never connected, never closed *)
  connects : nat;                    (* sockets connected so far; the next id *)
  sends : nat;
  wire : list (list Z);              (* what reached the UART, in order *)
  connect_err : nat -> option exn;
  send_err : nat -> option exn;
  close_err : nat -> option exn;
  spawn_err : nat -> option exn
}.

Definition upd (w : world) (st : bool) (th : option nat) (er : option exn) (so : option nat)
    (ths : list pc) (os : gset nat) (cn sn : nat) (wi : list (list Z)) : world :=
  World (cfg w) st th er so ths os (unconnected w) cn sn wi (connect_err w) (send_err w) (close_err w) (spawn_err w).

Definition set_isock (so : option nat) (w : world) : world :=
  upd w (stop_set w) (thread w) (error w) so (threads w) (open_socks w) (connects w) (sends w) (wire w).
Definition set_error (er : option exn) (w : world) : world :=
  upd w (stop_set w) (thread w) er (isock w) (threads w) (open_socks w) (connects w) (sends w) (wire w).
Definition set_thread (th : option nat) (w : world) : world :=
  upd w (stop_set w) th (error w) (isock w) (threads w) (open_socks w) (connects w) (sends w) (wire w).
Definition set_threads (ths : list pc) (w : world) : world :=
  upd w (stop_set w) (thread w) (error w) (isock w) ths (open_socks w) (connects w) (sends w) (wire w).
Definition set_stop (w : world) : world :=
  upd w true (thread w) (error w) (isock w) (threads w) (open_socks w) (connects w) (sends w) (wire w).

(** [__init__] in a given outside world. *)
Definition injector_init (c : config) (ce se cle spe : nat -> option exn) : world :=
  World c false None None None [] ∅ 0 0 0 [] ce se cle spe.

Definition leave_unconnected (w : world) : world :=
  World (cfg w) (stop_set w) (thread w) (error w) (isock w) (threads w) (open_socks w) (S (unconnected w)) (connects w) (sends w)
    (wire w) (connect_err w) (send_err w) (close_err w) (spawn_err w).

(** [open_uart_socket(port)]: the socket is made before the connect and not
    closed when the connect raises. *)
Definition open_uart_socket : eff world nat := fun w =>
  if negb ((port (cfg w) =? 1) || (port (cfg w) =? 2)) then (Raise ValueError, w)
  else
    let id := connects w in
    let w' os := upd w (stop_set w) (thread w) (error w) (isock w) (threads w) os (S id)
                   (sends w) (wire w) in
    match connect_err w id with
    | Some e => (Raise e, leave_unconnected (w' (open_socks w)))
    | None => (Ok id, w' ({[ id ]} ∪ open_socks w))
    end.

(** [s.sendall(data)] on socket [id]; a closed socket raises [OSError]. *)
Definition sendall (id : nat) (data : list Z) : eff world unit := fun w =>
  if decide (id ∈ open_socks w) then
    let w' wi := upd w (stop_set w) (thread w) (error w) (isock w) (threads w) (open_socks w)
                   (connects w) (S (sends w)) wi in
    match send_err w (sends w) with
    | Some e => (Raise e, w' (wire w))
    | None => (Ok tt, w' (wire w ++ [data]))
    end
  else (Raise OSError, w).

(** [s.close()]: the descriptor is released also when it raises. *)
Definition close (id : nat) : eff world unit := fun w =>
  let w' := upd w (stop_set w) (thread w) (error w) (isock w) (threads w)
              (open_socks w ∖ {[ id ]}) (connects w) (sends w) (wire w) in
  match close_err w id with
  | Some e => (Raise e, w')
  | None => (Ok tt, w')
  end.

Definition inject_bytes (data : list Z) (sock : option nat) : eff world unit :=
  match sock with
  | Some id => sendall id data
  | None =>
      let* id := open_uart_socket in
      try_finally (sendall id data) (close id)
  end.

Definition _safe_inject (data : list Z) : eff world unit :=
  let* w := get in
  try_except (inject_bytes data (isock w)) (fun _ => true)
    (fun e => modify (set_error (Some e)) ;;; raise e).

Definition _build_live_exchange (c : config) : outcome (list Z) :=
  build_fc03_exchange (slave_id c) (live_start c) (live_count c) (live_base c + live_start c).

(** [try: self._sock.close() finally: self._sock = None] *)
Definition close_self_sock : eff world unit :=
  let* w := get in
  match isock w with
  | Some id => try_finally (close id) (modify (set_isock None))
  | None => ret tt
  end.

(** What [start] sends before the thread is created: the static block, one
    exchange per further function code, one live exchange. *)
Definition send_preamble (w : world) : eff world unit :=
  let c := cfg w in
  (match static_start c with
   | Some s =>
       if 0 <? static_count c then
         let* data := lift (build_fc03_exchange (slave_id c) s (static_count c) (static_base c + s)) in
         _safe_inject data
       else ret tt
   | None => ret tt
   end) ;;;
  (if include_all_fc c then
     let* d1 := lift (build_fc01_exchange (slave_id c) 100 1 1) in
     inject_bytes d1 (isock w) ;;;
     let* d2 := lift (build_fc02_exchange (slave_id c) 200 1 0) in
     inject_bytes d2 (isock w) ;;;
     let* d4 := lift (build_fc04_exchange (slave_id c) 300 1 3000) in
     inject_bytes d4 (isock w)
   else ret tt) ;;;
  let* live := lift (_build_live_exchange c) in
  _safe_inject live.

(** [self._thread = threading.Thread(...); self._thread.start()] *)
Definition spawn : eff world unit :=
  let* w := get in
  let i := length (threads w) in
  modify (fun w => set_thread (Some i) (set_threads (threads w ++ [Unstarted]) w)) ;;;
  match spawn_err w i with
  | Some e => raise e
  | None => modify (fun w => set_threads (<[i := Check 0]> (threads w)) w)
  end.

(** The body of the [try] in [start]. *)
Definition start_body : eff world unit :=
  let* w := get in
  send_preamble w ;;; spawn.

Definition start : eff world unit :=
  let* w := get in
  match thread w with
  | Some _ => raise RuntimeError
  | None =>
      let* id := open_uart_socket in
      modify (set_isock (Some id)) ;;;
      try_except start_body (fun _ => true) (fun e => close_self_sock ;;; raise e)
  end.

(** One step of background thread [i]: from one call of [_run] to the next.
    [wake] tells whether the sleep of this cycle is over.  An exception ends
    the thread and is kept unless one is already recorded. *)
Definition finish (i : nat) (w : world) : world := set_threads (<[i := Finished]> (threads w)) w.

Definition run_guard (i : nat) (m : eff world pc) : world -> world := fun w =>
  match m w with
  | (Ok p, w') => set_threads (<[i := p]> (threads w')) w'
  | (Raise e, w') =>
      finish i (match error w' with None => set_error (Some e) w' | Some _ => w' end)
  | (Blocked, w') => w'
  end.

Definition bg_step (i : nat) (wake : bool) (w : world) : world :=
  match threads w !! i with
  | Some (Check cycle) =>
      if stop_set w then finish i w
      else
        let cycle := cycle + 1 in
        run_guard i
          (if include_bad_crc (cfg w) then
             if bad_crc_period (cfg w) =? 0 then raise ZeroDivisionError
             else if cycle mod bad_crc_period (cfg w) =? 0 then ret (SendBad cycle)
             else ret (SendLive cycle)
           else ret (SendLive cycle)) w
  | Some (SendBad cycle) => run_guard i (_safe_inject BAD_CRC_PACKET ;;; ret (SendLive cycle)) w
  | Some (SendLive cycle) =>
      run_guard i (let* live := lift (_build_live_exchange (cfg w)) in
                   _safe_inject live ;;; ret (Sleep cycle)) w
  | Some (Sleep cycle) =>
      if stop_set w || wake then set_threads (<[i := Check cycle]> (threads w)) w else w
  | _ => w
  end.

(** The background steps that happen while the main thread waits. *)
Definition bg_steps (sched : list (nat * bool)) (w : world) : world :=
  fold_left (fun w s => bg_step s.1 s.2 w) sched w.

(** [stop]: [sched1] and [sched2] are what the threads do during the two
    [join]s. *)
Definition stop (sched1 sched2 : list (nat * bool)) : eff world unit :=
  let* w := get in
  match thread w with
  | None => close_self_sock
  | Some i =>
      modify set_stop ;;;
      (if decide (threads w !! i = Some Unstarted) then raise RuntimeError else ret tt) ;;;
      modify (bg_steps sched1) ;;;
      let* w := get in
      if negb (bool_decide (threads w !! i = Some Finished)) then
        close_self_sock ;;;
        modify (bg_steps sched2) ;;;
        modify (set_thread None) ;;;
        raise RuntimeError
      else
        modify (set_thread None) ;;;
        close_self_sock ;;;
        let* w := get in
        match error w with
        | Some e => modify (set_error None) ;;; raise e
        | None => ret tt
        end
  end.

(** ** Operations in any order *)

Inductive op : Type :=
| Start
| Stop (sched1 sched2 : list (nat * bool))
| Background (i : nat) (wake : bool).

Definition apply_op (o : op) (w : world) : world :=
  match o with
  | Start => (start w).2
  | Stop s1 s2 => (stop s1 s2 w).2
  | Background i wake => bg_step i wake w
  end.

Definition apply_ops (os : list op) (w : world) : world := fold_left (fun w o => apply_op o w) os w.

(** ** Sockets are never leaked *)

(** The step left the injector's socket, its thread and the set of open
    sockets alone, and no thread became [Unstarted]. *)
Record quiet (w w' : world) : Prop := {
  q_isock : isock w' = isock w;
  q_thread : thread w' = thread w;
  q_open : open_socks w' = open_socks w;
  q_connects : (connects w <= connects w')%nat;
  q_unstarted : forall i, threads w' !! i = Some Unstarted -> threads w !! i = Some Unstarted
}.

Lemma quiet_refl w : quiet w w.
Proof. by split. Qed.

Lemma quiet_trans w1 w2 w3 : quiet w1 w2 -> quiet w2 w3 -> quiet w1 w3.
Proof. intros [] []. split; eauto; congruence || lia. Qed.

Definition fresh_ids (w : world) : Prop := forall id, id ∈ open_socks w -> (id < connects w)%nat.

Lemma quiet_fresh w w' : quiet w w' -> fresh_ids w -> fresh_ids w'.
Proof. intros [_ _ Ho Hc _] Hf id. rewrite Ho. intros Hid%Hf. lia. Qed.

Definition quiet_eff {A} (m : eff world A) : Prop := forall w, fresh_ids w -> quiet w (m w).2.

Lemma quiet_ret {A} (a : A) : quiet_eff (ret a).
Proof. intros w _. apply quiet_refl. Qed.

Lemma quiet_raise {A} e : quiet_eff (@raise _ A e).
Proof. intros w _. apply quiet_refl. Qed.

Lemma quiet_lift {A} (m : outcome A) : quiet_eff (lift m).
Proof. intros w _. apply quiet_refl. Qed.

Lemma quiet_bind {A B} (m : eff world A) (f : A -> eff world B) :
  quiet_eff m -> (forall a, quiet_eff (f a)) -> quiet_eff (bind m f).
Proof.
  intros Hm Hf w Hw. unfold bind. specialize (Hm w Hw). destruct (m w) as [[a|e|] w1]; cbn in *; [|done..].
  eapply quiet_trans; [done|]. apply Hf. by eapply quiet_fresh.
Qed.

Lemma quiet_bind_get {A} (f : world -> eff world A) :
  (forall w, fresh_ids w -> quiet w (f w w).2) -> quiet_eff (bind get f).
Proof. intros Hf w Hw. apply Hf, Hw. Qed.

Lemma quiet_set_error e : quiet_eff (modify (set_error e)).
Proof. intros w _. by split. Qed.

Lemma quiet_sendall id data : quiet_eff (sendall id data).
Proof. intros w _. unfold sendall. repeat split_match; by split. Qed.

Lemma quiet_try {A} (m : eff world A) c h :
  quiet_eff m -> (forall e, quiet_eff (h e)) -> quiet_eff (try_except m c h).
Proof.
  intros Hm Hh w Hw. unfold try_except. specialize (Hm w Hw). destruct (m w) as [[a|e|] w1]; cbn in *; [done| |done].
  destruct (c e); [|done]. eapply quiet_trans; [done|]. apply Hh. by eapply quiet_fresh.
Qed.

#[export] Hint Resolve quiet_ret quiet_raise quiet_lift quiet_bind quiet_set_error quiet_sendall
  quiet_try : wbmge.

(** A one-shot socket is closed again, whatever its send did. *)
Lemma quiet_inject data so : quiet_eff (inject_bytes data so).
Proof.
  destruct so as [id|]; cbn [inject_bytes]; [apply quiet_sendall|].
  intros w Hw. unfold bind, open_uart_socket. destruct (negb _); [apply quiet_refl|].
  destruct (connect_err w (connects w)); [split; cbn; auto with lia|].
  set (w1 := upd _ _ _ _ _ _ _ _ _ _). set (id := connects w) in *.
  unfold try_finally.
  pose proof (quiet_sendall id data w1) as Hs. destruct (sendall id data w1) as [r w2] eqn:Es.
  assert (fresh_ids w1) as Hf1.
  { intros j. unfold w1. cbn. rewrite elem_of_union, elem_of_singleton. intros [->|Hj%Hw]; unfold id in *; lia. }
  specialize (Hs Hf1). cbn in Hs.
  assert (quiet w (close id w2).2) as Hq.
  { unfold close. destruct Hs as [H1 H2 H3 H4 H5].
    destruct (close_err w2 id); split; cbn; auto; try (unfold w1 in *; cbn in *; lia);
      rewrite H3; unfold w1; cbn; apply set_eq; intros j;
      rewrite elem_of_difference, elem_of_union, elem_of_singleton; split;
      [tauto| |tauto|]; intros Hj; (split; [auto|]); intros ->; apply Hw in Hj; unfold id in Hj; lia. }
  assert (r <> Blocked) as Hr.
  { unfold sendall in Es. repeat split_match_in Es; congruence. }
  destruct r as [[]|e|]; [| |done]; unfold close in *; destruct (close_err w2 id); exact Hq.
Qed.

#[export] Hint Resolve quiet_inject : wbmge.

Lemma quiet_safe_inject data : quiet_eff (_safe_inject data).
Proof.
  unfold _safe_inject. apply quiet_bind_get. intros w Hw.
  apply (quiet_try (inject_bytes data (isock w))); eauto with wbmge.
Qed.

#[export] Hint Resolve quiet_safe_inject : wbmge.

Lemma quiet_set_pc w i p : p <> Unstarted -> quiet w (set_threads (<[i := p]> (threads w)) w).
Proof.
  intros Hp. split; cbn; auto. intros j. destruct (decide (i = j)) as [->|].
  - destruct (decide (j < length (threads w))%nat).
    + rewrite list_lookup_insert_eq by done. congruence.
    + by rewrite list_insert_ge by lia.
  - by rewrite list_lookup_insert_ne.
Qed.

Lemma quiet_run_guard i m w :
  quiet_eff m -> (forall p w', m w = (Ok p, w') -> p <> Unstarted) -> fresh_ids w ->
  quiet w (run_guard i m w).
Proof.
  intros Hm Hp Hw. unfold run_guard. specialize (Hm w Hw). destruct (m w) as [[p|e|] w1]; cbn in Hm.
  - eapply quiet_trans; [done|]. apply quiet_set_pc. by eapply Hp.
  - eapply quiet_trans; [done|]. unfold finish. destruct (error w1); [by apply quiet_set_pc|].
    eapply quiet_trans; [|by apply quiet_set_pc]. by split.
  - done.
Qed.

Lemma quiet_bg_step i wake w : fresh_ids w -> quiet w (bg_step i wake w).
Proof.
  intros Hw. unfold bg_step. destruct (threads w !! i) as [[|cy|cy|cy|cy|]|]; try apply quiet_refl.
  - destruct (stop_set w); [by apply quiet_set_pc|].
    apply quiet_run_guard; [|intros p w'; repeat split_match; unfold ret, raise; congruence|done].
    repeat split_match; auto with wbmge.
  - apply quiet_run_guard; [eauto with wbmge| |done].
    intros p w' (? & ? & _ & [= <- _])%bind_ok. done.
  - apply quiet_run_guard; [eauto with wbmge| |done].
    intros p w' (? & ? & _ & (? & ? & _ & [= <- _])%bind_ok)%bind_ok. done.
  - destruct (_ || _); [by apply quiet_set_pc|apply quiet_refl].
Qed.

Lemma quiet_bg_steps sched w : fresh_ids w -> quiet w (bg_steps sched w).
Proof.
  unfold bg_steps. revert w. induction sched as [|[i wake] sched IH]; intros w Hw; cbn [fold_left].
  - apply quiet_refl.
  - pose proof (quiet_bg_step i wake w Hw). eapply quiet_trans; [done|]. apply IH.
    by eapply quiet_fresh.
Qed.

(** The invariant between operations: the only socket that may be open is
    the injector's own, and it is held only while a started thread is. *)
Record owned (w : world) : Prop := {
  o_open : open_socks w = match isock w with Some id => {[ id ]} | None => ∅ end;
  o_fresh : fresh_ids w;
  o_idle : thread w = None -> isock w = None;
  o_unstarted : forall i, thread w = Some i -> threads w !! i = Some Unstarted -> isock w = None
}.

Lemma quiet_owned w w' : quiet w w' -> owned w -> owned w'.
Proof.
  intros Hq [Ho Hf Hi Hu]. pose proof (quiet_fresh _ _ Hq Hf). destruct Hq as [H1 H2 H3 H4 H5].
  split; rewrite ?H1, ?H2, ?H3; auto. intros i Ht Hn. eauto.
Qed.

(** Releasing the socket in a [finally]. *)
Lemma close_self_sock_spec w :
  open_socks w = match isock w with Some id => {[ id ]} | None => ∅ end ->
  let w' := (close_self_sock w).2 in
  (close_self_sock w).1 <> Blocked /\
  isock w' = None /\ open_socks w' = ∅ /\ thread w' = thread w /\ threads w' = threads w /\
  connects w' = connects w.
Proof.
  intros Ho. unfold close_self_sock, bind, get. cbn zeta.
  destruct (isock w) as [id|] eqn:E; [|by cbn].
  unfold try_finally, close. destruct (close_err w id); cbn; rewrite Ho; split_and!; auto;
    apply difference_diag_L.
Qed.


(** ** No operation hangs *)

Definition total_eff {A} (m : eff world A) : Prop := forall w, settled (m w).1.

Lemma total_ret {A} (a : A) : total_eff (ret a).
Proof. done. Qed.

Lemma total_raise {A} e : total_eff (@raise _ A e).
Proof. done. Qed.

Lemma total_get : total_eff (@get world).
Proof. done. Qed.

Lemma total_modify f : total_eff (@modify world f).
Proof. done. Qed.

Lemma total_lift {A} (m : outcome A) : settled m -> total_eff (lift m).
Proof. by intros H w. Qed.

Lemma total_bind {A B} (m : eff world A) (f : A -> eff world B) :
  total_eff m -> (forall a, total_eff (f a)) -> total_eff (bind m f).
Proof.
  intros Hm Hf w. unfold bind. specialize (Hm w). destruct (m w) as [[a|e|] w1]; cbn in *; [apply Hf|done|done].
Qed.

Lemma total_try {A} (m : eff world A) c h :
  total_eff m -> (forall e, total_eff (h e)) -> total_eff (try_except m c h).
Proof.
  intros Hm Hh w. unfold try_except. specialize (Hm w). destruct (m w) as [[a|e|] w1]; cbn in *; [done| |done].
  destruct (c e); [apply Hh|done].
Qed.

Lemma total_finally {A} (m : eff world A) f :
  total_eff m -> total_eff f -> total_eff (try_finally m f).
Proof.
  intros Hm Hf w. unfold try_finally. specialize (Hm w). destruct (m w) as [[a|e|] w1]; cbn in *; [| |done];
    specialize (Hf w1); destruct (f w1) as [[[]|e'|] w2]; done.
Qed.

Lemma total_sendall id data : total_eff (sendall id data).
Proof. intros w. unfold sendall. repeat split_match; done. Qed.

Lemma total_close id : total_eff (close id).
Proof. intros w. unfold close. split_match; done. Qed.

Lemma total_open : total_eff open_uart_socket.
Proof. intros w. unfold open_uart_socket. repeat split_match; done. Qed.

#[export] Hint Resolve total_ret total_raise total_get total_modify total_lift total_bind total_try
  total_finally total_sendall total_close total_open : wbmge.

Lemma total_inject data so : total_eff (inject_bytes data so).
Proof. destruct so; cbn [inject_bytes]; auto with wbmge. Qed.

Lemma total_safe_inject data : total_eff (_safe_inject data).
Proof. unfold _safe_inject. apply total_bind; auto using total_inject with wbmge. Qed.

#[export] Hint Resolve total_inject total_safe_inject : wbmge.

Lemma exchange_settled :
  (forall a b c d, settled (build_fc03_exchange a b c d)) /\
  (forall a b c d, settled (build_fc01_exchange a b c d)) /\
  (forall a b c d, settled (build_fc02_exchange a b c d)) /\
  (forall a b c d, settled (build_fc04_exchange a b c d)).
Proof.
  unfold build_fc03_exchange, build_fc01_exchange, build_fc02_exchange, build_fc04_exchange,
    build_fc03_response, build_fc01_response, build_fc02_response, build_fc04_response.
  split_and!; intros; auto with wbmge.
Qed.

Lemma quiet_preamble w : quiet_eff (send_preamble w).
Proof.
  unfold send_preamble.
  repeat first [apply quiet_ret | apply quiet_lift | apply quiet_inject | apply quiet_safe_inject
    | apply quiet_bind; [|intros ?] | split_match].
Qed.

Lemma total_preamble w : total_eff (send_preamble w).
Proof.
  destruct exchange_settled as (H3 & H1 & H2 & H4). unfold send_preamble, _build_live_exchange.
  repeat match goal with
  | |- total_eff (ret _) => apply total_ret
  | |- total_eff (lift _) => apply total_lift
  | |- settled (build_fc03_exchange _ _ _ _) => apply H3
  | |- settled (build_fc01_exchange _ _ _ _) => apply H1
  | |- settled (build_fc02_exchange _ _ _ _) => apply H2
  | |- settled (build_fc04_exchange _ _ _ _) => apply H4
  | |- total_eff (inject_bytes _ _) => apply total_inject
  | |- total_eff (_safe_inject _) => apply total_safe_inject
  | |- total_eff (bind _ _) => apply total_bind; [|intros ?]
  | _ => split_match
  end.
Qed.

Lemma start_body_spec w :
  fresh_ids w ->
  let '(r, w') := start_body w in
  isock w' = isock w /\ open_socks w' = open_socks w /\ (connects w <= connects w')%nat /\
  match r with
  | Ok _ => exists i, thread w' = Some i /\ threads w' !! i = Some (Check 0)
  | Raise _ => thread w' = thread w /\ (forall i, threads w' !! i = Some Unstarted -> threads w !! i = Some Unstarted) \/
               exists i, thread w' = Some i
  | Blocked => False
  end.
Proof.
  intros Hf. unfold start_body, bind at 1, get. unfold bind at 1.
  pose proof (quiet_preamble w w Hf) as Hq. pose proof (total_preamble w w) as Ht.
  destruct (send_preamble w w) as [[[]|e|] w1]; cbn in Hq, Ht; destruct Hq as [H1 H2 H3 H4 H5].
  - unfold spawn, bind, get, modify, raise.
    destruct (spawn_err w1 (length (threads w1))); cbn; split_and!; eauto.
    eexists. split; [done|]. apply list_lookup_insert_eq. rewrite length_app. cbn. lia.
  - split_and!; auto.
  - done.
Qed.

Lemma owned_start w : owned w -> owned (start w).2.
Proof.
  intros Ho. unfold start, bind at 1, get. destruct (thread w) as [i|] eqn:Et; [done|].
  destruct Ho as [Hopen Hfresh Hidle Hun]. rewrite (Hidle Et) in Hopen.
  unfold bind at 1, open_uart_socket. destruct (negb _).
  { split; cbn; rewrite ?(Hidle Et); auto. }
  destruct (connect_err w (connects w)).
  { split; cbn; rewrite ?(Hidle Et); auto; try congruence. intros id Hid%Hfresh. cbn. lia. }
  unfold bind, modify. set (w1 := set_isock _ _).
  assert (fresh_ids w1) as Hf1.
  { intros id. unfold w1. cbn. rewrite Hopen, right_id_L, elem_of_singleton by apply _. lia. }
  pose proof (start_body_spec w1 Hf1) as Hb. unfold try_except.
  destruct (start_body w1) as [[[]|e|] w2]; destruct Hb as (Hi & Hop & Hcn & Hb); [| |done].
  - destruct Hb as (i & Hti & Hpc). cbn. split; rewrite ?Hi, ?Hop, ?Hti.
    + unfold w1. cbn. by rewrite Hopen, right_id_L by apply _.
    + intros id. rewrite Hop. intros Hid%Hf1. lia.
    + done.
    + intros j [= <-] Hj. congruence.
  - assert (open_socks w2 = match isock w2 with Some id => {[id]} | None => ∅ end) as Ho2.
    { rewrite Hi, Hop. unfold w1. cbn. by rewrite Hopen, right_id_L by apply _. }
    destruct (close_self_sock_spec w2 Ho2) as (Hnb & Hc1 & Hc2 & Hc3 & Hc4 & Hc5).
    assert (owned (close_self_sock w2).2) as Hres.
    { split; rewrite ?Hc1, ?Hc2; auto. intros id. by rewrite Hc2. }
    destruct (close_self_sock w2) as [[[]|e'|] w3]; done.
Qed.

Lemma owned_stop s1 s2 w :
  owned w -> owned (stop s1 s2 w).2 /\ isock (stop s1 s2 w).2 = None.
Proof.
  intros Ho. set (P := fun r : outcome unit * world => owned r.2 /\ isock r.2 = None).
  change (P (stop s1 s2 w)). unfold stop, bind at 1, get. destruct (thread w) as [i|] eqn:Et.
  2: { unfold P. destruct Ho as [H1 H2 H3 H4]. specialize (H3 Et). unfold close_self_sock, bind, get. rewrite H3. cbn.
       split; [|done]. split; rewrite ?H3; auto. by rewrite H3 in H1. }
  unfold bind at 1, modify. assert (owned (set_stop w)) as Hs by (destruct Ho; split; auto).
  unfold bind at 1. destruct (decide (threads w !! i = Some Unstarted)) as [Hu|Hu].
  { split; [exact Hs|]. destruct Ho as [_ _ _ H4]. apply (H4 i Et Hu). }
  unfold ret, bind at 1. set (w1 := bg_steps s1 (set_stop w)).
  assert (owned w1) as Ho1 by (eapply quiet_owned; [apply quiet_bg_steps, Hs|done]).
  unfold bind at 1. destruct (close_self_sock_spec w1 (o_open _ Ho1)) as (Hnb & Hc1 & Hc2 & Hc3 & Hc4 & Hc5).
  assert (owned (close_self_sock w1).2 ) as Hcl.
  { split; rewrite ?Hc1, ?Hc2; auto. intros id. by rewrite Hc2. }
  destruct (negb _).
  - unfold bind at 1. destruct (close_self_sock w1) as [[[]|e|] w2]; cbn in *; [| |done]; [|done].
    pose proof (quiet_bg_steps s2 w2 (o_fresh _ Hcl)) as Hq.
    pose proof (quiet_owned _ _ Hq Hcl) as [Ho2 Hf2 Hi2 Hu2].
    assert (isock (bg_steps s2 w2) = None) as Hn by (by rewrite (q_isock _ _ Hq)).
    split; [|done]. split; cbn; rewrite ?Hn; auto. by rewrite Hn in Ho2.
  - unfold bind at 1, modify.
    assert (open_socks (set_thread None w1) = match isock (set_thread None w1) with
      Some id => {[id]} | None => ∅ end) as Ho3 by apply Ho1.
    destruct (close_self_sock_spec _ Ho3) as (Hnb' & Hd1 & Hd2 & Hd3 & Hd4 & Hd5).
    assert (owned (close_self_sock (set_thread None w1)).2) as Hcl'.
    { split; rewrite ?Hd1, ?Hd2; auto. intros id. by rewrite Hd2. }
    unfold bind at 1. destruct (close_self_sock (set_thread None w1)) as [[[]|e|] w2]; cbn in *; [| |done]; [|done].
    unfold bind, get. destruct (error w2); cbn; [|done].
    split; [|done]. by destruct Hcl'; split.
Qed.

Lemma total_close_self : total_eff close_self_sock.
Proof.
  intros w. unfold close_self_sock, bind, get. destruct (isock w); [|done]. unfold try_finally, close.
  by destruct (close_err w n).
Qed.

Lemma total_start : total_eff start.
Proof.
  unfold start. apply total_bind; [apply total_get|]. intros w. destruct (thread w); [apply total_raise|].
  apply total_bind; [apply total_open|]. intros id. apply total_bind; [apply total_modify|]. intros _.
  apply total_try; [|intros e; apply total_bind; [apply total_close_self|intros; apply total_raise]].
  unfold start_body. apply total_bind; [apply total_get|]. intros w0. apply total_bind; [apply total_preamble|]. intros _.
  unfold spawn. apply total_bind; [apply total_get|]. intros w1. apply total_bind; [apply total_modify|]. intros _.
  destruct (spawn_err w1 _); [apply total_raise|apply total_modify].
Qed.

Lemma total_stop s1 s2 : total_eff (stop s1 s2).
Proof.
  unfold stop. apply total_bind; [apply total_get|]. intros w. destruct (thread w); [|apply total_close_self].
  apply total_bind; [apply total_modify|]. intros _. apply total_bind; [destruct (decide _); [apply total_raise|apply total_ret]|].
  intros _. apply total_bind; [apply total_modify|]. intros _. apply total_bind; [apply total_get|]. intros w1.
  destruct (negb _); repeat (apply total_bind; [apply total_close_self || apply total_modify || apply total_get|intros ?]);
    [apply total_raise|]. destruct (error _); [|apply total_ret]. apply total_bind; [apply total_modify|intros; apply total_raise].
Qed.

(** A [start] that fails lets go of its socket. *)
Lemma start_raises w e w' : owned w -> thread w = None -> start w = (Raise e, w') -> isock w' = None.
Proof.
  intros [Hopen Hfresh Hidle Hun] Ht. unfold start, bind at 1, get. rewrite Ht. specialize (Hidle Ht). rewrite Hidle in Hopen.
  unfold bind at 1, open_uart_socket. destruct (negb _); [by intros [= _ <-]|].
  destruct (connect_err w (connects w)); [by intros [= _ <-]|]. unfold bind at 1, modify. set (w1 := set_isock _ _).
  assert (fresh_ids w1) as Hf1.
  { intros id. unfold w1. cbn. rewrite Hopen, right_id_L, elem_of_singleton by apply _. lia. }
  pose proof (start_body_spec w1 Hf1) as Hb. unfold try_except.
  destruct (start_body w1) as [[[]|ex|] w2]; destruct Hb as (Hi & Hop & Hcn & Hb); [done| |done].
  assert (open_socks w2 = match isock w2 with Some id => {[id]} | None => ∅ end) as Ho2.
  { rewrite Hi, Hop. unfold w1. cbn. by rewrite Hopen, right_id_L by apply _. }
  destruct (close_self_sock_spec w2 Ho2) as (Hnb & Hc1 & Hc2 & Hc3 & Hc4 & Hc5).
  unfold bind. destruct (close_self_sock w2) as [[[]|e'|] w3]; try done; by intros [= _ <-].
Qed.

Lemma owned_ops os w : owned w -> owned (apply_ops os w).
Proof.
  unfold apply_ops. revert w. induction os as [|o os IH]; intros w Hw; cbn [fold_left]; [done|].
  apply IH. destruct o; cbn [apply_op].
  - by apply owned_start.
  - by apply owned_stop.
  - eapply quiet_owned; [apply quiet_bg_step|]; apply Hw.
Qed.

(** The injector never leaks its UART socket.  After any sequence of
    [start], [stop] and background steps in any interleaving, whatever
    connects, sends, closes and thread starts fail, at most the socket in
    [self._sock] is connected, and from any such state [stop] - returning or
    raising - leaves [self._sock] empty and no socket connected, so the single
    client slot of the UART is free again. *)
Theorem injector_never_leaks c ce se cle spe os s1 s2 :
  let w := apply_ops os (injector_init c ce se cle spe) in
  open_socks w = match isock w with Some id => {[ id ]} | None => ∅ end /\
  isock (stop s1 s2 w).2 = None /\ open_socks (stop s1 s2 w).2 = ∅.
Proof.
  intros w. assert (owned w) as Ho by (apply owned_ops; split; done).
  destruct (owned_stop s1 s2 w Ho) as [Hs Hn]. split_and!; [apply Ho|done|].
  destruct Hs as [H _ _ _]. by rewrite Hn in H.
Qed.

(** ** The traffic of the background thread *)

(** What cycle [c] puts on the wire. *)
Definition cycle_packets (k : config) (live : list Z) (c : Z) : list (list Z) :=
  (if include_bad_crc k && (c mod bad_crc_period k =? 0) then [BAD_CRC_PACKET] else []) ++ [live].

(** What the first [n] cycles put on the wire. *)
Definition pattern (k : config) (live : list Z) (n : nat) : list (list Z) :=
  seqZ 1 (Z.of_nat n) ≫= cycle_packets k live.

Lemma pattern_S k live n :
  pattern k live (S n) = pattern k live n ++ cycle_packets k live (Z.of_nat n + 1).
Proof.
  unfold pattern. rewrite Nat2Z.inj_succ, <- Z.add_1_r, seqZ_app by lia.
  rewrite bind_app. f_equal. replace (1 + Z.of_nat n) with (Z.of_nat n + 1) by lia.
  change (seqZ (Z.of_nat n + 1) 1) with [Z.of_nat n + 1]. rewrite bind_cons. apply app_nil_r.
Qed.

Section Traffic.
Context (i id : nat) (live : list Z) (before : list (list Z)).

(** A world in which thread [i] runs undisturbed and every send succeeds,
    with what it has sent so far and how far it got ([pos] steps). *)
Record running (p : pc) (sent : list (list Z)) (w : world) : Prop := {
  t_pc : threads w !! i = Some p;
  t_go : stop_set w = false;
  t_sock : isock w = Some id /\ id ∈ open_socks w;
  t_send : forall n, send_err w n = None;
  t_period : 0 < bad_crc_period (cfg w);
  t_live : _build_live_exchange (cfg w) = Ok live;
  t_wire : wire w = before ++ sent
}.

Lemma running_set_pc p p' sent w :
  running p sent w -> running p' sent (set_threads (<[i := p']> (threads w)) w).
Proof.
  intros [H1 H2 H3 H4 H5 H6 H7]. split; auto. cbn. apply list_lookup_insert_eq.
  by eapply lookup_lt_Some.
Qed.

(** Sending a packet and moving on. *)
Lemma running_send p p' sent data w :
  running p sent w ->
  let w' := run_guard i (_safe_inject data ;;; ret p') w in
  running p' (sent ++ [data]) w' /\ cfg w' = cfg w.
Proof.
  intros [H1 H2 [H3 H3'] H4 H5 H6 H7]. unfold run_guard, _safe_inject, bind, get, try_except.
  rewrite H3. cbn [inject_bytes]. unfold sendall. rewrite decide_True by done. rewrite H4.
  cbn zeta. split; [|done]. split; auto.
  - cbn. apply list_lookup_insert_eq. by eapply lookup_lt_Some.
  - cbn. by rewrite H7, app_assoc.
Qed.

(** Where a thread is: the packets of completed cycles, and the bad-CRC
    packet of the current one once it is sent. *)
Definition progress (k : config) (p : pc) (sent : list (list Z)) (n : nat) (pos : nat) : Prop :=
  match p with
  | Check c => c = Z.of_nat n /\ sent = pattern k live n /\ pos = (4 * n)%nat
  | SendBad c => c = Z.of_nat n + 1 /\ sent = pattern k live n /\ pos = (4 * n + 1)%nat /\
                 include_bad_crc k = true /\ c mod bad_crc_period k = 0
  | SendLive c => c = Z.of_nat n + 1 /\ pos = (4 * n + 2)%nat /\
                 sent ++ [live] = pattern k live n ++ cycle_packets k live c
  | Sleep c => c = Z.of_nat n + 1 /\ pos = (4 * n + 3)%nat /\
                 sent = pattern k live n ++ cycle_packets k live c
  | _ => False
  end.

Lemma bg_step_running p sent n pos wake w :
  running p sent w -> progress (cfg w) p sent n pos ->
  exists p' sent' n' pos', running p' sent' (bg_step i wake w) /\
    cfg (bg_step i wake w) = cfg w /\ progress (cfg w) p' sent' n' pos' /\
    (wake = true -> (pos < pos')%nat).
Proof.
  intros Hr Hp. pose proof Hr as [H1 H2 H3 H4 H5 H6 H7]. unfold bg_step. rewrite H1, H2.
  destruct p as [|c|c|c|c|]; cbn [progress] in Hp; try done.
  - destruct Hp as (-> & -> & ->).
    assert (forall p', running p' (pattern (cfg w) live n) (run_guard i (ret p') w)) as Hset
      by (intros p'; by eapply running_set_pc).
    destruct (include_bad_crc (cfg w)) eqn:Ei; cycle 1.
    { exists (SendLive (Z.of_nat n + 1)), (pattern (cfg w) live n), n, (4 * n + 2)%nat.
      split_and!; try done; [|lia]. cbn. unfold cycle_packets. by rewrite Ei. }
    destruct (Z.eqb_spec (bad_crc_period (cfg w)) 0); [lia|].
    destruct (Z.eqb_spec ((Z.of_nat n + 1) mod bad_crc_period (cfg w)) 0) as [Em|Em].
    + exists (SendBad (Z.of_nat n + 1)), (pattern (cfg w) live n), n, (4 * n + 1)%nat.
      split_and!; try done; lia.
    + exists (SendLive (Z.of_nat n + 1)), (pattern (cfg w) live n), n, (4 * n + 2)%nat.
      split_and!; try done; [|lia]. cbn. split_and!; try done. unfold cycle_packets. rewrite Ei.
      by rewrite (proj2 (Z.eqb_neq _ _) Em).
  - destruct Hp as (-> & -> & -> & Ei & Em).
    destruct (running_send _ (SendLive (Z.of_nat n + 1)) _ BAD_CRC_PACKET w Hr) as [Hr' Hc].
    eexists (SendLive (Z.of_nat n + 1)), _, n, (4 * n + 2)%nat.
    split_and!; [exact Hr'|exact Hc| |lia].
    cbn. split_and!; try done. unfold cycle_packets. rewrite Ei, Em, Z.eqb_refl. by rewrite <- app_assoc.
  - destruct Hp as (-> & -> & Hs). rewrite H6.
    destruct (running_send _ (Sleep (Z.of_nat n + 1)) _ live w Hr) as [Hr' Hc].
    eexists (Sleep (Z.of_nat n + 1)), _, n, (4 * n + 3)%nat.
    split_and!; [exact Hr'|exact Hc|by cbn|lia].
  - destruct Hp as (-> & -> & ->). cbn [orb]. destruct wake.
    + eexists (Check (Z.of_nat n + 1)), _, (S n), (4 * S n)%nat.
      split_and!; [by eapply running_set_pc|done| |lia]. cbn. rewrite pattern_S. split_and!; lia || done.
    + eexists (Sleep (Z.of_nat n + 1)), _, n, (4 * n + 3)%nat. split_and!; done.
Qed.

Lemma bg_steps_running sched p sent n pos w :
  Forall (fun s => s.1 = i) sched -> running p sent w -> progress (cfg w) p sent n pos ->
  exists p' sent' n' pos', running p' sent' (bg_steps sched w) /\
    progress (cfg w) p' sent' n' pos' /\
    (Forall (fun s => s.2 = true) sched -> (pos + length sched <= pos')%nat).
Proof.
  unfold bg_steps. intros Hi. revert p sent n pos w.
  induction Hi as [|[j wake] sched Hj Hi IH]; intros p sent n pos w Hr Hp.
  { exists p, sent, n, pos. cbn. split_and!; auto with lia. }
  cbn in Hj. subst j. cbn [fold_left fst snd].
  destruct (bg_step_running p sent n pos wake w Hr Hp) as (p1 & s1 & n1 & pos1 & Hr1 & Hc & Hp1 & Hw).
  rewrite <- Hc in Hp1. destruct (IH _ _ _ _ _ Hr1 Hp1) as (p' & s' & n' & pos' & Hr' & Hp' & Hl).
  rewrite Hc in Hp'. exists p', s', n', pos'. split_and!; auto.
  intros Hall. inversion Hall; subst. cbn in *. specialize (Hl ltac:(done)). specialize (Hw ltac:(done)). lia.
Qed.

End Traffic.

(** An undisturbed background thread puts exactly the documented
    traffic on the wire: at every moment what it has sent lies between the
    packets of [n] and of [n + 1] complete cycles, where every cycle is one
    live exchange, preceded in every [bad_crc_period]-th cycle by the
    bad-CRC packet; and with a sleep that ends it completes a cycle every
    four steps. *)
Theorem injector_cadence i id live sched w :
  Forall (fun s => s.1 = i) sched ->
  threads w !! i = Some (Check 0) -> stop_set w = false -> isock w = Some id ->
  id ∈ open_socks w -> (forall n, send_err w n = None) -> 0 < bad_crc_period (cfg w) ->
  _build_live_exchange (cfg w) = Ok live ->
  exists n sent, wire (bg_steps sched w) = wire w ++ sent /\
    pattern (cfg w) live n `prefix_of` sent /\ sent `prefix_of` pattern (cfg w) live (S n) /\
    (Forall (fun s => s.2 = true) sched -> (length sched < 4 * S n)%nat).
Proof.
  intros Hi H1 H2 H3 H4 H5 H6 H7.
  destruct (bg_steps_running i id live (wire w) sched (Check 0) [] 0 0 w Hi) as
    (p & sent & n & pos & [] & Hp & Hl); [split; rewrite ?app_nil_r; auto|by cbn|].
  exists n, sent. split; [done|]. rewrite pattern_S.
  assert (pattern (cfg w) live n `prefix_of` sent /\
    sent `prefix_of` pattern (cfg w) live n ++ cycle_packets (cfg w) live (Z.of_nat n + 1) /\
    (pos < 4 * S n)%nat) as (Hp1 & Hp2 & Hpos).
  { destruct p as [|c|c|c|c|]; cbn [progress] in Hp; try done.
    - destruct Hp as (-> & -> & ->). split_and!; [done|by apply prefix_app_r|lia].
    - destruct Hp as (-> & -> & -> & _). split_and!; [done|by apply prefix_app_r|lia].
    - destruct Hp as (-> & -> & Hs). unfold cycle_packets in Hs. rewrite app_assoc in Hs.
      apply app_inj_2 in Hs as [-> _]; [|done]. unfold cycle_packets. rewrite app_assoc.
      split_and!; [by apply prefix_app_r|by apply prefix_app_r|lia].
    - destruct Hp as (-> & -> & ->). split_and!; [by apply prefix_app_r|done|lia]. }
  split_and!; [done..|]. intros Hall%Hl. lia.
Qed.

Lemma injector_cadence_witness :
  let nothing := fun _ : nat => @None exn in
  let w := (start (injector_init (default_config 1) nothing nothing nothing nothing)).2 in
  let live := match _build_live_exchange (default_config 1) with Ok l => l | _ => [] end in
  exists n sent, wire (bg_steps (replicate 24 (0%nat, true)) w) = wire w ++ sent /\
    pattern (default_config 1) live n `prefix_of` sent /\ (24 < 4 * S n)%nat.
Proof.
  intros nothing w live.
  destruct (injector_cadence 0 0 live (replicate 24 (0%nat, true)) w) as (n & sent & H1 & H2 & _ & H4).
  - by apply Forall_replicate.
  - vm_compute. reflexivity.
  - vm_compute. reflexivity.
  - vm_compute. reflexivity.
  - apply (bool_decide_eq_true_1 (0%nat ∈ open_socks w)). vm_compute. reflexivity.
  - intros n. vm_compute. reflexivity.
  - vm_compute. reflexivity.
  - vm_compute. reflexivity.
  - exists n, sent. split; [exact H1|]. split.
    + assert (cfg w = default_config 1) as Hc by (vm_compute; reflexivity). by rewrite Hc in H2.
    + apply H4. by apply Forall_replicate.
Defined.
