(* ===== verification/TreeLock.v ===== *)
(** * The working-tree lock: api_tests/tree_lock.py

    The kernel is modelled by what the lock relies on: which inode the lock
    path names, the contents of the inodes, the open file descriptions and
    which of them holds the flock of an inode ([flock] conflicts between
    descriptions, closing one releases it).  The functions of the module run
    system calls of this kernel in their order; the step relation of
    [TreeLockSystem] adds the other processes, process death and a lock file
    that is deleted or replaced under a holder.

    Texts with a timestamp or a pid are parameters of the process context.
    Writes to the lock file are assumed to succeed. *)

From Stdlib Require Import ZArith Lia Ascii String.
From stdpp Require Import base list gmap strings.
From S2P Require Import Prelude PyStr QemuPorts.

Open Scope Z_scope.

Record kernel := Kernel {
  on_disk : option nat;              (* the inode LOCK_PATH names *)
  contents : gmap nat string;
  flocks : gmap nat nat;             (* inode -> description that locks it *)
  fds : gmap nat (nat * Z);          (* description -> inode, owning pid *)
  next_ino : nat;
  next_fd : nat;
  kill0 : Z -> option exn            (* outcome of os.kill(pid, 0) *)
}.

(** The process that runs the code: its pid, environment, platform and the
    texts it interpolates. *)
Record process := Process {
  getpid : Z;
  penv : environ;
  has_fcntl : bool;
  slot_description : string;
  started : string
}.

Section Paths.
Context (project_root lock_path : string).

(** ** System calls *)

Definition sys_open (create : bool) (p : process) : eff kernel nat := fun k =>
  let fd := next_fd k in
  let go ino disk cont nino :=
    (Ok fd, Kernel (Some disk) cont (flocks k) (<[fd := (ino, getpid p)]> (fds k)) nino (S fd) (kill0 k)) in
  match on_disk k with
  | Some ino => go ino ino (contents k) (next_ino k)
  | None =>
      if create then
        let ino := next_ino k in go ino ino (<[ino := ""]> (contents k)) (S ino)
      else (Raise FileNotFoundError, k)
  end.

(** [fcntl.flock(fd, LOCK_EX | LOCK_NB)] *)
Definition sys_flock (fd : nat) : eff kernel unit := fun k =>
  match fds k !! fd with
  | None => (Raise OSError, k)
  | Some (ino, _) =>
      match flocks k !! ino with
      | Some h => if decide (h = fd) then (Ok tt, k) else (Raise OSError, k)
      | None => (Ok tt, Kernel (on_disk k) (contents k) (<[ino := fd]> (flocks k)) (fds k)
                         (next_ino k) (next_fd k) (kill0 k))
      end
  end.

(** Drop the flock of [ino] if [fd] holds it. *)
Definition unlock (ino fd : nat) (fl : gmap nat nat) : gmap nat nat :=
  if decide (fl !! ino = Some fd) then delete ino fl else fl.

(** [fcntl.flock(fd, LOCK_UN)] *)
Definition sys_unlock (fd : nat) : eff kernel unit := fun k =>
  match fds k !! fd with
  | None => (Raise OSError, k)
  | Some (ino, _) =>
      (Ok tt, Kernel (on_disk k) (contents k) (unlock ino fd (flocks k)) (fds k)
                (next_ino k) (next_fd k) (kill0 k))
  end.

(** [close(fd)]: the last descriptor of a description releases its flock. *)
Definition sys_close (fd : nat) : eff kernel unit := fun k =>
  match fds k !! fd with
  | None => (Raise OSError, k)
  | Some (ino, _) =>
      (Ok tt, Kernel (on_disk k) (contents k) (unlock ino fd (flocks k)) (delete fd (fds k))
                (next_ino k) (next_fd k) (kill0 k))
  end.

(** [fh.seek(0); fh.truncate(); fh.write(text); fh.flush()] *)
Definition sys_rewrite (fd : nat) (text : string) : eff kernel unit := fun k =>
  match fds k !! fd with
  | None => (Raise ValueError, k)
  | Some (ino, _) =>
      (Ok tt, Kernel (on_disk k) (<[ino := text]> (contents k)) (flocks k) (fds k)
                (next_ino k) (next_fd k) (kill0 k))
  end.

(** ** The module's functions *)

(** [_slot_description]: from what [qemu_ports] resolves, or ["?"]. *)
Definition _slot_description (slot : outcome (Z * slot_source)) : string :=
  match slot with
  | Ok (s, src) => show_Z s +:+ " (from " +:+ source_name src +:+ ")"
  | _ => "?"
  end.

Definition newline : ascii := "010"%char.

Definition read_holder : eff kernel string := fun k =>
  (Ok (match on_disk k with
       | Some ino =>
           let line := strip (partition_at newline (default "" (contents k !! ino))).1 in
           if String.eqb line "" then "(holder has not written its identity yet)" else line
       | None => "(could not read the lock file)"
       end), k).

Definition busy_lines (holder strerror : string) (this_run : option string) : list string :=
  ["Another e2e run already owns this working tree (" +:+ strerror +:+ ").";
   "  Tree      : " +:+ project_root;
   "  Lock file : " +:+ lock_path;
   "  Held by   : " +:+ holder]
  ++ match this_run with
     | Some r => if String.eqb r "" then [] else ["  This run  : " +:+ r]
     | None => []
     end
  ++ ["  A distinct WB_MGE_PORT_SLOT does NOT make this safe: the slot only";
      "  separates host PORTS, while build/qemu_flash.bin, build/qemu_efuse.bin,";
      "  build/qemu_test.log and build/qemu_test_report.xml are per-TREE. Run the";
      "  second instance from its own checkout or `git worktree`, with its own slot."].

Definition lock_is_held_by_someone (p : process) : eff kernel bool :=
  if negb (has_fcntl p) then ret true
  else
    let* probe := try_except (let* fd := sys_open false p in ret (Some fd))
                    (catches OSError) (fun _ => ret None) in
    match probe with
    | None => ret false
    | Some fd =>
        try_finally
          (let* held := try_except (sys_flock fd ;;; ret false) (catches OSError) (fun _ => ret true) in
           if held : bool then ret true
           else sys_unlock fd ;;; ret false)
          (sys_close fd)
    end.

Definition INHERIT_ENV : string := "WB_MGE_E2E_TREE_LOCK".

(** [os.kill(pid, 0)]: whether the pid is alive, as the handlers decide. *)
Definition pid_alive (pid : Z) : eff kernel bool := fun k =>
  match kill0 k pid with
  | None => (Ok true, k)
  | Some e =>
      if catches ProcessLookupError e then (Ok false, k)
      else if catches PermissionError e then (Ok true, k)
      else if catches OSError e then (Ok false, k)
      else (Raise e, k)
  end.

Definition inherited_lock_holder (p : process) : eff kernel (option string) :=
  let raw := strip (env_get (penv p) INHERIT_ENV) in
  if String.eqb raw "" then ret None
  else
    let '(pid_str, path_str) := partition_at " " raw in
    if negb (String.eqb (strip path_str) lock_path) then ret None
    else match py_int_opt pid_str with
         | None => ret None
         | Some pid =>
             let* live := pid_alive pid in
             if negb live then ret None
             else
               let* holder := read_holder in
               if negb (startswith ("pid=" +:+ show_Z pid +:+ " ") holder) then ret None
               else
                 let* held := lock_is_held_by_someone p in
                 if negb held then ret None else ret (Some holder)
         end.

(** A [TreeLock] object. *)
Record tree_lock := TreeLock {
  fh : option nat;
  enforced : bool;
  inherited_holder : option string
}.

(** The identity line a holder writes. *)
Definition identity (p : process) : string :=
  "pid=" +:+ show_Z (getpid p) +:+ " slot=" +:+ slot_description p +:+ " " +:+
  "tree=" +:+ project_root +:+ " started=" +:+ started p +:+ String newline "".

Definition strerror : string := "Resource temporarily unavailable".

Definition acquire_self (p : process) : eff kernel tree_lock :=
  if negb (has_fcntl p) then ret (TreeLock None false None)
  else
    let* fd := sys_open true p in
    try_except (sys_flock fd) (catches OSError)
      (fun _ => let* holder := read_holder in
                sys_close fd ;;;
                raise (TreeLockBusy holder strerror)) ;;;
    sys_rewrite fd (identity p) ;;;
    ret (TreeLock (Some fd) true None).

Definition acquire (allow_inherited : bool) (p : process) : eff kernel tree_lock :=
  let* holder := if allow_inherited then inherited_lock_holder p else ret None in
  match holder with
  | Some h => ret (TreeLock None true (Some h))
  | None => acquire_self p
  end.

Inductive lock_problem : Type :=
| AncestorGone (holder : string)
| FileDisappeared
| FileReplaced (held on_disk : nat).

Definition verify_intact (l : tree_lock) (p : process) : eff kernel (option lock_problem) :=
  match inherited_holder l with
  | Some h =>
      let* again := inherited_lock_holder p in
      match again with
      | None => ret (Some (AncestorGone h))
      | Some _ => ret None
      end
  | None =>
      match fh l with
      | None => ret None
      | Some fd => fun k =>
          match on_disk k with
          | None => (Ok (Some FileDisappeared), k)
          | Some disk =>
              match fds k !! fd with
              | None => (Raise OSError, k)
              | Some (held, _) =>
                  if decide (disk = held) then (Ok None, k) else (Ok (Some (FileReplaced held disk)), k)
              end
          end
      end
  end.

(** The line [release] leaves behind. *)
Definition released_line (p : process) : string :=
  "(nobody holds this lock; last holder pid=" +:+ show_Z (getpid p) +:+ " " +:+
  "released=" +:+ started p +:+ ")" +:+ String newline "".

(** [release]: the object forgets its file first; both [except OSError] are
    around the whole rewrite and around the close. *)
Definition release (l : tree_lock) (p : process) : eff kernel tree_lock :=
  let l' := TreeLock None (enforced l) (inherited_holder l) in
  match fh l with
  | None => ret l'
  | Some fd =>
      try_except (sys_rewrite fd (released_line p)) (catches OSError) (fun _ => ret tt) ;;;
      try_except (sys_close fd) (catches OSError) (fun _ => ret tt) ;;;
      ret l'
  end.

Definition child_env (l : tree_lock) (p : process) : environ :=
  match fh l with
  | Some _ => <[INHERIT_ENV := show_Z (getpid p) +:+ " " +:+ lock_path]> (penv p)
  | None => penv p
  end.

(** ** The wrapper *)

(** GNU make's jobserver descriptors; [fstat fd] is the exception of
    [os.fstat], if any. *)
Definition jobserver_part (fstat : Z -> option exn) (part : string) : outcome (list Z) :=
  match py_int_opt part with
  | None => Ok []
  | Some fd =>
      match fstat fd with
      | None => Ok [fd]
      | Some e => if catches ValueError e || catches OSError e then Ok [] else Raise e
      end
  end.

Fixpoint concat_ok {A} (l : list (outcome (list A))) : outcome (list A) :=
  match l with
  | [] => Ok []
  | m :: l => let? a := m in let? b := concat_ok l in Ok (a ++ b)
  end.

Definition jobserver_word (fstat : Z -> option exn) (word prefix : string) : outcome (list Z) :=
  if negb (startswith prefix word) then Ok []
  else
    let spec := sdrop (String.length prefix) word in
    if startswith "fifo:" spec then Ok []
    else concat_ok (jobserver_part fstat <$> split_on "," spec).

Definition jobserver_fds (fstat : Z -> option exn) (env : environ) : outcome (list Z) :=
  concat_ok
    (split_ws (env_get env "MAKEFLAGS") ≫= fun word =>
       jobserver_word fstat word <$> ["--jobserver-fds="; "--jobserver-auth="]).

Definition INTERRUPTS_BEFORE_GIVING_UP : Z := 3.

(** What happens while the wrapper waits for its child. *)
Inductive child_event : Type :=
| Interrupted
| Exited (returncode : Z).

(** [proc.wait()] under [on_interrupt]: [inl] is the child's code, [inr] the
    number of interrupts when the handler raised [KeyboardInterrupt]. *)
Fixpoint wait_child (interrupts : Z) (events : list child_event) : outcome (Z + Z) :=
  match events with
  | [] => Blocked
  | Exited rc :: _ => Ok (inl rc)
  | Interrupted :: events =>
      let interrupts := interrupts + 1 in
      if INTERRUPTS_BEFORE_GIVING_UP - interrupts <=? 0 then Ok (inr interrupts)
      else wait_child interrupts events
  end.

(** [early] interrupts arrive before the child is started; [popen] and
    [reap] are the exceptions of starting it and of [kill]/[wait] after
    giving up. *)
Definition run_child_holding_lock (early : Z) (popen : option exn) (events : list child_event)
    (reap : option exn) : outcome Z :=
  if INTERRUPTS_BEFORE_GIVING_UP - early <=? 0 then Raise KeyboardInterrupt
  else match popen with
       | Some e => Raise e
       | None =>
           let? r := wait_child early events in
           match r with
           | inl returncode => Ok (if returncode <? 0 then 128 - returncode else returncode)
           | inr _ =>
               match reap with
               | Some e =>
                   if catches KeyboardInterrupt e || catches SubprocessError e || catches OSError e
                   then Ok 130 else Raise e
               | None => Ok 130
               end
           end
       end.

(** [main]: [child] is what [run_child_holding_lock] does, with what happens
    to the kernel while it waits. *)
Definition main (args : list string) (p : process) (child : eff kernel Z) : eff kernel Z :=
  let args := match args with "--" :: rest => rest | _ => args end in
  match args with
  | [] => ret 2
  | _ =>
      let* l := try_except (let* l := acquire true p in ret (Some l))
                  (fun e => match e with TreeLockBusy _ _ => true | _ => false end)
                  (fun _ => ret None) in
      match l with
      | None => ret 1
      | Some l =>
          try_finally
            (let* returncode := child in
             let* problem := verify_intact l p in
             match problem with
             | Some _ => ret (if returncode =? 0 then 1 else returncode)
             | None => ret returncode
             end)
            (release l p ;;; ret tt)
      end
  end.

End Paths.

(** ** Lemmas on the kernel *)

Record kernel_ok (k : kernel) : Prop := {
  k_flock : forall ino fd, flocks k !! ino = Some fd -> exists pid, fds k !! fd = Some (ino, pid);
  k_fds : forall fd ino pid, fds k !! fd = Some (ino, pid) -> (fd < next_fd k)%nat /\ (ino < next_ino k)%nat;
  k_disk : forall ino, on_disk k = Some ino -> (ino < next_ino k)%nat
}.

(** [k'] is [k] as every other description sees it: same file, same locks,
    same descriptions and contents of existing inodes. *)
Record unseen (k k' : kernel) : Prop := {
  u_flocks : flocks k' = flocks k;
  u_fds : fds k' = fds k;
  u_kill : kill0 k' = kill0 k;
  u_ino : (next_ino k <= next_ino k')%nat;
  u_fd : (next_fd k <= next_fd k')%nat;
  u_disk : on_disk k' = on_disk k;
  u_contents : contents k' = contents k
}.

Lemma unseen_refl k : unseen k k.
Proof. by split. Qed.

Lemma unlock_fresh ino fd fl : fl !! ino = None -> unlock ino fd (<[ino := fd]> fl) = fl.
Proof.
  intros H. unfold unlock. rewrite decide_True by apply lookup_insert_eq.
  by rewrite delete_insert_id.
Qed.

Lemma unlock_other ino fd fl : fl !! ino <> Some fd -> unlock ino fd fl = fl.
Proof. intros H. unfold unlock. by rewrite decide_False. Qed.

(** The probe leaves no trace, and answers whether the file is locked. *)
Lemma probe_spec p k :
  kernel_ok k -> has_fcntl p = true ->
  exists k', lock_is_held_by_someone p k =
    (Ok (match on_disk k with
         | Some ino => bool_decide (is_Some (flocks k !! ino))
         | None => false
         end), k') /\ unseen k k'.
Proof.
  intros [Hfl Hfd Hdk] Hp. unfold lock_is_held_by_someone. rewrite Hp. cbn [negb].
  unfold bind at 1, try_except at 1, sys_open. unfold bind at 1.
  destruct (on_disk k) as [ino|] eqn:Ed; [|eexists; split; [reflexivity|apply unseen_refl]].
  set (fd := next_fd k). unfold ret at 1, try_finally.
  assert (fds k !! fd = None) as Hfresh.
  { destruct (fds k !! fd) as [[i q]|] eqn:E; [|done]. apply Hfd in E. unfold fd in E. lia. }
  unfold bind at 1, try_except, bind at 1, sys_flock. cbn [fds]. rewrite lookup_insert_eq.
  cbn [flocks]. destruct (flocks k !! ino) as [h|] eqn:Eh.
  - rewrite decide_False by (intros ->; apply Hfl in Eh as [q Eq]; congruence).
    change (catches OSError OSError) with true. cbv iota.
    unfold ret. cbv beta iota. unfold sys_close. cbn [fds]. rewrite lookup_insert_eq.
    eexists. split; [reflexivity|]. split; cbn; auto.
    + rewrite unlock_other; [done|]. intros E. apply Hfl in E as [q Eq]. congruence.
    + by rewrite delete_insert_id.
  - unfold ret, bind. cbv beta iota. unfold sys_unlock. cbn [fds]. rewrite lookup_insert_eq. cbn [flocks].
    unfold sys_close. cbn [fds flocks]. rewrite lookup_insert_eq, unlock_fresh by done.
    eexists. split; [reflexivity|]. split; cbn; auto.
    + apply unlock_other. by rewrite Eh.
    + by rewrite delete_insert_id.
Qed.

Section Laws.
Context (project_root lock_path : string).

(** The text [read_holder] returns. *)
Definition holder_text (k : kernel) : string :=
  match on_disk k with
  | Some ino =>
      let line := strip (partition_at newline (default "" (contents k !! ino))).1 in
      if String.eqb line "" then "(holder has not written its identity yet)" else line
  | None => "(could not read the lock file)"
  end.

Lemma pid_alive_world pid k : (pid_alive pid k).2 = k.
Proof. unfold pid_alive. repeat split_match; done. Qed.

(** An accepted marker was checked against the kernel: the lock file names
    the pid of the marker and some description holds its flock. *)
Lemma inherited_spec p k :
  kernel_ok k -> has_fcntl p = true ->
  let '(r, k') := inherited_lock_holder lock_path p k in
  unseen k k' /\ r <> Blocked /\
  forall h, r = Ok (Some h) ->
    h = holder_text k /\
    exists ino fd pid, on_disk k = Some ino /\ flocks k !! ino = Some fd /\
      startswith ("pid=" +:+ show_Z pid +:+ " ") h = true.
Proof.
  intros Hk Hp. unfold inherited_lock_holder.
  destruct (String.eqb _ ""); [by split_and!; [apply unseen_refl|..]|].
  destruct (partition_at _ _) as [pid_str path_str].
  destruct (negb _); [by split_and!; [apply unseen_refl|..]|].
  destruct (py_int_opt pid_str) as [pid|]; [|by split_and!; [apply unseen_refl|..]].
  unfold bind at 1. pose proof (pid_alive_world pid k) as Hw.
  destruct (pid_alive pid k) as [[live|e|] k1] eqn:Ep; cbn in Hw; subst k1;
    [|by split_and!; [apply unseen_refl|..]|by unfold pid_alive in Ep; repeat split_match_in Ep].
  destruct live; cbn [negb]; [|by split_and!; [apply unseen_refl|..]].
  unfold bind at 1, read_holder. fold (holder_text k).
  destruct (startswith _ (holder_text k)) eqn:Es; cbn [negb]; [|by split_and!; [apply unseen_refl|..]].
  unfold bind. destruct (probe_spec p k Hk Hp) as (k' & -> & Hu).
  destruct (on_disk k) as [ino|] eqn:Ed; [|by split_and!].
  case_bool_decide as Hf; cbn [negb]; [|by split_and!]. split_and!; [done..|].
  intros h [= <-]. split; [done|]. destruct Hf as [fd Hf]. eauto 10.
Qed.

(** Taking the lock: refused while the file on disk is locked, granted
    otherwise, with the identity line written. *)
Lemma acquire_self_spec p k :
  kernel_ok k -> has_fcntl p = true ->
  match on_disk k ≫= (fun ino => flocks k !! ino) with
  | Some _ => exists k', acquire_self project_root p k =
                (Raise (TreeLockBusy (holder_text k) strerror), k') /\ unseen k k'
  | None => let ino := default (next_ino k) (on_disk k) in
      exists nino, acquire_self project_root p k =
        (Ok (TreeLock (Some (next_fd k)) true None),
         Kernel (Some ino) (<[ino := identity project_root p]> (contents k)) (<[ino := next_fd k]> (flocks k))
           (<[next_fd k := (ino, getpid p)]> (fds k)) nino (S (next_fd k)) (kill0 k)) /\
        (next_ino k <= nino)%nat /\ (ino < nino)%nat
  end.
Proof.
  intros [Hfl Hfd Hdk] Hp.
  assert (fds k !! next_fd k = None) as Hfresh.
  { destruct (fds k !! next_fd k) as [[i q]|] eqn:E; [|done]. apply Hfd in E. lia. }
  destruct (on_disk k) as [ino|] eqn:Ed; cbn [mbind option_bind default];
    [destruct (flocks k !! ino) as [h|] eqn:Eh|];
    unfold acquire_self; rewrite Hp; cbn [negb]; unfold bind at 1, sys_open; rewrite Ed;
    unfold bind at 1, try_except, sys_flock; cbn [fds]; rewrite lookup_insert_eq; cbn [flocks].
  - rewrite Eh, decide_False by (intros ->; apply Hfl in Eh as [q Eq]; congruence).
    change (catches OSError OSError) with true. cbv iota. unfold bind, read_holder. cbn [on_disk contents].
    unfold sys_close. cbn [fds]. rewrite lookup_insert_eq. unfold raise.
    eexists. split; [unfold holder_text; by rewrite Ed|]. split; cbn; auto.
    + apply unlock_other. rewrite Eh. intros [= ->]. apply Hfl in Eh as [q Eq]. congruence.
    + by rewrite delete_insert_id.
  - rewrite Eh. unfold bind, sys_rewrite. cbn [fds]. rewrite lookup_insert_eq. unfold ret.
    eexists. split; [reflexivity|]. pose proof (Hdk ino eq_refl). cbn. lia.
  - assert (flocks k !! next_ino k = None) as ->.
    { destruct (flocks k !! next_ino k) as [h|] eqn:E; [|done].
      apply Hfl in E as [q Eq]. apply Hfd in Eq. lia. }
    unfold bind, sys_rewrite. cbn [fds]. rewrite lookup_insert_eq. unfold ret. cbn.
    rewrite insert_insert_eq. eexists. split; [reflexivity|]. lia.
Qed.

End Laws.
