(* ===== verification/TreeLockSystem.v ===== *)
(** * The tree lock among processes

    The processes of a host share the kernel of [TreeLock]; each holds at
    most one [TreeLock] object.  A step is one call of the module by some
    process, the death of a process, or an event outside the module: the
    lock file deleted or replaced, pids recycled.  The theorems hold in every
    reachable state, by induction on the steps. *)

From Stdlib Require Import ZArith Lia Ascii String.
From stdpp Require Import base list gmap strings.
From S2P Require Import Prelude PyStr QemuPorts TreeLock.

Open Scope Z_scope.

Section System.
Context (project_root lock_path : string).

Record system := System { kern : kernel; locks : gmap Z tree_lock }.

(** Everything closes when process [pid] ends, however it ends. *)
Definition reap (pid : Z) (k : kernel) : kernel :=
  let fds' := filter (fun e => e.2.2 <> pid) (fds k) in
  Kernel (on_disk k) (contents k) (filter (fun e => is_Some (fds' !! e.2)) (flocks k)) fds'
    (next_ino k) (next_fd k) (kill0 k).

Definition unlink (k : kernel) : kernel :=
  Kernel None (contents k) (flocks k) (fds k) (next_ino k) (next_fd k) (kill0 k).

Definition replace_file (text : string) (k : kernel) : kernel :=
  Kernel (Some (next_ino k)) (<[next_ino k := text]> (contents k)) (flocks k) (fds k)
    (S (next_ino k)) (next_fd k) (kill0 k).

Definition recycle (f : Z -> option exn) (k : kernel) : kernel :=
  Kernel (on_disk k) (contents k) (flocks k) (fds k) (next_ino k) (next_fd k) f.

Inductive sys_step : system -> system -> Prop :=
| step_acquire s p allow l k' :
    has_fcntl p = true -> locks s !! getpid p = None ->
    acquire project_root lock_path allow p (kern s) = (Ok l, k') ->
    sys_step s (System k' (<[getpid p := l]> (locks s)))
| step_refused s p allow e k' :
    has_fcntl p = true -> acquire project_root lock_path allow p (kern s) = (Raise e, k') ->
    sys_step s (System k' (locks s))
| step_verify s p l r k' :
    has_fcntl p = true -> locks s !! getpid p = Some l ->
    verify_intact lock_path l p (kern s) = (r, k') ->
    sys_step s (System k' (locks s))
| step_release s p l l' k' :
    locks s !! getpid p = Some l -> release l p (kern s) = (Ok l', k') ->
    sys_step s (System k' (<[getpid p := l']> (locks s)))
| step_exit s pid : sys_step s (System (reap pid (kern s)) (delete pid (locks s)))
| step_unlink s : sys_step s (System (unlink (kern s)) (locks s))
| step_replace s text : sys_step s (System (replace_file text (kern s)) (locks s))
| step_recycle s f : sys_step s (System (recycle f (kern s)) (locks s)).

(** A host without the lock file, or with any leftover one nobody holds. *)
Definition initial (s : system) : Prop :=
  kernel_ok (kern s) /\ flocks (kern s) = ∅ /\ locks s = ∅.

Inductive reachable : system -> Prop :=
| reach_init s : initial s -> reachable s
| reach_step s s' : reachable s -> sys_step s s' -> reachable s'.

(** A lock object with a file holds the flock of its inode, and that inode
    carries the line of its process. *)
Definition holds (k : kernel) (pid : Z) (l : tree_lock) : Prop :=
  forall fd, fh l = Some fd ->
  exists ino p, fds k !! fd = Some (ino, pid) /\ flocks k !! ino = Some fd /\
    contents k !! ino = Some (identity project_root p) /\ getpid p = pid.

Record sys_ok (s : system) : Prop := {
  s_kernel : kernel_ok (kern s);
  s_holds : forall pid l, locks s !! pid = Some l -> holds (kern s) pid l
}.

Lemma unseen_ok k k' m : unseen k k' -> sys_ok (System k m) -> sys_ok (System k' m).
Proof.
  intros [H1 H2 H3 H4 H5 H6 H7] [[Hfl Hfd Hdk] Hh]. cbn in *. split; cbn.
  - split; rewrite ?H1, ?H2, ?H6; auto.
    + intros fd ino pid E. destruct (Hfd _ _ _ E). lia.
    + intros ino E. specialize (Hdk _ E). lia.
  - intros pid l Hl fd Hf. rewrite H1, H2, H7. by apply (Hh pid l).
Qed.

Lemma insert_lock_ok k m pid l :
  holds k pid l -> sys_ok (System k m) -> sys_ok (System k (<[pid := l]> m)).
Proof.
  intros Hl [Hk Hh]. split; [done|]. cbn in *. intros q l'.
  destruct (decide (pid = q)) as [->|]; [rewrite lookup_insert_eq|rewrite lookup_insert_ne by done];
    [by intros [= <-]|apply Hh].
Qed.

Lemma acquire_ok s p allow r k' :
  sys_ok s -> has_fcntl p = true -> acquire project_root lock_path allow p (kern s) = (r, k') ->
  sys_ok (System k' (locks s)) /\
  match r with Ok l => holds k' (getpid p) l | _ => True end.
Proof.
  intros Hs Hp E. assert (kernel_ok (kern s)) as Hk by apply Hs.
  unfold acquire, bind in E.
  assert (exists o k1, (if allow then inherited_lock_holder lock_path p else ret None) (kern s) = (o, k1) /\
    unseen (kern s) k1) as (o & k1 & Ei & Hu).
  { destruct allow; [|eexists _, _; split; [done|apply unseen_refl]].
    pose proof (inherited_spec lock_path p (kern s) Hk Hp) as Hi.
    destruct (inherited_lock_holder lock_path p (kern s)) as [o k1]. eexists _, _. split; [done|apply Hi]. }
  rewrite Ei in E. assert (sys_ok (System k1 (locks s))) as Hs1 by (apply (unseen_ok _ _ _ Hu); by destruct s).
  destruct o as [[h|]|e|]; [by injection E as <- <-| |by injection E as <- <-|by injection E as <- <-].
  pose proof (acquire_self_spec project_root p k1 (s_kernel _ Hs1) Hp) as Ha.
  destruct (on_disk k1 ≫= (fun ino => flocks k1 !! ino)) as [h|] eqn:Ed.
  { destruct Ha as (k2 & Ea & Hu2). rewrite Ea in E. simplify_eq. split; [by eapply unseen_ok|done]. }
  destruct Ha as (nino & Ea & Hn1 & Hn2). rewrite Ea in E. simplify_eq.
  set (ino := default (next_ino k1) (on_disk k1)) in *.
  assert (flocks k1 !! ino = None) as Hnl.
  { destruct Hs1 as [[Hfl Hfd Hdk] _]. cbn in *. unfold ino. destruct (on_disk k1) as [i|]; cbn in *; [done|].
    destruct (flocks k1 !! next_ino k1) as [h|] eqn:E; [|done]. apply Hfl in E as [q Eq].
    apply Hfd in Eq. lia. }
  destruct Hs1 as [[Hfl Hfd Hdk] Hh]. cbn in *.
  assert (fds k1 !! next_fd k1 = None) as Hfresh.
  { destruct (fds k1 !! next_fd k1) as [[i q]|] eqn:E; [|done]. apply Hfd in E. lia. }
  split.
  - split; cbn.
    + split; cbn.
      * intros i fd. destruct (decide (ino = i)) as [<-|].
        -- rewrite lookup_insert_eq. intros [= <-]. rewrite lookup_insert_eq. eauto.
        -- rewrite lookup_insert_ne by done. intros [q Eq]%Hfl.
           rewrite lookup_insert_ne by congruence. eauto.
      * intros fd i q. destruct (decide (next_fd k1 = fd)) as [<-|].
        -- rewrite lookup_insert_eq. intros [= <- <-]. lia.
        -- rewrite lookup_insert_ne by done. intros E%Hfd. lia.
      * intros i [= <-]. done.
    + intros q l Hl fd Hf. destruct (Hh q l Hl fd Hf) as (i & p' & H1 & H2 & H3 & H4).
      exists i, p'. cbn. assert (ino <> i) by congruence.
      rewrite !lookup_insert_ne by congruence. done.
  - intros fd [= <-]. exists ino, p. cbn. by rewrite !lookup_insert_eq.
Qed.

Lemma verify_unseen l p k r k' :
  kernel_ok k -> has_fcntl p = true -> verify_intact lock_path l p k = (r, k') -> unseen k k'.
Proof.
  intros Hk Hp E. unfold verify_intact in E. destruct (inherited_holder l).
  - unfold bind, ret in E. pose proof (inherited_spec lock_path p k Hk Hp) as Hi.
    destruct (inherited_lock_holder lock_path p k) as [[[h|]|e|] k1]; simplify_eq; apply Hi.
  - unfold ret in E. destruct (fh l); [|simplify_eq; apply unseen_refl].
    repeat split_match_in E; simplify_eq; apply unseen_refl.
Qed.

Lemma release_ok s p l l' k' :
  sys_ok s -> locks s !! getpid p = Some l -> release l p (kern s) = (Ok l', k') ->
  sys_ok (System k' (<[getpid p := l']> (locks s))).
Proof.
  intros [[Hfl Hfd Hdk] Hh] Hl E. unfold release in E. destruct (fh l) as [fd|] eqn:Ef.
  2: { unfold ret in E. simplify_eq. apply insert_lock_ok; [by intros fd|]. by destruct s. }
  destruct (Hh _ _ Hl fd Ef) as (ino & q & H1 & H2 & H3 & H4).
  unfold bind, try_except, sys_rewrite, sys_close in E. rewrite H1 in E.
  cbn [fds flocks contents on_disk next_ino next_fd kill0] in E. rewrite H1 in E. unfold ret in E.
  injection E as <- <-. unfold unlock. rewrite decide_True by done. split; cbn.
  - split; cbn.
    + intros i f. destruct (decide (ino = i)) as [<-|].
      * by rewrite lookup_delete_eq.
      * rewrite lookup_delete_ne by done. intros [r Er]%Hfl.
        rewrite lookup_delete_ne by congruence. eauto.
    + intros f i r. destruct (decide (fd = f)) as [<-|].
      * by rewrite lookup_delete_eq.
      * rewrite lookup_delete_ne by done. apply Hfd.
    + apply Hdk.
  - intros r l2. destruct (decide (getpid p = r)) as [<-|].
    + rewrite lookup_insert_eq. intros [= <-] f. done.
    + rewrite lookup_insert_ne by done. intros Hl2 f Hf.
      destruct (Hh r l2 Hl2 f Hf) as (i & p' & G1 & G2 & G3 & G4). exists i, p'. cbn.
      assert (fd <> f) by congruence. assert (ino <> i) by congruence.
      rewrite !lookup_delete_ne, lookup_insert_ne by done. done.
Qed.

Lemma reap_ok s pid : sys_ok s -> sys_ok (System (reap pid (kern s)) (delete pid (locks s))).
Proof.
  intros [[Hfl Hfd Hdk] Hh]. split; cbn.
  - split; cbn; auto.
    + intros ino fd [H1 [[i q] H2]]%map_lookup_filter_Some. cbn in *.
      pose proof H2 as [H3 _]%map_lookup_filter_Some. destruct (Hfl _ _ H1) as [r Hr]. simplify_eq. eauto.
    + intros fd ino q [H _]%map_lookup_filter_Some. eauto.
  - intros q l Hl fd Hf. apply lookup_delete_Some in Hl as [Hne Hl].
    destruct (Hh q l Hl fd Hf) as (i & p' & G1 & G2 & G3 & G4). exists i, p'. cbn.
    assert (filter (fun e : nat * (nat * Z) => e.2.2 <> pid) (fds (kern s)) !! fd = Some (i, q)) as Hk
      by (by apply map_lookup_filter_Some).
    split_and!; [done| |done|done]. apply map_lookup_filter_Some. split; [done|]. cbn. by eexists.
Qed.

Lemma reachable_ok s : reachable s -> sys_ok s.
Proof.
  induction 1 as [s (Hk & Hf & Hl)|s s' _ IH Hst].
  { split; [done|]. intros pid l. by rewrite Hl. }
  destruct Hst as [s p allow l k' Hp Hn E|s p allow e k' Hp E|s p l r k' Hp Hl E|s p l l' k' Hl E|s pid
    |s|s text|s f].
  - destruct (acquire_ok _ _ _ _ _ IH Hp E) as [Hs Hh]. by apply insert_lock_ok.
  - by destruct (acquire_ok _ _ _ _ _ IH Hp E) as [Hs _].
  - apply (unseen_ok (kern s)); [by eapply verify_unseen, E; [apply IH|]|by destruct s].
  - by eapply release_ok.
  - by apply reap_ok.
  - destruct IH as [[Hfl Hfd Hdk] Hh]. split; [split; auto; done|apply Hh].
  - destruct IH as [[Hfl Hfd Hdk] Hh]. split; cbn.
    + split; cbn; auto. { intros fd ino pid Hi%Hfd. lia. } { intros ino [= <-]. lia. }
    + intros pid l Hl fd Hf. destruct (Hh pid l Hl fd Hf) as (i & p' & G1 & G2 & G3 & G4).
      exists i, p'. cbn. rewrite lookup_insert_ne; [done|]. apply Hfd in G1. lia.
  - destruct IH as [[Hfl Hfd Hdk] Hh]. split; [split; auto|apply Hh].
Qed.

(** C1. Mutual exclusion.  In every reachable state - whatever processes
    acquired, were refused, released or died, and whatever was done to the
    lock file - two processes that both took the flock themselves and whose
    [verify_intact] both report an intact barrier are one process. *)
Theorem tree_lock_mutual_exclusion s p1 p2 l1 l2 f1 f2 k1 k2 :
  reachable s ->
  locks s !! getpid p1 = Some l1 -> fh l1 = Some f1 -> inherited_holder l1 = None ->
  locks s !! getpid p2 = Some l2 -> fh l2 = Some f2 -> inherited_holder l2 = None ->
  verify_intact lock_path l1 p1 (kern s) = (Ok None, k1) ->
  verify_intact lock_path l2 p2 (kern s) = (Ok None, k2) ->
  getpid p1 = getpid p2.
Proof.
  intros Hr%reachable_ok L1 F1 I1 L2 F2 I2 V1 V2. destruct Hr as [Hk Hh].
  destruct (Hh _ _ L1 _ F1) as (i1 & q1 & A1 & B1 & _). destruct (Hh _ _ L2 _ F2) as (i2 & q2 & A2 & B2 & _).
  unfold verify_intact in V1, V2. rewrite I1, F1 in V1. rewrite I2, F2 in V2.
  destruct (on_disk (kern s)) as [d|]; [|done]. rewrite A1 in V1. rewrite A2 in V2.
  destruct (decide (d = i1)), (decide (d = i2)); simplify_eq. done.
Qed.

(** An intact lock is a barrier: while a holder's [verify_intact]
    reports no problem, every other attempt to take the lock itself is
    refused, the refusal names the holder's own identity line, and the
    attempt leaves the file and every lock untouched. *)
Theorem intact_lock_refuses s p l fd k q :
  reachable s ->
  locks s !! getpid p = Some l -> fh l = Some fd -> inherited_holder l = None ->
  verify_intact lock_path l p (kern s) = (Ok None, k) ->
  has_fcntl q = true ->
  exists k' p', acquire project_root lock_path false q (kern s) =
      (Raise (TreeLockBusy (holder_text (kern s)) strerror), k') /\
    unseen (kern s) k' /\ getpid p' = getpid p /\
    exists ino, on_disk (kern s) = Some ino /\ flocks (kern s) !! ino = Some fd /\
      contents (kern s) !! ino = Some (identity project_root p').
Proof.
  intros Hr%reachable_ok L F I V Hq. destruct Hr as [Hk Hh].
  destruct (Hh _ _ L _ F) as (ino & p' & A & B & C & D).
  unfold verify_intact in V. rewrite I, F in V.
  destruct (on_disk (kern s)) as [d|] eqn:Ed; [|done]. rewrite A in V.
  destruct (decide (d = ino)) as [->|]; [|done].
  pose proof (acquire_self_spec project_root q (kern s) Hk Hq) as Ha. rewrite Ed in Ha.
  cbn [mbind option_bind] in Ha. rewrite B in Ha. destruct Ha as (k' & Ea & Hu).
  exists k', p'. unfold acquire, bind, ret. split_and!; [exact Ea|done|done|]. eauto.
Qed.

(** An inherited lock is never trusted on the strength of the marker:
    [acquire] accepts it, and [verify_intact] keeps reporting it intact,
    only while some description holds the flock of the file on disk; once
    the ancestor released it, died, or the file was deleted or replaced by an
    unlocked one, [verify_intact] says so. *)
Theorem inherited_lock_sound s p allow l k :
  reachable s -> has_fcntl p = true ->
  acquire project_root lock_path allow p (kern s) = (Ok l, k) -> inherited_holder l <> None ->
  (exists ino fd, on_disk (kern s) = Some ino /\ flocks (kern s) !! ino = Some fd) /\
  forall k2, kernel_ok k2 ->
    match on_disk k2 with Some ino => flocks k2 !! ino = None | None => True end ->
    forall r k3, verify_intact lock_path l p k2 = (r, k3) -> r <> Ok None.
Proof.
  intros Hr%reachable_ok Hp E Hi. assert (kernel_ok (kern s)) as Hk by apply Hr. split.
  - unfold acquire, bind in E. destruct allow; cycle 1.
    { unfold ret in E. unfold acquire_self in E. rewrite Hp in E. cbn [negb] in E.
      apply bind_ok in E as (? & ? & _ & E). apply bind_ok in E as (? & ? & _ & E).
      apply bind_ok in E as (? & ? & _ & E). unfold ret in E. by simplify_eq. }
    pose proof (inherited_spec lock_path p (kern s) Hk Hp) as Hs.
    destruct (inherited_lock_holder lock_path p (kern s)) as [[[h|]|e|] k1]; [| |done|done].
    + destruct Hs as (_ & _ & Hs). destruct (Hs h eq_refl) as (_ & ino & fd & _ & H1 & H2 & _). eauto.
    + unfold acquire_self in E. rewrite Hp in E. cbn [negb] in E.
      apply bind_ok in E as (? & ? & _ & E). apply bind_ok in E as (? & ? & _ & E).
      apply bind_ok in E as (? & ? & _ & E). unfold ret in E. by simplify_eq.
  - intros k2 Hk2 Hfree r k3 V. unfold verify_intact in V. destruct (inherited_holder l) as [h|]; [|done].
    unfold bind, ret in V. pose proof (inherited_spec lock_path p k2 Hk2 Hp) as Hs.
    destruct (inherited_lock_holder lock_path p k2) as [[[h'|]|e|] k4]; simplify_eq; [|done..].
    destruct Hs as (_ & _ & Hs). destruct (Hs h' eq_refl) as (_ & ino & fd & _ & H1 & H2 & _).
    rewrite H1 in Hfree. congruence.
Qed.

End System.

(** ** A concrete host *)

Definition demo_root : string := "/home/dev/wb-mge".
Definition demo_path : string := "/home/dev/wb-mge/.e2e-tree.lock".
Definition demo_runner : process := Process 100 ∅ true "0 (from default)" "2024-05-01 10:00:00".
Definition demo_child : process :=
  Process 101 {[ INHERIT_ENV := "100 /home/dev/wb-mge/.e2e-tree.lock" ]} true "0 (from default)" "2024-05-01 10:00:01".
Definition demo_kernel : kernel := Kernel None ∅ ∅ ∅ 0 0 (fun _ => None).
Definition demo_lock : tree_lock := TreeLock (Some 0%nat) true None.
Definition demo_held : kernel := (acquire demo_root demo_path true demo_runner demo_kernel).2.
Definition demo_system : system := System demo_held {[ 100 := demo_lock ]}.

Lemma demo_reachable : reachable demo_root demo_path demo_system.
Proof.
  apply (reach_step _ _ (System demo_kernel ∅)).
  - apply reach_init. split_and!; [split; done|done|done].
  - apply (step_acquire demo_root demo_path (System demo_kernel ∅) demo_runner true demo_lock demo_held);
      vm_compute; reflexivity.
Qed.

Lemma tree_lock_mutual_exclusion_witness :
  locks demo_system !! 100 = Some demo_lock /\ getpid demo_runner = getpid demo_runner.
Proof.
  split; [vm_compute; reflexivity|].
  apply (tree_lock_mutual_exclusion demo_root demo_path demo_system demo_runner demo_runner
    demo_lock demo_lock 0 0 demo_held demo_held demo_reachable); vm_compute; reflexivity.
Defined.

Lemma intact_lock_refuses_witness :
  exists k' p', acquire demo_root demo_path false demo_child (kern demo_system) =
      (Raise (TreeLockBusy (holder_text (kern demo_system)) strerror), k') /\
    getpid p' = 100.
Proof.
  destruct (intact_lock_refuses demo_root demo_path demo_system demo_runner demo_lock 0 demo_held demo_child
    demo_reachable) as (k' & p' & H & _ & Hp & _); [vm_compute; reflexivity..|].
  exists k', p'. split; [exact H|exact Hp].
Defined.

Lemma inherited_lock_sound_witness :
  exists l k, acquire demo_root demo_path true demo_child (kern demo_system) = (Ok l, k) /\
    inherited_holder l <> None /\
    forall r k3, verify_intact demo_path l demo_child (unlink (kern demo_system)) = (r, k3) -> r <> Ok None.
Proof.
  set (l := TreeLock None true (Some "pid=100 slot=0 (from default) tree=/home/dev/wb-mge started=2024-05-01 10:00:00")).
  destruct (acquire demo_root demo_path true demo_child (kern demo_system)) as [r k] eqn:E.
  assert (r = Ok l) as -> by (vm_compute in E; unfold l; congruence).
  exists l, k. split; [reflexivity|]. split; [discriminate|].
  apply (inherited_lock_sound demo_root demo_path demo_system demo_child true l k demo_reachable
    eq_refl E ltac:(discriminate)); [|exact I].
  assert (sys_ok demo_root demo_system) as [Hk _]
    by exact (reachable_ok demo_root demo_path demo_system demo_reachable).
  destruct Hk as [Hfl Hfd Hdk]. split; [exact Hfl|exact Hfd|discriminate].
Defined.

(** ** The wrapper *)

Section Wrapper.
Context (project_root lock_path : string).

Lemma acquire_shape allow p k l k' :
  has_fcntl p = true -> acquire project_root lock_path allow p k = (Ok l, k') ->
  fh l = None /\ inherited_holder l <> None \/ exists fd, fh l = Some fd /\ inherited_holder l = None.
Proof.
  intros Hp (h & k1 & _ & E)%bind_ok. destruct h; [unfold ret in E; simplify_eq; by left|].
  unfold acquire_self in E. rewrite Hp in E. cbn [negb] in E.
  apply bind_ok in E as (? & ? & _ & E). apply bind_ok in E as (? & ? & _ & E).
  apply bind_ok in E as (? & ? & _ & E). unfold ret in E. simplify_eq. right. eauto.
Qed.

Lemma release_closes l p k fd :
  fh l = Some fd -> is_Some (fds k !! fd) ->
  exists k', (release l p ;;; ret tt) k = (Ok tt, k') /\ fds k' !! fd = None.
Proof.
  intros Hf [[ino pid] Hfd]. unfold release. rewrite Hf.
  unfold bind, try_except, sys_rewrite, sys_close. rewrite Hfd.
  cbn [fds flocks contents on_disk next_ino next_fd kill0]. rewrite Hfd. unfold ret.
  eexists. split; [reflexivity|]. cbn. apply lookup_delete_eq.
Qed.

(** The wrapper's exit status cannot hide a lost lock: [main] returns 0
    only when it acquired the lock, the child returned 0 and the barrier was
    still intact afterwards; and whenever it took the flock itself, the
    descriptor is closed when it is done, whether the child returned or an
    exception is propagating. *)
Theorem main_exit_and_release args cmd rest p child k l k1 :
  has_fcntl p = true -> args = "--" :: cmd :: rest ->
  acquire project_root lock_path true p k = (Ok l, k1) ->
  let '(r, k') := main project_root lock_path args p child k in
  (r = Ok 0 -> exists k2 k3, child k1 = (Ok 0, k2) /\ verify_intact lock_path l p k2 = (Ok None, k3)) /\
  (forall fd, fh l = Some fd -> (child k1).1 <> Blocked -> is_Some (fds (child k1).2 !! fd) ->
     fds k' !! fd = None).
Proof.
  intros Hp -> Ha. unfold main. unfold bind at 1, try_except, bind at 1. rewrite Ha. unfold ret at 1.
  unfold try_finally. unfold bind at 1. destruct (child k1) as [[rc|e|] k2]; cbn [fst snd].
  - unfold bind at 1. destruct (verify_intact lock_path l p k2) as [v k3] eqn:Ev.
    assert (forall fd, fh l = Some fd -> k3 = k2 /\ v <> Blocked) as Hsame.
    { intros fd Hf. destruct (acquire_shape _ _ _ _ _ Hp Ha) as [[? _]|(fd' & _ & Hn)]; [congruence|].
      unfold verify_intact in Ev. rewrite Hn, Hf in Ev. repeat split_match_in Ev; by simplify_eq. }
    assert (forall fd, fh l = Some fd -> is_Some (fds k2 !! fd) ->
      exists k4, (release l p ;;; ret tt) k3 = (Ok tt, k4) /\ fds k4 !! fd = None) as Hrel.
    { intros fd Hf Hfd. rewrite (proj1 (Hsame fd Hf)). by apply release_closes. }
    set (R := (release l p ;;; ret tt)) in *. unfold ret.
    destruct v as [[pr|]|e|]; try destruct (R k3) as [[[]|e'|] k4] eqn:Er;
      (split; [intros [= H] || done
              |intros fd Hf _ Hfd; destruct (Hrel fd Hf Hfd) as (k5 & ? & ?); try congruence]).
    + destruct (Z.eqb_spec rc 0); [done|]. by subst.
    + subst. eauto.
    + by destruct (Hsame fd Hf).
  - destruct ((release l p ;;; ret tt) k2) as [[[]|e'|] k4] eqn:Er; (split; [done|]);
      intros fd Hf _ Hfd; destruct (release_closes l p k2 fd Hf Hfd) as (k5 & Hk5 & Hn); congruence.
  - split; [done|]. by intros fd _ [].
Qed.

End Wrapper.

Lemma main_exit_and_release_witness :
  let '(r, k') := main demo_root demo_path ["--"; "make"] demo_runner (ret 0) demo_kernel in
  r = Ok 0 /\ fds k' !! 0%nat = None.
Proof.
  pose proof (main_exit_and_release demo_root demo_path ["--"; "make"] "make" [] demo_runner (ret 0)
    demo_kernel demo_lock demo_held eq_refl eq_refl eq_refl) as H.
  destruct (main demo_root demo_path ["--"; "make"] demo_runner (ret 0) demo_kernel) as [r k'] eqn:E.
  split; [vm_compute in E; congruence|].
  apply H; [reflexivity|discriminate|vm_compute; eexists; reflexivity].
Defined.

(** Interrupts never cut the wait short by accident: the wrapper
    returns the child's own status (128 + signal for a child killed by a
    signal) if fewer than three interrupts arrive before the child exits,
    and gives up with 130 exactly at the third, even if killing the child
    then fails or is itself interrupted. *)
Theorem interrupts_before_giving_up n rc events reap_err :
  (forall e, reap_err = Some e -> catches KeyboardInterrupt e || catches SubprocessError e || catches OSError e = true) ->
  run_child_holding_lock 0 None (replicate n Interrupted ++ Exited rc :: events) reap_err =
  Ok (if decide (n < 3)%nat then (if rc <? 0 then 128 - rc else rc) else 130).
Proof.
  intros Hr. unfold run_child_holding_lock. cbn [Z.sub Z.opp Z.add Z.leb Z.compare].
  destruct n as [|[|[|n]]]; try done. rewrite decide_False by lia. cbn.
  destruct reap_err as [e|]; [|done]. by rewrite (Hr e eq_refl).
Qed.

Lemma interrupts_before_giving_up_witness :
  run_child_holding_lock 0 None (replicate 2 Interrupted ++ Exited (-2) :: []) (Some OSError) = Ok 130 /\
  run_child_holding_lock 0 None (replicate 4 Interrupted ++ Exited 0 :: []) (Some KeyboardInterrupt) = Ok 130.
Proof.
  split.
  - apply (interrupts_before_giving_up 2 (-2) [] (Some OSError)). intros e [= <-]. reflexivity.
  - apply (interrupts_before_giving_up 4 0 [] (Some KeyboardInterrupt)). intros e [= <-]. reflexivity.
Defined.

Lemma concat_ok_forall {A} (P : A -> Prop) l r :
  Forall (fun m => forall a, m = Ok a -> Forall P a) l -> concat_ok l = Ok r -> Forall P r.
Proof.
  intros Hl. revert r. induction Hl as [|m l Hm Hl IH]; intros r E; [by injection E as <-|].
  cbn [concat_ok] in E. apply obind_ok in E as (a & -> & E). apply obind_ok in E as (b & Eb & E).
  injection E as <-. apply Forall_app. auto.
Qed.

Lemma jobserver_fds_open fstat env l :
  jobserver_fds fstat env = Ok l -> Forall (fun fd => fstat fd = None) l.
Proof.
  unfold jobserver_fds. apply concat_ok_forall. apply Forall_bind, Forall_forall. intros word _.
  apply Forall_fmap, Forall_forall. intros prefix _. cbn. unfold jobserver_word.
  destruct (negb _); [by intros a [= <-]|]. destruct (startswith "fifo:" _); [by intros a [= <-]|].
  intros a. apply concat_ok_forall. apply Forall_fmap, Forall_forall. intros part _. cbn.
  unfold jobserver_part. intros fds. repeat split_match; intros; simplify_eq; auto.
Qed.

(** The jobserver descriptors handed to the child are always open ones
    (a closed one would make the exec fail), and the pair make advertises as
    [--jobserver-fds=R,W] or [--jobserver-auth=R,W] is passed on whole when
    both are open. *)
Theorem jobserver_fds_correct fstat env :
  (forall l, jobserver_fds fstat env = Ok l -> Forall (fun fd => fstat fd = None) l) /\
  (forall old r w, 0 <= r -> 0 <= w -> fstat r = None -> fstat w = None ->
     jobserver_fds fstat (<["MAKEFLAGS" := (if old : bool then "--jobserver-fds=" else "--jobserver-auth=")
                                            +:+ show_Z r +:+ "," +:+ show_Z w]> env) = Ok [r; w]).
Proof.
  split; [apply jobserver_fds_open|]. intros old r w Hr Hw Fr Fw. unfold jobserver_fds, env_get.
  rewrite lookup_insert_eq. cbn [default from_option id].
  set (spec := show_Z r +:+ "," +:+ show_Z w).
  assert (all_chars (fun c => negb (is_space c)) spec = true) as Hs.
  { unfold spec. rewrite !all_chars_app.
    assert (forall n, 0 <= n -> all_chars (fun c => negb (is_space c)) (show_Z n) = true) as Hn.
    { intros n Hn. eapply all_chars_impl; [|by apply show_Z_nonneg_digits]. by intros c ->%digit_not_space. }
    by rewrite !Hn. }
  assert (startswith "fifo:" spec = false) as Hfifo.
  { unfold spec. pose proof (show_Z_nonneg_digits r Hr) as Hd. pose proof (show_Z_nonempty r) as Hne.
    destruct (show_Z r) as [|c s]; [done|]. cbn [all_chars] in Hd. bool_to_prop.
    change (String c s +:+ "," +:+ show_Z w) with (String c (s +:+ "," +:+ show_Z w)).
    unfold startswith. cbn [String.prefix]. destruct (ascii_dec "f" c) as [<-|]; done. }
  assert (concat_ok (jobserver_part fstat <$> split_on "," spec) = Ok [r; w]) as Hparts.
  { unfold spec. change (show_Z r +:+ "," +:+ show_Z w) with (join "," [show_Z r; show_Z w]).
    rewrite split_on_join; [|done|repeat constructor; by apply no_char_show].
    unfold jobserver_part. cbn [fmap list_fmap concat_ok]. by rewrite !py_int_opt_show, Fr, Fw. }
  destruct old.
  - change (from_option id "" (Some ?x)) with x.
    rewrite split_ws_word; [|by rewrite all_chars_app, Hs|done].
    unfold mbind, list_bind. cbn [fmap list_fmap app].
    unfold jobserver_word at 1. rewrite startswith_app, sdrop_app, Hfifo, Hparts. cbn [negb].
    assert (jobserver_word fstat ("--jobserver-fds=" +:+ spec) "--jobserver-auth=" = Ok []) as -> by reflexivity.
    done.
  - change (from_option id "" (Some ?x)) with x.
    rewrite split_ws_word; [|by rewrite all_chars_app, Hs|done].
    unfold mbind, list_bind. cbn [fmap list_fmap app].
    assert (jobserver_word fstat ("--jobserver-auth=" +:+ spec) "--jobserver-fds=" = Ok []) as -> by reflexivity.
    unfold jobserver_word at 1. rewrite startswith_app, sdrop_app, Hfifo, Hparts. done.
Qed.
