(* ===== verification/SnifferPoll.v ===== *)
(** * Waiting for the sniffer status: api_tests/sniffer_helpers.py

    Time is rational.  The world holds the current time and what the outside
    does with it: every clock reading may be delayed by a scheduling pause
    ([jitter]), every status read costs [cost] seconds, every sleep may last
    [oversleep] longer than asked.  [answer n] is the reply to the n-th status
    read.  [rlog] records when each read started and the body it got. *)

From Stdlib Require Import ZArith QArith Qminmax Lqa Lia String.
From stdpp Require Import base list gmap strings.
From S2P Require Import Prelude PyBytes.

Open Scope Z_scope.

(** A status body: [Some b] is a JSON boolean, [None] any other value. *)
Definition body := gmap string (option bool).

Record sworld := SWorld {
  now : Q;
  clocks : nat;
  nreads : nat;
  nsleeps : nat;
  rlog : list (Q * body);
  jitter : nat -> Q;
  cost : nat -> Q;
  oversleep : nat -> Q;
  answer : nat -> outcome (Z * body)
}.

Definition at_time (t : Q) (c r s : nat) (l : list (Q * body)) (w : sworld) : sworld :=
  SWorld t c r s l (jitter w) (cost w) (oversleep w) (answer w).

(** [time.monotonic()] *)
Definition monotonic : eff sworld Q := fun w =>
  let t := (now w + jitter w (clocks w))%Q in
  (Ok t, at_time t (S (clocks w)) (nreads w) (nsleeps w) (rlog w) w).

(** [time.sleep(d)], [d > 0]: at least [d] seconds *)
Definition sleep (d : Q) : eff sworld unit := fun w =>
  (Ok tt, at_time (now w + d + oversleep w (nsleeps w)) (clocks w) (nreads w) (S (nsleeps w)) (rlog w) w).

Definition SNIFFER_STATUS_TIMEOUT_S : Q := 10.
Definition _REFERENCE_DEFECT_S : Q := 3 # 10.
Definition _SETTLE_ROUND_TRIPS : Q := 4.
Definition _SETTLE_FLOOR_S : Q := (2 * _REFERENCE_DEFECT_S)%Q.
Definition _SETTLE_CEILING_S : Q := 2.
Definition _SETTLE_MAX_READS : Z := 16.

Definition _read_sniffer_status : eff sworld body := fun w =>
  let t' := (now w + cost w (nreads w))%Q in
  match answer w (nreads w) with
  | Ok (status, b) =>
      let w' := at_time t' (clocks w) (S (nreads w)) (nsleeps w) (rlog w ++ [(now w, b)]) w in
      if status =? 200 then (Ok b, w') else (Raise AssertionError, w')
  | Raise e => (Raise e, at_time t' (clocks w) (S (nreads w)) (nsleeps w) (rlog w) w)
  | Blocked => (Blocked, w)
  end.

(** [body.get(k) is v] *)
Definition has (b : body) (kv : string * bool) : bool := bool_decide (b !! kv.1 = Some (Some kv.2)).

Definition _assert_state (b : body) (expected_state : list (string * bool)) : outcome unit :=
  if forallb (has b) expected_state then Ok tt else Raise AssertionError.

Definition _assert_sniffer_precondition (expected_state : list (string * bool)) : eff sworld body :=
  let* b := _read_sniffer_status in
  lift (_assert_state b expected_state) ;;; ret b.

(** [{**invariants, key: expected}]; the target replaces an invariant of the
    same name. *)
Definition settled_state (key : string) (expected : bool) (invariants : list (string * bool))
  : list (string * bool) :=
  List.filter (fun kv => negb (String.eqb kv.1 key)) invariants ++ [(key, expected)].

Definition budget_of (t_rtt_budget : Q) : Q := (SNIFFER_STATUS_TIMEOUT_S + 2 * t_rtt_budget)%Q.

(** The poll loop; it returns the fastest measured round trip. *)
Fixpoint poll_loop (fuel : nat) (key : string) (expected : bool) (invariants : list (string * bool))
    (t_start : Q) (b : body) (t_rtt t_rtt_budget : Q) : eff sworld (body * Q) :=
  if has b (key, expected) then ret (b, t_rtt)
  else match fuel with
       | O => block
       | S fuel =>
           let* t := monotonic in
           if Qle_bool (budget_of t_rtt_budget) (t - t_start) then raise AssertionError
           else
             let* t_read := monotonic in
             let* b := _read_sniffer_status in
             let* t_done := monotonic in
             let t_read_s := (t_done - t_read)%Q in
             lift (_assert_state b invariants) ;;;
             poll_loop fuel key expected invariants t_start b
               (Qmin t_rtt t_read_s) (Qmax t_rtt_budget t_read_s)
       end.

(** The settle window; [more] counts down the [_SETTLE_MAX_READS] reads. *)
Fixpoint settle_loop (more : nat) (settled : list (string * bool)) (window_s interval_s window_start : Q)
    (settle_reads : Z) : eff sworld body :=
  match more with
  | O => block
  | S more =>
      let next_read_at := (window_start + inject_Z settle_reads * interval_s)%Q in
      let* t := monotonic in
      let pause_s := (next_read_at - t)%Q in
      (if Qle_bool pause_s 0 then ret tt else sleep pause_s) ;;;
      let* read_started_at := monotonic in
      let* b := _read_sniffer_status in
      let settle_reads := settle_reads + 1 in
      lift (_assert_state b settled) ;;;
      if _SETTLE_MAX_READS <=? settle_reads then ret b
      else if Qle_bool window_s (read_started_at - window_start) then ret b
      else settle_loop more settled window_s interval_s window_start settle_reads
  end.

Definition window_of (t_rtt : Q) : Q :=
  Qmin (Qmax (_SETTLE_ROUND_TRIPS * t_rtt) _SETTLE_FLOOR_S) _SETTLE_CEILING_S.

Definition settle (key : string) (expected : bool) (invariants : list (string * bool)) (b : body) (t_rtt : Q)
  : eff sworld body :=
  let settled := settled_state key expected invariants in
  lift (_assert_state b settled) ;;;
  let window_s := window_of t_rtt in
  let interval_s := (window_s / inject_Z _SETTLE_MAX_READS)%Q in
  let* window_start := monotonic in
  settle_loop (Z.to_nat _SETTLE_MAX_READS) settled window_s interval_s window_start 0.

Definition _poll_sniffer_status (fuel : nat) (key : string) (expected : bool)
    (invariants : list (string * bool)) : eff sworld body :=
  let* t_start := monotonic in
  let* b := _read_sniffer_status in
  let* t_done := monotonic in
  let t_rtt := (t_done - t_start)%Q in
  let missing := List.filter (fun k => negb (bool_decide (is_Some (b !! k)))) (key :: invariants.*1) in
  (if negb (bool_decide (missing = [])) then raise AssertionError else ret tt) ;;;
  lift (_assert_state b invariants) ;;;
  let* r := poll_loop fuel key expected invariants t_start b t_rtt t_rtt in
  settle key expected invariants r.1 r.2.

(** ** Lemmas *)

(** Nothing in the world runs backwards. *)
Record sane (w : sworld) : Prop := {
  s_jitter : forall n, (0 <= jitter w n)%Q;
  s_cost : forall n, (0 <= cost w n)%Q;
  s_over : forall n, (0 <= oversleep w n)%Q
}.

(** [w'] is later than [w], in the same environment. *)
Record later (w w' : sworld) : Prop := {
  l_now : (now w <= now w')%Q;
  l_jitter : jitter w' = jitter w;
  l_cost : cost w' = cost w;
  l_over : oversleep w' = oversleep w;
  l_answer : answer w' = answer w
}.

Lemma later_refl w : later w w.
Proof. split; auto. apply Qle_refl. Qed.

Lemma later_trans w1 w2 w3 : later w1 w2 -> later w2 w3 -> later w1 w3.
Proof. intros [] []. split; try congruence. lra. Qed.

Lemma later_sane w w' : later w w' -> sane w -> sane w'.
Proof. intros [] []. split; congruence || (intros n; rewrite ?l_jitter0, ?l_cost0, ?l_over0; auto). Qed.

Lemma monotonic_spec w t w' :
  sane w -> monotonic w = (Ok t, w') ->
  later w w' /\ rlog w' = rlog w /\ now w' = t /\ (now w <= t)%Q.
Proof.
  intros [Hj _ _] [= <- <-]. specialize (Hj (clocks w)).
  split_and!; try done; [split; try done|]; cbn; lra.
Qed.

Lemma read_spec w r w' :
  sane w -> _read_sniffer_status w = (r, w') ->
  later w w' /\
  match r with Ok b => rlog w' = rlog w ++ [(now w, b)] | _ => True end.
Proof.
  intros [_ Hc _] E. unfold _read_sniffer_status in E. specialize (Hc (nreads w)).
  repeat split_match_in E; simplify_eq; (split; [split; try done; cbn; lra || done|done]).
Qed.

Lemma assert_state_ok b st : _assert_state b st = Ok tt -> forallb (has b) st = true.
Proof. unfold _assert_state. by destruct (forallb (has b) st). Qed.

Lemma lift_ok {W A} (m : outcome A) (w : W) a w' : lift m w = (Ok a, w') -> m = Ok a /\ w' = w.
Proof. unfold lift. by intros [= -> ->]. Qed.

(** Waiting until a paced read may start. *)
Lemma pace_spec (target : Q) w u w' :
  sane w ->
  bind monotonic (fun t => if Qle_bool (target - t) 0 then ret tt else sleep (target - t)) w = (Ok u, w') ->
  later w w' /\ rlog w' = rlog w /\ (target <= now w')%Q.
Proof.
  intros Hw (t & w1 & E1 & E2)%bind_ok. destruct (monotonic_spec _ _ _ Hw E1) as (L1 & R1 & N1 & _).
  pose proof (later_sane _ _ L1 Hw) as [_ _ Ho]. destruct (Qle_bool (target - t) 0) eqn:Eq.
  - injection E2 as _ <-. apply Qle_bool_iff in Eq. split_and!; auto. rewrite N1. lra.
  - unfold sleep in E2. injection E2 as _ <-. specialize (Ho (nsleeps w1)).
    assert (~ (target - t <= 0)%Q) as Hn by (intros Hq%Qle_bool_iff; congruence).
    split_and!; [|done|cbn; rewrite N1; lra].
    eapply later_trans; [done|]. split; try done. cbn. lra.
Qed.

Definition all_have (st : list (string * bool)) (l : list (Q * body)) : Prop :=
  Forall (fun e => forallb (has e.2) st = true) l.

(** The settle loop: read [i] starts no earlier than [i] intervals into the
    window, so the last one starts no earlier than 15/16 of it. *)
Lemma settle_loop_spec more st window_s interval_s ws i w b w' :
  sane w -> (inject_Z 16 * interval_s == window_s)%Q -> (0 <= interval_s)%Q ->
  0 <= i -> i + Z.of_nat more = 16 ->
  settle_loop more st window_s interval_s ws i w = (Ok b, w') ->
  exists log t, rlog w' = rlog w ++ log ++ [(t, b)] /\ i + zlen log < 16 /\
    all_have st (log ++ [(t, b)]) /\ (ws + inject_Z 15 * interval_s <= t)%Q.
Proof.
  intros Hw Hi Hpos. revert i w Hw. induction more as [|more IH]; intros i w Hw Hi0 Hsum E; [done|].
  cbn [settle_loop] in E.
  apply bind_ok in E as (t0 & w0 & E0 & E). apply bind_ok in E as (u & w1 & E1 & E).
  assert (bind monotonic (fun t => if Qle_bool (ws + inject_Z i * interval_s - t) 0 then ret tt
    else sleep (ws + inject_Z i * interval_s - t)) w = (Ok u, w1)) as Ep by (unfold bind; by rewrite E0).
  destruct (pace_spec _ _ _ _ Hw Ep) as (L1 & R1 & N1). pose proof (later_sane _ _ L1 Hw) as Hw1.
  apply bind_ok in E as (ts & w2 & E2 & E). destruct (monotonic_spec _ _ _ Hw1 E2) as (L2 & R2 & N2 & M2).
  pose proof (later_sane _ _ L2 Hw1) as Hw2.
  apply bind_ok in E as (b1 & w3 & E3 & E). destruct (read_spec _ _ _ Hw2 E3) as (L3 & R3).
  pose proof (later_sane _ _ L3 Hw2) as Hw3.
  apply bind_ok in E as (u2 & w4 & [Ha ->]%lift_ok & E). destruct u2. apply assert_state_ok in Ha.
  rewrite R2, R1, N2 in R3. unfold _SETTLE_MAX_READS in E.
  assert (inject_Z 15 * interval_s <= window_s)%Q as H15.
  { rewrite <- Hi. apply Qmult_le_compat_r; [|done]. rewrite <- Zle_Qle. lia. }
  assert (forall bb, ret b1 w3 = (Ok bb, w') -> (ws + inject_Z 15 * interval_s <= ts)%Q ->
    exists log t, rlog w' = rlog w ++ log ++ [(t, bb)] /\ i + zlen log < 16 /\
      all_have st (log ++ [(t, bb)]) /\ (ws + inject_Z 15 * interval_s <= t)%Q) as Hend.
  { intros bb [= <- <-] Ht. exists [], ts. unfold zlen. cbn. split_and!; [done|lia| |done].
    by repeat constructor. }
  destruct (16 <=? i + 1) eqn:E16; bool_to_prop.
  - apply Hend; [done|]. assert (i = 15) by lia. subst i. lra.
  - destruct (Qle_bool window_s (ts - ws)) eqn:Ew.
    + apply Qle_bool_iff in Ew. apply Hend; [done|]. lra.
    + destruct (IH (i + 1) w3 Hw3 ltac:(lia) ltac:(lia) E) as (log & t & Hr & Hn & Hall & Ht).
      exists ((ts, b1) :: log), t. split_and!; [|unfold zlen in *; cbn; lia|by constructor|done].
      rewrite Hr, R3, <- !app_assoc. done.
Qed.

Lemma window_bounds t : (_SETTLE_FLOOR_S <= window_of t <= _SETTLE_CEILING_S)%Q.
Proof.
  unfold window_of. split; [|apply Q.le_min_r].
  apply Q.min_glb; [apply Q.le_max_r|]. vm_compute. discriminate.
Qed.

(** The poll loop ends on a body with the target value; every body it read
    satisfies the invariants. *)
Lemma poll_loop_spec fuel key expected invs ts b tr tb w b' tr' w' :
  sane w -> poll_loop fuel key expected invs ts b tr tb w = (Ok (b', tr'), w') ->
  forallb (has b) invs = true ->
  later w w' /\ has b' (key, expected) = true /\ forallb (has b') invs = true /\
  exists log, rlog w' = rlog w ++ log /\ all_have invs log /\ Forall (fun e => (e.1 <= now w')%Q) log /\
    (log = [] /\ b' = b \/ exists t0, last log = Some (t0, b')).
Proof.
  revert b tr tb w. induction fuel as [|fuel IH]; intros b tr tb w Hw E Hb; cbn [poll_loop] in E;
    destruct (has b (key, expected)) eqn:Eh.
  - injection E as <- _ <-. split_and!; auto using later_refl. exists [].
    rewrite app_nil_r. split_and!; [done|constructor|constructor|by left].
  - done.
  - injection E as <- _ <-. split_and!; auto using later_refl. exists [].
    rewrite app_nil_r. split_and!; [done|constructor|constructor|by left].
  - apply bind_ok in E as (t & w1 & E1 & E). destruct (monotonic_spec _ _ _ Hw E1) as (L1 & R1 & N1 & _).
    pose proof (later_sane _ _ L1 Hw) as Hw1. destruct (Qle_bool _ _); [done|].
    apply bind_ok in E as (t2 & w2 & E2 & E). destruct (monotonic_spec _ _ _ Hw1 E2) as (L2 & R2 & N2 & _).
    pose proof (later_sane _ _ L2 Hw1) as Hw2.
    apply bind_ok in E as (b1 & w3 & E3 & E). destruct (read_spec _ _ _ Hw2 E3) as (L3 & R3).
    pose proof (later_sane _ _ L3 Hw2) as Hw3.
    apply bind_ok in E as (t4 & w4 & E4 & E). destruct (monotonic_spec _ _ _ Hw3 E4) as (L4 & R4 & N4 & _).
    pose proof (later_sane _ _ L4 Hw3) as Hw4.
    apply bind_ok in E as (u & w5 & [Ha ->]%lift_ok & E). destruct u. apply assert_state_ok in Ha.
    destruct (IH _ _ _ _ Hw4 E Ha) as (L5 & Ht & Hi & log & Hl & Hall & Hle & Hlast).
    pose proof (later_trans _ _ _ L1 (later_trans _ _ _ L2 (later_trans _ _ _ L3 (later_trans _ _ _ L4 L5)))) as L.
    split_and!; auto. exists ((now w2, b1) :: log). split_and!.
    + rewrite Hl, R4, R3, R2, R1, <- app_assoc. done.
    + by constructor.
    + constructor; [|done]. cbn. pose proof (l_now _ _ (later_trans _ _ _ L3 (later_trans _ _ _ L4 L5))). done.
    + right. destruct Hlast as [[-> ->]|[t0 Hlast]]; [by eexists|].
      exists t0. by rewrite last_cons, Hlast.
Qed.

(** What a successful wait has observed.  Whatever the reads cost and
    however the thread is delayed, [_poll_sniffer_status] returns only after
    a settle window in which every body showed the target value and the
    invariants, whose last read STARTED at least 9/16 s after the window
    opened - past the 0.3 s reference defect - using at most 16 reads; the
    window opened after a body with the target value had been read; and no
    body read while polling violated an invariant. *)
Theorem settle_window_covers_defect fuel key expected invs w b w' :
  sane w -> _poll_sniffer_status fuel key expected invs w = (Ok b, w') ->
  exists polls settled t ws t0 b0,
    rlog w' = rlog w ++ polls ++ settled ++ [(t, b)] /\
    last polls = Some (t0, b0) /\ has b0 (key, expected) = true /\
    Forall (fun e => (e.1 <= ws)%Q) polls /\ all_have invs polls /\
    all_have (settled_state key expected invs) (settled ++ [(t, b)]) /\
    zlen settled < 16 /\ (ws + (9 # 16) <= t)%Q /\ (_REFERENCE_DEFECT_S < 9 # 16)%Q.
Proof.
  intros Hw E. unfold _poll_sniffer_status in E.
  apply bind_ok in E as (ts & w1 & E1 & E). destruct (monotonic_spec _ _ _ Hw E1) as (L1 & R1 & N1 & _).
  pose proof (later_sane _ _ L1 Hw) as Hw1.
  apply bind_ok in E as (b1 & w2 & E2 & E). destruct (read_spec _ _ _ Hw1 E2) as (L2 & R2).
  pose proof (later_sane _ _ L2 Hw1) as Hw2.
  apply bind_ok in E as (td & w3 & E3 & E). destruct (monotonic_spec _ _ _ Hw2 E3) as (L3 & R3 & N3 & _).
  pose proof (later_sane _ _ L3 Hw2) as Hw3.
  apply bind_ok in E as (u & w4 & E4 & E). destruct (negb _); [done|]. injection E4 as _ <-.
  apply bind_ok in E as (u2 & w5 & [Ha ->]%lift_ok & E). destruct u2. apply assert_state_ok in Ha.
  apply bind_ok in E as ([b' tr] & w6 & E6 & E).
  destruct (poll_loop_spec _ _ _ _ _ _ _ _ _ _ _ _ Hw3 E6 Ha) as (L6 & Ht & Hi & log & Hl & Hall & Hle & Hlast).
  pose proof (later_sane _ _ L6 Hw3) as Hw6. unfold settle in E.
  apply bind_ok in E as (u3 & w7 & [_ ->]%lift_ok & E).
  apply bind_ok in E as (ws & w8 & E8 & E). destruct (monotonic_spec _ _ _ Hw6 E8) as (L8 & R8 & N8 & M8).
  pose proof (later_sane _ _ L8 Hw6) as Hw8. cbn [fst snd] in E.
  set (win := window_of tr) in *. pose proof (window_bounds tr) as [Hf _]. fold win in Hf.
  assert (inject_Z 16 * (win / inject_Z 16) == win)%Q as Hdiv by (field; discriminate).
  assert ((6 # 10) <= win)%Q as Hf' by (unfold _SETTLE_FLOOR_S, _REFERENCE_DEFECT_S in Hf; lra).
  assert (0 <= win / inject_Z 16)%Q as Hint.
  { change (inject_Z 16) with 16%Q in *. set (iv := (win / 16)%Q) in *. lra. }
  apply (settle_loop_spec _ _ _ _ _ _ _ _ _ Hw8 Hdiv Hint) in E as (slog & t & Hs & Hn & Hsall & Hst);
    [|lia|done].
  change _SETTLE_MAX_READS with 16 in *. change (inject_Z 16) with 16%Q in *. change (inject_Z 15) with 15%Q in *.
  exists ((now w1, b1) :: log), slog, t, ws.
  assert (exists t0, last ((now w1, b1) :: log) = Some (t0, b')) as [t0 Hl0].
  { destruct Hlast as [[-> ->]|[t0 Hlast]]; [by eexists|]. exists t0. by rewrite last_cons, Hlast. }
  exists t0, b'. split_and!; auto.
  - rewrite Hs, R8, Hl, R3, R2, R1, <- !app_assoc. done.
  - constructor.
    + cbn. rewrite <- N8. apply (l_now _ _ (later_trans _ _ _ L2 (later_trans _ _ _ L3 (later_trans _ _ _ L6 L8)))).
    + eapply Forall_impl; [exact Hle|]. intros e He. cbn in He. cbn. lra.
  - by constructor.
  - set (iv := (win / 16)%Q) in *. lra.
  - vm_compute. reflexivity.
Qed.

(** A device whose port 2 comes up on the third read, behind an 11 s stall. *)
Definition demo_world : sworld :=
  SWorld 0 0 0 0 [] (fun _ => 1 # 1000) (fun n => if (n =? 0)%nat then 11%Q else 15 # 100) (fun _ => 0%Q)
    (fun n => Ok (200, {[ "port_1" := Some true; "port_2" := Some (2 <=? n)%nat ]})).

Lemma settle_window_covers_defect_witness :
  exists b w', _poll_sniffer_status 9 "port_2" true [("port_1", true)] demo_world = (Ok b, w') /\
  exists polls settled t ws, rlog w' = polls ++ settled ++ [(t, b)] /\ (ws + (9 # 16) <= t)%Q.
Proof.
  destruct (_poll_sniffer_status 9 "port_2" true [("port_1", true)] demo_world) as [r w'] eqn:E.
  assert (exists b, r = Ok b) as [b ->].
  { apply (f_equal fst) in E. cbn [fst] in E. rewrite <- E. vm_compute. eexists. reflexivity. }
  exists b, w'. split; [reflexivity|].
  destruct (settle_window_covers_defect 9 "port_2" true [("port_1", true)] demo_world b w')
    as (polls & settled & t & ws & t0 & b0 & H & _ & _ & _ & _ & _ & _ & Ht & _).
  - split; intros n; cbn [demo_world jitter cost oversleep]; [|destruct (n =? 0)%nat|];
      vm_compute; discriminate.
  - exact E.
  - exists polls, settled, t, ws. split; [exact H|exact Ht].
Defined.

(** ** Slowness is not failure *)

Section Slow.
Context (bodies : nat -> body) (key : string) (expected : bool) (invs : list (string * bool)).

(** The device answers every read with status 200, never violates an
    invariant, and shows the target value from its second answer on. *)
Record behaves (w : sworld) : Prop := {
  b_sane : sane w;
  b_jitter : forall n, (jitter w n < SNIFFER_STATUS_TIMEOUT_S)%Q;
  b_answer : forall n, answer w n = Ok (200, bodies n);
  b_invs : forall n, forallb (has (bodies n)) invs = true;
  b_target : forall n, (1 <= n)%nat -> has (bodies n) (key, expected) = true
}.

Lemma later_behaves w w' : later w w' -> behaves w -> behaves w'.
Proof.
  intros L [Hs Hj Ha Hi Ht]. pose proof (later_sane _ _ L Hs). destruct L as [_ L1 _ _ L2].
  split; auto; intros n; rewrite ?L1, ?L2; auto.
Qed.

Lemma settled_holds n : (forall n, forallb (has (bodies n)) invs = true) ->
  has (bodies n) (key, expected) = true ->
  _assert_state (bodies n) (settled_state key expected invs) = Ok tt.
Proof.
  intros Hi Ht. unfold _assert_state, settled_state. rewrite forallb_app. cbn [forallb].
  rewrite Ht. cbn [andb]. rewrite andb_true_r. replace (forallb _ _) with true; [done|].
  symmetry. apply forallb_forall. intros kv [Hin _]%filter_In.
  by apply (proj1 (forallb_forall _ _) (Hi n)).
Qed.

Lemma read_good w :
  behaves w -> exists w', _read_sniffer_status w = (Ok (bodies (nreads w)), w') /\
    later w w' /\ nreads w' = S (nreads w).
Proof.
  intros [Hs Hj Ha Hi Ht]. destruct (_read_sniffer_status w) as [r w'] eqn:E.
  destruct (read_spec _ _ _ Hs E) as (L & _). unfold _read_sniffer_status in E. rewrite Ha in E.
  cbn in E. injection E as <- <-. eexists. split; [done|]. split; [exact L|done].
Qed.

Lemma settle_loop_good more window_s interval_s ws i w :
  behaves w -> (1 <= nreads w)%nat -> i + Z.of_nat more = 16 -> 0 <= i < 16 ->
  exists b w', settle_loop more (settled_state key expected invs) window_s interval_s ws i w = (Ok b, w').
Proof.
  revert i w. induction more as [|more IH]; intros i w Hw Hn Hsum Hi; [lia|]. cbn [settle_loop].
  set (target := (ws + inject_Z i * interval_s)%Q).
  assert (exists w1, (let* t := monotonic in
      if Qle_bool (target - t) 0 then ret tt else sleep (target - t)) w = (Ok tt, w1) /\
    nreads w1 = nreads w) as (w1 & E1 & N1).
  { unfold bind, monotonic. destruct (Qle_bool _ 0); eexists; split; reflexivity. }
  destruct (pace_spec _ _ _ _ (b_sane _ Hw) E1) as (L1 & _).
  pose proof (later_behaves _ _ L1 Hw) as Hw1.
  unfold bind at 1. unfold bind, monotonic in E1. cbn [monotonic]. unfold monotonic.
  unfold bind at 1. rewrite E1. unfold bind at 1.
  set (w2 := at_time _ _ _ _ _ w1).
  destruct (monotonic_spec w1 _ w2 (b_sane _ Hw1) eq_refl) as (L2 & _).
  pose proof (later_behaves _ _ L2 Hw1) as Hw2.
  unfold bind at 1. destruct (read_good w2 Hw2) as (w3 & -> & L3 & N3).
  assert (nreads w2 = nreads w) as N2 by (unfold w2; cbn; done). rewrite N2 in *.
  unfold bind, lift. rewrite settled_holds; [|apply Hw|apply Hw; lia].
  destruct (_SETTLE_MAX_READS <=? i + 1) eqn:E16; [eexists _, _; done|]. bool_to_prop.
  unfold _SETTLE_MAX_READS in *. destruct (Qle_bool window_s _); [eexists _, _; done|].
  apply IH; [by eapply later_behaves|lia|lia|lia].
Qed.

(** After the first read, at [t1], the loop never gives up before it has seen
    the target. *)
Lemma poll_loop_good fuel t0 w3 :
  behaves w3 -> nreads w3 = 1%nat -> (1 <= fuel)%nat -> (t0 <= now w3)%Q ->
  exists n tr w5,
    poll_loop fuel key expected invs t0 (bodies 0) (now w3 - t0) (now w3 - t0) w3 = (Ok (bodies n, tr), w5) /\
    later w3 w5 /\ (1 <= nreads w5)%nat /\ has (bodies n) (key, expected) = true.
Proof.
  intros Hw3 N3 Hf Hpos. destruct fuel as [|fuel]; [lia|]. cbn [poll_loop].
  destruct (has (bodies 0) (key, expected)) eqn:E0.
  { eexists 0%nat, _, _. split; [done|]. split_and!; [apply later_refl|lia|done]. }
  unfold bind at 1, monotonic at 1. set (w4 := at_time _ _ _ _ _ w3).
  destruct (monotonic_spec w3 _ w4 (b_sane _ Hw3) eq_refl) as (L4 & _).
  pose proof (later_behaves _ _ L4 Hw3) as Hw4.
  assert (Qle_bool (budget_of (now w3 - t0)) (now w3 + jitter w3 (clocks w3) - t0) = false) as ->.
  { destruct (Qle_bool _ _) eqn:Eq; [|done]. apply Qle_bool_iff in Eq.
    pose proof (b_jitter _ Hw3 (clocks w3)) as Hj. unfold budget_of in Eq. lra. }
  unfold bind at 1, monotonic at 1. set (w4' := at_time _ _ _ _ _ w4).
  destruct (monotonic_spec w4 _ w4' (b_sane _ Hw4) eq_refl) as (L4' & _).
  pose proof (later_behaves _ _ L4' Hw4) as Hw4'. unfold bind at 1.
  destruct (read_good w4' Hw4') as (w5 & -> & L5 & N5). change (nreads w4') with (nreads w3) in *. rewrite N3 in *.
  pose proof (later_behaves _ _ L5 Hw4') as Hw5. unfold bind at 1, monotonic at 1. set (w6 := at_time _ _ _ _ _ w5).
  destruct (monotonic_spec w5 _ w6 (b_sane _ Hw5) eq_refl) as (L6 & _).
  unfold bind, lift, _assert_state. rewrite (b_invs _ Hw3).
  assert (has (bodies 1) (key, expected) = true) as H1 by (apply Hw3; lia).
  eexists 1%nat, _, w6. split; [destruct fuel; cbn [poll_loop]; rewrite H1; reflexivity|].
  split_and!; [|change (nreads w6) with (nreads w5); lia|done].
  exact (later_trans _ _ _ L4 (later_trans _ _ _ L4' (later_trans _ _ _ L5 L6))).
Qed.

(** Slowness is never failure: if the device answers (however long each
    answer takes), keeps the invariants, and shows the target value from its
    second answer on, the poll succeeds - the budget always leaves room for
    the second read, because it follows the slowest read measured.  Only a
    scheduling pause of the client as long as the whole client timeout is
    excluded. *)
Theorem slow_device_passes fuel w :
  behaves w -> nreads w = 0%nat -> (1 <= fuel)%nat ->
  Forall (fun k => is_Some (bodies 0 !! k)) (key :: invs.*1) ->
  exists b w', _poll_sniffer_status fuel key expected invs w = (Ok b, w').
Proof.
  intros Hw Hn Hf Hkeys. unfold _poll_sniffer_status. unfold bind at 1. unfold monotonic at 1.
  set (t0 := (now w + jitter w (clocks w))%Q). set (w1 := at_time _ _ _ _ _ w).
  destruct (monotonic_spec w _ w1 (b_sane _ Hw) eq_refl) as (L1 & _).
  pose proof (later_behaves _ _ L1 Hw) as Hw1. unfold bind at 1.
  destruct (read_good w1 Hw1) as (w2 & -> & L2 & N2). change (nreads w1) with (nreads w) in *. rewrite Hn in *.
  pose proof (later_behaves _ _ L2 Hw1) as Hw2. unfold bind at 1. unfold monotonic at 1.
  set (t1 := (now w2 + jitter w2 (clocks w2))%Q). set (w3 := at_time _ _ _ _ _ w2).
  destruct (monotonic_spec w2 _ w3 (b_sane _ Hw2) eq_refl) as (L3 & _).
  pose proof (later_behaves _ _ L3 Hw2) as Hw3.
  assert (List.filter (fun k => negb (bool_decide (is_Some (bodies 0 !! k)))) (key :: invs.*1) = []) as ->.
  { clear -Hkeys. induction Hkeys as [|k l Hk Hl IH]; [done|]. cbn [List.filter].
    rewrite bool_decide_eq_true_2 by done. exact IH. }
  cbn [bool_decide]. unfold bind at 1. rewrite bool_decide_eq_true_2 by done. cbn [negb]. unfold ret at 1.
  unfold bind at 1.
  unfold lift at 1. unfold _assert_state at 1. rewrite (b_invs _ Hw).
  assert (t0 <= now w3)%Q as Hpos by exact (l_now _ _ (later_trans _ _ _ L2 L3)).
  change (t1 - t0)%Q with (now w3 - t0)%Q.
  destruct (poll_loop_good fuel t0 w3 Hw3 N2 Hf Hpos) as (n & tr & w5 & E5 & L5 & N5 & Hn5).
  unfold bind at 1. rewrite E5. cbn [fst snd]. unfold settle, bind at 1, lift at 1.
  rewrite settled_holds; [|apply Hw|done].
  pose proof (later_behaves _ _ L5 Hw3) as Hw5. unfold bind at 1, monotonic at 1. set (w6 := at_time _ _ _ _ _ w5).
  destruct (monotonic_spec w5 _ w6 (b_sane _ Hw5) eq_refl) as (L6 & _).
  apply settle_loop_good; [by eapply later_behaves|cbn; lia|done|lia].
Qed.

End Slow.

(** A device that takes 11 s per answer and shows the target late. *)
Definition demo_bodies (n : nat) : body := {[ "port_1" := Some true; "port_2" := Some (1 <=? n)%nat ]}.
Definition demo_slow : sworld :=
  SWorld 0 0 0 0 [] (fun _ => 1 # 1000) (fun _ => 11%Q) (fun _ => 0%Q) (fun n => Ok (200, demo_bodies n)).

Lemma slow_device_passes_witness :
  exists b w', _poll_sniffer_status 1 "port_2" true [("port_1", true)] demo_slow = (Ok b, w').
Proof.
  apply (slow_device_passes demo_bodies "port_2" true [("port_1", true)] 1 demo_slow).
  - split.
    + split; intros n; vm_compute; discriminate.
    + intros n. vm_compute. reflexivity.
    + intros n. reflexivity.
    + intros n. reflexivity.
    + intros [|n] Hn; [lia|]. reflexivity.
  - reflexivity.
  - lia.
  - repeat constructor; vm_compute; eexists; reflexivity.
Defined.
