(* ===== verification/SnifferWs.v ===== *)
(** * The sniffer WebSocket client: _ws_connect and _collect_packets
    (api_tests/sniffer_helpers.py)

    The [websocket] package is outside the sources: a connection is an id in
    the set of open ones, and the outcome of each of its calls is a parameter
    of the world. *)

From Stdlib Require Import ZArith QArith Lia String.
From stdpp Require Import base list gmap sets strings.
From S2P Require Import Prelude PyBytes PyStr.

Open Scope Z_scope.

Record ws_world := WsWorld {
  open_ws : gset nat;
  next_ws : nat;
  ws_connect_err : nat -> option exn;
  ws_close_err : nat -> option exn;
  ws_send_err : option exn
}.

Definition set_open (o : gset nat) (n : nat) (w : ws_world) : ws_world :=
  WsWorld o n (ws_connect_err w) (ws_close_err w) (ws_send_err w).

(** The URL of the endpoint: [parsed.port or 80]. *)
Definition ws_url (host : string) (port : option Z) : string :=
  let http_port := match port with Some p => if p =? 0 then 80 else p | None => 80 end in
  "ws://" +:+ host +:+ ":" +:+ show_Z http_port +:+ "/sniffer/ws".

(** [try: ws.close() except Exception: pass] *)
Definition close_quietly (id : nat) : eff ws_world unit := fun w =>
  let w' := set_open (open_ws w ∖ {[ id ]}) (next_ws w) w in
  match ws_close_err w id with
  | Some e => if catches Exception_ e then (Ok tt, w') else (Raise e, w')
  | None => (Ok tt, w')
  end.

(** [ws = websocket.WebSocket(); ws.connect(...)]: a failed handshake leaves
    nothing open on the device. *)
Definition handshake : eff ws_world nat := fun w =>
  let id := next_ws w in
  match ws_connect_err w id with
  | Some e => (Raise e, set_open (open_ws w) (S id) w)
  | None => (Ok id, set_open ({[ id ]} ∪ open_ws w) (S id) w)
  end.

(** The two attempts; [None] when both failed. *)
Fixpoint attempts (n : nat) : eff ws_world (option nat) :=
  match n with
  | O => ret None
  | S n => fun w =>
      let id := next_ws w in
      try_except (let* id := handshake in ret (Some id)) (catches Exception_)
        (fun _ => close_quietly id ;;; attempts n) w
  end.

Definition _ws_connect : eff ws_world nat :=
  let* ws := attempts 2 in
  match ws with
  | None => raise TimeoutError
  | Some id => fun w =>
      match ws_send_err w with
      | None => (Ok id, w)
      | Some e =>
          if catches Exception_ e then (close_quietly id ;;; raise e) w else (Raise e, w)
      end
  end.

(** The ping thread: one entry per iteration, whether the stop event is set
    and the exception of [ws.ping()]; the result is the number of pings. *)
Fixpoint ping_loop (script : list (bool * option exn)) : outcome Z :=
  match script with
  | [] => Blocked
  | (stop, ping) :: script =>
      if stop : bool then Ok 0
      else match ping with
           | Some e => if catches Exception_ e then Ok 0 else Raise e
           | None => omap_ok (Z.add 1) (ping_loop script)
           end
  end.

(** ** _collect_packets *)

Section Collect.
Context {P : Type} (loads : string -> outcome P) (filter_fn : P -> bool).

(** [inbox] is what the next [ws.recv()] calls meet; when it is exhausted
    they time out ([ws.settimeout(5)]). *)
Record inbox_world := InboxWorld { inbox : list (outcome string); iclock : nat -> Q; ireadings : nat }.

Definition imonotonic : eff inbox_world Q := fun w =>
  (Ok (iclock w (ireadings w)), InboxWorld (inbox w) (iclock w) (S (ireadings w))).

Definition ws_recv : eff inbox_world string := fun w =>
  match inbox w with
  | [] => (Raise WebSocketTimeoutException, w)
  | m :: q => (m, InboxWorld q (iclock w) (ireadings w))
  end.

Definition ignored (e : exn) : bool :=
  catches WebSocketTimeoutException e || catches WebSocketPayloadException e
  || catches WebSocketProtocolException e || catches JSONDecodeError e.

(** One pass of the [try]: the packets to append. *)
Definition take_packet : eff inbox_world (list P) :=
  try_except
    (let* msg := ws_recv in
     if String.eqb msg "" then ret []
     else
       let* pkt := lift (loads msg) in
       ret (if filter_fn pkt then [pkt] else []))
    ignored (fun _ => ret []).

Fixpoint collect_loop (fuel : nat) (min_count : Z) (deadline : Q) (packets : list P)
  : eff inbox_world (list P) :=
  match fuel with
  | O => block
  | S fuel =>
      let* now := imonotonic in
      if Qle_bool deadline now then ret packets
      else if min_count <=? zlen packets then ret packets
      else
        let* more := take_packet in
        collect_loop fuel min_count deadline (packets ++ more)
  end.

Definition _collect_packets (fuel : nat) (min_count : Z) (timeout_sec : Q) : eff inbox_world (list P) :=
  let* now := imonotonic in
  collect_loop fuel min_count (now + timeout_sec)%Q [].

(** The packets an inbox holds, in arrival order. *)
Definition packet_of (m : outcome string) : list P :=
  match m with
  | Ok msg =>
      if String.eqb msg "" then []
      else match loads msg with
           | Ok p => if filter_fn p then [p] else []
           | _ => []
           end
  | _ => []
  end.

(** A receive whose message, if any, the parser decides. *)
Definition readable (m : outcome string) : Prop :=
  match m with Ok s => loads s <> Blocked | Raise _ => True | Blocked => False end.

Lemma take_packet_spec w r w' :
  take_packet w = (r, w') -> r <> Blocked ->
  iclock w' = iclock w /\ ireadings w' = ireadings w /\
  match r with
  | Ok ps => exists m, inbox w = m ++ inbox w' /\ ps = m ≫= packet_of /\ (length ps <= 1)%nat
  | _ => True
  end.
Proof.
  unfold take_packet, try_except, bind, ws_recv, lift, ret. destruct (inbox w) as [|m q] eqn:Ei.
  { change (ignored WebSocketTimeoutException) with true. intros [= <- <-] _. rewrite Ei.
    split_and!; [done..|]. exists []. cbn. auto with lia. }
  destruct m as [msg|e|]; [|destruct (ignored e)|by intros [= <- <-]].
  - destruct (String.eqb msg "") eqn:Em.
    { intros [= <- <-] _. split_and!; [done..|]. exists [Ok msg]. cbn. rewrite Em. cbn. auto with lia. }
    destruct (loads msg) as [p|e|] eqn:El.
    + intros [= <- <-] _. split_and!; [done..|]. exists [Ok msg]. cbn. rewrite Em, El.
      destruct (filter_fn p); cbn; auto with lia.
    + destruct (ignored e); intros [= <- <-] _; [|done]. split_and!; [done..|]. exists [Ok msg].
      cbn. rewrite Em, El. cbn. auto with lia.
    + by intros [= <- <-].
  - intros [= <- <-] _. split_and!; [done..|]. exists [Raise e]. cbn. auto with lia.
  - intros [= <- <-] _. done.
Qed.

Lemma collect_loop_spec fuel min_count d ps w m :
  (forall i, (m <= i)%nat -> (d <= iclock w i)%Q) -> (m - ireadings w < fuel)%nat ->
  Forall readable (inbox w) -> zlen ps <= Z.max 0 min_count ->
  let '(r, w') := collect_loop fuel min_count d ps w in
  r <> Blocked /\
  forall qs, r = Ok qs -> zlen qs <= Z.max 0 min_count /\
    exists more, qs = ps ++ more /\ more `prefix_of` (inbox w ≫= packet_of).
Proof.
  intros Hm Hf Hin. revert ps w Hm Hf Hin. induction fuel as [|fuel IH]; intros ps w Hm Hf Hin Hps; [lia|].
  cbn [collect_loop]. unfold bind at 1, imonotonic.
  assert (forall qs : list P, Ok ps = Ok qs -> zlen qs <= Z.max 0 min_count /\
    exists more, qs = ps ++ more /\ more `prefix_of` (inbox w ≫= packet_of)) as Hdone.
  { intros qs [= <-]. split; [done|]. exists []. rewrite app_nil_r. split; [done|]. apply prefix_nil. }
  destruct (Qle_bool d _) eqn:Eq; [split; [done|apply Hdone]|].
  destruct (min_count <=? zlen ps) eqn:Em; [split; [done|apply Hdone]|]. bool_to_prop.
  assert (ireadings w < m)%nat as Hlt.
  { destruct (decide (ireadings w < m)%nat); [done|].
    assert (d <= iclock w (ireadings w))%Q as Hd%Qle_bool_iff by (apply Hm; lia). congruence. }
  set (w1 := InboxWorld (inbox w) (iclock w) (S (ireadings w))). unfold bind.
  destruct (take_packet w1) as [r w2] eqn:Et.
  assert (r <> Blocked) as Hr.
  { intros ->. unfold take_packet, try_except, bind, ws_recv, lift, ret in Et. cbn in Et.
    destruct (inbox w) as [|x q]; [change (ignored WebSocketTimeoutException) with true in Et; congruence|]. inversion Hin as [|? ? Hx]; subst.
    destruct x as [msg|e|]; [|destruct (ignored e); congruence|done].
    destruct (String.eqb msg ""); [congruence|]. cbn in Hx.
    destruct (loads msg) as [p|e|]; [congruence|destruct (ignored e); congruence|done]. }
  destruct (take_packet_spec _ _ _ Et Hr) as (Hc & Hn & Hr2).
  destruct r as [more|e|]; [|by split|done]. destruct Hr2 as (ms & Hi & -> & Hl). cbn in Hi, Hc, Hn.
  specialize (IH (ps ++ (ms ≫= packet_of)) w2).
  rewrite Hc, Hn in IH. specialize (IH Hm ltac:(lia)).
  rewrite Hi in Hin. apply Forall_app in Hin as [_ Hin2]. specialize (IH Hin2).
  assert (zlen (ps ++ (ms ≫= packet_of)) <= Z.max 0 min_count) as Hps2.
  { unfold zlen in *. rewrite length_app. lia. }
  specialize (IH Hps2). destruct (collect_loop fuel min_count d (ps ++ (ms ≫= packet_of)) w2) as [r3 w3].
  destruct IH as [Hb IH]. split; [done|]. intros qs Hq. destruct (IH qs Hq) as (Hz & more & -> & Hp).
  split; [done|]. exists ((ms ≫= packet_of) ++ more). rewrite app_assoc. split; [done|].
  rewrite Hi, bind_app. by apply prefix_app.
Qed.

End Collect.

Arguments InboxWorld : clear implicits.

(** [_collect_packets] ends once the clock passes its deadline, never
    returns more packets than were asked for, and returns exactly the first
    ones that arrived, parsed and passed the filter, in order: timeouts,
    malformed frames and rejected packets are skipped, nothing is
    duplicated, reordered or invented. *)
Theorem collect_packets_prefix {P} (loads : string -> outcome P) filter_fn fuel min_count timeout w m :
  (forall i, (m <= i)%nat -> (iclock w (ireadings w) + timeout <= iclock w i)%Q) ->
  (m - S (ireadings w) < fuel)%nat ->
  Forall (readable loads) (inbox w) ->
  let '(r, w') := _collect_packets loads filter_fn fuel min_count timeout w in
  r <> Blocked /\
  forall qs, r = Ok qs -> zlen qs <= Z.max 0 min_count /\
    qs `prefix_of` (inbox w ≫= packet_of loads filter_fn).
Proof.
  intros Hm Hf Hin. unfold _collect_packets, bind, imonotonic.
  pose proof (collect_loop_spec loads filter_fn fuel min_count (iclock w (ireadings w) + timeout)%Q []
    (InboxWorld (inbox w) (iclock w) (S (ireadings w))) m Hm Hf Hin ltac:(unfold zlen; cbn; lia)) as H.
  destruct (collect_loop _ _ _ _ _ _ _) as [r w']. destruct H as [Hb H]. split; [done|].
  intros qs Hq. destruct (H qs Hq) as (Hz & more & -> & Hp). split; done.
Qed.

Definition demo_loads (s : string) : outcome Z :=
  match py_int_opt s with Some z => Ok z | None => Raise JSONDecodeError end.

Lemma collect_packets_prefix_witness :
  let w := InboxWorld [Ok "12"; Raise WebSocketTimeoutException; Ok ""; Ok "x"; Ok "3"; Ok "47"; Ok "5"]
             (fun i => inject_Z (Z.of_nat i)) 0 in
  let '(r, w') := _collect_packets demo_loads (fun p => 4 <? p) 12 2 10 w in
  r = Ok [12; 47] /\ [12; 47] `prefix_of` (inbox w ≫= packet_of demo_loads (fun p => 4 <? p)).
Proof.
  intros w.
  pose proof (collect_packets_prefix demo_loads (fun p => 4 <? p) 12 2 10 w 10) as H.
  destruct (_collect_packets demo_loads (fun p => 4 <? p) 12 2 10 w) as [r w'] eqn:E.
  assert (r = Ok [12; 47]) as -> by (vm_compute in E; congruence).
  split; [reflexivity|]. destruct H as [_ H].
  - intros i Hi. change (inject_Z 0 + inject_Z 10 <= inject_Z (Z.of_nat i))%Q.
    rewrite <- inject_Z_plus, <- Zle_Qle. lia.
  - cbn. lia.
  - repeat constructor; vm_compute; discriminate.
  - destruct (H [12; 47] eq_refl) as [_ Hp]. exact Hp.
Defined.

(** ** _ws_connect leaks no connection *)

Definition ws_sane (w : ws_world) : Prop :=
  (forall n e, ws_connect_err w n = Some e -> catches Exception_ e = true) /\
  (forall n e, ws_close_err w n = Some e -> catches Exception_ e = true) /\
  (forall e, ws_send_err w = Some e -> catches Exception_ e = true) /\
  (forall id, id ∈ open_ws w -> (id < next_ws w)%nat).

Lemma close_quietly_spec id w :
  ws_sane w -> close_quietly id w = (Ok tt, set_open (open_ws w ∖ {[ id ]}) (next_ws w) w).
Proof.
  intros (_ & Hc & _). unfold close_quietly. destruct (ws_close_err w id) as [e|] eqn:E; [|done].
  by rewrite (Hc id e E).
Qed.

Lemma set_open_sane o n w :
  ws_sane w -> (forall id, id ∈ o -> (id < n)%nat) -> ws_sane (set_open o n w).
Proof. intros (H1 & H2 & H3 & _) Ho. by split_and!. Qed.

Lemma difference_fresh (o : gset nat) id : id ∉ o -> o ∖ {[ id ]} = o.
Proof. intros H. apply set_eq. intros j. rewrite elem_of_difference, elem_of_singleton. naive_solver. Qed.

Lemma attempts_spec n w :
  ws_sane w ->
  exists r w', attempts n w = (Ok r, w') /\ ws_sane w' /\
    match r with
    | Some id => (id ∉ open_ws w) /\ open_ws w' = {[ id ]} ∪ open_ws w
    | None => open_ws w' = open_ws w
    end.
Proof.
  revert w. induction n as [|n IH]; intros w Hw; [eexists _, _; by split_and!|].
  cbn [attempts]. unfold try_except, bind at 1, handshake. pose proof Hw as (Hco & _ & _ & Hlt).
  assert (next_ws w ∉ open_ws w) as Hfresh by (intros H%Hlt; lia).
  destruct (ws_connect_err w (next_ws w)) as [e|] eqn:E.
  - rewrite (Hco _ _ E). unfold bind. set (w1 := set_open (open_ws w) (S (next_ws w)) w).
    assert (ws_sane w1) as Hw1 by (apply set_open_sane; [done|]; intros id H%Hlt; lia).
    rewrite close_quietly_spec by done. cbn [open_ws w1 set_open]. rewrite difference_fresh by done.
    destruct (IH (set_open (open_ws w) (next_ws w1) w1)) as (r & w' & -> & Hs & Hr).
    { apply set_open_sane; [done|]. cbn. intros id H%Hlt. lia. }
    eexists _, _. split; [done|]. split; done.
  - unfold ret. eexists _, _. split; [done|]. split; [|done].
    apply set_open_sane; [done|]. intros id. rewrite elem_of_union, elem_of_singleton.
    intros [->|H%Hlt]; lia.
Qed.

Lemma ws_connect_spec w :
  ws_sane w ->
  exists r w', _ws_connect w = (r, w') /\ ws_sane w' /\
    match r with
    | Ok id => (id ∉ open_ws w) /\ open_ws w' = {[ id ]} ∪ open_ws w
    | Raise e => open_ws w' = open_ws w /\ catches Exception_ e = true
    | Blocked => False
    end.
Proof.
  intros Hw. unfold _ws_connect, bind at 1.
  destruct (attempts_spec 2 w Hw) as (r & w1 & -> & Hs & Hr). destruct r as [id|].
  - pose proof Hs as (_ & _ & Hse & Hlt). destruct (ws_send_err w1) as [e|] eqn:E.
    + rewrite (Hse e eq_refl). unfold bind. rewrite close_quietly_spec by done.
      eexists _, _. split; [done|]. split; [apply set_open_sane; [done|]; set_solver|].
      cbn. split; [|by apply Hse]. destruct Hr as [Hf ->].
      apply set_eq. intros j. rewrite elem_of_difference, elem_of_union, elem_of_singleton.
      destruct (decide (j = id)) as [->|]; naive_solver.
    + eexists _, _. split; [done|]. done.
  - eexists _, _. split; [done|]. done.
Qed.

(** Connection ids are never used twice. *)
Lemma attempts_new n w r w' :
  ws_sane w -> attempts n w = (r, w') ->
  (next_ws w <= next_ws w')%nat /\ forall id, r = Ok (Some id) -> (next_ws w <= id < next_ws w')%nat.
Proof.
  revert w. induction n as [|n IH]; intros w Hw; [by intros [= <- <-]|]. cbn [attempts].
  unfold try_except, bind at 1, handshake. pose proof Hw as (Hco & _ & _ & Hlt).
  destruct (ws_connect_err w (next_ws w)) as [e|] eqn:E.
  - rewrite (Hco _ _ E). unfold bind. set (w1 := set_open (open_ws w) (S (next_ws w)) w).
    assert (ws_sane w1) as Hw1 by (apply set_open_sane; [done|]; intros id H%Hlt; lia).
    rewrite close_quietly_spec by done. set (w2 := set_open _ _ w1).
    assert (ws_sane w2) as Hw2 by (apply set_open_sane; [done|]; cbn; intros id H; apply elem_of_difference in H as [H%Hlt _]; lia).
    intros H. destruct (IH w2 Hw2 H) as [H1 H2]. cbn in *. split; [lia|]. intros id Hid. specialize (H2 id Hid). lia.
  - unfold ret. intros [= <- <-]. cbn. split; [lia|]. intros id [= <-]. lia.
Qed.

Lemma ws_connect_new w r w' :
  ws_sane w -> _ws_connect w = (r, w') ->
  (next_ws w <= next_ws w')%nat /\ forall id, r = Ok id -> (next_ws w <= id < next_ws w')%nat.
Proof.
  intros Hw. unfold _ws_connect, bind at 1. destruct (attempts_spec 2 w Hw) as (x & w1 & E & Hs & _). rewrite E.
  destruct (attempts_new _ _ _ _ Hw E) as [H1 H2]. destruct x as [id|]; [|by intros [= <- <-]]. specialize (H2 id eq_refl).
  destruct (ws_send_err w1) as [e|]; [destruct (catches Exception_ e); unfold bind; rewrite ?close_quietly_spec by done|];
    intros [= <- <-]; cbn; (split; [lia|]); intros id' [= <-]; lia.
Qed.

(** [_ws_connect] either returns one newly opened connection, the only
    one it leaves open, or raises and leaves no connection of its own open,
    wherever the handshakes and the start command fail. *)
Theorem ws_connect_no_leak w :
  ws_sane w ->
  exists r w', _ws_connect w = (r, w') /\
    match r with
    | Ok id => (id ∉ open_ws w) /\ open_ws w' = {[ id ]} ∪ open_ws w
    | Raise e => open_ws w' = open_ws w /\ catches Exception_ e = true
    | Blocked => False
    end.
Proof. intros Hw. destruct (ws_connect_spec w Hw) as (r & w' & E & _ & H). by exists r, w'. Qed.

Lemma ws_connect_no_leak_witness :
  let w := WsWorld ∅ 0 (fun n => if (n =? 0)%nat then Some TimeoutError else None) (fun _ => Some OSError)
             (Some ConnectionError) in
  exists r w', _ws_connect w = (r, w') /\ r = Raise ConnectionError /\ open_ws w' = ∅.
Proof.
  intros w. destruct (ws_connect_no_leak w) as (r & w' & E & H).
  - split_and!; cbn.
    + intros [|n] e; cbn; intros [= <-]. reflexivity.
    + intros n e [= <-]. reflexivity.
    + intros e [= <-]. reflexivity.
    + intros id Hid. by apply not_elem_of_empty in Hid.
  - exists r, w'. split; [exact E|].
    assert (r = Raise ConnectionError) as -> by (vm_compute in E; congruence).
    split; [reflexivity|]. apply H.
Defined.
