(* ===== verification/IoBus.v ===== *)
(** * The virtual IO bus client: api_tests/io_bus_helpers.py

    A datagram is a list of bytes; [inbox] is what the next [recvfrom] calls
    meet ([None] is a receive timeout, also once the list is exhausted), and
    [sent] logs every datagram the client sent, in order.  The clock is an
    arbitrary function of the number of the reading; sleeping is a delay of
    the next reading. *)

From Stdlib Require Import ZArith QArith Lia Ascii String.
From stdpp Require Import base list gmap strings.
From S2P Require Import Prelude PyBytes PyStr.

Open Scope Z_scope.

Definition RECORD_LEN : nat := 5.
Definition SEP_INDEX : nat := 3.
Definition LEVEL_INDEX : nat := 4.

(** [chr(b)] for a byte, and its inverse. *)
Definition chr (b : Z) : ascii := ascii_of_nat (Z.to_nat b).
Definition ord (c : ascii) : Z := Z.of_nat (nat_of_ascii c).

(** [b.isdigit()] on bytes. *)
Definition bytes_isdigit (l : list Z) : bool :=
  negb (bool_decide (l = [])) && forallb (fun b => (48 <=? b) && (b <=? 57)) l.

Definition slash : Z := 47.
Definition nl : Z := 10.

Definition is_record_type (c : ascii) : bool :=
  Ascii.eqb c "E" || Ascii.eqb c "G" || Ascii.eqb c "D" || Ascii.eqb c "V".

Definition _parse (data : list Z) : option (string * Z) :=
  let data := if (length data =? RECORD_LEN + 1)%nat && bool_decide (slice RECORD_LEN (RECORD_LEN + 1) data = [nl])
              then take RECORD_LEN data else data in
  if negb (length data =? RECORD_LEN)%nat then None
  else if negb (bool_decide (slice SEP_INDEX (SEP_INDEX + 1) data = [slash])) then None
  else
    let type_char := chr (byte_at data 0) in
    if negb (is_record_type type_char) then None
    else if negb (bytes_isdigit (slice 1 3 data)) then None
    else
      let value_byte := slice LEVEL_INDEX (LEVEL_INDEX + 1) data in
      if (if Ascii.eqb type_char "V" then negb (bytes_isdigit value_byte)
          else negb (bool_decide (value_byte = [48] \/ value_byte = [49]))) then None
      else
        Some (String type_char (String (chr (byte_at data 1)) (String (chr (byte_at data 2)) "")),
              byte_at data LEVEL_INDEX - 48).

Record bus := Bus {
  state : gmap string Z;
  events : list (string * Z);
  violations : list (Z * Z);
  last_subscribe : Q;
  inbox : list (option (list Z));
  sent : list (list Z);
  bclock : nat -> Q;
  breadings : nat
}.

Definition press : list Z := [71; 51; 52; 47; 48].      (* b"G34/0" *)
Definition released : list Z := [71; 51; 52; 47; 49].   (* b"G34/1" *)

Definition bmonotonic : eff bus Q := fun w =>
  (Ok (bclock w (breadings w)),
   Bus (state w) (events w) (violations w) (last_subscribe w) (inbox w) (sent w) (bclock w) (S (breadings w))).

Definition sendto (data : list Z) : eff bus unit :=
  modify (fun w => Bus (state w) (events w) (violations w) (last_subscribe w) (inbox w)
                     (sent w ++ [data]) (bclock w) (breadings w)).

(** [self._sock.recvfrom(64)]; [None] is [socket.timeout]. *)
Definition recvfrom : eff bus (option (list Z)) := fun w =>
  match inbox w with
  | [] => (Ok None, w)
  | m :: q => (Ok (take 64 <$> m),
               Bus (state w) (events w) (violations w) (last_subscribe w) q (sent w) (bclock w) (breadings w))
  end.

Definition _subscribe : eff bus unit :=
  sendto released ;;;
  let* t := bmonotonic in
  modify (fun w => Bus (state w) (events w) (violations w) t (inbox w) (sent w) (bclock w) (breadings w)).

(** What [pump] does with a parsed record. *)
Definition absorb (r : string * Z) (w : bus) : bus :=
  let '(pin, value) := r in
  Bus (<[pin := value]> (state w)) (events w ++ [r])
    (match pin with
     | String "V" nn => violations w ++ [(default 0 (py_int_opt nn), value)]
     | _ => violations w
     end)
    (last_subscribe w) (inbox w) (sent w) (bclock w) (breadings w).

Definition SUBSCRIBE_INTERVAL_S : Q := 1.

Fixpoint pump_loop (fuel : nat) (deadline : Q) : eff bus unit :=
  match fuel with
  | O => block
  | S fuel =>
      let* t := bmonotonic in
      if Qle_bool deadline t then ret tt
      else
        let* t := bmonotonic in
        let* w := get in
        (if Qle_bool (t - last_subscribe w) SUBSCRIBE_INTERVAL_S then ret tt else _subscribe) ;;;
        let* m := recvfrom in
        match m with
        | None => pump_loop fuel deadline
        | Some data =>
            match _parse data with
            | None => pump_loop fuel deadline
            | Some r => modify (absorb r) ;;; pump_loop fuel deadline
            end
        end
  end.

Definition pump (fuel : nat) (duration : Q) : eff bus unit :=
  let* t := bmonotonic in pump_loop fuel (t + duration)%Q.

(** [__init__], with the clock and what will arrive. *)
Definition iobus_init (fuel : nat) : eff bus unit :=
  modify (fun w => Bus ∅ [] [] 0 (inbox w) (sent w) (bclock w) (breadings w)) ;;;
  _subscribe ;;; pump fuel 1.

Definition bus_get (pin : string) (w : bus) : option Z := state w !! pin.

Definition had_violation (w : bus) : bool := 0 <? zlen (violations w).

Definition at_level (pin : string) (level : Z) (w : bus) : bool := bool_decide (state w !! pin = Some level).

Fixpoint wait_loop (fuel : nat) (pin : string) (level : Z) (deadline : Q) : eff bus bool :=
  match fuel with
  | O => block
  | S fuel' =>
      let* t := bmonotonic in
      let* w := get in
      if Qle_bool deadline t then ret (at_level pin level w)
      else if at_level pin level w then ret true
      else pump fuel (3 # 10) ;;; wait_loop fuel' pin level deadline
  end.

Definition wait_for (fuel : nat) (pin : string) (level : Z) (timeout : Q) : eff bus bool :=
  let* t := bmonotonic in
  pump fuel (1 # 10) ;;; wait_loop fuel pin level (t + timeout)%Q.

Definition count_edges (fuel : nat) (pin : string) (duration : Q) : eff bus Z :=
  let* w := get in
  let start := length (events w) in
  pump fuel duration ;;;
  let* w := get in
  ret (zlen (List.filter (fun r => String.eqb r.1 pin) (drop start (events w)))).

Fixpoint hold_loop (fuel : nat) (deadline : Q) : eff bus unit :=
  match fuel with
  | O => block
  | S fuel =>
      let* t := bmonotonic in
      if Qle_bool deadline t then ret tt
      else sendto press ;;; hold_loop fuel deadline
  end.

Fixpoint confirm_loop (fuel : nat) (deadline : Q) : eff bus unit :=
  match fuel with
  | O => block
  | S fuel' =>
      let* t := bmonotonic in
      if Qle_bool deadline t then ret tt
      else
        pump fuel (1 # 10) ;;;
        let* w := get in
        if at_level "G34" 1 w then ret tt
        else sendto released ;;; confirm_loop fuel' deadline
  end.

Definition press_button (fuel : nat) (hold_s : Q) : eff bus Q :=
  sendto press ;;; sendto press ;;; sendto press ;;;
  let* t := bmonotonic in
  hold_loop fuel (t + hold_s)%Q ;;;
  let* release_at := bmonotonic in
  sendto released ;;; sendto released ;;; sendto released ;;;
  let* t := bmonotonic in
  confirm_loop fuel (t + 2)%Q ;;;
  ret release_at.

(** [send_raw(payload)] for bytes. *)
Definition send_raw (payload : list Z) : eff bus unit := sendto payload.

(** ** Records on the wire *)

(** The encoder the firmware side uses: type, two digits, slash, one digit. *)
Definition encode_record (t : ascii) (nn value : Z) : list Z :=
  [ord t; 48 + nn / 10; 48 + nn mod 10; slash; 48 + value].

Definition pin_name (t : ascii) (nn : Z) : string :=
  String t (String (digit_char (nn / 10)) (String (digit_char (nn mod 10)) "")).

Definition valid_record (t : ascii) (nn value : Z) : Prop :=
  is_record_type t = true /\ 0 <= nn < 100 /\
  (if Ascii.eqb t "V" then 0 <= value < 10 else value = 0 \/ value = 1).

Lemma chr_ord c : chr (ord c) = c.
Proof. unfold chr, ord. rewrite Nat2Z.id. apply ascii_nat_embedding. Qed.

Lemma ord_chr b : 0 <= b < 256 -> ord (chr b) = b.
Proof. intros Hb. unfold chr, ord. rewrite nat_ascii_embedding by lia. lia. Qed.

Lemma chr_digit d : 0 <= d < 10 -> chr (48 + d) = digit_char d.
Proof. intros Hd. unfold chr, digit_char. f_equal. lia. Qed.

Lemma isdigit_bytes l : bytes_isdigit l = true -> Forall (fun b => 48 <= b <= 57) l.
Proof.
  unfold bytes_isdigit. intros H. bool_to_prop. apply Forall_forall. intros b Hb.
  rewrite forallb_forall in H0. specialize (H0 b ltac:(by apply list_elem_of_In)). bool_to_prop. lia.
Qed.

Lemma digit_isdigit d : 0 <= d < 10 -> (48 <=? 48 + d) && (48 + d <=? 57) = true.
Proof. intros Hd. apply andb_true_iff. split; apply Z.leb_le; lia. Qed.

Lemma record_type_inv c : is_record_type c = true -> c = "E"%char \/ c = "G"%char \/ c = "D"%char \/ c = "V"%char.
Proof.
  unfold is_record_type. intros H. apply orb_true_iff in H as [H|H]; [|apply Ascii.eqb_eq in H; auto].
  apply orb_true_iff in H as [H|H]; [|apply Ascii.eqb_eq in H; auto].
  apply orb_true_iff in H as [H|H]; apply Ascii.eqb_eq in H; auto.
Qed.

(** Evaluate the positional accesses to a five-byte literal. *)
Ltac eval_record :=
  cbv zeta; change RECORD_LEN with 5%nat; change SEP_INDEX with 3%nat; change LEVEL_INDEX with 4%nat;
  cbn [length Nat.eqb Nat.add Nat.sub take drop andb negb];
  repeat match goal with
  | |- context [byte_at (?a :: ?l) 0%nat] => change (byte_at (a :: l) 0%nat) with a
  | |- context [byte_at (?a :: ?b :: ?l) 1%nat] => change (byte_at (a :: b :: l) 1%nat) with b
  | |- context [byte_at (?a :: ?b :: ?c :: ?l) 2%nat] => change (byte_at (a :: b :: c :: l) 2%nat) with c
  | |- context [byte_at (?a :: ?b :: ?c :: ?d :: ?e :: ?l) 4%nat] =>
      change (byte_at (a :: b :: c :: d :: e :: l) 4%nat) with e
  end.

(** The bare five-byte record. *)
Lemma parse_record t nn v :
  valid_record t nn v -> _parse (encode_record t nn v) = Some (pin_name t nn, v).
Proof.
  intros (Ht & Hn & Hv). assert (0 <= nn / 10 < 10 /\ 0 <= nn mod 10 < 10) as [Ha Hb].
  { pose proof (Z.mod_pos_bound nn 10). pose proof (Z.div_mod nn 10).
    split; [|lia]. split; [apply Z.div_pos; lia|apply Z.div_lt_upper_bound; lia]. }
  unfold _parse, encode_record, slice. eval_record.
  cbn [andb negb]. rewrite bool_decide_eq_true_2 by done. cbn [negb].
  rewrite chr_ord, Ht. cbn [negb].
  assert (bytes_isdigit [48 + nn / 10; 48 + nn mod 10] = true) as ->.
  { unfold bytes_isdigit. rewrite bool_decide_eq_false_2 by done. cbn [negb andb forallb].
    by rewrite !digit_isdigit. }
  cbn [negb]. rewrite !chr_digit by done. unfold pin_name.
  replace (48 + v - 48) with v by lia.
  destruct (Ascii.eqb t "V").
  - unfold bytes_isdigit. rewrite bool_decide_eq_false_2 by done. cbn [negb andb forallb].
    by rewrite digit_isdigit by lia.
  - rewrite bool_decide_eq_true_2; [done|]. destruct Hv as [-> | ->]; auto.
Qed.

Lemma parse_five a b c d e r :
  is_byte a -> _parse [a; b; c; d; e] = Some r ->
  exists t nn v, valid_record t nn v /\ r = (pin_name t nn, v) /\ [a; b; c; d; e] = encode_record t nn v.
Proof.
  intros Ha. unfold _parse, slice. eval_record. cbn [andb negb].
  case_bool_decide as Hd; cbn [negb]; [|done]. injection Hd as ->.
  destruct (is_record_type (chr a)) eqn:Et; cbn [negb]; [|done].
  destruct (bytes_isdigit [b; c]) eqn:Ed; cbn [negb]; [|done].
  apply isdigit_bytes in Ed. rewrite !Forall_cons in Ed. destruct Ed as (Hb & Hc & _).
  set (nn := 10 * (b - 48) + (c - 48)).
  assert (nn / 10 = b - 48 /\ nn mod 10 = c - 48) as [Hq Hm].
  { unfold nn. split; [symmetry; eapply Z.div_unique|symmetry; eapply Z.mod_unique]; [|reflexivity| |reflexivity]; lia. }
  assert (forall v, 0 <= v < 10 -> e = 48 + v ->
    (if Ascii.eqb (chr a) "V" then 0 <= v < 10 else v = 0 \/ v = 1) ->
    Some (String (chr a) (String (chr b) (String (chr c) "")), e - 48) = Some r ->
    exists t nn v, valid_record t nn v /\ r = (pin_name t nn, v) /\ [a; b; c; slash; e] = encode_record t nn v) as Hfin.
  { intros v Hv -> Hval [= <-]. exists (chr a), nn, v. split_and!.
    - split_and!; [done|unfold nn; lia|unfold nn; lia|done].
    - unfold pin_name. rewrite Hq, Hm, <- !chr_digit by lia. f_equal; [|lia].
      do 2 f_equal; [f_equal; lia|]. f_equal. f_equal. lia.
    - unfold encode_record. rewrite ord_chr by (unfold is_byte in Ha; lia). rewrite Hq, Hm.
      repeat f_equal; lia. }
  destruct (Ascii.eqb (chr a) "V") eqn:EV.
  - destruct (bytes_isdigit [e]) eqn:Ee; cbn [negb]; [|done].
    apply isdigit_bytes in Ee. rewrite Forall_cons in Ee. destruct Ee as (He & _).
    apply (Hfin (e - 48)); lia.
  - case_bool_decide as He; cbn [negb]; [|done].
    destruct He as [He|He]; injection He as ->; [apply (Hfin 0)|apply (Hfin 1)]; auto with lia.
Qed.

(** The record parser accepts exactly the records of the protocol: a
    type letter, two decimal digits, a slash and a level (any digit for a
    violation), with at most one trailing newline; and it returns the pin
    and value that were encoded. *)
Theorem parse_exact data r :
  bytes_ok data ->
  _parse data = Some r <->
  exists t nn v, valid_record t nn v /\ r = (pin_name t nn, v) /\
    (data = encode_record t nn v \/ data = encode_record t nn v ++ [nl]).
Proof.
  intros Hd. split.
  - intros E. destruct (decide (length data = 6%nat)) as [H6|H6].
    + destruct data as [|a [|b [|c [|d [|e [|f [|g data]]]]]]]; try discriminate H6.
      unfold _parse in E. cbn [length RECORD_LEN Nat.add Nat.eqb andb] in E.
      case_bool_decide as Hf; [|done]. unfold slice in Hf. cbn in Hf. injection Hf as ->.
      cbn [take] in E. rewrite !bytes_ok_cons in Hd. destruct Hd as [Ha _].
      destruct (parse_five a b c d e r Ha E) as (t & nn & v & Hv & -> & He).
      exists t, nn, v. split_and!; auto. right. by rewrite <- He.
    + assert (length data = 5%nat) as H5.
      { unfold _parse in E. change (RECORD_LEN + 1)%nat with 6%nat in E. change RECORD_LEN with 5%nat in E.
        rewrite (proj2 (Nat.eqb_neq _ _) H6) in E. cbn [andb] in E.
        destruct (length data =? 5)%nat eqn:E5; [by apply Nat.eqb_eq|done]. }
      destruct data as [|a [|b [|c [|d [|e [|f data]]]]]]; try discriminate H5.
      rewrite !bytes_ok_cons in Hd. destruct Hd as [Ha _].
      destruct (parse_five a b c d e r Ha E) as (t & nn & v & Hv & -> & He). exists t, nn, v. auto.
  - intros (t & nn & v & Hv & -> & [->| ->]); [by apply parse_record|].
    rewrite <- (parse_record t nn v Hv). unfold _parse at 1.
    change (length (encode_record t nn v ++ [nl])) with 6%nat. cbn [RECORD_LEN Nat.add Nat.eqb andb].
    rewrite bool_decide_eq_true_2 by done. reflexivity.
Qed.

Lemma parse_exact_witness :
  _parse [86; 49; 53; 47; 50; 10] = Some ("V15", 2) /\
  exists t nn v, valid_record t nn v /\ ("V15", 2) = (pin_name t nn, v).
Proof.
  split; [vm_compute; reflexivity|].
  destruct (proj1 (parse_exact [86; 49; 53; 47; 50; 10] ("V15", 2)
    ltac:(repeat constructor; vm_compute; congruence)) eq_refl) as (t & nn & v & Hv & E & _).
  exists t, nn, v. split; [exact Hv|exact E].
Defined.

(** ** What the client has seen *)

Definition record_of (m : option (list Z)) : list (string * Z) :=
  match m with
  | Some d => match _parse (take 64 d) with Some r => [r] | None => [] end
  | None => []
  end.

Definition violation_of (r : string * Z) : list (Z * Z) :=
  match r.1 with
  | String "V" nn => [(default 0 (py_int_opt nn), r.2)]
  | _ => []
  end.

Definition replay (evs : list (string * Z)) (m : gmap string Z) : gmap string Z :=
  fold_left (fun m e => <[e.1 := e.2]> m) evs m.

(** [w'] has consumed datagrams [ms] and absorbed exactly their records. *)
Definition seen (w w' : bus) : Prop :=
  exists ms, inbox w = ms ++ inbox w' /\
    events w' = events w ++ (ms ≫= record_of) /\
    state w' = replay (ms ≫= record_of) (state w) /\
    violations w' = violations w ++ ((ms ≫= record_of) ≫= violation_of).

Lemma seen_refl w : seen w w.
Proof. exists []. cbn. rewrite !app_nil_r. done. Qed.

Lemma seen_trans w1 w2 w3 : seen w1 w2 -> seen w2 w3 -> seen w1 w3.
Proof.
  intros (m1 & I1 & E1 & S1 & V1) (m2 & I2 & E2 & S2 & V2). exists (m1 ++ m2).
  rewrite !bind_app, I1, I2, E2, E1, S2, S1, V2, V1, <- !app_assoc. split_and!; try done.
  unfold replay. by rewrite fold_left_app.
Qed.

Definition sees {A} (m : eff bus A) : Prop := forall w, seen w (m w).2.

Lemma sees_ret {A} (a : A) : sees (ret a).
Proof. intros w. apply seen_refl. Qed.

Lemma sees_block {A} : sees (@block bus A).
Proof. intros w. apply seen_refl. Qed.

Lemma sees_get : sees (@get bus).
Proof. intros w. apply seen_refl. Qed.

Lemma sees_bind {A B} (m : eff bus A) (f : A -> eff bus B) :
  sees m -> (forall a, sees (f a)) -> sees (bind m f).
Proof.
  intros Hm Hf w. unfold bind. specialize (Hm w). destruct (m w) as [[a|e|] w1]; cbn in *; [|done..].
  eapply seen_trans; [done|apply Hf].
Qed.

Lemma sees_monotonic : sees bmonotonic.
Proof. intros w. exists []. cbn. rewrite !app_nil_r. done. Qed.

Lemma sees_sendto d : sees (sendto d).
Proof. intros w. exists []. cbn. rewrite !app_nil_r. done. Qed.

#[export] Hint Resolve sees_ret sees_block sees_get sees_bind sees_monotonic sees_sendto : wbmge.

Lemma sees_subscribe : sees _subscribe.
Proof.
  unfold _subscribe. apply sees_bind; [apply sees_sendto|intros _].
  apply sees_bind; [apply sees_monotonic|]. intros t w. exists []. cbn. rewrite !app_nil_r. done.
Qed.

(** Receiving and absorbing one datagram. *)
Lemma sees_receive {A} (j : eff bus A) :
  sees j ->
  sees (let* m := recvfrom in
        match m with
        | None => j
        | Some data => match _parse data with
                       | None => j
                       | Some r => modify (absorb r) ;;; j
                       end
        end).
Proof.
  intros Hj w. unfold bind at 1, recvfrom. destruct (inbox w) as [|m q] eqn:Ei; [apply Hj|].
  destruct m as [d|]; cbn [fmap option_fmap option_map].
  - destruct (_parse (take 64 d)) as [r|] eqn:Ep.
    + unfold bind, modify. eapply seen_trans; [|apply Hj].
      exists [Some d]. destruct r as [pin v]. rewrite Ei.
      unfold mbind, list_bind. cbn [record_of absorb inbox events state violations app]. rewrite Ep.
      cbn [app]. rewrite !app_nil_r. split_and!; try done.
      destruct pin as [|[[] [] [] [] [] [] [] []] nn]; cbn; rewrite ?app_nil_r; done.
    + eapply seen_trans; [|apply Hj]. exists [Some d]. rewrite Ei.
      unfold mbind, list_bind. cbn [record_of inbox events state violations app]. rewrite Ep. cbn.
      by rewrite !app_nil_r.
  - eapply seen_trans; [|apply Hj]. exists [None]. rewrite Ei. cbn. by rewrite !app_nil_r.
Qed.

Lemma sees_pump_loop fuel d : sees (pump_loop fuel d).
Proof.
  induction fuel as [|fuel IH]; cbn [pump_loop]; [apply sees_block|].
  apply sees_bind; [apply sees_monotonic|intros t]. destruct (Qle_bool d t); [apply sees_ret|].
  apply sees_bind; [apply sees_monotonic|intros t2]. apply sees_bind; [apply sees_get|intros w0].
  apply sees_bind; [destruct (Qle_bool _ _); [apply sees_ret|apply sees_subscribe]|intros _].
  by apply sees_receive.
Qed.

Lemma sees_pump fuel d : sees (pump fuel d).
Proof. apply sees_bind; [apply sees_monotonic|intros t; apply sees_pump_loop]. Qed.

Lemma sees_wait_for fuel pin level timeout : sees (wait_for fuel pin level timeout).
Proof.
  apply sees_bind; [apply sees_monotonic|intros t]. apply sees_bind; [apply sees_pump|intros _].
  generalize (t + timeout)%Q as d. intros d. generalize fuel at 1 as n. intros n. revert fuel.
  induction n as [|n IH]; intros fuel; cbn [wait_loop]; [apply sees_block|].
  apply sees_bind; [apply sees_monotonic|intros t2]. apply sees_bind; [apply sees_get|intros w].
  destruct (Qle_bool d t2); [apply sees_ret|]. destruct (at_level pin level w); [apply sees_ret|].
  apply sees_bind; [apply sees_pump|intros _]. apply IH. exact fuel.
Qed.

Lemma sees_count_edges fuel pin d : sees (count_edges fuel pin d).
Proof.
  apply sees_bind; [apply sees_get|intros w]. apply sees_bind; [apply sees_pump|intros _].
  apply sees_bind; [apply sees_get|intros w']. apply sees_ret.
Qed.

Lemma sees_hold_loop fuel d : sees (hold_loop fuel d).
Proof.
  induction fuel as [|fuel IH]; cbn [hold_loop]; [apply sees_block|].
  apply sees_bind; [apply sees_monotonic|intros t]. destruct (Qle_bool d t); [apply sees_ret|].
  apply sees_bind; [apply sees_sendto|intros _; apply IH].
Qed.

Lemma sees_confirm_loop fuel d : sees (confirm_loop fuel d).
Proof.
  induction fuel as [|fuel IH]; cbn [confirm_loop]; [apply sees_block|].
  apply sees_bind; [apply sees_monotonic|intros t]. destruct (Qle_bool d t); [apply sees_ret|].
  apply sees_bind; [apply sees_pump|intros _]. apply sees_bind; [apply sees_get|intros w].
  destruct (at_level "G34" 1 w); [apply sees_ret|].
  apply sees_bind; [apply sees_sendto|intros _; apply IH].
Qed.

Lemma sees_press_button fuel h : sees (press_button fuel h).
Proof.
  unfold press_button.
  repeat first [apply sees_ret | apply sees_sendto | apply sees_monotonic | apply sees_hold_loop
    | apply sees_confirm_loop | apply sees_bind; [|intros ?]].
Qed.

(** The calls a test makes on a bus object. *)
Inductive bus_op : Type :=
| OpPump (fuel : nat) (duration : Q)
| OpWaitFor (fuel : nat) (pin : string) (level : Z) (timeout : Q)
| OpCountEdges (fuel : nat) (pin : string) (duration : Q)
| OpPressButton (fuel : nat) (hold_s : Q)
| OpSendRaw (payload : list Z).

Definition bus_apply (o : bus_op) (w : bus) : bus :=
  match o with
  | OpPump f d => (pump f d w).2
  | OpWaitFor f p l t => (wait_for f p l t w).2
  | OpCountEdges f p d => (count_edges f p d w).2
  | OpPressButton f h => (press_button f h w).2
  | OpSendRaw d => (send_raw d w).2
  end.

Lemma seen_ops ops w : seen w (fold_left (fun w o => bus_apply o w) ops w).
Proof.
  revert w. induction ops as [|o ops IH]; intros w; cbn [fold_left]; [apply seen_refl|].
  eapply seen_trans; [|apply IH]. destruct o; cbn [bus_apply];
    [apply sees_pump|apply sees_wait_for|apply sees_count_edges|apply sees_press_button|apply sees_sendto].
Qed.

Lemma replay_lookup evs m pin :
  replay evs m !! pin =
  match last (filter (fun e => e.1 = pin) evs) with Some e => Some e.2 | None => m !! pin end.
Proof.
  revert m. induction evs as [|[p v] evs IH]; intros m; [done|].
  cbn [replay fold_left]. change (fold_left _ evs ?x) with (replay evs x). rewrite IH.
  rewrite filter_cons. cbn [fst snd]. destruct (decide (p = pin)) as [->|Hne].
  - rewrite last_cons. destruct (last (filter _ evs)); [done|]. by rewrite lookup_insert_eq.
  - destruct (last (filter _ evs)); [done|]. by rewrite lookup_insert_ne.
Qed.

(** After any sequence of calls on a fresh bus, the client's view is
    exactly what arrived: the events are the well-formed records of the
    datagrams received so far, in order and without loss; [get(pin)] is the
    value of the last record of that pin; and [violations] lists the
    violation records, in order. *)
Theorem bus_view_faithful init_fuel ops w0 :
  let w1 := (iobus_init init_fuel w0).2 in
  let w := fold_left (fun w o => bus_apply o w) ops w1 in
  exists received,
    inbox w0 = received ++ inbox w /\
    events w = (received ≫= record_of) /\
    violations w = (events w ≫= violation_of) /\
    forall pin, bus_get pin w = (snd <$> last (filter (fun e => e.1 = pin) (events w))).
Proof.
  intros w1 w.
  set (wi := Bus ∅ [] [] 0 (inbox w0) (sent w0) (bclock w0) (breadings w0)).
  assert (seen wi w1) as H1.
  { unfold w1, iobus_init, bind at 1, modify. fold wi.
    apply (sees_bind _subscribe (fun _ => pump init_fuel 1)); [apply sees_subscribe|intros _; apply sees_pump]. }
  destruct (seen_trans _ _ _ H1 (seen_ops ops w1)) as (ms & Hi & He & Hs & Hv). fold w in Hi, He, Hs, Hv.
  exists ms. cbn in Hi, He, Hs, Hv. split_and!; [done|done|by rewrite He|].
  intros pin. unfold bus_get. rewrite Hs, replay_lookup, He. cbn.
  by destruct (last (filter (fun e : string * Z => e.1 = pin) (ms ≫= record_of))).
Qed.

(** ** The button press *)

Section Press.
Context (F : nat) (D : Q).

(** A clock that never runs backwards and advances by [D] seconds within
    every [F] readings. *)
Record ticking (clk : nat -> Q) : Prop := {
  tick_mono : forall i j, (i <= j)%nat -> (clk i <= clk j)%Q;
  tick_adv : forall i, (clk i + D <= clk (i + F)%nat)%Q
}.

(** [w'] is [w] later, with more release datagrams sent and nothing else. *)
Definition releasing (w w' : bus) : Prop :=
  bclock w' = bclock w /\ (breadings w <= breadings w')%nat /\
  exists n, sent w' = sent w ++ replicate n released.

Lemma releasing_refl w : releasing w w.
Proof. split_and!; auto. exists 0%nat. cbn. by rewrite app_nil_r. Qed.

Lemma releasing_trans w1 w2 w3 : releasing w1 w2 -> releasing w2 w3 -> releasing w1 w3.
Proof.
  intros (C1 & R1 & n1 & S1) (C2 & R2 & n2 & S2). split_and!; [congruence|lia|].
  exists (n1 + n2)%nat. by rewrite S2, S1, replicate_add, app_assoc.
Qed.

Lemma releasing_subscribe w : exists w', _subscribe w = (Ok tt, w') /\ releasing w w'.
Proof.
  eexists. split; [reflexivity|]. split_and!; [done|cbn; lia|]. by exists 1%nat.
Qed.

Lemma releasing_receive (w : bus) :
  exists m w', recvfrom w = (Ok m, w') /\ releasing w w' /\ breadings w' = breadings w.
Proof.
  unfold recvfrom. destruct (inbox w) as [|m q]; eexists _, _; (split; [reflexivity|]); (split; [|done]);
    split_and!; auto; exists 0%nat; cbn; by rewrite app_nil_r.
Qed.

Lemma releasing_absorb r w : releasing w (absorb r w) /\ breadings (absorb r w) = breadings w.
Proof.
  destruct r as [pin v]. split; [|done]. split_and!; auto. exists 0%nat. cbn. by rewrite app_nil_r.
Qed.

Lemma pump_loop_returns fuel d w m :
  (forall i, (m <= i)%nat -> (d <= bclock w i)%Q) -> (m - breadings w < fuel)%nat ->
  exists w', pump_loop fuel d w = (Ok tt, w') /\ releasing w w'.
Proof.
  revert w. induction fuel as [|fuel IH]; intros w Hm Hf; [lia|]. cbn [pump_loop].
  unfold bind at 1, bmonotonic at 1. set (w1 := Bus _ _ _ _ _ _ _ _).
  assert (releasing w w1) as R1 by (split_and!; [done|cbn; lia|exists 0%nat; cbn; by rewrite app_nil_r]).
  destruct (Qle_bool d (bclock w (breadings w))) eqn:Eq; [by eexists|].
  assert (breadings w < m)%nat as Hlt.
  { destruct (decide (breadings w < m)%nat); [done|].
    assert (d <= bclock w (breadings w))%Q as Hd%Qle_bool_iff by (apply Hm; lia). congruence. }
  unfold bind at 1, bmonotonic at 1. set (w2 := Bus _ _ _ _ _ _ _ _).
  assert (releasing w1 w2) as R2 by (split_and!; [done|cbn; lia|exists 0%nat; cbn; by rewrite app_nil_r]).
  unfold bind at 1, get. unfold bind at 1.
  assert (exists w3, (if Qle_bool (bclock w1 (breadings w1) - last_subscribe w2) SUBSCRIBE_INTERVAL_S
    then ret tt else _subscribe) w2 = (Ok tt, w3) /\ releasing w2 w3) as (w3 & E3 & R3).
  { destruct (Qle_bool (_ - _) _); [eexists; split; [reflexivity|apply releasing_refl]|apply releasing_subscribe]. }
  rewrite E3. unfold bind at 1. destruct (releasing_receive w3) as (msg & w4 & -> & R4 & _).
  pose proof (releasing_trans _ _ _ R1 (releasing_trans _ _ _ R2 (releasing_trans _ _ _ R3 R4))) as R.
  assert (breadings w < breadings w4)%nat as Hadv.
  { destruct R3 as (_ & ? & _), R4 as (_ & ? & _). cbn in *. lia. }
  assert (forall w5, releasing w4 w5 -> exists w', pump_loop fuel d w5 = (Ok tt, w') /\ releasing w w') as Hrec.
  { intros w5 R5. pose proof (releasing_trans _ _ _ R R5) as RR. destruct (IH w5) as (w' & -> & Rw).
    - destruct RR as (-> & _). done.
    - destruct R5 as (_ & ? & _). lia.
    - eexists. split; [done|]. by eapply releasing_trans. }
  destruct msg as [data|]; [|apply Hrec, releasing_refl].
  destruct (_parse data) as [r|]; [|apply Hrec, releasing_refl].
  unfold bind, modify. apply Hrec, releasing_absorb.
Qed.

Lemma ticking_after clk i d : ticking clk -> (d <= D)%Q ->
  forall j, (i + F <= j)%nat -> (clk i + d <= clk j)%Q.
Proof.
  intros [Hm Ha] Hd j Hj. specialize (Ha i). specialize (Hm (i + F)%nat j Hj).
  eapply Qle_trans; [|exact Hm]. eapply Qle_trans; [|exact Ha]. by apply Qplus_le_r.
Qed.

Lemma pump_returns fuel d w :
  ticking (bclock w) -> (d <= D)%Q -> (F < fuel)%nat ->
  exists w', pump fuel d w = (Ok tt, w') /\ releasing w w' /\ (breadings w < breadings w')%nat.
Proof.
  intros Ht Hd Hf. unfold pump, bind, bmonotonic. set (w1 := Bus _ _ _ _ _ _ _ _).
  destruct (pump_loop_returns fuel (bclock w (breadings w) + d) w1 (breadings w + F)) as (w' & -> & R).
  - cbn. by apply ticking_after.
  - cbn. lia.
  - eexists. split; [done|].
    assert (releasing w w1) as R1 by (split_and!; [done|cbn; lia|exists 0%nat; cbn; by rewrite app_nil_r]).
    split; [by eapply releasing_trans|]. destruct R as (_ & ? & _). cbn in *. lia.
Qed.

Lemma confirm_returns fuel d w m :
  ticking (bclock w) -> ((1 # 10) <= D)%Q -> (forall i, (m <= i)%nat -> (d <= bclock w i)%Q) ->
  (m - breadings w + F < fuel)%nat ->
  exists w', confirm_loop fuel d w = (Ok tt, w') /\ releasing w w'.
Proof.
  revert w. induction fuel as [|fuel IH]; intros w Ht HD Hm Hf; [lia|]. cbn [confirm_loop].
  unfold bind at 1, bmonotonic at 1. set (w1 := Bus _ _ _ _ _ _ _ _).
  assert (releasing w w1) as R1 by (split_and!; [done|cbn; lia|exists 0%nat; cbn; by rewrite app_nil_r]).
  destruct (Qle_bool d (bclock w (breadings w))) eqn:Eq; [by eexists|].
  assert (breadings w < m)%nat as Hlt.
  { destruct (decide (breadings w < m)%nat); [done|].
    assert (d <= bclock w (breadings w))%Q as Hd%Qle_bool_iff by (apply Hm; lia). congruence. }
  unfold bind at 1. destruct (pump_returns (S fuel) (1 # 10) w1) as (w2 & -> & R2 & Hr); [done|done|lia|].
  pose proof (releasing_trans _ _ _ R1 R2) as R. unfold bind at 1, get.
  destruct (at_level "G34" 1 w2); [by eexists|]. unfold bind, sendto, modify. set (w3 := Bus _ _ _ _ _ _ _ _).
  assert (releasing w2 w3) as R3 by (split_and!; [done|done|by exists 1%nat]).
  pose proof (releasing_trans _ _ _ R R3) as (Hc & _ & _).
  destruct (IH w3) as (w' & -> & R4); [by rewrite Hc|done|by rewrite Hc|cbn in *; lia|].
  eexists. split; [done|]. eapply releasing_trans; [exact R|]. by eapply releasing_trans.
Qed.

Lemma hold_returns fuel d w m :
  (forall i j, (i <= j)%nat -> (bclock w i <= bclock w j)%Q) ->
  (forall i, (m <= i)%nat -> (d <= bclock w i)%Q) -> (m - breadings w < fuel)%nat ->
  exists n w', hold_loop fuel d w = (Ok tt, w') /\ bclock w' = bclock w /\
    (breadings w < breadings w')%nat /\ sent w' = sent w ++ replicate n press /\
    (d <= bclock w (breadings w'))%Q.
Proof.
  revert w. induction fuel as [|fuel IH]; intros w Hmono Hm Hf; [lia|]. cbn [hold_loop].
  unfold bind at 1, bmonotonic at 1. destruct (Qle_bool d (bclock w (breadings w))) eqn:Eq.
  { apply Qle_bool_iff in Eq. exists 0%nat. eexists. split; [reflexivity|]. cbn. rewrite app_nil_r.
    split_and!; [done|lia|done|]. eapply Qle_trans; [exact Eq|]. apply Hmono. lia. }
  assert (breadings w < m)%nat as Hlt.
  { destruct (decide (breadings w < m)%nat); [done|].
    assert (d <= bclock w (breadings w))%Q as Hd%Qle_bool_iff by (apply Hm; lia). congruence. }
  unfold bind, sendto, modify. set (w1 := Bus _ _ _ _ _ _ _ _).
  destruct (IH w1) as (n & w' & -> & Hc & Hr & Hs & Hd); [done|done|cbn; lia|].
  exists (S n), w'. cbn in *. split_and!; [done|done|lia| |done]. by rewrite Hs, <- app_assoc.
Qed.

(** A button press is never cut short.  On a clock that advances,
    [press_button] returns; it sends the press datagram (at least three
    times) and nothing else until the hold has lasted the requested time,
    then only release datagrams (at least three), so no re-subscription can
    release the button during the hold; and the stamp it returns is at least
    [hold_s] after the press burst. *)
Theorem press_button_holds fuel hold_s w :
  ticking (bclock w) -> (hold_s <= D)%Q -> (2 <= D)%Q -> (F + F < fuel)%nat ->
  exists release_at w' n k,
    press_button fuel hold_s w = (Ok release_at, w') /\
    sent w' = sent w ++ replicate (3 + n) press ++ replicate (3 + k) released /\
    (bclock w (breadings w) + hold_s <= release_at)%Q.
Proof.
  intros Ht Hh H2 Hf. unfold press_button.
  unfold bind at 1, sendto at 1, modify at 1. unfold bind at 1, sendto at 1, modify at 1.
  unfold bind at 1, sendto at 1, modify at 1. unfold bind at 1, bmonotonic at 1. unfold bind at 1.
  cbn [state events violations last_subscribe inbox sent bclock breadings].
  match goal with |- context [hold_loop fuel _ ?x] => set (w1 := x) end.
  destruct (hold_returns fuel (bclock w (breadings w) + hold_s) w1 (breadings w + F)) as
    (n & w2 & -> & Hc & Hr & Hs & Hd); [apply Ht|by apply ticking_after|cbn; lia|].
  unfold bind at 1, bmonotonic at 1. unfold bind at 1, sendto at 1, modify at 1.
  unfold bind at 1, sendto at 1, modify at 1. unfold bind at 1, sendto at 1, modify at 1.
  unfold bind at 1, bmonotonic at 1. unfold bind.
  cbn [state events violations last_subscribe inbox sent bclock breadings].
  match goal with |- context [confirm_loop fuel _ ?x] => set (w3 := x) end.
  assert (ticking (bclock w3)) as Ht3 by (cbn; rewrite Hc; exact Ht).
  destruct (confirm_returns fuel (bclock w2 (S (breadings w2)) + 2) w3 (S (breadings w2) + F)) as (w4 & -> & R).
  - exact Ht3.
  - eapply Qle_trans; [|exact H2]. vm_compute. discriminate.
  - cbn [bclock w3]. rewrite Hc. by apply ticking_after.
  - cbn. lia.
  - destruct R as (_ & _ & k & Hk). exists (bclock w2 (breadings w2)), w4, n, k. split; [reflexivity|].
    split; [|by rewrite Hc]. rewrite Hk. cbn [w3 sent]. rewrite Hs. cbn [w1 sent].
    rewrite !replicate_add, <- !app_assoc. done.
Qed.

End Press.

Lemma press_button_holds_witness :
  let w := Bus ∅ [] [] 0 [Some [71; 51; 52; 47; 49]] [] (fun i => inject_Z (Z.of_nat i)) 0 in
  exists release_at w' n k,
    press_button 30 12 w = (Ok release_at, w') /\
    sent w' = replicate (3 + n) press ++ replicate (3 + k) released /\ (12 <= release_at)%Q.
Proof.
  intros w.
  destruct (press_button_holds 12 12 30 12 w) as (rel & w' & n & k & H & Hs & Hr).
  - split; cbn.
    + intros i j Hij. rewrite <- Zle_Qle. lia.
    + intros i. change 12%Q with (inject_Z 12). rewrite <- inject_Z_plus, <- Zle_Qle. lia.
  - apply Qle_refl.
  - vm_compute. discriminate.
  - lia.
  - exists rel, w', n, k. split; [exact H|]. split; [exact Hs|]. cbn in Hr.
    eapply Qle_trans; [|exact Hr]. vm_compute. discriminate.
Defined.
