(* ===== verification/IdfPatch.v ===== *)
(** * The ESP-IDF patch step (src/patches/apply_idf_patch.py)

    The script applies one unified diff to the ESP-IDF tree, once.  The tree
    is a finite map from relative paths to decoded contents; [read_text] and
    [copy2] act on it.  The [patch] program is not part of the repository:
    it is a parameter of the section, a function from its arguments and the
    tree to an exit status, its output, whether it wrote a reject file, and
    the tree it leaves.  Standard output is kept ([out]) and so are the
    [patch] invocations ([runs]); diagnostics on standard error are not. *)

From stdpp Require Import base list gmap strings sets.
From Stdlib Require Import Ascii ZArith Lia.
From S2P Require Import Prelude PyStr.

Open Scope Z_scope.

(** ** The three regular expressions *)

(** The longest prefix whose characters satisfy [p], and the rest. *)
Fixpoint span (p : ascii -> bool) (s : string) : string * string :=
  match s with
  | EmptyString => (EmptyString, EmptyString)
  | String c s' => if p c then let (a, b) := span p s' in (String c a, b) else (EmptyString, s)
  end.

(** [re.match(prefix + (\S+), line)]: the captured group. *)
Definition match_word (prefix line : string) : option string :=
  if startswith prefix line then
    let (w, _) := span (fun c => negb (is_space c)) (sdrop (String.length prefix) line) in
    if String.eqb w "" then None else Some w
  else None.

Definition _FILE_HEADER_RE : string -> option string := match_word "--- ".
Definition _OLD_PATH_RE : string -> option string := match_word "--- a/".

(** [\d+(?:,(\d+))?] at the start of [s]: the optional group and the rest. *)
Definition match_range (s : string) : option (option string * string) :=
  let (d, rest) := span is_digit s in
  if String.eqb d "" then None else
  match rest with
  | String "," rest' =>
      let (n, rest'') := span is_digit rest' in
      if String.eqb n "" then Some (None, rest) else Some (Some n, rest'')
  | _ => Some (None, rest)
  end.

(** [^@@ -\d+(?:,(\d+))? \+\d+(?:,(\d+))? @@]: the two optional groups. *)
Definition _HUNK_HEADER_RE (line : string) : option (option string * option string) :=
  if startswith "@@ -" line then
    match match_range (sdrop 4 line) with
    | Some (g1, rest) =>
        if startswith " +" rest then
          match match_range (sdrop 2 rest) with
          | Some (g2, rest') => if startswith " @@" rest' then Some (g1, g2) else None
          | None => None
          end
        else None
    | None => None
    end
  else None.

(** ** Hunks *)

Record hunk := Hunk { ordinal : Z; target : option string; added : list string }.

#[export] Instance hunk_eq_dec : EqDecision hunk.
Proof. solve_decision. Defined.

Definition _MIN_MARKER_LEN : nat := 3.

(** [int(group) if group else 1] *)
Definition count_of (g : option string) : Z :=
  match g with Some d => default 0 (py_int_opt d) | None => 1 end.

(** The inner loop: the lines of one hunk body, by the counts of its header. *)
Fixpoint hunk_body (lines : list string) (old_remaining new_remaining : Z)
    (added : list string) (forbidden : gset string) : list string * gset string * list string :=
  match lines with
  | [] => (added, forbidden, [])
  | body :: rest =>
      if (0 <? old_remaining) || (0 <? new_remaining) then
        if startswith "\" body then hunk_body rest old_remaining new_remaining added forbidden
        else if startswith "+" body then
          hunk_body rest old_remaining (new_remaining - 1) (added ++ [sdrop 1 body]) forbidden
        else if startswith "-" body then
          hunk_body rest (old_remaining - 1) new_remaining added ({[ strip (sdrop 1 body) ]} ∪ forbidden)
        else
          hunk_body rest (old_remaining - 1) (new_remaining - 1) added
            ({[ if startswith " " body then strip (sdrop 1 body) else strip body ]} ∪ forbidden)
      else (added, forbidden, lines)
  end.

(** The outer loop.  Every round consumes a line, so as many rounds as there
    are lines are enough. *)
Fixpoint parse_loop (fuel : nat) (lines : list string) (target : option string)
    (hunks : list hunk) (forbidden : gset string) : list hunk * gset string :=
  match fuel, lines with
  | S fuel, line :: rest =>
      match _FILE_HEADER_RE line with
      | Some _ => parse_loop fuel rest (_OLD_PATH_RE line) hunks forbidden
      | None =>
          match _HUNK_HEADER_RE line with
          | None => parse_loop fuel rest target hunks forbidden
          | Some (g1, g2) =>
              let '(added, forbidden, rest) := hunk_body rest (count_of g1) (count_of g2) [] forbidden in
              parse_loop fuel rest target (hunks ++ [Hunk (Z.of_nat (length hunks) + 1) target added]) forbidden
          end
      end
  | _, _ => (hunks, forbidden)
  end.

Definition _parse_hunks (text : string) : list hunk * gset string :=
  let lines := rstrip_by (Ascii.eqb CR) <$> splitlines text in
  parse_loop (length lines) lines None [] ∅.

(** A line usable as the marker of a hunk. *)
Definition marker_ok (forbidden : gset string) (text : string) : bool :=
  (_MIN_MARKER_LEN <=? String.length text)%nat && any_char is_alnum text && negb (bool_decide (text ∈ forbidden)).

Definition _hunk_marker (h : hunk) (forbidden : gset string) : option string :=
  head (filter (fun t => marker_ok forbidden t = true) (strip <$> added h)).

(** ** The script *)

Abbreviation tree := (gmap string string).

Record run_result := RunResult {
  returncode : Z;
  stdout : string;
  stderr : string;
  rejected : bool     (* the reject file exists afterwards *)
}.

Record pworld := PWorld {
  fs : tree;
  out : list string;
  runs : list (list string)
}.

Definition print (line : string) : eff pworld unit :=
  modify (fun w => PWorld (fs w) (out w ++ [line]) (runs w)).

Definition _marker_present_in_target (t : tree) (h : hunk) (marker : string) : bool :=
  match target h with
  | Some p => match t !! p with Some text => contains marker text | None => false end
  | None => false
  end.

Definition PATCH_SAFETY_FLAGS : list string := ["--batch"; "--forward"].

(** [sys.exit(1)] after a message on standard error. *)
Definition _fail {A} : eff pworld A := raise (SystemExit 1).

Definition lower_char (c : ascii) : ascii :=
  let n := nat_of_ascii c in
  if ((65 <=? n) && (n <=? 90))%nat then ascii_of_nat (n + 32) else c.

Fixpoint lower (s : string) : string :=
  match s with EmptyString => EmptyString | String c s => String (lower_char c) (lower s) end.

Definition _ALREADY_APPLIED_MARK : string := "previously applied".

Section Script.

(** The [patch] program, the patch file (its path, name and text) and the
    temporary reject paths. *)
Context (patch : list string -> tree -> run_result * tree).
Context (patch_path patch_name text tmp_reject kept_reject : string).

Definition _spawn_patch (extra_flags : list string) (reject_file : string) : eff pworld run_result :=
  fun w =>
    let args := extra_flags ++ PATCH_SAFETY_FLAGS ++ ["-r"; reject_file; "-p1"; "-i"; patch_path] in
    let (r, t) := patch args (fs w) in
    (Ok r, PWorld t (out w) (runs w ++ [args])).

Definition _run_patch (extra_flags : list string) (reject_file : option string) : eff pworld run_result :=
  match reject_file with
  | None => _spawn_patch extra_flags tmp_reject
  | Some f => _spawn_patch extra_flags f
  end.

Definition _is_applied_by_dry_run : eff pworld bool :=
  let* result := _run_patch ["--dry-run"] None in
  let lowered := lower (stdout result +:+ stderr result) in
  let already_applied := contains _ALREADY_APPLIED_MARK lowered in
  let hunk_failed := contains "failed" lowered in
  if (returncode result =? 0) && negb already_applied && negb hunk_failed then ret false
  else if already_applied && negb hunk_failed then ret true
  else _fail.

Definition is_applied : eff pworld bool :=
  let (hunks, forbidden) := _parse_hunks text in
  if (length hunks =? 0)%nat then _fail
  else if existsb (fun h => bool_decide (target h = None)) hunks then _fail
  else
    let markers := (fun h => (h, _hunk_marker h forbidden)) <$> hunks in
    let with_marker := omap (fun '(h, m) => m' ← m; Some (h, m')) markers in
    let without_marker := filter (fun '(_, m) => m = None) markers in
    if (length with_marker =? 0)%nat then _is_applied_by_dry_run
    else if negb (length without_marker =? 0)%nat then _fail
    else
      let* w := get in
      let here := fun '(h, m) => _marker_present_in_target (fs w) h m in
      let present := List.filter here with_marker in
      let missing := List.filter (fun x => negb (here x)) with_marker in
      if (length present =? 0)%nat then ret false
      else if (length missing =? 0)%nat then ret true
      else _fail.

Definition apply_patch : eff pworld unit :=
  let* result := _run_patch [] (Some kept_reject) in
  if negb (returncode result =? 0) then _fail else ret tt.

(** [<file>.orig] *)
Definition orig_of (p : string) : string := p +:+ ".orig".

Definition backup_one (line : string) : eff pworld unit :=
  match match_word "--- a/" line with
  | None => ret tt
  | Some g =>
      let rel_path := rstrip_by (Ascii.eqb CR) g in
      let* w := get in
      match fs w !! rel_path with
      | None => ret tt                                  (* [backup-warn] on stderr *)
      | Some contents =>
          match fs w !! orig_of rel_path with
          | Some _ => print ("[backup-skip] " +:+ rel_path)
          | None =>
              modify (fun w => PWorld (<[orig_of rel_path := contents]> (fs w)) (out w) (runs w)) ;;;
              print ("[backup] " +:+ rel_path)
          end
      end
  end.

Fixpoint backup_lines (lines : list string) : eff pworld unit :=
  match lines with
  | [] => ret tt
  | l :: ls => backup_one l ;;; backup_lines ls
  end.

Definition backup_originals : eff pworld unit := backup_lines (splitlines text).

(** [main] from the point where the patch file exists. *)
Definition patch_main : eff pworld unit :=
  let* applied := is_applied in
  if (applied : bool) then print ("[skip] " +:+ patch_name) ;;; raise (SystemExit 0)
  else
    backup_originals ;;;
    apply_patch ;;;
    let* verified := is_applied in
    if negb verified then raise (SystemExit 1)
    else print ("[ok] " +:+ patch_name).

(** [main]: the checks on IDF_PATH and on the patch file come first. *)
Definition main (idf_path_env : option string) (idf_is_dir patch_is_file : bool) : eff pworld unit :=
  match idf_path_env with
  | None => raise (SystemExit 1)
  | Some p =>
      if String.eqb p "" then raise (SystemExit 1)
      else if negb idf_is_dir then raise (SystemExit 1)
      else if negb patch_is_file then raise (SystemExit 1)
      else patch_main
  end.

End Script.

(** ** What the markers say *)

(** The marker of the hunk is in the hunk's own file. *)
Definition present_in (forbidden : gset string) (t : tree) (h : hunk) : bool :=
  match _hunk_marker h forbidden with
  | Some m => _marker_present_in_target t h m
  | None => false
  end.

(** A patch every hunk of which has a file and a marker. *)
Definition checkable (text : string) : Prop :=
  let (hunks, forbidden) := _parse_hunks text in
  hunks <> [] /\ Forall (fun h => target h <> None /\ _hunk_marker h forbidden <> None) hunks.

Definition patched (text : string) (t : tree) : bool :=
  let (hunks, forbidden) := _parse_hunks text in forallb (present_in forbidden t) hunks.

Definition pristine (text : string) (t : tree) : bool :=
  let (hunks, forbidden) := _parse_hunks text in forallb (fun h => negb (present_in forbidden t h)) hunks.

Lemma target_test hunks fb :
  Forall (fun h => target h <> None /\ _hunk_marker h fb <> None) hunks ->
  existsb (fun h => bool_decide (target h = None)) hunks = false.
Proof.
  induction 1 as [|h hs [Ht _] _ IH]; [done|]. cbn [existsb]. rewrite IH, orb_false_r.
  by apply bool_decide_eq_false.
Qed.

(** The split into hunks with and without a marker, when all have one. *)
Lemma marker_split hunks fb (f : hunk * string -> bool) g :
  (forall h m, _hunk_marker h fb = Some m -> f (h, m) = g h) ->
  Forall (fun h => target h <> None /\ _hunk_marker h fb <> None) hunks ->
  let markers := (fun h => (h, _hunk_marker h fb)) <$> hunks in
  let with_marker := omap (fun '(h, m) => m' ← m; Some (h, m')) markers in
  filter (fun '(_, m) => m = None) markers = [] /\
  length with_marker = length hunks /\
  ((length (List.filter f with_marker) =? 0)%nat = forallb (fun h => negb (g h)) hunks) /\
  ((length (List.filter (fun x => negb (f x)) with_marker) =? 0)%nat = forallb g hunks).
Proof.
  intros Hf. induction 1 as [|h hs [_ Hm] _ (IH1 & IH2 & IH3 & IH4)]; [done|].
  cbn -[_hunk_marker] in *. destruct (_hunk_marker h fb) as [m|] eqn:E; [|done].
  change (Some m ≫= _) with (Some (h, m)). cbn [List.filter length]. rewrite (Hf _ _ E).
  destruct (g h); cbn [negb List.filter length Nat.eqb andb]; auto using f_equal.
Qed.

Lemma forallb_both {A} (g : A -> bool) l :
  l <> [] -> forallb g l = true -> forallb (fun x => negb (g x)) l = false.
Proof. destruct l as [|x l]; [done|]. cbn. intros _ [-> _]%andb_true_iff. done. Qed.

Section Theorems.

Context (patch : list string -> tree -> run_result * tree).
Context (patch_path patch_name text tmp_reject kept_reject : string).

Abbreviation applied_now := (is_applied patch patch_path text tmp_reject).
Abbreviation step_main := (patch_main patch patch_path patch_name text tmp_reject kept_reject).

Lemma is_applied_checkable w :
  checkable text ->
  applied_now w = (if pristine text (fs w) then Ok false
                  else if patched text (fs w) then Ok true else Raise (SystemExit 1), w).
Proof.
  unfold checkable, pristine, patched, is_applied.
  destruct (_parse_hunks text) as [hunks fb]. intros [Hne Hall].
  rewrite (target_test _ _ Hall).
  destruct (marker_split hunks fb (fun '(h, m) => _marker_present_in_target (fs w) h m)
              (present_in fb (fs w))) as (Hw & Hl & Hp & Hm); [|done|].
  { intros h m E. unfold present_in. by rewrite E. }
  cbv zeta in *. rewrite Hl, Hw. destruct (length hunks =? 0)%nat eqn:E0.
  { apply Nat.eqb_eq in E0. by destruct hunks. }
  cbn [length Nat.eqb negb]. unfold bind, get. cbv beta iota. rewrite Hp, Hm.
  by repeat split_match.
Qed.

(** ** Backups *)

(** [t'] is [t] with backups: no file of [t] changed, and a file that is
    new is the [.orig] copy of a file of [t']. *)
Record backed_up (t t' : tree) : Prop := {
  backup_keeps : forall p c, t !! p = Some c -> t' !! p = Some c;
  backup_new : forall p c, t !! p = None -> t' !! p = Some c ->
    exists q, p = orig_of q /\ t' !! q = Some c
}.

Lemma backed_up_refl t : backed_up t t.
Proof. split; [done|]. intros p c H H'. congruence. Qed.

Lemma backed_up_trans t1 t2 t3 : backed_up t1 t2 -> backed_up t2 t3 -> backed_up t1 t3.
Proof.
  intros [K1 N1] [K2 N2]. split; [auto|]. intros p c H1 H3.
  destruct (t2 !! p) as [c'|] eqn:E; [|by apply N2].
  rewrite (K2 _ _ E) in H3. simplify_eq. destruct (N1 _ _ H1 E) as (q & -> & Hq). eauto.
Qed.

Lemma backup_one_ok line w :
  exists w', backup_one line w = (Ok tt, w') /\ runs w' = runs w /\ backed_up (fs w) (fs w') /\
    (forall g c, match_word "--- a/" line = Some g -> let p := rstrip_by (Ascii.eqb CR) g in
       fs w !! p = Some c -> is_Some (fs w' !! orig_of p)).
Proof.
  unfold backup_one. destruct (match_word "--- a/" line) as [g|] eqn:Em;
    [|eexists; split; [reflexivity|]; split_and!; [done|apply backed_up_refl|done]].
  unfold bind at 1, get. set (p := rstrip_by _ g).
  destruct (fs w !! p) as [c|] eqn:Ep;
    [|eexists; split; [reflexivity|]; split_and!; [done|apply backed_up_refl|]; intros g' c' [= <-]; fold p; cbv zeta; by rewrite Ep].
  destruct (fs w !! orig_of p) as [c0|] eqn:Eo.
  { eexists. split; [reflexivity|]. split_and!; [done|apply backed_up_refl|].
    intros g' c' [= <-] _. cbn. eauto. }
  eexists. split; [reflexivity|]. cbn. split_and!; [done| |].
  - split.
    + intros q d Hq. rewrite lookup_insert_ne; [done|]. intros <-. congruence.
    + intros q d Hn Hq. apply lookup_insert_Some in Hq as [[<- <-]|[Hne Hq]]; [|congruence].
      exists p. split; [done|]. rewrite lookup_insert_ne; [done|]. intros E. rewrite E in Eo. congruence.
  - intros g' c' [= <-] _. cbn. rewrite lookup_insert_eq. eauto.
Qed.

Lemma backup_lines_ok lines w :
  exists w', backup_lines lines w = (Ok tt, w') /\ runs w' = runs w /\ backed_up (fs w) (fs w') /\
    (forall line g c, line ∈ lines -> match_word "--- a/" line = Some g ->
       let p := rstrip_by (Ascii.eqb CR) g in fs w !! p = Some c -> is_Some (fs w' !! orig_of p)).
Proof.
  revert w. induction lines as [|l lines IH]; intros w.
  { eexists. split; [reflexivity|]. split_and!; [done|apply backed_up_refl|]. by intros ??? ?%elem_of_nil. }
  cbn [backup_lines]. unfold bind. destruct (backup_one_ok l w) as (w1 & -> & R1 & B1 & L1).
  destruct (IH w1) as (w2 & -> & R2 & B2 & L2). eexists. split; [reflexivity|].
  split_and!; [congruence|by eapply backed_up_trans|].
  intros line g c [->|Hin]%elem_of_cons Hg Hp.
  - destruct (L1 g c Hg Hp) as [d Hd]. exists d. by apply B2.
  - apply (L2 line g c Hin Hg). by apply B1.
Qed.

(** The arguments of the run that applies the patch. *)
Definition apply_args : list string :=
  ["--batch"; "--forward"; "-r"; kept_reject; "-p1"; "-i"; patch_path].

(** One application: backups of every file the patch names, then one run of
    [patch] on that tree, then the verdict of exit status and markers. *)
Definition applied_once (w : pworld) (r : outcome unit) (w' : pworld) : Prop :=
  exists t,
    backed_up (fs w) t /\
    (forall line g c, line ∈ splitlines text -> match_word "--- a/" line = Some g ->
       let p := rstrip_by (Ascii.eqb CR) g in fs w !! p = Some c -> is_Some (t !! orig_of p)) /\
    runs w' = runs w ++ [apply_args] /\
    fs w' = (patch apply_args t).2 /\
    r = (if (returncode (patch apply_args t).1 =? 0) && patched text (fs w')
         then Ok tt else Raise (SystemExit 1)).

(** C32. What one run of the step does to a patch every hunk of which can
    be checked.  On a fully patched tree it skips: exit 0, no [patch]
    process, no file touched.  On a half-patched tree it exits 1 and touches
    nothing.  On a pristine tree it first backs up every file the patch
    names that exists (never overwriting a file, so never an older backup),
    then runs [patch] exactly once, with the safety flags; and it reports
    success exactly when [patch] exits 0 and every hunk's marker is then in
    that hunk's own file, and exits 1 otherwise. *)
Theorem patch_main_verdict w :
  checkable text ->
  match step_main w with
  | (r, w') =>
      if patched text (fs w) then
        r = Raise (SystemExit 0) /\ fs w' = fs w /\ runs w' = runs w /\ out w' = out w ++ ["[skip] " +:+ patch_name]
      else if negb (pristine text (fs w)) then r = Raise (SystemExit 1) /\ w' = w
      else applied_once w r w'
  end.
Proof.
  intros Hc. unfold patch_main, bind at 1. rewrite (is_applied_checkable w Hc).
  destruct (patched text (fs w)) eqn:Ep.
  { assert (pristine text (fs w) = false) as ->.
    { unfold pristine, patched, checkable in *. destruct (_parse_hunks text) as [hunks fb].
      apply forallb_both; [apply Hc|done]. }
    cbn. done. }
  destruct (pristine text (fs w)) eqn:En; cbn [negb]; [|done].
  unfold bind at 1, backup_originals. destruct (backup_lines_ok (splitlines text) w) as (w1 & -> & R1 & B1 & L1).
  unfold bind at 1. unfold apply_patch, bind at 1, _run_patch, _spawn_patch. cbn [app].
  change (PATCH_SAFETY_FLAGS ++ _) with apply_args.
  destruct (patch apply_args (fs w1)) as [res t2] eqn:Epatch. unfold ret, _fail, raise.
  assert (forall r w', fs w' = t2 -> runs w' = runs w1 ++ [apply_args] ->
    r = (if (returncode res =? 0) && patched text t2 then Ok tt else Raise (SystemExit 1)) ->
    applied_once w r w') as Hfin.
  { intros r w' Hf Hr Hx. exists (fs w1). rewrite Epatch. cbn. rewrite Hf, <- R1. done. }
  destruct (returncode res =? 0) eqn:Erc; cbn [negb]; [|apply Hfin; done].
  unfold bind at 1. rewrite (is_applied_checkable _ Hc). cbn [fs].
  destruct (pristine text t2) eqn:Ep2.
  - assert (patched text t2 = false) as Hu.
    { destruct (patched text t2) eqn:E2; [|done]. unfold pristine, patched, checkable in *.
      destruct (_parse_hunks text) as [hunks fb]. rewrite (forallb_both _ _ (proj1 Hc) E2) in Ep2. done. }
    apply Hfin; [done|done|]. by rewrite Hu.
  - destruct (patched text t2) eqn:E2; apply Hfin; done.
Qed.

(** [is_applied] reads the tree and nothing else, and leaves it alone. *)
Lemma is_applied_reads :
  (forall args t, "--dry-run" ∈ args -> (patch args t).2 = t) ->
  forall w, fs (applied_now w).2 = fs w /\ forall w', fs w' = fs w -> (applied_now w').1 = (applied_now w).1.
Proof.
  intros Hdry w. unfold is_applied. destruct (_parse_hunks text) as [hunks fb].
  destruct (length hunks =? 0)%nat; [done|]. destruct (existsb _ hunks); [done|].
  cbv zeta. destruct (length _ =? 0)%nat.
  - unfold _is_applied_by_dry_run, bind, _run_patch, _spawn_patch.
    set (args := ["--dry-run"] ++ _).
    pose proof (Hdry args (fs w)) as Hk. specialize (Hk ltac:(left)).
    split; [|intros w' ->]; destruct (patch args (fs w)) as [res t]; cbn in Hk; subst t;
      repeat split_match; reflexivity.
  - destruct (negb _); [done|]. unfold bind, get.
    split; [|intros w' ->]; (destruct (length _ =? 0)%nat; [done|]); by destruct (length _ =? 0)%nat.
Qed.

(** The only status [is_applied] and [apply_patch] exit with is 1. *)
Lemma is_applied_exit w e : (applied_now w).1 = Raise e -> e = SystemExit 1.
Proof.
  unfold is_applied. destruct (_parse_hunks text) as [hunks fb].
  destruct (length hunks =? 0)%nat; [cbn; congruence|]. destruct (existsb _ hunks); [cbn; congruence|].
  cbv zeta. destruct (length _ =? 0)%nat.
  - unfold _is_applied_by_dry_run, bind, _run_patch, _spawn_patch.
    destruct (patch _ (fs w)) as [res t]. repeat split_match; cbn; congruence.
  - destruct (negb _); [cbn; congruence|]. unfold bind, get. destruct (length _ =? 0)%nat; [done|].
    destruct (length _ =? 0)%nat; cbn; congruence.
Qed.

Lemma is_applied_settled w : settled (applied_now w).1.
Proof.
  unfold is_applied. destruct (_parse_hunks text) as [hunks fb].
  destruct (length hunks =? 0)%nat; [done|]. destruct (existsb _ hunks); [done|].
  cbv zeta. destruct (length _ =? 0)%nat.
  - unfold _is_applied_by_dry_run, bind, _run_patch, _spawn_patch.
    destruct (patch _ (fs w)) as [res t]. repeat split_match; done.
  - destruct (negb _); [done|]. unfold bind, get. destruct (length _ =? 0)%nat; [done|].
    by destruct (length _ =? 0)%nat.
Qed.

(** The step is idempotent.  When [patch --dry-run] does not modify
    files, any run that ends with exit 0 or by returning leaves a tree on
    which the step, run again, skips: it exits 0, prints the skip line and
    changes no file.  This covers patches without usable markers, where the
    verdict comes from a dry run. *)
Theorem patch_main_idempotent w w2 :
  (forall args t, "--dry-run" ∈ args -> (patch args t).2 = t) ->
  (step_main w).1 = Ok tt \/ (step_main w).1 = Raise (SystemExit 0) ->
  fs w2 = fs (step_main w).2 ->
  (step_main w2).1 = Raise (SystemExit 0) /\ fs (step_main w2).2 = fs w2 /\
  last (out (step_main w2).2) = Some ("[skip] " +:+ patch_name).
Proof.
  intros Hdry Hr Hfs. pose proof (is_applied_reads Hdry) as Hreads.
  assert (exists w0, (applied_now w0).1 = Ok true /\ fs w2 = fs w0) as (w0 & Ht & E0).
  { destruct (step_main w) as [r w'] eqn:E. cbn in Hr, Hfs.
    revert E. unfold patch_main, bind at 1.
    destruct (Hreads w) as [Hk _].
    pose proof (is_applied_exit w) as Hx. pose proof (is_applied_settled w) as Hs.
    destruct (applied_now w) as [[[]|e|] w1] eqn:E1; cbn in Hk, Hx, Hs; [| | |done].
    - intros [= <- <-]. exists w. rewrite E1. cbn in *. split; congruence.
    - unfold bind at 1, backup_originals. destruct (backup_lines_ok (splitlines text) w1) as (wb & -> & _).
      unfold bind at 1, apply_patch, bind at 1, _run_patch, _spawn_patch.
      destruct (patch _ (fs wb)) as [res t]. destruct (negb (returncode res =? 0)).
      { intros [= <- <-]. by destruct Hr. }
      unfold ret, bind at 1. set (wv := PWorld _ _ _).
      destruct (Hreads wv) as [Hkv _]. pose proof (is_applied_exit wv) as Hxv.
      destruct (applied_now wv) as [[[]|e|] w4] eqn:E4; cbn in Hkv, Hxv; cbn [negb]; intros [= <- <-].
      + exists wv. rewrite E4. cbn in *. split; congruence.
      + by destruct Hr.
      + rewrite (Hxv e eq_refl) in Hr. by destruct Hr.
      + by destruct Hr.
    - rewrite (Hx e eq_refl). intros [= <- <-]. by destruct Hr. }
  destruct (Hreads w0) as [Hk Hres]. unfold patch_main, bind.
  specialize (Hres w2 E0). destruct (Hreads w2) as [Hk2 _].
  destruct (applied_now w2) as [r2 w3]. cbn in Hres, Hk2. rewrite Ht in Hres. subst r2. cbn.
  split_and!; [done|done|]. by rewrite last_snoc.
Qed.

End Theorems.

(** ** Reading back a printed diff *)

(** A unified diff as it is written: lines of a body, hunks with their
    ranges (an omitted count stands for 1) and section text, files with the
    lines git puts before the headers. *)
Inductive body_line : Type :=
| Ctx (s : string)
| StrippedCtx              (* an empty context line whose blank was stripped *)
| Del (s : string)
| Add (s : string)
| NoEol.

Record rhunk := RHunk {
  old_start : Z;
  new_start : Z;
  terse_old : bool;
  terse_new : bool;
  section : string;
  body : list body_line
}.

Record rfile := RFile { preamble : list string; path : string; rhunks : list rhunk }.

Definition no_eol : string := "\ No newline at end of file".

Definition render_line (b : body_line) : string :=
  match b with
  | Ctx s => " " +:+ s
  | StrippedCtx => ""
  | Del s => "-" +:+ s
  | Add s => "+" +:+ s
  | NoEol => no_eol
  end.

Definition old_weight (b : body_line) : Z :=
  match b with Ctx _ | StrippedCtx | Del _ => 1 | _ => 0 end.
Definition new_weight (b : body_line) : Z :=
  match b with Ctx _ | StrippedCtx | Add _ => 1 | _ => 0 end.
Definition weigh (f : body_line -> Z) (l : list body_line) : Z := foldr (fun b n => f b + n) 0 l.

Definition range_text (start count : Z) (terse : bool) : string :=
  show_Z start +:+ (if terse && (count =? 1) then "" else "," +:+ show_Z count).

Definition hunk_header (h : rhunk) : string :=
  "@@ -" +:+ range_text (old_start h) (weigh old_weight (body h)) (terse_old h) +:+
  " +" +:+ range_text (new_start h) (weigh new_weight (body h)) (terse_new h) +:+ " @@" +:+ section h.

Definition render_hunk (h : rhunk) : list string := hunk_header h :: (render_line <$> body h).

Definition render_file (f : rfile) : list string :=
  preamble f ++ ("--- a/" +:+ path f) :: ("+++ b/" +:+ path f) :: (rhunks f ≫= render_hunk).

Definition render (d : list rfile) : list string := d ≫= render_file.

Fixpoint unlines (l : list string) : string :=
  match l with [] => "" | s :: l => s +:+ String LF (unlines l) end.

(** What the parser is to find. *)
Definition adds (l : list body_line) : list string :=
  omap (fun b => match b with Add s => Some s | _ => None end) l.
Definition kept_line (b : body_line) : option string :=
  match b with Ctx s | Del s => Some (strip s) | StrippedCtx => Some "" | _ => None end.
Definition kept (l : list body_line) : gset string := list_to_set (omap kept_line l).

Fixpoint number (n : nat) (l : list (string * rhunk)) : list hunk :=
  match l with
  | [] => []
  | (p, h) :: l => Hunk (Z.of_nat n + 1) (Some p) (adds (body h)) :: number (S n) l
  end.

Definition hunks_of (d : list rfile) : list (string * rhunk) :=
  d ≫= fun f => (fun h => (path f, h)) <$> rhunks f.
Definition kept_of (d : list rfile) : gset string := ⋃ ((fun x => kept (body x.2)) <$> hunks_of d).

Definition no_break (s : string) : bool := all_chars (fun c => negb (is_break c)) s.
Definition plain (line : string) : Prop := _FILE_HEADER_RE line = None /\ _HUNK_HEADER_RE line = None.

Definition hunk_ok (h : rhunk) : Prop := 0 <= old_start h /\ 0 <= new_start h.

Record file_ok (f : rfile) : Prop := {
  preamble_plain : Forall plain (preamble f);
  path_word : path f <> "" /\ all_chars (fun c => negb (is_space c)) (path f) = true;
  starts_ok : Forall hunk_ok (rhunks f)
}.

Lemma splitlines_go_line cur s rest :
  no_break s = true ->
  splitlines_go cur (s +:+ String LF rest) = String.rev_app cur s :: splitlines_go "" rest.
Proof.
  revert cur. induction s as [|c s IH]; intros cur H.
  - cbn. by destruct rest.
  - unfold no_break in H. cbn [all_chars] in H. bool_to_prop. rewrite sapp_cons. cbn [splitlines_go].
    rewrite H, IH by done. done.
Qed.

Lemma splitlines_unlines l : Forall (fun s => no_break s = true) l -> splitlines (unlines l) = l.
Proof.
  unfold splitlines. induction 1 as [|s l Hs _ IH]; [done|]. cbn [unlines].
  rewrite splitlines_go_line, IH by done. done.
Qed.

Lemma rstrip_none (p : ascii -> bool) s : all_chars (fun c => negb (p c)) s = true -> rstrip_by p s = s.
Proof.
  intros H. unfold rstrip_by. rewrite lstrip_id; [apply srev_involutive|]. by rewrite all_chars_srev.
Qed.

Lemma rstrip_no_break s : no_break s = true -> rstrip_by (Ascii.eqb CR) s = s.
Proof.
  intros H. apply rstrip_none. eapply all_chars_impl; [|exact H]. intros c Hc. cbn beta in *.
  destruct (Ascii.eqb CR c) eqn:E; [|done]. apply Ascii.eqb_eq in E. by subst c.
Qed.

Lemma span_app p s rest :
  all_chars p s = true -> match rest with String c _ => p c = false | _ => True end ->
  span p (s +:+ rest) = (s, rest).
Proof.
  intros Hs Hr. induction s as [|c s IH].
  - rewrite sapp_nil. destruct rest as [|c rest]; [done|]. cbn. by rewrite Hr.
  - cbn [all_chars] in Hs. bool_to_prop. rewrite sapp_cons. cbn [span]. by rewrite H, IH.
Qed.

Lemma match_range_text start count terse rest :
  0 <= start -> 0 <= count ->
  exists g, match_range (range_text start count terse +:+ String " " rest) = Some (g, String " " rest) /\
    count_of g = count.
Proof.
  intros Hs Hc. unfold match_range, range_text. rewrite sapp_assoc.
  pose proof (show_Z_nonneg_digits _ Hs) as Ds. pose proof (show_Z_nonneg_digits _ Hc) as Dc.
  assert (String.eqb (show_Z start) "" = false) as Es by (apply String.eqb_neq, show_Z_nonempty).
  assert (String.eqb (show_Z count) "" = false) as Ec by (apply String.eqb_neq, show_Z_nonempty).
  destruct (terse && (count =? 1)) eqn:E; bool_to_prop.
  - rewrite sapp_nil, span_app, Es by done. exists None. done.
  - rewrite span_app, Es by done. change ("," +:+ show_Z count) with (String "," (show_Z count)).
    rewrite sapp_cons, span_app, Ec by done. eexists. split; [reflexivity|]. cbn. by rewrite py_int_opt_show.
Qed.

Lemma weigh_nonneg f l : (forall b, 0 <= f b) -> 0 <= weigh f l.
Proof. intros Hf. induction l as [|b l IH]; cbn; [lia|]. specialize (Hf b). unfold weigh in IH. lia. Qed.

Lemma old_weight_nonneg b : 0 <= old_weight b. Proof. by destruct b. Qed.
Lemma new_weight_nonneg b : 0 <= new_weight b. Proof. by destruct b. Qed.

Lemma hunk_header_match h :
  0 <= old_start h -> 0 <= new_start h ->
  exists g1 g2, _HUNK_HEADER_RE (hunk_header h) = Some (g1, g2) /\
    count_of g1 = weigh old_weight (body h) /\ count_of g2 = weigh new_weight (body h).
Proof.
  intros Ho Hn. unfold _HUNK_HEADER_RE, hunk_header. rewrite startswith_app, (sdrop_app "@@ -" _ : sdrop 4 _ = _).
  change (" +" +:+ ?x) with (String " " ("+" +:+ x)).
  destruct (match_range_text (old_start h) (weigh old_weight (body h)) (terse_old h)
    ("+" +:+ range_text (new_start h) (weigh new_weight (body h)) (terse_new h) +:+ " @@" +:+ section h))
    as (g1 & -> & H1); [done|apply weigh_nonneg, old_weight_nonneg|].
  change (String " " ("+" +:+ ?x)) with (" +" +:+ x). rewrite startswith_app, (sdrop_app " +" _ : sdrop 2 _ = _).
  change (" @@" +:+ ?x) with (String " " ("@@" +:+ x)).
  destruct (match_range_text (new_start h) (weigh new_weight (body h)) (terse_new h) ("@@" +:+ section h))
    as (g2 & -> & H2); [done|apply weigh_nonneg, new_weight_nonneg|].
  change (String " " ("@@" +:+ ?x)) with (" @@" +:+ x). rewrite startswith_app. eauto.
Qed.

Lemma hunk_body_shorter lines o n a fb a' fb' rest :
  hunk_body lines o n a fb = (a', fb', rest) -> (length rest <= length lines)%nat.
Proof.
  revert o n a fb. induction lines as [|l lines IH]; intros o n a fb; cbn [hunk_body].
  - by intros [= <- <- <-].
  - repeat split_match; intros H; try (apply IH in H; cbn; lia). by simplify_eq.
Qed.

Lemma parse_fuel f lines tgt hs fb :
  (length lines <= f)%nat -> parse_loop f lines tgt hs fb = parse_loop (length lines) lines tgt hs fb.
Proof.
  revert lines tgt hs fb. induction f as [f IH] using lt_wf_ind. intros lines tgt hs fb Hf.
  destruct lines as [|l lines]; [by destruct f|]. destruct f as [|f]; [cbn in Hf; lia|].
  cbn [length] in *. cbn [parse_loop]. destruct (_FILE_HEADER_RE l); [by apply IH; lia|].
  destruct (_HUNK_HEADER_RE l) as [[g1 g2]|]; [|by apply IH; lia].
  destruct (hunk_body lines _ _ _ _) as [[a fb'] rest] eqn:E. apply hunk_body_shorter in E.
  rewrite (IH f), (IH (length lines)) by lia. done.
Qed.

(** The loop with exactly the rounds it needs, line by line. *)
Definition parse (lines : list string) := parse_loop (length lines) lines.

Lemma parse_plain l lines tgt hs fb : plain l -> parse (l :: lines) tgt hs fb = parse lines tgt hs fb.
Proof. intros [H1 H2]. unfold parse. cbn [length parse_loop]. by rewrite H1, H2. Qed.

Lemma parse_plains ls lines tgt hs fb : Forall plain ls -> parse (ls ++ lines) tgt hs fb = parse lines tgt hs fb.
Proof. induction 1 as [|l ls Hl _ IH]; [done|]. cbn [app]. by rewrite parse_plain. Qed.

Lemma parse_file_header p lines tgt hs fb :
  p <> "" -> all_chars (fun c => negb (is_space c)) p = true ->
  parse (("--- a/" +:+ p) :: ("+++ b/" +:+ p) :: lines) tgt hs fb = parse lines (Some p) hs fb.
Proof.
  intros Hne Hp. unfold parse at 1. cbn [length parse_loop].
  assert (_FILE_HEADER_RE ("--- a/" +:+ p) = Some ("a/" +:+ p)) as ->.
  { unfold _FILE_HEADER_RE, match_word. change ("--- a/" +:+ p) with ("--- " +:+ ("a/" +:+ p)).
    rewrite startswith_app, sdrop_app. rewrite <- (sapp_nil_r ("a/" +:+ p)) at 1.
    rewrite span_app; [done| |done]. rewrite all_chars_app. by rewrite Hp. }
  assert (_OLD_PATH_RE ("--- a/" +:+ p) = Some p) as ->.
  { unfold _OLD_PATH_RE, match_word. rewrite startswith_app, sdrop_app. rewrite <- (sapp_nil_r p) at 1.
    rewrite span_app by done. by destruct p. }
  apply (parse_plain ("+++ b/" +:+ p)). done.
Qed.

Lemma weigh_cons f b l : weigh f (b :: l) = f b + weigh f l.
Proof. done. Qed.

(** A body whose counts are used up has only end-of-file notes left. *)
Lemma weightless l : weigh old_weight l = 0 -> weigh new_weight l = 0 -> Forall plain (render_line <$> l) /\ adds l = [] /\ kept l = ∅.
Proof.
  induction l as [|b l IH]; [done|]. rewrite !weigh_cons.
  pose proof (weigh_nonneg old_weight l old_weight_nonneg). pose proof (weigh_nonneg new_weight l new_weight_nonneg).
  destruct b; cbn [old_weight new_weight]; intros Ho Hn; try lia.
  destruct (IH ltac:(lia) ltac:(lia)) as (Hp & Ha & Hk). split_and!; [|exact Ha|exact Hk].
  rewrite fmap_cons. constructor; [done|exact Hp].
Qed.

Lemma kept_cons b l : kept (b :: l) = (match kept_line b with Some s => {[ s ]} ∪ kept l | None => kept l end).
Proof. unfold kept. cbn [omap list_omap]. by destruct (kept_line b). Qed.

Lemma union_swap (x : string) (k fb : gset string) : ({[ x ]} ∪ k) ∪ fb = k ∪ ({[ x ]} ∪ fb).
Proof. by rewrite (union_comm_L {[ x ]} k), <- union_assoc_L. Qed.

(** Decide the tests on the first character of a rendered line. *)
Ltac first_char :=
  rewrite ?startswith_app;
  repeat match goal with
  | |- context [startswith ?p ?x] => let b := eval cbv in (startswith p x) in change (startswith p x) with b
  end; cbv iota;
  repeat match goal with
  | |- context [sdrop 1 (?c +:+ ?s)] => change (sdrop 1 (c +:+ s)) with s
  end.

Lemma hunk_body_render l rest a fb :
  exists notes, Forall plain notes /\
  hunk_body ((render_line <$> l) ++ rest) (weigh old_weight l) (weigh new_weight l) a fb =
  (a ++ adds l, kept l ∪ fb, notes ++ rest).
Proof.
  revert a fb. induction l as [|b l IH]; intros a fb.
  - exists []. split; [done|]. cbn [fmap list_fmap app adds omap list_omap]. rewrite app_nil_r.
    unfold kept. cbn [omap list_omap list_to_set]. rewrite union_empty_l_L. by destruct rest.
  - destruct ((0 <? weigh old_weight (b :: l)) || (0 <? weigh new_weight (b :: l))) eqn:Ew.
    + rewrite fmap_cons. cbn [app hunk_body]. rewrite Ew, !weigh_cons, kept_cons.
      destruct b as [s| |s|s|]; cbn [old_weight new_weight kept_line];
        cbn [adds omap list_omap]; fold (adds l);
        rewrite ?Z.add_simpl_l, ?Z.add_0_l.
      * destruct (IH a ({[ strip s ]} ∪ fb)) as (ns & Hn & E). exists ns. split; [done|].
        cbn [render_line]. first_char. rewrite union_swap. exact E.
      * destruct (IH a ({[ "" ]} ∪ fb)) as (ns & Hn & E). exists ns. split; [done|].
        cbn [render_line]. first_char. rewrite union_swap. exact E.
      * destruct (IH a ({[ strip s ]} ∪ fb)) as (ns & Hn & E). exists ns. split; [done|].
        cbn [render_line]. first_char. rewrite union_swap. exact E.
      * destruct (IH (a ++ [s]) fb) as (ns & Hn & E). exists ns. split; [done|].
        cbn [render_line]. first_char. rewrite <- app_assoc in E. exact E.
      * destruct (IH a fb) as (ns & Hn & E). exists ns. split; [done|].
        cbn [render_line]. first_char. exact E.
    + pose proof (weigh_nonneg old_weight (b :: l) old_weight_nonneg).
      pose proof (weigh_nonneg new_weight (b :: l) new_weight_nonneg). bool_to_prop.
      destruct (weightless (b :: l)) as (Hp & Ha & Hk); [lia|lia|].
      exists (render_line <$> b :: l). split; [done|]. rewrite Ha, Hk, app_nil_r, union_empty_l_L.
      rewrite fmap_cons. cbn [app hunk_body].
      replace (_ || _) with false by (symmetry; apply orb_false_iff; split; apply Z.ltb_ge; lia). done.
Qed.

Lemma parse_hunk h lines tgt hs fb :
  hunk_ok h ->
  parse (render_hunk h ++ lines) tgt hs fb =
  parse lines tgt (hs ++ [Hunk (Z.of_nat (length hs) + 1) tgt (adds (body h))]) (kept (body h) ∪ fb).
Proof.
  intros [Ho Hn]. unfold render_hunk. cbn [app]. unfold parse at 1. cbn [length parse_loop].
  destruct (hunk_header_match h Ho Hn) as (g1 & g2 & -> & -> & ->).
  change (_FILE_HEADER_RE (hunk_header h)) with (@None string).
  destruct (hunk_body_render (body h) lines [] fb) as (ns & Hp & E). rewrite E.
  pose proof (hunk_body_shorter _ _ _ _ _ _ _ _ E) as Hs. rewrite parse_fuel by done.
  apply (parse_plains ns); done.
Qed.

Lemma number_app n l1 l2 : number n (l1 ++ l2) = number n l1 ++ number (n + length l1) l2.
Proof.
  revert n. induction l1 as [|[p h] l1 IH]; intros n; cbn [app number length].
  - by rewrite Nat.add_0_r.
  - rewrite IH. do 3 f_equal. lia.
Qed.

Lemma length_number n l : length (number n l) = length l.
Proof. revert n. induction l as [|[p h] l IH]; intros n; [done|]. cbn. by rewrite IH. Qed.

Lemma parse_hunks p rs lines acc fb :
  Forall hunk_ok rs ->
  parse ((rs ≫= render_hunk) ++ lines) (Some p) acc fb =
  parse lines (Some p) (acc ++ number (length acc) ((fun h => (p, h)) <$> rs))
    (⋃ ((fun h => kept (body h)) <$> rs) ∪ fb).
Proof.
  intros H. revert acc fb. induction H as [|h rs Hh _ IH]; intros acc fb.
  - cbn [mbind list_bind app fmap list_fmap number union_list foldr]. by rewrite app_nil_r, union_empty_l_L.
  - rewrite bind_cons, <- app_assoc, parse_hunk, IH by done. rewrite !fmap_cons. cbn [number union_list foldr].
    rewrite <- app_assoc, length_app. cbn [app length]. rewrite Nat.add_1_r.
    by rewrite union_assoc_L, (union_comm_L (⋃ _) (kept (body h))).
Qed.

Lemma hunks_of_cons f d : hunks_of (f :: d) = ((fun h => (path f, h)) <$> rhunks f) ++ hunks_of d.
Proof. done. Qed.

Lemma kept_of_cons f d : kept_of (f :: d) = ⋃ ((fun h => kept (body h)) <$> rhunks f) ∪ kept_of d.
Proof.
  unfold kept_of. rewrite hunks_of_cons, fmap_app, union_list_app_L, <- list_fmap_compose. done.
Qed.

Lemma parse_files d tgt acc fb :
  Forall file_ok d ->
  parse (render d) tgt acc fb = (acc ++ number (length acc) (hunks_of d), kept_of d ∪ fb).
Proof.
  intros H. revert tgt acc fb. induction H as [|f d [Hp [Hne Hw] Hs] _ IH]; intros tgt acc fb.
  - cbn. by rewrite app_nil_r, union_empty_l_L.
  - unfold render. rewrite bind_cons. fold (render d). unfold render_file. rewrite <- app_assoc.
    rewrite parse_plains by done. cbn [app]. rewrite parse_file_header, parse_hunks, IH by done.
    rewrite hunks_of_cons, number_app, kept_of_cons, length_app, length_number, length_fmap, app_assoc.
    by rewrite union_assoc_L, (union_comm_L (kept_of d)).
Qed.

(** C37. The diff parser reads back what a unified diff says.  For any diff
    written as files with hunks, each file headed by an a/ path (no created or
    deleted file, whose header names /dev/null), [_parse_hunks] returns one hunk per hunk
    written, numbered in file order, with its own file and its own added
    lines, and forbids exactly the stripped deleted and context lines: the
    counts of the hunk header delimit the body, so a body line that looks
    like a file or hunk header, an omitted count, an end-of-file note or a
    stripped blank context line does not disturb it. *)
Theorem parse_hunks_roundtrip d :
  Forall file_ok d -> Forall (fun s => no_break s = true) (render d) ->
  _parse_hunks (unlines (render d)) = (number 0 (hunks_of d), kept_of d).
Proof.
  intros Hd Hl. unfold _parse_hunks. rewrite splitlines_unlines by done.
  assert ((rstrip_by (Ascii.eqb CR) <$> render d) = render d) as ->.
  { induction Hl as [|s l Hs _ IH]; [done|]. by rewrite fmap_cons, rstrip_no_break, IH. }
  fold (parse (render d)). rewrite parse_files by done. by rewrite union_empty_r_L.
Qed.

(** A diff with an omitted count, a body line that looks like a file header
    and one that looks like a hunk header. *)
Definition demo_diff : list rfile :=
  [RFile ["diff --git a/uart.c b/uart.c"] "uart.c"
     [RHunk 10 10 true false " static void f(void)"
        [Del "-- a/fake.c"; Add "    // BUG01: free the ISR first"; Add "@ -1 +1 @@"; NoEol]];
   RFile [] "lact.c" [RHunk 3 4 false false "" [Ctx "{"; StrippedCtx; Add "    if (!isr) return;"]]].

Lemma parse_hunks_roundtrip_witness :
  _parse_hunks (unlines (render demo_diff)) =
  ([Hunk 1 (Some "uart.c") ["    // BUG01: free the ISR first"; "@ -1 +1 @@"];
    Hunk 2 (Some "lact.c") ["    if (!isr) return;"]], {[ "-- a/fake.c"; "{"; "" ]}).
Proof.
  rewrite (parse_hunks_roundtrip demo_diff).
  - vm_compute. reflexivity.
  - repeat constructor; discriminate.
  - repeat constructor.
Defined.

(** ** The step on this diff

    A [patch] that writes both files, and changes nothing in a dry run. *)

Definition demo_text : string := unlines (render demo_diff).
Definition demo_tree : tree := {[ "uart.c" := "-- a/fake.c"; "lact.c" := "{" ]}.
Definition demo_patched : tree :=
  <[ "uart.c" := "    // BUG01: free the ISR first" ]> (<[ "lact.c" := "{ if (!isr) return;" ]> demo_tree).

Definition demo_patch (args : list string) (t : tree) : run_result * tree :=
  if bool_decide ("--dry-run" ∈ args) then (RunResult 0 "" "" false, t)
  else (RunResult 0 "" "" false, demo_patched ∪ t).

Definition demo_world : pworld := PWorld demo_tree [] [].
Definition demo_main : eff pworld unit :=
  patch_main demo_patch "patches/x.patch" "x.patch" demo_text "/tmp/a/reject" "/tmp/b/reject".

Lemma demo_checkable : checkable demo_text.
Proof.
  unfold checkable.
  replace (_parse_hunks demo_text) with (number 0 (hunks_of demo_diff), kept_of demo_diff)
    by (vm_compute; reflexivity).
  split; [discriminate|].
  repeat constructor; vm_compute; discriminate.
Qed.

Lemma patch_main_verdict_witness :
  checkable demo_text /\
  applied_once demo_patch "patches/x.patch" demo_text "/tmp/b/reject" demo_world (demo_main demo_world).1 (demo_main demo_world).2.
Proof.
  split; [exact demo_checkable|].
  pose proof (patch_main_verdict demo_patch "patches/x.patch" "x.patch" demo_text "/tmp/a/reject" "/tmp/b/reject"
    demo_world demo_checkable) as H.
  fold demo_main in H. destruct (demo_main demo_world) as [r w'].
  replace (patched demo_text (fs demo_world)) with false in H by (vm_compute; reflexivity).
  replace (pristine demo_text (fs demo_world)) with true in H by (vm_compute; reflexivity).
  exact H.
Defined.

Lemma patch_main_idempotent_witness :
  let w2 := PWorld (fs (demo_main demo_world).2) [] [] in
  (demo_main w2).1 = Raise (SystemExit 0) /\ fs (demo_main w2).2 = fs w2.
Proof.
  intros w2.
  destruct (patch_main_idempotent demo_patch "patches/x.patch" "x.patch" demo_text "/tmp/a/reject" "/tmp/b/reject"
    demo_world w2) as (H1 & H2 & _).
  - intros args t Hin. unfold demo_patch. by rewrite bool_decide_true.
  - left. vm_compute. reflexivity.
  - reflexivity.
  - split; [exact H1|exact H2].
Defined.
