(* ===== verification/ApiClient.v ===== *)
(** * The HTTP client of the device (src/api_tests/api_client.py)

    The device is outside this library: a parameter [device] that answers a
    request in a device state, or raises what [requests] would raise.  The
    client keeps its base URL and its session; the session keeps the cookies.
    The world also has the log of every request issued, the number of
    sessions not closed yet, and a clock that sleeps and requests advance. *)

From Stdlib Require Import QArith Qminmax Lqa.
From stdpp Require Import base list gmap strings.
From Stdlib Require Import ZArith Lia.
From S2P Require Import Prelude PyStr QemuPorts.

Open Scope Z_scope.

(** ** JSON values, requests and responses *)

#[warnings="-register-all"]
Inductive json : Type :=
| JNull
| JBool (b : bool)
| JNum (n : Z)
| JStr (s : string)
| JList (l : list json)
| JObj (fields : list (string * json)).

(** [d.get(k)] on a dict read from JSON. *)
Definition jget (k : string) (fields : list (string * json)) : option json :=
  snd <$> head (filter (fun kv => kv.1 = k) fields).

(** [d[k] = v] on such a dict. *)
Definition jset (k : string) (v : json) (fields : list (string * json)) : list (string * json) :=
  if bool_decide (k ∈ fields.*1)
  then (fun kv => if bool_decide (kv.1 = k) then (k, v) else kv) <$> fields
  else fields ++ [(k, v)].

(** [j[key]] on a value read from JSON. *)
Definition jindex (key : string) (j : json) : outcome json :=
  match j with
  | JObj fields => match jget key fields with Some v => Ok v | None => Raise KeyError end
  | _ => Raise TypeError
  end.

(** [int(v)]. *)
Definition int_of (v : json) : outcome Z :=
  match v with
  | JNum n => Ok n
  | JBool b => Ok (Z.b2z b)
  | JStr s => py_int s
  | _ => Raise TypeError
  end.

(** [v == w]: [True] and [1] are equal, dicts are compared without order. *)
Fixpoint jeq (v w : json) {struct v} : bool :=
  match v, w with
  | JNull, JNull => true
  | JStr s, JStr t => String.eqb s t
  | JBool b, JBool c => Bool.eqb b c
  | JBool b, JNum n => Z.b2z b =? n
  | JNum n, JBool b => n =? Z.b2z b
  | JNum n, JNum m => n =? m
  | JList l, JList m =>
      (fix go l m := match l, m with
       | [], [] => true
       | x :: l, y :: m => jeq x y && go l m
       | _, _ => false
       end) l m
  | JObj f, JObj g =>
      (length f =? length g)%nat &&
      (fix go f := match f with
       | [] => true
       | (k, x) :: f => (match jget k g with Some y => jeq x y | None => false end) && go f
       end) f
  | _, _ => false
  end.

Inductive http_method : Type := GET | POST.

Record request := Request {
  meth : http_method;
  url_path : string;
  payload : option json;
  timeout : Q * Q            (* connect and read budgets; a scalar bounds each *)
}.

Definition scalar (t : Q) : Q * Q := (t, t).

(** [json()] raises when the body is not JSON. *)
Record response := Response {
  status_code : Z;
  body_text : string;
  body_json : option json;
  set_cookies : list (string * string)
}.

Definition resp_json (r : response) : outcome json :=
  match body_json r with Some j => Ok j | None => Raise JSONDecodeError end.

(** One call of the client as a test made it: how often the test had looked at
    its clock or its statistics by then, the requests the call issued, and
    what it gave the test. *)
Record exchange := Exchange {
  asked_at : nat;
  issued : list request;
  answer : outcome response
}.

Section Client.

Context {D : Type} (device : request -> D -> outcome response * D).

Record aworld := AWorld {
  dev : D;
  log : list request;
  cookies : gmap string string;     (* of the current session *)
  open_sessions : nat;
  now : Q;
  cost : nat -> Q                   (* how long the n-th request takes *)
}.

Definition asleep (d : Q) : eff aworld unit :=
  modify (fun w => AWorld (dev w) (log w) (cookies w) (open_sessions w) (now w + d) (cost w)).

Definition anow : eff aworld Q := fun w => (Ok (now w), w).

Definition DELAY_S : Q := 1 # 10.

Definition store_cookies (r : outcome response) (c : gmap string string) : gmap string string :=
  match r with
  | Ok r => foldr (fun kv m => <[kv.1 := kv.2]> m) c (set_cookies r)
  | _ => c
  end.

(** [_DelayedSession.request] *)
Definition session_request (q : request) : eff aworld response :=
  asleep DELAY_S ;;;
  (fun w =>
     let (r, d) := device q (dev w) in
     (r, AWorld d (log w ++ [q]) (store_cookies r (cookies w)) (open_sessions w)
           (now w + cost w (length (log w))) (cost w))).

Definition http_get (path : string) (t : Q) : eff aworld response :=
  session_request (Request GET path None (scalar t)).
Definition http_post (path : string) (data : option json) (t : Q) : eff aworld response :=
  session_request (Request POST path data (scalar t)).

(** [WBMGEAPI(base_url)]: the base URL it ends up with; one session. *)
Definition client_base_url (slot : Z) (base_url : option string) : string :=
  default ("http://" +:+ HOST +:+ ":" +:+ show_Z (HTTP_HOST_PORT slot)) base_url.

(** [reconnect()]: a new session with the old session's cookies. *)
Definition reconnect : eff aworld unit := fun w =>
  let old_cookies := cookies w in
  let closed := AWorld (dev w) (log w) ∅ (pred (open_sessions w)) (now w) (cost w) in
  (Ok tt, AWorld (dev closed) (log closed) (old_cookies ∪ cookies closed) (S (open_sessions closed)) (now closed) (cost closed)).

Definition auth (login password : string) : eff aworld response :=
  http_post "/auth" (Some (JObj [("login", JStr login); ("pass", JStr password)])) 10.

Definition DEFAULT_LOGIN : string := "admin".
Definition DEFAULT_PASSWORD : string := "admin".

Definition get_info : eff aworld response := http_get "/info" 10.
Definition get_settings : eff aworld response := http_get "/settings" 30.
Definition update_settings (data : json) : eff aworld response := http_post "/settings" (Some data) 30.
Definition start_wifi_scan : eff aworld response := http_post "/wifi_scan/start" None 10.
Definition get_wifi_scan_results : eff aworld response := http_get "/wifi_scan/results" 10.
Definition get_ap_clients : eff aworld response := http_get "/ap_clients" 10.
Definition get_static_file (path : string) : eff aworld response := http_get ("/" +:+ path) 10.
Definition get_session : eff aworld response := http_get "/session" 10.
Definition logout : eff aworld response := http_post "/logout" None 10.
Definition get_uptime : eff aworld response := http_get "/uptime" 10.
Definition get_cache_status : eff aworld response := http_get "/cache/status" 10.
Definition get_cache_csv : eff aworld response := http_get "/cache/csv" 10.
Definition get_cache_json : eff aworld response := http_get "/cache/json" 10.
Definition get_hostname : eff aworld response := http_get "/hostname" 10.

Definition mode_request (port_num : Z) (mode : json) : request :=
  Request POST ("/ports/" +:+ show_Z port_num +:+ "/mode") (Some (JObj [("mode", mode)])) (scalar 30).

(** The one failure [set_port_mode] retries. *)
Definition transient (r : response) : bool :=
  (status_code r =? 400) && contains "ESP_FAIL" (body_text r).

(** The loop of [set_port_mode], with [more] attempts left after this one. *)
Fixpoint mode_attempts (more : nat) (q : request) (settle_s : Q) : eff aworld response :=
  let* resp := session_request q in
  if negb (transient resp) then ret resp
  else match more with
       | O => ret resp
       | S more => asleep settle_s ;;; mode_attempts more q settle_s
       end.

Definition set_port_mode (port_num : Z) (mode : json) (settle_retries : nat) (settle_s : Q)
    : eff aworld response :=
  mode_attempts settle_retries (mode_request port_num mode) settle_s.

Definition set_port_mode_default (port_num : Z) (mode : json) : eff aworld response :=
  set_port_mode port_num mode 2 (1 # 2).

Definition set_port_cache (port_num : Z) (enabled : bool) : eff aworld response :=
  http_post ("/ports/" +:+ show_Z port_num +:+ "/cache") (Some (JObj [("enabled", JBool enabled)])) 10.
Definition send_packet (port_num : Z) (hex_str : string) : eff aworld response :=
  http_post ("/ports/" +:+ show_Z port_num +:+ "/send") (Some (JObj [("hex", JStr hex_str)])) 10.
Definition get_wb_test : eff aworld response := http_get "/wb_test" 10.
Definition set_wb_test (clock_out : bool) : eff aworld response :=
  http_post "/wb_test" (Some (JObj [("clock_out", JBool clock_out)])) 10.
Definition get_sniffer_status : eff aworld response := http_get "/sniffer/status" 10.
Definition execute_command (cmd : string) : eff aworld response :=
  http_post "/cmd" (Some (JObj [("cmd", JStr cmd)])) 30.

(** One round of [wait_for_ready]: is the server back? *)
Definition ready_probe : eff aworld bool :=
  try_except
    (let* _ := auth DEFAULT_LOGIN DEFAULT_PASSWORD in
     let* resp := get_info in
     ret (status_code resp =? 200))
    (catches RequestException) (fun _ => ret false).

Fixpoint ready_loop (fuel : nat) (interval deadline : Q) : eff aworld unit :=
  match fuel with
  | O => block
  | S fuel =>
      let* t := anow in
      if Qle_bool deadline t then raise TimeoutError
      else
        asleep interval ;;;
        reconnect ;;;
        let* back := ready_probe in
        if (back : bool) then ret tt else ready_loop fuel interval deadline
  end.

Definition wait_for_ready (fuel : nat) (timeout interval : Q) : eff aworld unit :=
  let* t := anow in ready_loop fuel interval (t + timeout)%Q.

(** ** What the calls do to the world *)

(** Every call only issues requests: the log grows, time does not go back,
    and no session is left behind. *)
Record advances (w w' : aworld) : Prop := {
  adv_log : exists l, log w' = log w ++ l;
  adv_sessions : open_sessions w' = open_sessions w;
  adv_cost : cost w' = cost w;
  adv_now : (forall n, (0 <= cost w n)%Q) -> (now w <= now w')%Q
}.

Lemma advances_refl w : advances w w.
Proof. split; auto using Qle_refl. exists []. by rewrite app_nil_r. Qed.

Lemma advances_trans w1 w2 w3 : advances w1 w2 -> advances w2 w3 -> advances w1 w3.
Proof.
  intros [[l1 L1] S1 C1 T1] [[l2 L2] S2 C2 T2]. split; [|congruence|congruence|].
  - exists (l1 ++ l2). by rewrite L2, L1, app_assoc.
  - intros H. eapply Qle_trans; [by apply T1|]. apply T2. by rewrite C1.
Qed.

Lemma session_request_spec q w :
  exists r d t c, session_request q w = (r, AWorld d (log w ++ [q]) c (open_sessions w) t (cost w)) /\
    device q (dev w) = (r, d) /\
    ((forall n, (0 <= cost w n)%Q) -> (now w + DELAY_S <= t)%Q).
Proof.
  unfold session_request, bind, asleep, modify. cbn [dev log cookies open_sessions now cost].
  destruct (device q (dev w)) as [r d]. eexists r, d, _, _. split; [reflexivity|].
  split; [reflexivity|]. intros H. specialize (H (length (log w))). lra.
Qed.

Lemma session_request_advances q w : advances w (session_request q w).2.
Proof.
  destruct (session_request_spec q w) as (r & d & t & c & -> & _ & Ht). split; cbn; [eauto|done|done|].
  intros H. specialize (Ht H). unfold DELAY_S in Ht. lra.
Qed.

(** [set_port_mode] repeats one request, at least once and at most
    [settle_retries + 1] times; it repeats only after the transient
    failure, and stops at the first other answer. *)
Lemma mode_attempts_spec more q settle_s w :
  exists n r w', mode_attempts more q settle_s w = (r, w') /\ (1 <= n <= S more)%nat /\
    log w' = log w ++ replicate n q /\ open_sessions w' = open_sessions w /\
    (forall resp, r = Ok resp -> transient resp = false \/ n = S more).
Proof.
  revert w. induction more as [|more IH]; intros w; cbn [mode_attempts]; unfold bind at 1;
    destruct (session_request_spec q w) as (r & d & t & c & -> & _ & _); destruct r as [resp|e|].
  1,4: destruct (transient resp) eqn:Et; cbn [negb].
  all: try (eexists 1%nat, _, _; split; [reflexivity|]; split; [lia|]; cbn;
    split_and!; [done|done|]; intros r Hr; simplify_eq; by auto).
  unfold bind, asleep, modify. cbn [dev log cookies open_sessions now cost].
  match goal with |- context [mode_attempts more q settle_s ?x] => set (w1 := x) end.
  destruct (IH w1) as (n & r & w' & -> & Hn & Hl & Ho & Hr). exists (S n), r, w'.
  split_and!; [done|lia|lia| |by rewrite Ho|].
  - rewrite Hl. cbn. by rewrite <- app_assoc.
  - intros resp' E. destruct (Hr _ E); [auto|right; lia].
Qed.

(** A device that always answers or fails never holds the client up. *)
Lemma session_request_settled q w : (forall q d, settled (device q d).1) -> settled (session_request q w).1.
Proof. intros Hd. destruct (session_request_spec q w) as (r & d & t & c & -> & H & _). specialize (Hd q (dev w)). by rewrite H in Hd. Qed.

Lemma mode_attempts_settled more q settle_s w : (forall q d, settled (device q d).1) -> settled (mode_attempts more q settle_s w).1.
Proof.
  intros Hd. revert w. induction more as [|more IH]; intros w; cbn [mode_attempts]; unfold bind at 1;
    pose proof (session_request_settled q w Hd) as Hs;
    destruct (session_request q w) as [[resp|e|] w']; try done; destruct (negb (transient resp)); try done.
  apply IH.
Qed.

(** ** Waiting for the server *)

Lemma reconnect_advances w : (1 <= open_sessions w)%nat -> advances w (reconnect w).2 /\ cookies (reconnect w).2 = cookies w.
Proof.
  intros Ho. split.
  - split; cbn; [exists []; by rewrite app_nil_r|lia|done|intros; apply Qle_refl].
  - cbn. by rewrite map_union_empty.
Qed.

Definition info_request : request := Request GET "/info" None (scalar 10).

Lemma ready_probe_spec w :
  (forall q d, settled (device q d).1) ->
  settled (ready_probe w).1 /\ advances w (ready_probe w).2 /\
  ((ready_probe w).1 = Ok true -> exists d resp, (device info_request d).1 = Ok resp /\ status_code resp = 200).
Proof.
  intros Hd. unfold ready_probe, try_except, auth, get_info, http_post, http_get.
  unfold bind at 1 2 3 4 5 6.
  set (q1 := Request POST _ _ _). set (q2 := Request GET _ _ _).
  pose proof (session_request_advances q1 w) as A1.
  destruct (session_request_spec q1 w) as (r1 & d1 & t1 & c1 & E1 & D1 & _). rewrite E1 in *. cbn [snd] in A1.
  pose proof (Hd q1 (dev w)) as S1. rewrite D1 in S1. cbn in S1.
  destruct r1 as [resp1|e1|]; [| |done].
  - set (w1 := AWorld _ _ _ _ _ _) in *.
    pose proof (session_request_advances q2 w1) as A2.
    destruct (session_request_spec q2 w1) as (r2 & d2 & t2 & c2 & E2 & D2 & _). rewrite E2 in *. cbn [snd] in A2.
    pose proof (Hd q2 (dev w1)) as S2. rewrite D2 in S2. cbn in S2.
    destruct r2 as [resp2|e2|]; [| |done].
    + split; [done|]. split; [by eapply advances_trans|]. cbn. intros [= E]. exists (dev w1), resp2. change info_request with q2. rewrite D2. split; [done|]. by apply Z.eqb_eq.
    + destruct (catches RequestException e2); (split; [done|]); (split; [by eapply advances_trans|done]).
  - destruct (catches RequestException e1); (split; [done|]); (split; [done|done]).
Qed.

Lemma ready_loop_S fuel interval deadline :
  ready_loop (S fuel) interval deadline =
  let* t := anow in
  if Qle_bool deadline t then raise TimeoutError
  else
    asleep interval ;;;
    reconnect ;;;
    let* back := ready_probe in
    if (back : bool) then ret tt else ready_loop fuel interval deadline.
Proof. done. Qed.

(** On a device that always answers or fails, with requests that take no
    negative time, [wait_for_ready] ends: by [TimeoutError] or another
    exception, or by returning after an /info answered 200; it leaves no
    session open besides the current one. *)
Lemma ready_loop_ends fuel interval deadline w :
  (forall q d, settled (device q d).1) -> (forall n, (0 <= cost w n)%Q) -> (0 < interval)%Q ->
  (1 <= open_sessions w)%nat ->
  (deadline - now w <= inject_Z (Z.of_nat fuel) * interval)%Q ->
  exists r w', ready_loop (S fuel) interval deadline w = (r, w') /\ settled r /\
    open_sessions w' = open_sessions w /\
    (r = Ok tt -> exists d resp, (device info_request d).1 = Ok resp /\ status_code resp = 200).
Proof.
  intros Hd. revert w. induction fuel as [|fuel IH]; intros w Hc Hi Ho Hf; rewrite ready_loop_S;
    unfold bind at 1, anow; (destruct (Qle_bool deadline (now w)) eqn:Eq; [by eexists _, _|]).
  - exfalso. apply not_true_iff_false in Eq. apply Eq, Qle_bool_iff. change (inject_Z (Z.of_nat 0)) with 0%Q in Hf. lra.
  - unfold bind at 1, asleep, modify. unfold bind at 1.
    match goal with |- context [reconnect ?x] => set (w1 := x) end.
    destruct (reconnect_advances w1 Ho) as [A _]. destruct (reconnect w1) as [[[]|e|] w2] eqn:Er; [|done|done].
    cbn [snd] in A. unfold bind at 1.
    destruct (ready_probe_spec w2 Hd) as (Hs & A2 & Hr).
    destruct (ready_probe w2) as [[b|e|] w3] eqn:Ep; cbn [fst snd] in *; [| |done].
    + pose proof (advances_trans _ _ _ A A2) as [_ So Co To]. cbn [w1 open_sessions cost now] in So, Co, To.
      destruct b; [eexists _, _; split_and!; [done|done|done|auto]|].
      destruct (IH w3) as (r & w' & -> & Hset & Hop & Hok).
      * by rewrite Co.
      * done.
      * lia.
      * specialize (To Hc). rewrite Nat2Z.inj_succ, <- Z.add_1_r, inject_Z_plus in Hf. change (inject_Z 1) with 1%Q in Hf. lra.
      * exists r, w'. split_and!; [done|done|lia|done].
    + pose proof (advances_trans _ _ _ A A2) as [_ So _ _]. by eexists _, _.
Qed.

End Client.

Arguments aworld : clear implicits.
Arguments AWorld {D}.
