(* ===== verification/Gateway.v ===== *)
(** * The gateway fixture (src/api_tests/conftest.py, [build_gateway_fixture])

    The fixture puts one RS-485 port into gateway mode for a test and takes it
    back afterwards.  It talks to the device through the settings client and,
    in Modbus mode, runs an RTU slave thread that holds the single-client UART
    chardev.  The client is an interface ([SettingsClient]); the HTTP client of
    [ApiClient] implements it.  The environment says how the chardev probe,
    the start of the thread, its connection, its exit and [warnings.warn]
    turn out. *)

From Stdlib Require Import QArith.
From stdpp Require Import base list gmap strings.
From Stdlib Require Import ZArith Lia.
From S2P Require Import Prelude PyStr ApiClient.

Open Scope Z_scope.

(** ** The client interface *)

(** What the fixture needs of a client: its calls always return or raise,
    and each of them sends the request it stands for. *)
Class SettingsClient (C : Type) := {
  sc_log : C -> list request;
  sc_get_settings : Q * Q -> eff C response;
  sc_post_settings : json -> Q * Q -> eff C response;
  sc_set_port_mode : Z -> json -> eff C response;
  sc_get_spec : forall t c, settled (sc_get_settings t c).1 /\
    sc_log (sc_get_settings t c).2 = sc_log c ++ [Request GET "/settings" None t];
  sc_post_spec : forall j t c, settled (sc_post_settings j t c).1 /\
    sc_log (sc_post_settings j t c).2 = sc_log c ++ [Request POST "/settings" (Some j) t];
  sc_mode_spec : forall p m c, settled (sc_set_port_mode p m c).1 /\
    exists n, (1 <= n <= 3)%nat /\
      sc_log (sc_set_port_mode p m c).2 = sc_log c ++ replicate n (mode_request p m)
}.

(** The HTTP client provides it when the device always answers or fails. *)
Section Http.

Context {D : Type} (device : request -> D -> outcome response * D).
Hypothesis device_settled : forall q d, settled (device q d).1.

#[refine] Instance http_settings_client : SettingsClient (aworld D) := {
  sc_log := log;
  sc_get_settings := fun t => session_request device (Request GET "/settings" None t);
  sc_post_settings := fun j t => session_request device (Request POST "/settings" (Some j) t);
  sc_set_port_mode := set_port_mode_default device
}.
Proof.
  - intros t c. split; [by apply session_request_settled|].
    by destruct (session_request_spec device (Request GET "/settings" None t) c) as (r & d & t' & c' & -> & _).
  - intros j t c. split; [by apply session_request_settled|].
    by destruct (session_request_spec device (Request POST "/settings" (Some j) t) c) as (r & d & t' & c' & -> & _).
  - intros p m c. split; [by apply mode_attempts_settled|]. unfold set_port_mode_default, set_port_mode.
    destruct (mode_attempts_spec device 2 (mode_request p m) (1 # 2) c) as (n & r & w' & -> & Hn & Hl & _).
    exists n. split; [lia|done].
Defined.

End Http.

(** ** The fixture *)

(** A [threading.Thread] of the fixture. *)
Record thread := Thread { started : bool; stop_event : bool }.

Record environment := Environment {
  probe : outcome unit;           (* require_uart_chardev(...).close() *)
  start_error : option exn;       (* Thread.start() *)
  connects : bool;                (* wait_connected(5.0) *)
  exits : bool;                   (* the thread ends within join(3.0) *)
  warn_error : option exn         (* warnings.warn() turned into an error *)
}.

Record gworld (C : Type) := GWorld {
  client : C;
  slave : option thread;
  warnings : nat;
  printed : nat
}.
Arguments GWorld {C}.
Arguments client {C}.
Arguments slave {C}.
Arguments warnings {C}.
Arguments printed {C}.

(** Truth value of a JSON value, and its equality with an integer. *)
Definition truthy (j : json) : bool :=
  match j with
  | JNull => false
  | JBool b => b
  | JNum n => negb (n =? 0)
  | JStr s => negb (String.eqb s "")
  | JList l => negb (length l =? 0)%nat
  | JObj f => negb (length f =? 0)%nat
  end.

Definition jeq_int (j : json) (n : Z) : bool :=
  match j with JNum m => m =? n | JBool b => Z.b2z b =? n | _ => false end.

(** [j.get(k)]: only dicts have [get]. *)
Definition py_get (k : string) (j : json) : outcome (option json) :=
  match j with JObj f => Ok (jget k f) | _ => Raise AttributeError end.

(** [dict(j)]; a non-empty list or string is taken to be no sequence of
    pairs. *)
Definition py_dict (j : json) : outcome (list (string * json)) :=
  match j with
  | JObj f => Ok f
  | JList [] | JStr "" => Ok []
  | JList _ | JStr _ => Raise ValueError
  | JNull | JBool _ | JNum _ => Raise TypeError
  end.

Definition is_success (j : json) : bool :=
  match j with
  | JObj f => match jget "success" f with Some (JBool true) => true | _ => false end
  | _ => false
  end.

Definition _SETTINGS_BLOB_HTTP_TIMEOUT : Q * Q := (5, 30)%Q.

Section Fixture.

Context {C : Type} `{SettingsClient C}.
Context (port_num bridge_port : Z) (modbus : bool) (env : environment).

Definition on_client {A} (m : eff C A) : eff (gworld C) A := fun w =>
  let (r, c) := m (client w) in (r, GWorld c (slave w) (warnings w) (printed w)).

Definition set_slave (t : option thread) : eff (gworld C) unit :=
  modify (fun w => GWorld (client w) t (warnings w) (printed w)).

Definition print : eff (gworld C) unit :=
  modify (fun w => GWorld (client w) (slave w) (warnings w) (S (printed w))).

Definition warn : eff (gworld C) unit :=
  match warn_error env with
  | Some e => raise e
  | None => modify (fun w => GWorld (client w) (slave w) (S (warnings w)) (printed w))
  end.

Definition assert_ (b : bool) : eff (gworld C) unit := if b then ret tt else raise AssertionError.

Definition rs485_key : string := "rs485_" +:+ show_Z port_num.

Definition update_settings (j : json) : eff (gworld C) response :=
  on_client (sc_post_settings j (scalar 30)).

(** [assert resp.json().get("success") is True] *)
Definition assert_success (resp : response) : eff (gworld C) unit :=
  let* j := lift (resp_json resp) in
  let* s := lift (py_get "success" j) in
  assert_ (match s with Some (JBool true) => true | _ => false end).

(** Step 3: disable the port, to release the UART driver. *)
Definition disable_port : eff (gworld C) unit :=
  let* resp := on_client (sc_set_port_mode port_num (JStr "disabled")) in
  assert_ (status_code resp =? 200).

(** Step 3.5: free the port from the cache server.  [and] evaluates the
    second operand only when the first is truthy. *)
Definition free_cache_port (original : json) : eff (gworld C) unit :=
  let* enabled := lift (py_get "cache_modbus_server_enabled" original) in
  if from_option truthy false enabled then
    let* port := lift (py_get "cache_modbus_port" original) in
    if from_option (fun j => jeq_int j bridge_port) false port then
      let* resp := update_settings (JObj [("cache_modbus_server_enabled", JBool false)]) in
      if negb (status_code resp =? 200) then raise AssertionError else assert_success resp
    else ret tt
  else ret tt.

Definition bridge_object : json :=
  JObj [("mode", JStr "server"); ("port", JNum bridge_port); ("ip", JStr "0.0.0.0"); ("modbus", JBool modbus)].

(** Step 4: the RS-485 settings with the bridge sub-object. *)
Definition apply_bridge_settings (original : json) : eff (gworld C) unit :=
  let* old := lift (py_get rs485_key original) in
  let* fields := lift (py_dict (default (JObj []) old)) in
  let port_settings := jset "bridge" bridge_object fields in
  let* resp := update_settings (JObj [(rs485_key, JObj port_settings)]) in
  assert_ (status_code resp =? 200) ;;;
  assert_success resp.

(** Step 5 *)
Definition enable_bridge : eff (gworld C) unit :=
  let* resp := on_client (sc_set_port_mode port_num (JStr "tcp_bridge")) in
  assert_ (status_code resp =? 200).

(** Step 6: the RTU slave, for a Modbus gateway.  The local variable is
    assigned before [start()]. *)
Definition start_slave : eff (gworld C) unit :=
  if modbus then
    set_slave (Some (Thread false false)) ;;;
    match start_error env with
    | Some e => raise e
    | None => set_slave (Some (Thread true false)) ;;; assert_ (connects env)
    end
  else ret tt.

Definition gateway_setup (original : json) : eff (gworld C) unit :=
  disable_port ;;;
  free_cache_port original ;;;
  apply_bridge_settings original ;;;
  enable_bridge ;;;
  start_slave.

(** [try: m except Exception: print(...)] *)
Definition best_effort (m : eff (gworld C) response) : eff (gworld C) unit :=
  try_except (m ;;; ret tt) (catches Exception_) (fun _ => print).

(** The settings restore: one POST of the whole blob, the body check, and the
    guarded warning. [true] is a restore that was not confirmed. *)
Definition restore_post (original : json) : eff (gworld C) bool :=
  try_except
    (let* resp := on_client (sc_post_settings original _SETTINGS_BLOB_HTTP_TIMEOUT) in
     let body := body_json resp in
     ret (negb ((status_code resp =? 200) && from_option is_success false body)))
    (catches Exception_) (fun _ => ret true).

Definition restore_settings (original : json) : eff (gworld C) unit :=
  let* failed := restore_post original in
  if (failed : bool) then try_except warn (catches Exception_) (fun _ => print) else ret tt.

(** [original_settings.get(rs485_key, {}).get("port_mode", "disabled")] *)
Definition original_mode (original : json) : outcome json :=
  let? port := py_get rs485_key original in
  let? mode := py_get "port_mode" (default (JObj []) port) in
  Ok (default (JStr "disabled") mode).

Definition restore_mode (original : json) : eff (gworld C) response :=
  let* mode := lift (original_mode original) in
  on_client (sc_set_port_mode port_num mode).

(** [slave.stop(); slave.join(timeout=3.0); if slave.is_alive(): print].
    [join] raises on a thread that was never started. *)
Definition stop_slave : eff (gworld C) unit :=
  let* w := get in
  match slave w with
  | None => ret tt
  | Some t =>
      set_slave (Some (Thread (started t) true)) ;;;
      if negb (started t) then raise RuntimeError
      else if exits env then ret tt else print
  end.

(** Step 8: three calls, each in its own [try]. *)
Definition gateway_restore (original : json) : eff (gworld C) unit :=
  best_effort (on_client (sc_set_port_mode port_num (JStr "disabled"))) ;;;
  restore_settings original ;;;
  best_effort (restore_mode original).

(** Step 9 runs in a [finally] around step 8. *)
Definition gateway_teardown (original : json) : eff (gworld C) unit :=
  try_finally (gateway_restore original) stop_slave.

(** The test between setup and teardown: what it does to the device.  Its
    own failure is reported by pytest and not thrown into the fixture. *)
Definition run_test (test : C -> C) : eff (gworld C) unit :=
  modify (fun w => GWorld (test (client w)) (slave w) (warnings w) (printed w)).

Definition gateway_fixture (test : C -> C) : eff (gworld C) unit :=
  lift (probe env) ;;;
  let* resp := on_client (sc_get_settings (scalar 30)) in
  assert_ (status_code resp =? 200) ;;;
  let* original := lift (resp_json resp) in
  try_finally (gateway_setup original ;;; run_test test) (gateway_teardown original).

End Fixture.

(** ** Correctness *)

Section Correctness.

Context {C : Type} `{SettingsClient C}.
Context (port_num bridge_port : Z) (modbus : bool) (env : environment).

Abbreviation gw := (gworld C).

(** A step that always ends and does not touch the slave thread. *)
Definition inert {A} (m : eff gw A) : Prop := forall w, settled (m w).1 /\ slave (m w).2 = slave w.

Lemma inert_ret {A} (a : A) : inert (ret a).
Proof. done. Qed.
Lemma inert_raise {A} e : inert (@raise gw A e).
Proof. done. Qed.
Lemma inert_lift {A} (m : outcome A) : settled m -> inert (lift m).
Proof. done. Qed.
Lemma inert_bind {A B} (m : eff gw A) (k : A -> eff gw B) :
  inert m -> (forall a, inert (k a)) -> inert (bind m k).
Proof.
  intros Hm Hk w. unfold bind. destruct (Hm w) as [H1 H2]. destruct (m w) as [[a|e|] w1]; cbn in *; [|done|done].
  destruct (Hk a w1) as [H3 H4]. split; congruence.
Qed.
Lemma inert_try {A} (m : eff gw A) c (h : exn -> eff gw A) :
  inert m -> (forall e, inert (h e)) -> inert (try_except m c h).
Proof.
  intros Hm Hh w. unfold try_except. destruct (Hm w) as [H1 H2]. destruct (m w) as [[a|e|] w1]; cbn in *; [done| |done].
  destruct (c e); [|done]. destruct (Hh e w1) as [H3 H4]. split; congruence.
Qed.
Lemma inert_if {A} (b : bool) (m1 m2 : eff gw A) : inert m1 -> inert m2 -> inert (if b then m1 else m2).
Proof. by destruct b. Qed.
Lemma inert_mode p m : inert (on_client (sc_set_port_mode p m)).
Proof.
  intros w. unfold on_client. destruct (sc_mode_spec p m (client w)) as [Hs _].
  by destruct (sc_set_port_mode p m (client w)).
Qed.
Lemma inert_post j t : inert (on_client (sc_post_settings j t)).
Proof.
  intros w. unfold on_client. destruct (sc_post_spec j t (client w)) as [Hs _].
  by destruct (sc_post_settings j t (client w)).
Qed.
Lemma inert_get t : inert (on_client (sc_get_settings t)).
Proof.
  intros w. unfold on_client. destruct (sc_get_spec t (client w)) as [Hs _]. by destruct (sc_get_settings t (client w)).
Qed.
Lemma inert_print : inert print.
Proof. done. Qed.
Lemma inert_warn : inert (warn env).
Proof. unfold warn. by destruct (warn_error env). Qed.
Lemma inert_assert b : inert (assert_ b).
Proof. by destruct b. Qed.
Lemma settled_resp_json r : settled (resp_json r).
Proof. unfold resp_json. by destruct (body_json r). Qed.
Lemma settled_py_get k j : settled (py_get k j).
Proof. by destruct j. Qed.
Lemma settled_py_dict j : settled (py_dict j).
Proof. destruct j as [| | |s|l|]; try done; [by destruct s|by destruct l]. Qed.
Lemma settled_original_mode j : settled (original_mode port_num j).
Proof. unfold original_mode. apply obind_settled; [apply settled_py_get|]. intros. by apply obind_settled; [apply settled_py_get|]. Qed.

Ltac inert :=
  repeat first
    [ apply inert_bind; [|intros ?] | apply inert_try; [|intros ?] | apply inert_if
    | apply inert_mode | apply inert_post | apply inert_get | apply inert_print | apply inert_warn
    | apply inert_assert | apply inert_ret | apply inert_raise
    | apply inert_lift; first [apply settled_resp_json | apply settled_py_get | apply settled_py_dict
                              | apply settled_original_mode] ].

Lemma inert_restores original :
  inert (gateway_restore port_num env original).
Proof. unfold gateway_restore, best_effort, restore_settings, restore_post, restore_mode. inert. Qed.

(** Stopping: the event is set, whatever happens then. *)
Lemma stop_slave_spec (w : gw) :
  settled (stop_slave env w).1 /\
  (forall t, slave (stop_slave env w).2 = Some t -> stop_event t = true) /\
  client (stop_slave env w).2 = client w /\
  (stop_slave env w).1 = (if from_option started true (slave w) then Ok tt else Raise RuntimeError).
Proof.
  unfold stop_slave, bind, get, set_slave, modify. destruct (slave w) as [t|] eqn:E;
    [|cbn; rewrite E; done].
  destruct t as [[] se]; cbn [started negb]; [|cbn; split_and!; [done| |done|done]; by intros t [= <-]].
  destruct (exits env); cbn; (split_and!; [done| |done|done]); by intros t [= <-].
Qed.

Lemma teardown_spec original (w : gw) :
  settled (gateway_teardown port_num env original w).1 /\
  (forall t, slave (gateway_teardown port_num env original w).2 = Some t -> stop_event t = true).
Proof.
  unfold gateway_teardown, try_finally. destruct (inert_restores original w) as [Hs Hk].
  destruct (gateway_restore port_num env original w) as [[[]|e|] w1]; cbn in Hs; [| |done];
    destruct (stop_slave_spec w1) as (H1 & H2 & _); by destruct (stop_slave env w1) as [[[]|e'|] w2].
Qed.

(** ** The restore requests *)

(** Every failure of the client is an [Exception]: no interrupt arrives. *)
Definition only_exceptions : Prop :=
  (forall j t c e, (sc_post_settings j t c).1 = Raise e -> catches Exception_ e = true) /\
  (forall p m c e, (sc_set_port_mode p m c).1 = Raise e -> catches Exception_ e = true) /\
  (forall e, warn_error env = Some e -> catches Exception_ e = true).

Lemma best_effort_mode p m (w : gw) :
  only_exceptions ->
  exists n w', best_effort (on_client (sc_set_port_mode p m)) w = (Ok tt, w') /\ (1 <= n <= 3)%nat /\
    slave w' = slave w /\ sc_log (client w') = sc_log (client w) ++ replicate n (mode_request p m).
Proof.
  intros (_ & Hm & _). unfold best_effort, try_except, bind, on_client.
  specialize (Hm p m (client w)). destruct (sc_mode_spec p m (client w)) as (Hs & n & Hn & Hl).
  destruct (sc_set_port_mode p m (client w)) as [[r|e|] c']; cbn in Hm, Hs, Hl; [| |done].
  - eexists n, _. split_and!; [reflexivity|lia|lia|done|done].
  - rewrite (Hm e eq_refl). eexists n, _. split_and!; [reflexivity|lia|lia|done|done].
Qed.

Lemma restore_settings_sends original (w : gw) :
  only_exceptions ->
  exists w', restore_settings env original w = (Ok tt, w') /\ slave w' = slave w /\
    sc_log (client w') = sc_log (client w) ++ [Request POST "/settings" (Some original) _SETTINGS_BLOB_HTTP_TIMEOUT].
Proof.
  intros (Hp & _ & Hw). unfold restore_settings, restore_post, bind at 1, try_except at 1, bind at 1, on_client.
  specialize (Hp original _SETTINGS_BLOB_HTTP_TIMEOUT (client w)).
  destruct (sc_post_spec original _SETTINGS_BLOB_HTTP_TIMEOUT (client w)) as (Hs & Hl).
  destruct (sc_post_settings original _ (client w)) as [[r|e|] c']; cbn in Hp, Hs, Hl; [| |done].
  - unfold ret at 1. destruct (negb _); [|by eexists]. unfold try_except, warn.
    destruct (warn_error env) as [e|] eqn:E; [|by eexists]. unfold raise. rewrite (Hw e eq_refl). by eexists.
  - rewrite (Hp e eq_refl). unfold ret, try_except, warn.
    destruct (warn_error env) as [e'|] eqn:E; [|by eexists]. unfold raise. rewrite (Hw e' eq_refl). by eexists.
Qed.

(** What the teardown asks of the device, in this order. *)
Definition restore_requests (original : json) (n k : nat) : list request :=
  replicate n (mode_request port_num (JStr "disabled")) ++
  [Request POST "/settings" (Some original) _SETTINGS_BLOB_HTTP_TIMEOUT] ++
  match original_mode port_num original with
  | Ok mode => replicate k (mode_request port_num mode)
  | _ => []
  end.

Lemma gateway_restore_sends original (w : gw) :
  only_exceptions ->
  exists n k w', gateway_restore port_num env original w = (Ok tt, w') /\
    (1 <= n <= 3)%nat /\ (1 <= k <= 3)%nat /\ slave w' = slave w /\
    sc_log (client w') = sc_log (client w) ++ restore_requests original n k.
Proof.
  intros Hx. unfold gateway_restore, bind at 1.
  destruct (best_effort_mode port_num (JStr "disabled") w Hx) as (n & w1 & -> & Hn & S1 & L1).
  unfold bind at 1. destruct (restore_settings_sends original w1 Hx) as (w2 & -> & S2 & L2).
  unfold restore_requests. destruct (original_mode port_num original) as [mode|e|] eqn:Em.
  - destruct (best_effort_mode port_num mode w2 Hx) as (k & w3 & E3 & Hk & S3 & L3).
    exists n, k, w3. split_and!; [|lia|lia|lia|lia|congruence|].
    + unfold best_effort, restore_mode in *. rewrite Em. exact E3.
    + by rewrite L3, L2, L1, <- !app_assoc.
  - assert (catches Exception_ e = true) as He.
    { revert Em. unfold original_mode. destruct (py_get (rs485_key port_num) original) as [o|e'|] eqn:E1; cbn; [| |done].
      - destruct o as [[]|]; cbn; intros; simplify_eq; reflexivity.
      - destruct original; cbn in E1; intros; simplify_eq; reflexivity. }
    eexists n, 1%nat, _. unfold best_effort, restore_mode, try_except, bind, lift. rewrite Em, He.
    split_and!; [reflexivity|lia|lia|lia|lia|by rewrite <- S1, <- S2|]. cbn. by rewrite L2, L1, <- !app_assoc.
  - by apply settled_original_mode in Em.
Qed.

(** Setup and test always end; a thread is only ever assigned once, so
    before the teardown there is none or a fresh one. *)
Lemma setup_settled original test (w : gw) :
  settled ((gateway_setup port_num bridge_port modbus env original ;;; run_test test) w).1.
Proof.
  assert (forall w, settled ((start_slave modbus env : eff gw unit) w).1) as Hstart.
  { intros w0. unfold start_slave. destruct modbus; [|done]. unfold bind, set_slave, modify.
    destruct (start_error env); [done|]. by destruct (connects env). }
  assert (forall m : eff gw unit, inert m -> forall k : eff gw unit,
    (forall w, settled (k w).1) -> forall w, settled (bind m (fun _ => k) w).1) as Hseq.
  { intros m Hm k Hk w0. unfold bind. destruct (Hm w0) as [Hs _].
    destruct (m w0) as [[a|e|] w1]; [apply Hk|done|done]. }
  assert (settled ((gateway_setup port_num bridge_port modbus env original : eff gw unit) w).1) as Hall.
  { revert w. unfold gateway_setup.
    repeat (apply Hseq; [unfold disable_port, free_cache_port, apply_bridge_settings, enable_bridge,
      assert_success, update_settings; inert|]). exact Hstart. }
  unfold bind at 1. by destruct (gateway_setup _ _ _ _ _ w) as [[[]|e|] w1].
Qed.

(** C31. The contract of the gateway fixture.  Whatever the device answers,
    wherever the setup stops and however the test ends, the fixture comes to
    an end and the RTU slave it made has been told to stop, so it cannot
    keep the single-client UART chardev; this holds even when the teardown
    itself is interrupted.  When the failures of the client are ordinary
    exceptions, the teardown also puts the port back, each step regardless
    of the others: it disables the port, posts the whole saved settings once
    and sets the saved mode (each mode request at most three times).  The
    outcome is that of the setup, with one exception: when the slave thread
    was made and could not be started, [join] raises and its [RuntimeError]
    takes the place of the error of the setup. *)
Theorem gateway_fixture_contract test (w : gw) :
  slave w = None -> settled (probe env) ->
  let (r, w') := gateway_fixture port_num bridge_port modbus env test w in
  settled r /\
  (forall t, slave w' = Some t -> stop_event t = true) /\
  (only_exceptions -> forall resp c1 original,
     probe env = Ok tt -> sc_get_settings (scalar 30) (client w) = (Ok resp, c1) ->
     status_code resp = 200 -> body_json resp = Some original ->
     let w1 := GWorld c1 None (warnings w) (printed w) in
     let (rs, ws) := (gateway_setup port_num bridge_port modbus env original ;;; run_test test) w1 in
     (exists n k, (1 <= n <= 3)%nat /\ (1 <= k <= 3)%nat /\
        sc_log (client w') = sc_log (client ws) ++ restore_requests original n k) /\
     r = (if from_option started true (slave ws) then rs else Raise RuntimeError)).
Proof.
  intros Hnone Hprobe. unfold gateway_fixture, bind at 1, lift at 1.
  destruct (probe env) as [[]|e|] eqn:Epr; [| |done].
  2: { split_and!; [done|by rewrite Hnone|done]. }
  unfold bind at 1, on_client at 1. destruct (sc_get_spec (scalar 30) (client w)) as [Hg _].
  destruct (sc_get_settings (scalar 30) (client w)) as [[resp|e|] c1] eqn:Eg; cbn in Hg; [| |done].
  2: { cbn. split_and!; [done|by rewrite Hnone|done]. }
  unfold assert_ at 1, bind at 1. destruct (status_code resp =? 200) eqn:Est.
  2: { cbn. apply Z.eqb_neq in Est. split_and!; [done|by rewrite Hnone|by intros; simplify_eq]. }
  unfold ret at 1, bind at 1, lift at 1, resp_json. destruct (body_json resp) as [original|] eqn:Ej.
  2: { cbn. split_and!; [done|by rewrite Hnone|by intros; simplify_eq; congruence]. }
  rewrite Hnone. set (w1 := GWorld c1 None (warnings w) (printed w)).
  pose proof (setup_settled original test w1) as Hset. unfold try_finally.
  destruct ((gateway_setup port_num bridge_port modbus env original ;;; run_test test) w1) as [rs ws] eqn:Es.
  cbn in Hset. destruct (teardown_spec original ws) as [Ht1 Ht2].
  assert (only_exceptions -> exists n k, (1 <= n <= 3)%nat /\ (1 <= k <= 3)%nat /\
    sc_log (client (gateway_teardown port_num env original ws).2) = sc_log (client ws) ++ restore_requests original n k /\
    (gateway_teardown port_num env original ws).1 = (if from_option started true (slave ws) then Ok tt else Raise RuntimeError)) as Hlog.
  { intros Hx. destruct (gateway_restore_sends original ws Hx) as (n & k & w2 & E & Hn & Hk & Hsl & Hl).
    exists n, k. split; [done|]. split; [done|]. unfold gateway_teardown, try_finally. rewrite E.
    destruct (stop_slave_spec w2) as (H1 & _ & H3 & H4). rewrite Hsl in H4.
    destruct (stop_slave env w2) as [[[]|e|] w3]; cbn in *; [|by rewrite H3|done]; by rewrite H3. }
  destruct (gateway_teardown port_num env original ws) as [[[]|e|] w'] eqn:Et; cbn in *; [| |done];
    destruct rs as [[]|e'|]; try done; (split; [done|]); (split; [done|]);
    intros Hx resp' c1' original' _ [= <- <-] _ HJ; simplify_eq; fold w1; rewrite Es;
    destruct (Hlog Hx) as (n & k & ? & ? & ? & Hr); (split; [by exists n, k|]); by destruct (from_option started true (slave ws)).
Qed.

End Correctness.

(** ** A concrete run

    A device with one saved setting that refuses the final mode request. *)

Definition demo_settings : json :=
  JObj [("web_port", JNum 80); ("rs485_1", JObj [("baudrate", JNum 9600); ("port_mode", JStr "sniffer")])].

Definition demo_device (q : request) (d : unit) : outcome response * unit :=
  let ok := Response 200 "" (Some (JObj [("success", JBool true)])) [] in
  match meth q with
  | GET => (Ok (Response 200 "" (Some demo_settings) []), d)
  | POST =>
      match payload q with
      | Some (JObj [("mode", JStr "sniffer")]) => (Raise RequestException, d)
      | _ => (Ok ok, d)
      end
  end.

Lemma demo_device_settled q d : settled (demo_device q d).1.
Proof. unfold demo_device. repeat split_match; done. Qed.

#[local] Instance demo_client : SettingsClient (aworld unit) :=
  http_settings_client demo_device demo_device_settled.

Definition demo_env : environment := Environment (Ok tt) None true false None.
Definition demo_gworld : gworld (aworld unit) :=
  GWorld (AWorld tt [] ∅ 1 0%Q (fun _ => 0%Q)) None 0 0.

Lemma gateway_fixture_contract_witness :
  let (r, w') := gateway_fixture 1 50504 true demo_env (fun c => c) demo_gworld in
  settled r /\ (forall t, slave w' = Some t -> stop_event t = true) /\
  slave w' <> None /\ last (log (client w')) = Some (mode_request 1 (JStr "sniffer")).
Proof.
  pose proof (gateway_fixture_contract 1 50504 true demo_env (fun c => c) demo_gworld eq_refl ltac:(done)) as H.
  assert (slave (gateway_fixture 1 50504 true demo_env (fun c => c) demo_gworld).2 <> None /\
    last (log (client (gateway_fixture 1 50504 true demo_env (fun c => c) demo_gworld).2)) =
    Some (mode_request 1 (JStr "sniffer"))) as Hc.
  { vm_compute. split; [discriminate|reflexivity]. }
  destruct (gateway_fixture 1 50504 true demo_env (fun c => c) demo_gworld) as [r w'].
  destruct H as (H1 & H2 & _). split; [exact H1|]. split; [exact H2|]. exact Hc.
Defined.
