(* ===== verification/Bridge.v ===== *)
(** * Readiness of the TCP bridge and of QEMU (src/api_tests/conftest.py)

    [_connect_ready_bridge] opens connections to a single-client bridge until
    one is admitted, and hands that socket to the test.  The peer is a
    parameter: what an attempt meets that starts at a given time (how long the
    handshake takes and how it ends, what a peek sees and when).  A socket
    timeout cuts a call that would take longer, and raises [TimeoutError].
    Sockets are numbered as they are created; the world keeps which of them
    are open and the time. *)

From Stdlib Require Import QArith Qminmax Lqa.
From stdpp Require Import base list gmap sets.
From Stdlib Require Import ZArith Lia.
From S2P Require Import Prelude.

Open Scope Z_scope.

Inductive peek_result : Type :=
| Peeked (data : list Z)        (* b'' is a FIN *)
| PeekError (e : exn).

Record attempt := Attempt {
  connect_delay : Q;
  connect_error : option exn;
  peek_delay : Q;
  peek : peek_result
}.

Record bworld := BWorld {
  btime : Q;
  created : nat;
  bopen : gset nat
}.

Definition bnow : eff bworld Q := fun w => (Ok (btime w), w).
Definition bsleep (d : Q) : eff bworld unit :=
  modify (fun w => BWorld (btime w + d) (created w) (bopen w)).

Definition new_socket : eff bworld nat := fun w =>
  (Ok (created w), BWorld (btime w) (S (created w)) ({[ created w ]} ∪ bopen w)).

Definition bclose (s : nat) : eff bworld unit :=
  modify (fun w => BWorld (btime w) (created w) (bopen w ∖ {[ s ]})).

Section Peer.

Context (peer : Q -> attempt).

(** [sock.connect(...)] under a socket timeout, for an attempt that started
    at [t]. *)
Definition connect (t limit : Q) : eff bworld unit :=
  let a := peer t in
  if Qle_bool (connect_delay a) limit then
    bsleep (connect_delay a) ;;;
    match connect_error a with Some e => raise e | None => ret tt end
  else bsleep limit ;;; raise TimeoutError.

(** [sock.recv(1, MSG_PEEK)] under a socket timeout: nothing is consumed. *)
Definition peek_one (t limit : Q) : eff bworld (list Z) :=
  let a := peer t in
  if Qle_bool (peek_delay a) limit then
    bsleep (peek_delay a) ;;;
    match peek a with Peeked data => ret data | PeekError e => raise e end
  else bsleep limit ;;; raise TimeoutError.

(** One attempt on a fresh socket: was it rejected? *)
Definition try_attempt (t hold remaining : Q) : eff bworld bool :=
  let* connected :=
    try_except (connect t (Qmin 3 remaining) ;;; ret true) (catches OSError) (fun _ => ret false) in
  if negb connected then ret true
  else
    try_except
      (try_except
         (let* data := peek_one t hold in ret (length data =? 0)%nat)
         (catches TimeoutError) (fun _ => ret false))
      (catches OSError) (fun _ => ret true).

Fixpoint bridge_loop (fuel : nat) (hold deadline backoff : Q) : eff bworld nat :=
  match fuel with
  | O => block
  | S fuel =>
      let* t := bnow in
      let remaining := (deadline - t)%Q in
      if negb (Qle_bool hold remaining) then raise TimeoutError
      else
        let* sock := new_socket in
        let* rejected := try_attempt t hold remaining in
        if negb rejected then ret sock
        else
          bclose sock ;;;
          let* t' := bnow in
          let nap := Qmin backoff (deadline - t') in
          if Qle_bool nap 0 then raise TimeoutError
          else bsleep nap ;;; bridge_loop fuel hold deadline (Qmin (backoff * 2) 1)
  end.

Definition _connect_ready_bridge (fuel : nat) (hold timeout : Q) : eff bworld nat :=
  if Qle_bool timeout hold then raise ValueError
  else
    let* start := bnow in
    bridge_loop fuel hold (start + timeout) (1 # 5).

(** [_poll_tcp_connect]: the older probe, which closes its own socket. *)
Fixpoint poll_tcp_loop (fuel : nat) (deadline : Q) : eff bworld bool :=
  match fuel with
  | O => block
  | S fuel =>
      let* t := bnow in
      if Qle_bool deadline t then ret false
      else
        let* sock := new_socket in
        let* connected :=
          try_except (connect t (1 # 2) ;;; ret true) (catches OSError) (fun _ => ret false) in
        bclose sock ;;;
        if (connected : bool) then ret true
        else bsleep (1 # 10) ;;; poll_tcp_loop fuel deadline
  end.

Definition _poll_tcp_connect (fuel : nat) (timeout : Q) : eff bworld bool :=
  let* t := bnow in poll_tcp_loop fuel (t + timeout)%Q.

(** ** Admission *)

(** The attempt that starts at [t] is admitted: the handshake completes and
    no FIN or RST arrives within [hold]. *)
Definition admitted (hold t : Q) : Prop :=
  connect_error (peer t) = None /\
  match peek (peer t) with
  | Peeked (_ :: _) => True
  | PeekError TimeoutError => True
  | _ => (hold < peek_delay (peer t))%Q
  end.

(** Peers fail with socket errors, and nothing takes negative time. *)
Definition peer_ok : Prop := forall t,
  (0 <= connect_delay (peer t))%Q /\ (0 <= peek_delay (peer t))%Q /\
  (forall e, connect_error (peer t) = Some e -> catches OSError e = true) /\
  (forall e, peek (peer t) = PeekError e -> catches OSError e = true).

Lemma timeout_is_oserror : catches OSError TimeoutError = true.
Proof. reflexivity. Qed.

Lemma not_Qle_bool a b : Qle_bool a b = false -> (b < a)%Q.
Proof. intros H. apply Qnot_le_lt. intros Hle%Qle_bool_iff. congruence. Qed.

(** One attempt: it ends with a verdict, takes at most its two timeouts and
    touches no socket. *)
Lemma try_attempt_spec t hold remaining w :
  peer_ok -> (0 <= hold)%Q -> (0 <= remaining)%Q ->
  exists rejected w', try_attempt t hold remaining w = (Ok rejected, w') /\
    created w' = created w /\ bopen w' = bopen w /\
    (btime w <= btime w' <= btime w + Qmin 3 remaining + hold)%Q /\
    (rejected = false -> admitted hold t) /\
    (admitted hold t -> (connect_delay (peer t) <= Qmin 3 remaining)%Q -> rejected = false).
Proof.
  intros Hp Hh Hr. destruct (Hp t) as (Hc & Hd & He & Hk).
  assert (0 <= Qmin 3 remaining)%Q as Hm by (apply Q.min_glb; lra).
  unfold try_attempt, connect, peek_one, admitted. unfold bind at 1, try_except at 1, bind at 1.
  destruct (Qle_bool (connect_delay (peer t)) (Qmin 3 remaining)) eqn:E1.
  - apply Qle_bool_iff in E1. unfold bind at 1, bsleep at 1, modify.
    destruct (connect_error (peer t)) as [e|] eqn:Ee; cbn [raise ret].
    { unfold raise. rewrite (He e eq_refl). eexists _, _. split; [reflexivity|]. cbn.
      split_and!; [done|done|lra|lra|done|by intros []]. }
    unfold ret, negb, try_except, bind.
    destruct (Qle_bool (peek_delay (peer t)) hold) eqn:E2.
    + apply Qle_bool_iff in E2. unfold bsleep, modify.
      destruct (peek (peer t)) as [[|x data]|e] eqn:Ep; cbn [raise length Nat.eqb]; unfold raise.
      * eexists _, _. split; [reflexivity|]. cbn. split_and!; [done|done|lra|lra|done|]. intros [_ H]. lra.
      * eexists _, _. split; [reflexivity|]. cbn. split_and!; [done|done|lra|lra|done|done].
      * specialize (Hk e eq_refl). destruct (catches TimeoutError e) eqn:Et.
        -- eexists _, _. split; [reflexivity|]. cbn. split_and!; [done|done|lra|lra| |done]. intros _. split; [done|].
           destruct e; done.
        -- rewrite Hk. eexists _, _. split; [reflexivity|]. cbn. split_and!; [done|done|lra|lra|done|].
           intros [_ H]. destruct e; try done; lra.
    + apply not_Qle_bool in E2. unfold bsleep, modify, raise. rewrite (eq_refl : catches TimeoutError TimeoutError = true).
      eexists _, _. split; [reflexivity|]. cbn. split_and!; [done|done|lra|lra| |done]. intros _. split; [done|].
      destruct (peek (peer t)) as [[]|[]]; done.
  - apply not_Qle_bool in E1. unfold bind, bsleep, modify, raise. rewrite timeout_is_oserror.
    eexists _, _. split; [reflexivity|]. cbn. split_and!; [done|done|lra|lra|done|]. intros _ H. lra.
Qed.

(** The numbers of open sockets are below the next one. *)
Definition fresh (w : bworld) : Prop := forall s, s ∈ bopen w -> (s < created w)%nat.

(** What a call may end with: an admitted socket that is the only new open
    one, or [TimeoutError] with every socket closed again. *)
Definition bridge_result (hold deadline : Q) (w : bworld) (r : outcome nat) (w' : bworld) : Prop :=
  match r with
  | Ok s => (s ∉ bopen w) /\ bopen w' = {[ s ]} ∪ bopen w /\
      exists t, (btime w <= t)%Q /\ (t + hold <= deadline)%Q /\ admitted hold t
  | Raise e => e = TimeoutError /\ bopen w' = bopen w
  | Blocked => False
  end.

Lemma bridge_result_later hold deadline w w1 r w' :
  (btime w <= btime w1)%Q -> bopen w1 = bopen w ->
  bridge_result hold deadline w1 r w' -> bridge_result hold deadline w r w'.
Proof.
  unfold bridge_result. intros Ht ->. destruct r as [s|e|]; [|done|done].
  intros (Hs & Ho & t & Hb & Hd & Ha). split_and!; [done|done|]. exists t. split_and!; [lra|done|done].
Qed.

(** From time [T] on, every attempt is served. *)
Definition serves_from (hold T : Q) : Prop := forall t,
  (T <= t)%Q -> admitted hold t /\ (connect_delay (peer t) <= Qmin 3 hold)%Q.

Lemma bridge_loop_S fuel hold deadline backoff :
  bridge_loop (S fuel) hold deadline backoff =
  let* t := bnow in
  let remaining := (deadline - t)%Q in
  if negb (Qle_bool hold remaining) then raise TimeoutError
  else
    let* sock := new_socket in
    let* rejected := try_attempt t hold remaining in
    if negb rejected then ret sock
    else
      bclose sock ;;;
      let* t' := bnow in
      let nap := Qmin backoff (deadline - t') in
      if Qle_bool nap 0 then raise TimeoutError
      else bsleep nap ;;; bridge_loop fuel hold deadline (Qmin (backoff * 2) 1).
Proof. done. Qed.

Lemma bridge_loop_spec n hold deadline backoff w :
  peer_ok -> (0 < hold)%Q -> fresh w -> ((1 # 5) <= backoff <= 1)%Q ->
  (deadline - btime w <= inject_Z (Z.of_nat n) * (1 # 5))%Q -> (btime w <= deadline + hold)%Q ->
  exists r w', bridge_loop (S n) hold deadline backoff w = (r, w') /\
    bridge_result hold deadline w r w' /\ (btime w' <= deadline + hold)%Q /\
    (forall T, serves_from hold T -> (T + 4 + 2 * hold <= deadline)%Q -> (btime w <= T + 4 + hold)%Q -> is_ok r = true).
Proof.
  intros Hp Hh. revert backoff w. induction n as [|n IH]; intros backoff w Hfr Hb Hn Hd.
  - cbn [bridge_loop]. unfold bind at 1, bnow.
    change (inject_Z (Z.of_nat 0)) with 0%Q in Hn.
    destruct (Qle_bool hold (deadline - btime w)) eqn:E; [apply Qle_bool_iff in E; lra|]. cbn [negb].
    eexists _, _. split; [reflexivity|]. split; [done|]. split; [done|]. intros T _ H1 H2.
    apply not_Qle_bool in E. lra.
  - rewrite bridge_loop_S. unfold bind at 1, bnow at 1.
    destruct (Qle_bool hold (deadline - btime w)) eqn:E; cbn [negb].
    2: { eexists _, _. split; [reflexivity|]. split; [done|]. split; [done|]. intros T _ H1 H2.
         apply not_Qle_bool in E. lra. }
    apply Qle_bool_iff in E. unfold bind at 1, new_socket at 1. unfold bind at 1.
    set (w1 := BWorld _ _ _).
    destruct (try_attempt_spec (btime w) hold (deadline - btime w) w1 Hp) as
      (rej & w2 & -> & Hc & Ho & [Ht1 Ht2] & Ha1 & Ha2); [lra|lra|].
    cbn [btime w1 created bopen] in Hc, Ho, Ht1, Ht2.
    pose proof (Q.le_min_r 3 (deadline - btime w)) as Hmr. pose proof (Q.le_min_l 3 (deadline - btime w)) as Hml.
    assert (forall T, serves_from hold T -> (T <= btime w)%Q -> rej = false) as Hserved.
    { intros T HT Hge. destruct (HT _ Hge) as [Had Hcd]. apply Ha2; [done|]. eapply Qle_trans; [exact Hcd|].
      apply Q.min_glb; [apply Q.le_min_l|]. pose proof (Q.le_min_r 3 hold). lra. }
    destruct rej; cbn [negb].
    + unfold bind at 1, bclose at 1, modify. unfold bind at 1, bnow. set (w3 := BWorld _ _ _).
      assert (bopen w3 = bopen w) as Ho3.
      { cbn. rewrite Ho. apply set_eq. intros s. specialize (Hfr s). set_unfold. split; [tauto|].
        intros Hs. split; [auto|]. intros ->. specialize (Hfr Hs). lia. }
      cbn [btime w3]. pose proof (Q.le_min_r backoff (deadline - btime w2)) as Hnr.
      pose proof (Q.le_min_l backoff (deadline - btime w2)) as Hnl.
      destruct (Qle_bool (Qmin backoff (deadline - btime w2)) 0) eqn:En.
      * eexists _, w3. split; [reflexivity|]. split; [done|]. cbn. split; [lra|]. intros T HT H1 H2. exfalso.
        apply Qle_bool_iff in En. destruct (Qlt_le_dec (btime w) T) as [Hlt|Hge].
        -- destruct (Q.min_spec backoff (deadline - btime w2)) as [[_ Hq]|[_ Hq]]; lra.
        -- discriminate (Hserved T HT Hge).
      * apply not_Qle_bool in En. unfold bind, bsleep, modify. set (w4 := BWorld _ _ _).
        destruct (IH (Qmin (backoff * 2) 1) w4) as (r & w' & -> & Hr & Hl & Hlive).
        -- intros s Hs. cbn in Hs |- *. rewrite Hc, Ho in *. specialize (Hfr s). set_unfold.
           destruct Hs as [[->|Hs] _]; [lia|]. specialize (Hfr Hs). lia.
        -- split; [apply Q.min_glb; lra|apply Q.le_min_r].
        -- cbn. rewrite Nat2Z.inj_succ, <- Z.add_1_r, inject_Z_plus in Hn. change (inject_Z 1) with 1%Q in Hn.
           assert (inject_Z 0 <= inject_Z (Z.of_nat n))%Q as Hz by (rewrite <- Zle_Qle; lia).
           change (inject_Z 0) with 0%Q in Hz.
           destruct (Q.min_spec backoff (deadline - btime w2)) as [[_ Hq]|[_ Hq]]; rewrite Hq; lra.
        -- cbn. lra.
        -- exists r, w'. split; [done|]. split; [|split; [done|]].
           ++ apply (bridge_result_later _ _ w w4); [|exact Ho3|exact Hr]. cbn. lra.
           ++ intros T HT H1 H2. apply (Hlive T); [done|done|]. cbn.
              destruct (Qlt_le_dec (btime w) T) as [Hlt|Hge]; [lra|].
              discriminate (Hserved T HT Hge).
    + eexists _, w2. split; [reflexivity|]. split; [|split; [lra|done]]. cbn. split_and!.
      * intros Hin%Hfr. lia.
      * done.
      * exists (btime w). split_and!; [lra|lra|by apply Ha1].
Qed.

(** [_connect_ready_bridge] hands over an admitted connection and leaks
    nothing.  With a fuel of five attempts per second of budget it always
    ends, within [hold] of its budget.  It returns a socket only when an
    attempt, started early enough to watch for the full [hold], completed its
    handshake and saw neither FIN nor RST, and then that socket is the only
    one left open; otherwise it raises [TimeoutError] with every socket
    closed.  And it does succeed on a bridge that comes up late: if every
    attempt from some time on is served, at least 4 s and two holds before
    the deadline, it returns a socket. *)
Theorem connect_ready_bridge_admits n hold timeout w :
  peer_ok -> (0 < hold)%Q -> (hold < timeout)%Q -> fresh w ->
  (timeout <= inject_Z (Z.of_nat n) * (1 # 5))%Q ->
  exists r w', _connect_ready_bridge (S n) hold timeout w = (r, w') /\
    bridge_result hold (btime w + timeout) w r w' /\
    (btime w' <= btime w + timeout + hold)%Q /\
    (forall T, (btime w <= T)%Q -> serves_from hold T -> (T + 4 + 2 * hold <= btime w + timeout)%Q -> is_ok r = true).
Proof.
  intros Hp Hh Ht Hf Hn. unfold _connect_ready_bridge.
  destruct (Qle_bool timeout hold) eqn:E; [apply Qle_bool_iff in E; lra|]. unfold bind, bnow.
  destruct (bridge_loop_spec n hold (btime w + timeout) (1 # 5) w Hp Hh Hf) as (r & w' & -> & Hr & Hl & Hlive);
    [split; lra|lra|lra|].
  exists r, w'. split_and!; [done|done|done|]. intros T HT Hs Hd. apply (Hlive T); [done|done|lra].
Qed.

End Peer.

(** A bridge that refuses for five seconds, then accepts and stays silent. *)
Definition late_bridge (t : Q) : attempt :=
  if Qle_bool 5 t then Attempt 0 None 100 (Peeked [1])
  else Attempt 0 None 0 (Peeked []).

Lemma connect_ready_bridge_admits_witness :
  exists s w', _connect_ready_bridge late_bridge 76 (1 # 2) 15 (BWorld 0 3 {[ 1%nat ]}) = (Ok s, w') /\
    bopen w' = {[ s ]} ∪ {[ 1%nat ]}.
Proof.
  destruct (connect_ready_bridge_admits late_bridge 75 (1 # 2) 15 (BWorld 0 3 {[ 1%nat ]})) as
    (r & w' & E & Hr & _ & Hlive).
  - intros t. unfold late_bridge. destruct (Qle_bool 5 t); cbn; split_and!; (lra || done).
  - reflexivity.
  - reflexivity.
  - intros s Hs. cbn in *. apply elem_of_singleton in Hs. lia.
  - vm_compute. discriminate.
  - destruct r as [s|e|]; [|exfalso..].
    + exists s, w'. split; [exact E|]. apply Hr.
    + assert (@is_ok nat (Raise e) = true) as H; [|discriminate H]. apply (Hlive 5%Q).
      * vm_compute. discriminate.
      * intros t Ht. unfold admitted, late_bridge. apply Qle_bool_iff in Ht. rewrite Ht. cbn.
        split; [split; [reflexivity|exact I]|vm_compute; discriminate].
      * vm_compute. discriminate.
    + exact Hr.
Defined.
