(* ===== verification/Collection.v ===== *)
(** * Order of the test run (src/api_tests/conftest.py, collection hook)

    [pytest_collection_modifyitems] orders the collected tests so that the
    heap baseline and the final heap check bracket one continuous session
    and every test that reboots the device runs after it. *)

From stdpp Require Import base list strings sorting.
From Stdlib Require Import ZArith Lia.
From S2P Require Import Prelude.

(** A collected test: the base name of its file, the markers
    [get_closest_marker] finds, and its node id. *)
Record item := Item { basename : string; markers : list string; nodeid : string }.

#[export] Instance item_eq_dec : EqDecision item.
Proof. solve_decision. Defined.

Definition REBOOT_TEST_FILES : list string :=
  ["14_test_reboot.py"; "22_test_ota.py"; "30_test_wifi_perm_disable.py"; "33_test_auth_settings.py";
   "40_test_web_port.py"; "42_test_sniffer_cache_overlays_e2e.py"].

Definition has_marker (m : string) (it : item) : bool := bool_decide (m ∈ markers it).

Definition is_reboot (it : item) : bool :=
  has_marker "reboot" it || bool_decide (basename it ∈ REBOOT_TEST_FILES).

(** The four lists the loop fills. *)
Record groups := Groups { baseline : list item; body : list item; final : list item; reboot : list item }.

Definition classify (g : groups) (it : item) : groups :=
  if has_marker "heap_baseline" it then Groups (baseline g ++ [it]) (body g) (final g) (reboot g)
  else if has_marker "heap_final" it then Groups (baseline g) (body g) (final g ++ [it]) (reboot g)
  else if is_reboot it then Groups (baseline g) (body g) (final g) (reboot g ++ [it])
  else Groups (baseline g) (body g ++ [it]) (final g) (reboot g).

(** The new item list, and the deselected items. *)
Definition pytest_collection_modifyitems (without_reboot : bool) (items : list item)
    : list item * list item :=
  let deselected := if without_reboot then List.filter is_reboot items else [] in
  let items := if without_reboot then List.filter (fun it => negb (is_reboot it)) items else items in
  let g := fold_left classify items (Groups [] [] [] []) in
  (match baseline g, final g with
   | [], [] => items
   | _, _ => baseline g ++ body g ++ final g ++ reboot g
   end, deselected).

(** ** The groups as filters *)

(** The group of an item: 0 baseline, 1 body, 2 final, 3 reboot. *)
Definition rank (it : item) : nat :=
  if has_marker "heap_baseline" it then 0
  else if has_marker "heap_final" it then 2
  else if is_reboot it then 3 else 1.

Definition of_rank (n : nat) (l : list item) : list item := List.filter (fun it => (rank it =? n)%nat) l.

Definition ordered (l : list item) : list item := of_rank 0 l ++ of_rank 1 l ++ of_rank 2 l ++ of_rank 3 l.

Lemma of_rank_cons n it l :
  of_rank n (it :: l) = if (rank it =? n)%nat then it :: of_rank n l else of_rank n l.
Proof. done. Qed.

Lemma classify_all l g :
  fold_left classify l g =
  Groups (baseline g ++ of_rank 0 l) (body g ++ of_rank 1 l) (final g ++ of_rank 2 l) (reboot g ++ of_rank 3 l).
Proof.
  revert g. induction l as [|it l IH]; intros [b1 b2 b3 b4].
  - cbn. by rewrite !app_nil_r.
  - cbn [fold_left]. rewrite IH, !of_rank_cons. unfold classify, rank.
    destruct (has_marker "heap_baseline" it), (has_marker "heap_final" it), (is_reboot it);
      cbn [baseline body final reboot Nat.eqb]; by rewrite <- ?app_assoc.
Qed.

Lemma rank_lt it : (rank it < 4)%nat.
Proof. unfold rank. repeat split_match; lia. Qed.

Lemma ordered_perm l : ordered l ≡ₚ l.
Proof.
  induction l as [|it l IH]; [done|]. unfold ordered in *. rewrite !of_rank_cons.
  etrans; [|by apply Permutation_cons, IH].
  pose proof (rank_lt it). destruct (rank it) as [|[|[|[|n]]]]; cbn [Nat.eqb]; [done| | | |lia].
  - symmetry. apply Permutation_middle.
  - rewrite !(app_assoc (of_rank 0 l)). symmetry. apply Permutation_middle.
  - rewrite !(app_assoc (of_rank 0 l)), !(app_assoc (of_rank 0 l ++ of_rank 1 l)). symmetry. apply Permutation_middle.
Qed.

Lemma of_rank_app n l1 l2 : of_rank n (l1 ++ l2) = of_rank n l1 ++ of_rank n l2.
Proof. apply List.filter_app. Qed.

Lemma of_rank_of_rank n m l : of_rank n (of_rank m l) = if (n =? m)%nat then of_rank n l else [].
Proof.
  induction l as [|it l IH]; [by destruct (n =? m)%nat|]. rewrite (of_rank_cons m).
  destruct (rank it =? m)%nat eqn:Em.
  - apply Nat.eqb_eq in Em. rewrite of_rank_cons, IH, of_rank_cons, Em.
    destruct (n =? m)%nat eqn:E; [apply Nat.eqb_eq in E; subst; by rewrite Nat.eqb_refl|].
    by rewrite Nat.eqb_sym, E.
  - rewrite IH, of_rank_cons. destruct (n =? m)%nat eqn:E; [|done]. apply Nat.eqb_eq in E. subst. by rewrite Em.
Qed.

Lemma of_rank_ordered n l : (n < 4)%nat -> of_rank n (ordered l) = of_rank n l.
Proof.
  intros Hn. unfold ordered. rewrite !of_rank_app, !of_rank_of_rank.
  destruct n as [|[|[|[|n]]]]; cbn [Nat.eqb]; [| | | |lia]; by rewrite ?app_nil_r, ?app_nil_l.
Qed.

Lemma of_rank_all n l : Forall (fun it => rank it = n) (of_rank n l).
Proof.
  apply Forall_forall. intros it Hin%list_elem_of_In. apply List.filter_In in Hin as [_ H]. by apply Nat.eqb_eq.
Qed.

Definition before (x y : item) : Prop := (rank x <= rank y)%nat.

(** Blocks of constant rank, in increasing order, are sorted. *)
Lemma sorted_block n l1 l2 :
  Forall (fun it => rank it = n) l1 -> Forall (fun it => (n <= rank it)%nat) l2 ->
  StronglySorted before l2 -> StronglySorted before (l1 ++ l2).
Proof.
  intros H1 H2 Hs. induction H1 as [|it l1 Hit H1 IH]; [done|]. cbn. constructor; [done|].
  apply Forall_app. split; [|eapply Forall_impl; [exact H2|]; intros x Hx; unfold before; by rewrite Hit].
  eapply Forall_impl; [exact H1|]. intros x Hx. unfold before. cbn in Hx. lia.
Qed.

Lemma ordered_sorted l : StronglySorted before (ordered l).
Proof.
  assert (forall n m, (n <= m)%nat -> Forall (fun it => (n <= rank it)%nat) (of_rank m l)) as Hge.
  { intros n m Hle. eapply Forall_impl; [apply of_rank_all|]. cbn. intros x ->. lia. }
  unfold ordered. rewrite <- (app_nil_r (of_rank 3 l)).
  repeat (eapply sorted_block; [apply of_rank_all|rewrite ?Forall_app; split_and?; auto with lia|]). constructor.
Qed.

Lemma heap_present l :
  existsb (fun it => (rank it =? 0) || (rank it =? 2))%nat l =
  match of_rank 0 l, of_rank 2 l with [], [] => false | _, _ => true end.
Proof.
  induction l as [|it l IH]; [done|]. cbn [existsb]. rewrite IH, !of_rank_cons.
  destruct (rank it) as [|[|[|n]]]; cbn [Nat.eqb orb]; try done. by destruct (of_rank 0 l).
Qed.

(** The hook, in terms of the kept items. *)
Definition kept (without_reboot : bool) (items : list item) : list item :=
  if without_reboot then List.filter (fun it => negb (is_reboot it)) items else items.

Lemma modifyitems_eq without_reboot items :
  pytest_collection_modifyitems without_reboot items =
  (let k := kept without_reboot items in
   if existsb (fun it => (rank it =? 0) || (rank it =? 2))%nat k then ordered k else k,
   if without_reboot then List.filter is_reboot items else []).
Proof.
  unfold pytest_collection_modifyitems. fold (kept without_reboot items). rewrite classify_all.
  cbn [baseline body final reboot app]. rewrite heap_present. cbv zeta. unfold ordered.
  by destruct (of_rank 0 _), (of_rank 2 _).
Qed.

Lemma kept_perm without_reboot items :
  kept without_reboot items ++ (if without_reboot then List.filter is_reboot items else []) ≡ₚ items.
Proof.
  destruct without_reboot; cbn [kept]; [|by rewrite app_nil_r].
  induction items as [|it l IH]; [done|]. cbn [List.filter]. destruct (is_reboot it); cbn [negb app].
  - rewrite <- Permutation_middle. by constructor.
  - by constructor.
Qed.

(** A list without reboot tests is kept whole. *)
Lemma kept_perm_id without_reboot items l :
  l ≡ₚ kept without_reboot items ->
  kept without_reboot l = l /\ (if without_reboot then List.filter is_reboot l else []) = [].
Proof.
  destruct without_reboot; cbn [kept]; [|done]. intros Hp.
  assert (Forall (fun it => is_reboot it = false) l) as Hn.
  { rewrite Hp. apply Forall_forall. intros it Hin%list_elem_of_In. apply List.filter_In in Hin as [_ H].
    by apply negb_true_iff. }
  clear Hp. induction Hn as [|it l Hit _ [IH1 IH2]]; [done|]. cbn [List.filter]. rewrite Hit. cbn [negb].
  by rewrite IH1.
Qed.

(** The order of the run.  No test is lost, invented or repeated: the
    new list and the deselected tests together are a permutation of the
    collected ones, and with --without-reboot exactly the reboot tests are
    deselected.  When a heap-session test is selected, the list runs heap
    baseline, body, final heap check and reboot tests in that order, and
    within each group keeps the collected order; otherwise the selection is
    left as it is.  Running the hook again changes nothing. *)
Theorem collection_order without_reboot items :
  let (items', deselected) := pytest_collection_modifyitems without_reboot items in
  let kept := kept without_reboot items in
  items' ++ deselected ≡ₚ items /\
  deselected = (if without_reboot then List.filter is_reboot items else []) /\
  (if existsb (fun it => (rank it =? 0) || (rank it =? 2))%nat kept
   then StronglySorted before items' /\ forall n, (n < 4)%nat -> of_rank n items' = of_rank n kept
   else items' = kept) /\
  pytest_collection_modifyitems without_reboot items' = (items', []).
Proof.
  rewrite modifyitems_eq. cbv zeta. set (k := kept without_reboot items).
  set (heap := fun l => existsb (fun it => (rank it =? 0) || (rank it =? 2))%nat l).
  fold (heap k). set (items' := if heap k then ordered k else k).
  assert (items' ≡ₚ k) as Hp by (unfold items'; destruct (heap k); [apply ordered_perm|done]).
  split_and!.
  - rewrite Hp. apply kept_perm.
  - done.
  - unfold items'. destruct (heap k); [|done]. split; [apply ordered_sorted|]. intros n. apply of_rank_ordered.
  - rewrite modifyitems_eq. destruct (kept_perm_id _ _ _ Hp) as [-> ->]. cbv zeta. fold (heap items').
    f_equal. unfold items'. destruct (heap k) eqn:Eh; [|by rewrite Eh].
    assert (heap (ordered k) = true) as ->.
    { unfold heap in *. rewrite heap_present in *. by rewrite !of_rank_ordered by lia. }
    unfold ordered at 1. by rewrite !of_rank_ordered by lia.
Qed.
