(* ===== verification/Rs485.v ===== *)
(** * The RS-485 baseline and its restore (src/api_tests/conftest.py)

    [_rs485_session_baseline] captures the serial fields of the two ports once
    per session; [_restore_rs485_settings] writes them back after every test
    module, one request per port.  Both talk to the device through the
    [SettingsClient] of [Gateway]; the worlds are that file's, with the count
    of warnings. *)

From Stdlib Require Import QArith.
From stdpp Require Import base list gmap strings.
From Stdlib Require Import ZArith Lia.
From S2P Require Import Prelude PyStr ApiClient Gateway.

Open Scope Z_scope.

Definition _RS485_RESTORE_KEYS : list string :=
  ["tx_disabled"; "baudrate"; "stopbits"; "parity"; "databits"; "term"; "fail_safe"].

Definition _RS485_SAFE_DEFAULTS : list (string * json) := [("tx_disabled", JBool false)].

Definition _RS485_HTTP_TIMEOUT : Q * Q := (5, 15)%Q.

Abbreviation fields := (list (string * json)).

(** The inner loop over the whitelist. *)
Definition capture_fields (port_settings : fields) : fields :=
  omap (fun key => v ← jget key port_settings; Some (key, default v (jget key _RS485_SAFE_DEFAULTS)))
    _RS485_RESTORE_KEYS.

(** The loop over the two ports; a port without usable fields is left out. *)
Definition capture_port (before : fields) (port : string) : option (string * fields) :=
  match jget port before with
  | Some (JObj port_settings) =>
      let fs := capture_fields port_settings in
      if (length fs =? 0)%nat then None else Some (port, fs)
  | _ => None
  end.

Definition capture (before : fields) : list (string * fields) :=
  omap (capture_port before) ["rs485_1"; "rs485_2"].

Section Restore.

Context {C : Type} `{SettingsClient C} (env : environment).

Definition _rs485_session_baseline : eff (gworld C) (list (string * fields)) :=
  let* got :=
    try_except
      (let* resp := on_client (sc_get_settings _RS485_HTTP_TIMEOUT) in
       let* before := lift (resp_json resp) in
       ret (Some before))
      (catches Exception_) (fun _ => warn env ;;; ret None) in
  match got with
  | None => ret []
  | Some (JObj before) =>
      let saved := capture before in
      if (length saved =? 0)%nat then warn env ;;; ret saved else ret saved
  | Some _ => warn env ;;; ret []
  end.

Definition port_post (pf : string * fields) : json := JObj [(pf.1, JObj pf.2)].

(** One port: the request, its body check, and the warning when the write
    was not confirmed. *)
Definition restore_one (pf : string * fields) : eff (gworld C) bool :=
  let* ok :=
    try_except
      (let* resp := on_client (sc_post_settings (port_post pf) _RS485_HTTP_TIMEOUT) in
       ret ((status_code resp =? 200) && from_option is_success false (body_json resp)))
      (catches Exception_) (fun _ => ret false) in
  if (ok : bool) then ret true else warn env ;;; ret false.

(** The teardown; it returns whether it ends with the settle pause. *)
Fixpoint restore_ports (baseline : list (string * fields)) (restored_any : bool) : eff (gworld C) bool :=
  match baseline with
  | [] => ret restored_any
  | pf :: rest =>
      let* ok := restore_one pf in
      restore_ports rest (restored_any || ok)
  end.

Definition _restore_rs485_settings (baseline : list (string * fields)) : eff (gworld C) bool :=
  restore_ports baseline false.

(** ** What is captured *)

Lemma jget_in k (f : fields) v : jget k f = Some v -> (k, v) ∈ f.
Proof.
  unfold jget. intros Hv. destruct (head (filter _ f)) as [[k' v']|] eqn:E; [|done]. cbn in Hv. simplify_eq.
  assert ((k', v) ∈ filter (fun kv : string * json => kv.1 = k) f) as Hin.
  { destruct (filter _ f); [done|]. cbn in E. simplify_eq. left. }
  apply list_elem_of_filter in Hin as [Hk Hin]. cbn in Hk. by subst.
Qed.

Lemma capture_fields_in ps k v :
  (k, v) ∈ capture_fields ps ->
  k ∈ _RS485_RESTORE_KEYS /\
  exists old, jget k ps = Some old /\ v = (if decide (k = "tx_disabled") then JBool false else old).
Proof.
  intros (key & Hin & Hk)%list_elem_of_omap. destruct (jget key ps) as [old|] eqn:E; [|done]. cbn in Hk.
  injection Hk as <- <-. split; [done|]. exists old. split; [done|].
  unfold jget, _RS485_SAFE_DEFAULTS. rewrite filter_cons, filter_nil. cbn [fst].
  destruct (decide ("tx_disabled" = key)) as [<-|Hne]; [done|].
  destruct (decide (key = "tx_disabled")); [congruence|done].
Qed.

Lemma capture_in before port fs :
  (port, fs) ∈ capture before ->
  (port = "rs485_1" \/ port = "rs485_2") /\
  exists ps, jget port before = Some (JObj ps) /\ fs = capture_fields ps /\ fs <> [].
Proof.
  intros (p & Hin & Hp)%list_elem_of_omap. unfold capture_port in Hp.
  destruct (jget p before) as [[| | | | |ps]|] eqn:E; try done.
  destruct (length (capture_fields ps) =? 0)%nat eqn:El; [done|]. injection Hp as <- <-. apply Nat.eqb_neq in El.
  split.
  - rewrite !elem_of_cons, elem_of_nil in Hin. tauto.
  - exists ps. split_and!; [done|done|]. intros E0. by rewrite E0 in El.
Qed.

Lemma jget_cons k k' v (f : fields) : jget k ((k', v) :: f) = if decide (k' = k) then Some v else jget k f.
Proof. unfold jget. rewrite filter_cons. cbn [fst]. by destruct (decide (k' = k)). Qed.

(** Looking a key up in what the whitelist loop collected over [keys]. *)
Lemma jget_omap keys ps key :
  NoDup keys ->
  jget key (omap (fun key => v ← jget key ps; Some (key, default v (jget key _RS485_SAFE_DEFAULTS))) keys) =
  if decide (key ∈ keys /\ jget key ps <> None)
  then (if decide (key = "tx_disabled") then Some (JBool false) else jget key ps) else None.
Proof.
  assert (forall k, jget k _RS485_SAFE_DEFAULTS = if decide (k = "tx_disabled") then Some (JBool false) else None) as Hs.
  { intros k. unfold _RS485_SAFE_DEFAULTS. rewrite jget_cons.
    by destruct (decide ("tx_disabled" = k)), (decide (k = "tx_disabled")). }
  induction 1 as [|k keys Hk _ IH]; cbn [omap list_omap].
  - rewrite decide_False; [done|]. intros [Hin _]. by apply elem_of_nil in Hin.
  - destruct (jget k ps) as [v|] eqn:Ev; cbn [mbind option_bind].
    + rewrite jget_cons, Hs. destruct (decide (k = key)) as [<-|Hne].
      * rewrite Ev. destruct (decide (k ∈ k :: keys /\ Some v <> None)) as [_|Hn]; [|destruct Hn; split; [left|done]].
        by destruct (decide (k = "tx_disabled")).
      * rewrite IH. apply decide_ext. rewrite elem_of_cons. intuition congruence.
    + rewrite IH. apply decide_ext. rewrite elem_of_cons.
      split; intros [Hin Hn]; (split; [|done]); [by right|]. by destruct Hin as [->|].
Qed.

Lemma capture_fields_get ps key :
  jget key (capture_fields ps) =
  if decide (key ∈ _RS485_RESTORE_KEYS /\ jget key ps <> None)
  then (if decide (key = "tx_disabled") then Some (JBool false) else jget key ps) else None.
Proof. apply jget_omap. by apply (bool_decide_unpack (NoDup _RS485_RESTORE_KEYS)). Qed.

Lemma capture_port_key before p x : capture_port before p = Some x -> x.1 = p.
Proof. unfold capture_port. intros Hx. repeat split_match_in Hx; by simplify_eq. Qed.

Lemma capture_nodup before : NoDup ((capture before).*1).
Proof.
  unfold capture. cbn [omap list_omap].
  destruct (capture_port before "rs485_1") as [x|] eqn:E1, (capture_port before "rs485_2") as [y|] eqn:E2; cbn;
    try (apply capture_port_key in E1 as ->); try (apply capture_port_key in E2 as ->);
    by apply (bool_decide_unpack (NoDup _)).
Qed.

Lemma capture_find before port ps :
  port = "rs485_1" \/ port = "rs485_2" -> jget port before = Some (JObj ps) ->
  (snd <$> list_find (fun pf : string * fields => pf.1 = port) (capture before)) =
  if (length (capture_fields ps) =? 0)%nat then None else Some (port, capture_fields ps).
Proof.
  intros Hport Hps. assert (capture_port before port =
    if (length (capture_fields ps) =? 0)%nat then None else Some (port, capture_fields ps)) as <-.
  { unfold capture_port. by rewrite Hps. }
  unfold capture. cbn [omap list_omap].
  destruct (capture_port before "rs485_1") as [x|] eqn:E1, (capture_port before "rs485_2") as [y|] eqn:E2;
    destruct Hport as [-> | ->]; rewrite ?E1, ?E2; cbn [list_find];
    try (pose proof (capture_port_key _ _ _ E1) as K1; rewrite !K1);
    try (pose proof (capture_port_key _ _ _ E2) as K2; rewrite !K2); done.
Qed.

(** ** What is sent *)

Definition restore_request (pf : string * fields) : request :=
  Request POST "/settings" (Some (port_post pf)) _RS485_HTTP_TIMEOUT.

(** Failures of a write are ordinary exceptions, and warning does not fail. *)
Definition quiet_env : Prop :=
  warn_error env = None /\
  forall j t c e, (sc_post_settings j t c).1 = Raise e -> catches Exception_ e = true.

Lemma restore_one_spec pf (w : gworld C) :
  quiet_env ->
  exists ok w', restore_one pf w = (Ok ok, w') /\
    sc_log (client w') = sc_log (client w) ++ [restore_request pf] /\
    client w' = (sc_post_settings (port_post pf) _RS485_HTTP_TIMEOUT (client w)).2 /\
    warnings w' = (warnings w + if ok then 0 else 1)%nat /\
    (ok = true -> exists resp, (sc_post_settings (port_post pf) _RS485_HTTP_TIMEOUT (client w)).1 = Ok resp /\
       status_code resp = 200 /\ from_option is_success false (body_json resp) = true).
Proof.
  intros [Hw Hp]. unfold restore_one, bind at 1, try_except, bind at 1, on_client, warn.
  specialize (Hp (port_post pf) _RS485_HTTP_TIMEOUT (client w)). rewrite Hw.
  destruct (sc_post_spec (port_post pf) _RS485_HTTP_TIMEOUT (client w)) as [Hs Hl].
  destruct (sc_post_settings (port_post pf) _RS485_HTTP_TIMEOUT (client w)) as [[resp|e|] c'] eqn:E;
    cbn [fst snd] in *; [| |done].
  - unfold ret at 1. destruct ((status_code resp =? 200) && from_option is_success false (body_json resp)) eqn:Eok.
    + eexists true, _. split; [reflexivity|]. cbn. bool_to_prop. split_and!; [done|done|lia|]. intros _. by exists resp.
    + eexists false, _. split; [reflexivity|]. cbn. split_and!; [done|done|lia|done].
  - rewrite (Hp e eq_refl). eexists false, _. split; [reflexivity|]. cbn. split_and!; [done|done|lia|done].
Qed.

Lemma restore_ports_spec baseline any (w : gworld C) :
  quiet_env ->
  exists any' w', restore_ports baseline any w = (Ok any', w') /\
    sc_log (client w') = sc_log (client w) ++ (restore_request <$> baseline) /\
    (warnings w <= warnings w' <= warnings w + length baseline)%nat /\
    (warnings w' = warnings w -> any' = any || negb (length baseline =? 0)%nat).
Proof.
  intros Hq. revert any w. induction baseline as [|pf rest IH]; intros any w; cbn [restore_ports].
  - eexists any, w. split; [reflexivity|]. cbn. rewrite app_nil_r, orb_false_r. split_and!; [done|lia|lia|done].
  - unfold bind at 1. destruct (restore_one_spec pf w Hq) as (ok & w1 & -> & L1 & _ & W1 & _).
    destruct (IH (any || ok) w1) as (any' & w' & -> & L2 & [W2 W3] & A2). exists any', w'.
    rewrite fmap_cons. cbn [length]. split_and!; [done|by rewrite L2, L1, <- app_assoc|lia|destruct ok; lia|].
    intros Hww. destruct ok; [|lia]. rewrite A2 by lia. by destruct any, (length rest =? 0)%nat.
Qed.

End Restore.

(** ** Convergence on a device that stores what it confirms *)

Section Device.

Context {D : Type} (device : request -> D -> outcome response * D).
Hypothesis device_settled : forall q d, settled (device q d).1.

(** A field of a port, as the device has it stored. *)
Context (field : D -> string -> string -> option json).

Definition confirmed (r : outcome response) : bool :=
  match r with
  | Ok resp => (status_code resp =? 200) && from_option is_success false (body_json resp)
  | _ => false
  end.

(** The documented contract of POST /settings: a confirmed write stores the
    fields it carries and no others. *)
Definition stores : Prop := forall p fs t d r d',
  device (Request POST "/settings" (Some (JObj [(p, JObj fs)])) t) d = (r, d') -> confirmed r = true ->
  forall p' k, field d' p' k =
    if decide (p' = p) then match jget k fs with Some v => Some v | None => field d p' k end
    else field d p' k.

#[local] Instance rs485_http_client : SettingsClient (aworld D) := http_settings_client device device_settled.

Lemma post_device j t (w : aworld D) :
  exists r d', device (Request POST "/settings" (Some j) t) (dev w) = (r, d') /\
    (sc_post_settings j t w).1 = r /\ dev (sc_post_settings j t w).2 = d'.
Proof.
  change (sc_post_settings j t w) with (session_request device (Request POST "/settings" (Some j) t) w).
  destruct (session_request_spec device (Request POST "/settings" (Some j) t) w) as (r & d & t' & c & -> & E & _).
  by exists r, d.
Qed.

Lemma restore_ports_fields env baseline any (w : gworld (aworld D)) w' any' :
  stores -> quiet_env env -> NoDup (baseline.*1) ->
  restore_ports env baseline any w = (Ok any', w') -> warnings w' = warnings w ->
  forall p k, field (dev (client w')) p k =
    match snd <$> list_find (fun pf => pf.1 = p) baseline with
    | Some (_, fs) => match jget k fs with Some v => Some v | None => field (dev (client w)) p k end
    | None => field (dev (client w)) p k
    end.
Proof.
  intros Hst Hq. revert any w. induction baseline as [|[p0 fs] rest IH]; intros any w Hnd; cbn [restore_ports].
  - intros [= <- <-] _ p k. done.
  - unfold bind at 1. destruct (restore_one_spec env (p0, fs) w Hq) as (ok & w1 & -> & _ & C1 & W1 & O1).
    intros Hrest Hww p k. cbn in Hnd. apply NoDup_cons in Hnd as [Hp0 Hnd].
    destruct (restore_ports_spec env rest (any || ok) w1 Hq) as (a2 & w2 & E2 & _ & [W2 _] & _).
    rewrite E2 in Hrest. injection Hrest as <- <-. destruct ok; [|lia].
    destruct (O1 eq_refl) as (resp & Hr & Hs & Hb).
    destruct (post_device (port_post (p0, fs)) _RS485_HTTP_TIMEOUT (client w)) as (r & d' & Hd & Hr' & Hd').
    rewrite Hr in Hr'. subst r.
    assert (forall p' k', field (dev (client w1)) p' k' =
      if decide (p' = p0) then match jget k' fs with Some v => Some v | None => field (dev (client w)) p' k' end
      else field (dev (client w)) p' k') as Hf.
    { rewrite C1, Hd'. eapply Hst; [exact Hd|]. cbn. by rewrite Hs, Hb. }
    rewrite (IH (any || true) w1 Hnd E2 ltac:(lia)). cbn [list_find fst].
    destruct (decide (p0 = p)) as [->|Hne].
    + cbn [fmap option_fmap option_map snd].
      assert (list_find (fun pf : string * fields => pf.1 = p) rest = None) as ->.
      { apply list_find_None, Forall_forall. intros [p1 f1] Hin Heq. cbn in Heq. subst p1.
        apply Hp0, list_elem_of_fmap. by exists (p, f1). }
      cbn. rewrite Hf. by rewrite decide_True.
    + destruct (list_find _ rest) as [[i [p1 f1]]|]; cbn.
      * rewrite Hf. by rewrite decide_False by congruence.
      * rewrite Hf. by rewrite decide_False by congruence.
Qed.

(** The restore of the session baseline converges.  Take the baseline
    captured from an earlier GET /settings body [before], and a device that
    stores what it confirms, left in any state by the tests of a module.
    Then [_restore_rs485_settings] returns without raising and sends exactly
    one request per captured port; and if it warned about none, every
    captured field of either port holds its baseline value again, which for
    [tx_disabled] is False whatever the baseline run had stored, while every
    field outside the whitelist is untouched. *)
Theorem rs485_restore_converges env before (w : gworld (aworld D)) :
  stores -> quiet_env env ->
  exists any w', _restore_rs485_settings env (capture before) w = (Ok any, w') /\
    log (client w') = log (client w) ++ (restore_request <$> capture before) /\
    (warnings w' = warnings w -> forall port ps key, port = "rs485_1" \/ port = "rs485_2" ->
       jget port before = Some (JObj ps) ->
       field (dev (client w')) port key =
         if decide (key ∈ _RS485_RESTORE_KEYS /\ jget key ps <> None)
         then (if decide (key = "tx_disabled") then Some (JBool false) else jget key ps)
         else field (dev (client w)) port key).
Proof.
  intros Hst Hq. unfold _restore_rs485_settings.
  destruct (restore_ports_spec env (capture before) false w Hq) as (any & w' & E & L & _ & _).
  exists any, w'. split_and!; [done|exact L|]. intros Hww port ps key Hport Hps.
  rewrite (restore_ports_fields env _ _ _ _ _ Hst Hq (capture_nodup before) E Hww).
  rewrite (capture_find before port ps Hport Hps).
  pose proof (capture_fields_get ps key) as Hg.
  destruct (length (capture_fields ps) =? 0)%nat eqn:El.
  - apply Nat.eqb_eq, length_zero_iff_nil in El. rewrite El in Hg. cbn in Hg.
    revert Hg. destruct (decide (key ∈ _RS485_RESTORE_KEYS /\ jget key ps <> None)) as [[_ Hd]|]; intros Hg; [|done].
    destruct (decide (key = "tx_disabled")); [done|]. by destruct (jget key ps).
  - cbv iota beta. rewrite Hg. destruct (decide (_ /\ _)) as [[Hd1 Hd2]|]; [|done].
    destruct (decide (key = "tx_disabled")); [done|]. by destruct (jget key ps).
Qed.

End Device.

(** ** A device that stores settings, left contaminated by a module *)

Definition settings_device (q : request) (d : gmap (string * string) json)
    : outcome response * gmap (string * string) json :=
  let ok := Ok (Response 200 "" (Some (JObj [("success", JBool true)])) []) in
  match payload q with
  | Some (JObj [(p, JObj fs)]) => (ok, foldr (fun kv m => <[(p, kv.1) := kv.2]> m) d fs)
  | _ => (ok, d)
  end.

Lemma settings_device_settled q d : settled (settings_device q d).1.
Proof. unfold settings_device. repeat split_match; done. Qed.

Lemma settings_device_stores : stores settings_device (fun d p k => d !! (p, k)).
Proof.
  intros p fs t d r d' Hd _ p' k. cbn in Hd. injection Hd as _ <-.
  induction fs as [|[k0 v0] fs IH]; cbn [foldr fst snd].
  - by destruct (decide (p' = p)).
  - rewrite jget_cons. destruct (decide (p' = p)) as [->|Hne].
    + destruct (decide (k0 = k)) as [->|Hk]; [by rewrite lookup_insert_eq|].
      rewrite lookup_insert_ne by congruence. exact IH.
    + rewrite lookup_insert_ne by congruence. exact IH.
Qed.

Definition clean_before : fields :=
  [("web_port", JNum 80);
   ("rs485_1", JObj [("baudrate", JNum 9600); ("tx_disabled", JBool true); ("port_mode", JStr "off")])].

Definition dirty_world : gworld (aworld (gmap (string * string) json)) :=
  GWorld (AWorld {[ ("rs485_1", "baudrate") := JNum 115200; ("rs485_1", "tx_disabled") := JBool true;
                    ("rs485_1", "port_mode") := JStr "tcp_bridge" ]} [] ∅ 1 0%Q (fun _ => 0%Q)) None 0 0.

Lemma rs485_restore_converges_witness :
  exists any w',
    _restore_rs485_settings (H := rs485_http_client settings_device settings_device_settled)
      (Environment (Ok tt) None true true None) (capture clean_before) dirty_world = (Ok any, w') /\
    dev (client w') !! ("rs485_1", "baudrate") = Some (JNum 9600) /\
    dev (client w') !! ("rs485_1", "tx_disabled") = Some (JBool false) /\
    dev (client w') !! ("rs485_1", "port_mode") = Some (JStr "tcp_bridge").
Proof.
  destruct (rs485_restore_converges settings_device settings_device_settled (fun d p k => d !! (p, k))
    (Environment (Ok tt) None true true None) clean_before dirty_world settings_device_stores) as (any & w' & E & _ & Hf).
  - split; [reflexivity|]. intros j t c e He. exfalso. revert He.
    destruct (post_device settings_device settings_device_settled j t c) as (r & d' & Hd & -> & _).
    unfold settings_device in Hd. cbn in Hd. intros ->. repeat split_match_in Hd; discriminate Hd.
  - assert (warnings w' = warnings dirty_world) as Hww.
    { replace w' with (_restore_rs485_settings (H := rs485_http_client settings_device settings_device_settled)
        (Environment (Ok tt) None true true None) (capture clean_before) dirty_world).2 by (rewrite E; reflexivity).
      vm_compute. reflexivity. }
    exists any, w'. split; [exact E|].
    rewrite !(Hf Hww "rs485_1" [("baudrate", JNum 9600); ("tx_disabled", JBool true); ("port_mode", JStr "off")] _
      (or_introl eq_refl) eq_refl).
    vm_compute. auto.
Defined.
