(* ===== verification/LeakGuard.v ===== *)
(** * The UART leak guard (src/api_tests/conftest.py, [_uart_leak_guard])

    After every test the guard probes the two single-client UART chardevs and
    warns about the ports that newly stopped accepting.  Its state is that of
    [_uart_leak_state]: the recent test ids and the ports already warned
    about. *)

From stdpp Require Import base list gmap sets strings.
From Stdlib Require Import ZArith Lia.
From S2P Require Import Prelude QemuPorts.

Open Scope Z_scope.

Definition _UART_LEAK_GUARD_WINDOW : nat := 3.

Record guard := Guard { recent : list string; warned : gset Z }.

Definition _uart_leak_state : guard := Guard [] ∅.

(** What probing one port shows: no socket could be created, the connect
    failed, or it succeeded. *)
Inductive probe : Type := NoSocket | Unreachable | Accepts.

#[export] Instance probe_eq_dec : EqDecision probe.
Proof. solve_decision. Defined.

(** What the teardown of one test saw and does: whether the chardevs are this
    run's own, the test, the probes, and whether [warnings.warn] raises. *)
Record teardown := Teardown {
  ours : bool;
  test : string;
  probes : Z -> probe;
  warn_raises : bool
}.

(** The parts of the warning: the ports, the tests before, most recent
    first, and the ports that were already reported. *)
Record warning := Warning { newly : list Z; after : string; window : list string; still : list Z }.

Inductive report : Type :=
| Silent
| Warned (m : warning)
| Printed (m : warning).      (* warn() raised; the handler prints *)

Section Slot.

Context (slot : Z).

Definition uart_ports : list Z := [UART1_TCP_PORT slot; UART2_TCP_PORT slot].

Definition unreachable (t : teardown) : list Z := filter (fun p => probes t p = Unreachable) uart_ports.

(** [del recent[:max(0, len(recent) - WINDOW)]] *)
Definition trim (l : list string) : list string := drop (length l - _UART_LEAK_GUARD_WINDOW) l.

Definition _uart_leak_guard (t : teardown) (g : guard) : report * guard :=
  if negb (ours t) then (Silent, g)
  else
    let predecessors := recent g in
    let recent := trim (predecessors ++ [test t]) in
    let unreach := unreachable t in
    let w := warned g ∩ list_to_set unreach in
    let newly := filter (fun p => p ∉ w) unreach in
    if (length newly =? 0)%nat then (Silent, Guard recent w)
    else
      let still := filter (fun p => p ∈ w) unreach in
      let m := Warning newly (test t) (reverse predecessors) still in
      (if warn_raises t then Printed m else Warned m, Guard recent (w ∪ list_to_set newly)).

(** The whole session. *)
Fixpoint guard_session (ts : list teardown) (g : guard) : list report * guard :=
  match ts with
  | [] => ([], g)
  | t :: ts =>
      let (r, g) := _uart_leak_guard t g in
      let (rs, g) := guard_session ts g in
      (r :: rs, g)
  end.

(** ** Edge triggering *)

Lemma filter_same {A} (P Q : A -> Prop) `{!forall x, Decision (P x), !forall x, Decision (Q x)} (l : list A) :
  (forall x, x ∈ l -> P x <-> Q x) -> filter P l = filter Q l.
Proof.
  induction l as [|x l IH]; intros HPQ; [done|]. rewrite !filter_cons.
  rewrite IH by (intros y Hy; apply HPQ; by right). apply decide_ext, HPQ. left.
Qed.

Definition reported (r : report) : list Z :=
  match r with Silent => [] | Warned m | Printed m => newly m end.

Definition unreach_set (t : teardown) : gset Z := list_to_set (unreachable t).

Lemma guard_step t g :
  ours t = true ->
  let (r, g') := _uart_leak_guard t g in
  warned g' = unreach_set t /\
  recent g' = trim (recent g ++ [test t]) /\
  reported r = filter (fun p => p ∉ warned g) (unreachable t) /\
  match r with
  | Silent => True
  | Warned m | Printed m =>
      window m = reverse (recent g) /\ after m = test t /\
      still m = filter (fun p => p ∈ warned g) (unreachable t)
  end.
Proof.
  intros Ho. unfold _uart_leak_guard. rewrite Ho. cbn [negb].
  assert (forall p, p ∈ unreachable t -> p ∈ warned g ∩ list_to_set (unreachable t) <-> p ∈ warned g) as Hin.
  { intros p Hp. rewrite elem_of_intersection, elem_of_list_to_set. tauto. }
  assert (filter (fun p => p ∉ warned g ∩ list_to_set (unreachable t)) (unreachable t) =
          filter (fun p => p ∉ warned g) (unreachable t)) as ->.
  { apply filter_same. intros p Hp. by rewrite Hin. }
  assert (filter (fun p => p ∈ warned g ∩ list_to_set (unreachable t)) (unreachable t) =
          filter (fun p => p ∈ warned g) (unreachable t)) as ->.
  { apply filter_same. intros p Hp. by rewrite Hin. }
  destruct (length (filter _ (unreachable t)) =? 0)%nat eqn:El.
  - apply Nat.eqb_eq, length_zero_iff_nil in El. cbn [warned recent reported].
    split_and!; [|done|done|done]. unfold unreach_set. apply set_eq. intros p. rewrite elem_of_intersection.
    split; [tauto|]. intros Hp. split; [|done]. apply elem_of_list_to_set in Hp.
    destruct (decide (p ∈ warned g)) as [|Hn]; [done|].
    assert (p ∈ filter (fun p => p ∉ warned g) (unreachable t)) as Hf by (by apply list_elem_of_filter).
    rewrite El in Hf. by apply elem_of_nil in Hf.
  - split_and!.
    + cbn [warned]. unfold unreach_set. apply set_eq. intros p.
      rewrite elem_of_union, elem_of_intersection, !elem_of_list_to_set, list_elem_of_filter.
      destruct (decide (p ∈ warned g)); tauto.
    + done.
    + by destruct (warn_raises t).
    + by destruct (warn_raises t).
Qed.

Lemma trim_app l l' : trim (trim l ++ l') = trim (l ++ l').
Proof.
  unfold trim, _UART_LEAK_GUARD_WINDOW. rewrite !length_app, length_drop.
  destruct (decide (length l <= 3)%nat).
  - replace (length l - 3)%nat with 0%nat by lia. cbn [drop]. by rewrite Nat.sub_0_r.
  - rewrite <- (drop_app_le l l' (length l - 3)) by lia. rewrite drop_drop. f_equal. lia.
Qed.

Lemma trim_idem l : trim (trim l) = trim l.
Proof. rewrite <- (app_nil_r (trim l)), trim_app. by rewrite !app_nil_r. Qed.

(** The ports that were unreachable at the teardown before the [i]-th. *)
Definition unreach_before (first : gset Z) (ts : list teardown) (i : nat) : gset Z :=
  match i with O => first | S j => from_option unreach_set ∅ (ts !! j) end.

Lemma guard_session_spec ts g :
  Forall (fun t => ours t = true) ts -> recent g = trim (recent g) ->
  let (rs, g') := guard_session ts g in
  length rs = length ts /\
  forall i t r, ts !! i = Some t -> rs !! i = Some r ->
    reported r = filter (fun p => p ∉ unreach_before (warned g) ts i) (unreachable t) /\
    match r with
    | Silent => True
    | Warned m | Printed m =>
        window m = reverse (trim (recent g ++ (test <$> take i ts))) /\ after m = test t /\
        still m = filter (fun p => p ∈ unreach_before (warned g) ts i) (unreachable t)
    end.
Proof.
  intros Hall. revert g. induction Hall as [|t ts Ho _ IH]; intros g Hg; [by cbn|]. cbn [guard_session].
  pose proof (guard_step t g Ho) as Hs. destruct (_uart_leak_guard t g) as [r0 g1]. destruct Hs as (Hw & Hr & Hrep & Hm).
  specialize (IH g1). destruct (guard_session ts g1) as [rs g'].
  destruct IH as [Hl IH]; [by rewrite Hr, trim_idem|].
  split; [cbn; lia|]. intros [|i] t' r' Ht Hr'; cbn in Ht, Hr'.
  - simplify_eq. cbn [unreach_before take fmap list_fmap]. rewrite app_nil_r, <- Hg. done.
  - destruct (IH i t' r' Ht Hr') as [IH1 IH2].
    assert (unreach_before (warned g1) ts i = unreach_before (warned g) (t :: ts) (S i)) as E.
    { cbn. destruct i; [done|]. done. }
    rewrite E in *. split; [done|]. cbn [take fmap list_fmap]. destruct r' as [|m|m]; [done|..];
      destruct IH2 as (-> & ? & ?); (split_and!; [|done|done]); by rewrite Hr, trim_app, <- app_assoc.
Qed.

(** The guard is edge-triggered, per port, over a whole session on chardevs
    of this run.  The report of the [i]-th teardown names exactly the ports
    that are unreachable then and were not unreachable one teardown earlier
    (so a wedged port is reported once per episode, is re-armed when it
    accepts again, and never silences the other port); the ports that stay
    unreachable are listed as such; and the window names the tests before
    the current one, at most three, most recent first. *)
Theorem leak_guard_edges ts :
  Forall (fun t => ours t = true) ts ->
  let (rs, g) := guard_session ts _uart_leak_state in
  length rs = length ts /\
  forall i t r, ts !! i = Some t -> rs !! i = Some r ->
    reported r = filter (fun p => p ∉ unreach_before ∅ ts i) (unreachable t) /\
    match r with
    | Silent => True
    | Warned m | Printed m =>
        window m = reverse (trim (test <$> take i ts)) /\ after m = test t /\
        still m = filter (fun p => p ∈ unreach_before ∅ ts i) (unreachable t)
    end.
Proof. intros Hall. by apply (guard_session_spec ts _uart_leak_state Hall). Qed.

End Slot.

Lemma leak_guard_edges_witness :
  let wedged p := fun q => if q =? p then Unreachable else Accepts in
  let ts := [Teardown true "a" (wedged (UART1_TCP_PORT 0)) false;
             Teardown true "b" (fun _ => Unreachable) false;
             Teardown true "c" (wedged (UART2_TCP_PORT 0)) false;
             Teardown true "d" (fun _ => Unreachable) false] in
  Forall (fun t => ours t = true) ts /\
  (reported <$> (guard_session 0 ts _uart_leak_state).1) =
    [[UART1_TCP_PORT 0]; [UART2_TCP_PORT 0]; []; [UART1_TCP_PORT 0]] /\
  (forall r, (guard_session 0 ts _uart_leak_state).1 !! 3%nat = Some r ->
     reported r = filter (fun p => p ∉ unreach_before 0 ∅ ts 3)
       (unreachable 0 (Teardown true "d" (fun _ => Unreachable) false))).
Proof.
  intros wedged ts. assert (Forall (fun t => ours t = true) ts) as Hall by (repeat constructor).
  split; [exact Hall|]. split; [vm_compute; reflexivity|].
  pose proof (leak_guard_edges 0 ts Hall) as H. destruct (guard_session 0 ts _uart_leak_state) as [rs g].
  destruct H as [_ H]. intros r Hr. apply (H 3%nat _ r eq_refl Hr).
Defined.
