(* ===== verification/Preflight.v ===== *)
(** * The QEMU session (src/api_tests/conftest.py)

    The hooks and the session fixture that start and stop QEMU in a working
    tree: [pytest_configure] takes the tree lock, [qemu_process] runs the
    preflight checks, builds, re-checks the lock, launches QEMU, waits for it
    and shuts it down after the tests, and [pytest_unconfigure] releases the
    lock.  The lock is that of [TreeLock], over the same kernel.  What the
    other programs involved do ([ps], [make], QEMU, the device) is the
    environment, and so is what the rest of the host does to the kernel in
    every stretch of the session that another program can run in, the
    [make -s qemu-bin-path] between the last look at the lock and the launch
    included.  Reports on the terminal are not modelled; warnings are
    counted. *)

From Stdlib Require Import QArith Lqa ZArith Lia Ascii String.
From stdpp Require Import base list gmap strings.
From S2P Require Import Prelude PyStr QemuPorts TreeLock TreeLockSystem.

Open Scope Z_scope.

(** A process run to its end: exit status and standard output, or what
    starting it raised. *)
Abbreviation completed := (outcome (Z * string)).

(** One round of the readiness loop: the clock, [proc.poll()], and the
    request. *)
Record ready_round := ReadyRound { r_clock : Q; r_exit : option Z; r_get : outcome unit }.

(** How [proc.poll()], [proc.wait(timeout=5)] turn out at the end. *)
Record shutdown := Shutdown { still_running : bool; wait_times_out : bool }.

(** The stretches of a session in which other programs run. *)
Inductive phase : Type :=
| Collecting                              (* between the hooks and the fixture *)
| Checking                                (* ps, the port probes *)
| Building                                (* make qemu-create-... *)
| LookingUp                               (* make -s qemu-bin-path *)
| Opening                                 (* between open(log_file, "w") and Popen *)
| Booting                                 (* _wait_for_qemu_ready *)
| Testing                                 (* the yield *)
| Stopping.                               (* coverage dump, SIGTERM, wait *)

Record qenv := QEnv {
  ps : completed;                         (* ps -Aww -o pid=,args= *)
  tcp_connects : Z -> bool;               (* connect_ex(port) == 0 *)
  udp_refuses : Z -> bool;                (* bind(port) raises OSError *)
  build : Z;                              (* make qemu-create-... *)
  images_exist : bool;
  bin_path : Z * string;                  (* make -s qemu-bin-path *)
  popen : option exn;
  ready_deadline : Q;
  ready : list ready_round;
  coverage : option (outcome unit);       (* --coverage-dump: its download *)
  ending : shutdown;
  during : phase -> kernel -> kernel
}.

(** What the session did to the tree, with the kernel it did it under. *)
Inductive tree_event : Type :=
| Built (k : kernel)
| Checked (k : kernel)                    (* _verify_tree_lock_intact found no problem *)
| LogTruncated (k : kernel)
| Launched (k : kernel).

Inductive signal : Type := SIGTERM | SIGKILL.

Record session := Session {
  kern : kernel;
  lock : option tree_lock;                (* _TREE_LOCK *)
  config : bool;                          (* _PYTEST_CONFIG is set *)
  qemu_running : bool;
  log_open : bool;
  signals : list signal;                  (* sent to QEMU *)
  events : list tree_event;
  warns : nat
}.

Section Hooks.

Context (project_root lock_path flash_path flash_resolved : string) (p : process) (slot : Z).

Definition on_kernel {A} (m : eff kernel A) : eff session A := fun s =>
  let (r, k) := m (kern s) in
  (r, Session k (lock s) (config s) (qemu_running s) (log_open s) (signals s) (events s) (warns s)).

Definition set_lock (l : option tree_lock) : eff session unit :=
  modify (fun s => Session (kern s) l (config s) (qemu_running s) (log_open s) (signals s) (events s) (warns s)).

Definition warn_ : eff session unit :=
  modify (fun s => Session (kern s) (lock s) (config s) (qemu_running s) (log_open s) (signals s) (events s) (S (warns s))).

Definition set_qemu (running opened : bool) : eff session unit :=
  modify (fun s => Session (kern s) (lock s) (config s) running opened (signals s) (events s) (warns s)).

Definition send (sig : list signal) : eff session unit :=
  modify (fun s => Session (kern s) (lock s) (config s) (qemu_running s) (log_open s) (signals s ++ sig) (events s) (warns s)).

Definition event (e : kernel -> tree_event) : eff session unit :=
  modify (fun s => Session (kern s) (lock s) (config s) (qemu_running s) (log_open s) (signals s) (events s ++ [e (kern s)]) (warns s)).

Definition pytest_exit {A} : eff session A := raise (PytestExit 1).

Definition is_busy (e : exn) : bool := match e with TreeLockBusy _ _ => true | _ => false end.

Definition _acquire_tree_lock : eff session unit :=
  let* s := get in
  match lock s with
  | Some _ => ret tt
  | None =>
      let* l := try_except (on_kernel (acquire project_root lock_path true p)) is_busy (fun _ => pytest_exit) in
      (if negb (enforced l) then warn_ else ret tt) ;;;
      set_lock (Some l)
  end.

(** What the report header says about the lock. *)
Inductive lock_state : Type :=
| NotLocked
| LockLost (problem : lock_problem)
| LockedByAncestor (holder : string)
| NotEnforced
| LockedForSession.

Definition _tree_lock_state : eff session lock_state :=
  let* s := get in
  match lock s with
  | None => ret NotLocked
  | Some l =>
      match inherited_holder l with
      | Some h =>
          let* problem := on_kernel (verify_intact lock_path l p) in
          match problem with
          | Some pr => ret (LockLost pr)
          | None => ret (LockedByAncestor h)
          end
      | None => if negb (enforced l) then ret NotEnforced else ret LockedForSession
      end
  end.

Definition _verify_tree_lock_intact : eff session unit :=
  let* s := get in
  match lock s with
  | None => ret tt
  | Some l =>
      let* problem := on_kernel (verify_intact lock_path l p) in
      match problem with Some _ => pytest_exit | None => event Checked end
  end.

Definition _release_tree_lock : eff session unit :=
  let* s := get in
  set_lock None ;;;
  match lock s with
  | None => ret tt
  | Some l => on_kernel (release l p) ;;; ret tt
  end.

(** The matching lines of [ps], and whether the list could not be read. *)
Definition _qemu_processes_in_this_tree (e : qenv) : outcome (list string * bool) :=
  match ps e with
  | Ok (code, out) =>
      if negb (code =? 0) then Ok ([], true)
      else
        let candidates := ["file=" +:+ flash_path +:+ ","; "file=" +:+ flash_resolved +:+ ","] in
        Ok (strip <$> List.filter (fun line =>
              contains "qemu-system-xtensa" line && existsb (fun c => contains c line) candidates)
              (splitlines out), false)
  | Raise ex => if catches OSError ex || catches SubprocessError ex then Ok ([], true) else Raise ex
  | Blocked => Blocked
  end.

Definition _check_no_foreign_qemu_in_tree (e : qenv) : eff session unit :=
  let* (mine, lookup_error) := lift (_qemu_processes_in_this_tree e) in
  if (lookup_error : bool) then warn_
  else if (length mine =? 0)%nat then ret tt else pytest_exit.

Definition occupied_ports (e : qenv) : list Z :=
  List.filter (tcp_connects e) (MY_TCP_HOST_PORTS slot) ++
  List.filter (udp_refuses e) (MY_UDP_HOST_PORTS slot).

Definition _check_no_stale_qemu (e : qenv) : eff session unit :=
  if (length (occupied_ports e) =? 0)%nat then ret tt else pytest_exit.

Definition _get_qemu_bin_path (e : qenv) : option string :=
  let (code, out) := bin_path e in if negb (code =? 0) then None else Some (strip out).

(** The readiness loop: ready, not ready, or raising. *)
Fixpoint _wait_for_qemu_ready (deadline : Q) (rounds : list ready_round) : outcome bool :=
  match rounds with
  | [] => Blocked
  | r :: rounds =>
      if Qle_bool deadline (r_clock r) then Ok false
      else match r_exit r with
           | Some _ => Ok false
           | None =>
               match r_get r with
               | Ok _ => Ok true
               | Raise ex => if catches RequestException ex then _wait_for_qemu_ready deadline rounds else Raise ex
               | Blocked => Blocked
               end
           end
  end.

(** Another program, or the tests, running for a while. *)
Definition meanwhile (f : kernel -> kernel) : eff session unit :=
  modify (fun s => Session (f (kern s)) (lock s) (config s) (qemu_running s) (log_open s) (signals s) (events s) (warns s)).

Definition build_step (e : qenv) (skip_build : bool) : eff session unit :=
  if skip_build then ret tt
  else
    event Built ;;; meanwhile (during e Building) ;;;
    if negb (build e =? 0) then pytest_exit else ret tt.

Definition find_qemu (e : qenv) : eff session unit :=
  if negb (images_exist e) then pytest_exit
  else
    meanwhile (during e LookingUp) ;;;
    match _get_qemu_bin_path e with
       | None => pytest_exit
       | Some b => if String.eqb b "" then pytest_exit else ret tt
       end.

(** [open(log_file, "w")], [Popen], and the wait; a QEMU that does not become
    ready is killed. *)
Definition launch (e : qenv) : eff session unit :=
  event LogTruncated ;;;
  set_qemu false true ;;;
  meanwhile (during e Opening) ;;;
  match popen e with
  | Some ex => raise ex
  | None =>
      event Launched ;;; set_qemu true true ;;;
      meanwhile (during e Booting) ;;;
      let* is_ready := lift (_wait_for_qemu_ready (ready_deadline e) (ready e)) in
      if negb is_ready then send [SIGKILL] ;;; set_qemu false false ;;; pytest_exit else ret tt
  end.

(** SIGTERM, and SIGKILL when that does not end it within five seconds. *)
Definition terminate (e : qenv) : eff session unit :=
  if still_running (ending e)
  then send [SIGTERM] ;;; if wait_times_out (ending e) then send [SIGKILL] else ret tt
  else ret tt.

(** The part after [yield]. *)
Definition stop_qemu (e : qenv) : eff session unit :=
  meanwhile (during e Stopping) ;;;
  (match coverage e with
   | Some (Raise ex) => if catches Exception_ ex then ret tt else raise ex
   | _ => ret tt
   end) ;;;
  terminate e ;;;
  set_qemu false false.

(** [qemu_process], with the tests in the middle. *)
Definition qemu_process (e : qenv) (qemu skip_build : bool) : eff session unit :=
  if negb qemu then meanwhile (during e Testing)
  else
    _acquire_tree_lock ;;;
    meanwhile (during e Checking) ;;;
    _check_no_foreign_qemu_in_tree e ;;;
    _check_no_stale_qemu e ;;;
    build_step e skip_build ;;;
    _verify_tree_lock_intact ;;;
    find_qemu e ;;;
    launch e ;;;
    meanwhile (during e Testing) ;;;
    stop_qemu e.

Definition pytest_configure (qemu : bool) (xdist_procs : bool) (xdist_worker : option string) : eff session unit :=
  modify (fun s => Session (kern s) (lock s) true (qemu_running s) (log_open s) (signals s) (events s) (warns s)) ;;;
  if qemu then
    if xdist_procs || match xdist_worker with Some w => negb (String.eqb w "") | None => false end then pytest_exit
    else _acquire_tree_lock
  else ret tt.

Definition pytest_unconfigure : eff session unit :=
  modify (fun s => Session (kern s) (lock s) false (qemu_running s) (log_open s) (signals s) (events s) (warns s)) ;;;
  _release_tree_lock.

(** A whole pytest process: [pytest_unconfigure] runs on every exit path. *)
Definition pytest_session (e : qenv) (qemu skip_build xdist : bool) (worker : option string) : eff session unit :=
  try_finally
    (pytest_configure qemu xdist worker ;;; meanwhile (during e Collecting) ;;; qemu_process e qemu skip_build)
    pytest_unconfigure.

End Hooks.

(** ** The barrier stands whenever the session writes into the tree *)

(** Somebody holds the flock of the file on disk. *)
Definition barrier (k : kernel) : Prop :=
  exists ino fd, on_disk k = Some ino /\ flocks k !! ino = Some fd.

Lemma barrier_refuses project_root k q :
  kernel_ok k -> barrier k -> has_fcntl q = true ->
  exists k', acquire_self project_root q k = (Raise (TreeLockBusy (holder_text k) strerror), k').
Proof.
  intros Hk (ino & fd & Hd & Hf) Hq. pose proof (acquire_self_spec project_root q k Hk Hq) as Ha.
  rewrite Hd in Ha. cbn [mbind option_bind] in Ha. rewrite Hf in Ha. destruct Ha as (k' & E & _). eauto.
Qed.

Section Safety.

Context (project_root lock_path flash_path flash_resolved : string) (p : process) (slot : Z).
Hypothesis has_flock : has_fcntl p = true.

(** Whatever else runs on the host neither opens nor closes descriptions of
    this process, and cannot release a flock of it. *)
Definition benign (f : kernel -> kernel) : Prop := forall k,
  kernel_ok k -> kernel_ok (f k) /\
  (forall fd ino, fds (f k) !! fd = Some (ino, getpid p) <-> fds k !! fd = Some (ino, getpid p)) /\
  (forall fd ino, fds k !! fd = Some (ino, getpid p) -> flocks k !! ino = Some fd -> flocks (f k) !! ino = Some fd).

(** A lock object of the session: its own flock, or an ancestor's. *)
Definition lock_ok (k : kernel) (l : tree_lock) : Prop :=
  match fh l with
  | Some fd => inherited_holder l = None /\ exists ino, fds k !! fd = Some (ino, getpid p) /\ flocks k !! ino = Some fd
  | None => inherited_holder l <> None
  end.

(** Between the check that saw [k0] and the moment of [k] nobody deleted or
    replaced the lock file, and a flock of another process (the ancestor's)
    that stood on it stands still. *)
Definition undisturbed (k0 k : kernel) : Prop :=
  on_disk k = on_disk k0 /\
  forall ino fd q, on_disk k0 = Some ino -> flocks k0 !! ino = Some fd -> fds k0 !! fd = Some (ino, q) ->
    q <> getpid p -> flocks k !! ino = Some fd.

(** What [k] must still have of the session's own flocks in [k0]. *)
Definition keeps (k0 k : kernel) : Prop := forall fd ino,
  fds k0 !! fd = Some (ino, getpid p) -> flocks k0 !! ino = Some fd ->
  fds k !! fd = Some (ino, getpid p) /\ flocks k !! ino = Some fd.

Lemma keeps_barrier k0 k : kernel_ok k0 -> barrier k0 -> keeps k0 k -> undisturbed k0 k -> barrier k.
Proof.
  intros Hk0 (ino & fd & Hd & Hf) Hkeep [Ed Hother]. exists ino, fd. rewrite Ed. split; [done|].
  destruct (k_flock _ Hk0 ino fd Hf) as [q Hq]. destruct (decide (q = getpid p)) as [->|Hne].
  - by apply Hkeep.
  - by apply (Hother ino fd q).
Qed.

(** An event is in order after the events [before] it. *)
Definition guarded (before : list tree_event) (ev : tree_event) : Prop :=
  match ev with
  | Built _ => True
  | Checked k => kernel_ok k /\ barrier k
  | LogTruncated k | Launched k =>
      kernel_ok k /\ exists k0, Checked k0 ∈ before /\ kernel_ok k0 /\ barrier k0 /\ (undisturbed k0 k -> barrier k)
  end.

Definition in_order (evs : list tree_event) : Prop :=
  forall before ev after, evs = before ++ ev :: after -> guarded before ev.

Lemma in_order_snoc evs ev : in_order evs -> guarded evs ev -> in_order (evs ++ [ev]).
Proof.
  intros Ho Hg before ev' after. destruct after as [|x after _] using rev_ind.
  - intros [-> [= ->]]%app_inj_tail. done.
  - intros E. apply (Ho before ev' after). rewrite app_comm_cons, app_assoc in E.
    by apply app_inj_tail in E as [-> _].
Qed.

Record inv (s : session) : Prop := {
  i_kernel : kernel_ok (kern s);
  i_lock : forall l, lock s = Some l -> lock_ok (kern s) l;
  i_own : forall fd ino, fds (kern s) !! fd = Some (ino, getpid p) -> exists l, lock s = Some l /\ fh l = Some fd;
  i_events : in_order (events s)
}.

(** [m], from states of [P], keeps [inv] and returns in states of [Q]. *)
Definition triple {A} (P : session -> Prop) (m : eff session A) (Q : A -> session -> Prop) : Prop :=
  forall s, inv s -> P s ->
  let (r, s') := m s in inv s' /\ match r with Ok a => Q a s' | _ => True end.

Lemma triple_bind {A B} P (m : eff session A) Q (k : A -> eff session B) R :
  triple P m Q -> (forall a, triple (Q a) (k a) R) -> triple P (bind m k) R.
Proof.
  intros Hm Hk s Hi HP. specialize (Hm s Hi HP). unfold bind.
  destruct (m s) as [[a|e|] s1]; destruct Hm as [H1 H2]; [by apply Hk|done|done].
Qed.

Lemma triple_weaken {A} (P P' : session -> Prop) (m : eff session A) (Q Q' : A -> session -> Prop) :
  triple P' m Q' -> (forall s, P s -> P' s) -> (forall a s, Q' a s -> Q a s) -> triple P m Q.
Proof.
  intros Hm HP HQ s Hi Hs. specialize (Hm s Hi (HP s Hs)). destruct (m s) as [[a|e|] s1]; destruct Hm; auto.
Qed.

(** Facts that survive further events, kernel and lock being left alone. *)
Definition frame (P : session -> Prop) : Prop := forall s s',
  kern s' = kern s -> lock s' = lock s -> (exists evs, events s' = events s ++ evs) -> P s -> P s'.

Definition still_step {A} (m : eff session A) : Prop := forall s,
  kern (m s).2 = kern s /\ lock (m s).2 = lock s /\ events (m s).2 = events s.

Lemma triple_still {A} P (m : eff session A) : frame P -> still_step m -> triple P m (fun _ => P).
Proof.
  intros HF Hm s [Hk Hl Ho He] HP. specialize (Hm s). destruct (m s) as [r s'].
  destruct Hm as (E1 & E2 & E3). cbn in *. split.
  - split; [by rewrite E1|rewrite E1, E2; done|rewrite E1, E2; done|by rewrite E3].
  - destruct r; [|done..]. apply (HF s); [done..| |done]. exists []. by rewrite app_nil_r.
Qed.

Definition locked (s : session) : Prop := lock s <> None.

(** The lock was found intact, and the session's flock stands as it did. *)
Definition checked (s : session) : Prop :=
  locked s /\ exists k0, Checked k0 ∈ events s /\ kernel_ok k0 /\ barrier k0 /\ keeps k0 (kern s).

Lemma frame_locked : frame locked.
Proof. intros s s' _ E _ H. unfold locked. by rewrite E. Qed.
Lemma frame_checked : frame checked.
Proof.
  intros s s' E1 E2 [evs E3] [H1 (k0 & Hin & H2)]. split; [unfold locked; by rewrite E2|].
  exists k0. rewrite E1, E3. split; [|done]. rewrite elem_of_app. by left.
Qed.

Lemma own_unseen k k' (P : nat -> Prop) : unseen k k' ->
  (forall fd ino, fds k !! fd = Some (ino, getpid p) -> P fd) ->
  forall fd ino, fds k' !! fd = Some (ino, getpid p) -> P fd.
Proof. intros [_ H2 _ _ _ _ _]. rewrite H2. done. Qed.

Lemma lock_ok_unseen k k' l : unseen k k' -> lock_ok k l -> lock_ok k' l.
Proof. intros [H1 H2 _ _ _ _ _]. unfold lock_ok. rewrite H1, H2. done. Qed.

Lemma no_locks_ok k : kernel_ok k -> sys_ok project_root (System k ∅).
Proof. intros Hk. split; [done|]. cbn. intros pid l Hl. by rewrite lookup_empty in Hl. Qed.

(** What [acquire] opens it closes again, unless it hands it out. *)
Lemma acquire_fds allow k r k' :
  kernel_ok k -> acquire project_root lock_path allow p k = (r, k') ->
  match r with
  | Ok l => enforced l = true /\ lock_ok k' l /\
            forall fd e, fds k' !! fd = Some e -> fds k !! fd = Some e \/ fh l = Some fd
  | _ => fds k' = fds k
  end.
Proof.
  intros Hk E. unfold acquire, bind in E.
  assert (exists o k1, (if allow then inherited_lock_holder lock_path p else ret None) k = (o, k1) /\
    unseen k k1) as (o & k1 & Ei & Hu).
  { destruct allow; [|eexists _, _; split; [done|apply unseen_refl]].
    pose proof (inherited_spec lock_path p k Hk has_flock) as Hi.
    destruct (inherited_lock_holder lock_path p k) as [o k1]. eexists _, _. split; [done|apply Hi]. }
  rewrite Ei in E. pose proof (u_fds _ _ Hu) as Ef.
  destruct o as [[h|]|e|]; [injection E as <- <-; split_and!; [done|done|rewrite Ef; by left]|
    |by injection E as <- <-|by injection E as <- <-].
  assert (kernel_ok k1) as Hk1 by (by destruct (unseen_ok project_root k k1 ∅ Hu (no_locks_ok _ Hk))).
  pose proof (acquire_self_spec project_root p k1 Hk1 has_flock) as Ha.
  destruct (on_disk k1 ≫= (fun ino => flocks k1 !! ino)) as [h|].
  { destruct Ha as (k2 & Ea & Hu2). rewrite Ea in E. injection E as <- <-. by rewrite (u_fds _ _ Hu2). }
  destruct Ha as (nino & Ea & _). rewrite Ea in E. injection E as <- <-. split; [done|]. split.
  - split; [done|]. eexists. cbn. rewrite !lookup_insert_eq. done.
  - intros fd e. cbn. rewrite lookup_insert_Some, Ef. intros [[<- _]|[_ H]]; auto.
Qed.

Lemma triple_acquire : triple (fun _ => True) (_acquire_tree_lock project_root lock_path p) (fun _ => locked).
Proof.
  intros s Hi _. unfold _acquire_tree_lock, bind at 1, get. destruct (lock s) as [l0|] eqn:El.
  { split; [done|]. cbn. unfold locked. by rewrite El. }
  unfold bind at 1, try_except, on_kernel. destruct Hi as [Hk _ Ho He].
  destruct (acquire project_root lock_path true p (kern s)) as [r k'] eqn:E.
  destruct (acquire_ok project_root lock_path (System (kern s) ∅) p true r k' (no_locks_ok _ Hk) has_flock E) as [[Hk' _] _].
  cbn in Hk'. pose proof (acquire_fds true _ _ _ Hk E) as Hf.
  assert (fds k' = fds (kern s) -> inv (Session k' (lock s) (config s) (qemu_running s) (log_open s)
    (signals s) (events s) (warns s))) as Hfail.
  { intros Ef. split; cbn; [done|by rewrite El|by rewrite Ef|done]. }
  destruct r as [l|e|].
  - destruct Hf as (Hen & Hlk & Hnew). unfold bind. rewrite Hen. cbn [negb]. unfold ret, set_lock, modify. cbn.
    split; [|done]. split; cbn; [done|by intros l' [= <-]| |done].
    intros fd ino H. exists l. split; [done|]. apply Hnew in H as [H|H]; [|done].
    apply Ho in H as (l0 & H & _). congruence.
  - destruct (is_busy e); cbn; (split; [by apply Hfail|done]).
  - cbn. split; [by apply Hfail|done].
Qed.

Lemma triple_event P (ev : kernel -> tree_event) :
  frame P -> (forall s, inv s -> P s -> guarded (events s) (ev (kern s))) -> triple P (event ev) (fun _ => P).
Proof.
  intros HF Hg s Hi HP. split; [|by apply (HF s); [..|eexists|]]. pose proof Hi as [Hk Hl Ho He].
  split; cbn; [done..|]. apply in_order_snoc; [done|]. by apply (Hg s).
Qed.

(** A check that passes on a taken lock means the barrier stands. *)
Lemma verify_barrier l k k' :
  kernel_ok k -> lock_ok k l -> verify_intact lock_path l p k = (Ok None, k') -> barrier k.
Proof.
  intros Hk Hl E. unfold barrier. unfold verify_intact in E. unfold lock_ok in Hl. destruct (fh l) as [fd|] eqn:Ef.
  - destruct Hl as (Hnone & ino & H1 & H2). rewrite Hnone, H1 in E.
    destruct (on_disk k) as [d|]; [|done]. destruct (decide (d = ino)) as [->|]; [|done]. eauto.
  - destruct (inherited_holder l) as [h|]; [|done]. unfold bind in E.
    pose proof (inherited_spec lock_path p k Hk has_flock) as Hs.
    destruct (inherited_lock_holder lock_path p k) as [[[h'|]|e|] k1]; try discriminate E.
    destruct Hs as (_ & _ & Hs). destruct (Hs h' eq_refl) as (_ & ino & fd & _ & H1 & H2 & _). eauto.
Qed.

Lemma triple_verify : triple locked (_verify_tree_lock_intact lock_path p) (fun _ => checked).
Proof.
  intros s [Hk Hl Ho He] Hlk. unfold _verify_tree_lock_intact, bind at 1, get.
  destruct (lock s) as [l|] eqn:El; [|done]. specialize (Hl l eq_refl).
  unfold bind, on_kernel. destruct (verify_intact lock_path l p (kern s)) as [r k'] eqn:E.
  pose proof (verify_unseen lock_path l p (kern s) r k' Hk has_flock E) as Hu.
  assert (kernel_ok k') as Hk' by (by destruct (unseen_ok project_root (kern s) k' ∅ Hu (no_locks_ok _ Hk))).
  set (s1 := Session k' (lock s) (config s) (qemu_running s) (log_open s) (signals s) (events s) (warns s)).
  assert (inv s1) as Hi1.
  { split; cbn; [done| | |done]; rewrite El; [intros l' [= <-]; by eapply lock_ok_unseen|].
    rewrite (u_fds _ _ Hu). done. }
  destruct r as [[pr|]|e|]; try (split; [exact Hi1|done]).
  assert (barrier k') as Hb.
  { destruct (verify_barrier _ _ _ Hk Hl E) as (ino & fd & H1 & H2). exists ino, fd.
    by rewrite (u_disk _ _ Hu), (u_flocks _ _ Hu). }
  unfold event, modify. cbn. destruct Hi1 as [_ I2 I3 I4]. split.
  - split; cbn; [done..|]. apply in_order_snoc; [done|]. by split.
  - split; [unfold locked; cbn; by rewrite El|]. exists k'. cbn. split; [|done].
    rewrite elem_of_app. right. by apply list_elem_of_singleton.
Qed.

(** The session's flocks survive whatever else runs. *)
Lemma benign_keeps f k0 k : benign f -> kernel_ok k -> keeps k0 k -> keeps k0 (f k).
Proof.
  intros Hb Hk H fd ino H1 H2. destruct (H fd ino H1 H2) as [H3 H4]. destruct (Hb _ Hk) as (_ & Hf & Hl).
  split; [by apply Hf|by apply Hl].
Qed.

Lemma benign_inv f s : benign f -> inv s -> inv (meanwhile f s).2.
Proof.
  intros Hb [Hk Hl Ho He]. destruct (Hb _ Hk) as (Hk' & Hf & Hfl). split; cbn; [done| | |done].
  - intros l E. specialize (Hl l E). unfold lock_ok in *. destruct (fh l) as [fd|]; [|done].
    destruct Hl as (Hn & ino & H1 & H2). split; [done|]. exists ino. rewrite Hf. auto.
  - intros fd ino H. by apply Hf, Ho in H.
Qed.

Lemma triple_meanwhile f : benign f -> triple locked (meanwhile f) (fun _ => locked).
Proof. intros Hb s Hi HP. split; [by apply benign_inv|done]. Qed.

Lemma triple_meanwhile_checked f : benign f -> triple checked (meanwhile f) (fun _ => checked).
Proof.
  intros Hb s Hi [H1 (k0 & H2 & H3 & H4 & H5)]. split; [by apply benign_inv|]. split; [done|].
  exists k0. cbn. split_and!; [done..|]. apply benign_keeps; [done|apply Hi|done].
Qed.

Lemma still_ret {A} (a : A) : still_step (ret a). Proof. done. Qed.
Lemma still_raise {A} e : still_step (@raise session A e). Proof. done. Qed.
Lemma still_lift {A} (m : outcome A) : still_step (lift m). Proof. done. Qed.
Lemma still_warn : still_step warn_. Proof. done. Qed.
Lemma still_send sig : still_step (send sig). Proof. done. Qed.
Lemma still_set_qemu a b : still_step (set_qemu a b). Proof. done. Qed.
Lemma still_if {A} (b : bool) (m1 m2 : eff session A) : still_step m1 -> still_step m2 -> still_step (if b then m1 else m2).
Proof. by destruct b. Qed.
Lemma still_bind {A B} (m : eff session A) (k : A -> eff session B) :
  still_step m -> (forall a, still_step (k a)) -> still_step (bind m k).
Proof.
  intros Hm Hk s. unfold bind. specialize (Hm s). destruct (m s) as [[a|e|] s1]; [|done|done].
  destruct (Hk a s1) as (E1 & E2 & E3), Hm as (F1 & F2 & F3). cbn in *. split_and!; congruence.
Qed.

Ltac still :=
  repeat first [ apply still_bind; [|intros ?] | apply still_if | apply still_ret | apply still_raise
               | apply still_lift | apply still_warn | apply still_send | apply still_set_qemu ].

Lemma still_foreign e : still_step (_check_no_foreign_qemu_in_tree flash_path flash_resolved e).
Proof. unfold _check_no_foreign_qemu_in_tree, pytest_exit. apply still_bind; [apply still_lift|intros [mine err]]. still. Qed.
Lemma still_stale e : still_step (_check_no_stale_qemu slot e).
Proof. unfold _check_no_stale_qemu, pytest_exit. still. Qed.
Lemma still_stop e : still_step
  ((match coverage e with
    | Some (Raise ex) => if catches Exception_ ex then ret tt else raise ex
    | _ => ret tt
    end) ;;; terminate e ;;; set_qemu false false).
Proof. unfold terminate. destruct (coverage e) as [[]|]; still. Qed.

Lemma triple_build e skip :
  benign (during e Building) -> triple locked (build_step e skip) (fun _ => locked).
Proof.
  intros Hb. unfold build_step, pytest_exit. destruct skip; [apply triple_still; [apply frame_locked|still]|].
  eapply triple_bind; [apply triple_event; [apply frame_locked|done]|intros []].
  eapply triple_bind; [by apply triple_meanwhile|intros []].
  apply triple_still; [apply frame_locked|still].
Qed.

Lemma triple_find e : benign (during e LookingUp) -> triple checked (find_qemu e) (fun _ => checked).
Proof.
  intros Hb. unfold find_qemu, pytest_exit. destruct (images_exist e); cbn [negb];
    [|apply triple_still; [apply frame_checked|still]].
  eapply triple_bind; [by apply triple_meanwhile_checked|intros []].
  apply triple_still; [apply frame_checked|]. destruct (_get_qemu_bin_path e); still.
Qed.

Lemma checked_guards s : inv s -> checked s ->
  kernel_ok (kern s) /\
  exists k0, Checked k0 ∈ events s /\ kernel_ok k0 /\ barrier k0 /\ (undisturbed k0 (kern s) -> barrier (kern s)).
Proof.
  intros Hi [_ (k0 & H1 & H2 & H3 & H4)]. split; [apply Hi|]. exists k0. split_and!; [done..|].
  by apply keeps_barrier.
Qed.

Lemma triple_launch e :
  benign (during e Opening) -> benign (during e Booting) -> triple checked (launch e) (fun _ => checked).
Proof.
  intros Ho Hb. unfold launch.
  eapply triple_bind; [apply triple_event; [apply frame_checked|exact checked_guards]|intros []].
  eapply triple_bind; [apply triple_still; [apply frame_checked|still]|intros []].
  eapply triple_bind; [by apply triple_meanwhile_checked|intros []].
  destruct (popen e) as [ex|]; [apply triple_still; [apply frame_checked|still]|].
  eapply triple_bind; [apply triple_event; [apply frame_checked|exact checked_guards]|intros []].
  eapply triple_bind; [apply triple_still; [apply frame_checked|still]|intros []].
  eapply triple_bind; [by apply triple_meanwhile_checked|intros []].
  unfold pytest_exit. apply triple_still; [apply frame_checked|still].
Qed.

Lemma triple_qemu_process e skip :
  (forall ph, benign (during e ph)) ->
  triple (fun _ => True) (qemu_process project_root lock_path flash_path flash_resolved p slot e true skip) (fun _ => checked).
Proof.
  intros Hb. unfold qemu_process. cbn [negb].
  eapply triple_bind; [apply triple_acquire|intros []].
  eapply triple_bind; [by apply triple_meanwhile|intros []].
  eapply triple_bind; [apply triple_still; [apply frame_locked|apply still_foreign]|intros []].
  eapply triple_bind; [apply triple_still; [apply frame_locked|apply still_stale]|intros []].
  eapply triple_bind; [by apply triple_build|intros []].
  eapply triple_bind; [apply triple_verify|intros []].
  eapply triple_bind; [by apply triple_find|intros []].
  eapply triple_bind; [by apply triple_launch|intros []].
  eapply triple_bind; [by apply triple_meanwhile_checked|intros []].
  unfold stop_qemu. eapply triple_bind; [by apply triple_meanwhile_checked|intros []].
  apply triple_still; [apply frame_checked|apply still_stop].
Qed.

Lemma triple_configure xdist worker :
  triple (fun _ => True) (pytest_configure project_root lock_path p true xdist worker) (fun _ => locked).
Proof.
  unfold pytest_configure, pytest_exit. eapply triple_bind; [apply triple_still; [done|done]|intros []].
  destruct (_ || _); [|apply triple_acquire]. intros s Hi _. done.
Qed.

(** ** QEMU and its log at the end *)

(** A step that neither starts nor stops QEMU. *)
Definition apart {A} (m : eff session A) : Prop := forall s,
  qemu_running (m s).2 = qemu_running s /\ log_open (m s).2 = log_open s.

Lemma apart_ret {A} (a : A) : apart (ret a). Proof. done. Qed.
Lemma apart_raise {A} ex : apart (@raise session A ex). Proof. done. Qed.
Lemma apart_lift {A} (m : outcome A) : apart (lift m). Proof. done. Qed.
Lemma apart_get : apart (@get session). Proof. done. Qed.
Lemma apart_on_kernel {A} (m : eff kernel A) : apart (on_kernel m).
Proof. intros s. unfold on_kernel. by destruct (m (kern s)). Qed.
Lemma apart_bind {A B} (m : eff session A) (k : A -> eff session B) :
  apart m -> (forall a, apart (k a)) -> apart (bind m k).
Proof.
  intros Hm Hk s. unfold bind. specialize (Hm s). destruct (m s) as [[a|ex|] s1]; [|done|done].
  destruct (Hk a s1) as [E1 E2], Hm as [F1 F2]. cbn in *. split; congruence.
Qed.
Lemma apart_try {A} (m : eff session A) c (h : exn -> eff session A) :
  apart m -> (forall ex, apart (h ex)) -> apart (try_except m c h).
Proof.
  intros Hm Hh s. unfold try_except. specialize (Hm s). destruct (m s) as [[a|ex|] s1]; [done| |done].
  destruct (c ex); [|done]. destruct (Hh ex s1) as [E1 E2], Hm as [F1 F2]. cbn in *. split; congruence.
Qed.
Lemma apart_if {A} (b : bool) (m1 m2 : eff session A) : apart m1 -> apart m2 -> apart (if b then m1 else m2).
Proof. by destruct b. Qed.
Lemma apart_set_lock l : apart (set_lock l). Proof. done. Qed.
Lemma apart_warn : apart warn_. Proof. done. Qed.
Lemma apart_event ev : apart (event ev). Proof. done. Qed.
Lemma apart_meanwhile f : apart (meanwhile f). Proof. done. Qed.

Ltac apart :=
  repeat first [ apply apart_bind; [|intros ?] | apply apart_try; [|intros ?] | apply apart_if
    | apply apart_get | apply apart_on_kernel | apply apart_ret | apply apart_raise | apply apart_lift
    | apply apart_set_lock | apply apart_warn | apply apart_event | apply apart_meanwhile
    | match goal with |- apart (match ?x with _ => _ end) => destruct x end ].

(** No QEMU of the session runs, and its log is closed. *)
Definition clean (s : session) : Prop := qemu_running s = false /\ log_open s = false.

Definition ends_clean {A} (m : eff session A) : Prop := forall s, clean s ->
  let (r, s') := m s in r <> Blocked -> clean s'.

Lemma ends_clean_bind {A B} (m : eff session A) (k : A -> eff session B) :
  apart m -> (forall a, ends_clean (k a)) -> ends_clean (bind m k).
Proof.
  intros Hm Hk s Hc. unfold bind. specialize (Hm s). destruct (m s) as [[a|ex|] s1]; cbn in Hm.
  - apply Hk. destruct Hm, Hc. split; congruence.
  - intros _. destruct Hm, Hc. split; congruence.
  - done.
Qed.

(** QEMU starts, and neither the wait for it nor the coverage download is
    interrupted by something other than an ordinary failure. *)
Definition orderly (e : qenv) : Prop :=
  popen e = None /\
  (forall ex, _wait_for_qemu_ready (ready_deadline e) (ready e) <> Raise ex) /\
  (forall ex, coverage e = Some (Raise ex) -> catches Exception_ ex = true).

Lemma launch_tests_stop_clean e :
  orderly e -> ends_clean (launch e ;;; meanwhile (during e Testing) ;;; stop_qemu e).
Proof.
  intros (Hp & Hr & Hc) s Hs. unfold launch. rewrite Hp.
  unfold bind, event, set_qemu, meanwhile, modify, lift, pytest_exit, raise. cbn -[_wait_for_qemu_ready stop_qemu].
  destruct (_wait_for_qemu_ready (ready_deadline e) (ready e)) as [[]|ex|] eqn:E; [|done|by destruct (Hr ex)|done].
  cbn -[stop_qemu]. unfold stop_qemu, bind, meanwhile, modify.
  assert (forall s, exists sg, terminate e s =
    (Ok tt, Session (kern s) (lock s) (config s) (qemu_running s) (log_open s) sg (events s) (warns s))) as Hsig.
  { intros [k l c q o sg ev n]. unfold terminate.
    destruct (still_running (ending e)), (wait_times_out (ending e)); by eexists. }
  set (s1 := Session _ _ _ _ _ _ _ _).
  assert ((match coverage e with
           | Some (Raise ex) => if catches Exception_ ex then ret tt else raise ex
           | _ => ret tt
           end) s1 = (Ok tt, s1)) as ->.
  { destruct (coverage e) as [[u|ex|]|] eqn:Ec; try done. by rewrite (Hc ex eq_refl). }
  destruct (Hsig s1) as [sg ->]. done.
Qed.

Lemma qemu_process_clean e skip :
  orderly e -> ends_clean (qemu_process project_root lock_path flash_path flash_resolved p slot e true skip).
Proof.
  intros Ho. unfold qemu_process. cbn [negb].
  do 7 (apply ends_clean_bind; [unfold _acquire_tree_lock, _check_no_foreign_qemu_in_tree, _check_no_stale_qemu,
    build_step, _verify_tree_lock_intact, find_qemu, pytest_exit; apart|intros []]).
  by apply launch_tests_stop_clean.
Qed.

(** Nothing of the lock is left to this process: no open description on a
    lock file, so no flock of its own. *)
Definition lets_go (k : kernel) : Prop :=
  (forall fd ino, fds k !! fd <> Some (ino, getpid p)) /\
  (forall ino fd, flocks k !! ino = Some fd -> exists q, fds k !! fd = Some (ino, q) /\ q <> getpid p).

Lemma lets_go_intro k : kernel_ok k -> (forall fd ino, fds k !! fd <> Some (ino, getpid p)) -> lets_go k.
Proof.
  intros Hk H. split; [done|]. intros ino fd Hf. destruct (k_flock _ Hk _ _ Hf) as [q Hq].
  exists q. split; [done|]. intros ->. by apply (H fd ino).
Qed.

(** Closing the only description of the process. *)
Lemma release_spec l k :
  kernel_ok k -> lock_ok k l -> (forall fd ino, fds k !! fd = Some (ino, getpid p) -> fh l = Some fd) ->
  exists l' k', release l p k = (Ok l', k') /\ lets_go k'.
Proof.
  intros Hk Hl Ho. unfold release, lock_ok in *. destruct (fh l) as [fd|].
  2: { eexists _, _. split; [done|]. apply lets_go_intro; [done|]. intros fd ino H. by apply Ho in H. }
  destruct Hl as (_ & ino & H1 & H2).
  unfold bind, try_except, sys_rewrite, sys_close. rewrite H1. cbn [fds flocks]. rewrite H1.
  eexists _, _. split; [done|]. unfold unlock. rewrite decide_True by done. split; cbn.
  - intros f i [Hne H]%lookup_delete_Some. apply Ho in H. congruence.
  - intros i f [Hne H]%lookup_delete_Some. destruct (k_flock _ Hk _ _ H) as [q Hq]. exists q.
    assert (fd <> f) by congruence. rewrite lookup_delete_ne by done. split; [done|].
    intros ->. apply Ho in Hq. congruence.
Qed.

(** What [pytest_unconfigure] leaves. *)
Lemma unconfigure_spec s : inv s ->
  let (r, s') := pytest_unconfigure p s in
  r = Ok tt /\ lock s' = None /\ config s' = false /\ lets_go (kern s') /\ events s' = events s /\
  qemu_running s' = qemu_running s /\ log_open s' = log_open s.
Proof.
  intros [Hk Hl Ho _]. unfold pytest_unconfigure, bind at 1, modify. unfold _release_tree_lock, bind at 1, get.
  unfold bind at 1, set_lock, modify. cbn [lock kern config qemu_running log_open signals events warns].
  destruct (lock s) as [l|].
  - unfold bind, on_kernel. cbn [kern].
    destruct (release_spec l (kern s) Hk (Hl l eq_refl)) as (l' & k' & -> & Hgo); [|done].
    intros fd ino H. apply Ho in H as (l1 & [= <-] & H). done.
  - split_and!; try done. apply lets_go_intro; [done|]. intros fd ino H. cbn in H. by apply Ho in H as (l & H & _).
Qed.

(** Another run that tries to take the lock in [k] is refused. *)
Definition refused (k : kernel) : Prop := forall q, has_fcntl q = true ->
  exists k', acquire_self project_root q k = (Raise (TreeLockBusy (holder_text k) strerror), k').

Lemma triple_session e skip xdist worker :
  (forall ph, benign (during e ph)) ->
  triple (fun _ => True)
    (pytest_configure project_root lock_path p true xdist worker ;;; meanwhile (during e Collecting) ;;;
     qemu_process project_root lock_path flash_path flash_resolved p slot e true skip) (fun _ => checked).
Proof.
  intros Hb. eapply triple_bind; [apply triple_configure|intros []].
  eapply triple_bind; [by apply triple_meanwhile|intros []].
  eapply triple_weaken; [by apply triple_qemu_process|done|done].
Qed.

Lemma session_clean e skip xdist worker :
  orderly e -> ends_clean
    (pytest_configure project_root lock_path p true xdist worker ;;; meanwhile (during e Collecting) ;;;
     qemu_process project_root lock_path flash_path flash_resolved p slot e true skip).
Proof.
  intros Ho. apply ends_clean_bind; [|intros []].
  - unfold pytest_configure, _acquire_tree_lock, pytest_exit. apply apart_bind; [done|intros ?]. apart.
  - apply ends_clean_bind; [apart|intros []]. by apply qemu_process_clean.
Qed.

(** The writes of an orderly log: each comes after a check at which other
    runs were refused, as they still are if the barrier was left alone. *)
Lemma in_order_refused evs before ev after k :
  in_order evs -> evs = before ++ ev :: after -> ev = LogTruncated k \/ ev = Launched k ->
  exists k0, Checked k0 ∈ before /\ refused k0 /\ (undisturbed k0 k -> refused k).
Proof.
  intros Ho E Hev. specialize (Ho before ev after E).
  assert (kernel_ok k /\ exists k0, Checked k0 ∈ before /\ kernel_ok k0 /\ barrier k0 /\
    (undisturbed k0 k -> barrier k)) as (Hk & k0 & H1 & H2 & H3 & H4) by (by destruct Hev as [-> | ->]).
  exists k0. split; [done|]. split; [|intros Hu]; intros q Hq; apply barrier_refuses; auto.
Qed.

(** C2. A QEMU session writes into the tree only behind the lock, and lets
    go of it in the end.  Other programs may do anything to the kernel in
    every stretch of the session, the [make -s qemu-bin-path] between the
    re-check of the lock and the launch included, short of touching the
    descriptions of this process.  Then every truncation of the log and
    every launch of QEMU comes after a successful re-check of the lock, at
    which any other run that tried to take it was refused; at the truncation
    or launch itself any other run is still refused, unless meanwhile the
    lock file was deleted or replaced or the ancestor whose flock it is gave
    it up.  On every exit path that returns, the session has forgotten its
    lock object, no open description on a lock file belongs to its process
    and no flock is its own; and, unless QEMU could not be started or the
    wait for it was interrupted, no QEMU of the session is running and its
    log is closed. *)
Theorem qemu_session_guarded e skip xdist worker s :
  kernel_ok (kern s) -> lock s = None -> events s = [] ->
  (forall fd ino, fds (kern s) !! fd <> Some (ino, getpid p)) ->
  (forall ph, benign (during e ph)) ->
  let (r, s') := pytest_session project_root lock_path flash_path flash_resolved p slot e true skip xdist worker s in
  (forall before ev after k, events s' = before ++ ev :: after -> ev = LogTruncated k \/ ev = Launched k ->
     exists k0, Checked k0 ∈ before /\ refused k0 /\ (undisturbed k0 k -> refused k)) /\
  (r <> Blocked -> lock s' = None /\ config s' = false /\ lets_go (kern s')) /\
  (r <> Blocked -> orderly e -> clean s -> clean s').
Proof.
  intros Hk Hl Hev Hown Hb. unfold pytest_session.
  assert (inv s) as Hi.
  { split; [done|by rewrite Hl| |].
    - intros fd ino H. by apply Hown in H.
    - rewrite Hev. by intros [] ? ? ?. }
  pose proof (triple_session e skip xdist worker Hb s Hi I) as Ht.
  pose proof (fun Ho => session_clean e skip xdist worker Ho s) as Hclean.
  unfold try_finally. destruct ((_ ;;; _) s) as [r s1]. destruct Ht as [Hi1 _].
  assert (in_order (events s1)) as Ho1 by apply Hi1.
  pose proof (unconfigure_spec s1 Hi1) as Hu. destruct (pytest_unconfigure p s1) as [ru s2].
  destruct Hu as (-> & U1 & U2 & U3 & U4 & U5 & U6).
  assert (r <> Blocked -> orderly e -> clean s -> clean s2) as Hc.
  { intros Hr Ho Hcl. destruct (Hclean Ho Hcl Hr). split; congruence. }
  destruct r as [a|ex|]; split_and!; try done; intros; eapply in_order_refused; rewrite <- ?U4 in *; eauto.
Qed.

End Safety.

(** ** A concrete session

    Pids are recycled while [make -s qemu-bin-path] runs, and the lock file
    is deleted while the tests run. *)

Definition demo_during (lookup : kernel -> kernel) (ph : phase) : kernel -> kernel :=
  match ph with LookingUp => lookup | Testing => unlink | _ => fun k => k end.

Definition demo_qenv (lookup : kernel -> kernel) : qenv :=
  QEnv (Ok (0, "")) (fun _ => false) (fun _ => false) 0 true (0, "/opt/qemu-system-xtensa") None
    900 [ReadyRound 0 None (Raise RequestException); ReadyRound 2 None (Ok tt)] None (Shutdown true true)
    (demo_during lookup).

Definition demo_session : session := Session demo_kernel None false false false [] [] 0.

Definition demo_run (lookup : kernel -> kernel) : outcome unit * session :=
  pytest_session demo_root demo_path "/home/dev/wb-mge/build/qemu_flash.bin" "/home/dev/wb-mge/build/qemu_flash.bin"
    demo_runner 0 (demo_qenv lookup) true false false None demo_session.

Definition demo_lookup : kernel -> kernel := recycle (fun _ => Some ProcessLookupError).

(** The kernels of the launches. *)
Definition launches (evs : list tree_event) : list kernel :=
  evs ≫= fun ev => match ev with Launched k => [k] | _ => [] end.

(** The window is real: a lock file deleted while [make -s qemu-bin-path]
    runs goes unnoticed, and QEMU is launched where another run gets the
    lock.  Left alone, the other run is refused. *)
Example lookup_window :
  ((fun k => (acquire_self demo_root demo_child k).1) <$> launches (events (demo_run unlink).2)) =
    [Ok (TreeLock (Some 1%nat) true None)] /\
  ((fun k => match (acquire_self demo_root demo_child k).1 with Raise e => is_busy e | _ => false end)
     <$> launches (events (demo_run demo_lookup).2)) = [true].
Proof. vm_compute. auto. Qed.

Lemma demo_benign ph : benign demo_runner (during (demo_qenv demo_lookup) ph).
Proof. destruct ph; intros k [Hfl Hfd Hdk]; (split; [split; auto|auto]); done. Qed.

Lemma qemu_session_guarded_witness :
  length (events (demo_run demo_lookup).2) = 4%nat /\ (demo_run demo_lookup).1 = Ok tt /\
  clean (demo_run demo_lookup).2 /\ lets_go demo_runner (kern (demo_run demo_lookup).2) /\
  (forall k, events (demo_run demo_lookup).2 !! 3%nat = Some (Launched k) ->
     exists k0, Checked k0 ∈ take 3 (events (demo_run demo_lookup).2) /\ refused demo_root k0 /\
       (undisturbed demo_runner k0 k -> refused demo_root k)).
Proof.
  pose proof (qemu_session_guarded demo_root demo_path "/home/dev/wb-mge/build/qemu_flash.bin"
    "/home/dev/wb-mge/build/qemu_flash.bin" demo_runner 0 eq_refl (demo_qenv demo_lookup) false false None demo_session) as H.
  fold (demo_run demo_lookup) in H.
  assert (length (events (demo_run demo_lookup).2) = 4%nat /\ (demo_run demo_lookup).1 = Ok tt) as [H1 H2]
    by (vm_compute; auto).
  destruct (demo_run demo_lookup) as [r s']. cbn in H1, H2. destruct H as (Hg & Hr & Hc).
  - split; intros *; try done; by rewrite lookup_empty.
  - reflexivity.
  - reflexivity.
  - discriminate.
  - exact demo_benign.
  - rewrite H2 in Hr, Hc. split; [exact H1|]. split; [exact H2|]. split; [|split].
    + apply Hc; [done| |done]. split; [reflexivity|]. split; [vm_compute; discriminate|discriminate].
    + by apply Hr.
    + intros k Hk. apply (Hg _ (Launched k) (drop 4 (events s')) k); [|by right]. symmetry. by apply take_drop_middle.
Defined.
