(* ===== verification/PollLog.v ===== *)
(** * Send gaps of the polling client: api_tests/37_test_cache_server_deinit_hang.py

    [_longest_send_gap] decides whether the host kept the guest fed while the
    cache server was being torn down: it merges the log of sends and the log
    of responses in timestamp order and keeps two running maxima, over every
    gap between sends and over the gaps spent with nothing outstanding.

    Readings of [time.monotonic()] are integer microseconds.  The sort key
    [(ts, -delta)] determines the event, so every sort by that key yields the
    same list and stability plays no role. *)

From Stdlib Require Import ZArith Lia.
From stdpp Require Import sorting base list sets numbers.
From S2P Require Import Prelude.

Open Scope Z_scope.

(** [(timestamp, +1)] is a completed send, [(timestamp, -1)] a response. *)
Abbreviation event := (Z * Z)%type.

Definition ev_le (a b : event) : Prop := a.1 < b.1 \/ (a.1 = b.1 /\ - a.2 <= - b.2).

#[export] Instance ev_le_dec : RelDecision ev_le.
Proof. intros a b. unfold ev_le. apply _. Defined.

Definition merge_events (send_times response_times : list Z) (t1 : Z) : list event :=
  merge_sort ev_le
    (((fun ts => (ts, 1)) <$> filter (fun ts => ts <= t1) send_times) ++
     ((fun ts => (ts, -1)) <$> filter (fun ts => ts <= t1) response_times)).

(** The local variables of the loop. *)
Record gaps := Gaps {
  prev_send : Z;
  drained_since : option Z;
  outstanding : Z;
  longest : Z;
  longest_drained : Z;
  n_sends : Z
}.

Definition gap_step (t0 : Z) (g : gaps) (ev : event) : gaps :=
  let '(ts, delta) := ev in
  if 0 <? delta then
    let g' :=
      if t0 <? ts then
        Gaps (prev_send g) (drained_since g) (outstanding g)
             (Z.max (longest g) (ts - prev_send g))
             (match drained_since g with
              | Some d => Z.max (longest_drained g) (ts - d)
              | None => longest_drained g
              end)
             (n_sends g + 1)
      else g in
    Gaps ts None (outstanding g' + 1) (longest g') (longest_drained g') (n_sends g')
  else
    let out := Z.max 0 (outstanding g - 1) in
    Gaps (prev_send g)
         (if (out =? 0) && bool_decide (drained_since g = None) then Some ts else drained_since g)
         out (longest g) (longest_drained g) (n_sends g).

Definition gaps0 (t0 : Z) : gaps := Gaps t0 None 0 0 0 0.

(** Returns [(sends_in_window, longest_gap_s, longest_drained_gap_s)]. *)
Definition _longest_send_gap (send_times response_times : list Z) (t0 t1 : Z) : Z * Z * Z :=
  let g := foldl (gap_step t0) (gaps0 t0) (merge_events send_times response_times t1) in
  (n_sends g,
   Z.max (longest g) (t1 - prev_send g),
   match drained_since g with
   | Some d => Z.max (longest_drained g) (t1 - d)
   | None => longest_drained g
   end).

(** ** What the two figures mean

    An interval [a, b] of the window ends inside it; it is silent when no
    request left the process strictly inside, and drained when at every
    instant of it every request sent so far had been answered. *)

(** How many timestamps of a log are at or before [t]. *)
Definition upto (t : Z) (l : list Z) : nat := length (filter (fun x => x <= t) l).

Section Meaning.
Context (send_times response_times : list Z) (t0 t1 : Z).

Definition sent_by (t : Z) : nat := upto t send_times.
Definition answered_by (t : Z) : nat := upto t response_times.

(** The client answers no request before it is sent. *)
Definition causal : Prop := forall t, (answered_by t <= sent_by t)%nat.

Definition in_window (a b : Z) : Prop := t0 < b <= t1 /\ a <= b.
Definition silent (a b : Z) : Prop := forall s, s ∈ send_times -> ~ (a < s < b).
Definition drained_at (t : Z) : Prop := (0 < sent_by t)%nat /\ answered_by t = sent_by t.
Definition drained_on (a b : Z) : Prop := forall t, a <= t < b -> drained_at t.

(** The all-gaps figure is anchored at [t0], or at a send before it. *)
Definition anchored (a : Z) : Prop := t0 <= a \/ exists s, s ∈ send_times /\ s <= a.

Definition gap_interval (a b : Z) : Prop := in_window a b /\ silent a b /\ anchored a.
Definition drained_interval (a b : Z) : Prop := in_window a b /\ silent a b /\ drained_on a b.

(** [m] is the length of the longest interval satisfying [P]. *)
Definition longest_of (P : Z -> Z -> Prop) (m : Z) : Prop :=
  (forall a b, P a b -> b - a <= m) /\ (exists a b, P a b /\ b - a = m).

End Meaning.

Example longest_send_gap_ex :
  _longest_send_gap [100; 300; 500; 900] [150; 350; 600] 200 1000 = (3, 400, 300).
Proof. reflexivity. Qed.

(** ** Counting *)

Lemma upto_le t l : (upto t l <= length l)%nat.
Proof. unfold upto. apply length_filter. Qed.

Lemma upto_all t l : (forall x, x ∈ l -> x <= t) -> upto t l = length l.
Proof.
  intros H. unfold upto. f_equal. induction l as [|x l IH]; [done|].
  rewrite filter_cons_True by (apply H; left). f_equal. apply IH. intros y Hy. apply H. by right.
Qed.

Lemma upto_all_inv t l x : upto t l = length l -> x ∈ l -> x <= t.
Proof.
  intros H Hx. destruct (decide (x <= t)) as [|Hn]; [done|].
  pose proof (length_filter_lt (fun x => x <= t) l x Hx Hn). unfold upto in H. lia.
Qed.

Lemma upto_app t l k : upto t (l ++ k) = (upto t l + upto t k)%nat.
Proof. unfold upto. by rewrite list.filter_app, length_app. Qed.

Lemma upto_beyond t l : (forall x, x ∈ l -> t < x) -> upto t l = 0%nat.
Proof.
  intros H. unfold upto. induction l as [|x l IH]; [done|].
  rewrite filter_cons_False; [|specialize (H x ltac:(left)); lia].
  apply IH. intros y Hy. apply H. by right.
Qed.

Lemma upto_pos t l : (0 < upto t l)%nat -> exists x, x ∈ l /\ x <= t.
Proof.
  unfold upto. intros H. destruct (filter (fun x => x <= t) l) as [|x k] eqn:E; [simpl in H; lia|].
  exists x. assert (x ∈ filter (fun x => x <= t) l) as Hx by (rewrite E; left).
  apply list_elem_of_filter in Hx. tauto.
Qed.

#[export] Instance upto_perm t : Proper (Permutation ==> eq) (upto t).
Proof. intros l k H. unfold upto. by rewrite H. Qed.

(** ** The sends and the responses of an event list *)

Definition ev_sends (E : list event) : list Z := (filter (fun e : event => 0 < e.2) E).*1.
Definition ev_resps (E : list event) : list Z := (filter (fun e : event => ~ 0 < e.2) E).*1.

Lemma ev_sends_app E F : ev_sends (E ++ F) = ev_sends E ++ ev_sends F.
Proof. unfold ev_sends. by rewrite list.filter_app, fmap_app. Qed.

Lemma ev_resps_app E F : ev_resps (E ++ F) = ev_resps E ++ ev_resps F.
Proof. unfold ev_resps. by rewrite list.filter_app, fmap_app. Qed.

Lemma ev_sends_send ts d : 0 < d -> ev_sends [(ts, d)] = [ts] /\ ev_resps [(ts, d)] = [].
Proof.
  intros H. unfold ev_sends, ev_resps.
  rewrite filter_cons_True by done. rewrite filter_cons_False by (simpl; lia). done.
Qed.

Lemma ev_sends_resp ts d : ~ 0 < d -> ev_sends [(ts, d)] = [] /\ ev_resps [(ts, d)] = [ts].
Proof.
  intros H. unfold ev_sends, ev_resps.
  rewrite filter_cons_False by done. rewrite filter_cons_True by done. done.
Qed.

Lemma ev_split_tag (c : Z) (l : list Z) :
  ev_sends ((fun ts => (ts, c)) <$> l) = (if decide (0 < c) then l else []) /\
  ev_resps ((fun ts => (ts, c)) <$> l) = (if decide (0 < c) then [] else l).
Proof.
  induction l as [|x l [IH1 IH2]]; [by destruct (decide (0 < c))|].
  rewrite fmap_cons. change ((x, c) :: ?z) with ([(x, c)] ++ z).
  rewrite ev_sends_app, ev_resps_app, IH1, IH2.
  destruct (decide (0 < c)) as [Hc | Hc];
    [destruct (ev_sends_send x c Hc) as [-> ->] | destruct (ev_sends_resp x c Hc) as [-> ->]]; done.
Qed.

Lemma ev_sends_elem E s : s ∈ ev_sends E -> exists d, 0 < d /\ (s, d) ∈ E.
Proof.
  unfold ev_sends. intros ([s' d] & -> & H)%list_elem_of_fmap.
  apply list_elem_of_filter in H. by exists d.
Qed.

Lemma ev_resps_elem E s : s ∈ ev_resps E -> exists d, ~ 0 < d /\ (s, d) ∈ E.
Proof.
  unfold ev_resps. intros ([s' d] & -> & H)%list_elem_of_fmap.
  apply list_elem_of_filter in H. by exists d.
Qed.

#[export] Instance ev_sends_perm : Proper (Permutation ==> Permutation) ev_sends.
Proof. intros l k H. unfold ev_sends. by rewrite H. Qed.

#[export] Instance ev_resps_perm : Proper (Permutation ==> Permutation) ev_resps.
Proof. intros l k H. unfold ev_resps. by rewrite H. Qed.

(** Every element of a sorted list comes after its prefix. *)
Definition ordered (E : list event) : Prop :=
  forall P e R, E = P ++ e :: R -> forall x, x ∈ P -> x.1 <= e.1.

Lemma ordered_snoc P e : ordered (P ++ [e]) ->
  ordered P /\ (forall s, s ∈ ev_sends P -> s <= e.1) /\ (forall s, s ∈ ev_resps P -> s <= e.1).
Proof.
  intros H.
  assert (forall x, x ∈ P -> x.1 <= e.1) as Hx by (intros x; apply (H P e []); done).
  split_and!.
  - intros P' e' R -> x Hin. apply (H P' e' (R ++ [e])); [by rewrite <- app_assoc|done].
  - intros s (d & _ & Hs)%ev_sends_elem. apply (Hx (s, d) Hs).
  - intros s (d & _ & Hs)%ev_resps_elem. apply (Hx (s, d) Hs).
Qed.

Lemma merge_events_perm send_times response_times t1 :
  merge_events send_times response_times t1 ≡ₚ
    ((fun ts => (ts, 1)) <$> filter (fun ts => ts <= t1) send_times) ++
    ((fun ts => (ts, -1)) <$> filter (fun ts => ts <= t1) response_times).
Proof. apply merge_sort_Permutation. Qed.

#[local] Instance ev_le_total : Total ev_le.
Proof. intros a b. unfold ev_le. lia. Qed.

#[local] Instance ev_le_trans : Transitive ev_le.
Proof. intros a b c. unfold ev_le. lia. Qed.

Lemma strongly_sorted_split (E P R : list event) e :
  StronglySorted ev_le E -> E = P ++ e :: R -> forall x, x ∈ P -> ev_le x e.
Proof.
  revert E. induction P as [|y P IH]; intros E HE -> x Hx; [by inversion Hx|].
  apply StronglySorted_inv in HE as [HE Hy].
  apply elem_of_cons in Hx as [-> | Hx]; [|by eapply IH].
  rewrite list.Forall_forall in Hy. apply Hy. set_solver.
Qed.

Lemma merge_events_sorted s r t1 P e R :
  merge_events s r t1 = P ++ e :: R -> forall x, x ∈ P -> ev_le x e.
Proof. apply strongly_sorted_split, StronglySorted_merge_sort; apply _. Qed.

Lemma merge_events_ordered s r t1 : ordered (merge_events s r t1).
Proof.
  intros P e R H x Hx. pose proof (merge_events_sorted s r t1 P e R H x Hx) as Hle.
  unfold ev_le in Hle. lia.
Qed.

(** ** The loop invariant of the all-gaps figure *)

Section Loop.
Context (t0 : Z).

Record gap_inv (S : list Z) (g : gaps) : Prop := {
  gi_anchor : (S = [] /\ prev_send g = t0) \/ prev_send g ∈ S;
  gi_last : forall s, s ∈ S -> s <= prev_send g;
  gi_count : n_sends g = Z.of_nat (length (filter (fun s => t0 < s) S));
  gi_nonneg : 0 <= longest g;
  gi_upper : forall a b, t0 < b <= prev_send g -> a <= b -> silent S a b -> anchored S t0 a ->
    b - a <= longest g;
  gi_reached : longest g = 0 \/ exists a b, t0 < b <= prev_send g /\ a <= b /\
    silent S a b /\ anchored S t0 a /\ b - a = longest g
}.

(** Intervals that end after the last send start at or after it. *)
Lemma gap_after_last S g a b :
  gap_inv S g -> prev_send g < b -> silent S a b -> anchored S t0 a -> prev_send g <= a.
Proof.
  intros I Hb Hs Ha. destruct (gi_anchor _ _ I) as [[-> Hp] | Hp].
  - destruct Ha as [Ha | (s & Hs' & _)]; [lia | by inversion Hs'].
  - specialize (Hs _ Hp). lia.
Qed.

Lemma gap_since_last S g c :
  gap_inv S g -> silent S (prev_send g) c /\ anchored S t0 (prev_send g).
Proof.
  intros I. split.
  - intros s Hs. pose proof (gi_last _ _ I s Hs). lia.
  - destruct (gi_anchor _ _ I) as [[_ Hp] | Hp]; [left; lia | right; by exists (prev_send g)].
Qed.

Lemma silent_snoc S a b s : silent (S ++ [s]) a b -> silent S a b.
Proof. intros H x Hx. apply H. set_solver. Qed.

Lemma silent_snoc_late S a b s : b <= s -> silent S a b -> silent (S ++ [s]) a b.
Proof. intros Hb H x [Hx | ->%list_elem_of_singleton]%elem_of_app; [by apply H | lia]. Qed.

Lemma anchored_snoc S a b s :
  anchored (S ++ [s]) t0 a -> a <= b -> b <= s -> anchored S t0 a \/ b - a <= 0.
Proof.
  intros [H | (x & [Hx | ->%list_elem_of_singleton]%elem_of_app & Hle)] Hab Hbs.
  - left. by left.
  - left. right. by exists x.
  - right. lia.
Qed.

Lemma anchored_app S S' a : anchored S t0 a -> anchored (S ++ S') t0 a.
Proof. intros [H | (s & Hs & Hle)]; [by left | right; exists s; set_solver]. Qed.

Lemma gap_inv_init : gap_inv [] (gaps0 t0).
Proof.
  split; simpl; try lia; auto.
  intros s H. inversion H.
Qed.

Lemma gap_inv_send S g ts d :
  gap_inv S g -> (forall s, s ∈ S -> s <= ts) -> 0 < d ->
  gap_inv (S ++ [ts]) (gap_step t0 g (ts, d)).
Proof.
  intros I Hle Hd. unfold gap_step. rewrite (proj2 (Z.ltb_lt 0 d) Hd).
  assert (prev_send g <= ts \/ (S = [] /\ prev_send g = t0)) as Hprev.
  { destruct (gi_anchor _ _ I) as [H | H]; [by right | left; by apply Hle]. }
  pose proof (gi_nonneg _ _ I).
  assert (forall s, s ∈ S ++ [ts] -> s <= ts) as Hlast.
  { intros s [Hs | ->%list_elem_of_singleton]%elem_of_app; [by apply Hle | lia]. }
  assert (ts ∈ S ++ [ts]) as Hin by (apply elem_of_app; right; by apply list_elem_of_singleton).
  destruct (Z.ltb_spec t0 ts) as [Hts | Hts]; split; cbn [prev_send longest n_sends].
  - by right.
  - done.
  - rewrite (gi_count _ _ I), list.filter_app, length_app, filter_cons_True by done. simpl. lia.
  - lia.
  - intros a b Hb Hab Hs Ha.
    destruct (anchored_snoc S a b ts Ha Hab ltac:(lia)) as [Ha' | ?]; [|lia].
    apply silent_snoc in Hs.
    destruct (decide (b <= prev_send g)) as [Hbp | Hbp].
    + pose proof (gi_upper _ _ I a b ltac:(lia) Hab Hs Ha'). lia.
    + pose proof (gap_after_last S g a b I ltac:(lia) Hs Ha'). lia.
  - destruct (decide (longest g < ts - prev_send g)).
    + right. exists (prev_send g), ts. destruct (gap_since_last S g ts I).
      split_and!; [lia | lia | lia | by apply silent_snoc_late | by apply anchored_app | lia].
    + destruct (gi_reached _ _ I) as [Hz | (a & b & Hb & Hab & Hs & Ha & Hm)]; [left; lia|].
      assert (b <= ts) by (destruct Hprev as [|[_ ?]]; lia).
      right. exists a, b.
      split_and!; [lia | lia | lia | by apply silent_snoc_late | by apply anchored_app | lia].
  - by right.
  - done.
  - rewrite (gi_count _ _ I), list.filter_app, length_app, (filter_cons_False _ ts) by lia. simpl. lia.
  - lia.
  - intros a b Hb. lia.
  - destruct (gi_reached _ _ I) as [Hz | (a & b & Hb & Hab & Hs & Ha & Hm)]; [by left|].
    destruct Hprev as [|[_ ?]]; lia.
Qed.

Lemma gap_inv_resp S g ts d :
  gap_inv S g -> ~ 0 < d -> gap_inv S (gap_step t0 g (ts, d)).
Proof.
  intros [] Hd. unfold gap_step. rewrite (proj2 (Z.ltb_ge 0 d)) by lia.
  split; cbn; done.
Qed.

Lemma gap_inv_loop E :
  ordered E -> gap_inv (ev_sends E) (foldl (gap_step t0) (gaps0 t0) E).
Proof.
  induction E as [|e E IH] using rev_ind; intros Ho; [apply gap_inv_init|].
  apply ordered_snoc in Ho as (Ho & Hs & _). specialize (IH Ho). destruct e as [ts d].
  rewrite foldl_snoc, ev_sends_app.
  destruct (decide (0 < d)) as [Hd | Hd].
  - rewrite (proj1 (ev_sends_send ts d Hd)). by apply gap_inv_send.
  - rewrite (proj1 (ev_sends_resp ts d Hd)), app_nil_r. by apply gap_inv_resp.
Qed.
End Loop.

(** ** The loop invariant of the drained figure *)

Section DrainedLoop.
Context (t0 : Z).

Record drain_inv (S R : list Z) (g : gaps) : Prop := {
  di_gap : gap_inv t0 S g;
  di_out : outstanding g = Z.of_nat (length S) - Z.of_nat (length R);
  di_since : match drained_since g with
    | Some d => length R = length S /\ (0 < length S)%nat /\ prev_send g <= d /\
                d ∈ R /\ (forall r, r ∈ R -> r <= d)
    | None => (length R < length S)%nat \/ S = []
    end;
  di_nonneg : 0 <= longest_drained g;
  di_upper : forall a b, t0 < b <= prev_send g -> a <= b -> silent S a b -> drained_on S R a b ->
    b - a <= longest_drained g;
  di_reached : longest_drained g = 0 \/ exists a b, t0 < b <= prev_send g /\ a <= b /\
    silent S a b /\ drained_on S R a b /\ b - a = longest_drained g
}.

(** A drained interval that ends after the last send began when the pipeline
    last emptied, or later. *)
Lemma drained_after_last S R g a b :
  drain_inv S R g -> prev_send g < b -> a < b -> silent S a b -> drained_on S R a b ->
  exists d, drained_since g = Some d /\ d <= a.
Proof.
  intros I Hb Hab Hs Hd. destruct (Hd a ltac:(lia)) as [Hpos Heq].
  unfold sent_by, answered_by in Hpos, Heq.
  destruct (upto_pos _ _ Hpos) as (s & Hin & _).
  assert (prev_send g <= a) as Hpa.
  { destruct (gi_anchor _ _ _ (di_gap _ _ _ I)) as [[-> _] | Hp]; [by inversion Hin|].
    specialize (Hs _ Hp). lia. }
  assert (upto a S = length S) as HaS.
  { apply upto_all. intros x Hx. pose proof (gi_last _ _ _ (di_gap _ _ _ I) x Hx). lia. }
  pose proof (upto_le a R). pose proof (di_since _ _ _ I) as Hds.
  destruct (drained_since g) as [d|].
  - destruct Hds as (HRS & _ & _ & HdR & _). exists d. split; [done|].
    apply (upto_all_inv a R); [lia | done].
  - destruct Hds as [? | ->]; [lia | by inversion Hin].
Qed.

Lemma drained_since_last S R g d c :
  drain_inv S R g -> drained_since g = Some d -> silent S d c /\ drained_on S R d c.
Proof.
  intros I Hd. pose proof (di_since _ _ _ I) as Hds. rewrite Hd in Hds.
  destruct Hds as (HRS & Hpos & Hp & HdR & HR).
  pose proof (gi_last _ _ _ (di_gap _ _ _ I)) as Hlast. split.
  - intros s Hs. specialize (Hlast s Hs). lia.
  - intros t Ht. unfold drained_at, sent_by, answered_by.
    rewrite (upto_all t S), (upto_all t R); [lia | |].
    + intros x Hx. specialize (HR x Hx). lia.
    + intros x Hx. specialize (Hlast x Hx). lia.
Qed.

Lemma drained_on_ext S R S' R' a b :
  (forall s, s ∈ S' -> b <= s) -> (forall r, r ∈ R' -> b <= r) ->
  drained_on (S ++ S') (R ++ R') a b <-> drained_on S R a b.
Proof.
  intros HS HR. unfold drained_on, drained_at, sent_by, answered_by.
  assert (forall t, t < b -> upto t (S ++ S') = upto t S /\ upto t (R ++ R') = upto t R) as Hext.
  { intros t Ht. rewrite !upto_app, (upto_beyond t S'), (upto_beyond t R'); [lia | |].
    - intros x Hx. specialize (HR x Hx). lia.
    - intros x Hx. specialize (HS x Hx). lia. }
  split; intros H t Ht; specialize (H t Ht); destruct (Hext t ltac:(lia)) as [ES ER];
    rewrite ?ES, ?ER in *; done.
Qed.

Lemma drain_inv_init : drain_inv [] [] (gaps0 t0).
Proof.
  split; simpl; auto using gap_inv_init; lia.
Qed.

Lemma drain_inv_send S R g ts d :
  drain_inv S R g -> (forall s, s ∈ S -> s <= ts) -> (forall r, r ∈ R -> r <= ts) -> 0 < d ->
  (length R <= length S)%nat ->
  drain_inv (S ++ [ts]) R (gap_step t0 g (ts, d)).
Proof.
  intros I HS HR Hd Hcount.
  pose proof (gap_inv_send t0 S g ts d (di_gap _ _ _ I) HS Hd) as Hgap.
  pose proof (di_nonneg _ _ _ I) as Hnn. pose proof (di_gap _ _ _ I) as Hg.
  assert (prev_send g <= ts \/ (S = [] /\ prev_send g = t0)) as Hprev.
  { destruct (gi_anchor _ _ _ Hg) as [H | H]; [by right | left; by apply HS]. }
  assert (forall a b, b <= ts -> drained_on (S ++ [ts]) R a b <-> drained_on S R a b) as Hext.
  { intros a b Hb. rewrite <- (app_nil_r R) at 1. apply drained_on_ext.
    - intros s ->%list_elem_of_singleton. done.
    - intros r H. inversion H. }
  revert Hgap. unfold gap_step. rewrite (proj2 (Z.ltb_lt 0 d) Hd). intros Hgap.
  assert (forall b, t0 < b <= prev_send g -> b <= ts) as Hold.
  { intros b Hb. destruct Hprev as [|[_ ?]]; lia. }
  assert (forall x, x = longest_drained g -> x = 0 \/ exists a b, t0 < b <= ts /\ a <= b /\
    silent (S ++ [ts]) a b /\ drained_on (S ++ [ts]) R a b /\ b - a = x) as Hkeep.
  { intros x ->. destruct (di_reached _ _ _ I) as [Hz | (a & b & Hb & Hab & Hs & Ha & Hm)]; [by left|].
    right. exists a, b. specialize (Hold b Hb).
    split_and!; [lia | lia | lia | by apply silent_snoc_late | by apply Hext | lia]. }
  split; cbn [prev_send longest n_sends outstanding longest_drained drained_since]; [done| | | | |].
  - rewrite length_app. simpl. pose proof (di_out _ _ _ I). destruct (t0 <? ts); simpl; lia.
  - left. rewrite length_app. simpl. lia.
  - destruct (t0 <? ts); simpl; [destruct (drained_since g)|]; lia.
  - intros a b Hb Hab Hs Ha. destruct (decide (a = b)) as [->|Hne].
    { destruct (t0 <? ts); simpl; [destruct (drained_since g)|]; lia. }
    apply silent_snoc in Hs. apply Hext in Ha; [|lia].
    rewrite (proj2 (Z.ltb_lt t0 ts)) by lia. simpl.
    destruct (decide (b <= prev_send g)) as [Hbp | Hbp].
    + pose proof (di_upper _ _ _ I a b ltac:(lia) Hab Hs Ha). destruct (drained_since g); lia.
    + destruct (drained_after_last S R g a b I ltac:(lia) ltac:(lia) Hs Ha) as (x & -> & Hx). lia.
  - destruct (Z.ltb_spec t0 ts) as [Hts | Hts]; simpl; [|by apply Hkeep].
    destruct (drained_since g) as [x|] eqn:Ex; [|by apply Hkeep].
    destruct (decide (longest_drained g < ts - x)); [|apply Hkeep; lia].
    right. exists x, ts. destruct (drained_since_last S R g x ts I Ex) as [Hs Ho].
    split_and!; [lia | lia | lia | by apply silent_snoc_late | by apply Hext | lia].
Qed.

Lemma drain_inv_resp S R g ts d :
  drain_inv S R g -> (forall s, s ∈ S -> s <= ts) -> (forall r, r ∈ R -> r <= ts) -> ~ 0 < d ->
  (length R < length S)%nat ->
  drain_inv S (R ++ [ts]) (gap_step t0 g (ts, d)).
Proof.
  intros I HS HR Hd Hcount.
  pose proof (gap_inv_resp t0 S g ts d (di_gap _ _ _ I) Hd) as Hgap.
  assert (prev_send g <= ts) as Hprev.
  { destruct (gi_anchor _ _ _ (di_gap _ _ _ I)) as [[-> _] | H]; [simpl in Hcount; lia | by apply HS]. }
  assert (forall a b, b <= prev_send g -> drained_on S (R ++ [ts]) a b <-> drained_on S R a b) as Hext.
  { intros a b Hb. rewrite <- (app_nil_r S) at 1. apply drained_on_ext.
    - intros s H. inversion H.
    - intros r ->%list_elem_of_singleton. lia. }
  pose proof (di_since _ _ _ I) as Hds. pose proof (di_out _ _ _ I) as Hout.
  revert Hgap. unfold gap_step. rewrite (proj2 (Z.ltb_ge 0 d)) by lia. intros Hgap.
  assert (drained_since g = None) as HN by (destruct (drained_since g); [lia | done]).
  split; cbn [prev_send longest n_sends outstanding longest_drained drained_since]; [done| | | | |].
  - rewrite length_app. simpl. lia.
  - rewrite HN, bool_decide_eq_true_2, andb_true_r by done.
    destruct (Z.eqb_spec (Z.max 0 (outstanding g - 1)) 0) as [Hz | Hz]; rewrite length_app; simpl.
    + split_and!; [lia | lia | done | set_solver |].
      intros r [Hr | ->%list_elem_of_singleton]%elem_of_app; [by apply HR | lia].
    + left. lia.
  - apply (di_nonneg _ _ _ I).
  - intros a b Hb Hab Hs Ha. apply Hext in Ha; [|lia]. by apply (di_upper _ _ _ I).
  - destruct (di_reached _ _ _ I) as [Hz | (a & b & Hb & Hab & Hs & Ha & Hm)]; [by left|].
    right. exists a, b. split_and!; [lia | lia | lia | done | apply Hext; [lia | done] | lia].
Qed.

(** No prefix of the merged log holds more responses than sends. *)
Definition prefix_causal (E : list event) : Prop :=
  forall P R, E = P ++ R -> (length (ev_resps P) <= length (ev_sends P))%nat.

Lemma drain_inv_loop E :
  ordered E -> prefix_causal E ->
  drain_inv (ev_sends E) (ev_resps E) (foldl (gap_step t0) (gaps0 t0) E).
Proof.
  induction E as [|e E IH] using rev_ind; intros Ho Hc; [apply drain_inv_init|].
  apply ordered_snoc in Ho as (Ho & HS & HR).
  assert (prefix_causal E) as HcE.
  { intros P R ->. apply (Hc P (R ++ [e])). by rewrite app_assoc. }
  specialize (IH Ho HcE). destruct e as [ts d].
  pose proof (Hc E [(ts, d)] eq_refl) as Hpre.
  pose proof (Hc (E ++ [(ts, d)]) [] (eq_sym (app_nil_r _))) as Hall.
  rewrite foldl_snoc, ev_sends_app, ev_resps_app.
  rewrite ev_sends_app, ev_resps_app, !length_app in Hall.
  destruct (decide (0 < d)) as [Hd | Hd].
  - destruct (ev_sends_send ts d Hd) as [-> ->]. rewrite app_nil_r. by apply drain_inv_send.
  - destruct (ev_sends_resp ts d Hd) as [E1 E2]. rewrite E1, E2 in *. simpl in Hall.
    rewrite app_nil_r. apply drain_inv_resp; auto; lia.
Qed.
End DrainedLoop.

(** ** The merged log against the two logs it came from *)

Section Logs.
Context (send_times response_times : list Z) (t1 : Z).

Abbreviation sends_to_t1 := (filter (fun ts => ts <= t1) send_times).
Abbreviation resps_to_t1 := (filter (fun ts => ts <= t1) response_times).

Lemma ev_sends_merge : ev_sends (merge_events send_times response_times t1) ≡ₚ sends_to_t1.
Proof.
  rewrite merge_events_perm, ev_sends_app, (proj1 (ev_split_tag 1 _)), (proj1 (ev_split_tag (-1) _)).
  simpl. by rewrite app_nil_r.
Qed.

Lemma ev_resps_merge : ev_resps (merge_events send_times response_times t1) ≡ₚ resps_to_t1.
Proof.
  by rewrite merge_events_perm, ev_resps_app, (proj2 (ev_split_tag 1 _)), (proj2 (ev_split_tag (-1) _)).
Qed.

Lemma upto_filter t l : t <= t1 -> upto t (filter (fun x => x <= t1) l) = upto t l.
Proof.
  intros Ht. unfold upto. f_equal. rewrite list_filter_filter. apply list_filter_iff. lia.
Qed.

Lemma prefix_counts P R th :
  causal send_times response_times -> th <= t1 ->
  merge_events send_times response_times t1 = P ++ R ->
  (forall r, r ∈ ev_resps P -> r <= th) -> (forall s, s ∈ ev_sends R -> th < s) ->
  (length (ev_resps P) <= length (ev_sends P))%nat.
Proof.
  intros Hc Hth HE HP HR. specialize (Hc th). unfold answered_by, sent_by in Hc.
  rewrite <- (upto_filter th send_times), <- (upto_filter th response_times) in Hc by done.
  rewrite <- ev_sends_merge, <- ev_resps_merge, HE, ev_sends_app, ev_resps_app, !upto_app in Hc.
  rewrite (upto_beyond th (ev_sends R) HR), (upto_all th (ev_resps P) HP) in Hc.
  pose proof (upto_le th (ev_sends P)). lia.
Qed.

Lemma merge_events_le_t1 e : e ∈ merge_events send_times response_times t1 -> e.1 <= t1.
Proof.
  rewrite merge_events_perm, elem_of_app.
  intros [(x & -> & Hx)%list_elem_of_fmap | (x & -> & Hx)%list_elem_of_fmap];
    apply list_elem_of_filter in Hx as [? _]; done.
Qed.

Lemma merge_events_causal :
  causal send_times response_times -> prefix_causal (merge_events send_times response_times t1).
Proof.
  intros Hc P R HE. destruct P as [|[ts d] P' _] using rev_ind; [simpl; lia|].
  assert (forall x, x ∈ P' -> ev_le x (ts, d)) as Hbefore.
  { apply (merge_events_sorted send_times response_times t1 P' (ts, d) R). by rewrite HE, <- app_assoc. }
  assert (forall y, y ∈ R -> ev_le (ts, d) y) as Hafter.
  { intros y (R1 & R2 & ->)%list_elem_of_split.
    apply (merge_events_sorted send_times response_times t1 ((P' ++ [(ts, d)]) ++ R1) y R2).
    - by rewrite HE, app_assoc.
    - set_solver. }
  assert (ts <= t1) as Hts.
  { apply (merge_events_le_t1 (ts, d)). rewrite HE. set_solver. }
  destruct (decide (0 < d)) as [Hd | Hd];
    [apply (prefix_counts _ R (ts - 1)) | apply (prefix_counts _ R ts)]; try done; try lia.
  - intros r (q & Hq & Hin)%ev_resps_elem.
    apply elem_of_app in Hin as [Hin | [= -> ->]%list_elem_of_singleton]; simpl in *; [|lia].
    specialize (Hbefore _ Hin). unfold ev_le in Hbefore. simpl in *. lia.
  - intros s (q & Hq & Hin)%ev_sends_elem.
    specialize (Hafter _ Hin). unfold ev_le in Hafter. simpl in *. lia.
  - intros r (q & Hq & Hin)%ev_resps_elem.
    apply elem_of_app in Hin as [Hin | [= -> ->]%list_elem_of_singleton]; simpl in *; [|lia].
    specialize (Hbefore _ Hin). unfold ev_le in Hbefore. simpl in *. lia.
  - intros s (q & Hq & Hin)%ev_sends_elem.
    specialize (Hafter _ Hin). unfold ev_le in Hafter. simpl in *. lia.
Qed.
End Logs.

(** ** The figures are exact *)

Lemma silent_filter S t1 a b :
  b <= t1 -> silent (filter (fun x => x <= t1) S) a b <-> silent S a b.
Proof.
  intros Hb. split; intros H s Hs Hin; apply (H s); try done.
  - apply list_elem_of_filter. split; [lia | done].
  - by apply list_elem_of_filter in Hs as [_ Hs].
Qed.

Lemma anchored_filter S t0 t1 a :
  a <= t1 -> anchored (filter (fun x => x <= t1) S) t0 a <-> anchored S t0 a.
Proof.
  intros Ha. split; (intros [H | (s & Hs & Hle)]; [by left|]; right; exists s; split; [|done]).
  - by apply list_elem_of_filter in Hs as [_ Hs].
  - apply list_elem_of_filter. split; [lia | done].
Qed.

Lemma drained_filter S R t1 a b :
  b <= t1 ->
  drained_on (filter (fun x => x <= t1) S) (filter (fun x => x <= t1) R) a b <-> drained_on S R a b.
Proof.
  intros Hb. unfold drained_on, drained_at, sent_by, answered_by.
  split; intros H t Ht; specialize (H t Ht); rewrite !upto_filter in *; (done || lia).
Qed.

#[local] Instance silent_perm : Proper (Permutation ==> eq ==> eq ==> iff) silent.
Proof.
  intros S S' HS a _ <- b _ <-. unfold silent. by setoid_rewrite HS.
Qed.

#[local] Instance anchored_perm : Proper (Permutation ==> eq ==> eq ==> iff) anchored.
Proof.
  intros S S' HS t _ <- a _ <-. unfold anchored. by setoid_rewrite HS.
Qed.

#[local] Instance drained_perm :
  Proper (Permutation ==> Permutation ==> eq ==> eq ==> iff) drained_on.
Proof.
  intros S S' HS R R' HR a _ <- b _ <-. unfold drained_on, drained_at, sent_by, answered_by.
  by setoid_rewrite HS; setoid_rewrite HR.
Qed.

Section Exact.
Context (s r : list Z) (t0 t1 : Z).
Hypothesis window : t0 < t1.

Abbreviation final := (foldl (gap_step t0) (gaps0 t0) (merge_events s r t1)).
Abbreviation s' := (filter (fun x => x <= t1) s).
Abbreviation r' := (filter (fun x => x <= t1) r).

Lemma gap_final : gap_inv t0 (ev_sends (merge_events s r t1)) final.
Proof. apply gap_inv_loop, merge_events_ordered. Qed.

Lemma prev_send_final : prev_send final <= t1.
Proof.
  destruct (gi_anchor _ _ _ gap_final) as [[_ ->] | H]; [lia|].
  rewrite ev_sends_merge in H. by apply list_elem_of_filter in H as [? _].
Qed.

Lemma count_final :
  n_sends final = Z.of_nat (length (filter (fun x => t0 < x <= t1) s)).
Proof.
  rewrite (gi_count _ _ _ gap_final), ev_sends_merge, list_filter_filter. done.
Qed.

Lemma gap_exact :
  longest_of (gap_interval s t0 t1) (Z.max (longest final) (t1 - prev_send final)).
Proof.
  pose proof gap_final as I. pose proof prev_send_final as Hp.
  assert (forall a b, b <= t1 -> silent (ev_sends (merge_events s r t1)) a b <-> silent s a b) as HS.
  { intros a b Hb. rewrite ev_sends_merge. by apply silent_filter. }
  assert (forall a, a <= t1 -> anchored (ev_sends (merge_events s r t1)) t0 a <-> anchored s t0 a) as HA.
  { intros a Ha. rewrite ev_sends_merge. by apply anchored_filter. }
  split.
  - intros a b ([Hb Hab] & Hs & Ha). apply HS in Hs; [|lia]. apply HA in Ha; [|lia].
    destruct (decide (b <= prev_send final)) as [Hbp | Hbp].
    + pose proof (gi_upper _ _ _ I a b ltac:(lia) Hab Hs Ha). lia.
    + pose proof (gap_after_last _ _ _ a b I ltac:(lia) Hs Ha). lia.
  - destruct (gap_since_last _ _ _ t1 I) as [Hs Ha].
    pose proof (gi_nonneg _ _ _ I) as Hnn.
    destruct (decide (longest final <= t1 - prev_send final)) as [Hm | Hm].
    + exists (prev_send final), t1. split; [|lia].
      split_and!; [split; lia | apply HS; [lia | done] | apply HA; [lia | done]].
    + destruct (gi_reached _ _ _ I) as [Hz | (a & b & Hb & Hab & Hs' & Ha' & Hlen)]; [lia|].
      exists a, b. split; [|lia].
      split_and!; [split; lia | apply HS; [lia | done] | apply HA; [lia | done]].
Qed.

Lemma drained_exact : causal s r ->
  longest_of (drained_interval s r t0 t1)
    (match drained_since final with
     | Some d => Z.max (longest_drained final) (t1 - d)
     | None => longest_drained final
     end).
Proof.
  intros Hc. set (E := merge_events s r t1).
  pose proof (drain_inv_loop t0 E (merge_events_ordered s r t1) (merge_events_causal s r t1 Hc)) as I.
  fold E. set (g := foldl (gap_step t0) (gaps0 t0) E) in *.
  assert (forall a b, b <= t1 -> silent (ev_sends E) a b <-> silent s a b) as HS.
  { intros a b Hb. unfold E. rewrite ev_sends_merge. by apply silent_filter. }
  assert (forall a b, b <= t1 -> drained_on (ev_sends E) (ev_resps E) a b <-> drained_on s r a b) as HD.
  { intros a b Hb. unfold E. rewrite ev_sends_merge, ev_resps_merge. by apply drained_filter. }
  assert (forall d, drained_since g = Some d -> d <= t1) as Hdt.
  { intros d Hd. pose proof (di_since _ _ _ _ I) as Hds. rewrite Hd in Hds.
    destruct Hds as (_ & _ & _ & Hin & _). unfold E in Hin. rewrite ev_resps_merge in Hin.
    by apply list_elem_of_filter in Hin as [? _]. }
  pose proof (di_nonneg _ _ _ _ I) as Hnn. pose proof prev_send_final as Hp. fold E g in Hp.
  split.
  - intros a b ([Hb Hab] & Hs & Ha). apply HS in Hs; [|lia]. apply HD in Ha; [|lia].
    destruct (decide (a = b)) as [->|Hne]; [destruct (drained_since g); lia|].
    destruct (decide (b <= prev_send g)) as [Hbp | Hbp].
    + pose proof (di_upper _ _ _ _ I a b ltac:(lia) Hab Hs Ha). destruct (drained_since g); lia.
    + destruct (drained_after_last _ _ _ _ a b I ltac:(lia) ltac:(lia) Hs Ha) as (d & -> & Hd). lia.
  - assert (forall m, m = longest_drained g ->
      exists a b, drained_interval s r t0 t1 a b /\ b - a = m) as Hkeep.
    { intros m ->. destruct (di_reached _ _ _ _ I) as [-> | (a & b & Hb & Hab & Hs & Ha & Hlen)].
      - exists t1, t1. split; [|lia]. split_and!; [split; lia | intros x _; lia | intros t; lia].
      - exists a, b. split; [|lia].
        split_and!; [split; lia | apply HS; [lia | done] | apply HD; [lia | done]]. }
    destruct (drained_since g) as [d|] eqn:Ed; [|by apply Hkeep].
    destruct (decide (t1 - d <= longest_drained g)); [apply Hkeep; lia|].
    destruct (drained_since_last _ _ _ _ d t1 I Ed) as [Hs Ha]. specialize (Hdt d eq_refl).
    exists d, t1. split; [|lia].
    split_and!; [split; lia | apply HS; [lia | done] | apply HD; [lia | done]].
Qed.
End Exact.

Lemma longest_send_gap_drained s r t0 t1 :
  t0 < t1 -> causal s r ->
  longest_of (drained_interval s r t0 t1) (_longest_send_gap s r t0 t1).2.
Proof. intros Hw Hc. unfold _longest_send_gap. by apply drained_exact. Qed.

(** C10. The gap analysis is exact.  For any two logs in which no request is
    answered before it is sent, the loop over the merged log returns the
    number of sends inside the window, the length of the longest interval of
    the window in which no request left the process, and the length of the
    longest such interval during all of which every request sent had been
    answered: no interval is longer, and one is as long. *)
Theorem longest_send_gap_exact (send_times response_times : list Z) (t0 t1 : Z) :
  t0 < t1 -> causal send_times response_times ->
  let '(n, gap, drained) := _longest_send_gap send_times response_times t0 t1 in
  n = Z.of_nat (length (filter (fun x => t0 < x <= t1) send_times)) /\
  longest_of (gap_interval send_times t0 t1) gap /\
  longest_of (drained_interval send_times response_times t0 t1) drained.
Proof.
  intros Hw Hc. unfold _longest_send_gap.
  split_and!; [by apply count_final | by apply gap_exact | by apply drained_exact].
Qed.

Lemma longest_send_gap_exact_witness :
  _longest_send_gap [100; 300; 500; 900] [150; 350; 600] 200 1000 = (3, 400, 300) /\
  longest_of (drained_interval [100; 300; 500; 900] [150; 350; 600] 200 1000) 300.
Proof.
  split; [reflexivity|].
  refine (proj2 (proj2 (longest_send_gap_exact [100; 300; 500; 900] [150; 350; 600] 200 1000 _ _))).
  - reflexivity.
  - intros t. unfold answered_by, sent_by, upto.
    destruct (decide (150 <= t)), (decide (350 <= t)), (decide (600 <= t)),
      (decide (100 <= t)), (decide (300 <= t)), (decide (500 <= t)), (decide (900 <= t)); try lia;
    repeat first [rewrite filter_cons_True by lia | rewrite filter_cons_False by lia]; simpl; lia.
Defined.

(** ** The drained figure never exceeds the other one *)

Record order_inv (t0 : Z) (S : list Z) (g : gaps) : Prop := {
  oi_cases : (S = [] /\ longest_drained g = 0) \/
    (prev_send g ∈ S /\ longest_drained g <= longest g /\
     forall d, drained_since g = Some d -> prev_send g <= d) \/
    (prev_send g ∈ S /\ forall s, s ∈ S -> t0 < s);
  oi_nonneg : 0 <= longest g
}.

Lemma order_inv_send t0 S g ts d :
  order_inv t0 S g -> (forall s, s ∈ S -> s <= ts) -> 0 < d ->
  order_inv t0 (S ++ [ts]) (gap_step t0 g (ts, d)).
Proof.
  intros [Hcases Hnn] HS Hd. unfold gap_step. rewrite (proj2 (Z.ltb_lt 0 d) Hd).
  assert (ts ∈ S ++ [ts]) as Hin by (apply elem_of_app; right; by apply list_elem_of_singleton).
  destruct (Z.ltb_spec t0 ts); split; simpl; try lia; right.
  - destruct Hcases as [[-> _] | [(_ & Hle & Hd') | [Hp Hlate]]].
    + right. split; [done|]. intros s ->%list_elem_of_singleton. done.
    + left. split_and!; [done | | done].
      destruct (drained_since g) as [x|]; [specialize (Hd' x eq_refl)|]; lia.
    + right. split; [done|]. intros s [Hs | ->%list_elem_of_singleton]%elem_of_app; auto.
  - left. split_and!; [done | | done].
    destruct Hcases as [[_ ->] | [(_ & Hle & _) | [Hp Hlate]]]; [lia | lia |].
    specialize (Hlate _ Hp). specialize (HS _ Hp). lia.
Qed.

Lemma order_inv_resp t0 S g ts d :
  order_inv t0 S g -> (forall s, s ∈ S -> s <= ts) -> ~ 0 < d ->
  order_inv t0 S (gap_step t0 g (ts, d)).
Proof.
  intros [Hcases Hnn] HS Hd. unfold gap_step. rewrite (proj2 (Z.ltb_ge 0 d)) by lia.
  split; simpl; [|done].
  destruct Hcases as [Hc | [(Hp & Hle & Hd') | Hc]]; [by left | right; left | by right; right].
  split_and!; [done | done |]. intros x. specialize (HS _ Hp).
  destruct (_ && _); [intros [= <-]; lia | apply Hd'].
Qed.

Lemma order_inv_loop t0 E :
  ordered E -> order_inv t0 (ev_sends E) (foldl (gap_step t0) (gaps0 t0) E).
Proof.
  induction E as [|[ts d] E IH] using rev_ind; intros Ho; [split; simpl; auto; lia|].
  apply ordered_snoc in Ho as (Ho & HS & _). specialize (IH Ho). rewrite foldl_snoc, ev_sends_app.
  destruct (decide (0 < d)) as [Hd | Hd].
  - rewrite (proj1 (ev_sends_send ts d Hd)). by apply order_inv_send.
  - rewrite (proj1 (ev_sends_resp ts d Hd)), app_nil_r. by apply order_inv_resp.
Qed.

(** Whatever the two logs hold, out of order or with responses stamped
    before the sends they answer, the gap spent with nothing outstanding is
    never reported longer than the gap of any kind, provided one send is
    logged at or before the start of the window. *)
Theorem drained_gap_within_gap (send_times response_times : list Z) (t0 t1 s : Z) :
  t0 < t1 -> s ∈ send_times -> s <= t0 ->
  let '(_, gap, drained) := _longest_send_gap send_times response_times t0 t1 in
  drained <= gap.
Proof.
  intros Hw Hs Hst. unfold _longest_send_gap. set (E := merge_events _ _ _).
  destruct (order_inv_loop t0 E (merge_events_ordered _ _ _)) as [Hcases _].
  assert (s ∈ ev_sends E) as HsE.
  { unfold E. rewrite ev_sends_merge. apply list_elem_of_filter. split; [lia | done]. }
  destruct Hcases as [[HE _] | [(_ & Hle & Hd) | [_ Hlate]]].
  - rewrite HE in HsE. inversion HsE.
  - destruct (drained_since _) as [d|]; [specialize (Hd d eq_refl)|]; lia.
  - specialize (Hlate s HsE). lia.
Qed.

Lemma drained_gap_within_gap_witness :
  _longest_send_gap [150; 500] [120; 170; 900] 200 1000 = (1, 500, 330) /\ 330 <= 500 /\
  _longest_send_gap [500] [120] 200 600 = (1, 300, 380).
Proof.
  split; [reflexivity|]. split; [|reflexivity].
  exact (drained_gap_within_gap [150; 500] [120; 170; 900] 200 1000 150 eq_refl
           ltac:(set_solver) ltac:(lia)).
Defined.
