(* ===== verification/PollingClient.v ===== *)
(** * The polling client: api_tests/37_test_cache_server_deinit_hang.py

    Two threads share one socket and one statistics object: the sender emits
    a request per 20 ms off its own clock, the drainer reads the replies.  The
    test thread starts them, reads the statistics, and stops them.

    A thread is a program over the shared state: [Atomic] is one access to a
    shared variable, [Call] one call that leaves the interpreter (socket,
    clock, thread).  The threads, the peer and the clock interleave between
    any two of these.  [time.monotonic()] counts microseconds; a sleep may end
    at any time, since the loop reads the clock again after it.

    The socket is the environment's: a read may return any bytes the peer
    sent, time out or fail at any moment, but it reports an end of stream or a
    connection error only after the peer has gone or this side has shut the
    socket down ([peer_gone], [shut]). *)

From Stdlib Require Import ZArith Lia.
From stdpp Require Import base list relations.
From S2P Require Import Prelude PyBytes ModbusTcp.

Open Scope Z_scope.

Definition _SEND_INTERVAL_S : Z := 20000.
Definition _MAX_OUTSTANDING : Z := 1024.
Definition _SEND_LOG_MAX : Z := 60000.

(** What [stats.error] says, with the values its text interpolates. *)
Inductive note :=
| ConnectFailed (e : exn)
| SendStalled (after_sends : Z)
| PeerClosedOnSend (after_responses : Z) (e : exn)
| SendFailed (after_responses : Z) (e : exn)
| PeerClosed (after_responses : Z) (e : exn)
| RecvFailed (after_responses : Z) (e : exn).

(** ** [_PollStats] *)

Record pstats := PStats {
  first_response : bool;
  responses : Z;
  error : option note;
  closed_by_peer : bool;
  connection_ended_at : option Z;
  last_response_at : option Z;
  response_times : list Z;
  drainer_ended_at : option Z;
  drainer_closed_by_peer : bool;
  sends : Z;
  send_times : list Z;
  send_log_truncated : bool;
  throttled_ticks : Z
}.

Definition set_first_response (x : bool) (s : pstats) : pstats :=
  PStats x (responses s) (error s) (closed_by_peer s) (connection_ended_at s) (last_response_at s) (response_times s) (drainer_ended_at s) (drainer_closed_by_peer s) (sends s) (send_times s) (send_log_truncated s) (throttled_ticks s).
Definition set_responses (x : Z) (s : pstats) : pstats :=
  PStats (first_response s) x (error s) (closed_by_peer s) (connection_ended_at s) (last_response_at s) (response_times s) (drainer_ended_at s) (drainer_closed_by_peer s) (sends s) (send_times s) (send_log_truncated s) (throttled_ticks s).
Definition set_error (x : option note) (s : pstats) : pstats :=
  PStats (first_response s) (responses s) x (closed_by_peer s) (connection_ended_at s) (last_response_at s) (response_times s) (drainer_ended_at s) (drainer_closed_by_peer s) (sends s) (send_times s) (send_log_truncated s) (throttled_ticks s).
Definition set_closed_by_peer (x : bool) (s : pstats) : pstats :=
  PStats (first_response s) (responses s) (error s) x (connection_ended_at s) (last_response_at s) (response_times s) (drainer_ended_at s) (drainer_closed_by_peer s) (sends s) (send_times s) (send_log_truncated s) (throttled_ticks s).
Definition set_connection_ended_at (x : option Z) (s : pstats) : pstats :=
  PStats (first_response s) (responses s) (error s) (closed_by_peer s) x (last_response_at s) (response_times s) (drainer_ended_at s) (drainer_closed_by_peer s) (sends s) (send_times s) (send_log_truncated s) (throttled_ticks s).
Definition set_last_response_at (x : option Z) (s : pstats) : pstats :=
  PStats (first_response s) (responses s) (error s) (closed_by_peer s) (connection_ended_at s) x (response_times s) (drainer_ended_at s) (drainer_closed_by_peer s) (sends s) (send_times s) (send_log_truncated s) (throttled_ticks s).
Definition set_response_times (x : list Z) (s : pstats) : pstats :=
  PStats (first_response s) (responses s) (error s) (closed_by_peer s) (connection_ended_at s) (last_response_at s) x (drainer_ended_at s) (drainer_closed_by_peer s) (sends s) (send_times s) (send_log_truncated s) (throttled_ticks s).
Definition set_drainer_ended_at (x : option Z) (s : pstats) : pstats :=
  PStats (first_response s) (responses s) (error s) (closed_by_peer s) (connection_ended_at s) (last_response_at s) (response_times s) x (drainer_closed_by_peer s) (sends s) (send_times s) (send_log_truncated s) (throttled_ticks s).
Definition set_drainer_closed_by_peer (x : bool) (s : pstats) : pstats :=
  PStats (first_response s) (responses s) (error s) (closed_by_peer s) (connection_ended_at s) (last_response_at s) (response_times s) (drainer_ended_at s) x (sends s) (send_times s) (send_log_truncated s) (throttled_ticks s).
Definition set_sends (x : Z) (s : pstats) : pstats :=
  PStats (first_response s) (responses s) (error s) (closed_by_peer s) (connection_ended_at s) (last_response_at s) (response_times s) (drainer_ended_at s) (drainer_closed_by_peer s) x (send_times s) (send_log_truncated s) (throttled_ticks s).
Definition set_send_times (x : list Z) (s : pstats) : pstats :=
  PStats (first_response s) (responses s) (error s) (closed_by_peer s) (connection_ended_at s) (last_response_at s) (response_times s) (drainer_ended_at s) (drainer_closed_by_peer s) (sends s) x (send_log_truncated s) (throttled_ticks s).
Definition set_send_log_truncated (x : bool) (s : pstats) : pstats :=
  PStats (first_response s) (responses s) (error s) (closed_by_peer s) (connection_ended_at s) (last_response_at s) (response_times s) (drainer_ended_at s) (drainer_closed_by_peer s) (sends s) (send_times s) x (throttled_ticks s).
Definition set_throttled_ticks (x : Z) (s : pstats) : pstats :=
  PStats (first_response s) (responses s) (error s) (closed_by_peer s) (connection_ended_at s) (last_response_at s) (response_times s) (drainer_ended_at s) (drainer_closed_by_peer s) (sends s) (send_times s) (send_log_truncated s) x.

Definition pstats0 : pstats := PStats false 0 None false None None [] None false 0 [] false 0.

(** ** The shared state

    The client's own fields, then the world outside: the clock, whether the
    peer closed or reset the connection, whether this side shut it down, the
    bytes read so far and the requests written so far. *)

Record shared := Shared {
  stats : pstats;
  stop_event : bool;
  dead : bool;
  has_sock : bool;
  sender_alive : bool;
  drainer_alive : bool;
  clock : Z;
  peer_gone : bool;
  shut : bool;
  rx : list Z;
  tx : list (list Z)
}.

Definition set_stats (x : pstats) (s : shared) : shared :=
  Shared x (stop_event s) (dead s) (has_sock s) (sender_alive s) (drainer_alive s) (clock s) (peer_gone s) (shut s) (rx s) (tx s).
Definition set_stop_event (x : bool) (s : shared) : shared :=
  Shared (stats s) x (dead s) (has_sock s) (sender_alive s) (drainer_alive s) (clock s) (peer_gone s) (shut s) (rx s) (tx s).
Definition set_dead (x : bool) (s : shared) : shared :=
  Shared (stats s) (stop_event s) x (has_sock s) (sender_alive s) (drainer_alive s) (clock s) (peer_gone s) (shut s) (rx s) (tx s).
Definition set_has_sock (x : bool) (s : shared) : shared :=
  Shared (stats s) (stop_event s) (dead s) x (sender_alive s) (drainer_alive s) (clock s) (peer_gone s) (shut s) (rx s) (tx s).
Definition set_sender_alive (x : bool) (s : shared) : shared :=
  Shared (stats s) (stop_event s) (dead s) (has_sock s) x (drainer_alive s) (clock s) (peer_gone s) (shut s) (rx s) (tx s).
Definition set_drainer_alive (x : bool) (s : shared) : shared :=
  Shared (stats s) (stop_event s) (dead s) (has_sock s) (sender_alive s) x (clock s) (peer_gone s) (shut s) (rx s) (tx s).
Definition set_clock (x : Z) (s : shared) : shared :=
  Shared (stats s) (stop_event s) (dead s) (has_sock s) (sender_alive s) (drainer_alive s) x (peer_gone s) (shut s) (rx s) (tx s).
Definition set_peer_gone (x : bool) (s : shared) : shared :=
  Shared (stats s) (stop_event s) (dead s) (has_sock s) (sender_alive s) (drainer_alive s) (clock s) x (shut s) (rx s) (tx s).
Definition set_shut (x : bool) (s : shared) : shared :=
  Shared (stats s) (stop_event s) (dead s) (has_sock s) (sender_alive s) (drainer_alive s) (clock s) (peer_gone s) x (rx s) (tx s).
Definition set_rx (x : list Z) (s : shared) : shared :=
  Shared (stats s) (stop_event s) (dead s) (has_sock s) (sender_alive s) (drainer_alive s) (clock s) (peer_gone s) (shut s) x (tx s).
Definition set_tx (x : list (list Z)) (s : shared) : shared :=
  Shared (stats s) (stop_event s) (dead s) (has_sock s) (sender_alive s) (drainer_alive s) (clock s) (peer_gone s) (shut s) (rx s) x.

Definition shared0 : shared := Shared pstats0 false false false false false 0 false false [] [].

Definition on_stats (f : pstats -> pstats) (s : shared) : shared := set_stats (f (stats s)) s.

(** ** Thread programs *)

Inductive who := Sender | Drainer.

Inductive recv_result := Chunk (bs : list Z) | RecvTimeout | RecvError (e : exn).
Inductive send_result := Sent | SendTimeout | SendError (e : exn).

Inductive call : Set -> Type :=
| CSocket : call (option exn)
| CConnect : call (option exn)
| CStart (t : who) : call unit
| CRecv (n : Z) : call recv_result
| CSend (req : list Z) : call send_result
| CSleep (d : Z) : call unit
| CShutdown : call (option exn)
| CJoin (t : who) (timeout : Z) : call unit
| CClose : call (option exn).

Inductive prog (A : Type) : Type :=
| Ret (a : A)
| Atomic (f : shared -> shared) (k : shared -> prog A)
| Call {B : Set} (c : call B) (k : B -> prog A).
Arguments Ret {A} a.
Arguments Atomic {A} f k.
Arguments Call {A B} c k.

Fixpoint pbind {A B} (p : prog A) (q : A -> prog B) : prog B :=
  match p with
  | Ret a => q a
  | Atomic f k => Atomic f (fun s => pbind (k s) q)
  | Call c k => Call c (fun r => pbind (k r) q)
  end.

Declare Scope prog_scope.
Notation "'let!' x ':=' m 'in' k" := (pbind m (fun x => k))
  (at level 10, x pattern, m at level 200, k at level 200) : prog_scope.
Notation "m ';!' k" := (pbind m (fun _ => k)) (at level 199, right associativity) : prog_scope.
Open Scope prog_scope.

Definition read {A} (f : shared -> A) : prog A := Atomic id (fun s => Ret (f s)).
Definition write (f : shared -> shared) : prog unit := Atomic f (fun _ => Ret tt).
Definition do_call {B : Set} (c : call B) : prog B := Call c Ret.
Definition monotonic : prog Z := read clock.

(** ** Shared bookkeeping of [_PollingClient] *)

Definition _note (message : note) : prog unit :=
  let! e := read (fun s => error (stats s)) in
  match e with
  | None => write (on_stats (set_error (Some message)))
  | Some _ => Ret tt
  end.

Definition _end_connection (message : note) : prog unit :=
  let! t := read (fun s => connection_ended_at (stats s)) in
  (match t with
   | None => let! now := monotonic in write (on_stats (set_connection_ended_at (Some now)))
   | Some _ => Ret tt
   end) ;!
  _note message ;!
  write (set_dead true).

Definition _note_peer_close (message : note) : prog unit :=
  write (on_stats (set_closed_by_peer true)) ;!
  _end_connection message.

Definition _drainer_end (message : note) (peer_closed : bool) : prog unit :=
  let! t := read (fun s => drainer_ended_at (stats s)) in
  (match t with
   | None =>
       let! now := monotonic in
       write (on_stats (set_drainer_ended_at (Some now))) ;!
       write (on_stats (set_drainer_closed_by_peer peer_closed))
   | Some _ => Ret tt
   end) ;!
  if peer_closed then _note_peer_close message else _end_connection message.

(** ** The sender *)

(** Advance the schedule by one interval, or restart it from now when a whole
    interval was missed. *)
Definition next_tick (next_send now : Z) : Z :=
  let next_send := next_send + _SEND_INTERVAL_S in
  if next_send <? now then now + _SEND_INTERVAL_S else next_send.

(** One round of [_send_loop] from [(tid, next_send)]; [None] leaves the
    loop. *)
Definition send_iter (l : Z * Z) : prog (option (Z * Z)) :=
  let '(tid, next_send) := l in
  let! stop := read stop_event in
  if (stop : bool) then Ret None else
  let! gone := read dead in
  if (gone : bool) then Ret None else
  let! t := monotonic in
  let delay := next_send - t in
  if 0 <? delay then do_call (CSleep delay) ;! Ret (Some (tid, next_send)) else
  let! now := monotonic in
  let next_send := next_tick next_send now in
  let! n := read (fun s => sends (stats s)) in
  let! m := read (fun s => responses (stats s)) in
  if _MAX_OUTSTANDING <=? n - m then
    let! k := read (fun s => throttled_ticks (stats s)) in
    write (on_stats (set_throttled_ticks (k + 1))) ;!
    Ret (Some (tid, next_send))
  else
  match make_mbap_request tid 1 0x03 0 1 with
  | Ok request =>
      let! r := do_call (CSend request) in
      match r with
      | SendTimeout =>
          let! n := read (fun s => sends (stats s)) in
          _note (SendStalled n) ;! Ret None
      | SendError e =>
          let! stop := read stop_event in
          if (stop : bool) then Ret None else
          let! m := read (fun s => responses (stats s)) in
          (if catches ConnectionError e
           then _note_peer_close (PeerClosedOnSend m e)
           else _end_connection (SendFailed m e)) ;!
          Ret None
      | Sent =>
          let! n := read (fun s => sends (stats s)) in
          write (on_stats (set_sends (n + 1))) ;!
          let! log := read (fun s => send_times (stats s)) in
          (if zlen log <? _SEND_LOG_MAX then
             let! t := monotonic in
             write (on_stats (set_send_times (log ++ [t])))
           else write (on_stats (set_send_log_truncated true))) ;!
          Ret (Some (tid mod 65535 + 1, next_send))
      end
  | _ => Ret None
  end.

(** ** The drainer *)

Inductive recv_state :=
| More (buf : list Z)
| Got (buf : list Z)
| NothingRead
| Raised (e : exn).

(** One round of the loop of [_recv_frame_bytes] with [buf] read so far. *)
Definition recv_frame_iter (n : Z) (buf : list Z) : prog recv_state :=
  if zlen buf <? n then
    let! stop := read stop_event in
    if (stop : bool) then Ret NothingRead else
    let! r := do_call (CRecv (n - zlen buf)) in
    match r with
    | RecvTimeout =>
        let! gone := read dead in
        if (gone : bool) then Ret NothingRead else Ret (More buf)
    | RecvError e => Ret (Raised e)
    | Chunk chunk =>
        if decide (chunk = []) then Ret (Raised ConnectionError) else Ret (More (buf ++ chunk))
    end
  else Ret (Got buf).

(** Where the drainer stands between two rounds: at the head of its loop, or
    inside one of the two reads of a frame. *)
Inductive dloc :=
| DTop
| DHeader (buf : list Z)
| DBody (remaining : Z) (buf : list Z).

Definition drain_except (e : exn) : prog (option dloc) :=
  let! stop := read stop_event in
  if (stop : bool) then Ret None else
  let! m := read (fun s => responses (stats s)) in
  (if catches ConnectionError e then _drainer_end (PeerClosed m e) true
   else _drainer_end (RecvFailed m e) false) ;!
  Ret None.

Definition drain_count : prog (option dloc) :=
  let! now := monotonic in
  write (on_stats (set_last_response_at (Some now))) ;!
  let! log := read (fun s => response_times (stats s)) in
  (if zlen log <? _SEND_LOG_MAX then write (on_stats (set_response_times (log ++ [now])))
   else Ret tt) ;!
  let! m := read (fun s => responses (stats s)) in
  write (on_stats (set_responses (m + 1))) ;!
  write (on_stats (set_first_response true)) ;!
  Ret (Some DTop).

Definition drain_header (header : list Z) : prog (option dloc) :=
  match unpack_H (slice 4 6 header) with
  | Ok length =>
      if negb ((2 <=? length) && (length <=? 253)) then drain_except ValueError
      else
        let remaining := length - 2 in
        if 0 <? remaining then Ret (Some (DBody remaining [])) else drain_count
  | Raise e => drain_except e
  | Blocked => Ret None
  end.

Definition drain_iter (l : dloc) : prog (option dloc) :=
  match l with
  | DTop =>
      let! stop := read stop_event in
      if (stop : bool) then Ret None else Ret (Some (DHeader []))
  | DHeader buf =>
      let! r := recv_frame_iter 8 buf in
      match r with
      | More buf => Ret (Some (DHeader buf))
      | NothingRead => Ret None
      | Raised e => drain_except e
      | Got header => drain_header header
      end
  | DBody remaining buf =>
      let! r := recv_frame_iter remaining buf in
      match r with
      | More buf => Ret (Some (DBody remaining buf))
      | NothingRead => Ret None
      | Raised e => drain_except e
      | Got _ => drain_count
      end
  end.

(** ** The test thread's side *)

Definition start : prog (outcome unit) :=
  let! failed := do_call CSocket in
  match failed with
  | Some e => Ret (Raise e)
  | None =>
      let! refused := do_call CConnect in
      match refused with
      | Some e =>
          write (on_stats (set_error (Some (ConnectFailed e)))) ;!
          do_call CClose ;!
          write (set_dead true) ;!
          Ret (Ok tt)
      | None =>
          write (set_has_sock true) ;!
          do_call (CStart Drainer) ;!
          do_call (CStart Sender) ;!
          Ret (Ok tt)
      end
  end.

Definition alive (t : who) (s : shared) : bool :=
  match t with Sender => sender_alive s | Drainer => drainer_alive s end.

Definition is_alive : prog bool := read (alive Drainer).

Definition join_thread (timeout : Z) (t : who) : prog (list who) :=
  let! a := read (alive t) in
  if (a : bool) then
    do_call (CJoin t timeout) ;!
    let! b := read (alive t) in
    Ret (if (b : bool) then [t] else [])
  else Ret [].

(** Returns the threads named in the warning. *)
Definition stop (timeout : Z) : prog (list who) :=
  write (set_stop_event true) ;!
  let! sock := read has_sock in
  (if (sock : bool) then do_call CShutdown ;! Ret tt else Ret tt) ;!
  let! a := join_thread timeout Sender in
  let! b := join_thread timeout Drainer in
  let! sock := read has_sock in
  (if (sock : bool) then do_call CClose ;! Ret tt else Ret tt) ;!
  Ret (a ++ b).

(** ** Interleaving *)

(** What the environment may answer to a call, and what the call does to the
    shared state. *)
Definition call_spec {B : Set} (c : call B) : shared -> B -> shared -> Prop :=
  match c in call B return shared -> B -> shared -> Prop with
  | CSocket => fun s _ s' => s' = s
  | CConnect => fun s r s' => s' = s /\ (forall e, r = Some e -> catches OSError e = true)
  | CStart Sender => fun s _ s' => s' = set_sender_alive true s
  | CStart Drainer => fun s _ s' => s' = set_drainer_alive true s
  | CRecv n => fun s r s' =>
      match r with
      | Chunk bs => s' = set_rx (rx s ++ bs) s /\ zlen bs <= n /\ bytes_ok bs /\
                    (bs = [] -> peer_gone s = true \/ shut s = true)
      | RecvTimeout => s' = s
      | RecvError e => s' = s /\ catches OSError e = true /\
                       (catches ConnectionError e = true -> peer_gone s = true \/ shut s = true)
      end
  | CSend req => fun s r s' =>
      match r with
      | Sent => s' = set_tx (tx s ++ [req]) s
      | SendTimeout => s' = s
      | SendError e => s' = s /\ catches OSError e = true /\
                       (catches ConnectionError e = true -> peer_gone s = true \/ shut s = true)
      end
  | CSleep _ => fun s _ s' => s' = s
  | CShutdown => fun s _ s' => s' = set_shut true s
  | CJoin _ _ => fun s _ s' => s' = s
  | CClose => fun s _ s' => s' = s
  end.

Inductive pstep {A} : prog A -> shared -> prog A -> shared -> Prop :=
| ps_atomic f k s : pstep (Atomic f k) s (k s) (f s)
| ps_call {B : Set} (c : call B) k s r s' : call_spec c s r s' -> pstep (Call c k) s (k r) s'.

(** A looping thread: not started, between two rounds, inside one, or over. *)
Inductive thread (L : Type) : Type :=
| TNew
| TAt (l : L)
| TRun (p : prog (option L))
| TDone.
Arguments TNew {L}.
Arguments TAt {L} l.
Arguments TRun {L} p.
Arguments TDone {L}.

Inductive tstep {L} (body : L -> prog (option L)) : thread L -> shared -> thread L -> shared -> Prop :=
| ts_round l s : tstep body (TAt l) s (TRun (body l)) s
| ts_step p s p' s' : pstep p s p' s' -> tstep body (TRun p) s (TRun p') s'
| ts_again l s : tstep body (TRun (Ret (Some l))) s (TAt l) s.

Record sys := Sys {
  main : prog (list who);
  sender : thread (Z * Z);
  drainer : thread dloc;
  sh : shared
}.

(** The test starts the client and stops it; between the two it only reads
    the statistics, which changes nothing. *)
Definition client_main : prog (list who) :=
  let! r := start in stop 3000000.

Inductive sys_step : sys -> sys -> Prop :=
| ss_main m m' sd dr s s' : pstep m s m' s' -> sys_step (Sys m sd dr s) (Sys m' sd dr s')
| ss_sender m sd sd' dr s s' : tstep send_iter sd s sd' s' ->
    sys_step (Sys m sd dr s) (Sys m sd' dr s')
| ss_sender_start m dr s : sender_alive s = true ->
    sys_step (Sys m TNew dr s) (Sys m (TAt (1, clock s)) dr s)
| ss_sender_exit m dr s :
    sys_step (Sys m (TRun (Ret None)) dr s) (Sys m TDone dr (set_sender_alive false s))
| ss_drainer m sd dr dr' s s' : tstep drain_iter dr s dr' s' ->
    sys_step (Sys m sd dr s) (Sys m sd dr' s')
| ss_drainer_start m sd s : drainer_alive s = true ->
    sys_step (Sys m sd TNew s) (Sys m sd (TAt DTop) s)
| ss_drainer_exit m sd s :
    sys_step (Sys m sd (TRun (Ret None)) s) (Sys m sd TDone (set_drainer_alive false s))
| ss_clock m sd dr s t : clock s <= t -> sys_step (Sys m sd dr s) (Sys m sd dr (set_clock t s))
| ss_peer m sd dr s : sys_step (Sys m sd dr s) (Sys m sd dr (set_peer_gone true s)).

Definition sys0 (t : Z) : sys := Sys client_main TNew TNew (set_clock t shared0).
