(* ===== verification/PollingProof.v ===== *)
(** * Proofs about the polling client of PollingClient

    A rely-guarantee argument: each thread owns the statistics only it writes,
    every access keeps one invariant of the shared state, and what a thread
    knows locally survives what the others may do.  The invariant then holds
    in every reachable state of the interleaved system. *)

From Stdlib Require Import ZArith Lia.
From stdpp Require Import base list relations.
From S2P Require Import Prelude PyBytes ModbusTcp PollingClient.

Open Scope Z_scope.
Open Scope prog_scope.

(** ** Rely and guarantee

    [safe rely guar p Q s]: from [s], whatever [rely] allows the others to do
    between two accesses, every access of [p] satisfies [guar], and when [p]
    returns, [Q] holds. *)

Section RelyGuarantee.
Context (rely guar : relation shared) `{!PreOrder rely}.

Fixpoint safe {A} (p : prog A) (Q : A -> shared -> Prop) (s : shared) : Prop :=
  match p with
  | Ret a => forall s', rely s s' -> Q a s'
  | Atomic f k => forall s', rely s s' -> guar s' (f s') /\ safe (k s') Q (f s')
  | Call c k => forall s', rely s s' -> forall r s'', call_spec c s' r s'' ->
      guar s' s'' /\ safe (k r) Q s''
  end.

Lemma safe_rely {A} (p : prog A) Q s s' : rely s s' -> safe p Q s -> safe p Q s'.
Proof. destruct p; simpl; intros H Hs s'' H'; apply Hs; by etransitivity. Qed.

Lemma safe_bind {A B} (p : prog A) (q : A -> prog B) Q s :
  safe p (fun a s' => safe (q a) Q s') s -> safe (pbind p q) Q s.
Proof.
  revert s. induction p as [a | f k IH | B' c k IH]; intros s H; simpl in *.
  - by apply H.
  - intros s' Hs. destruct (H s' Hs) as [Hg Hk]. auto.
  - intros s' Hs r s'' Hc. destruct (H s' Hs r s'' Hc) as [Hg Hk]. auto.
Qed.

Lemma safe_ret {A} (a : A) (Q : A -> shared -> Prop) s :
  (forall s', rely s s' -> Q a s') -> safe (Ret a) Q s.
Proof. done. Qed.

Lemma safe_mono {A} (p : prog A) (Q Q' : A -> shared -> Prop) s :
  (forall a s', Q a s' -> Q' a s') -> safe p Q s -> safe p Q' s.
Proof.
  intros H. revert s. induction p as [a | f k IH | B' c k IH]; intros s Hs; simpl in *.
  - auto.
  - intros s' Hr. destruct (Hs s' Hr). auto.
  - intros s' Hr r s'' Hc. destruct (Hs s' Hr r s'' Hc). auto.
Qed.

Lemma safe_read {A B} (f : shared -> A) (q : A -> prog B) Q s :
  (forall s', rely s s' -> guar s' s' /\ safe (q (f s')) Q s') ->
  safe (pbind (read f) q) Q s.
Proof. intros H s' Hs. simpl. by apply H. Qed.

Lemma safe_write {B} (f : shared -> shared) (q : unit -> prog B) Q s :
  (forall s', rely s s' -> guar s' (f s') /\ safe (q tt) Q (f s')) ->
  safe (pbind (write f) q) Q s.
Proof. intros H s' Hs. simpl. by apply H. Qed.

Lemma safe_pstep {A} (p : prog A) Q s p' s' :
  safe p Q s -> pstep p s p' s' -> guar s s' /\ safe p' Q s'.
Proof. intros Hs H. destruct H; [by apply Hs | by eapply Hs]. Qed.

End RelyGuarantee.

(** ** The invariant *)

(** A complete MBAP frame whose length field passes the plausibility check. *)
Definition mbap_frame (f : list Z) : Prop :=
  exists len, unpack_H (slice 4 6 f) = Ok len /\ 2 <= len <= 253 /\ zlen f = 6 + len.

(** The [i]-th request of the client. *)
Definition nth_request (i : nat) : outcome (list Z) :=
  make_mbap_request (Z.of_nat i mod 65535 + 1) 1 0x03 0 1.

Record inv (s : shared) : Prop := {
  inv_shut : shut s = true -> stop_event s = true;
  inv_peer : closed_by_peer (stats s) = true -> peer_gone s = true;
  inv_backlog : sends (stats s) <= responses (stats s) + _MAX_OUTSTANDING;
  inv_counts : 0 <= responses (stats s) /\ 0 <= sends (stats s) <= zlen (tx s);
  inv_first : first_response (stats s) = true -> 1 <= responses (stats s);
  inv_last : forall t, last_response_at (stats s) = Some t -> t <= clock s;
  inv_dended : forall t, drainer_ended_at (stats s) = Some t -> t <= clock s;
  inv_gap : forall a b, last_response_at (stats s) = Some a -> drainer_ended_at (stats s) = Some b -> a <= b;
  inv_dpeer : drainer_closed_by_peer (stats s) = true ->
    peer_gone s = true /\ drainer_ended_at (stats s) <> None;
  inv_cended : forall t, connection_ended_at (stats s) = Some t -> t <= clock s;
  inv_send_log : zlen (send_times (stats s)) <= sends (stats s) /\
    (send_log_truncated (stats s) = true -> _SEND_LOG_MAX <= sends (stats s)) /\
    (send_log_truncated (stats s) = false -> sends (stats s) <= zlen (send_times (stats s)) + 1);
  inv_resp_log : zlen (response_times (stats s)) <= responses (stats s) + 1;
  inv_tx : Ok <$> tx s = nth_request <$> seq 0 (length (tx s));
  inv_rx : exists frames pending, rx s = concat frames ++ pending /\ Forall mbap_frame frames /\
    responses (stats s) <= zlen frames;
  inv_logged : Forall (fun t => t <= clock s) (send_times (stats s)) /\
    Forall (fun t => t <= clock s) (response_times (stats s))
}.

(** What every thread lets grow and nobody takes back. *)
Record mono (s s' : shared) : Prop := {
  mono_clock : clock s <= clock s';
  mono_stop : stop_event s = true -> stop_event s' = true;
  mono_dead : dead s = true -> dead s' = true;
  mono_gone : peer_gone s = true -> peer_gone s' = true;
  mono_shut : shut s = true -> shut s' = true;
  mono_resp : responses (stats s) <= responses (stats s');
  mono_sends : sends (stats s) <= sends (stats s');
  mono_closed : closed_by_peer (stats s) = true -> closed_by_peer (stats s') = true;
  mono_ended : forall b, drainer_ended_at (stats s) = Some b ->
    drainer_ended_at (stats s') = Some b /\ last_response_at (stats s') = last_response_at (stats s);
  mono_dclosed : drainer_closed_by_peer (stats s) = true -> drainer_closed_by_peer (stats s') = true
}.

(** Fields only the sender writes, and fields only the drainer writes. *)
Definition sender_fields (s s' : shared) : Prop :=
  sends (stats s') = sends (stats s) /\ send_times (stats s') = send_times (stats s) /\
  send_log_truncated (stats s') = send_log_truncated (stats s) /\
  throttled_ticks (stats s') = throttled_ticks (stats s) /\ tx s' = tx s.

Definition drainer_fields (s s' : shared) : Prop :=
  responses (stats s') = responses (stats s) /\ response_times (stats s') = response_times (stats s) /\
  first_response (stats s') = first_response (stats s) /\
  last_response_at (stats s') = last_response_at (stats s) /\
  drainer_ended_at (stats s') = drainer_ended_at (stats s) /\
  drainer_closed_by_peer (stats s') = drainer_closed_by_peer (stats s) /\ rx s' = rx s.

#[export] Instance mono_preorder : PreOrder mono.
Proof.
  split.
  - intros s. by split.
  - intros a b c [] []. split; try lia; auto.
    intros x Hx. destruct (mono_ended0 x Hx) as [Hx' E]. destruct (mono_ended1 x Hx') as [? E'].
    split; [done | congruence].
Qed.

#[export] Instance sender_fields_preorder : PreOrder sender_fields.
Proof.
  split; [by intros s |]. intros a b c. unfold sender_fields. intros H1 H2.
  destruct_and!. split_and!; congruence.
Qed.

#[export] Instance drainer_fields_preorder : PreOrder drainer_fields.
Proof.
  split; [by intros s |]. intros a b c. unfold drainer_fields. intros H1 H2.
  destruct_and!. split_and!; congruence.
Qed.

(** Steps that keep the invariant, only grow what grows, and leave [own]
    alone. *)
Definition keeps (own : relation shared) (s s' : shared) : Prop :=
  inv s -> inv s' /\ mono s s' /\ own s s'.

#[export] Instance keeps_preorder own `{!PreOrder own} : PreOrder (keeps own).
Proof.
  split; [by intros s |]. intros a b c H1 H2 Ha.
  destruct (H1 Ha) as (Hb & Hm1 & Ho1). destruct (H2 Hb) as (Hc & Hm2 & Ho2).
  split_and!; [done | by etransitivity | by etransitivity].
Qed.

(** ** A small logic for one thread

    [mine] are the fields the thread owns, [theirs] those of the other. *)

Section Logic.
Context (mine theirs : relation shared) `{!PreOrder mine, !PreOrder theirs}.

Definition stable (P : shared -> Prop) : Prop :=
  forall s s', inv s -> inv s' -> mono s s' -> mine s s' -> P s -> P s'.

Definition triple {A} (P : shared -> Prop) (p : prog A) (Q : A -> shared -> Prop) : Prop :=
  forall s, inv s -> P s -> safe (keeps mine) (keeps theirs) p (fun a s' => inv s' /\ Q a s') s.

Lemma t_ret {A} P (a : A) Q :
  stable P -> (forall s, inv s -> P s -> Q a s) -> triple P (Ret a) Q.
Proof.
  intros HP HQ s Hi Hs s' Hr. destruct (Hr Hi) as (Hi' & Hm & Ho). eauto.
Qed.

Lemma t_read {A B} P (f : shared -> A) (R : A -> shared -> Prop) (q : A -> prog B) Q :
  stable P -> (forall s, inv s -> P s -> R (f s) s) ->
  (forall v, triple (fun s => P s /\ R v s) (q v) Q) -> triple P (pbind (read f) q) Q.
Proof.
  intros HP HR Hq s Hi Hs. apply safe_read. intros s' Hr.
  destruct (Hr Hi) as (Hi' & Hm & Ho). assert (P s') by eauto.
  split; [reflexivity|]. apply Hq; auto.
Qed.

Lemma t_write {B} P P' f (q : unit -> prog B) Q :
  stable P -> (forall s, inv s -> P s -> inv (f s) /\ mono s (f s) /\ theirs s (f s) /\ P' (f s)) ->
  triple P' (q tt) Q -> triple P (pbind (write f) q) Q.
Proof.
  intros HP Hf Hq s Hi Hs. apply safe_write. intros s' Hr.
  destruct (Hr Hi) as (Hi' & Hm & Ho). assert (P s') as Hp by eauto.
  destruct (Hf s' Hi' Hp) as (Hif & Hmf & Htf & Hpf). split; [by intros _|]. by apply Hq.
Qed.

Lemma t_write_last P P' f Q :
  stable P -> stable P' ->
  (forall s, inv s -> P s -> inv (f s) /\ mono s (f s) /\ theirs s (f s) /\ P' (f s)) ->
  (forall s, inv s -> P' s -> Q tt s) -> triple P (write f) Q.
Proof.
  intros HP HP' Hf HQ s Hi Hs. pose proof (t_write P P' f (fun _ => Ret tt) Q HP Hf) as H.
  apply (H (t_ret P' tt Q HP' HQ)); done.
Qed.

(** A write to a field nobody owns keeps every stable assertion. *)
Lemma t_write_last' P f Q :
  stable P ->
  (forall s, inv s -> P s -> inv (f s) /\ mono s (f s) /\ theirs s (f s) /\ mine s (f s)) ->
  (forall s, inv s -> P s -> Q tt s) -> triple P (write f) Q.
Proof.
  intros HP Hf HQ. apply (t_write_last P P); auto.
  intros s Hi Hs. destruct (Hf s Hi Hs) as (? & ? & ? & ?). eauto 10.
Qed.

Lemma t_call {B : Set} {A} P (c : call B) (R : B -> shared -> Prop) (q : B -> prog A) Q :
  stable P ->
  (forall s r s', inv s -> P s -> call_spec c s r s' ->
     inv s' /\ mono s s' /\ theirs s s' /\ R r s') ->
  (forall r, triple (R r) (q r) Q) -> triple P (pbind (do_call c) q) Q.
Proof.
  intros HP HR Hq s Hi Hs s' Hr r s'' Hc. destruct (Hr Hi) as (Hi' & Hm & Ho).
  assert (P s') as Hp by eauto. destruct (HR s' r s'' Hi' Hp Hc) as (Hi'' & Hm' & Ht' & HR').
  split; [by intros _|]. by apply Hq.
Qed.

Lemma t_bind {A B} P (p : prog A) (R : A -> shared -> Prop) (q : A -> prog B) Q :
  triple P p R -> (forall a, triple (R a) (q a) Q) -> triple P (pbind p q) Q.
Proof.
  intros Hp Hq s Hi Hs. apply safe_bind; [apply keeps_preorder; assumption|].
  apply (safe_mono _ _ p _ _ s) with (2 := Hp s Hi Hs). intros a s' [Hi' HR]. by apply Hq.
Qed.

Lemma t_pre {A} (P P' : shared -> Prop) (p : prog A) Q :
  (forall s, inv s -> P s -> P' s) -> triple P' p Q -> triple P p Q.
Proof. intros H Hp s Hi Hs. apply Hp; auto. Qed.

Lemma stable_and P Q : stable P -> stable Q -> stable (fun s => P s /\ Q s).
Proof. intros HP HQ s s' ? ? ? ? []. split; eauto. Qed.

Lemma stable_const (p : Prop) : stable (fun _ => p).
Proof. by intros s s'. Qed.

Lemma stable_gone : stable (fun s => peer_gone s = true).
Proof. intros s s' ? ? [] ?. auto. Qed.

Lemma stable_stop : stable (fun s => stop_event s = true).
Proof. intros s s' ? ? [] ?. auto. Qed.

Lemma stable_clock t : stable (fun s => t <= clock s).
Proof. intros s s' ? ? [] ? ?. lia. Qed.

Lemma stable_resp m : stable (fun s => m <= responses (stats s)).
Proof. intros s s' ? ? [] ? ?. lia. Qed.
End Logic.

(** ** Writes that keep the invariant *)

Ltac keep_inv :=
  intros []; split; simpl in *; auto; try congruence; try lia;
  try (intros ? [= <-]; lia).

Lemma inv_set_error e s : inv s -> inv (on_stats (set_error e) s).
Proof. keep_inv. Qed.

Lemma inv_set_dead b s : inv s -> inv (set_dead b s).
Proof. keep_inv. Qed.

Lemma inv_set_alive t b s : inv s ->
  inv (match t with Sender => set_sender_alive b s | Drainer => set_drainer_alive b s end).
Proof. destruct t; keep_inv. Qed.

Lemma inv_set_closed s :
  inv s -> peer_gone s = true -> inv (on_stats (set_closed_by_peer true) s).
Proof. keep_inv. Qed.

Lemma inv_set_cended t s :
  inv s -> t <= clock s -> inv (on_stats (set_connection_ended_at (Some t)) s).
Proof. keep_inv. Qed.

Lemma inv_set_clock t s : inv s -> clock s <= t -> inv (set_clock t s).
Proof.
  intros [] Ht. split; simpl in *; auto.
  - intros x Hx. specialize (inv_last0 x Hx). lia.
  - intros x Hx. specialize (inv_dended0 x Hx). lia.
  - intros x Hx. specialize (inv_cended0 x Hx). lia.
  - destruct inv_logged0. split; (eapply Forall_impl; [done|]); simpl; lia.
Qed.

Lemma inv_set_gone s : inv s -> inv (set_peer_gone true s).
Proof. intros []. split; simpl in *; auto. intros H. split; [done|]. by apply inv_dpeer0. Qed.

#[export] Hint Resolve inv_set_error inv_set_dead inv_set_alive inv_set_closed inv_set_cended
  inv_set_clock inv_set_gone : wbmge.

(** The fields both threads may write belong to neither. *)
Class Owner (own : relation shared) : Prop := {
  own_preorder :: PreOrder own;
  own_error s e : own s (on_stats (set_error e) s);
  own_closed s b : own s (on_stats (set_closed_by_peer b) s);
  own_cended s t : own s (on_stats (set_connection_ended_at t) s);
  own_dead s b : own s (set_dead b s)
}.

#[export] Instance sender_owner : Owner sender_fields.
Proof. split; [apply _ | by intros .. ]. Qed.

#[export] Instance drainer_owner : Owner drainer_fields.
Proof. split; [apply _ | by intros .. ]. Qed.

Section Bookkeeping.
Context (mine theirs : relation shared) `{!Owner mine, !Owner theirs}.

Lemma note_triple P message : stable mine P ->
  triple mine theirs P (_note message) (fun _ s => P s).
Proof.
  intros HP. unfold _note. apply (t_read _ _ _ _ (fun _ _ => True)); [done | done |].
  intros [e|]; apply t_pre with P; try tauto.
  - by apply t_ret.
  - apply t_write_last'; [done | | done].
    intros s Hi _. split_and!; [auto with wbmge | by split | apply own_error | apply own_error].
Qed.

Lemma end_connection_triple P message : stable mine P ->
  triple mine theirs P (_end_connection message) (fun _ s => P s).
Proof.
  intros HP. unfold _end_connection. apply (t_read _ _ _ _ (fun _ _ => True)); [done | done |].
  intros t. apply t_pre with P; [tauto|].
  apply (t_bind mine theirs _ _ (fun _ s => P s)).
  - destruct t; [by apply t_ret|].
    apply (t_read _ _ _ _ (fun now s => now <= clock s)); [done | intros; lia |].
    intros now. eapply t_write_last' with (P := fun s => P s /\ now <= clock s).
    + apply stable_and; [done | apply stable_clock].
    + intros s Hi [_ Hn]. split_and!; [auto with wbmge | by split | apply own_cended | apply own_cended].
    + tauto.
  - intros _. apply (t_bind mine theirs _ _ (fun _ s => P s)); [by apply note_triple|].
    intros _. apply t_write_last'; [done | | done].
    intros s Hi _. split_and!; [auto with wbmge | by split | apply own_dead | apply own_dead].
Qed.

Lemma note_peer_close_triple P message : stable mine P ->
  triple mine theirs (fun s => P s /\ peer_gone s = true) (_note_peer_close message) (fun _ s => P s).
Proof.
  intros HP. assert (stable mine (fun s => P s /\ peer_gone s = true)) as HPg.
  { apply stable_and; [done | apply stable_gone]. }
  unfold _note_peer_close. apply (t_bind mine theirs _ _ (fun _ s => P s /\ peer_gone s = true)).
  - apply t_write_last'; [done | | done].
    intros s Hi [_ Hg]. split_and!; [auto with wbmge | by split | apply own_closed | apply own_closed].
  - intros _. eapply t_pre; [|by apply end_connection_triple]. tauto.
Qed.
End Bookkeeping.

(** A connection error that meets a clear [stop_event] comes from the peer:
    this side shuts the socket down only after setting it. *)
Lemma error_is_peer s s' :
  inv s' -> mono s s' -> peer_gone s = true \/ shut s = true -> stop_event s' = false ->
  peer_gone s' = true.
Proof.
  intros Hi [] [Hg | Hs] Hstop; [auto|].
  assert (stop_event s' = true) by (apply (inv_shut _ Hi); auto). congruence.
Qed.

(** ** The sender keeps the invariant *)

Section SenderProof.
Abbreviation T := (triple sender_fields drainer_fields).
Abbreviation stb := (stable sender_fields).

Definition sender_at (l : Z * Z) (s : shared) : Prop :=
  zlen (tx s) = sends (stats s) /\ l.1 = sends (stats s) mod 65535 + 1 /\
  (send_log_truncated (stats s) = false -> zlen (send_times (stats s)) = sends (stats s)).

Definition sender_post (r : option (Z * Z)) (s : shared) : Prop :=
  match r with Some l => sender_at l s | None => True end.

(** [n] requests sent and counted. *)
Definition counted (n : Z) (s : shared) : Prop := sends (stats s) = n.

Lemma sender_at_stable l : stb (sender_at l).
Proof.
  intros s s' _ _ _ (E1 & E2 & E3 & E4 & E5). unfold sender_at. rewrite E1, E2, E3, E5. tauto.
Qed.

Lemma counted_stable n : stb (counted n).
Proof. intros s s' _ _ _ (E1 & _). unfold counted. congruence. Qed.

#[local] Hint Resolve stable_and stable_resp stable_clock stable_gone stable_const
  sender_at_stable counted_stable : core.

(** A completed [sendall] is counted, then logged. *)
Definition sent_at (tid n : Z) (s : shared) : Prop :=
  zlen (tx s) = n + 1 /\ tid = n mod 65535 + 1 /\ sends (stats s) = n /\
  n < responses (stats s) + _MAX_OUTSTANDING /\
  (send_log_truncated (stats s) = false -> zlen (send_times (stats s)) = n).

Definition logged_at (tid n : Z) (s : shared) : Prop :=
  zlen (tx s) = n + 1 /\ tid = n mod 65535 + 1 /\ sends (stats s) = n + 1 /\
  (send_log_truncated (stats s) = false -> zlen (send_times (stats s)) = n).

Lemma sent_at_stable tid n : stb (sent_at tid n).
Proof.
  intros s s' _ _ [] (E1 & E2 & E3 & E4 & E5). unfold sent_at. rewrite E1, E2, E3, E5.
  intros. destruct_and!. split_and!; auto; lia.
Qed.

Lemma logged_at_stable tid n : stb (logged_at tid n).
Proof.
  intros s s' _ _ _ (E1 & E2 & E3 & E4 & E5). unfold logged_at. rewrite E1, E2, E3, E5. tauto.
Qed.
#[local] Hint Resolve sent_at_stable logged_at_stable : core.

Lemma inv_send s req :
  inv s -> make_mbap_request (zlen (tx s) mod 65535 + 1) 1 0x03 0 1 = Ok req ->
  inv (set_tx (tx s ++ [req]) s).
Proof.
  intros [] Hreq. split; simpl in *; auto.
  - rewrite zlen_app. unfold zlen at 2. simpl. lia.
  - assert (nth_request (length (tx s)) = Ok req) as Hn by done.
    rewrite length_app, Nat.add_1_r, seq_S, !fmap_app, inv_tx0. f_equal.
    change ([Ok req] = [nth_request (length (tx s))]). by rewrite Hn.
Qed.

Lemma inv_count n s :
  inv s -> sends (stats s) = n -> zlen (tx s) = n + 1 -> n < responses (stats s) + _MAX_OUTSTANDING ->
  (send_log_truncated (stats s) = false -> zlen (send_times (stats s)) = n) ->
  inv (on_stats (set_sends (n + 1)) s).
Proof.
  intros [] Hn Htx Hback Hlog. split; simpl in *; auto; try lia.
  destruct inv_send_log0 as (? & ? & ?). split_and!; [lia | |].
  - intros Ht. specialize (H0 Ht). lia.
  - intros Ht. specialize (Hlog Ht). lia.
Qed.

Lemma count_and_log tid n next_send :
  T (sent_at tid n)
    (let! n := read (fun s => sends (stats s)) in
     write (on_stats (set_sends (n + 1))) ;!
     let! log := read (fun s => send_times (stats s)) in
     (if zlen log <? _SEND_LOG_MAX then
        let! t := monotonic in
        write (on_stats (set_send_times (log ++ [t])))
      else write (on_stats (set_send_log_truncated true))) ;!
     Ret (Some (tid mod 65535 + 1, next_send)))
    sender_post.
Proof.
  apply (t_read _ _ _ _ (fun v _ => v = n)); [auto | unfold sent_at; tauto |].
  intros v. apply (t_pre _ _ _ (fun s => sent_at tid n s /\ v = n)); [tauto|].
  eapply t_write with (P' := logged_at tid n); [auto | |].
  { intros s Hi [(Htx & Htid & Hn & Hb & Hl) ->].
    split_and!; [by apply inv_count | split; simpl; auto; lia | done | by split_and!]. }
  apply (t_read _ _ _ _ (fun log s => send_times (stats s) = log)); [auto | done |].
  intros log. apply (t_bind _ _ _ _ (fun _ => sender_at (tid mod 65535 + 1, next_send))).
  2: { intros _. apply t_ret; [auto | done]. }
  assert (forall x, tid = n mod 65535 + 1 -> x = tid mod 65535 + 1 -> x = (n + 1) mod 65535 + 1) as Htid.
  { intros x -> ->. by rewrite Zplus_mod_idemp_l. }
  assert (stb (fun s => send_times (stats s) = log)) as Hst.
  { intros s s' _ _ _ (_ & E & _). congruence. }
  destruct (Z.ltb_spec (zlen log) _SEND_LOG_MAX) as [Hlt | Hge].
  - apply (t_read _ _ _ _ (fun t s => t <= clock s)); [auto | intros; lia |]. intros t.
    eapply t_write_last with (P' := sender_at (tid mod 65535 + 1, next_send)); [auto | auto | | done].
    intros s Hi [[(Htx & Ht & Hn & Hl) Hlog] Hnow]. pose proof (inv_send_log _ Hi) as (H1 & H2 & H3).
    rewrite Hlog in *.
    assert (zlen (log ++ [t]) = zlen log + 1) as Hlen by (rewrite zlen_app; done).
    assert (send_log_truncated (stats s) = false -> zlen log + 1 = n + 1) as Hexact.
    { intros Hf. specialize (Hl Hf). lia. }
    split_and!; [| by split | done |].
    + destruct Hi. split; simpl in *; auto; [rewrite Hlen; split_and!; [|auto|]|].
      * destruct (send_log_truncated (stats s)) eqn:Etr; [|specialize (Hl eq_refl); lia].
        specialize (H2 eq_refl). unfold _SEND_LOG_MAX in *. lia.
      * intros Hf. specialize (Hexact Hf). lia.
      * rewrite Hlog in inv_logged0. split; [|apply inv_logged0]. apply Forall_app. split; [apply inv_logged0|by constructor].
    + split_and!; simpl; [lia | rewrite Hn; by apply Htid |].
      intros Hf. rewrite Hlen, Hn. auto.
  - eapply t_write_last with (P' := sender_at (tid mod 65535 + 1, next_send)); [auto | auto | | done].
    intros s Hi [(Htx & Ht & Hn & Hl) Hlog]. pose proof (inv_send_log _ Hi) as (H1 & H2 & H3).
    rewrite Hlog in *. split_and!; [| by split | done |].
    + destruct Hi. split; simpl in *; auto. split_and!; [lia | lia | done].
    + split_and!; simpl; [lia | rewrite Hn; by apply Htid | done].
Qed.

Lemma inv_throttled k s : inv s -> inv (on_stats (set_throttled_ticks k) s).
Proof. keep_inv. Qed.

(** What an exception of a socket call proves once [stop_event] was seen
    clear after it. *)
Lemma send_error_triple e :
  T (fun s => catches ConnectionError e = true -> peer_gone s = true \/ shut s = true)
    (let! stop := read stop_event in
     if (stop : bool) then Ret None else
     let! m := read (fun s => responses (stats s)) in
     (if catches ConnectionError e
      then _note_peer_close (PeerClosedOnSend m e)
      else _end_connection (SendFailed m e)) ;!
     Ret (None : option (Z * Z)))
    sender_post.
Proof.
  apply (t_read _ _ _ _ (fun stop s => stop = false -> catches ConnectionError e = true -> peer_gone s = true)).
  - intros s s' _ _ [] _ H Hc. destruct (H Hc); auto.
  - intros s Hi H Hstop Hc. by eapply (error_is_peer s s); auto.
  - intros [|].
    + apply t_ret; [|done]. intros s s' _ _ [] _ [H H'].
      split; [|done]. intros Hc. destruct (H Hc); auto.
    + apply (t_pre _ _ _ (fun s => catches ConnectionError e = true -> peer_gone s = true)); [tauto|].
      assert (stb (fun s => catches ConnectionError e = true -> peer_gone s = true)) as Hst.
      { intros s s' _ _ [] _ H Hc. auto. }
      apply (t_read _ _ _ _ (fun _ _ => True)); [done | done |]. intros m.
      apply (t_bind _ _ _ _ (fun _ _ => True)); [|intros _; by apply t_ret].
      destruct (catches ConnectionError e) eqn:Ec.
      * eapply t_pre; [|apply note_peer_close_triple; [apply _ | apply _ | apply stable_const]].
        intros s _ [H _]. auto.
      * eapply t_pre; [|apply end_connection_triple; [apply _ | apply _ | apply stable_const]]. done.
Qed.

Lemma send_iter_triple l : T (sender_at l) (send_iter l) sender_post.
Proof.
  destruct l as [tid next_send]. unfold send_iter, monotonic.
  apply (t_read _ _ _ _ (fun _ _ => True)); [auto | done |].
  intros stop. apply (t_pre _ _ _ (sender_at (tid, next_send))); [tauto|].
  destruct stop; [by apply t_ret|].
  apply (t_read _ _ _ _ (fun _ _ => True)); [auto | done |].
  intros gone. apply (t_pre _ _ _ (sender_at (tid, next_send))); [tauto|].
  destruct gone; [by apply t_ret|].
  apply (t_read _ _ _ _ (fun _ _ => True)); [auto | done |].
  intros t. apply (t_pre _ _ _ (sender_at (tid, next_send))); [tauto|].
  destruct (0 <? next_send - t).
  { apply (t_call _ _ _ _ (fun _ => sender_at (tid, next_send))); [auto | | by intros _; apply t_ret].
    intros s r s' Hi Hs Hc. cbn in Hc. subst s'. split_and!; done. }
  apply (t_read _ _ _ _ (fun _ _ => True)); [auto | done |].
  intros now. apply (t_pre _ _ _ (sender_at (tid, next_send))); [tauto|].
  apply (t_read _ _ _ _ counted); [auto | done |]. intros n.
  apply (t_read _ _ _ _ (fun m s => m <= responses (stats s))); [auto | done |]. intros m.
  destruct (Z.leb_spec _MAX_OUTSTANDING (n - m)) as [Hfull | Hroom].
  { apply (t_read _ _ _ _ (fun _ _ => True)); [auto | done |]. intros k.
    apply (t_pre _ _ _ (sender_at (tid, next_send))); [tauto|].
    eapply t_write with (P' := sender_at (tid, next_tick next_send now)); [auto | | by apply t_ret].
    intros s Hi Hs. split_and!; [by apply inv_throttled | by split | done | done]. }
  destruct (make_mbap_request tid 1 3 0 1) as [request|e|] eqn:Ereq;
    [|apply t_ret; [auto | done]..].
  apply (t_call _ _ _ _ (fun r s => match r with
    | Sent => sent_at tid n s
    | SendTimeout => True
    | SendError e => catches ConnectionError e = true -> peer_gone s = true \/ shut s = true
    end)); [auto | |].
  - intros s r s' Hi [[(Htx & Htid & Hl) Hn] Hm] Hc. simpl in Htid. unfold counted in Hn.
    destruct r; simpl in Hc.
    + subst s'. split_and!; [| by split | done |].
      * apply inv_send; [done|]. by rewrite Htx, <- Htid.
      * unfold sent_at. simpl. rewrite zlen_app, Htx, Hn in *. unfold zlen at 1. simpl.
        split_and!; auto; lia.
    + by subst s'.
    + destruct Hc as (-> & _ & Hc). by split_and!.
  - intros [| | e].
    + apply count_and_log.
    + apply (t_read _ _ _ _ (fun _ _ => True)); [auto | done |]. intros k.
      apply (t_bind _ _ _ _ (fun _ _ => True)); [|intros _; by apply t_ret].
      eapply t_pre; [|apply note_triple; [apply _ | apply _ | apply stable_const]]. done.
    + apply send_error_triple.
Qed.
End SenderProof.

(** ** The drainer keeps the invariant *)

Section DrainerProof.
Abbreviation T := (triple drainer_fields sender_fields).
Abbreviation stb := (stable drainer_fields).

(** The bytes read so far are the counted frames, followed by what has been
    read of the next one. *)
Definition received (pending : list Z) (s : shared) : Prop :=
  exists frames, rx s = concat frames ++ pending /\ Forall mbap_frame frames /\
    zlen frames = responses (stats s).

Definition drainer_open (s : shared) : Prop :=
  drainer_ended_at (stats s) = None /\ zlen (response_times (stats s)) <= responses (stats s).

Definition drainer_at (l : dloc) (s : shared) : Prop :=
  drainer_open s /\
  match l with
  | DTop => received [] s
  | DHeader buf => received buf s /\ zlen buf <= 8
  | DBody remaining buf => exists header, received (header ++ buf) s /\ zlen header = 8 /\
      unpack_H (slice 4 6 header) = Ok (remaining + 2) /\ 0 < remaining <= 251 /\ zlen buf <= remaining
  end.

Definition drainer_post (r : option dloc) (s : shared) : Prop :=
  match r with Some l => drainer_at l s | None => True end.

Lemma received_stable p : stb (received p).
Proof.
  intros s s' _ _ _ (E1 & _ & _ & _ & _ & _ & E2). unfold received. by rewrite E1, E2.
Qed.

Lemma drainer_open_stable : stb drainer_open.
Proof.
  intros s s' _ _ _ (E1 & E2 & _ & _ & E & _). unfold drainer_open. by rewrite E, E1, E2.
Qed.

Lemma drainer_at_stable l : stb (drainer_at l).
Proof.
  apply stable_and; [apply drainer_open_stable|].
  intros s s' Hi Hi' Hm Ho. destruct l.
  - by apply received_stable.
  - intros [H ?]. split; [|done]. by apply (received_stable _ s).
  - intros (h & H & ?). exists h. split; [|done]. by apply (received_stable _ s).
Qed.

#[local] Hint Resolve stable_and stable_resp stable_clock stable_gone stable_const
  received_stable drainer_open_stable drainer_at_stable : core.

(** One round of a read: the buffer grows by what was read, and nothing else
    of the drainer changes. *)
Definition recv_post (n : Z) (pre buf : list Z) (r : recv_state) (s : shared) : Prop :=
  drainer_open s /\
  match r with
  | More buf' => received (pre ++ buf') s /\ zlen buf' <= n
  | Got buf' => received (pre ++ buf') s /\ buf' = buf /\ zlen buf' = n
  | NothingRead => True
  | Raised e => catches ConnectionError e = true -> peer_gone s = true \/ shut s = true
  end.

Lemma inv_recv bs s : inv s -> inv (set_rx (rx s ++ bs) s).
Proof.
  intros []. split; simpl in *; auto.
  destruct inv_rx0 as (frames & pending & -> & Hf & Hn). exists frames, (pending ++ bs).
  by rewrite <- app_assoc.
Qed.

Lemma received_more pre buf bs s :
  received (pre ++ buf) s -> received (pre ++ buf ++ bs) (set_rx (rx s ++ bs) s).
Proof.
  intros (frames & E & Hf & Hn). exists frames. simpl. rewrite E, <- !app_assoc. done.
Qed.

Lemma recv_frame_triple n pre buf :
  zlen buf <= n ->
  T (fun s => drainer_open s /\ received (pre ++ buf) s) (recv_frame_iter n buf) (recv_post n pre buf).
Proof.
  intros Hlen. unfold recv_frame_iter.
  destruct (Z.ltb_spec (zlen buf) n) as [Hlt | Hge].
  2: { apply t_ret; [auto|]. intros s _ [Ho Hr]. split; [done|]. split_and!; [done | done | lia]. }
  apply (t_read _ _ _ _ (fun _ _ => True)); [auto | done |].
  intros stop. apply (t_pre _ _ _ (fun s => drainer_open s /\ received (pre ++ buf) s)); [tauto|].
  destruct stop; [apply t_ret; [auto|]; intros s _ [Ho _]; by split|].
  apply (t_call _ _ _ _ (fun r s => drainer_open s /\ match r with
    | Chunk bs => received (pre ++ buf ++ bs) s /\ zlen (buf ++ bs) <= n /\
                  (bs = [] -> peer_gone s = true \/ shut s = true)
    | RecvTimeout => received (pre ++ buf) s
    | RecvError e => catches ConnectionError e = true -> peer_gone s = true \/ shut s = true
    end)); [auto | |].
  - intros s r s' Hi [Ho Hr] Hc. destruct r as [bs | | e]; simpl in Hc.
    + destruct Hc as (-> & Hle & _ & Hend).
      split; [by apply inv_recv|]. split; [by split|]. split; [done|]. split; [done|].
      split_and!; [by apply received_more | rewrite zlen_app; lia | done].
    + by subst s'.
    + destruct Hc as (-> & _ & Hc). by split_and!.
  - intros [bs | | e].
    + assert (stb (fun s => drainer_open s /\ received (pre ++ buf ++ bs) s /\ zlen (buf ++ bs) <= n /\
        (bs = [] -> peer_gone s = true \/ shut s = true))) as Hst.
      { apply stable_and; [auto|]. apply stable_and; [auto|]. apply stable_and; [auto|].
        intros s s' _ _ [] _ H Hbs. destruct (H Hbs); auto. }
      destruct (decide (bs = [])) as [Hbs | Hbs]; apply t_ret; auto.
      * intros s _ (Ho & _ & _ & Hend). split; auto.
      * intros s _ (Ho & Hr & Hle & _). by split.
    + apply (t_read _ _ _ _ (fun _ _ => True)); [auto | done |].
      intros [|]; apply t_ret; auto; intros s _ [[Ho Hr] _]; by split_and!.
    + apply t_ret; [|intros s _ [Ho Hc]; by split].
      apply stable_and; [auto|]. intros s s' _ _ [] _ H Hc. destruct (H Hc); auto.
Qed.

Lemma drainer_end_triple message (peer_closed : bool) :
  T (fun s => peer_closed = true -> peer_gone s = true) (_drainer_end message peer_closed)
    (fun _ _ => True).
Proof.
  assert (stb (fun s => peer_closed = true -> peer_gone s = true)) as Hp.
  { intros s s' _ _ [] _ H Hc. auto. }
  assert (stb (fun s => drainer_closed_by_peer (stats s) = false)) as Hf.
  { intros s s' _ _ _ (_ & _ & _ & _ & _ & E & _). congruence. }
  unfold _drainer_end, monotonic.
  apply (t_read _ _ _ _ (fun t s => drainer_ended_at (stats s) = t)); [done | done |]. intros t.
  apply (t_bind _ _ _ _ (fun _ s => peer_closed = true -> peer_gone s = true)).
  - destruct t as [t|].
    { apply t_ret; [|tauto]. apply stable_and; [done|].
      intros s s' _ _ _ (_ & _ & _ & _ & E & _). congruence. }
    assert (stb (fun s => drainer_ended_at (stats s) = None)) as Hnone.
    { intros s s' _ _ _ (_ & _ & _ & _ & E & _). congruence. }
    apply (t_read _ _ _ _ (fun now s => now <= clock s /\
      (forall a, last_response_at (stats s) = Some a -> a <= now) /\
      drainer_closed_by_peer (stats s) = false)).
    + by apply stable_and.
    + intros s Hi [_ He]. split_and!; [lia | apply (inv_last _ Hi) |].
      destruct (drainer_closed_by_peer (stats s)) eqn:E; [|done].
      by destruct (inv_dpeer _ Hi E).
    + intros now.
      eapply t_write with (P' := fun s => (peer_closed = true -> peer_gone s = true) /\
        drainer_ended_at (stats s) <> None /\ drainer_closed_by_peer (stats s) = false).
      * apply stable_and; [by apply stable_and|]. apply stable_and; [auto|].
        apply stable_and; [|done]. intros s s' _ _ _ (_ & _ & _ & E & _). by rewrite E.
      * intros s Hi ((Hg & He) & Hn & Hl & Hc).
        split_and!; [| split; simpl; auto; try lia; intros; congruence | done | done | done | done].
        destruct Hi. split; simpl in *; auto.
        -- intros ? [= <-]. done.
        -- intros a b Ha [= <-]. auto.
        -- intros H. split; [by apply inv_dpeer0 | done].
      * assert (stb (fun s => drainer_ended_at (stats s) <> None)) as Hsome.
        { intros s s' _ _ _ (_ & _ & _ & _ & E & _). congruence. }
        eapply t_write_last with (P' := fun s => peer_closed = true -> peer_gone s = true);
          [apply stable_and; [done | by apply stable_and] | done | | done].
        intros s Hi (Hg & Hn & Hc). split_and!; [| split; simpl; auto; try lia; intros; congruence | done | done].
        destruct Hi. split; simpl in *; auto.
  - intros _. destruct peer_closed.
    + eapply t_pre; [|apply note_peer_close_triple; [apply _ | apply _ | apply stable_const]].
      intros s _ H. split; [done | by apply H].
    + eapply t_pre; [|apply end_connection_triple; [apply _ | apply _ | apply stable_const]]. done.
Qed.

Lemma drain_except_triple e :
  T (fun s => catches ConnectionError e = true -> peer_gone s = true \/ shut s = true)
    (drain_except e) drainer_post.
Proof.
  unfold drain_except.
  apply (t_read _ _ _ _ (fun stop s => stop = false -> catches ConnectionError e = true -> peer_gone s = true)).
  - intros s s' _ _ [] _ H Hc. destruct (H Hc); auto.
  - intros s Hi H Hstop Hc. by eapply (error_is_peer s s); auto.
  - intros [|].
    + apply t_ret; [|done]. intros s s' _ _ [] _ [H H'].
      split; [|done]. intros Hc. destruct (H Hc); auto.
    + apply (t_pre _ _ _ (fun s => catches ConnectionError e = true -> peer_gone s = true)); [tauto|].
      assert (stb (fun s => catches ConnectionError e = true -> peer_gone s = true)) as Hst.
      { intros s s' _ _ [] _ H Hc. auto. }
      apply (t_read _ _ _ _ (fun _ _ => True)); [done | done |]. intros m.
      apply (t_bind _ _ _ _ (fun _ _ => True)); [|intros _; by apply t_ret].
      destruct (catches ConnectionError e); (eapply t_pre; [|apply drainer_end_triple]); [|done].
      intros s _ [H _]. auto.
Qed.

(** The frame just completed, between the reads that completed it and the
    counter that counts it. *)
Definition uncounted (s : shared) : Prop :=
  drainer_ended_at (stats s) = None /\ exists f, mbap_frame f /\ received f s.

Lemma uncounted_stable : stb uncounted.
Proof.
  intros s s' ? ? ? Ho [H (f & Hf & Hr)]. split.
  - destruct Ho as (_ & _ & _ & _ & E & _). by rewrite E.
  - exists f. split; [done|]. by apply (received_stable f s).
Qed.

Lemma resp_log_stable k : stb (fun s => zlen (response_times (stats s)) <= responses (stats s) + k).
Proof. intros s s' _ _ _ (E1 & E2 & _). by rewrite E1, E2. Qed.
#[local] Hint Resolve uncounted_stable resp_log_stable : core.

Lemma inv_counted s :
  inv s -> uncounted s -> zlen (response_times (stats s)) <= responses (stats s) + 1 ->
  let s' := on_stats (set_responses (responses (stats s) + 1)) s in inv s' /\ received [] s'.
Proof.
  intros [] [_ (f & Hf & frames & E & Hfr & Hn)] Hlog. split.
  - split; simpl in *; auto; try lia. exists (frames ++ [f]), []. split_and!.
    + rewrite E, concat_app. simpl. by rewrite !app_nil_r.
    + apply Forall_app. by repeat constructor.
    + rewrite zlen_app, Hn. unfold zlen. simpl. lia.
  - exists (frames ++ [f]). simpl. split_and!.
    + rewrite E, concat_app. simpl. by rewrite !app_nil_r.
    + apply Forall_app. by repeat constructor.
    + rewrite zlen_app, Hn. done.
Qed.

Lemma drain_count_triple :
  T (fun s => uncounted s /\ zlen (response_times (stats s)) <= responses (stats s) + 0)
    drain_count drainer_post.
Proof.
  unfold drain_count, monotonic.
  apply (t_read _ _ _ _ (fun now s => now <= clock s)); [auto | intros; lia |]. intros now.
  eapply t_write with (P' := fun s => (uncounted s /\
    zlen (response_times (stats s)) <= responses (stats s) + 0) /\ now <= clock s); [auto | |].
  { intros s Hi [[Hu Hl] Hn].
    split_and!; [| split; simpl; auto; try lia; destruct Hu as [Hnone _]; intros; congruence | done | done | done | done].
    destruct Hi. split; simpl in *; auto.
    - intros ? [= <-]. done.
    - intros a b _ Hb. destruct Hu as [Hnone _]. congruence. }
  apply (t_read _ _ _ _ (fun log s => response_times (stats s) = log)); [auto | done |]. intros log.
  apply (t_bind _ _ _ _ (fun _ s => uncounted s /\
    zlen (response_times (stats s)) <= responses (stats s) + 1)).
  { assert (stb (fun s => response_times (stats s) = log)) as Hst.
    { intros s s' _ _ _ (_ & E & _). congruence. }
    destruct (_ <? _).
    - eapply t_write_last with (P' := fun s => uncounted s /\
        zlen (response_times (stats s)) <= responses (stats s) + 1); [auto | auto | | done].
      intros s Hi [[[Hu Hl] Hnow] Hlog]. rewrite Hlog in Hl.
      assert (zlen (log ++ [now]) <= responses (stats s) + 1) as Hlen.
      { rewrite zlen_app. unfold zlen at 2. simpl. lia. }
      split_and!; [| by split | done | done | done].
      destruct Hi. split; simpl in *; auto. rewrite Hlog in inv_logged0. split; [apply inv_logged0|].
      apply Forall_app. split; [apply inv_logged0|by constructor].
    - apply t_ret; [auto|]. intros s _ [[[Hu Hl] _] _]. split; [done | lia]. }
  intros _. apply (t_read _ _ _ _ (fun m s => responses (stats s) = m)); [auto | done |]. intros m.
  assert (stb (fun s => responses (stats s) = m)) as Hst.
  { intros s s' _ _ _ (E & _). congruence. }
  eapply t_write with (P' := fun s => drainer_at DTop s /\ 1 <= responses (stats s)); [auto | |].
  { intros s Hi [[Hu Hl] Hm]. subst m. destruct (inv_counted s Hi Hu Hl) as [Hi' Hr'].
    pose proof (inv_counts _ Hi). destruct Hu as [Hnone _].
    split_and!; [done | split; simpl; auto; lia | done | split_and!; [split; simpl; [done | lia] | done] |].
    simpl. lia. }
  eapply t_write with (P' := drainer_at DTop); [auto | | apply t_ret; [auto | done]].
  intros s Hi [Hat Hpos]. split_and!; [| by split | done | done].
  destruct Hi. by split.
Qed.

Lemma drain_header_triple header :
  zlen header = 8 ->
  T (fun s => drainer_open s /\ received header s) (drain_header header) drainer_post.
Proof.
  intros H8. unfold drain_header.
  assert (stb (fun s => drainer_open s /\ received header s)) as Hst by auto.
  assert (forall e, catches ConnectionError e = false ->
    T (fun s => drainer_open s /\ received header s) (drain_except e) drainer_post) as Hexc.
  { intros e He. eapply t_pre; [|apply drain_except_triple]. intros s _ _ Hc. congruence. }
  destruct (unpack_H (slice 4 6 header)) as [len | e |] eqn:Eh.
  - destruct (Z.leb_spec 2 len), (Z.leb_spec len 253); simpl; try by apply Hexc.
    destruct (Z.ltb_spec 0 (len - 2)).
    + apply t_ret; [done|]. intros s _ [Ho Hr]. split; [done|]. exists header.
      rewrite app_nil_r. split_and!; [done | done | rewrite Eh; f_equal; lia | lia | lia | ].
      unfold zlen. simpl. lia.
    + eapply t_pre; [|apply drain_count_triple]. intros s _ [[Ho Hl] Hr].
      split; [|lia]. split; [done|]. exists header. split; [|done].
      exists len. split_and!; [done | lia | lia | lia].
  - apply Hexc. unfold unpack_H in Eh.
    destruct (slice 4 6 header) as [|? [|? [|? ?]]]; by inversion Eh.
  - by apply t_ret.
Qed.

Lemma drain_iter_triple l : T (drainer_at l) (drain_iter l) drainer_post.
Proof.
  destruct l as [| buf | remaining buf]; unfold drain_iter.
  - apply (t_read _ _ _ _ (fun _ _ => True)); [auto | done |].
    intros [|]; (apply t_ret; [auto|]); [done|].
    intros s _ [[Ho Hr] _]. split; [done|]. split; [done|]. unfold zlen. simpl. lia.
  - intros s Hi [Ho [Hr Hlen]]. revert s Hi Ho Hr.
    enough (T (fun s => drainer_open s /\ received ([] ++ buf) s)
      (let! r := recv_frame_iter 8 buf in
       match r with
       | More buf => Ret (Some (DHeader buf))
       | NothingRead => Ret None
       | Raised e => drain_except e
       | Got header => drain_header header
       end) drainer_post) as H by (intros s Hi Ho Hr; by apply H).
    apply (t_bind _ _ _ _ (recv_post 8 [] buf)); [by apply recv_frame_triple|].
    intros [b | b | | e]; unfold recv_post.
    + apply t_ret; [apply stable_and; auto|]. done.
    + intros s Hi (Ho & Hr & _ & Hb). by apply drain_header_triple.
    + by apply t_ret; auto.
    + eapply t_pre; [|apply drain_except_triple]. tauto.
  - intros s Hi [Ho (header & Hr & H8 & Hh & Hrem & Hlen)]. revert s Hi Ho Hr.
    enough (T (fun s => drainer_open s /\ received (header ++ buf) s)
      (let! r := recv_frame_iter remaining buf in
       match r with
       | More buf => Ret (Some (DBody remaining buf))
       | NothingRead => Ret None
       | Raised e => drain_except e
       | Got _ => drain_count
       end) drainer_post) as H by (intros s Hi Ho Hr; by apply H).
    apply (t_bind _ _ _ _ (recv_post remaining header buf)); [by apply recv_frame_triple|].
    intros [b | b | | e]; unfold recv_post.
    + apply t_ret; [apply stable_and; auto|]. intros s _ (Ho & Hr & Hb). split; [done|]. by exists header.
    + eapply t_pre; [|apply drain_count_triple]. intros s _ ([Ho Hl] & Hr & _ & Hb).
      split; [|lia]. split; [done|]. exists (header ++ b). split; [|done].
      exists (remaining + 2). split_and!; [| lia | lia | rewrite zlen_app; lia].
      rewrite slice_app_l; [done|]. unfold zlen in H8. lia.
    + by apply t_ret; auto.
    + eapply t_pre; [|apply drain_except_triple]. tauto.
Qed.
End DrainerProof.

(** ** The test thread, and the whole system *)

Definition nobody (s s' : shared) : Prop := True.
Definition both (s s' : shared) : Prop := sender_fields s s' /\ drainer_fields s s'.

#[export] Instance nobody_owner : Owner nobody.
Proof. by split. Qed.

#[export] Instance both_owner : Owner both.
Proof.
  split; [split|by intros ..].
  - by intros s.
  - intros a b c [] []. split; by etransitivity.
Qed.

Section MainProof.
Abbreviation T := (triple nobody both).
Abbreviation any := (fun _ : shared => True).

Lemma t_call_quiet {B : Set} {A} (c : call B) (q : B -> prog A) P Q :
  stable nobody P -> (forall s r s', call_spec c s r s' -> s' = s) ->
  (forall r, T P (q r) Q) -> T P (pbind (do_call c) q) Q.
Proof.
  intros HP Hc Hq. apply (t_call _ _ _ _ (fun _ => P)); [done | | done].
  intros s r s' Hi Hs H. apply Hc in H as ->. by split_and!.
Qed.

Lemma t_quiet_write {A} f (q : unit -> prog A) P Q :
  stable nobody P -> (forall s, inv s -> inv (f s) /\ mono s (f s) /\ both s (f s)) ->
  T P (q tt) Q -> T P (pbind (write f) q) Q.
Proof.
  intros HP Hf Hq. apply t_write with P; [done | | done].
  intros s Hi Hs. destruct (Hf s Hi) as (? & ? & ?). split_and!; try done. by apply (HP s).
Qed.

Lemma start_triple : T any start (fun _ => any).
Proof.
  assert (stable nobody any) as Hst by done. unfold start.
  apply t_call_quiet; [done | done |]. intros [e|]; [by apply t_ret|].
  apply t_call_quiet; [done | by intros s r s' [-> _] |]. intros [e|].
  - apply t_quiet_write; [done | by intros; split_and!; auto with wbmge; split|].
    apply t_call_quiet; [done | done |]. intros _.
    apply t_quiet_write; [done | by intros; split_and!; auto with wbmge; split|]. by apply t_ret.
  - apply t_quiet_write; [done | intros s []; split_and!; split; done|].
    apply (t_call _ _ _ _ (fun _ => any)); [done | |].
    { intros s r s' Hi _ Hc. cbn in Hc. subst s'.
      split_and!; [by apply (inv_set_alive Drainer) | by split | done | done]. }
    intros _. apply (t_call _ _ _ _ (fun _ => any)); [done | |].
    { intros s r s' Hi _ Hc. cbn in Hc. subst s'.
      split_and!; [by apply (inv_set_alive Sender) | by split | done | done]. }
    intros _. by apply t_ret.
Qed.

Lemma join_triple P timeout t : stable nobody P -> T P (join_thread timeout t) (fun _ => P).
Proof.
  intros HP. unfold join_thread.
  apply (t_read _ _ _ _ (fun _ _ => True)); [done | done |]. intros [|];
    (apply (t_pre _ _ _ P); [tauto|]); [|by apply t_ret].
  apply t_call_quiet; [done | done |]. intros _.
  apply (t_read _ _ _ _ (fun _ _ => True)); [done | done |]. intros b.
  apply (t_pre _ _ _ P); [tauto|]. by apply t_ret.
Qed.

Lemma stop_triple timeout : T any (stop timeout) (fun _ s => stop_event s = true).
Proof.
  pose proof (stable_stop nobody) as Hst. unfold stop.
  apply t_write with (fun s => stop_event s = true); [done | |].
  { intros s [] _. by split_and!. }
  apply (t_read _ _ _ _ (fun _ _ => True)); [done | done |]. intros sock.
  apply (t_pre _ _ _ (fun s => stop_event s = true)); [tauto|].
  apply (t_bind _ _ _ _ (fun _ s => stop_event s = true)).
  { destruct sock; [|by apply t_ret].
    apply (t_call _ _ _ _ (fun _ s => stop_event s = true)); [done | | by intros _; apply t_ret].
    intros s r s' [] Hstop Hc. cbn in Hc. subst s'. split_and!; [by split | by split | done | done]. }
  intros _. apply (t_bind _ _ _ _ (fun _ s => stop_event s = true)); [by apply join_triple|].
  intros a. apply (t_bind _ _ _ _ (fun _ s => stop_event s = true)); [by apply join_triple|].
  intros b. apply (t_read _ _ _ _ (fun _ _ => True)); [done | done |]. intros sock'.
  apply (t_pre _ _ _ (fun s => stop_event s = true)); [tauto|].
  apply (t_bind _ _ _ _ (fun _ s => stop_event s = true)); [|by intros _; apply t_ret].
  destruct sock'; [|by apply t_ret]. apply t_call_quiet; [done | done |]. intros _. by apply t_ret.
Qed.

Lemma main_triple : T any client_main (fun _ s => stop_event s = true).
Proof.
  apply (t_bind _ _ _ _ (fun _ => any)); [apply start_triple|]. intros _. apply stop_triple.
Qed.
End MainProof.

(** A thread whose round keeps its own assertion. *)
Definition thread_ok {L} (mine theirs : relation shared) (init : shared -> Prop)
    (at_ : L -> shared -> Prop) (post : option L -> shared -> Prop) (t : thread L) (s : shared) : Prop :=
  match t with
  | TNew => init s
  | TAt l => at_ l s
  | TRun p => safe (keeps mine) (keeps theirs) p (fun a s' => inv s' /\ post a s') s
  | TDone => True
  end.

Definition sender_init (s : shared) : Prop :=
  tx s = [] /\ sends (stats s) = 0 /\ send_times (stats s) = [].

Definition drainer_init (s : shared) : Prop :=
  rx s = [] /\ responses (stats s) = 0 /\ response_times (stats s) = [] /\
  drainer_ended_at (stats s) = None.

Abbreviation sender_ok := (thread_ok sender_fields drainer_fields sender_init sender_at sender_post).
Abbreviation drainer_ok := (thread_ok drainer_fields sender_fields drainer_init drainer_at drainer_post).

Record sys_inv (x : sys) : Prop := {
  si_inv : inv (sh x);
  si_main : safe (keeps nobody) (keeps both) (main x) (fun _ s => inv s /\ stop_event s = true) (sh x);
  si_sender : sender_ok (sender x) (sh x);
  si_drainer : drainer_ok (drainer x) (sh x)
}.

Section ThreadStep.
Context {L : Type} (mine theirs : relation shared) `{!PreOrder mine, !PreOrder theirs}.
Context (init : shared -> Prop) (at_ : L -> shared -> Prop) (body : L -> prog (option L)).
Context (post : option L -> shared -> Prop).
Hypothesis init_stable : stable mine init.
Hypothesis at_stable : forall l, stable mine (at_ l).
Hypothesis post_some : forall l s, post (Some l) s -> at_ l s.
Hypothesis body_ok : forall l, triple mine theirs (at_ l) (body l) post.

Lemma thread_rely t s s' :
  inv s -> keeps mine s s' -> thread_ok mine theirs init at_ post t s ->
  thread_ok mine theirs init at_ post t s'.
Proof.
  intros Hi Hk Ht. destruct (Hk Hi) as (Hi' & Hm & Ho). destruct t; simpl in *.
  - by apply (init_stable s).
  - by apply (at_stable l s).
  - apply (safe_rely _ _ p _ s s' Hk Ht).
  - done.
Qed.

Lemma thread_step t s t' s' :
  inv s -> thread_ok mine theirs init at_ post t s -> tstep body t s t' s' ->
  keeps theirs s s' /\ thread_ok mine theirs init at_ post t' s'.
Proof.
  intros Hi Ht Hstep. destruct Hstep as [l s | p s p' s' Hp | l s]; simpl in *.
  - split; [reflexivity|]. by apply body_ok.
  - by apply (safe_pstep _ _ p _ s p' s' Ht Hp).
  - split; [reflexivity|]. apply post_some. by apply (Ht s).
Qed.
End ThreadStep.

Lemma sender_init_stable : stable sender_fields sender_init.
Proof.
  intros s s' _ _ _ (E1 & E2 & _ & _ & E5). unfold sender_init. by rewrite E1, E2, E5.
Qed.

Lemma drainer_init_stable : stable drainer_fields drainer_init.
Proof.
  intros s s' _ _ _ (E1 & E2 & _ & _ & E5 & _ & E7). unfold drainer_init. by rewrite E1, E2, E5, E7.
Qed.

Lemma sender_rely t s s' : inv s -> keeps sender_fields s s' -> sender_ok t s -> sender_ok t s'.
Proof.
  apply thread_rely; [apply _ | apply sender_init_stable | apply sender_at_stable].
Qed.

Lemma drainer_rely t s s' : inv s -> keeps drainer_fields s s' -> drainer_ok t s -> drainer_ok t s'.
Proof.
  apply thread_rely; [apply _ | apply drainer_init_stable | apply drainer_at_stable].
Qed.

Lemma sender_step t s t' s' :
  inv s -> sender_ok t s -> tstep send_iter t s t' s' -> keeps drainer_fields s s' /\ sender_ok t' s'.
Proof. apply thread_step; try apply _; [done | apply send_iter_triple]. Qed.

Lemma drainer_step t s t' s' :
  inv s -> drainer_ok t s -> tstep drain_iter t s t' s' -> keeps sender_fields s s' /\ drainer_ok t' s'.
Proof. apply thread_step; try apply _; [done | apply drain_iter_triple]. Qed.

Lemma keeps_weaken (own own' : relation shared) s s' :
  (own s s' -> own' s s') -> keeps own s s' -> keeps own' s s'.
Proof. intros H Hk Hi. destruct (Hk Hi) as (? & ? & ?). auto. Qed.

(** A step that touches no owned field keeps everybody's assertion. *)
Lemma quiet_step x s' :
  sys_inv x -> keeps both (sh x) s' ->
  inv s' /\ sender_ok (sender x) s' /\ drainer_ok (drainer x) s' /\
  safe (keeps nobody) (keeps both) (main x) (fun _ s => inv s /\ stop_event s = true) s'.
Proof.
  intros [Hi Hm Hs Hd] Hk. split_and!.
  - by apply Hk.
  - eapply sender_rely; [exact Hi | | done]. by apply (keeps_weaken both); [intros []|].
  - eapply drainer_rely; [exact Hi | | done]. by apply (keeps_weaken both); [intros []|].
  - apply (safe_rely _ _ _ _ (sh x)); [|done]. by apply (keeps_weaken both).
Qed.

Lemma sys_inv_step x y : sys_inv x -> sys_step x y -> sys_inv y /\ mono (sh x) (sh y).
Proof.
  intros Hx Hstep. pose proof Hx as [Hi Hm Hs Hd].
  destruct Hstep as [m m' sd dr s s' Hp | m sd sd' dr s s' Ht | m dr s Ha | m dr s
    | m sd dr dr' s s' Ht | m sd s Ha | m sd s | m sd dr s t Ht | m sd dr s]; simpl in *.
  - destruct (safe_pstep _ _ m _ s m' s' Hm Hp) as [Hg Hm'].
    destruct (quiet_step _ s' Hx Hg) as (? & ? & ? & _). split; [by split | by apply Hg].
  - destruct (sender_step sd s sd' s' Hi Hs Ht) as [Hg Hs']. destruct (Hg Hi) as (Hi' & Hmo & _).
    split; [|done]. split; simpl; [done | | done | by apply (drainer_rely dr s)].
    apply (safe_rely _ _ m _ s); [|done]. by apply (keeps_weaken drainer_fields).
  - split; [|done]. split; simpl; try done. destruct Hs as (E1 & E2 & E3). unfold sender_at. simpl.
    rewrite E1, E2, E3. done.
  - assert (keeps both s (set_sender_alive false s)) as Hk.
    { intros _. split_and!; [by apply (inv_set_alive Sender) | by split | done]. }
    destruct (quiet_step _ _ Hx Hk) as (? & _ & ? & ?). split; [by split | by apply Hk].
  - destruct (drainer_step dr s dr' s' Hi Hd Ht) as [Hg Hd']. destruct (Hg Hi) as (Hi' & Hmo & _).
    split; [|done]. split; simpl; [done | | by apply (sender_rely sd s) | done].
    apply (safe_rely _ _ m _ s); [|done]. by apply (keeps_weaken sender_fields).
  - split; [|done]. split; simpl; try done. destruct Hd as (E1 & E2 & E3 & E4). split.
    + split; [done|]. by rewrite E2, E3.
    + exists []. by rewrite E1, E2.
  - assert (keeps both s (set_drainer_alive false s)) as Hk.
    { intros _. split_and!; [by apply (inv_set_alive Drainer) | by split | done]. }
    destruct (quiet_step _ _ Hx Hk) as (? & ? & _ & ?). split; [by split | by apply Hk].
  - assert (keeps both s (set_clock t s)) as Hk.
    { intros _. split_and!; [by apply inv_set_clock | by split | done]. }
    destruct (quiet_step _ _ Hx Hk) as (? & ? & ? & ?). split; [by split | by apply Hk].
  - assert (keeps both s (set_peer_gone true s)) as Hk.
    { intros _. split_and!; [by apply inv_set_gone | by split | done]. }
    destruct (quiet_step _ _ Hx Hk) as (? & ? & ? & ?). split; [by split | by apply Hk].
Qed.

Lemma sys_run_inv x y : sys_inv x -> rtc sys_step x y -> sys_inv y /\ mono (sh x) (sh y).
Proof.
  intros Hx H. revert Hx. induction H as [x|x y z Hxy Hyz IH]; intros Hx; [by split|].
  destruct (sys_inv_step x y Hx Hxy) as [Hy Hm]. destruct (IH Hy) as [Hz Hm'].
  split; [done | by etransitivity].
Qed.

Lemma inv0 t : inv (set_clock t shared0).
Proof.
  split; simpl; try done.
  all: try (unfold zlen; simpl; lia).
  - exists [], []. split_and!; [done | constructor | done].
Qed.

Lemma sys_inv0 t : sys_inv (sys0 t).
Proof. split; simpl; [apply inv0 | apply main_triple; [apply inv0 | done] | by split | by split]. Qed.

(** A state some interleaving of the client's threads, its owner, the peer and
    the clock leads to, from a client made at [t]. *)
Definition reachable (t : Z) : sys -> Prop := rtc sys_step (sys0 t).

Lemma sys_reachable_inv t x : reachable t x -> sys_inv x.
Proof. intros H. by apply (sys_run_inv (sys0 t) x (sys_inv0 t)). Qed.

(** ** Running a schedule

    The same system as a function of a list of moves, for concrete runs. *)

Inductive answer :=
| AExn (o : option exn)
| ARecv (r : recv_result)
| ASend (r : send_result)
| AUnit.

Definition may_break (e : exn) (s : shared) : bool :=
  catches OSError e && (negb (catches ConnectionError e) || peer_gone s || shut s).

Definition call_exec {B : Set} (c : call B) (s : shared) (a : answer) : option (B * shared) :=
  match c in call B return option (B * shared) with
  | CSocket => match a with AExn o => Some (o, s) | _ => None end
  | CConnect =>
      match a with
      | AExn None => Some (None, s)
      | AExn (Some e) => if catches OSError e then Some (Some e, s) else None
      | _ => None
      end
  | CStart Sender => Some (tt, set_sender_alive true s)
  | CStart Drainer => Some (tt, set_drainer_alive true s)
  | CRecv n =>
      match a with
      | ARecv (Chunk bs) =>
          if (zlen bs <=? n) && bool_decide (bytes_ok bs) &&
             (negb (bool_decide (bs = [])) || peer_gone s || shut s)
          then Some (Chunk bs, set_rx (rx s ++ bs) s) else None
      | ARecv RecvTimeout => Some (RecvTimeout, s)
      | ARecv (RecvError e) => if may_break e s then Some (RecvError e, s) else None
      | _ => None
      end
  | CSend req =>
      match a with
      | ASend Sent => Some (Sent, set_tx (tx s ++ [req]) s)
      | ASend SendTimeout => Some (SendTimeout, s)
      | ASend (SendError e) => if may_break e s then Some (SendError e, s) else None
      | _ => None
      end
  | CSleep _ => Some (tt, s)
  | CShutdown => match a with AExn o => Some (o, set_shut true s) | _ => None end
  | CJoin _ _ => Some (tt, s)
  | CClose => match a with AExn o => Some (o, s) | _ => None end
  end.

Definition prog_exec {A} (p : prog A) (s : shared) (a : answer) : option (prog A * shared) :=
  match p with
  | Ret _ => None
  | Atomic f k => Some (k s, f s)
  | Call c k => '(r, s') ← call_exec c s a; Some (k r, s')
  end.

Definition thread_exec {L} (body : L -> prog (option L)) (t : thread L) (s : shared) (a : answer)
  : option (thread L * shared) :=
  match t with
  | TAt l => Some (TRun (body l), s)
  | TRun (Ret (Some l)) => Some (TAt l, s)
  | TRun p => '(p', s') ← prog_exec p s a; Some (TRun p', s')
  | _ => None
  end.

Inductive move :=
| MMain (a : answer)
| MSender (a : answer)
| MDrainer (a : answer)
| MClock (t : Z)
| MPeer.

Definition exec_move (x : sys) (m : move) : option sys :=
  let '(Sys mn sd dr s) := x in
  match m with
  | MMain a => '(p, s') ← prog_exec mn s a; Some (Sys p sd dr s')
  | MSender a =>
      match sd with
      | TNew => if sender_alive s then Some (Sys mn (TAt (1, clock s)) dr s) else None
      | TRun (Ret None) => Some (Sys mn TDone dr (set_sender_alive false s))
      | _ => '(t, s') ← thread_exec send_iter sd s a; Some (Sys mn t dr s')
      end
  | MDrainer a =>
      match dr with
      | TNew => if drainer_alive s then Some (Sys mn sd (TAt DTop) s) else None
      | TRun (Ret None) => Some (Sys mn sd TDone (set_drainer_alive false s))
      | _ => '(t, s') ← thread_exec drain_iter dr s a; Some (Sys mn sd t s')
      end
  | MClock t => if clock s <=? t then Some (Sys mn sd dr (set_clock t s)) else None
  | MPeer => Some (Sys mn sd dr (set_peer_gone true s))
  end.

Fixpoint exec (x : sys) (ms : list move) : option sys :=
  match ms with
  | [] => Some x
  | m :: ms => x' ← exec_move x m; exec x' ms
  end.

Lemma may_break_spec e s :
  may_break e s = true ->
  catches OSError e = true /\ (catches ConnectionError e = true -> peer_gone s = true \/ shut s = true).
Proof.
  unfold may_break. intros [H1 H2]%andb_true_iff. split; [done|]. intros Hc. rewrite Hc in H2.
  apply orb_true_iff in H2. simpl in H2. tauto.
Qed.

Lemma call_exec_sound {B : Set} (c : call B) s a r s' :
  call_exec c s a = Some (r, s') -> call_spec c s r s'.
Proof.
  destruct c as [| | [] | n | req | d | | t d |], a as [[e|] | [bs | | e] | [| | e] |]; simpl; intros H;
    repeat (case_match; try discriminate); simplify_eq; simpl; auto;
    try (split; [done|]); try (by apply may_break_spec); try done.
  - by intros ? [= <-].
  - bool_to_prop. split_and!; [done | done |]. intros ->.
    rewrite bool_decide_eq_true_2 in H0 by done. simpl in H0. tauto.
Qed.

Lemma prog_exec_sound {A} (p : prog A) s a p' s' :
  prog_exec p s a = Some (p', s') -> pstep p s p' s'.
Proof.
  destruct p as [x | f k | B c k]; simpl; intros H; [done | simplify_eq; constructor |].
  destruct (call_exec c s a) as [[r s'']|] eqn:E; simplify_eq/=. constructor. by eapply call_exec_sound.
Qed.

Lemma thread_exec_sound {L} (body : L -> prog (option L)) t s a t' s' :
  thread_exec body t s a = Some (t', s') -> tstep body t s t' s'.
Proof.
  destruct t as [| l | p |]; simpl; intros H; [done | simplify_eq; constructor | | done].
  assert (forall q, q = p -> (forall l, q <> Ret (Some l)) ->
    ('(p', s'') ← prog_exec q s a; Some (TRun p', s'')) = Some (t', s') ->
    tstep body (TRun p) s t' s') as Hrun.
  { intros q -> _ Hq. destruct (prog_exec p s a) as [[p' s'']|] eqn:E; simplify_eq/=.
    constructor. by eapply prog_exec_sound. }
  destruct p as [[l|] | f k | B c k]; [simplify_eq; constructor | by eapply Hrun ..].
Qed.

Lemma exec_move_sound x m y : exec_move x m = Some y -> sys_step x y.
Proof.
  intros E.
  destruct x as [mn sd dr s], m as [a | a | a | t |]; unfold exec_move in E.
  - destruct (prog_exec mn s a) as [[p s']|] eqn:Ep; simplify_eq/=. constructor. by eapply prog_exec_sound.
  - destruct sd as [| l | [[l|] | f k | B c k] |];
      try (destruct (thread_exec send_iter _ s a) as [[t s']|] eqn:Et; [|discriminate E];
           apply thread_exec_sound in Et; injection E as <-; by apply ss_sender).
    + case_match; simplify_eq. by apply ss_sender_start.
    + simplify_eq. apply ss_sender_exit.
  - destruct dr as [| l | [[l|] | f k | B c k] |];
      try (destruct (thread_exec drain_iter _ s a) as [[t s']|] eqn:Et; [|discriminate E];
           apply thread_exec_sound in Et; injection E as <-; by apply ss_drainer).
    + case_match; simplify_eq. by apply ss_drainer_start.
    + simplify_eq. apply ss_drainer_exit.
  - destruct (Z.leb_spec (clock s) t); simplify_eq. by constructor.
  - simplify_eq. apply ss_peer.
Qed.

Lemma exec_sound ms x y : exec x ms = Some y -> rtc sys_step x y.
Proof.
  revert x. induction ms as [|m ms IH]; simpl; intros x H; [simplify_eq; apply rtc_refl|].
  destruct (exec_move x m) as [x'|] eqn:E; [|done]. simpl in H. apply rtc_l with x'; [|auto].
  by apply (exec_move_sound x m).
Qed.

(** C11. The polling client never forges evidence.  In every interleaving of
    the sender, the drainer, the test thread, the peer and the clock: a
    recorded peer close means that the peer really closed, even while the test
    shuts its own socket down; the last response never comes after the end the
    drainer saw, so the interval between the two is one; the end the drainer
    calls a peer close is one it stamped; the first-response event is never
    up while the count is zero; and nothing is stamped in the future: not the
    two ends, not the last response, not one time of the send log or of the
    response log. *)
Theorem evidence_is_sound (t : Z) (x : sys) :
  reachable t x ->
  let st := stats (sh x) in
  (closed_by_peer st = true -> peer_gone (sh x) = true) /\
  (drainer_closed_by_peer st = true -> peer_gone (sh x) = true /\ is_Some (drainer_ended_at st)) /\
  (forall a b, last_response_at st = Some a -> drainer_ended_at st = Some b -> 0 <= b - a) /\
  (first_response st = true -> 1 <= responses st) /\
  (forall e, connection_ended_at st = Some e \/ drainer_ended_at st = Some e \/
             last_response_at st = Some e \/ e ∈ send_times st \/ e ∈ response_times st -> e <= clock (sh x)).
Proof.
  intros Hr st. pose proof (si_inv _ (sys_reachable_inv t x Hr)) as []. split_and!; auto.
  - intros H. destruct (inv_dpeer0 H) as [? Hn]. split; [done|].
    by apply not_eq_None_Some.
  - intros a b Ha Hb. specialize (inv_gap0 a b Ha Hb). lia.
  - destruct inv_logged0 as [Hs Hr']. rewrite Forall_forall in Hs, Hr'. intros e [H | [H | [H | [H | H]]]]; auto.
Qed.

(** Bookkeeping of the polling client, in every interleaving: at most
    1024 requests are outstanding; the requests written are the FC03 requests
    with transaction ids 1, 2, ... wrapping after 65535; no send is counted
    before it was written; unless truncation is flagged, at most the send
    being logged is missing from the send log, and truncation is flagged only
    once 60000 sends were made; the bytes read begin with as many complete
    MBAP frames as responses were counted, and between two frames they are
    exactly those frames. *)
Theorem polling_bookkeeping (t : Z) (x : sys) :
  reachable t x ->
  let s := sh x in let st := stats s in
  sends st - responses st <= _MAX_OUTSTANDING /\
  Ok <$> tx s = nth_request <$> seq 0 (length (tx s)) /\ sends st <= zlen (tx s) /\
  (send_log_truncated st = false -> zlen (send_times st) <= sends st <= zlen (send_times st) + 1) /\
  (send_log_truncated st = true -> _SEND_LOG_MAX <= sends st) /\
  (exists frames pending, rx s = concat frames ++ pending /\ Forall mbap_frame frames /\
     responses st <= zlen frames /\
     (drainer x = TAt DTop -> pending = [] /\ responses st = zlen frames)).
Proof.
  intros Hr. cbv zeta. pose proof (sys_reachable_inv t x Hr) as [Hi _ _ Hd].
  pose proof (inv_rx _ Hi) as (frames & pending & Hrx).
  destruct Hi. split_and!; [lia | done | lia | | tauto |].
  - intros Ht. destruct inv_send_log0 as (? & _ & H). specialize (H Ht). lia.
  - destruct (drainer x) as [| [| buf | rem buf] | p |]; try (by exists frames, pending; destruct_and!; split_and!).
    destruct Hd as [_ (fr & Hrx' & Hf & Hn)]. exists fr, []. split_and!; try done. lia.
Qed.


(** A run: the client sends one request; the drainer reads the reply in three
    pieces with a timeout between them; the peer closes; the test stops the
    client. *)
Definition quiet (n : nat) (m : answer -> move) : list move := replicate n (m AUnit).

Definition one_reply : list move :=
  [MMain (AExn None); MMain (AExn None)] ++ quiet 3 MMain ++
  quiet 8 MSender ++ [MSender (ASend Sent); MClock 7] ++ quiet 6 MSender ++
  quiet 6 MDrainer ++ [MDrainer (ARecv (Chunk [0; 1; 0]))] ++
  quiet 3 MDrainer ++ [MDrainer (ARecv RecvTimeout)] ++
  quiet 4 MDrainer ++ [MDrainer (ARecv (Chunk [0; 0; 5; 1; 3]))] ++
  quiet 5 MDrainer ++ [MDrainer (ARecv (Chunk [2; 0; 9])); MClock 20] ++
  quiet 10 MDrainer.

Definition another_reply (t : Z) : list move :=
  [MClock t] ++ quiet 7 MSender ++ [MSender (ASend Sent)] ++ quiet 6 MSender ++
  quiet 5 MDrainer ++ [MDrainer (ARecv (Chunk [0; 2; 0; 0; 0; 5; 1; 3]))] ++
  quiet 5 MDrainer ++ [MDrainer (ARecv (Chunk [2; 0; 9]))] ++ quiet 10 MDrainer.

Definition peer_closes (t : Z) : list move :=
  [MPeer; MClock t] ++ quiet 5 MDrainer ++ [MDrainer (ARecv (Chunk []))] ++ quiet 13 MDrainer.

Definition run_from (x : sys) (ms : list move) : sys := default x (exec x ms).
Definition after (ms : list move) : sys := run_from (sys0 0) ms.

Lemma run_from_steps x ms :
  match exec x ms with Some _ => true | None => false end = true -> rtc sys_step x (run_from x ms).
Proof.
  unfold run_from. destruct (exec x ms) as [y|] eqn:E; [|done]. intros _. by apply (exec_sound ms).
Qed.

Lemma after_reachable ms :
  match exec (sys0 0) ms with Some _ => true | None => false end = true -> rtc sys_step (sys0 0) (after ms).
Proof. apply run_from_steps. Qed.

Lemma evidence_is_sound_witness : exists x,
  reachable 0 x /\ drainer_closed_by_peer (stats (sh x)) = true /\
  last_response_at (stats (sh x)) = Some 20 /\ drainer_ended_at (stats (sh x)) = Some 25 /\
  peer_gone (sh x) = true.
Proof.
  exists (after (one_reply ++ peer_closes 25)).
  pose proof (after_reachable (one_reply ++ peer_closes 25) eq_refl) as Hr.
  split; [exact Hr|]. split; [reflexivity|]. split; [reflexivity|]. split; [reflexivity|].
  apply (evidence_is_sound 0 _ Hr). reflexivity.
Defined.

Lemma polling_bookkeeping_witness : exists x,
  reachable 0 x /\ responses (stats (sh x)) = 1 /\ drainer x = TAt DTop /\
  exists frames, rx (sh x) = concat frames /\ Forall mbap_frame frames /\ 1 = zlen frames.
Proof.
  exists (after one_reply). pose proof (after_reachable one_reply eq_refl) as Hr.
  split; [exact Hr|]. split; [reflexivity|]. split; [reflexivity|].
  destruct (polling_bookkeeping 0 (after one_reply) Hr) as (_ & _ & _ & _ & _ & fs & p & Hrx & Hf & _ & Hd).
  destruct (Hd eq_refl) as [Hp Hn]. exists fs. rewrite Hp, app_nil_r in Hrx.
  split; [exact Hrx|]. split; [exact Hf | exact Hn].
Defined.

(** ** Stopping *)

(** At most [n] accesses before [p] returns something in [P]. *)
Fixpoint bounded {A} (P : A -> Prop) (n : nat) (p : prog A) : Prop :=
  match p, n with
  | Ret a, _ => P a
  | Atomic f k, S n => forall s, bounded P n (k s)
  | Call c k, S n => forall r, bounded P n (k r)
  | _, O => False
  end.

(** With [stop_event] set, the thread never gets stuck and is over after at
    most [n] steps of its own. *)
Inductive winds_down {L} (body : L -> prog (option L)) : nat -> thread L -> Prop :=
| wd_done n : winds_down body n TDone
| wd_exit n : winds_down body (S n) (TRun (Ret None))
| wd_step n t :
    (forall s, exists t' s', tstep body t s t' s') ->
    (forall s t' s', stop_event s = true -> tstep body t s t' s' -> winds_down body n t') ->
    winds_down body (S n) t.

Lemma winds_down_mono {L} (body : L -> prog (option L)) n m t :
  (n <= m)%nat -> winds_down body n t -> winds_down body m t.
Proof.
  revert m t. induction n as [|n IH]; intros m t Hle H.
  - inversion H. constructor.
  - destruct m as [|m]; [lia|]. inversion H as [| | n' t' Hp Hn]; subst; [constructor | constructor |].
    apply wd_step; [done|]. intros s t' s' Hs Ht. apply IH; [lia | by eapply Hn].
Qed.

Lemma call_answers {B : Set} (c : call B) s : exists r s', call_spec c s r s'.
Proof.
  destruct c as [| | [] | n | req | d | | t d |]; simpl.
  all: try (by exists tt; eexists).
  - by exists None, s.
  - by exists None, s.
  - by exists RecvTimeout, s.
  - by exists SendTimeout, s.
  - by exists None; eexists.
  - by exists None, s.
Qed.

Lemma winds_down_at {L} (body : L -> prog (option L)) n l :
  winds_down body n (TRun (body l)) -> winds_down body (S n) (TAt l).
Proof.
  intros H. apply wd_step.
  - intros s. eexists _, _. constructor.
  - intros s t' s' _ Ht. by inversion Ht; subst.
Qed.

Lemma pstep_inv {A} (p : prog A) s p' s' :
  pstep p s p' s' ->
  match p with
  | Ret _ => False
  | Atomic f k => p' = k s
  | Call c k => exists r, p' = k r
  end.
Proof. intros []; eauto. Qed.

Lemma tstep_run_inv {L} (body : L -> prog (option L)) p s t' s' :
  tstep body (TRun p) s t' s' ->
  (exists p', t' = TRun p' /\ pstep p s p' s') \/ (exists l, p = Ret (Some l) /\ t' = TAt l).
Proof. inversion 1; subst; eauto. Qed.

Lemma winds_down_again {L} (body : L -> prog (option L)) n l :
  winds_down body n (TAt l) -> winds_down body (S n) (TRun (Ret (Some l))).
Proof.
  intros H. apply wd_step.
  - intros s. eexists _, _. apply ts_again.
  - intros s t' s' _ Ht. apply tstep_run_inv in Ht as [(p' & -> & Hp) | (l' & [= <-] & ->)]; [|done].
    by apply pstep_inv in Hp.
Qed.

Lemma winds_down_run {L} (body : L -> prog (option L)) (P : option L -> Prop) k d p :
  (forall l, P (Some l) -> winds_down body k (TAt l)) -> bounded P d p ->
  winds_down body (d + S k) (TRun p).
Proof.
  intros Hk. revert p. induction d as [|d IH]; intros p Hp; (destruct p as [[l|] | f q | B c q]; simpl in Hp;
    [by eapply winds_down_mono, winds_down_again, Hk; [lia|] |
     eapply winds_down_mono with 1%nat; [lia | constructor] | try done ..]).
  - apply wd_step.
    + intros s. eexists _, _. apply ts_step, ps_atomic.
    + intros s t' s' _ Ht. apply tstep_run_inv in Ht as [(p' & -> & Hs) | (l & ? & _)]; [|done].
      apply pstep_inv in Hs as ->. apply IH, Hp.
  - apply wd_step.
    + intros s. destruct (call_answers c s) as (r & s' & Hc). eexists _, _. apply ts_step. by econstructor.
    + intros s t' s' _ Ht. apply tstep_run_inv in Ht as [(p' & -> & Hs) | (l & ? & _)]; [|done].
      apply pstep_inv in Hs as [r ->]. apply IH, Hp.
Qed.

(** The rounds themselves are bounded, whatever they read. *)
Abbreviation anything := (fun _ => True).

Section Bounded.
Context {A B : Type} (P : B -> Prop).

Lemma b_read (f : shared -> A) (q : A -> prog B) n :
  (forall v, bounded P n (q v)) -> bounded P (S n) (pbind (read f) q).
Proof. intros H s. apply H. Qed.

Lemma b_write f (q : unit -> prog B) n : bounded P n (q tt) -> bounded P (S n) (pbind (write f) q).
Proof. by intros H s. Qed.

Lemma b_call {C : Set} (c : call C) (q : C -> prog B) n :
  (forall r, bounded P n (q r)) -> bounded P (S n) (pbind (do_call c) q).
Proof. intros H r. apply H. Qed.

Lemma b_assoc {C} (p : prog A) (q : A -> prog C) (r : C -> prog B) n :
  bounded P n (let! a := p in let! c := q a in r c) -> bounded P n (pbind (pbind p q) r).
Proof.
  revert n. induction p as [a | f k IH | D c k IH]; intros n H; [done | |];
    (destruct n; [done|]); intros x; apply IH, H.
Qed.

Lemma b_ret b n : P b -> bounded P n (Ret b).
Proof. intros H. by destruct n. Qed.
End Bounded.

Ltac solve_bounded :=
  lazymatch goal with
  | |- bounded _ _ (pbind (pbind _ _) _) => apply b_assoc; solve_bounded
  | |- bounded _ _ (pbind (read _) _) => apply b_read; intros ?; solve_bounded
  | |- bounded _ _ (pbind (write _) _) => apply b_write; solve_bounded
  | |- bounded _ _ (pbind (do_call _) _) => apply b_call; intros ?; solve_bounded
  | |- bounded _ _ (pbind (Ret _) _) => cbn [pbind]; solve_bounded
  | |- bounded _ _ (pbind (match ?b with _ => _ end) _) => destruct b; solve_bounded
  | |- bounded _ _ (match ?b with _ => _ end) => destruct b; solve_bounded
  | |- bounded _ _ (Ret _) => apply b_ret; exact I
  | |- _ => idtac
  end.

Lemma send_iter_bounded l : bounded anything 20 (send_iter l).
Proof.
  destruct l as [tid next_send]. unfold send_iter, _note_peer_close, _end_connection, _note, monotonic.
  generalize (make_mbap_request tid 1 3 0 1). intros req. solve_bounded.
Qed.

(** A position from which a round under [stop_event] reads nothing more. *)
Definition fresh_loc (r : option dloc) : Prop :=
  match r with
  | None | Some DTop => True
  | Some (DHeader _) => False
  | Some (DBody remaining buf) => 0 < remaining /\ buf = []
  end.

Lemma drain_except_bounded e : bounded fresh_loc 14 (drain_except e).
Proof.
  unfold drain_except, _drainer_end, _note_peer_close, _end_connection, _note, monotonic. solve_bounded.
Qed.

Lemma drain_count_bounded : bounded fresh_loc 14 drain_count.
Proof. unfold drain_count, monotonic. solve_bounded. Qed.

Lemma drain_header_bounded header : bounded fresh_loc 14 (drain_header header).
Proof.
  unfold drain_header.
  destruct (unpack_H (slice 4 6 header)) as [len | e |]; [|apply drain_except_bounded | done].
  destruct (negb _); [apply drain_except_bounded|].
  destruct (Z.ltb_spec 0 (len - 2)); [done | apply drain_count_bounded].
Qed.

(** With [stop_event] set, a round from anywhere is the last or the last but
    one. *)
Lemma read_stop_ends {L} (body : L -> prog (option L)) l q n :
  body l = pbind (read stop_event) (fun b : bool => if b then Ret None else q) ->
  winds_down body (3 + n) (TAt l).
Proof.
  intros E. apply (winds_down_at _ (2 + n)). rewrite E. apply (wd_step _ (1 + n)).
  - intros s. eexists _, _. apply ts_step, ps_atomic.
  - intros s t' s' Hs Ht. apply tstep_run_inv in Ht as [(p' & -> & Hp) | (l' & ? & _)]; [|done].
    apply pstep_inv in Hp as ->. rewrite Hs. apply (wd_exit _ n).
Qed.

Lemma sender_at_ends l : winds_down send_iter 3 (TAt l).
Proof. destruct l as [tid next_send]. by eapply (read_stop_ends _ _ _ 0). Qed.

Lemma short_read_ends n buf l (k : recv_state -> prog (option dloc)) m :
  zlen buf < n -> drain_iter l = pbind (recv_frame_iter n buf) k -> k NothingRead = Ret None ->
  winds_down drain_iter (3 + m) (TAt l).
Proof.
  intros Hlt E Hk. apply (winds_down_at _ (2 + m)). rewrite E. unfold recv_frame_iter.
  rewrite (proj2 (Z.ltb_lt _ _) Hlt). apply (wd_step _ (1 + m)).
  - intros s. eexists _, _. apply ts_step, ps_atomic.
  - intros s t' s' Hs Ht. apply tstep_run_inv in Ht as [(p' & -> & Hp) | (l' & ? & _)]; [|done].
    apply pstep_inv in Hp as ->. rewrite Hs. cbn [pbind]. rewrite Hk. apply (wd_exit _ m).
Qed.

Lemma fresh_ends l : fresh_loc (Some l) -> winds_down drain_iter 3 (TAt l).
Proof.
  destruct l as [| buf | remaining buf]; simpl; [intros _ | done | intros [Hr ->]].
  - by eapply (read_stop_ends _ _ _ 0).
  - by eapply (short_read_ends remaining [] _ _ 0).
Qed.

Lemma drainer_at_ends l : winds_down drain_iter 19 (TAt l).
Proof.
  destruct l as [| buf | remaining buf].
  - by eapply (read_stop_ends _ _ _ 16).
  - destruct (decide (zlen buf < 8)) as [Hlt | Hge]; [by eapply (short_read_ends 8 buf _ _ 16)|].
    apply (winds_down_at _ 18). unfold drain_iter, recv_frame_iter.
    rewrite (proj2 (Z.ltb_ge (zlen buf) 8)) by lia.
    apply (winds_down_run _ fresh_loc 3 14); [apply fresh_ends | apply drain_header_bounded].
  - destruct (decide (zlen buf < remaining)) as [Hlt | Hge];
      [by eapply (short_read_ends remaining buf _ _ 16)|].
    apply (winds_down_at _ 18). unfold drain_iter, recv_frame_iter.
    rewrite (proj2 (Z.ltb_ge (zlen buf) remaining)) by lia.
    apply (winds_down_run _ fresh_loc 3 14); [apply fresh_ends | apply drain_count_bounded].
Qed.

Lemma bounded_weaken {A} (P Q : A -> Prop) n m p :
  (forall a, P a -> Q a) -> (n <= m)%nat -> bounded P n p -> bounded Q m p.
Proof.
  intros H. revert n m. induction p as [a | f k IH | B c k IH]; intros n m Hle Hp.
  - destruct n, m; apply H, Hp.
  - destruct n as [|n]; [done|]. destruct m as [|m]; [lia|]. intros s. apply (IH s n); [lia | apply Hp].
  - destruct n as [|n]; [done|]. destruct m as [|m]; [lia|]. intros r. apply (IH r n); [lia | apply Hp].
Qed.

Lemma bounded_step {A} (P : A -> Prop) n p s p' s' :
  bounded P n p -> pstep p s p' s' -> bounded P n p'.
Proof.
  intros Hp Hs. apply pstep_inv in Hs. destruct p as [a | f k | B c k]; [done | |];
    (destruct n as [|n]; [done|]).
  - subst p'. apply (bounded_weaken P P n); [done | lia | apply Hp].
  - destruct Hs as [r ->]. apply (bounded_weaken P P n); [done | lia | apply Hp].
Qed.

Lemma recv_frame_bounded n buf : bounded anything 3 (recv_frame_iter n buf).
Proof.
  unfold recv_frame_iter. solve_bounded.
Qed.

#[local] Opaque bounded.

Lemma drain_iter_bounded l : bounded anything 20 (drain_iter l).
Proof.
  destruct l as [| buf | remaining buf]; unfold drain_iter, recv_frame_iter; solve_bounded.
  all: eapply bounded_weaken; [| | first [apply drain_header_bounded | apply drain_except_bounded
    | apply drain_count_bounded]]; [done | lia].
Qed.

Definition short_round {L} (t : thread L) : Prop :=
  match t with TRun p => bounded anything 20 p | _ => True end.

Lemma short_round_step {L} (body : L -> prog (option L)) t s t' s' :
  (forall l, bounded anything 20 (body l)) -> short_round t -> tstep body t s t' s' -> short_round t'.
Proof.
  intros Hb Ht Hstep. destruct Hstep as [l s | p s p' s' Hp | l s]; cbn [short_round] in *;
    [apply Hb | exact (bounded_step _ _ _ _ _ _ Ht Hp) | exact I].
Qed.

Lemma short_rounds t x :
  rtc sys_step (sys0 t) x -> short_round (sender x) /\ short_round (drainer x).
Proof.
  intros H. assert (short_round (sender (sys0 t)) /\ short_round (drainer (sys0 t))) as H0 by done.
  revert H0. induction H as [|x y z Hxy Hyz IH]; [auto|]. intros [Hs Hd]. apply IH.
  destruct Hxy as [ | m sd sd' dr s s' Ht | | | m sd dr dr' s s' Ht | | | |];
    cbn [sender drainer] in *; split; first [exact I | exact Hs | exact Hd | idtac].
  - exact (short_round_step _ _ _ _ _ send_iter_bounded Hs Ht).
  - exact (short_round_step _ _ _ _ _ drain_iter_bounded Hd Ht).
Qed.

Lemma short_round_ends {L} (body : L -> prog (option L)) k t :
  (forall l, winds_down body k (TAt l)) -> short_round t ->
  t = TNew \/ winds_down body (21 + k) t.
Proof.
  intros Hk Ht. destruct t as [| l | p |]; [by left | right ..].
  - by apply (winds_down_mono _ k); [lia|].
  - apply (winds_down_mono _ (20 + S k)); [lia|]. by apply (winds_down_run _ anything).
  - constructor.
Qed.

(** C36. Stopping works from any point.  Whatever the two threads of a
    started client are doing when [stop_event] is set, each of them is over
    after at most 40 further steps of its own and is never stuck, provided
    the socket calls it makes return. *)
Theorem stop_ends_threads (t : Z) (x : sys) :
  reachable t x ->
  (sender x = TNew \/ winds_down send_iter 40 (sender x)) /\
  (drainer x = TNew \/ winds_down drain_iter 40 (drainer x)).
Proof.
  intros H. destruct (short_rounds t x H) as [Hs Hd]. split.
  - destruct (short_round_ends send_iter 3 (sender x) sender_at_ends Hs) as [?|Hw]; [by left | right].
    by apply (winds_down_mono _ 24); [lia|].
  - by apply (short_round_ends drain_iter 19 (drainer x) drainer_at_ends Hd).
Qed.

Lemma stop_ends_threads_witness : exists x,
  reachable 0 x /\ sender x = TAt (2, 20000) /\ drainer x = TAt DTop /\
  winds_down send_iter 40 (sender x) /\ winds_down drain_iter 40 (drainer x).
Proof.
  exists (after one_reply). pose proof (after_reachable one_reply eq_refl) as Hr.
  split; [exact Hr|]. split; [reflexivity|]. split; [reflexivity|].
  destruct (stop_ends_threads 0 (after one_reply) Hr) as [[Hs | Hs] [Hd | Hd]];
    [discriminate Hs | discriminate Hs | discriminate Hd | split; assumption].
Defined.

(** ** The send schedule *)

(** The next tick is neither in the past nor more than an interval away, and
    never sooner than an interval after the previous one was due. *)
Lemma next_tick_spec next_send now :
  next_send <= now ->
  now <= next_tick next_send now <= now + _SEND_INTERVAL_S /\
  next_send + _SEND_INTERVAL_S <= next_tick next_send now.
Proof.
  intros H. unfold next_tick, _SEND_INTERVAL_S. destruct (Z.ltb_spec (next_send + 20000) now); lia.
Qed.

(** The instants at which the schedule lets the sender through. *)
Fixpoint ticks (next_send : Z) (nows : list Z) : Prop :=
  match nows with
  | [] => True
  | now :: nows => next_send <= now /\ ticks (next_tick next_send now) nows
  end.

(** A stalled sender does not catch up in a burst: the k-th tick is at least
    k intervals after the first was due. *)
Lemma no_burst next_send nows k now :
  ticks next_send nows -> nows !! k = Some now ->
  next_send + Z.of_nat k * _SEND_INTERVAL_S <= now.
Proof.
  revert next_send k. induction nows as [|t nows IH]; intros next_send k Hticks Hk; [done|].
  destruct Hticks as [Ht Hn]. destruct k as [|k].
  - simplify_eq/=. lia.
  - pose proof (IH _ k Hn Hk). destruct (next_tick_spec next_send t Ht). lia.
Qed.
