(* ===== verification/DeinitTest.v ===== *)
(** * The cache-server deinit test: api_tests/37_test_cache_server_deinit_hang.py

    The whole item: setup, preconditions, trigger, probe, the guards that
    decide whether the run proved anything, the restore in [finally] and the
    liveness verdict after it.

    The device is a parameter, as in [ApiClient].  The polling client runs on
    its own: [obs k] is the state of the system of [PollingClient] at the k-th
    time the test looks at it, and every read of a statistic, of [is_alive] or
    of the clock is one such look.  The world also keeps the record of the
    client calls with their answers.  Terminal output is not modelled. *)

From Stdlib Require Import QArith.
From stdpp Require Import base list gmap strings relations.
From Stdlib Require Import ZArith Lia.
From S2P Require Import Prelude PyBytes PyStr QemuPorts ApiClient PollLog PollingClient PollingProof.

Open Scope Z_scope.
Open Scope py_scope.

Definition _GUEST_RECV_TIMEOUT_S : Z := 100000.
Definition _CLOSE_GAP_MAX_S : Z := _GUEST_RECV_TIMEOUT_S / 2.
Definition _CLOSE_OBSERVE_MAX_S : Z := 5000000.
Definition _SETTLE_MAX_S : Z := 10000000.
Definition _SETTINGS_HTTP_TIMEOUT : Q * Q := (5, 50)%Q.
Definition CACHE_MODBUS_GUEST_PORT : Z := _GUEST_CACHE_MODBUS.

Section Test.
Context {D : Type} (device : request -> D -> outcome response * D).

Record tworld := TWorld {
  tapi : aworld D;
  obs : nat -> sys;
  looks : nat;
  start_result : option exn;          (* what [client.start()] raises, if it does *)
  client_made : bool;                 (* [client is not None] *)
  stops : nat;                        (* calls of [client.stop()] *)
  wedged : bool;                      (* [wedged_reason is not None] *)
  calls : list exchange                   (* the calls of the client, in order *)
}.

Definition on_api (m : eff (aworld D) response) : eff tworld response := fun w =>
  let (r, a) := m (tapi w) in
  (r, TWorld a (obs w) (looks w) (start_result w) (client_made w) (stops w) (wedged w)
        (calls w ++ [Exchange (looks w) (drop (length (log (tapi w))) (log a)) r])).

(** [time.sleep(d)] *)
Definition tsleep (d : Q) : eff tworld unit := fun w =>
  let (r, a) := asleep d (tapi w) in
  (r, TWorld a (obs w) (looks w) (start_result w) (client_made w) (stops w) (wedged w) (calls w)).

Definition look {A} (f : sys -> A) : eff tworld A := fun w =>
  (Ok (f (obs w (looks w))),
   TWorld (tapi w) (obs w) (S (looks w)) (start_result w) (client_made w) (stops w) (wedged w) (calls w)).

Definition stat {A} (f : pstats -> A) : eff tworld A := look (fun x => f (stats (sh x))).
Definition tnow : eff tworld Z := look (fun x => clock (sh x)).
Definition client_alive : eff tworld bool := look (fun x => drainer_alive (sh x)).

Definition client_start : eff tworld unit := fun w =>
  (match start_result w with None => Ok tt | Some e => Raise e end,
   TWorld (tapi w) (obs w) (looks w) (start_result w) true (stops w) (wedged w) (calls w)).
Definition client_stop : eff tworld unit :=
  modify (fun w => TWorld (tapi w) (obs w) (looks w) (start_result w) (client_made w) (S (stops w)) (wedged w) (calls w)).
Definition set_wedged (b : bool) : eff tworld unit :=
  modify (fun w => TWorld (tapi w) (obs w) (looks w) (start_result w) (client_made w) (stops w) b (calls w)).

Definition assert (b : bool) : eff tworld unit := if b then ret tt else raise AssertionError.
Definition assert_200 (resp : response) : eff tworld unit := assert (status_code resp =? 200).

(** [pytest.skip] with the DETECTOR-DISARMED marker. *)
Definition _skip_detector_disarmed {A} : eff tworld A := raise PytestSkip.

Definition _baseline : eff tworld unit :=
  let* resp := on_api (update_settings device (JObj
    [("cache_modbus_server_enabled", JBool true);
     ("cache_modbus_port", JNum CACHE_MODBUS_GUEST_PORT);
     ("cache_value_timeout_s", JNum 0)])) in
  assert_200 resp.

(** [d.get(k, default)] where [d] must be a dict. *)
Definition dict_get (k : string) (dflt : json) (d : json) : outcome json :=
  match d with
  | JObj fields => Ok (default dflt (jget k fields))
  | _ => Raise AttributeError
  end.

(** Step 1: the settings to put back, and the port mode among them. *)
Definition save_original : eff tworld (json * json) :=
  let* resp := on_api (get_settings device) in
  assert_200 resp ;;;
  let* original_settings := lift (resp_json resp) in
  let* port := lift (dict_get "rs485_1" (JObj []) original_settings) in
  let* original_port_mode := lift (dict_get "port_mode" (JStr "disabled") port) in
  ret (original_settings, original_port_mode).

(** Steps 2-5: serve the cache, feed it from port 1, connect the client. *)
Definition arrange : eff tworld unit :=
  _baseline ;;;
  tsleep 1 ;;;
  let* resp := on_api (set_port_mode_default device 1 (JStr "passive")) in
  assert_200 resp ;;;
  let* resp := on_api (set_port_cache device 1 true) in
  assert_200 resp ;;;
  client_start.

Fixpoint settle_loop (fuel : nat) (n_settle deadline : Z) : eff tworld unit :=
  match fuel with
  | O => block
  | S fuel =>
      let* n := stat responses in
      if n <=? n_settle then
        let* alive := client_alive in
        if (alive : bool) then
          let* t := tnow in
          if t <? deadline then settle_loop fuel n_settle deadline else ret tt
        else ret tt
      else ret tt
  end.

(** Step 6: the guest answers this client, and goes on answering it. *)
Definition preconditions (fuel : nat) : eff tworld unit :=
  let* admitted := stat first_response in
  assert admitted ;;;
  let* n_settle := stat responses in
  let* t := tnow in
  settle_loop fuel n_settle (t + _SETTLE_MAX_S) ;;;
  let* alive := client_alive in
  let* n := stat responses in
  assert (alive && (n_settle <? n)).

(** Steps 7-10: ask the firmware to stop the cache server; the client must
    have survived the request or been closed by the peer. *)
Definition trigger : eff tworld Z :=
  let* _ := stat responses in
  let* t0 := tnow in
  let* resp := on_api (update_settings device (JObj [("cache_modbus_server_enabled", JBool false)])) in
  let* _ := tnow in
  assert_200 resp ;;;
  let* closed := stat closed_by_peer in
  (if (closed : bool) then ret tt
   else
     let* ended := stat connection_ended_at in
     assert (bool_decide (ended = None))) ;;;
  ret t0.

Definition probe_ok (status : Z) (body : option json) : bool :=
  (status =? 200) &&
  match body with
  | Some (JObj fields) => match jget "success" fields with Some (JBool true) => true | _ => false end
  | _ => false
  end.

(** Steps 11-12: the second write blocks until the teardown is over. *)
Definition probe : eff tworld Z :=
  let* _ := tnow in
  let* probe_resp := on_api (session_request device
    (Request POST "/settings" (Some (JObj [("cache_modbus_server_enabled", JBool false)])) _SETTINGS_HTTP_TIMEOUT)) in
  let* t1 := tnow in
  let* _ := stat responses in
  assert (probe_ok (status_code probe_resp) (body_json probe_resp)) ;;;
  ret t1.

Fixpoint close_loop (fuel : nat) (deadline : Z) : eff tworld unit :=
  match fuel with
  | O => block
  | S fuel =>
      let* ended := stat drainer_ended_at in
      match ended with
      | Some _ => ret tt
      | None =>
          let* alive := client_alive in
          if (alive : bool) then
            let* t := tnow in
            if t <? deadline then close_loop fuel deadline else ret tt
          else ret tt
      end
  end.

(** [min(t1, stats.connection_ended_at or t1)]: a zero stamp is false. *)
Definition feed_end (t1 : Z) (ended : option Z) : Z :=
  Z.min t1 (match ended with Some t => if t =? 0 then t1 else t | None => t1 end).

(** Step 13, the measurements: the gap figures and the close gap. *)
Definition measure (t0 t1 : Z) : eff tworld (Z * option Z) :=
  let* ended := stat connection_ended_at in
  let t_feed_end := feed_end t1 ended in
  assert (t0 <? t_feed_end) ;;;
  let* sends := stat send_times in
  let* resps := stat response_times in
  let '(_, _, longest_drained_gap) := _longest_send_gap sends resps t0 t_feed_end in
  let* ended := stat drainer_ended_at in
  match ended with
  | None => ret (longest_drained_gap, None)
  | Some _ =>
      let* last := stat last_response_at in
      match last with
      | None => ret (longest_drained_gap, None)
      | Some _ =>
          let* ended := stat drainer_ended_at in
          let* last := stat last_response_at in
          match ended, last with
          | Some e, Some l => ret (longest_drained_gap, Some (e - l))
          | _, _ => raise TypeError
          end
      end
  end.

(** Guard B: the drainer saw the peer close, soon after the last response. *)
Definition guard_b (close_gap : option Z) : eff tworld unit :=
  let* ended := stat drainer_ended_at in
  (match ended with
   | Some _ => let* c := stat drainer_closed_by_peer in assert c
   | None => ret tt
   end) ;;;
  let* c := stat drainer_closed_by_peer in
  match close_gap with
  | Some gap =>
      if (c : bool) then
        if _CLOSE_GAP_MAX_S <=? gap then _skip_detector_disarmed else ret tt
      else _skip_detector_disarmed
  | None => _skip_detector_disarmed
  end.

(** Guard A: no starving pause while nothing was outstanding. *)
Definition guard_a (longest_drained_gap : Z) : eff tworld unit :=
  let* truncated := stat send_log_truncated in
  if (truncated : bool) then ret tt
  else if _GUEST_RECV_TIMEOUT_S <=? longest_drained_gap then _skip_detector_disarmed else ret tt.

Definition step13 (fuel : nat) (t0 t1 : Z) : eff tworld unit :=
  let* t := tnow in
  close_loop fuel (t + _CLOSE_OBSERVE_MAX_S) ;;;
  let* (drained, close_gap) := measure t0 t1 in
  guard_b close_gap ;;;
  guard_a drained.

Definition body (fuel : nat) : eff tworld unit :=
  arrange ;;;
  preconditions fuel ;;;
  let* t0 := trigger in
  let* t1 := probe in
  step13 fuel t0 t1 ;;;
  client_stop ;;;
  let* resp := on_api (get_settings device) in
  assert_200 resp.

(** [try: m; except Exception: pass] *)
Definition swallow {A} (m : eff tworld A) : eff tworld unit :=
  try_except (m ;;; ret tt) (catches Exception_) (fun _ => ret tt).

(** The [finally] block. *)
Definition restore (original_settings original_port_mode : json) : eff tworld unit :=
  let* w := get in
  (if client_made w then client_stop else ret tt) ;;;
  swallow (on_api (set_port_cache device 1 false)) ;;;
  swallow (on_api (set_port_mode_default device 1 (JStr "disabled"))) ;;;
  swallow (on_api (update_settings device original_settings)) ;;;
  swallow (on_api (set_port_mode_default device 1 original_port_mode)) ;;;
  try_except
    (let* live := on_api (session_request device (Request GET "/settings" None _SETTINGS_HTTP_TIMEOUT)) in
     if negb (status_code live =? 200) then set_wedged true else ret tt)
    (catches Exception_) (fun _ => set_wedged true).

Definition test_cache_server_deinit_with_active_polling (fuel : nat) : eff tworld unit :=
  let* (original_settings, original_port_mode) := save_original in
  try_finally (body fuel) (restore original_settings original_port_mode) ;;;
  let* w := get in
  assert (negb (wedged w)).

(** ** What every part of the test does to the world *)

Record ext (w w' : tworld) : Prop := {
  ext_log : exists l, log (tapi w') = log (tapi w) ++ l;
  ext_obs : obs w' = obs w;
  ext_looks : (looks w <= looks w')%nat;
  ext_made : client_made w = true -> client_made w' = true;
  ext_wedged : wedged w' = wedged w;
  ext_calls : exists l, calls w' = calls w ++ l
}.

#[local] Instance ext_preorder : PreOrder ext.
Proof.
  split.
  - intros w. split; auto; exists []; by rewrite app_nil_r.
  - intros a b c [[l1 L1] ? ? ? ? [m1 M1]] [[l2 L2] ? ? ? ? [m2 M2]]. split; [|congruence|lia|auto|congruence|].
    + exists (l1 ++ l2). by rewrite L2, L1, app_assoc.
    + exists (m1 ++ m2). by rewrite M2, M1, app_assoc.
Qed.

Definition grows {A} (m : eff tworld A) : Prop := forall w, ext w (m w).2.

Lemma grows_bind {A B} (m : eff tworld A) (k : A -> eff tworld B) :
  grows m -> (forall a, grows (k a)) -> grows (bind m k).
Proof.
  intros Hm Hk w. unfold bind. specialize (Hm w). destruct (m w) as [[a|e|] w1]; [|done|done].
  simpl in Hm. etransitivity; [exact Hm | apply Hk].
Qed.

Lemma grows_ret {A} (a : A) : grows (ret a).
Proof. intros w. simpl. reflexivity. Qed.
Lemma grows_raise {A} e : grows (raise (A := A) e).
Proof. intros w. simpl. reflexivity. Qed.
Lemma grows_lift {A} (o : outcome A) : grows (lift o).
Proof. intros w. simpl. reflexivity. Qed.
Lemma grows_block {A} : grows (block (A := A)).
Proof. intros w. simpl. reflexivity. Qed.
Lemma grows_look {A} (f : sys -> A) : grows (look f).
Proof. intros w. split; simpl; auto; exists []; by rewrite app_nil_r. Qed.
Lemma grows_start : grows client_start.
Proof. intros w. split; simpl; auto; exists []; by rewrite app_nil_r. Qed.
Lemma grows_stop : grows client_stop.
Proof. intros w. split; simpl; auto; exists []; by rewrite app_nil_r. Qed.
Lemma grows_assert b : grows (assert b).
Proof. destruct b; [apply grows_ret | apply grows_raise]. Qed.

Lemma grows_api (m : eff (aworld D) response) :
  (forall w, exists l, log (m w).2 = log w ++ l) -> grows (on_api m).
Proof.
  intros H w. unfold on_api. destruct (H (tapi w)) as [l Hl].
  destruct (m (tapi w)) as [r a]. split; simpl in *; eauto.
Qed.

Lemma grows_request q : grows (on_api (session_request device q)).
Proof.
  apply grows_api. intros w. destruct (session_request_spec device q w) as (r & d & t & c & -> & _).
  by exists [q].
Qed.

Lemma grows_mode p m : grows (on_api (set_port_mode_default device p m)).
Proof.
  apply grows_api. intros w. unfold set_port_mode_default, set_port_mode.
  destruct (mode_attempts_spec device 2 (mode_request p m) (1 # 2) w) as (n & r & w' & -> & _ & Hl & _).
  by exists (replicate n (mode_request p m)).
Qed.

Lemma grows_asleep d : grows (tsleep d).
Proof. intros w. split; simpl; auto; exists []; by rewrite app_nil_r. Qed.

#[local] Hint Resolve grows_bind grows_ret grows_raise grows_lift grows_block grows_look grows_start
  grows_stop grows_assert grows_request grows_mode grows_asleep : wbmge.

Ltac grow := repeat first
  [ progress intros | apply grows_bind | apply grows_ret | apply grows_raise | apply grows_lift
  | apply grows_block | apply grows_look | apply grows_start | apply grows_stop | apply grows_assert
  | apply grows_request | apply grows_mode | apply grows_asleep | case_match ].

Lemma settle_loop_grows fuel n d : grows (settle_loop fuel n d).
Proof. induction fuel as [|fuel IH]; cbn [settle_loop]; grow. apply IH. Qed.

Lemma close_loop_grows fuel d : grows (close_loop fuel d).
Proof. induction fuel as [|fuel IH]; cbn [close_loop]; grow. apply IH. Qed.

Lemma measure_grows t0 t1 : grows (measure t0 t1).
Proof. unfold measure. grow. Qed.

Lemma body_grows fuel : grows (body fuel).
Proof.
  unfold body, arrange, _baseline, preconditions, trigger, probe, step13, guard_a, guard_b.
  grow; try apply settle_loop_grows; try apply close_loop_grows; try apply measure_grows.
Qed.

(** ** The restore *)

Hypothesis device_settled : forall q d, settled (device q d).1.
Hypothesis device_exn : forall q d e, (device q d).1 = Raise e -> catches Exception_ e = true.

Definition cache_request (on : bool) : request :=
  Request POST "/ports/1/cache" (Some (JObj [("enabled", JBool on)])) (scalar 10).
Definition settings_request (j : json) : request := Request POST "/settings" (Some j) (scalar 30).
Definition alive_request : request := Request GET "/settings" None _SETTINGS_HTTP_TIMEOUT.

(** The client calls return a response or raise an ordinary exception, and
    leave the rest of the world alone. *)
Definition api_call (m : eff (aworld D) response) (l : list request) (w : tworld) : Prop :=
  exists r a, m (tapi w) = (r, a) /\ log a = log (tapi w) ++ l /\
    ((exists resp, r = Ok resp) \/ (exists e, r = Raise e /\ catches Exception_ e = true)).

Lemma request_call q w : api_call (session_request device q) [q] w.
Proof.
  destruct (session_request_spec device q (tapi w)) as (r & d & t & c & E & Hd & _).
  exists r, (AWorld d (log (tapi w) ++ [q]) c (open_sessions (tapi w)) t (cost (tapi w))).
  split; [done|]. split; [done|].
  pose proof (device_settled q (dev (tapi w))) as Hs. pose proof (device_exn q (dev (tapi w))) as He.
  rewrite Hd in Hs, He. destruct r as [resp | e |]; [left; by exists resp | right; exists e; split; [done | by apply He] | done].
Qed.

Lemma mode_attempts_exn more q s a e :
  (mode_attempts device more q s a).1 = Raise e -> catches Exception_ e = true.
Proof.
  revert a. induction more as [|more IH]; intros a; cbn [mode_attempts]; unfold bind at 1;
    destruct (session_request_spec device q a) as (r & d & t & c & -> & Hd & _);
    pose proof (device_exn q (dev a)) as He; rewrite Hd in He;
    destruct r as [resp | e' |]; try (intros [= ->]; by apply He); try done;
    destruct (negb (transient resp)); try done.
  unfold bind, asleep, modify. apply IH.
Qed.

Lemma mode_call p m w : exists n, (1 <= n <= 3)%nat /\
  api_call (set_port_mode_default device p m) (replicate n (mode_request p m)) w.
Proof.
  unfold set_port_mode_default, set_port_mode.
  destruct (mode_attempts_spec device 2 (mode_request p m) (1 # 2) (tapi w))
    as (n & r & w' & E & Hn & Hl & _).
  exists n. split; [done|]. exists r, w'. split; [done|]. split; [done|].
  pose proof (mode_attempts_settled device 2 (mode_request p m) (1 # 2) (tapi w) device_settled) as Hs.
  pose proof (mode_attempts_exn 2 (mode_request p m) (1 # 2) (tapi w)) as He.
  rewrite E in Hs, He. destruct r as [resp | e |]; [left; by exists resp | right; exists e; split; [done | by apply He] | done].
Qed.

(** Only the API part of the world differs. *)
Definition same_rest (w w' : tworld) : Prop :=
  obs w' = obs w /\ client_made w' = client_made w /\ stops w' = stops w /\ wedged w' = wedged w.

Lemma swallow_call m l w :
  api_call m l w -> exists w', swallow (on_api m) w = (Ok tt, w') /\
    log (tapi w') = log (tapi w) ++ l /\ same_rest w w' /\ calls w `prefix_of` calls w'.
Proof.
  intros (r & a & E & Hl & Hr). unfold swallow, try_except, bind, on_api. rewrite E.
  destruct Hr as [[resp ->] | (e & -> & He)]; [|rewrite He]; eexists; split_and!; try done; by eexists.
Qed.

Definition restore_log (os om : json) (n1 n2 : nat) : list request :=
  [cache_request false] ++ replicate n1 (mode_request 1 (JStr "disabled")) ++ [settings_request os] ++
  replicate n2 (mode_request 1 om) ++ [alive_request].

Lemma restore_spec os om w : exists w' n1 n2,
  restore os om w = (Ok tt, w') /\ (1 <= n1 <= 3)%nat /\ (1 <= n2 <= 3)%nat /\
  log (tapi w') = log (tapi w) ++ restore_log os om n1 n2 /\
  (client_made w = true -> stops w' = S (stops w)) /\ obs w' = obs w /\ client_made w' = client_made w /\
  calls w `prefix_of` calls w'.
Proof.
  unfold restore. unfold bind at 1, get. unfold bind at 1.
  set (w0 := if client_made w then _ else _).
  assert (exists w1, w0 w = (Ok tt, w1) /\ tapi w1 = tapi w /\ client_made w1 = client_made w /\
    obs w1 = obs w /\ (client_made w = true -> stops w1 = S (stops w)) /\ calls w1 = calls w)
    as (w1 & -> & E1 & C1 & O1 & S1 & P1).
  { unfold w0. destruct (client_made w) eqn:Em; eexists; (split; [reflexivity|]); by split_and!. }
  clear w0. unfold bind at 1.
  destruct (swallow_call _ [cache_request false] w1 (request_call _ _)) as (w2 & H2 & L2 & (O2 & C2 & S2 & _) & P2).
  change (session_request device (cache_request false)) with (set_port_cache device 1 false) in H2. rewrite H2.
  unfold bind at 1. destruct (mode_call 1 (JStr "disabled") w2) as (n1 & Hn1 & Hc1).
  destruct (swallow_call _ _ w2 Hc1) as (w3 & -> & L3 & (O3 & C3 & S3 & _) & P3).
  unfold bind at 1.
  destruct (swallow_call _ [settings_request os] w3 (request_call _ _)) as (w4 & H4 & L4 & (O4 & C4 & S4 & _) & P4).
  change (session_request device (settings_request os)) with (update_settings device os) in H4. rewrite H4.
  unfold bind at 1. destruct (mode_call 1 om w4) as (n2 & Hn2 & Hc2).
  destruct (swallow_call _ _ w4 Hc2) as (w5 & -> & L5 & (O5 & C5 & S5 & _) & P5).
  unfold try_except, bind, on_api.
  destruct (request_call alive_request w5) as (r & a & E & L6 & Hr). unfold alive_request in E. rewrite E.
  assert (log a = log (tapi w) ++ restore_log os om n1 n2) as Hlog.
  { rewrite L6, L5, L4, L3, L2, E1. unfold restore_log. by rewrite <- !app_assoc. }
  assert (forall x, calls w `prefix_of` calls w5 ++ [x]) as Hpre.
  { intros x. etransitivity; [|by eexists]. rewrite <- P1. etransitivity; [exact P2|].
    etransitivity; [exact P3|]. by etransitivity. }
  destruct Hr as [[resp ->] | (e & -> & He)]; [destruct (negb _) | rewrite He];
    eexists _, n1, n2; (split; [reflexivity|]); (split; [done|]); (split; [done|]); (split; [done|]);
    cbn [client_made stops obs]; (split; [intros Hm; specialize (S1 Hm); congruence | split_and!; [congruence|congruence|apply Hpre]]).
Qed.

(** ** The test ends

    The clock the test looks at passes every deadline. *)
Definition passing (o : nat -> sys) : Prop :=
  forall T, exists k0, forall k, (k0 <= k)%nat -> T <= clock (sh (o k)).

(** With enough fuel the result no longer depends on it. *)
Definition converges {A} (m : nat -> eff tworld A) : Prop :=
  forall w, passing (obs w) ->
  exists n r w', settled r /\ forall fuel, (n <= fuel)%nat -> m fuel w = (r, w').

Definition settles {A} (m : eff tworld A) : Prop := forall w, settled (m w).1.

Lemma conv_settles {A} (m : eff tworld A) : settles m -> converges (fun _ => m).
Proof.
  intros Hm w _. specialize (Hm w). destruct (m w) as [r w'] eqn:E.
  exists 0%nat, r, w'. split; [done|]. auto.
Qed.

Lemma conv_bind {A B} (m : nat -> eff tworld A) (k : nat -> A -> eff tworld B) :
  converges m -> (forall f, grows (m f)) -> (forall a, converges (fun f => k f a)) ->
  converges (fun f => bind (m f) (k f)).
Proof.
  intros Hm Hg Hk w Hw. destruct (Hm w Hw) as (n1 & r1 & w1 & Hs1 & E1).
  destruct r1 as [a | e |]; [| |done].
  - assert (passing (obs w1)) as Hw1.
    { pose proof (ext_obs _ _ (Hg n1 w)) as Ho. rewrite (E1 n1) in Ho by lia. simpl in Ho. by rewrite Ho. }
    destruct (Hk a w1 Hw1) as (n2 & r2 & w2 & Hs2 & E2). exists (n1 + n2)%nat, r2, w2. split; [done|].
    intros f Hf. unfold bind. rewrite (E1 f) by lia. apply E2. lia.
  - exists n1, (Raise e), w1. split; [done|]. intros f Hf. unfold bind. by rewrite (E1 f).
Qed.

Lemma settles_bind {A B} (m : eff tworld A) (k : A -> eff tworld B) :
  settles m -> (forall a, settles (k a)) -> settles (bind m k).
Proof.
  intros Hm Hk w. unfold bind. specialize (Hm w). destruct (m w) as [[a|e|] w1]; [apply Hk | done | done].
Qed.

Lemma settles_call (m : eff (aworld D) response) :
  (forall w, exists l, api_call m l w) -> settles (on_api m).
Proof.
  intros H w. destruct (H w) as (l & r & a & E & _ & Hr). unfold on_api. rewrite E.
  by destruct Hr as [[resp ->] | (e & -> & _)].
Qed.

Lemma settles_request q : settles (on_api (session_request device q)).
Proof. apply settles_call. intros w. eexists. apply request_call. Qed.

Lemma settles_mode p m : settles (on_api (set_port_mode_default device p m)).
Proof. apply settles_call. intros w. destruct (mode_call p m w) as (n & _ & H). eauto. Qed.

Lemma settles_lift_dict k d j : settles (lift (dict_get k d j)).
Proof. intros w. by destruct j. Qed.

Lemma settles_lift_json r : settles (lift (resp_json r)).
Proof. intros w. unfold lift, resp_json. simpl. by destruct (body_json r). Qed.

Lemma settles_start : settles client_start.
Proof. intros w. unfold client_start. simpl. by destruct (start_result w). Qed.

Lemma settles_assert b : settles (assert b).
Proof. by destruct b. Qed.

Ltac settle := repeat first
  [ progress intros | apply settles_bind | apply settles_request | apply settles_mode
  | apply settles_lift_dict | apply settles_lift_json | apply settles_assert | apply settles_start
  | case_match | (intros ?; done) ].

(** A polling loop that gives up at a deadline. *)
Lemma polling_conv (loop : nat -> eff tworld unit) (T : Z) (round : eff tworld unit -> eff tworld unit) :
  (forall fuel, loop (S fuel) = round (loop fuel)) ->
  (forall w, (exists r w', settled r /\ forall m, round m w = (r, w')) \/
     (exists i w', obs w' = obs w /\ (looks w <= i < looks w')%nat /\ clock (sh (obs w i)) < T /\
        forall m, round m w = m w')) ->
  converges loop.
Proof.
  intros Hloop Hround w Hw. destruct (Hw T) as [k0 Hk0].
  remember (k0 - looks w)%nat as d eqn:Ed. revert w Hw Hk0 Ed.
  induction d as [d IH] using lt_wf_ind. intros w Hw Hk0 ->.
  destruct (Hround w) as [(r & w' & Hs & E) | (i & w' & Ho & Hi & Hlt & E)].
  - exists 1%nat, r, w'. split; [done|]. intros [|f] Hf; [lia|]. by rewrite Hloop, E.
  - assert (i < k0)%nat as Hik.
    { destruct (decide (k0 <= i)%nat) as [H|]; [specialize (Hk0 i H)|]; lia. }
    destruct (IH (k0 - looks w')%nat ltac:(lia) w') as (n & r & w'' & Hs & En); [by rewrite Ho | by rewrite Ho | done |].
    exists (S n), r, w''. split; [done|]. intros [|f] Hf; [lia|]. rewrite Hloop, E. apply En. lia.
Qed.

(** The world after one look. *)
Definition bump (w : tworld) : tworld :=
  TWorld (tapi w) (obs w) (S (looks w)) (start_result w) (client_made w) (stops w) (wedged w) (calls w).

Lemma bind_look {A B} (f : sys -> A) (k : A -> eff tworld B) w :
  bind (look f) k w = k (f (obs w (looks w))) (bump w).
Proof. done. Qed.

Lemma bump_obs w : obs (bump w) = obs w.
Proof. done. Qed.
Lemma bump_looks w : looks (bump w) = S (looks w).
Proof. done. Qed.
Opaque bump.

Ltac looking := unfold stat, client_alive, tnow; repeat rewrite ?bind_bind, ?bind_ret, ?bind_look, ?bump_obs, ?bump_looks.

Lemma settle_loop_conv n d : converges (fun f => settle_loop f n d).
Proof.
  apply (polling_conv _ d (fun m =>
    let* k := stat responses in
    if k <=? n then
      let* alive := client_alive in
      if (alive : bool) then let* t := tnow in if t <? d then m else ret tt else ret tt
    else ret tt)); [done|].
  intros w. set (i := looks w).
  destruct (responses (stats (sh (obs w i))) <=? n) eqn:E1.
  2: { left. exists (Ok tt), (bump w). split; [done|]. intros m. looking. fold i. by rewrite E1. }
  destruct (drainer_alive (sh (obs w (S i)))) eqn:E2.
  2: { left. exists (Ok tt), (bump (bump w)). split; [done|]. intros m.
       looking. fold i. rewrite E1. looking. fold i. by rewrite E2. }
  destruct (clock (sh (obs w (S (S i)))) <? d) eqn:E3.
  - right. exists (S (S i)), (bump (bump (bump w))). rewrite !bump_obs, !bump_looks.
    split_and!; [done | fold i; lia | fold i; lia | by apply Z.ltb_lt |]. intros m.
    looking. fold i. rewrite E1. looking. fold i. rewrite E2. looking. fold i. by rewrite E3.
  - left. exists (Ok tt), (bump (bump (bump w))). split; [done|]. intros m.
    looking. fold i. rewrite E1. looking. fold i. rewrite E2. looking. fold i. by rewrite E3.
Qed.

Lemma close_loop_conv d : converges (fun f => close_loop f d).
Proof.
  apply (polling_conv _ d (fun m =>
    let* ended := stat drainer_ended_at in
    match ended with
    | Some _ => ret tt
    | None =>
        let* alive := client_alive in
        if (alive : bool) then let* t := tnow in if t <? d then m else ret tt else ret tt
    end)); [done|].
  intros w. set (i := looks w).
  destruct (drainer_ended_at (stats (sh (obs w i)))) eqn:E1.
  { left. exists (Ok tt), (bump w). split; [done|]. intros m. looking. fold i. by rewrite E1. }
  destruct (drainer_alive (sh (obs w (S i)))) eqn:E2.
  2: { left. exists (Ok tt), (bump (bump w)). split; [done|]. intros m.
       looking. fold i. rewrite E1. looking. fold i. by rewrite E2. }
  destruct (clock (sh (obs w (S (S i)))) <? d) eqn:E3.
  - right. exists (S (S i)), (bump (bump (bump w))). rewrite !bump_obs, !bump_looks.
    split_and!; [done | fold i; lia | fold i; lia | by apply Z.ltb_lt |]. intros m.
    looking. fold i. rewrite E1. looking. fold i. rewrite E2. looking. fold i. by rewrite E3.
  - left. exists (Ok tt), (bump (bump (bump w))). split; [done|]. intros m.
    looking. fold i. rewrite E1. looking. fold i. rewrite E2. looking. fold i. by rewrite E3.
Qed.

Lemma settles_measure t0 t1 : settles (measure t0 t1).
Proof. unfold measure. settle. Qed.

Lemma arrange_grows : grows arrange.
Proof. unfold arrange, _baseline. grow. Qed.
Lemma trigger_grows : grows trigger.
Proof. unfold trigger. grow. Qed.
Lemma probe_grows : grows probe.
Proof. unfold probe. grow. Qed.
Lemma preconditions_grows fuel : grows (preconditions fuel).
Proof. unfold preconditions. grow. apply settle_loop_grows. Qed.
Lemma step13_grows fuel t0 t1 : grows (step13 fuel t0 t1).
Proof. unfold step13, guard_a, guard_b. grow; first [apply close_loop_grows | apply measure_grows]. Qed.

Lemma preconditions_conv : converges preconditions.
Proof.
  unfold preconditions.
  apply (conv_bind (fun _ => stat first_response) (fun f a => _)); [by apply conv_settles | intros; apply grows_look|].
  intros a. apply (conv_bind (fun _ => assert a) (fun f _ => _)); [apply conv_settles, settles_assert | intros; apply grows_assert|].
  intros _. apply (conv_bind (fun _ => stat responses) (fun f n => _)); [by apply conv_settles | intros; apply grows_look|].
  intros n. apply (conv_bind (fun _ => tnow) (fun f t => _)); [by apply conv_settles | intros; apply grows_look|].
  intros t. apply (conv_bind (fun f => settle_loop f n (t + _SETTLE_MAX_S)) (fun f _ => _));
    [apply settle_loop_conv | intros; apply settle_loop_grows|].
  intros _. apply conv_settles. settle.
Qed.

Lemma step13_conv t0 t1 : converges (fun f => step13 f t0 t1).
Proof.
  unfold step13.
  apply (conv_bind (fun _ => tnow) (fun f t => _)); [by apply conv_settles | intros; apply grows_look|].
  intros t. apply (conv_bind (fun f => close_loop f (t + _CLOSE_OBSERVE_MAX_S)) (fun f _ => _));
    [apply close_loop_conv | intros; apply close_loop_grows|].
  intros _. apply conv_settles. apply settles_bind; [apply settles_measure|].
  unfold guard_a, guard_b. settle.
Qed.

Lemma body_conv : converges body.
Proof.
  unfold body.
  apply (conv_bind (fun _ => arrange) (fun f _ => _)); [| intros; apply arrange_grows|].
  { apply conv_settles. unfold arrange, _baseline. settle. }
  intros _. apply (conv_bind preconditions (fun f _ => _)); [apply preconditions_conv | apply preconditions_grows|].
  intros _. apply (conv_bind (fun _ => trigger) (fun f t0 => _)); [| intros; apply trigger_grows|].
  { apply conv_settles. unfold trigger. settle. }
  intros t0. apply (conv_bind (fun _ => probe) (fun f t1 => _)); [| intros; apply probe_grows|].
  { apply conv_settles. unfold probe. settle. }
  intros t1. apply (conv_bind (fun f => step13 f t0 t1) (fun f _ => _)); [apply step13_conv | intros; apply step13_grows|].
  intros _. apply conv_settles. settle.
Qed.

(** ** The verdict *)

Definition no_skip {A} (m : eff tworld A) : Prop := forall w,
  (forall e, start_result w = Some e -> catches Exception_ e = true) -> (m w).1 <> Raise PytestSkip.

(** What is left of the world's start result is never touched. *)
Definition keeps_start {A} (m : eff tworld A) : Prop := forall w, start_result (m w).2 = start_result w.

Definition plain {A} (m : eff tworld A) : Prop := no_skip m /\ keeps_start m.

Lemma plain_bind {A B} (m : eff tworld A) (k : A -> eff tworld B) :
  plain m -> (forall a, plain (k a)) -> plain (bind m k).
Proof.
  intros [Hm Sm] Hk. split; intros w.
  - intros Hw. unfold bind. specialize (Hm w Hw). specialize (Sm w).
    destruct (m w) as [[a|e|] w1]; simpl in *; [|congruence|done]. apply Hk. by rewrite Sm.
  - unfold bind. specialize (Sm w). destruct (m w) as [[a|e|] w1]; simpl in *; [|done|done].
    by rewrite (proj2 (Hk a)).
Qed.

Lemma plain_ret {A} (a : A) : plain (ret a).
Proof. by split. Qed.
Lemma plain_look {A} (f : sys -> A) : plain (look f).
Proof. by split. Qed.
Lemma plain_block {A} : plain (block (A := A)).
Proof. by split. Qed.
Lemma plain_assert b : plain (assert b).
Proof. by destruct b. Qed.

Lemma plain_start : plain client_start.
Proof.
  split; intros w; [|done]. intros Hw. unfold client_start. simpl.
  destruct (start_result w) as [e|]; [|done]. intros [= ->]. by specialize (Hw _ eq_refl).
Qed.

Lemma plain_call (m : eff (aworld D) response) : (forall w, exists l, api_call m l w) -> plain (on_api m).
Proof.
  intros H. split; intros w; destruct (H w) as (l & r & a & E & _ & Hr); unfold on_api; rewrite E; [|done].
  intros _. destruct Hr as [[resp ->] | (e & -> & He)]; [done|]. simpl. intros [= ->]. discriminate He.
Qed.

Lemma plain_request q : plain (on_api (session_request device q)).
Proof. apply plain_call. intros w. eexists. apply request_call. Qed.

Lemma plain_mode p m : plain (on_api (set_port_mode_default device p m)).
Proof. apply plain_call. intros w. destruct (mode_call p m w) as (n & _ & H). eauto. Qed.

Lemma plain_asleep d : plain (tsleep d).
Proof. by split. Qed.

Ltac plainly := repeat first
  [ progress intros | apply plain_bind | apply plain_ret | apply plain_look | apply plain_block
  | apply plain_assert | apply plain_start | apply plain_request | apply plain_mode | apply plain_asleep
  | case_match ].

Lemma settle_loop_plain fuel n d : plain (settle_loop fuel n d).
Proof. induction fuel as [|fuel IH]; cbn [settle_loop]; plainly. apply IH. Qed.

Definition start_ok (w : tworld) : Prop :=
  forall e, start_result w = Some e -> catches Exception_ e = true.

(** The two outcomes that do not accuse the firmware. *)
Definition not_failed (o : outcome unit) : Prop := o = Ok tt \/ o = Raise PytestSkip.

(** A step that never skips must have returned when the whole did not fail. *)
Lemma plain_then {A} (m : eff tworld A) (k : A -> eff tworld unit) w :
  plain m -> start_ok w -> not_failed (bind m k w).1 ->
  exists a w1, m w = (Ok a, w1) /\ not_failed (k a w1).1 /\ start_ok w1.
Proof.
  intros [Hm Sm] Hw. unfold bind. specialize (Hm w Hw). specialize (Sm w).
  destruct (m w) as [[a|e|] w1]; simpl in *.
  - intros H. exists a, w1. split_and!; [done | done |]. intros e He. apply Hw. by rewrite <- Sm.
  - intros [[=] | [= ->]]. done.
  - intros [[=] | [=]].
Qed.

Definition probe_request : request :=
  Request POST "/settings" (Some (JObj [("cache_modbus_server_enabled", JBool false)])) _SETTINGS_HTTP_TIMEOUT.

Definition stop_request : request :=
  Request POST "/settings" (Some (JObj [("cache_modbus_server_enabled", JBool false)])) (scalar 30).

(** One request, answered: what the world keeps of it. *)
Lemma on_api_ok q w resp w' :
  on_api (session_request device q) w = (Ok resp, w') ->
  calls w' = calls w ++ [Exchange (looks w) [q] (Ok resp)] /\ looks w' = looks w /\ obs w' = obs w.
Proof.
  unfold on_api. destruct (session_request_spec device q (tapi w)) as (r & d & t & c & -> & _).
  intros [= -> <-]. cbn [calls looks obs log]. by rewrite drop_app_length.
Qed.

(** A step that only looks. *)
Definition looks_only {A} (m : eff tworld A) : Prop := forall w,
  calls (m w).2 = calls w /\ obs (m w).2 = obs w /\ (looks w <= looks (m w).2)%nat.

Lemma looks_only_bind {A B} (m : eff tworld A) (k : A -> eff tworld B) :
  looks_only m -> (forall a, looks_only (k a)) -> looks_only (bind m k).
Proof.
  intros Hm Hk w. unfold bind. specialize (Hm w). destruct (m w) as [[a|e|] w1]; [|done|done].
  destruct (Hk a w1) as (C & O & L), Hm as (C1 & O1 & L1). cbn in *. split_and!; [congruence|congruence|lia].
Qed.
Lemma looks_only_look {A} (f : sys -> A) : looks_only (look f).
Proof. intros w. cbn. split_and!; [done|done|lia]. Qed.
Lemma looks_only_ret {A} (a : A) : looks_only (ret a).
Proof. intros w. by cbn. Qed.
Lemma looks_only_assert b : looks_only (assert b).
Proof. by destruct b. Qed.

Ltac only_looking := repeat first
  [ apply looks_only_bind; [|intros ?] | apply looks_only_look | apply looks_only_ret | apply looks_only_assert
  | match goal with |- looks_only (if ?b then _ else _) => destruct b end ].

(** The trigger: the stop request was answered 200; [t0] is the look before it. *)
Lemma trigger_returns w t0 w' : trigger w = (Ok t0, w') ->
  exists resp, calls w' = calls w ++ [Exchange (S (S (looks w))) [stop_request] (Ok resp)] /\
    status_code resp = 200 /\ obs w' = obs w /\ t0 = clock (sh (obs w (S (looks w)))).
Proof.
  unfold trigger. looking. intros H. apply bind_ok in H as (resp & w1 & E & H).
  apply on_api_ok in E as (C & L & O). fold stop_request in C. rewrite ?bump_obs, ?bump_looks in *.
  apply bind_ok in H as (u & w2 & E2 & H). injection E2 as _ <-.
  apply bind_ok in H as ([] & w3 & E3 & H). unfold assert_200, assert in E3.
  destruct (Z.eqb_spec (status_code resp) 200) as [Es|]; [|done]. injection E3 as <-.
  apply bind_ok in H as (closed & w4 & E4 & H). injection E4 as _ <-.
  apply bind_ok in H as (v & w5 & E5 & H). injection H as <- <-.
  match type of E5 with ?m ?x = _ => assert (looks_only m) as Hr by only_looking; destruct (Hr x) as (C2 & O2 & _) end.
  rewrite E5 in C2, O2. cbn in C2, O2. exists resp. rewrite C2, O2. split_and!; [exact C|done|done|done].
Qed.

(** The probe: accepted; [t1] is the first look after its answer. *)
Lemma probe_returns w t1 w' : probe w = (Ok t1, w') ->
  exists resp, calls w' = calls w ++ [Exchange (S (looks w)) [probe_request] (Ok resp)] /\
    probe_ok (status_code resp) (body_json resp) = true /\ obs w' = obs w /\
    t1 = clock (sh (obs w (S (looks w)))) /\ looks w' = S (S (S (looks w))).
Proof.
  unfold probe. looking. intros H. apply bind_ok in H as (resp & w1 & E & H).
  apply on_api_ok in E as (C & L & O). fold probe_request in C. rewrite ?bump_obs, ?bump_looks in *.
  revert H. looking. rewrite L, O. unfold assert.
  destruct (probe_ok _ _) eqn:Ep; [|done]. rewrite bind_ret. intros [= <- <-].
  exists resp. rewrite ?bump_obs, ?bump_looks, L, O. split_and!; [exact C|done..].
Qed.

(** The run asked the server to stop, and then probed it: the requests, their
    answers, and the looks [k0] and [k1] they came before.  [r] is what the
    looks after the probe then showed. *)
Definition probed (o : nat -> sys) (made : list exchange) (r : Z -> Z -> nat -> Prop) : Prop :=
  exists before k0 stopped k1 accepted after,
    made = before ++ Exchange (S k0) [stop_request] (Ok stopped) ::
                     Exchange k1 [probe_request] (Ok accepted) :: after /\
    status_code stopped = 200 /\ probe_ok (status_code accepted) (body_json accepted) = true /\
    r (clock (sh (o k0))) (clock (sh (o k1))) k1.

Lemma body_not_failed fuel w :
  start_ok w -> not_failed (body fuel w).1 ->
  exists made, calls (body fuel w).2 = calls w ++ made /\
    probed (obs w) made (fun t0 t1 k1 => (body fuel w).1 = Ok tt ->
      exists w5 u w6, obs w5 = obs w /\ looks w5 = S (S k1) /\ step13 fuel t0 t1 w5 = (Ok u, w6)).
Proof.
  intros Hw H. unfold body in *.
  set (rest5 := fun t0 t1 => (step13 fuel t0 t1 ;;; client_stop ;;;
    let* resp := on_api (get_settings device) in assert_200 resp)).
  set (rest3 := let* t0 := trigger in let* t1 := probe in rest5 t0 t1).
  change (not_failed ((arrange ;;; preconditions fuel ;;; rest3) w).1) in H.
  change (exists made, calls ((arrange ;;; preconditions fuel ;;; rest3) w).2 = calls w ++ made /\
    probed (obs w) made (fun t0 t1 k1 => ((arrange ;;; preconditions fuel ;;; rest3) w).1 = Ok tt ->
      exists w5 u w6, obs w5 = obs w /\ looks w5 = S (S k1) /\ step13 fuel t0 t1 w5 = (Ok u, w6))).
  apply plain_then in H as (u & w1 & E1 & H & Hw1); [|unfold arrange, _baseline; plainly|done].
  apply plain_then in H as (u' & w2 & E2 & H & Hw2);
    [|unfold preconditions; plainly; apply settle_loop_plain|done].
  apply plain_then in H as (t0 & w3 & E3 & H & Hw3); [|unfold trigger; plainly|done].
  apply plain_then in H as (t1 & w4 & E4 & _ & _); [|unfold probe; plainly|done].
  assert ((arrange ;;; preconditions fuel ;;; rest3) w = rest5 t0 t1 w4) as ->.
  { unfold bind at 1. rewrite E1. unfold bind at 1. rewrite E2. unfold rest3, bind at 1. rewrite E3.
    unfold bind at 1. by rewrite E4. }
  pose proof (arrange_grows w) as G1. rewrite E1 in G1. cbn [snd] in G1.
  pose proof (preconditions_grows fuel w1) as G2. rewrite E2 in G2. cbn [snd] in G2.
  pose proof (transitivity G1 G2) as [_ O2 _ _ _ [m1 M1]].
  destruct (trigger_returns _ _ _ E3) as (r0 & C3 & S0 & O3 & T0).
  destruct (probe_returns _ _ _ E4) as (r1 & C4 & S1 & O4 & T1 & L4).
  assert (grows (rest5 t0 t1)) as G5.
  { unfold rest5. apply grows_bind; [apply step13_grows|grow]. }
  destruct (ext_calls _ _ (G5 w4)) as [m5 M5].
  exists (m1 ++ Exchange (S (S (looks w2))) [stop_request] (Ok r0) ::
    Exchange (S (looks w3)) [probe_request] (Ok r1) :: m5).
  split; [rewrite M5, C4, C3, M1; by rewrite <- !app_assoc|].
  exists m1, (S (looks w2)), r0, (S (looks w3)), r1, m5. split_and!; [done|done|done|]. intros Hok.
  exists w4. unfold rest5, bind at 1 in Hok. assert (obs w4 = obs w) as O by congruence.
  rewrite <- O2, <- T0, O2. replace (obs w (S (looks w3))) with (obs w3 (S (looks w3))) by congruence. rewrite <- T1.
  destruct (step13 fuel t0 t1 w4) as [[v|e|] w6]; [|done|done]. exists v, w6. split_and!; [done|lia|done].
Qed.

Lemma test_ends fuel w os om w1 :
  save_original w = (Ok (os, om), w1) -> settled (body fuel w1).1 ->
  exists w2 w' n1 n2,
    body fuel w1 = ((body fuel w1).1, w2) /\ restore os om w2 = (Ok tt, w') /\
    (1 <= n1 <= 3)%nat /\ (1 <= n2 <= 3)%nat /\
    log (tapi w') = log (tapi w2) ++ restore_log os om n1 n2 /\
    (client_made w' = true -> (0 < stops w')%nat) /\ calls w2 `prefix_of` calls w' /\
    test_cache_server_deinit_with_active_polling fuel w =
      (match (body fuel w1).1 with
       | Ok _ => if wedged w' then Raise AssertionError else Ok tt
       | Raise e => Raise e
       | Blocked => Blocked
       end, w').
Proof.
  intros Hs Hb. unfold test_cache_server_deinit_with_active_polling. unfold bind at 1. rewrite Hs.
  destruct (body fuel w1) as [r w2] eqn:Eb. simpl in Hb.
  destruct (restore_spec os om w2) as (w' & n1 & n2 & Er & Hn1 & Hn2 & Hl & Hst & _ & Hm & Hpre).
  exists w2, w', n1, n2. split_and!; try done; try lia.
  - intros Hc. rewrite Hm in Hc. rewrite (Hst Hc). lia.
  - unfold bind at 1, try_finally. rewrite Eb. simpl.
    destruct r as [[] | e |]; [|by rewrite Er|done]. rewrite Er. unfold bind, get, assert.
    by destruct (wedged w').
Qed.

(** ** What a pass is evidence of *)

(** The looks are states of one run of the polling client, in order. *)
Definition run_of (o : nat -> sys) : Prop :=
  (exists t, rtc sys_step (sys0 t) (o 0%nat)) /\ forall k, rtc sys_step (o k) (o (S k)).

Lemma run_inv o i : run_of o -> sys_inv (o i).
Proof.
  intros [[t H0] Hs]. induction i as [|i IH]; [by apply (sys_reachable_inv t)|].
  by apply (sys_run_inv (o i) (o (S i)) IH).
Qed.

Lemma run_mono o i j : run_of o -> (i <= j)%nat -> mono (sh (o i)) (sh (o j)).
Proof.
  intros Ho Hle. induction Hle as [|j Hle IH]; [reflexivity|].
  etransitivity; [exact IH|]. apply (sys_run_inv (o j) (o (S j))); [by apply run_inv | apply Ho].
Qed.

Lemma measure_ok t0 t1 w drained g w' :
  measure t0 t1 w = (Ok (drained, Some g), w') ->
  let o := obs w in let k := looks w in
  let te := feed_end t1 (connection_ended_at (stats (sh (o k)))) in
  obs w' = o /\ looks w' = (k + 7)%nat /\ t0 < te /\
  drained = (_longest_send_gap (send_times (stats (sh (o (k + 1)%nat))))
               (response_times (stats (sh (o (k + 2)%nat)))) t0 te).2 /\
  exists e l, drainer_ended_at (stats (sh (o (k + 5)%nat))) = Some e /\
    last_response_at (stats (sh (o (k + 6)%nat))) = Some l /\ g = e - l.
Proof.
  cbv zeta. rewrite !Nat.add_succ_r, Nat.add_0_r. unfold measure. looking. unfold assert.
  destruct (Z.ltb_spec t0 (feed_end t1 (connection_ended_at (stats (sh (obs w (looks w)))))))
    as [Hlt | Hge]; [|done].
  looking. destruct (_longest_send_gap _ _ _ _) as [[n gap] dr] eqn:Eg. looking.
  destruct (drainer_ended_at (stats (sh (obs w (S (S (S (looks w)))))))); [|done]. looking.
  destruct (last_response_at (stats (sh (obs w (S (S (S (S (looks w))))))))); [|done]. looking.
  destruct (drainer_ended_at (stats (sh (obs w (S (S (S (S (S (looks w)))))))))) as [e|] eqn:Ee; [|done].
  destruct (last_response_at (stats (sh (obs w (S (S (S (S (S (S (looks w))))))))))) as [l|] eqn:El; [|done].
  intros H. injection H as <- <- <-. rewrite !bump_obs, !bump_looks.
  split_and!; try done; try lia. by exists e, l.
Qed.

Lemma measure_none t0 t1 w drained w' w'' u :
  measure t0 t1 w = (Ok (drained, None), w') -> guard_b None w' <> (Ok u, w'').
Proof.
  intros _. unfold guard_b. looking.
  destruct (drainer_ended_at (stats (sh (obs w' (looks w'))))); looking; unfold assert; [|done].
  destruct (drainer_closed_by_peer (stats (sh (obs w' (S (looks w')))))); looking; done.
Qed.

Lemma guard_b_ok g w u w' :
  guard_b (Some g) w = (Ok u, w') ->
  obs w' = obs w /\ g < _CLOSE_GAP_MAX_S /\
  exists j, (looks w <= j)%nat /\ (j < looks w')%nat /\ drainer_closed_by_peer (stats (sh (obs w j))) = true.
Proof.
  unfold guard_b. looking.
  destruct (drainer_ended_at (stats (sh (obs w (looks w))))) as [e|]; looking; unfold assert.
  - destruct (drainer_closed_by_peer (stats (sh (obs w (S (looks w)))))) eqn:Ec; [|done]. looking.
    destruct (drainer_closed_by_peer (stats (sh (obs w (S (S (looks w))))))) eqn:Ec2; [|done].
    destruct (Z.leb_spec _CLOSE_GAP_MAX_S g); [done|]. intros H1. injection H1 as _ <-.
    rewrite !bump_obs, !bump_looks. split_and!; [done | done |]. exists (S (S (looks w))). split_and!; [lia | lia | done].
  - destruct (drainer_closed_by_peer (stats (sh (obs w (S (looks w)))))) eqn:Ec2; [|done].
    destruct (Z.leb_spec _CLOSE_GAP_MAX_S g); [done|]. intros H1. injection H1 as _ <-.
    rewrite !bump_obs, !bump_looks. split_and!; [done | done |]. exists (S (looks w)). split_and!; [lia | lia | done].
Qed.

Lemma guard_a_ok g w u w' :
  guard_a g w = (Ok u, w') ->
  send_log_truncated (stats (sh (obs w (looks w)))) = true \/ g < _GUEST_RECV_TIMEOUT_S.
Proof.
  unfold guard_a. looking.
  destruct (send_log_truncated (stats (sh (obs w (looks w))))); [by left|].
  destruct (Z.leb_spec _GUEST_RECV_TIMEOUT_S g); [done | by right].
Qed.

(** Evidence in the statistics of one look [k] of the run. *)
Definition fast_peer_close (x : sys) : Prop := exists e l,
  drainer_closed_by_peer (stats (sh x)) = true /\ peer_gone (sh x) = true /\
  last_response_at (stats (sh x)) = Some l /\ drainer_ended_at (stats (sh x)) = Some e /\
  0 <= e - l < _CLOSE_GAP_MAX_S.

Lemma step13_ok fuel t0 t1 w u w' :
  step13 fuel t0 t1 w = (Ok u, w') -> run_of (obs w) ->
  exists k te, (looks w <= k)%nat /\ fast_peer_close (obs w k) /\ t0 < te <= t1 /\
  ((exists j, (looks w <= j)%nat /\ send_log_truncated (stats (sh (obs w j))) = true) \/
   exists i1 i2, (looks w <= i1)%nat /\ (looks w <= i2)%nat /\ forall a b,
     causal (send_times (stats (sh (obs w i1)))) (response_times (stats (sh (obs w i2)))) ->
     drained_interval (send_times (stats (sh (obs w i1)))) (response_times (stats (sh (obs w i2)))) t0 te a b ->
     b - a < _GUEST_RECV_TIMEOUT_S).
Proof.
  intros H Ho. unfold step13, tnow in H. rewrite bind_look in H.
  apply bind_ok in H as (v & w1 & Hc & H).
  pose proof (close_loop_grows fuel (clock (sh (obs w (looks w))) + _CLOSE_OBSERVE_MAX_S) (bump w)) as [_ O1 L1 _ _ _].
  rewrite Hc in O1, L1. cbn [snd] in O1, L1. rewrite bump_obs in O1. rewrite bump_looks in L1.
  apply bind_ok in H as ([drained gap] & w2 & Hm & H). apply bind_ok in H as (v' & w3 & Hb & Ha).
  destruct gap as [g|]; [|by apply measure_none with (w'' := w3) (u := v') in Hm].
  destruct (measure_ok t0 t1 w1 drained g w2 Hm) as (O2 & L2 & Hte & Hd & e & l & He & Hl & ->).
  destruct (guard_b_ok _ w2 v' w3 Hb) as (O3 & Hgap & j & Hj & Hj3 & Hcl).
  apply guard_a_ok in Ha. rewrite O3, O2, O1 in Ha. rewrite O2, O1 in Hcl. rewrite O1 in He, Hl, Hd, Hte.
  set (k := looks w1) in *. set (o := obs w) in *.
  exists j, (feed_end t1 (connection_ended_at (stats (sh (o k))))). split; [lia|]. split; [|split].
  - exists e, l. pose proof (run_mono o (k + 5) j Ho ltac:(lia)) as M5.
    pose proof (run_mono o (k + 5) (k + 6) Ho ltac:(lia)) as M56.
    destruct (mono_ended _ _ M5 e He) as [He' Hl']. destruct (mono_ended _ _ M56 e He) as [_ Hl''].
    assert (last_response_at (stats (sh (o j))) = Some l) as Hlj by congruence.
    pose proof (si_inv _ (run_inv o j Ho)) as Hi.
    split_and!; [done | by apply (inv_dpeer _ Hi) | done | done | | done].
    pose proof (inv_gap _ Hi l e Hlj He'). lia.
  - split; [done|]. unfold feed_end. lia.
  - destruct Ha as [Ht | Ha]; [left; exists (looks w3); split; [lia|done] | right].
    exists (k + 1)%nat, (k + 2)%nat. split_and!; [lia|lia|]. intros a b Hca Hab.
    pose proof (longest_send_gap_drained _ _ t0 _ Hte Hca) as [Hub _].
    specialize (Hub a b Hab). rewrite <- Hd in Hub. lia.
Qed.

Lemma save_original_plain : plain save_original.
Proof.
  unfold save_original. repeat (apply plain_bind; [|intros ?]); try apply plain_request; try apply plain_assert.
  - split; intros w; [|done]. intros _. unfold lift, resp_json. simpl. by destruct (body_json _).
  - split; intros w; [|done]. intros _. by destruct a1.
  - split; intros w; [|done]. intros _. by destruct a2.
  - apply plain_ret.
Qed.

Lemma save_original_grows : grows save_original.
Proof. unfold save_original. grow. Qed.

(** The body's outcome is the test's, but for the liveness verdict; its calls
    are among the test's. *)
Lemma test_not_failed fuel w :
  start_ok w -> not_failed (test_cache_server_deinit_with_active_polling fuel w).1 ->
  exists w1, ext w w1 /\ start_ok w1 /\ not_failed (body fuel w1).1 /\
    calls (body fuel w1).2 `prefix_of` calls (test_cache_server_deinit_with_active_polling fuel w).2 /\
    ((test_cache_server_deinit_with_active_polling fuel w).1 = Ok tt -> (body fuel w1).1 = Ok tt).
Proof.
  intros Hw H. pose proof save_original_grows as Hg. specialize (Hg w).
  destruct (plain_then _ _ _ save_original_plain Hw H) as ([os om] & w1 & E & _ & Hw1).
  rewrite E in Hg. simpl in Hg. exists w1. split; [apply Hg|]. split; [done|].
  assert (settled (body fuel w1).1) as Hb.
  { intros Hblk. revert H. unfold test_cache_server_deinit_with_active_polling. unfold bind at 1. rewrite E.
    unfold bind at 1, try_finally. destruct (body fuel w1) as [r w2]. simpl in Hblk. subst r.
    intros [[=] | [=]]. }
  destruct (test_ends fuel w os om w1 E Hb) as (w2 & w' & n1 & n2 & Eb & _ & _ & _ & _ & _ & Hpre & Et).
  rewrite Et in *. rewrite Eb in *. simpl in *. destruct ((body fuel w1).1) as [[] | e |]; [|done|done].
  split; [by left | done].
Qed.

(** What a pass shows at the looks from [k1] on: the client was fed from [t0]
    to some [te] no later than [t1], the peer closed on it fast, and, unless
    the send log was truncated, no drained pause in between lasted as long as
    the guest's receive timeout. *)
Definition shown (o : nat -> sys) (t0 t1 : Z) (k1 : nat) : Prop :=
  exists k te, (k1 < k)%nat /\ fast_peer_close (o k) /\ t0 < te <= t1 /\
  ((exists j, (k1 < j)%nat /\ send_log_truncated (stats (sh (o j))) = true) \/
   exists i1 i2, (k1 < i1)%nat /\ (k1 < i2)%nat /\ forall a b,
     causal (send_times (stats (sh (o i1)))) (response_times (stats (sh (o i2)))) ->
     drained_interval (send_times (stats (sh (o i1)))) (response_times (stats (sh (o i2)))) t0 te a b ->
     b - a < _GUEST_RECV_TIMEOUT_S).


(** The test always ends and always restores.  Once the original settings
    are read, for every fuel large enough the test ends, whatever failed in
    between; its last requests turn the port cache off, disable the port,
    write the original settings and the original mode back, and read the
    settings once; a client that was created is stopped; and its outcome is
    that of the body, unless the device no longer answers. *)
Theorem deinit_test_restores (w w1 : tworld) (os om : json) :
  save_original w = (Ok (os, om), w1) -> passing (obs w) ->
  exists n, forall fuel, (n <= fuel)%nat ->
  exists l n1 n2 w', (1 <= n1 <= 3)%nat /\ (1 <= n2 <= 3)%nat /\
    test_cache_server_deinit_with_active_polling fuel w =
      (match (body fuel w1).1 with
       | Ok _ => if wedged w' then Raise AssertionError else Ok tt
       | r => r
       end, w') /\
    settled (body fuel w1).1 /\
    log (tapi w') = log (tapi w1) ++ l ++ restore_log os om n1 n2 /\
    (client_made w' = true -> (0 < stops w')%nat).
Proof.
  intros E Hp. pose proof (ext_obs _ _ (save_original_grows w)) as O1. rewrite E in O1. simpl in O1.
  destruct (body_conv w1) as (n & r & w2 & Hs & Hf); [by rewrite O1|]. exists n. intros fuel Hle.
  assert (settled (body fuel w1).1) as Hb by by rewrite (Hf fuel Hle).
  destruct (test_ends fuel w os om w1 E Hb) as (w2' & w' & n1 & n2 & Eb & _ & Hn1 & Hn2 & Hl & Hst & _ & Et).
  destruct (ext_log _ _ (body_grows fuel w1)) as [l Hlb]. rewrite Eb in Hlb. simpl in Hlb.
  exists l, n1, n2, w'. split_and!; try done; try lia.
  by rewrite Hl, Hlb, <- app_assoc.
Qed.
End Test.

Arguments TWorld {D}.

(** ** A run *)

Definition demo_device (q : request) (d : unit) : outcome response * unit :=
  (Ok (Response 200 "" (Some (match meth q with
     | GET => JObj [("rs485_1", JObj [("port_mode", JStr "passive")])]
     | POST => JObj [("success", JBool true)]
     end)) []), tt).

Definition demo_a : sys := after one_reply.
Definition demo_b : sys := run_from demo_a (another_reply 20000).
Definition demo_c : sys := run_from demo_b (peer_closes 20045).

Definition tick (t : Z) (x : sys) : sys := Sys (main x) (sender x) (drainer x) (set_clock t (sh x)).

Definition demo_obs (k : nat) : sys :=
  if (k <? 3)%nat then demo_a
  else if (k <? 9)%nat then demo_b
  else tick (20045 + Z.of_nat (k - 9)) demo_c.

Definition demo_world : tworld :=
  TWorld (AWorld tt [] ∅ 1 0%Q (fun _ => 0%Q)) demo_obs 0 None false 0 false [].

Lemma demo_settled q d : settled (demo_device q d).1.
Proof. done. Qed.

Lemma demo_exn q d e : (demo_device q d).1 = Raise e -> catches Exception_ e = true.
Proof. done. Qed.

Lemma demo_start_ok : start_ok demo_world.
Proof. by intros e H. Qed.

Lemma demo_passing : passing (obs demo_world).
Proof.
  intros T. exists (9 + Z.to_nat T)%nat. intros k Hk. unfold demo_world, demo_obs. cbn [obs].
  destruct (Nat.ltb_spec k 3); [lia|]. destruct (Nat.ltb_spec k 9); [lia|]. cbn [tick sh set_clock clock]. lia.
Qed.

Lemma tick_step t x : clock (sh x) <= t -> sys_step x (tick t x).
Proof. destruct x. apply ss_clock. Qed.

(** Three states of a run, then the clock alone. *)
Lemma staged_run a b c t :
  rtc sys_step (sys0 0) a -> rtc sys_step a b -> rtc sys_step b c -> clock (sh c) <= t ->
  run_of (fun k => if (k <? 3)%nat then a else if (k <? 9)%nat then b else tick (t + Z.of_nat (k - 9)) c).
Proof.
  intros Ha Hab Hbc Hc. split; [by exists 0|]. intros k.
  destruct (Nat.ltb_spec k 3), (Nat.ltb_spec (S k) 3), (Nat.ltb_spec k 9), (Nat.ltb_spec (S k) 9);
    try lia; try (apply rtc_refl); try exact Hab.
  - assert (k = 8%nat) as -> by lia. transitivity c; [exact Hbc|].
    apply rtc_once, tick_step. lia.
  - apply rtc_once. apply (ss_clock _ _ _ (set_clock (t + Z.of_nat (k - 9)) (sh c)) (t + Z.of_nat (S k - 9))).
    cbn [clock set_clock]. lia.
Qed.

Lemma demo_run : run_of (obs demo_world).
Proof.
  apply (staged_run demo_a demo_b demo_c 20045); [| | | by vm_compute];
    [apply after_reachable | apply run_from_steps | apply run_from_steps]; vm_compute; reflexivity.
Qed.


Lemma deinit_test_restores_witness :
  exists n, forall fuel, (n <= fuel)%nat -> exists l n1 n2 (w' : tworld (D := unit)),
    log (tapi w') = log (tapi (save_original demo_device demo_world).2) ++ l ++
      restore_log (JObj [("rs485_1", JObj [("port_mode", JStr "passive")])]) (JStr "passive") n1 n2.
Proof.
  destruct (deinit_test_restores demo_device demo_settled demo_exn demo_world
    (save_original demo_device demo_world).2 (JObj [("rs485_1", JObj [("port_mode", JStr "passive")])])
    (JStr "passive") ltac:(vm_compute; reflexivity) demo_passing) as [n Hn].
  exists n. intros fuel Hle. destruct (Hn fuel Hle) as (l & n1 & n2 & w' & _ & _ & _ & _ & Hl & _).
  exists l, n1, n2, w'. exact Hl.
Defined.

(** ** A race *)

(** The drainer between its two stores: the peer has closed, the drainer has
    stamped the end and is about to attribute it. *)
Definition demo_torn : sys := run_from demo_b
  ([MPeer; MClock 20045] ++ quiet 5 MDrainer ++ [MDrainer (ARecv (Chunk []))] ++ quiet 5 MDrainer).

(** C39. The end of the connection and its cause are stored one after the
    other, and the test may look in between.  There is a reachable state in
    which the peer has closed the connection and the drainer's next step
    records so, but in which the guard raises the assertion that blames the
    firmware's response stream. *)
Theorem attribution_race :
  exists x y, rtc sys_step (sys0 0) x /\ peer_gone (sh x) = true /\
    sys_step x y /\ drainer_closed_by_peer (stats (sh y)) = true /\
    forall gap w, obs w = (fun _ => x) -> (guard_b (D := unit) gap w).1 = Raise AssertionError.
Proof.
  exists demo_torn, (run_from demo_torn (quiet 1 MDrainer)).
  assert (rtc sys_step (sys0 0) demo_b) as Hb.
  { transitivity demo_a; [apply after_reachable | apply run_from_steps]; vm_compute; reflexivity. }
  split. { transitivity demo_b; [exact Hb|]. apply run_from_steps. vm_compute. reflexivity. }
  split; [vm_compute; reflexivity|]. split; [|split; [vm_compute; reflexivity|]].
  - apply (exec_move_sound demo_torn (MDrainer AUnit)). vm_compute. reflexivity.
  - intros gap w Ho.
    assert (drainer_ended_at (stats (sh demo_torn)) = Some 20045) as E1 by (vm_compute; reflexivity).
    assert (drainer_closed_by_peer (stats (sh demo_torn)) = false) as E2 by (vm_compute; reflexivity).
    unfold guard_b, stat. rewrite bind_look, Ho, E1, bind_bind, bind_look, bump_obs, Ho, E2. reflexivity.
Qed.
