(* ===== verification/ConfigButton.v ===== *)
(** * The config button of the firmware: main/config_button.c

    The task samples GPIO34 and debounces it; a debounced press is logged, and
    a press held for [long_press_time] fires the long-press callback once.
    The factory-reset test (FactoryReset) reasons about this task from its log,
    so the task is modelled here: one iteration of its loop is a function of
    the tick count and the level it read.  Tick counts are 32-bit and wrap.
    The callbacks and the log are the events of an iteration. *)

From stdpp Require Import base list sets.
From Stdlib Require Import ZArith Lia.
From S2P Require Import Prelude.

Open Scope Z_scope.

(** [TickType_t] is [uint32_t]; the tick rate is that of the
    QEMU build the tests run (CONFIG_FREERTOS_HZ=1000 in sdkconfig.qemu.minimal;
    sdkconfig.defaults has 500 for the device). *)
Definition tick_mod : Z := 2 ^ 32.
Definition tick_sub (a b : Z) : Z := (a - b) mod tick_mod.
Definition configTICK_RATE_HZ : Z := 1000.
Definition pdMS_TO_TICKS (ms : Z) : Z := ms * configTICK_RATE_HZ / 1000.

Definition CONFIG_BUTTON_DEBOUNCE_TIME_MS : Z := 50.
Definition CONFIG_BTN_FACTORY_RESET_HOLD_TIME_MS : Z := 5000.

Inductive btn_state_t : Type :=
| BTN_STATE_RELEASE
| BTN_STATE_PRE_ACT
| BTN_STATE_ACTIVE
| BTN_STATE_PRE_REL.

#[export] Instance btn_state_eq_dec : EqDecision btn_state_t.
Proof. solve_decision. Defined.

(** The new state, the new stamp, and the debounced level. *)
Definition debounce_filter (state : btn_state_t) (time_stamp sys_time : Z) (is_pressed : bool)
  : btn_state_t * Z * bool :=
  let '(state', time_stamp') :=
    match state with
    | BTN_STATE_RELEASE =>
        if is_pressed then (BTN_STATE_PRE_ACT, sys_time) else (state, time_stamp)
    | BTN_STATE_PRE_ACT =>
        if negb is_pressed then (BTN_STATE_RELEASE, time_stamp)
        else if pdMS_TO_TICKS CONFIG_BUTTON_DEBOUNCE_TIME_MS <=? tick_sub sys_time time_stamp
             then (BTN_STATE_ACTIVE, time_stamp) else (state, time_stamp)
    | BTN_STATE_ACTIVE =>
        if negb is_pressed then (BTN_STATE_PRE_REL, sys_time) else (state, time_stamp)
    | BTN_STATE_PRE_REL =>
        if is_pressed then (BTN_STATE_ACTIVE, time_stamp)
        else if pdMS_TO_TICKS CONFIG_BUTTON_DEBOUNCE_TIME_MS <=? tick_sub sys_time time_stamp
             then (BTN_STATE_RELEASE, time_stamp) else (state, time_stamp)
    end in
  (state', time_stamp',
   bool_decide (state' = BTN_STATE_ACTIVE) || bool_decide (state' = BTN_STATE_PRE_REL)).

(** The locals of [config_button_task] and the fields of [config_btn_ctx] it
    writes. *)
Record btn_task := Task {
  btn : btn_state_t;
  stamp : Z;
  long_stamp : Z;
  pending : bool;
  press_counter : Z;
  bool_state : bool
}.

Definition task0 (ticks : Z) : btn_task := Task BTN_STATE_RELEASE ticks ticks false 0 false.

(** What an iteration logs and calls back. *)
Inductive btn_event : Type :=
| Press (counter : Z)
| LongPress (hold_time : Z).

(** One iteration of the loop of [config_button_task]. *)
Definition task_iter (long_press_time : Z) (t : btn_task) (sys_time : Z) (pressed : bool)
  : btn_task * list btn_event :=
  let old_bool_state := bool_state t in
  let '(btn', stamp', bool_state') := debounce_filter (btn t) (stamp t) sys_time pressed in
  let '(counter', long_stamp', pending', ev1) :=
    if bool_state' && negb (Bool.eqb bool_state' old_bool_state) then
      let c := (press_counter t + 1) mod 2 ^ 32 in (c, sys_time, true, [Press c])
    else if negb bool_state' then (press_counter t, long_stamp t, false, [])
    else (press_counter t, long_stamp t, pending t, []) in
  let hold_time := tick_sub sys_time long_stamp' in
  let '(pending'', ev2) :=
    if pending' && (pdMS_TO_TICKS long_press_time <=? hold_time)
    then (false, [LongPress hold_time]) else (pending', []) in
  (Task btn' stamp' long_stamp' pending'' counter' bool_state', ev1 ++ ev2).

(** A sample: the (unwrapped) tick count and whether the pin read pressed. *)
Definition sample : Type := Z * bool.

Fixpoint task_run (thr : Z) (t : btn_task) (l : list sample) : btn_task * list btn_event :=
  match l with
  | [] => (t, [])
  | (now, pressed) :: l =>
      let (t1, ev) := task_iter thr t (now mod tick_mod) pressed in
      let (t2, evs) := task_run thr t1 l in
      (t2, ev ++ evs)
  end.

(** ** A held button fires *)

Lemma tick_sub_mod a b : b <= a < b + tick_mod -> tick_sub (a mod tick_mod) (b mod tick_mod) = a - b.
Proof.
  intros H. unfold tick_sub. rewrite <- Zminus_mod. apply Z.mod_small. lia.
Qed.

Lemma ms_ticks ms : pdMS_TO_TICKS ms = ms.
Proof. unfold pdMS_TO_TICKS, configTICK_RATE_HZ. apply Z.div_mul. lia. Qed.

(** A debounced press since tick [p] whose long press has not fired yet. *)
Definition armed (p : Z) (t : btn_task) : Prop :=
  btn t = BTN_STATE_ACTIVE /\ bool_state t = true /\ pending t = true /\ long_stamp t = p mod tick_mod.

Lemma press_arms thr t now pressed t' ev c :
  task_iter thr t (now mod tick_mod) pressed = (t', ev) -> Press c ∈ ev ->
  (btn t = BTN_STATE_ACTIVE \/ btn t = BTN_STATE_PRE_REL -> bool_state t = true) ->
  0 < thr -> armed now t' /\ ev = [Press c].
Proof.
  unfold task_iter, debounce_filter. rewrite !ms_ticks. intros H Hin Hb Hthr.
  assert (tick_sub (now mod tick_mod) (now mod tick_mod) = 0) as E0.
  { unfold tick_sub. by rewrite Z.sub_diag. }
  destruct (btn t) eqn:Eb, pressed, (bool_state t) eqn:Es; cbn [negb andb orb Bool.eqb] in H;
    repeat case_bool_decide; try discriminate; try (specialize (Hb ltac:(auto)); discriminate);
    repeat (case_match; simplify_eq/=); cbn in *;
    repeat match goal with
    | H : _ ∈ _ |- _ => progress (rewrite ?elem_of_app, ?list_elem_of_singleton, ?elem_of_nil in H)
    end; intuition; simplify_eq; try done.
  all: try (rewrite E0 in *; bool_to_prop; lia).
Qed.

Lemma armed_iter thr p t now pressed t' ev :
  armed p t -> p <= now < p + tick_mod -> (now < p + thr -> pressed = true) ->
  task_iter thr t (now mod tick_mod) pressed = (t', ev) ->
  if thr <=? now - p then LongPress (now - p) ∈ ev else armed p t' /\ ev = [].
Proof.
  intros (Eb & Es & Ep & El) Hn Hp. unfold task_iter, debounce_filter. rewrite Eb, Es, Ep, El, !ms_ticks.
  destruct (Z.leb_spec thr (now - p)) as [H|H].
  - destruct pressed; cbn [negb]; repeat case_bool_decide; try done; cbn [negb andb orb Bool.eqb];
      rewrite tick_sub_mod by lia; rewrite (proj2 (Z.leb_le _ _) H); intros [= <- <-]; cbn; by left.
  - rewrite Hp by lia. cbn [negb]. repeat case_bool_decide; try done. cbn [negb andb orb Bool.eqb].
    rewrite tick_sub_mod by lia. rewrite (proj2 (Z.leb_gt _ _)) by lia. intros [= <- <-]. done.
Qed.

(** Once a press is debounced at tick [p], the long press fires as soon as a
    sample is taken [thr] ticks later, whatever that sample reads, if no
    earlier sample read the pin released. *)
Lemma long_press_fires thr p t l :
  armed p t -> Forall (fun s => p <= s.1 < p + tick_mod /\ (s.1 < p + thr -> s.2 = true)) l ->
  Exists (fun s => p + thr <= s.1) l -> exists hold, LongPress hold ∈ (task_run thr t l).2 /\ thr <= hold.
Proof.
  intros Ha Hl He. revert t Ha. induction Hl as [|[now b] l [Hn Hb] Hl IH]; intros t Ha; [by inversion He|].
  cbn [task_run]. destruct (task_iter thr t (now mod tick_mod) b) as [t1 ev] eqn:E.
  pose proof (armed_iter thr p t now b t1 ev Ha Hn Hb E) as Hi. cbn in He.
  specialize (IH). destruct (Z.leb_spec thr (now - p)) as [Hge|Hlt].
  - exists (now - p). destruct (task_run thr t1 l) as [t2 evs]. cbn. split; [|done].
    apply elem_of_app. by left.
  - destruct Hi as [Ha' ->]. apply Exists_cons in He as [He|He]; [cbn in He; lia|].
    destruct (IH He t1 Ha') as (hold & Hin & Hh). exists hold.
    destruct (task_run thr t1 l) as [t2 evs]. done.
Qed.

Lemma task_run_app thr t l1 l2 :
  task_run thr t (l1 ++ l2) =
  let (t1, e1) := task_run thr t l1 in let (t2, e2) := task_run thr t1 l2 in (t2, e1 ++ e2).
Proof.
  revert t. induction l1 as [|[now b] l1 IH]; intros t; cbn [task_run app].
  { by destruct (task_run thr t l2). }
  destruct (task_iter thr t (now mod tick_mod) b) as [t1 ev]. rewrite IH.
  destruct (task_run thr t1 l1) as [t2 e1]. destruct (task_run thr t2 l2) as [t3 e2].
  by rewrite app_assoc.
Qed.

(** ** Nothing else fires *)

(** The debounced level is the one the state stands for, and a long press is
    pending only while the button is down. *)
Record task_inv (t : btn_task) : Prop := {
  inv_level : bool_state t = bool_decide (btn t = BTN_STATE_ACTIVE \/ btn t = BTN_STATE_PRE_REL);
  inv_pending : pending t = true -> bool_state t = true;
  inv_counter : 0 <= press_counter t < 2 ^ 32
}.

Lemma task0_inv ticks : task_inv (task0 ticks).
Proof. by split. Qed.

(** [evs] may follow when a press is pending ([up]) or not: long presses are
    each announced by a press of their own. *)
Fixpoint announced (thr : Z) (up : bool) (evs : list btn_event) : Prop :=
  match evs with
  | [] => True
  | Press _ :: evs => announced thr true evs
  | LongPress hold :: evs => up = true /\ thr <= hold /\ announced thr false evs
  end.

Lemma announced_up thr up evs : announced thr up evs -> announced thr true evs.
Proof. destruct evs as [|[c|h] evs]; cbn; [done|done|]. by intros (_ & ? & ?). Qed.

Lemma task_iter_spec thr t now pressed t' ev :
  task_inv t -> task_iter thr t now pressed = (t', ev) ->
  task_inv t' /\ forall evs, announced thr (pending t') evs -> announced thr (pending t) (ev ++ evs).
Proof.
  intros [Hl Hp Hc]. unfold task_iter, debounce_filter. rewrite !ms_ticks.
  set (deb := CONFIG_BUTTON_DEBOUNCE_TIME_MS <=? _). set (c := (press_counter t + 1) mod 2 ^ 32).
  assert (0 <= c < 2 ^ 32) as Hcc by (apply Z.mod_pos_bound; lia). clearbody deb c.
  destruct (btn t) eqn:Eb, pressed; try (destruct deb);
    repeat case_bool_decide; try (intuition discriminate); rewrite Hl in *;
    cbn [negb andb orb Bool.eqb]; repeat case_bool_decide; try (intuition discriminate);
    cbn [negb andb orb Bool.eqb]; try (destruct (pending t) eqn:Ep; cbn [andb]);
    try match goal with |- context [?a <=? ?b] => destruct (Z.leb_spec a b) end;
    intros [= <- <-]; cbn [pending app announced];
    (split; [split; cbn; [repeat case_bool_decide; intuition congruence | done | done] |
             intros evs Ha; try done; eauto using announced_up]).
Qed.

Lemma task_run_inv thr t l : task_inv t -> task_inv (task_run thr t l).1.
Proof.
  revert t. induction l as [|[now b] l IH]; intros t Ht; cbn [task_run]; [done|].
  destruct (task_iter thr t (now mod tick_mod) b) as [t1 ev] eqn:E.
  destruct (task_iter_spec _ _ _ _ _ _ Ht E) as [Ht1 _].
  specialize (IH t1 Ht1). by destruct (task_run thr t1 l).
Qed.

Lemma task_run_announced thr t l : task_inv t -> announced thr (pending t) (task_run thr t l).2.
Proof.
  revert t. induction l as [|[now b] l IH]; intros t Ht; cbn [task_run]; [done|].
  destruct (task_iter thr t (now mod tick_mod) b) as [t1 ev] eqn:E.
  destruct (task_iter_spec _ _ _ _ _ _ Ht E) as [Ht1 Ha].
  specialize (IH t1 Ht1). destruct (task_run thr t1 l) as [t2 evs]. by apply Ha.
Qed.

(** ** Debouncing *)

(** The samples [l] end with an unbroken run of pressed readings that began
    at tick [q]. *)
Definition pressed_since (l : list sample) (q : Z) : Prop :=
  exists l0 mid, l = l0 ++ (q, true) :: mid /\ Forall (fun s => s.2 = true) mid.

Definition debouncing (l : list sample) (t : btn_task) : Prop :=
  btn t = BTN_STATE_PRE_ACT -> exists q, pressed_since l q /\ stamp t = q mod tick_mod.

Lemma debounce_iter thr l t now b t' ev :
  debouncing l t -> task_inv t -> task_iter thr t (now mod tick_mod) b = (t', ev) ->
  debouncing (l ++ [(now, b)]) t' /\
  (forall c, Press c ∈ ev -> exists q, pressed_since (l ++ [(now, b)]) q /\
     CONFIG_BUTTON_DEBOUNCE_TIME_MS <= tick_sub (now mod tick_mod) (q mod tick_mod)).
Proof.
  intros Hd [Hl _ _]. unfold task_iter, debounce_filter. rewrite !ms_ticks. unfold debouncing in *.
  assert (b = true -> btn t = BTN_STATE_PRE_ACT -> exists q, pressed_since (l ++ [(now, b)]) q /\ stamp t = q mod tick_mod) as Hext.
  { intros -> E. destruct (Hd E) as (q & (l0 & mid & -> & Hm) & Hs). exists q. split; [|done].
    exists l0, (mid ++ [(now, true)]). rewrite <- app_assoc. split; [done|]. apply Forall_app. by split; [|constructor]. }
  destruct (btn t) eqn:Eb, b; cbn [negb]; rewrite Hl; clear Hl Hd;
    try (destruct (Z.leb_spec CONFIG_BUTTON_DEBOUNCE_TIME_MS (tick_sub (now mod tick_mod) (stamp t))));
    repeat case_bool_decide; try (intuition discriminate); cbn [negb andb orb Bool.eqb];
    repeat (case_match; simplify_eq); intros [= <- <-]; cbn [btn stamp app];
    split; try done; try (by intros _; apply Hext);
    try (intros c; rewrite ?elem_of_cons, ?elem_of_nil; intuition discriminate);
    try (intros _; exists now; split; [exists l, []; by split | done]);
    intros c _; destruct (Hext eq_refl eq_refl) as (q & Hq & Hs); exists q; by rewrite <- Hs.
Qed.

Lemma run_snoc thr t l now b :
  task_run thr t (l ++ [(now, b)]) =
  let (t1, e1) := task_run thr t l in
  let (t2, e2) := task_iter thr t1 (now mod tick_mod) b in (t2, e1 ++ e2).
Proof.
  rewrite task_run_app. destruct (task_run thr t l) as [t1 e1]. cbn [task_run].
  destruct (task_iter thr t1 (now mod tick_mod) b) as [t2 e2]. by rewrite app_nil_r.
Qed.

Lemma run_debouncing thr ticks l : debouncing l (task_run thr (task0 ticks) l).1.
Proof.
  induction l as [|[now b] l IH] using rev_ind; [done|].
  rewrite run_snoc. pose proof (task_run_inv thr _ l (task0_inv ticks)) as Hi.
  destruct (task_run thr (task0 ticks) l) as [t1 e1].
  destruct (task_iter thr t1 (now mod tick_mod) b) as [t2 e2] eqn:E.
  by destruct (debounce_iter _ _ _ _ _ _ _ IH Hi E).
Qed.

Lemma pressed_since_le l s q :
  Forall (fun s' => s'.1 <= s.1) l -> pressed_since (l ++ [s]) q -> q <= s.1.
Proof.
  intros Hl (l0 & mid & E & _).
  assert ((q, true) ∈ l ++ [s]) as Hin by (rewrite E; apply elem_of_app; right; by left).
  apply elem_of_app in Hin as [Hin | Hin]; [|apply list_elem_of_singleton in Hin; by subst s].
  exact (proj1 (list.Forall_forall _ _) Hl (q, true) Hin).
Qed.

(** The events of the iteration that takes the sample [s] after [l]. *)
Definition events_at (thr ticks : Z) (l : list sample) (s : sample) : list btn_event :=
  (task_iter thr (task_run thr (task0 ticks) l).1 (s.1 mod tick_mod) s.2).2.

(** The task after a press: armed at the tick of the sample. *)
Lemma press_then_armed thr ticks l s c :
  0 < thr -> Press c ∈ events_at thr ticks l s -> armed s.1 (task_run thr (task0 ticks) (l ++ [s])).1.
Proof.
  intros Hthr Hin. destruct s as [now b]. unfold events_at in Hin. rewrite run_snoc.
  pose proof (task_run_inv thr _ l (task0_inv ticks)) as Hi.
  destruct (task_run thr (task0 ticks) l) as [t1 e1]. cbn [fst snd] in *.
  destruct (task_iter thr t1 (now mod tick_mod) b) as [t2 e2] eqn:E. cbn [fst snd] in *.
  eapply (press_arms thr t1 now b t2 e2 c); try done.
  intros Hb. rewrite (inv_level _ Hi). by apply bool_decide_eq_true.
Qed.

(** C22. The button task fires what it should and nothing else, for every
    sequence of samples.  Every long press is preceded by a press of its own
    and reports a hold of at least the threshold; a press is reported only at
    the end of an unbroken run of pressed readings of at least 50 ms; and
    once a press is reported, the long press fires as soon as a sample is
    taken a threshold later, if no earlier sample read the pin released -
    even when that very sample reads it released.  Times are ticks of the QEMU
    build, of 1 ms each. *)
Theorem button_task_correct (thr ticks : Z) (l : list sample) :
  0 < thr ->
  announced thr false (task_run thr (task0 ticks) l).2 /\
  forall l1 s l2 c, l = l1 ++ s :: l2 -> Press c ∈ events_at thr ticks l1 s ->
    Forall (fun s' => s'.1 <= s.1) l1 ->
    (exists q, pressed_since (l1 ++ [s]) q /\ CONFIG_BUTTON_DEBOUNCE_TIME_MS <= s.1 - q) /\
    (Forall (fun s' => s.1 <= s'.1 < s.1 + tick_mod /\ (s'.1 < s.1 + thr -> s'.2 = true)) l2 ->
     Exists (fun s' => s.1 + thr <= s'.1) l2 ->
     exists hold, LongPress hold ∈ (task_run thr (task_run thr (task0 ticks) (l1 ++ [s])).1 l2).2 /\ thr <= hold).
Proof.
  intros Hthr. split; [exact (task_run_announced thr _ l (task0_inv ticks))|].
  intros l1 [now b] l2 c _ Hin Hq. split.
  - unfold events_at in Hin. cbn [fst snd] in Hin. pose proof (run_debouncing thr ticks l1) as Hd.
    pose proof (task_run_inv thr _ l1 (task0_inv ticks)) as Hi.
    destruct (task_iter thr (task_run thr (task0 ticks) l1).1 (now mod tick_mod) b) as [t2 e2] eqn:E.
    destruct (debounce_iter _ _ _ _ _ _ _ Hd Hi E) as [_ Hp]. destruct (Hp c Hin) as (q & Hs & Ht).
    exists q. split; [done|]. pose proof (pressed_since_le l1 (now, b) q Hq Hs). cbn [fst] in *. etransitivity; [exact Ht|].
    unfold tick_sub. rewrite <- Zminus_mod. apply Z.mod_le; [lia | by unfold tick_mod].
  - intros Hl He. eapply long_press_fires; [by eapply press_then_armed | exact Hl | exact He].
Qed.

(** A button held from tick 100 on, sampled every 10 ms or so; the long press
    fires at the first sample past 5 s although that one reads released. *)
Lemma button_task_correct_witness :
  let held := [(100, true); (110, true); (150, true)] in
  let rest := [(1000, true); (5149, true); (6200, false)] in
  Press 1 ∈ events_at 5000 0 [(100, true); (110, true)] (150, true) /\
  exists hold, LongPress hold ∈ (task_run 5000 (task_run 5000 (task0 0) held).1 rest).2 /\ 5000 <= hold.
Proof.
  intros held rest.
  assert (Press 1 ∈ events_at 5000 0 [(100, true); (110, true)] (150, true)) as Hp
    by (vm_compute; by left).
  split; [exact Hp|].
  destruct (button_task_correct 5000 0 (held ++ rest) ltac:(lia)) as [_ H].
  destruct (H [(100, true); (110, true)] (150, true) rest 1 eq_refl Hp) as [_ H2].
  - repeat constructor; cbn; lia.
  - apply H2; unfold rest, tick_mod; [repeat constructor; cbn; try lia; done|].
    do 2 right. left. cbn. lia.
Defined.
