(* ===== verification/FactoryReset.v ===== *)
(** * The factory-reset test: api_tests/47_test_io_indication.py

    The item holds the config button for 12 s and expects the settings to
    revert.  When they do not, it reads the firmware's own serial log to decide
    whether the firmware is at fault.  The whole item is modelled, over the
    HTTP client (ApiClient), the virtual IO bus (IoBus) and the serial log; the
    proof that its verdict is sound goes down to the button task of the
    firmware (ConfigButton).

    One clock serves the bus object and the test: the k-th reading of
    [time.monotonic()].  [serial k] is the content of the log file at the time
    of the k-th reading, [None] when it cannot be read; the code opens the file
    at most once between two readings.  The world also keeps the record of the
    client calls: the reading each came before, its request and its answer. *)

From Stdlib Require Import QArith Qround Lqa Ascii String.
From stdpp Require Import base list gmap strings.
From Stdlib Require Import ZArith Lia.
From S2P Require Import Prelude PyBytes PyStr ApiClient IoBus ConfigButton.

Open Scope Z_scope.
Open Scope py_scope.

Definition _FW_LONG_PRESS_THRESHOLD_S : Q := 5.
Definition _FACTORY_RESET_HOLD_S : Q := 12.
Definition _REVERT_POLL_MAX_S : Q := 30.
Definition _LONG_PRESS_VERDICT_MARGIN_S : Q := 1.
Definition _SERIAL_SCAN_MAX_S : Q := 10.

Definition _MARK_PRESS : string := "Button press event, counter:".
Definition _MARK_LONG_PRESS : string := "Button long press event, hold time:".
Definition _MARK_RESET_TRIGGERED : string := "Factory reset triggered by 5-second config button hold!".
Definition _MARK_RESET_STARTED : string := "Resetting all settings to factory defaults...".
Definition _MARK_RESET_COMPLETED : string := "Factory reset completed!".
Definition _MARK_TERM_KEY_WRITTEN : string := "Set default 485_term_1 = ".

(** ** The serial log *)

Definition is_log_level (c : ascii) : bool :=
  existsb (Ascii.eqb c) ["V"; "D"; "I"; "W"; "E"]%char.

(** The longest prefix of digits, and the rest. *)
Fixpoint span_digits (s : string) : string * string :=
  match s with
  | EmptyString => (EmptyString, EmptyString)
  | String c s' =>
      if is_digit c then let (h, t) := span_digits s' in (String c h, t) else (EmptyString, s)
  end.

(** [_LOG_TS_RE.match(line)]: the group of the pattern [^[VDIWE] \((\d+)\)]
    as a number. *)
Definition log_timestamp (line : string) : option Z :=
  match line with
  | String level (String sp (String par rest)) =>
      if is_log_level level && Ascii.eqb sp " " && Ascii.eqb par "(" then
        let (digits, rest') := span_digits rest in
        match rest' with
        | String c _ => if Ascii.eqb c ")" then int_unsigned digits else None
        | EmptyString => None
        end
      else None
  | _ => None
  end.

Definition timestamps_step (acc : option Z * option Z) (line : string) : option Z * option Z :=
  match log_timestamp line with
  | None => acc
  | Some ts => (if contains _MARK_PRESS line then Some ts else acc.1, Some ts)
  end.

Definition _parse_log_timestamps (tail : string) : option Z * option Z :=
  foldl timestamps_step (None, None) (splitlines tail).

Record button_markers := ButtonMarkers {
  mk_press : bool;
  mk_long_press : bool;
  mk_reset_triggered : bool;
  mk_reset_started : bool;
  mk_reset_completed : bool;
  mk_term_key_written : bool;
  press_ts_ms : option Z;
  last_ts_ms : option Z;
  read_at : Q
}.

Definition _guest_held_ms_after_press (markers : button_markers) (release_at_host : Q) : option Q :=
  match press_ts_ms markers, last_ts_ms markers with
  | Some p, Some l =>
      let host_elapsed_ms := ((read_at markers - release_at_host) * 1000)%Q in
      Some ((inject_Z l - host_elapsed_ms) - inject_Z p)%Q
  | _, _ => None
  end.

(** The flags of one read of the tail. *)
Definition markers_of (tail : string) (at_ : Q) : button_markers :=
  let '(press, last) := _parse_log_timestamps tail in
  ButtonMarkers (contains _MARK_PRESS tail) (contains _MARK_LONG_PRESS tail)
    (contains _MARK_RESET_TRIGGERED tail) (contains _MARK_RESET_STARTED tail)
    (contains _MARK_RESET_COMPLETED tail) (contains _MARK_TERM_KEY_WRITTEN tail) press last at_.

(** ** The test *)

(** The text of the exception that ended the body: which assertion failed, or
    which reason was given for the skip. *)
Inductive message : Type :=
| StatusMsg                               (* a status, a body or the precondition *)
| UnclassifiedMsg                         (* no usable log *)
| ResetCompletedMsg                       (* FIRMWARE DEFECT *)
| TermKeyWrittenMsg                       (* FIRMWARE DEFECT *)
| LongPressMsg (guest_held_ms : Q)        (* FIRMWARE DEFECT *)
| RereadLost
| TriggeredNotCompleted
| NeverPressed
| HeldShort (guest_held_ms : option Q).

Section Test.
Context {D : Type} (device : request -> D -> outcome response * D).

Record fworld := FWorld {
  fapi : aworld D;
  fbus : bus;
  serial : nat -> option string;
  said : option message;
  calls : list exchange
}.

Definition on_api (m : eff (aworld D) response) : eff fworld response := fun w =>
  let (r, a) := m (fapi w) in
  (r, FWorld a (fbus w) (serial w) (said w)
        (calls w ++ [Exchange (breadings (fbus w)) (drop (length (log (fapi w))) (log a)) r])).

Definition on_bus {A} (m : eff bus A) : eff fworld A := fun w =>
  let (r, b) := m (fbus w) in (r, FWorld (fapi w) b (serial w) (said w) (calls w)).

Definition fnow : eff fworld Q := on_bus bmonotonic.

Definition say (m : message) : eff fworld unit :=
  modify (fun w => FWorld (fapi w) (fbus w) (serial w) (Some m) (calls w)).

Definition assert_msg (b : bool) (m : message) : eff fworld unit :=
  if b then ret tt else say m ;;; raise AssertionError.

Definition _skip_detector_disarmed {A} (m : message) : eff fworld A := say m ;;; raise PytestSkip.

Definition assert_200 (resp : response) : eff fworld unit :=
  assert_msg (status_code resp =? 200) StatusMsg.

(** The file at this moment. *)
Definition log_file : eff fworld (option string) := fun w =>
  (Ok (serial w (breadings (fbus w))), w).

Definition _serial_log_offset : eff fworld (option nat) :=
  let* content := log_file in ret (String.length <$> content).

(** [open], [seek(offset)], [read()]; an [OSError] reads nothing. *)
Definition read_tail (offset : nat) : eff fworld string :=
  let* content := log_file in
  ret (match content with Some c => universal_newlines (sdrop offset c) | None => "" end).

Fixpoint scan_loop (fuel : nat) (offset : nat) (deadline : Q) : eff fworld (option button_markers) :=
  match fuel with
  | O => block
  | S fuel =>
      let* tail := read_tail offset in
      let* read_at := fnow in
      if String.eqb (strip tail) "" then
        let* t := fnow in
        if Qle_bool deadline t then ret None else scan_loop fuel offset deadline
      else
        let found := markers_of tail read_at in
        if mk_reset_completed found then ret (Some found)
        else
          let* t := fnow in
          if Qle_bool deadline t then ret (Some found) else scan_loop fuel offset deadline
  end.

Definition _button_markers_since (fuel : nat) (offset : option nat) : eff fworld (option button_markers) :=
  match offset with
  | None => ret None
  | Some offset =>
      let* t := fnow in scan_loop fuel offset (t + _SERIAL_SCAN_MAX_S)%Q
  end.

(** [d[k]] where [d] should be a dict. *)
Definition getitem (k : string) (d : json) : outcome json :=
  match d with
  | JObj fields => match jget k fields with Some v => Ok v | None => Raise KeyError end
  | _ => Raise TypeError
  end.

(** [resp.json()["rs485_1"]["term"]] *)
Definition term_of (resp : response) : outcome json :=
  (let? j := resp_json resp in let? port := getitem "rs485_1" j in getitem "term" port)%py.

Definition is_True (v : json) : bool := match v with JBool true => true | _ => false end.
Definition is_False (v : json) : bool := match v with JBool false => true | _ => false end.

Definition _reread_term : eff fworld json :=
  let* resp := try_except (on_api (get_settings device)) (catches RequestException)
                 (fun _ => _skip_detector_disarmed RereadLost) in
  assert_200 resp ;;;
  lift (term_of resp).

Definition dict_get (k : string) (d : json) : outcome (option json) :=
  match d with JObj fields => Ok (jget k fields) | _ => Raise AttributeError end.

(** Step 1: [rs485_1.term] is set to False, and is False. *)
Definition arrange : eff fworld unit :=
  let* resp := on_api (update_settings device (JObj [("rs485_1", JObj [("term", JBool false)])])) in
  assert_200 resp ;;;
  let* j := lift (resp_json resp) in
  let* success := lift (dict_get "success" j) in
  assert_msg (from_option is_True false success) StatusMsg ;;;
  let* resp := on_api (get_settings device) in
  assert_200 resp ;;;
  let* term := lift (term_of resp) in
  assert_msg (is_False term) StatusMsg.

(** Step 2: the press.  The offset of the log before it, the release stamp.
    (The count of status LED edges only feeds a printed warning.) *)
Definition hold_button (fuel : nat) : eff fworld (option nat * Q) :=
  on_bus (iobus_init fuel) ;;;
  let* serial_offset := _serial_log_offset in
  let* release_at_host := on_bus (press_button fuel _FACTORY_RESET_HOLD_S) in
  on_bus (pump fuel 2) ;;;
  ret (serial_offset, release_at_host).

(** Step 3: poll for the revert; the last reading. *)
Fixpoint revert_poll (fuel : nat) (deadline : Q) (term_after : json) : eff fworld json :=
  match fuel with
  | O => block
  | S fuel =>
      let* t := fnow in
      if Qle_bool deadline t then ret term_after
      else
        let* resp := on_api (get_settings device) in
        assert_200 resp ;;;
        let* term_after := lift (term_of resp) in
        if is_True term_after then ret term_after else revert_poll fuel deadline term_after
  end.

Definition verdict_threshold_ms : Q := ((_FW_LONG_PRESS_THRESHOLD_S + _LONG_PRESS_VERDICT_MARGIN_S) * 1000)%Q.

(** Step 4: whose fault is it? *)
Definition classify_reset (markers : button_markers) (release_at_host : Q) (term_after : json) : eff fworld unit :=
  if mk_reset_completed markers then
    let* term_after := _reread_term in assert_msg (is_True term_after) ResetCompletedMsg
  else if mk_term_key_written markers then
    let* term_after := _reread_term in assert_msg (is_True term_after) TermKeyWrittenMsg
  else if mk_long_press markers || mk_reset_triggered markers || mk_reset_started markers then
    _skip_detector_disarmed TriggeredNotCompleted
  else if negb (mk_press markers) then _skip_detector_disarmed NeverPressed
  else
    let guest_held_ms := _guest_held_ms_after_press markers release_at_host in
    (match guest_held_ms with
     | Some held => if Qle_bool verdict_threshold_ms held
                    then assert_msg (is_True term_after) (LongPressMsg held) else ret tt
     | None => ret tt
     end) ;;;
    _skip_detector_disarmed (HeldShort guest_held_ms).

Definition step4 (fuel : nat) (serial_offset : option nat) (release_at_host : Q) (term_after : json)
  : eff fworld unit :=
  let* markers := _button_markers_since fuel serial_offset in
  match markers with
  | None => assert_msg false UnclassifiedMsg
  | Some markers => classify_reset markers release_at_host term_after
  end.

Definition body (fuel : nat) : eff fworld unit :=
  arrange ;;;
  let* (serial_offset, release_at_host) := hold_button fuel in
  let* t := fnow in
  let* term_after := revert_poll fuel (t + _REVERT_POLL_MAX_S)%Q JNull in
  if is_True term_after then ret tt
  else step4 fuel serial_offset release_at_host term_after.

(** The [finally] block. *)
Definition restore (original_settings : json) : eff fworld unit :=
  try_except (on_api (update_settings device original_settings) ;;; ret tt)
    (catches RequestException) (fun _ => ret tt).

Definition test_factory_reset_long_press (fuel : nat) : eff fworld unit :=
  let* resp := on_api (get_settings device) in
  assert_200 resp ;;;
  let* original_settings := lift (resp_json resp) in
  try_finally (body fuel) (restore original_settings).

(** ** What every part does to the clock, the log file and the message *)

(** Time passes; the clock and the log file are those of the world. *)
Record later (w w' : fworld) : Prop := {
  later_clock : bclock (fbus w') = bclock (fbus w);
  later_serial : serial w' = serial w;
  later_readings : (breadings (fbus w) <= breadings (fbus w'))%nat;
  later_calls : calls w `prefix_of` calls w'
}.

#[local] Instance later_preorder : PreOrder later.
Proof. split; [by split|]. intros a b c [] []. split; [congruence | congruence | lia | by etransitivity]. Qed.

Definition advances {A} (m : eff fworld A) : Prop := forall w, later w (m w).2.

Definition accuses (m : message) : bool :=
  match m with ResetCompletedMsg | TermKeyWrittenMsg | LongPressMsg _ => true | _ => false end.

Definition accused (w : fworld) : bool := from_option accuses false (said w).

(** No accusation is made. *)
Definition neutral {A} (m : eff fworld A) : Prop :=
  forall w, later w (m w).2 /\ (accused w = false -> accused (m w).2 = false).

Lemma neutral_bind {A B} (m : eff fworld A) (k : A -> eff fworld B) :
  neutral m -> (forall a, neutral (k a)) -> neutral (bind m k).
Proof.
  intros Hm Hk w. unfold bind. destruct (Hm w) as [L1 S1]. destruct (m w) as [[a|e|] w1]; [|done|done].
  destruct (Hk a w1) as [L2 S2]. cbn in *. split; [by transitivity w1 | auto].
Qed.

Lemma neutral_ret {A} (a : A) : neutral (ret a).
Proof. by intros w. Qed.
Lemma neutral_raise {A} e : neutral (raise (A := A) e).
Proof. by intros w. Qed.
Lemma neutral_lift {A} (o : outcome A) : neutral (lift o).
Proof. by intros w. Qed.
Lemma neutral_block {A} : neutral (block (A := A)).
Proof. by intros w. Qed.
Lemma neutral_api (m : eff (aworld D) response) : neutral (on_api m).
Proof.
  intros w. unfold on_api. destruct (m (fapi w)) as [r a]. split; [|done]. split; cbn; try done. by eexists.
Qed.
Lemma neutral_assert b m : accuses m = false -> neutral (assert_msg b m).
Proof. intros Hm w. unfold assert_msg. by destruct b. Qed.
Lemma neutral_skip {A} m : accuses m = false -> neutral (_skip_detector_disarmed (A := A) m).
Proof. by intros Hm w. Qed.

Lemma neutral_try {A} (m : eff fworld A) c h :
  neutral m -> (forall e, neutral (h e)) -> neutral (try_except m c h).
Proof.
  intros Hm Hh w. unfold try_except. destruct (Hm w) as [L1 S1]. destruct (m w) as [[a|e|] w1]; [done| |done].
  destruct (c e); [|done]. destruct (Hh e w1) as [L2 S2]. cbn in *. split; [by transitivity w1 | auto].
Qed.

(** A bus call only reads its clock. *)
Definition clocked {A} (m : eff bus A) : Prop := forall w,
  bclock (m w).2 = bclock w /\ (breadings w <= breadings (m w).2)%nat.

Lemma clocked_bind {A B} (m : eff bus A) (k : A -> eff bus B) :
  clocked m -> (forall a, clocked (k a)) -> clocked (bind m k).
Proof.
  intros Hm Hk w. unfold bind. specialize (Hm w). destruct (m w) as [[a|e|] w1]; [|done|done].
  specialize (Hk a w1). cbn in *. destruct Hm, Hk. split; [congruence | lia].
Qed.

Lemma clocked_ret {A} (a : A) : clocked (ret a).
Proof. by intros w. Qed.
Lemma clocked_block {A} : clocked (block (A := A)).
Proof. by intros w. Qed.
Lemma clocked_get : clocked get.
Proof. by intros w. Qed.
Lemma clocked_monotonic : clocked bmonotonic.
Proof. intros w. cbn. split; [done | lia]. Qed.
Lemma clocked_sendto d : clocked (sendto d).
Proof. by intros w. Qed.
Lemma clocked_absorb r : clocked (modify (absorb r)).
Proof. intros w. by destruct r. Qed.
Lemma clocked_recvfrom : clocked recvfrom.
Proof. intros w. unfold recvfrom. by destruct (inbox w). Qed.
Lemma clocked_modify f : (forall w, bclock (f w) = bclock w /\ breadings (f w) = breadings w) -> clocked (modify f).
Proof. intros H w. cbn. destruct (H w) as [-> ->]. split; [done | lia]. Qed.

Ltac clocked := repeat first
  [ progress intros | apply clocked_bind | apply clocked_ret | apply clocked_block | apply clocked_get
  | apply clocked_monotonic | apply clocked_sendto | apply clocked_absorb | apply clocked_recvfrom
  | case_match ].

Lemma clocked_subscribe : clocked _subscribe.
Proof.
  unfold _subscribe. apply clocked_bind; [apply clocked_sendto | intros _].
  apply clocked_bind; [apply clocked_monotonic | intros t]. by apply clocked_modify.
Qed.

Lemma clocked_pump fuel d : clocked (pump fuel d).
Proof.
  unfold pump. apply clocked_bind; [apply clocked_monotonic|intros t].
  generalize (t + d)%Q. intros e. induction fuel as [|fuel IH]; cbn [pump_loop]; [clocked|].
  clocked; first [apply IH | apply clocked_subscribe].
Qed.

Lemma clocked_init fuel : clocked (iobus_init fuel).
Proof.
  unfold iobus_init. apply clocked_bind; [by apply clocked_modify | intros _].
  apply clocked_bind; [apply clocked_subscribe | intros _; apply clocked_pump].
Qed.

Lemma clocked_hold fuel d : clocked (hold_loop fuel d).
Proof. induction fuel as [|fuel IH]; cbn [hold_loop]; clocked. apply IH. Qed.

Lemma clocked_confirm fuel d : clocked (confirm_loop fuel d).
Proof.
  induction fuel as [|fuel IH]; cbn [confirm_loop]; [apply clocked_block|].
  apply clocked_bind; [apply clocked_monotonic | intros t]. destruct (Qle_bool d t); [apply clocked_ret|].
  apply clocked_bind; [apply clocked_pump | intros _]. clocked. apply IH.
Qed.

Lemma clocked_press fuel h : clocked (press_button fuel h).
Proof.
  unfold press_button. repeat first [apply clocked_hold | apply clocked_confirm | apply clocked_sendto
    | apply clocked_monotonic | apply clocked_ret | apply clocked_bind; [|intros ?]].
Qed.

Lemma neutral_bus {A} (m : eff bus A) : clocked m -> neutral (on_bus m).
Proof.
  intros H w. unfold on_bus. specialize (H (fbus w)). destruct (m (fbus w)) as [r b]. cbn in *.
  destruct H. by split.
Qed.

Lemma neutral_now : neutral fnow.
Proof. apply neutral_bus, clocked_monotonic. Qed.

Lemma neutral_file : neutral log_file.
Proof. by intros w. Qed.

Ltac neutral := repeat first
  [ progress intros | apply neutral_bind | apply neutral_ret | apply neutral_raise | apply neutral_lift
  | apply neutral_block | apply neutral_api | apply neutral_assert; [done] | apply neutral_skip; [done]
  | apply neutral_now | apply neutral_file
  | apply neutral_bus; first [apply clocked_pump | apply clocked_init | apply clocked_press]
  | case_match ].

Lemma arrange_neutral : neutral arrange.
Proof. unfold arrange, assert_200. neutral. Qed.

Lemma hold_neutral fuel : neutral (hold_button fuel).
Proof. unfold hold_button, _serial_log_offset. neutral. Qed.

Lemma revert_neutral fuel d v : neutral (revert_poll fuel d v).
Proof. revert v. induction fuel as [|fuel IH]; intros v; cbn [revert_poll]; unfold assert_200; neutral. apply IH. Qed.

Lemma scan_neutral fuel off d : neutral (scan_loop fuel off d).
Proof. induction fuel as [|fuel IH]; cbn [scan_loop]; unfold read_tail; neutral; apply IH. Qed.

(** ** Where the evidence of a verdict comes from *)

Definition clk (w : fworld) : nat -> Q := bclock (fbus w).
Definition readings (w : fworld) : nat := breadings (fbus w).

(** The log as the test reads it: what was written since [offset] characters. *)
Definition tail_at (w : fworld) (offset i : nat) : option string :=
  (fun c => universal_newlines (sdrop offset c)) <$> serial w i.

Lemma scan_found fuel off d w mk w' :
  scan_loop fuel off d w = (Ok (Some mk), w') ->
  exists i tail, (readings w <= i)%nat /\ tail_at w off i = Some tail /\ mk = markers_of tail (clk w i) /\
    (i < readings w')%nat.
Proof.
  revert w. induction fuel as [|fuel IH]; intros w; cbn [scan_loop]; [done|].
  unfold read_tail, log_file, bind at 1, bind at 1, ret at 1. cbn [fst snd].
  unfold bind at 1, fnow at 1, on_bus at 1, bmonotonic at 1. cbn [fst snd].
  set (w1 := FWorld _ _ _ _ _).
  assert (forall w2, (readings w1 <= readings w2)%nat -> clk w2 = clk w -> serial w2 = serial w ->
    scan_loop fuel off d w2 = (Ok (Some mk), w') -> exists i tail, (readings w <= i)%nat /\
    tail_at w off i = Some tail /\ mk = markers_of tail (clk w i) /\ (i < readings w')%nat) as Hrec.
  { intros w2 Hr Hc Hs H. destruct (IH w2 H) as (i & tail & Hi & Ht & Hm & Hl).
    exists i, tail. unfold tail_at in *. rewrite Hs in Ht. rewrite Hc in Hm. split_and!; [|done|done|done].
    unfold readings in *. cbn in *. lia. }
  destruct (String.eqb_spec (strip (match serial w (breadings (fbus w)) with
    | Some c => universal_newlines (sdrop off c) | None => "" end)) "") as [E|E].
  - unfold bind, fnow, on_bus, bmonotonic. destruct (Qle_bool d _); [done|]. apply Hrec; cbn; [lia|done|done].
  - destruct (serial w (breadings (fbus w))) as [c|] eqn:Ec; [|done].
    assert (tail_at w off (readings w) = Some (universal_newlines (sdrop off c))) as Ht
      by (unfold tail_at, readings; by rewrite Ec).
    destruct (mk_reset_completed _).
    { intros [= <- <-]. exists (readings w), (universal_newlines (sdrop off c)).
      split_and!; [done|done|done|unfold readings; cbn; lia]. }
    unfold bind, fnow, on_bus, bmonotonic. destruct (Qle_bool d _).
    { intros [= <- <-]. exists (readings w), (universal_newlines (sdrop off c)).
      split_and!; [done|done|done|unfold readings; cbn; lia]. }
    apply Hrec; cbn; [lia|done|done].
Qed.

Lemma press_stamp fuel h b R b' :
  press_button fuel h b = (Ok R, b') ->
  exists r, (breadings b <= r < breadings b')%nat /\ R = bclock b r.
Proof.
  unfold press_button. intros H.
  repeat (apply bind_ok in H; destruct H as (? & ? & ? & H)).
  match goal with Hh : hold_loop _ ?d ?b1 = (_, ?b2) |- _ =>
    pose proof (clocked_hold fuel d b1) as [C1 L1]; rewrite Hh in C1, L1; exists (breadings b2); clear Hh end.
  match goal with Hc : confirm_loop _ ?d ?b3 = (_, _) |- _ =>
    pose proof (clocked_confirm fuel d b3) as [C2 L2]; rewrite Hc in C2, L2; clear Hc end.
  unfold sendto, bmonotonic, modify, ret in *. simplify_eq. cbn in *. split; [lia | congruence].
Qed.

Lemma hold_found fuel w off R w' :
  hold_button fuel w = (Ok (off, R), w') ->
  exists j r, (readings w <= j <= r)%nat /\ (r < readings w')%nat /\ R = clk w r /\
    off = String.length <$> serial w j.
Proof.
  unfold hold_button. intros H. apply bind_ok in H as (u & w1 & E1 & H).
  pose proof (neutral_bus _ (clocked_init fuel) w) as [[C1 S1 L1 _] _]. rewrite E1 in C1, S1, L1. cbn in C1, S1, L1.
  apply bind_ok in H as (o & w2 & E2 & H). unfold _serial_log_offset, log_file, bind, ret in E2. cbn in E2. injection E2 as <- <-.
  apply bind_ok in H as (R' & w3 & E3 & H). unfold on_bus in E3.
  destruct (press_button fuel _FACTORY_RESET_HOLD_S (fbus w1)) as [r3 b3] eqn:Ep. injection E3 as -> <-.
  destruct (press_stamp _ _ _ _ _ Ep) as (r & Hr & ->).
  apply bind_ok in H as (u' & w4 & E4 & H). injection H as <- <- <-.
  pose proof (neutral_bus _ (clocked_pump fuel 2) (FWorld (fapi w1) b3 (serial w1) (said w1) (calls w1))) as [[C4 S4 L4 _] _].
  rewrite E4 in C4, S4, L4. cbn in *. unfold readings, clk in *.
  exists (breadings (fbus w1)), r. rewrite <- S1, C1. split_and!; try done; lia.
Qed.

Definition settings_get : request := Request GET "/settings" None (scalar 30).

(** The last of the calls [made] is a GET of the settings, issued after the
    [i]-th reading of the clock, and the answer of the device to it still has
    [rs485_1.term] other than True. *)
Definition not_reverted (made : list exchange) (i : nat) : Prop := exists earlier at_ resp v,
  made = earlier ++ [Exchange at_ [settings_get] (Ok resp)] /\ (i < at_)%nat /\
  status_code resp = 200 /\ term_of resp = Ok v /\ is_True v = false.

Lemma reread_ok w v w' :
  _reread_term w = (Ok v, w') -> accused w = accused w' /\
  exists resp, calls w' = calls w ++ [Exchange (readings w) [settings_get] (Ok resp)] /\
    status_code resp = 200 /\ term_of resp = Ok v.
Proof.
  unfold _reread_term, try_except, bind at 1, on_api, get_settings, http_get.
  destruct (session_request_spec device (Request GET "/settings" None (scalar 30)) (fapi w))
    as (r & d & t & c & -> & Hd & _). cbn [log]. rewrite drop_app_length.
  destruct r as [resp|e|]; [|destruct (catches RequestException e); [done|done]|done].
  unfold bind at 1, assert_200, assert_msg. destruct (Z.eqb_spec (status_code resp) 200) as [Es|]; [|done].
  unfold ret, lift. intros [= Ht <-]. split; [done|]. by exists resp.
Qed.

(** What a verdict that accuses the firmware rests on, given the client calls
    made, the tail of the log read at the [i]-th reading, its instant [at_],
    and the release stamp [R]. *)
Definition ground (made : list exchange) (i : nat) (tail : string) (at_ R : Q) (m : message) : Prop :=
  match m with
  | ResetCompletedMsg => contains _MARK_RESET_COMPLETED tail = true /\ not_reverted made i
  | TermKeyWrittenMsg => contains _MARK_TERM_KEY_WRITTEN tail = true /\ not_reverted made i
  | LongPressMsg held =>
      contains _MARK_PRESS tail = true /\ contains _MARK_LONG_PRESS tail = false /\
      _guest_held_ms_after_press (markers_of tail at_) R = Some held /\ (verdict_threshold_ms <= held)%Q
  | _ => True
  end.

Lemma ground_after earlier made i tail at_ R m :
  ground made i tail at_ R m -> ground (earlier ++ made) i tail at_ R m.
Proof.
  destruct m; try done; intros [H (e & a & resp & v & -> & Hr)]; (split; [done|]);
    exists (earlier ++ e), a, resp, v; by rewrite app_assoc.
Qed.

Lemma neutral_then {A B} (m : eff fworld A) (k : A -> eff fworld B) w msg :
  neutral m -> accused w = false -> said (bind m k w).2 = Some msg -> accuses msg = true ->
  exists a w1, m w = (Ok a, w1) /\ accused w1 = false /\ later w w1 /\ said (k a w1).2 = Some msg.
Proof.
  intros Hm Hw H Ha. unfold bind in H. destruct (Hm w) as [L S]. specialize (S Hw).
  destruct (m w) as [[a|e|] w1]; cbn [fst snd] in *.
  - by exists a, w1.
  - unfold accused in S. rewrite H in S. cbn in S. congruence.
  - unfold accused in S. rewrite H in S. cbn in S. congruence.
Qed.

Lemma reread_neutral : neutral _reread_term.
Proof.
  unfold _reread_term, assert_200. apply neutral_bind; [apply neutral_try | intros ?];
    [apply neutral_api | intros ?; by apply neutral_skip | ].
  apply neutral_bind; [by apply neutral_assert | intros ?; apply neutral_lift].
Qed.

Lemma reread_then w f m i :
  accused w = false -> accuses f = true -> (i < readings w)%nat ->
  let (r, w') := (let* v := _reread_term in assert_msg (is_True v) f) w in
  said w' = Some m -> accuses m = true ->
  r = Raise AssertionError /\ m = f /\ exists made, calls w' = calls w ++ made /\ not_reverted made i.
Proof.
  intros Hw Hf Hi. destruct ((let* v := _reread_term in assert_msg (is_True v) f) w) as [r w'] eqn:E0. intros H Hm.
  replace w' with ((let* v := _reread_term in assert_msg (is_True v) f) w).2 in H by (by rewrite E0).
  destruct (neutral_then _ _ _ _ reread_neutral Hw H Hm) as (v & w1 & E & Hw1 & _ & H1).
  assert ((r, w') = assert_msg (is_True v) f w1) as Ew by (rewrite <- E0; unfold bind; by rewrite E).
  destruct (reread_ok w v w1 E) as (_ & resp & C & Hs & Ht). unfold assert_msg in *. destruct (is_True v) eqn:Ev.
  - cbn in H1. unfold accused in Hw1. rewrite H1 in Hw1. cbn in Hw1. congruence.
  - cbn in H1. injection H1 as <-. cbn in Ew. injection Ew as -> ->. split_and!; [done|done|]. cbn.
    eexists. split; [exact C|]. by exists [], (readings w), resp, v.
Qed.

Lemma markers_fields tail at_ :
  mk_press (markers_of tail at_) = contains _MARK_PRESS tail /\
  mk_long_press (markers_of tail at_) = contains _MARK_LONG_PRESS tail /\
  mk_reset_completed (markers_of tail at_) = contains _MARK_RESET_COMPLETED tail /\
  mk_term_key_written (markers_of tail at_) = contains _MARK_TERM_KEY_WRITTEN tail.
Proof. unfold markers_of. by destruct (_parse_log_timestamps tail). Qed.

Lemma classify_ground tail at_ R v w m i :
  accused w = false -> (i < readings w)%nat ->
  let (r, w') := classify_reset (markers_of tail at_) R v w in
  said w' = Some m -> accuses m = true ->
  r = Raise AssertionError /\ exists made, calls w' = calls w ++ made /\ ground made i tail at_ R m.
Proof.
  intros Hw Hi. unfold classify_reset.
  destruct (markers_fields tail at_) as (E1 & E2 & E3 & E4). rewrite E1, E2, E3, E4.
  destruct (contains _MARK_RESET_COMPLETED tail) eqn:Ec.
  { pose proof (reread_then w ResetCompletedMsg m i Hw eq_refl Hi) as H.
    match type of H with let (_, _) := ?x in _ => destruct x as [r w'] end. intros Hs Hm.
    destruct (H Hs Hm) as (-> & -> & made & C & Hn). split; [done|]. by exists made. }
  destruct (contains _MARK_TERM_KEY_WRITTEN tail) eqn:Ek.
  { pose proof (reread_then w TermKeyWrittenMsg m i Hw eq_refl Hi) as H.
    match type of H with let (_, _) := ?x in _ => destruct x as [r w'] end. intros Hs Hm.
    destruct (H Hs Hm) as (-> & -> & made & C & Hn). split; [done|]. by exists made. }
  destruct (_ || _ || _) eqn:Eo; [by intros [= <-]|].
  destruct (contains _MARK_PRESS tail) eqn:Ep; cbn [negb]; [|by intros [= <-]].
  destruct (_guest_held_ms_after_press _ R) as [held|] eqn:Eh; [|by intros [= <-]].
  destruct (Qle_bool verdict_threshold_ms held) eqn:Et; [|by intros [= <-]].
  unfold assert_msg. destruct (is_True v); [by intros [= <-]|].
  intros [= <-] _. bool_to_prop. apply Qle_bool_iff in Et. split; [done|].
  exists []. split; [cbn; by rewrite app_nil_r|]. cbn [ground]. by split_and!.
Qed.

Lemma step4_ground fuel off R v w m :
  let (r, w') := step4 fuel off R v w in
  accused w = false -> said w' = Some m -> accuses m = true ->
  r = Raise AssertionError /\
  exists o i tail made, off = Some o /\ (readings w <= i)%nat /\ tail_at w o i = Some tail /\
    calls w' = calls w ++ made /\ ground made i tail (clk w i) R m.
Proof.
  unfold step4, bind. destruct off as [o|]; [|by intros _ [= <-]]. cbn [_button_markers_since].
  unfold bind, fnow, on_bus, bmonotonic. cbn [fst snd].
  match goal with |- context [scan_loop fuel o ?d ?x] => set (w1 := x) in *; set (dl := d) in * end.
  destruct (scan_neutral fuel o dl w1) as [[_ _ _ [m1 M1]] Hn].
  destruct (scan_loop fuel o dl w1) as [[[mk|]|e|] w2] eqn:Es; cbn [fst snd] in *.
  - destruct (scan_found fuel o dl w1 mk w2 Es) as (i & tail & Hi & Ht & -> & Hr).
    pose proof (classify_ground tail (clk w1 i) R v w2 m i) as Hc.
    destruct (classify_reset _ R v w2) as [r w']. intros Hw H Hm.
    destruct (Hc (Hn Hw) Hr H Hm) as (-> & made & C & Hg). split; [done|].
    exists o, i, tail, (m1 ++ made). split; [done|]. split; [unfold readings in *; cbn in Hi; lia|]. split; [done|].
    split; [|by apply ground_after]. rewrite C, M1. by rewrite <- app_assoc.
  - by intros _ [= <-].
  - intros Hw H Hm. specialize (Hn Hw). unfold accused in Hn. rewrite H in Hn. cbn in Hn. congruence.
  - intros Hw H Hm. specialize (Hn Hw). unfold accused in Hn. rewrite H in Hn. cbn in Hn. congruence.
Qed.

(** An accusation and its evidence: the log was read past the size [off] it
    had before the press, at an instant [i] after the release [R]. *)
Definition supported (w : fworld) (made : list exchange) (m : message) : Prop := exists j r i before tail,
  (readings w <= j <= r)%nat /\ (r <= i)%nat /\ serial w j = Some before /\
  tail_at w (String.length before) i = Some tail /\ ground made i tail (clk w i) (clk w r) m.

Lemma body_supported fuel w m :
  let w' := (body fuel w).2 in
  accused w = false -> said w' = Some m -> accuses m = true ->
  (body fuel w).1 = Raise AssertionError /\ exists made, calls w' = calls w ++ made /\ supported w made m.
Proof.
  intros w' Hw H Hm. pose proof H as H0. unfold w', body in H0.
  destruct (neutral_then _ _ _ _ arrange_neutral Hw H0 Hm) as (u & w1 & E1 & Hw1 & L1 & H1).
  destruct (neutral_then _ _ _ _ (hold_neutral fuel) Hw1 H1 Hm) as ([off R] & w2 & E2 & Hw2 & L2 & H2).
  destruct (neutral_then _ _ _ _ neutral_now Hw2 H2 Hm) as (t & w3 & E3 & Hw3 & L3 & H3).
  destruct (neutral_then _ _ _ _ (revert_neutral fuel _ _) Hw3 H3 Hm) as (v & w4 & E4 & Hw4 & L4 & H4).
  destruct (is_True v) eqn:Ev.
  { cbn in H4. unfold accused in Hw4. rewrite H4 in Hw4. cbn in Hw4. congruence. }
  assert (body fuel w = step4 fuel off R v w4) as Ew.
  { unfold body, bind. rewrite E1, E2, E3, E4, Ev. done. }
  unfold w' in *. clear w'. rewrite Ew in *. pose proof (step4_ground fuel off R v w4 m) as Hg4.
  destruct (step4 fuel off R v w4) as [r4 w9]. cbn [fst snd] in *.
  destruct (Hg4 Hw4 H4 Hm) as (-> & o & i & tail & made & -> & Hi & Ht & C & Hg). split; [done|].
  destruct (hold_found fuel w1 (Some o) R w2 E2) as (j & r & Hj & Hr & -> & Ho).
  destruct (serial w1 j) as [before|] eqn:Eb; [|done]. cbn in Ho. injection Ho as ->.
  pose proof (transitivity L3 L4) as L34. pose proof (transitivity L2 L34) as L24.
  pose proof (transitivity L1 L24) as [_ _ _ [m1 M1]].
  destruct L1 as [C1 S1 R1 _], L24 as [C4 S4 R4 _], L34 as [_ _ R34 _].
  unfold tail_at, clk, readings in *. rewrite S4, S1 in Ht. rewrite C4, C1 in Hg. rewrite S1 in Eb.
  exists (m1 ++ made). split; [rewrite C, M1; by rewrite <- app_assoc|].
  exists j, r, i, before, tail. unfold readings. split_and!; try done; try lia. by apply ground_after.
Qed.

Lemma settings_restored os w : exists a r x, restore os w = (r, FWorld a (fbus w) (serial w) (said w) (calls w ++
    [Exchange (readings w) [Request POST "/settings" (Some os) (scalar 30)] x])) /\
  log a = log (fapi w) ++ [Request POST "/settings" (Some os) (scalar 30)] /\
  forall e, r = Raise e -> catches RequestException e = false /\
    exists d, (device (Request POST "/settings" (Some os) (scalar 30)) d).1 = Raise e.
Proof.
  unfold restore, try_except, bind, on_api, update_settings, http_post.
  destruct (session_request_spec device (Request POST "/settings" (Some os) (scalar 30)) (fapi w))
    as (r & d & t & c & -> & Hd & _). cbn [log]. rewrite drop_app_length.
  destruct r as [resp|e|].
  - eexists _, _, _. split; [reflexivity|]. by split.
  - destruct (catches RequestException e) eqn:Ec; eexists _, _, _; (split; [reflexivity|]); (split; [done|]); [done|].
    intros e' [= ->]. split; [done|]. exists (dev (fapi w)). by rewrite Hd.
  - eexists _, _, _. split; [reflexivity|]. by split.
Qed.

(** The calls of a run that accuses: those that support the verdict, and the
    restore of the settings read first. *)
Lemma test_runs fuel w m :
  let w' := (test_factory_reset_long_press fuel w).2 in
  said w = None -> said w' = Some m -> accuses m = true ->
  exists made at_ os x,
    calls w' = calls w ++ made ++ [Exchange at_ [Request POST "/settings" (Some os) (scalar 30)] x] /\
    supported w made m.
Proof.
  intros w' Hw H Hm. pose proof H as H0. unfold w', test_factory_reset_long_press in H0.
  assert (accused w = false) as Ha by (unfold accused; by rewrite Hw).
  destruct (neutral_then _ _ _ _ (neutral_api _) Ha H0 Hm) as (resp & w1 & E1 & Ha1 & L1 & H1).
  destruct (neutral_then _ _ _ _ (neutral_assert _ StatusMsg eq_refl) Ha1 H1 Hm) as (u & w2 & E2 & Ha2 & L2 & H2).
  destruct (neutral_then _ _ _ _ (neutral_lift _) Ha2 H2 Hm) as (os & w3 & E3 & Ha3 & L3 & H3).
  assert (w' = (try_finally (body fuel) (restore os) w3).2) as Ew.
  { unfold w', test_factory_reset_long_press, bind. rewrite E1. unfold assert_200. rewrite E2, E3. done. }
  assert (said (body fuel w3).2 = Some m) as Hs.
  { revert H3. unfold try_finally. destruct (body fuel w3) as [r w4] eqn:Eb; cbn [fst snd].
    destruct (settings_restored os w4) as (a & r' & x & -> & _). by destruct r, r'. }
  destruct (body_supported fuel w3 m Ha3 Hs Hm) as (Hr & made & M & Hsup).
  assert (exists a x,
    calls w' = calls (body fuel w3).2 ++ [Exchange a [Request POST "/settings" (Some os) (scalar 30)] x])
    as (a & x & C).
  { rewrite Ew. unfold try_finally. destruct (body fuel w3) as [r w4]; cbn [fst snd] in *. subst r.
    destruct (settings_restored os w4) as (a & r' & x & -> & _). exists (readings w4), x. by destruct r'. }
  pose proof (transitivity L1 (transitivity L2 L3)) as [C3 S3 R3 [m3 M3]].
  exists (m3 ++ made), a, os, x. split; [rewrite C, M, M3; by rewrite <- !app_assoc|].
  destruct Hsup as (j & r & i & before & tail & Hj & Hi & Hb & Ht & Hg).
  exists j, r, i, before, tail. unfold tail_at, clk, readings in *. rewrite S3 in Hb, Ht. rewrite C3 in Hg.
  unfold readings. split_and!; try done; try lia. by apply ground_after.
Qed.

End Test.

(** ** What the log says of the button task *)

Lemma timestamps_fold lines acc l p :
  foldl timestamps_step acc lines = (p, Some l) ->
  acc.2 = Some l \/ exists line, line ∈ lines /\ log_timestamp line = Some l.
Proof.
  revert acc. induction lines as [|line lines IH]; intros acc; cbn [foldl].
  { intros ->. by left. }
  intros H. destruct (IH _ H) as [H1 | (line' & Hin & Hl)].
  - unfold timestamps_step in H1. destruct (log_timestamp line) as [ts|] eqn:E; [|by left].
    right. exists line. split; [by left|]. cbn in H1. by simplify_eq.
  - right. exists line'. split; [by right | done].
Qed.

(** The guest's millisecond clock at each host instant: it never goes back and
    never leads the host clock, but for the granularity of a tick. *)
Definition never_leads (g : Q -> Z) : Prop := forall s t, (s <= t)%Q ->
  g s <= g t /\ (inject_Z (g t - g s) <= 1000 * (t - s) + 1)%Q.

(** The samples of the button task, with the host instants they are taken at. *)
Definition ticks_of (g : Q -> Z) (l : list (Q * bool)) : list sample :=
  (fun s => (g s.1, s.2)) <$> l.

Definition threshold : Z := CONFIG_BTN_FACTORY_RESET_HOLD_TIME_MS.

(** A run of the firmware's button task that may have left [tail]: it started
    at tick count [boot], took the samples [before], reported the press at
    sample [s], and took the samples [after] up to the time the log was read.
    Log lines carry the guest's clock at the time they were emitted; the pin
    read pressed until the release at [R]; the task has sampled the pin after
    the release, and what it logged is in the file. *)
Record guest_run (g : Q -> Z) (R read_at : Q) (tail : string) (boot : Z)
  (before : list (Q * bool)) (s : Q * bool) (after : list (Q * bool)) : Prop := {
  gr_clock : never_leads g;
  gr_range : forall t, (t <= read_at)%Q -> 0 <= g t < tick_mod;
  gr_stamps : forall line ts, line ∈ splitlines tail -> log_timestamp line = Some ts ->
    exists E, (E <= read_at)%Q /\ ts = g E;
  gr_press : forall p, (_parse_log_timestamps tail).1 = Some p ->
    g s.1 <= p /\ exists c, Press c ∈ events_at threshold boot (ticks_of g before) (g s.1, s.2);
  gr_after : Forall (fun s' => (s.1 <= s'.1 <= read_at)%Q /\ ((s'.1 < R)%Q -> s'.2 = true)) after;
  gr_logged : forall hold,
    LongPress hold ∈ (task_run threshold (task_run threshold (task0 boot)
       (ticks_of g before ++ [(g s.1, s.2)])).1 (ticks_of g after)).2 ->
    contains _MARK_LONG_PRESS tail = true;
  gr_alive : Exists (fun s' => (R <= s'.1)%Q) after
}.

(** A bound past the threshold means the guest's clock had passed it at the
    release. *)
Lemma held_bound g R at_ tail boot before s after held p l :
  guest_run g R at_ tail boot before s after -> (R <= at_)%Q ->
  _parse_log_timestamps tail = (Some p, Some l) ->
  ((inject_Z l - (at_ - R) * 1000) - inject_Z p == held)%Q -> (verdict_threshold_ms <= held)%Q ->
  g s.1 + threshold <= g R.
Proof.
  intros Hg HR Hp Hh Ht.
  destruct (gr_press _ _ _ _ _ _ _ _ Hg p ltac:(by rewrite Hp)) as [Hps _].
  destruct (timestamps_fold _ _ l (Some p) Hp) as [[=] | (line & Hin & Hl)].
  destruct (gr_stamps _ _ _ _ _ _ _ _ Hg line l Hin Hl) as (E & HE & ->).
  assert (inject_Z (g E) <= inject_Z (g R) + 1000 * (at_ - R) + 1)%Q as Hb.
  { destruct (Qlt_le_dec E R) as [Hlt|Hge].
    - destruct (gr_clock _ _ _ _ _ _ _ _ Hg E R ltac:(lra)) as [Hm _]. rewrite Zle_Qle in Hm. lra.
    - destruct (gr_clock _ _ _ _ _ _ _ _ Hg R E Hge) as [_ Hm].
      unfold Z.sub in Hm. rewrite inject_Z_plus, inject_Z_opp in Hm. lra. }
  unfold verdict_threshold_ms, _FW_LONG_PRESS_THRESHOLD_S, _LONG_PRESS_VERDICT_MARGIN_S in Ht.
  assert (inject_Z p + 5999 <= inject_Z (g R))%Q as Hq by lra.
  change 5999%Q with (inject_Z 5999) in Hq. rewrite <- inject_Z_plus, <- Zle_Qle in Hq.
  unfold threshold, CONFIG_BTN_FACTORY_RESET_HOLD_TIME_MS. lia.
Qed.

Lemma conviction_refutes made i g R at_ tail boot before s after held :
  (R <= at_)%Q -> ground made i tail at_ R (LongPressMsg held) ->
  guest_run g R at_ tail boot before s after -> False.
Proof.
  intros HR (_ & Hno & Hh & Ht) Hg. unfold _guest_held_ms_after_press, markers_of in Hh.
  destruct (_parse_log_timestamps tail) as [[p|] [l|]] eqn:Ep; cbn in Hh; try done. injection Hh as Hh.
  assert (g s.1 + threshold <= g R) as HgR.
  { eapply held_bound; [exact Hg | exact HR | exact Ep | by rewrite Hh | exact Ht]. }
  destruct (gr_press _ _ _ _ _ _ _ _ Hg p ltac:(by rewrite Ep)) as (_ & c & Hc).
  pose proof (press_then_armed threshold boot _ _ c ltac:(done) Hc) as Harm. cbn [fst] in Harm.
  pose proof (gr_after _ _ _ _ _ _ _ _ Hg) as Haf. pose proof (gr_alive _ _ _ _ _ _ _ _ Hg) as Hal.
  destruct (long_press_fires threshold (g s.1) _ (ticks_of g after) Harm) as (hold & Hin & _).
  - apply Forall_fmap. eapply Forall_impl; [exact Haf|]. intros s' [[H1 H2] H3]. cbn.
    destruct (gr_clock _ _ _ _ _ _ _ _ Hg _ _ H1) as [Hle _].
    pose proof (gr_range _ _ _ _ _ _ _ _ Hg s'.1 H2). pose proof (gr_range _ _ _ _ _ _ _ _ Hg s.1 ltac:(lra)).
    split; [lia|]. intros Hlt. apply H3. destruct (Qlt_le_dec s'.1 R) as [Hr|Hge]; [done|].
    destruct (gr_clock _ _ _ _ _ _ _ _ Hg _ _ Hge) as [HgR' _]. lia.
  - apply Exists_fmap. eapply Exists_impl; [exact Hal|]. intros s' Hs'. cbn.
    destruct (gr_clock _ _ _ _ _ _ _ _ Hg _ _ Hs') as [Hle _]. lia.
  - rewrite (gr_logged _ _ _ _ _ _ _ _ Hg hold Hin) in Hno. done.
Qed.


(** ** The test ends, and restores *)

Section Ends.
Context {D : Type} (device : request -> D -> outcome response * D).
Context (F : nat).
Hypothesis device_settled : forall q d, settled (device q d).1.

(** Returns or raises, on a clock that advances by 30 s within [F] readings. *)
Definition ends {A} (m : eff (fworld (D := D)) A) : Prop :=
  forall w, ticking F 30 (clk w) -> settled (m w).1.

Lemma ends_bind {A B} (m : eff fworld A) (k : A -> eff fworld B) :
  ends m -> neutral m -> (forall a, ends (k a)) -> ends (bind m k).
Proof.
  intros Hm Hn Hk w Hw. unfold bind. specialize (Hm w Hw). destruct (Hn w) as [[C _ _] _].
  destruct (m w) as [[a|e|] w1]; [|done|done]. apply Hk. unfold clk in *. cbn in C. by rewrite C.
Qed.

Lemma ends_ret {A} (a : A) : ends (ret a).
Proof. by intros w _. Qed.
Lemma ends_lift {A} (o : outcome A) : settled o -> ends (lift o).
Proof. by intros H w _. Qed.
Lemma ends_assert b m : ends (assert_msg b m).
Proof. intros w _. by destruct b. Qed.
Lemma ends_skip {A} m : ends (_skip_detector_disarmed (A := A) m).
Proof. by intros w _. Qed.
Lemma ends_now : ends fnow.
Proof. by intros w _. Qed.
Lemma ends_file : ends log_file.
Proof. by intros w _. Qed.

Lemma ends_api q : ends (on_api (session_request device q)).
Proof.
  intros w _. unfold on_api. destruct (session_request_spec device q (fapi w)) as (r & d & t & c & -> & Hd & _).
  pose proof (device_settled q (dev (fapi w))) as Hs. by rewrite Hd in Hs.
Qed.

Lemma term_settled resp : settled (term_of resp).
Proof.
  unfold term_of, resp_json, getitem. destruct (body_json resp) as [j|]; [|done]. cbn.
  repeat (case_match; cbn; try done).
Qed.

Ltac ending := repeat first
  [ progress intros | apply ends_bind | apply ends_ret | apply ends_assert | apply ends_skip | apply ends_now
  | apply ends_file | apply ends_api | apply ends_lift; first [apply term_settled | by case_match]
  | apply neutral_api | by apply neutral_assert | apply neutral_lift | apply neutral_now | apply neutral_file ].

Lemma arrange_ends : ends (arrange device).
Proof.
  unfold arrange, assert_200, resp_json, dict_get, update_settings, get_settings, http_post, http_get. ending.
Qed.

(** Clock bounds: every deadline of the test is at most 30 s away. *)
Lemma deadline_bound (w : fworld (D := D)) d i : ticking F 30 (clk w) -> (d <= 30)%Q ->
  forall j, (i + F <= j)%nat -> (clk w i + d <= clk w j)%Q.
Proof. intros Ht Hd. by apply (ticking_after F 30). Qed.

Lemma revert_ends fuel w dl v m :
  (forall j, (m <= j)%nat -> (dl <= clk w j)%Q) -> (m - readings w < fuel)%nat ->
  settled (revert_poll device fuel dl v w).1.
Proof.
  revert w v. induction fuel as [|fuel IH]; intros w v Hm Hf; [lia|]. cbn [revert_poll].
  unfold bind at 1, fnow, on_bus, bmonotonic. destruct (Qle_bool dl (bclock (fbus w) (breadings (fbus w)))) eqn:Eq; [done|].
  assert (readings w < m)%nat as Hlt.
  { destruct (decide (readings w < m)%nat); [done|].
    assert (dl <= clk w (readings w))%Q as Hd%Qle_bool_iff by (apply Hm; lia). unfold clk, readings in Hd. congruence. }
  set (w1 := FWorld _ _ _ _ _). unfold bind at 1, get_settings, http_get, on_api.
  destruct (session_request_spec device (Request GET "/settings" None (scalar 30)) (fapi w1))
    as (r & d & t & c & -> & Hd & _).
  pose proof (device_settled (Request GET "/settings" None (scalar 30)) (dev (fapi w1))) as Hs. rewrite Hd in Hs.
  destruct r as [resp|e|]; [|done|done]. unfold bind, assert_200, assert_msg.
  destruct (status_code resp =? 200); [|done]. unfold ret, lift. pose proof (term_settled resp) as Hst.
  destruct (term_of resp) as [v'|e|]; [|done|done]. destruct (is_True v'); [done|].
  apply IH; [done|]. unfold readings in *. cbn. lia.
Qed.

Lemma scan_ends fuel (w : fworld (D := D)) off dl m :
  (forall j, (m <= j)%nat -> (dl <= clk w j)%Q) -> (m - readings w < fuel)%nat ->
  settled (scan_loop fuel off dl w).1.
Proof.
  revert w. induction fuel as [|fuel IH]; intros w Hm Hf; [lia|]. cbn [scan_loop].
  unfold read_tail, log_file, bind at 1, bind at 1, ret at 1. cbn [fst snd].
  unfold bind at 1, fnow at 1, on_bus at 1, bmonotonic at 1. cbn [fst snd]. set (w1 := FWorld _ _ _ _ _).
  assert (forall w2 : fworld (D := D), clk w2 = clk w -> readings w2 = S (S (readings w)) ->
    Qle_bool dl (clk w (S (readings w))) = false -> settled (scan_loop fuel off dl w2).1) as Hrec.
  { intros w2 Hc Hr Hq. apply IH; [by rewrite Hc|]. destruct (decide (S (readings w) < m)%nat); [lia|].
    assert (dl <= clk w (S (readings w)))%Q as Hd%Qle_bool_iff by (apply Hm; lia). congruence. }
  destruct (String.eqb _ "").
  - unfold bind, fnow, on_bus, bmonotonic. destruct (Qle_bool dl _) eqn:Eq; [done|]. by apply Hrec.
  - destruct (mk_reset_completed _); [done|].
    unfold bind, fnow, on_bus, bmonotonic. destruct (Qle_bool dl _) eqn:Eq; [done|]. by apply Hrec.
Qed.

Lemma hold_ends fuel : (F + F < fuel)%nat -> ends (hold_button fuel).
Proof.
  intros Hf. unfold hold_button, _serial_log_offset. repeat apply ends_bind; ending.
  - intros w Hw. unfold on_bus, iobus_init, bind at 1, modify. destruct (releasing_subscribe
      (Bus ∅ [] [] 0 (inbox (fbus w)) (sent (fbus w)) (bclock (fbus w)) (breadings (fbus w)))) as (b1 & E1 & C1 & _).
    unfold bind. rewrite E1. destruct (pump_returns F 30 fuel 1 b1) as (b2 & -> & _); [|discriminate|lia|done].
    cbn in C1. by rewrite C1.
  - apply neutral_bus, clocked_init.
  - intros w Hw. unfold on_bus.
    by destruct (press_button_holds F 30 fuel _FACTORY_RESET_HOLD_S (fbus w)) as (R & b & n & k & -> & _).
  - apply neutral_bus, clocked_press.
  - intros w Hw. unfold on_bus. destruct (pump_returns F 30 fuel 2 (fbus w)) as (b2 & -> & _); [done|discriminate|lia|done].
  - apply neutral_bus, clocked_pump.
Qed.

Lemma classify_ends mk R v : ends (classify_reset device mk R v).
Proof.
  unfold classify_reset.
  assert (forall f, ends (let* t := _reread_term device in assert_msg (is_True t) f)) as Hr.
  { intros f. apply ends_bind; [|apply reread_neutral|intros; apply ends_assert].
    unfold _reread_term. apply ends_bind; [|apply neutral_try; ending; by apply neutral_skip|].
    - intros w Hw. unfold try_except, get_settings, http_get. pose proof (ends_api (Request GET "/settings" None (scalar 30)) w Hw) as He.
      destruct (on_api _ w) as [[r|e|] w1]; [done| |done]. by destruct (catches RequestException e).
    - unfold assert_200. ending. }
  destruct (mk_reset_completed mk); [apply Hr|]. destruct (mk_term_key_written mk); [apply Hr|].
  destruct (_ || _ || _); [apply ends_skip|]. destruct (negb _); [apply ends_skip|].
  intros w Hw. unfold bind. destruct (_guest_held_ms_after_press mk R) as [h|]; [|done].
  destruct (Qle_bool verdict_threshold_ms h); [|done]. by destruct (is_True v).
Qed.

Lemma body_ends fuel : (F + F < fuel)%nat -> ends (body device fuel).
Proof.
  intros Hf. unfold body. apply ends_bind; [apply arrange_ends | apply arrange_neutral | intros _].
  apply ends_bind; [by apply hold_ends | apply hold_neutral | intros [off R]].
  intros w Hw. unfold bind at 1, fnow, on_bus, bmonotonic. set (w1 := FWorld _ _ _ _ _).
  assert (clk w1 = clk w) as C1 by done.
  unfold bind. destruct (revert_neutral device fuel (bclock (fbus w) (breadings (fbus w)) + _REVERT_POLL_MAX_S) JNull w1) as [[C2 _ _] _].
  assert (settled (revert_poll device fuel (bclock (fbus w) (breadings (fbus w)) + _REVERT_POLL_MAX_S) JNull w1).1) as Hs.
  { apply (revert_ends fuel w1 _ _ (readings w + F)); [|unfold readings; cbn; lia].
    rewrite C1. by apply (deadline_bound w 30). }
  destruct (revert_poll _ _ _ _ w1) as [[v|e|] w2]; [|done|done]. cbn in C2. destruct (is_True v); [done|].
  unfold step4, bind. destruct off as [o|]; [|done]. cbn [_button_markers_since].
  unfold bind at 1, fnow, on_bus, bmonotonic. set (w3 := FWorld _ _ _ _ _).
  assert (ticking F 30 (clk w3)) as Hw3 by (unfold clk in *; cbn; by rewrite C2).
  assert (settled (scan_loop fuel o (bclock (fbus w2) (breadings (fbus w2)) + _SERIAL_SCAN_MAX_S) w3).1) as Hs3.
  { apply (scan_ends fuel w3 o _ (readings w2 + F)); [|unfold readings; cbn; lia].
    apply (deadline_bound w3 _SERIAL_SCAN_MAX_S (readings w2) Hw3). discriminate. }
  destruct (scan_neutral fuel o (bclock (fbus w2) (breadings (fbus w2)) + _SERIAL_SCAN_MAX_S) w3) as [[C4 _ _] _].
  destruct (scan_loop _ _ _ w3) as [[[mk|]|e|] w4]; try done. apply classify_ends.
  unfold clk in *. cbn in C4. by rewrite C4.
Qed.

(** The factory-reset test always ends, and always puts the settings back.
    Once the original settings have been read, and whatever the device and the
    log do afterwards, the last request of the test writes them back; a
    restore that fails in transport does not replace the verdict of the body,
    which is the verdict of the test. *)
Theorem factory_test_restores (fuel : nat) (w : fworld) (resp : response) (os : json) (d : D) :
  ticking F 30 (clk w) -> (F + F < fuel)%nat ->
  (forall q d e, (device q d).1 = Raise e -> catches RequestException e = true) ->
  device (Request GET "/settings" None (scalar 30)) (dev (fapi w)) = (Ok resp, d) ->
  status_code resp = 200 -> body_json resp = Some os ->
  exists w1 w2 w', log (fapi w1) = log (fapi w) ++ [Request GET "/settings" None (scalar 30)] /\
    body device fuel w1 = ((body device fuel w1).1, w2) /\ settled (body device fuel w1).1 /\
    test_factory_reset_long_press device fuel w = ((body device fuel w1).1, w') /\ said w' = said w2 /\
    log (fapi w') = log (fapi w2) ++ [Request POST "/settings" (Some os) (scalar 30)].
Proof.
  intros Hw Hf Hexn Hget H200 Hjson. unfold test_factory_reset_long_press.
  unfold bind at 1, on_api at 1, get_settings, http_get.
  destruct (session_request_spec device (Request GET "/settings" None (scalar 30)) (fapi w))
    as (r & d' & t & c & -> & Hd & _). rewrite Hget in Hd. injection Hd as <- <-.
  unfold bind at 1, assert_200, assert_msg. rewrite H200. cbn [Z.eqb Pos.eqb ret].
  unfold bind at 1, lift, resp_json. rewrite Hjson. set (w1 := FWorld _ _ _ _ _).
  pose proof (body_ends fuel Hf w1 Hw) as Hs.
  destruct (body device fuel w1) as [r w2] eqn:Eb. exists w1, w2. rewrite Eb. cbn [fst].
  destruct (settings_restored device os w2) as (a & r' & x & Er & Hl & He).
  eexists (FWorld a (fbus w2) (serial w2) (said w2) _). split; [done|]. split; [done|]. split; [done|].
  split; [|done]. unfold try_finally. rewrite Eb, Er.
  destruct r' as [[]|e|].
  - by destruct r.
  - destruct (He e eq_refl) as (Hc & dd & Hdd). rewrite (Hexn _ _ _ Hdd) in Hc. done.
  - exfalso. revert Er. unfold restore, try_except, bind, on_api, update_settings, http_post.
    destruct (session_request_spec device (Request POST "/settings" (Some os) (scalar 30)) (fapi w2))
      as (r'' & d'' & t'' & c'' & -> & Hd & _).
    pose proof (device_settled (Request POST "/settings" (Some os) (scalar 30)) (dev (fapi w2))) as Hset.
    rewrite Hd in Hset. destruct r'' as [|e|]; [done| |done]. by destruct (catches RequestException e).
Qed.

End Ends.

(** A firmware that misses the long press on an idle node. *)
Definition demo_device (term : bool) (q : request) (d : unit) : outcome response * unit :=
  (Ok (Response 200 "" (Some (match meth q with
     | GET => JObj [("rs485_1", JObj [("term", JBool term)])]
     | POST => JObj [("success", JBool true)]
     end)) []), tt).

Definition demo_line (s : string) : string := s +:+ String LF EmptyString.

Definition demo_log (k : nat) : option string := Some
  (demo_line "I (900) main: started" +:+
   if (k <? 10)%nat then ""
   else demo_line "I (10000) config_button: Button press event, counter: 1" +:+
        demo_line "I (70000) settings_manager: Settings GET request").

(** A firmware that says the reset completed, and did not revert the key. *)
Definition demo_log_completed (k : nat) : option string := Some
  (demo_line "I (900) main: started" +:+
   if (k <? 10)%nat then ""
   else demo_line "I (10000) config_button: Button press event, counter: 1" +:+
        demo_line "W (15100) settings_manager: Factory reset completed!").

Definition demo_world (log : nat -> option string) : fworld (D := unit) :=
  FWorld (AWorld tt [] ∅ 1 0%Q (fun _ => 0%Q))
    (Bus ∅ [] [] 0 [] [] (fun i => inject_Z (Z.of_nat i)) 0) log None [].

Lemma demo_clock log i j : (i <= j)%nat -> (clk (demo_world log) i <= clk (demo_world log) j)%Q.
Proof. intros H. cbn. rewrite <- Zle_Qle. lia. Qed.


(** A guest that runs at a tenth of the host's speed sees the press and not
    the long press; its log is one the test must not take for a defect. *)
Definition slow_clock (t : Q) : Z := Z.max 0 (Qfloor (100 * t)).

Lemma slow_never_leads : never_leads slow_clock.
Proof.
  intros s t Hst. unfold slow_clock. set (a := (100 * s)%Q). set (b := (100 * t)%Q).
  assert (a <= b)%Q as Hab by (unfold a, b; lra). pose proof (Qfloor_resp_le a b Hab) as Hm.
  split; [lia|].
  assert (inject_Z (Qfloor b - Qfloor a) <= (b - a) + 1)%Q as Hd.
  { pose proof (Qfloor_le b). pose proof (Qlt_floor a) as Hf. rewrite inject_Z_plus in Hf.
    unfold Z.sub. rewrite inject_Z_plus, inject_Z_opp. change (inject_Z 1) with 1%Q in Hf. lra. }
  assert (inject_Z (Z.max 0 (Qfloor b) - Z.max 0 (Qfloor a)) <= (b - a) + 1)%Q as Hd'.
  { eapply Qle_trans; [|exact Hd]. rewrite <- Zle_Qle. lia. }
  subst a b. lra.
Qed.

Example slow_guest_run :
  guest_run slow_clock 30 60
    (demo_line "I (2000) config_button: Button press event, counter: 1" +:+
     demo_line "I (5900) settings_manager: Settings GET request" +:+ "I (59")
    0 [((194 # 10)%Q, true)] (20%Q, true) [(25%Q, true); (31%Q, false); (32%Q, false)].
Proof.
  split.
  - exact slow_never_leads.
  - intros t Ht. unfold slow_clock. pose proof (Qfloor_resp_le (100 * t) 6000 ltac:(lra)) as Hf.
    change (Qfloor 6000) with 6000 in Hf. unfold tick_mod. lia.
  - intros line ts Hin Hl.
    match type of Hin with _ ∈ ?l => let l' := eval vm_compute in l in change l with l' in Hin end.
    rewrite !elem_of_cons, elem_of_nil in Hin.
    destruct Hin as [-> | [-> | [-> | []]]]; revert Hl; vm_compute; intros [=].
    + subst ts. exists 20%Q. split; [discriminate | reflexivity].
    + subst ts. exists 59%Q. split; [discriminate | reflexivity].
  - intros p Hp. assert (p = 2000) as -> by (revert Hp; vm_compute; by intros [= ->]).
    split; [vm_compute; discriminate|]. exists 1. vm_compute. by left.
  - repeat constructor; cbn; try lra; try done; intros; vm_compute in *; congruence.
  - intros hold Hin. exfalso. revert Hin. vm_compute. by intros ?%elem_of_nil.
  - do 1 right. left. cbn. lra.
Qed.

Lemma demo_ticking : ticking 30 30 (clk (demo_world demo_log)).
Proof.
  split; [apply demo_clock|]. intros i. cbn. change 30%Q with (inject_Z 30).
  rewrite <- inject_Z_plus, <- Zle_Qle. lia.
Qed.

(** The verdict above survives, and the settings are written back. *)
Lemma factory_test_restores_witness :
  let w := demo_world demo_log in
  exists w1 w2 w' : fworld (D := unit),
    test_factory_reset_long_press (demo_device false) 80 w = ((body (demo_device false) 80 w1).1, w') /\
    said w' = said w2 /\
    log (fapi w') = log (fapi w2) ++
      [Request POST "/settings" (Some (JObj [("rs485_1", JObj [("term", JBool false)])])) (scalar 30)].
Proof.
  intros w.
  destruct (factory_test_restores (demo_device false) 30 (fun _ _ => ltac:(done)) 80 w
    (Response 200 "" (Some (JObj [("rs485_1", JObj [("term", JBool false)])])) [])
    (JObj [("rs485_1", JObj [("term", JBool false)])]) tt demo_ticking ltac:(lia) ltac:(done) eq_refl eq_refl eq_refl)
    as (w1 & w2 & w' & _ & _ & _ & Et & Hs & Hl).
  exists w1, w2, w'. split; [exact Et|]. split; [exact Hs | exact Hl].
Defined.
