(* ===== verification/MbDevice.v ===== *)
(** * The firmware's own Modbus unit: main/bridge/mb_device.c

    Unit 255 of the gateway answers reads of the device's identity and
    diagnostics.  The self-unit tests (SelfUnit) read these registers and
    compare them with what the HTTP API reports, so the register map is
    modelled here: string packing, the numeric firmware version, the map, and
    the request handler on the bytes of a frame.

    C strings are [string]s without NUL.  What the map reads from the rest of
    the firmware (clocks, heap, settings, statistics) is a record of values. *)

From Stdlib Require Import ZArith Lia Ascii String.
From stdpp Require Import base list strings.
From S2P Require Import Prelude PyBytes PyStr.

Open Scope Z_scope.

(** ** The C library functions the parser uses *)

Definition c_isspace (c : ascii) : bool :=
  let n := nat_of_ascii c in ((9 <=? n) && (n <=? 13) || (n =? 32))%nat.

(** The value of the leading digits, continuing from [acc], and the rest. *)
Fixpoint c_digits (acc : Z) (s : string) : Z * string :=
  match s with
  | String c s' =>
      match digit_val c with Some d => c_digits (10 * acc + d) s' | None => (acc, s) end
  | EmptyString => (acc, s)
  end.

Definition starts_with_digit (s : string) : bool :=
  match s with String c _ => is_digit c | EmptyString => false end.

(** An optional sign. *)
Definition c_sign (s : string) : Z * string :=
  match s with
  | String c s' => if Ascii.eqb c "-" then (-1, s') else if Ascii.eqb c "+" then (1, s') else (1, s)
  | EmptyString => (1, s)
  end.

(** [%u]: white space, a sign, digits; [None] is a matching failure.  Values
    past 32 bits are undefined in C. *)
Definition scan_u (s : string) : option (Z * string) :=
  let (sg, s1) := c_sign (lstrip_by c_isspace s) in
  if starts_with_digit s1 then
    let (v, rest) := c_digits 0 s1 in Some ((sg * v) mod 2 ^ 32, rest)
  else None.

(** [sscanf(s, "%u.%u.%u", ...)] on variables that start as zero. *)
Definition sscanf_version (s : string) : Z * Z * Z :=
  match scan_u s with
  | None => (0, 0, 0)
  | Some (major, s1) =>
      match s1 with
      | String c s1' =>
          if Ascii.eqb c "." then
            match scan_u s1' with
            | None => (major, 0, 0)
            | Some (minor, s2) =>
                match s2 with
                | String c s2' =>
                    if Ascii.eqb c "." then
                      match scan_u s2' with
                      | None => (major, minor, 0)
                      | Some (patch, _) => (major, minor, patch)
                      end
                    else (major, minor, 0)
                | EmptyString => (major, minor, 0)
                end
            end
          else (major, 0, 0)
      | EmptyString => (major, 0, 0)
      end
  end.

Definition atoi (s : string) : Z :=
  let (sg, s1) := c_sign (lstrip_by c_isspace s) in sg * (c_digits 0 s1).1.

(** On a run of digits, C's scanner and Python's [int] agree. *)
Lemma int_digits_c acc s : all_chars is_digit s = true -> int_digits acc s = Some (c_digits acc s).1.
Proof.
  revert acc. induction s as [|c s IH]; intros acc; cbn [all_chars int_digits c_digits]; [done|].
  intros H. bool_to_prop. unfold is_digit in H. apply bool_decide_eq_true in H as [d Hd]. rewrite Hd. by apply IH.
Qed.

Lemma py_int_digits s : s <> "" -> all_chars is_digit s = true -> py_int_opt s = Some (c_digits 0 s).1.
Proof.
  intros Hne Hd. unfold py_int_opt. rewrite strip_id.
  2: { eapply all_chars_impl; [|exact Hd]. intros c Hc. by rewrite digit_not_space. }
  destruct s as [|c s]; [done|]. cbn [all_chars] in Hd. bool_to_prop.
  rewrite !ascii_eqb_digit by done. unfold int_unsigned. cbn [c_digits].
  unfold is_digit in H. apply bool_decide_eq_true in H as [d Hc]. rewrite Hc.
  replace (10 * 0 + d) with d by lia. by apply int_digits_c.
Qed.

Lemma c_digits_rest acc s : all_chars is_digit s = true -> (c_digits acc s).2 = "".
Proof.
  revert acc. induction s as [|c s IH]; intros acc; cbn [all_chars c_digits]; [done|].
  intros H. bool_to_prop. unfold is_digit in H. apply bool_decide_eq_true in H as [d ->]. by apply IH.
Qed.

Lemma c_digits_show n : 0 <= n -> c_digits 0 (show_Z n) = (n, "").
Proof.
  intros Hn. pose proof (show_Z_nonneg_digits n Hn) as Hd.
  pose proof (py_int_digits _ (show_Z_nonempty n) Hd) as H. rewrite py_int_opt_show in H. injection H as H.
  pose proof (c_digits_rest 0 _ Hd) as H2. destruct (c_digits 0 (show_Z n)). cbn in *. by subst.
Qed.

(** [strstr(s, needle)], as the rest of [s] after the first occurrence. *)
Fixpoint after_sub (needle s : string) : option string :=
  if String.prefix needle s then Some (sdrop (String.length needle) s)
  else match s with EmptyString => None | String _ s' => after_sub needle s' end.

(** ** Firmware version *)

Record fw_version_t := FwVersion {
  fw_major : Z;
  fw_minor : Z;
  fw_patch : Z;
  fw_suffix : Z;
  fw_version : Z
}.

Definition parse_fw_version (firmware_ver : string) : fw_version_t :=
  let '(major, minor, patch) := sscanf_version firmware_ver in
  let suffix :=
    match after_sub "+wb" firmware_ver with
    | Some s => atoi s
    | None => match after_sub "-rc" firmware_ver with
              | Some s => - atoi s
              | None => 0
              end
    end in
  let enc := (if 0 <=? suffix then suffix + 128 else -1 - suffix) mod 2 ^ 32 in
  FwVersion major minor patch suffix
    (Z.lor (Z.lor (Z.lor (Z.shiftl (Z.land major 0xFF) 24) (Z.shiftl (Z.land minor 0xFF) 16))
              (Z.shiftl (Z.land patch 0xFF) 8))
       (Z.land enc 0xFF)).

(** ** String packing *)

Definition char_at (s : string) (i : Z) : Z :=
  match String.get (Z.to_nat i) s with Some c => Z.of_nat (nat_of_ascii c) | None => 0 end.

Definition strlen (s : string) : Z := Z.of_nat (String.length s).

Definition pack_string_reg_1c (s : string) (maxlen base addr : Z) : Z :=
  let i := addr - base in
  if (i <? strlen s) && (i <? maxlen) then char_at s i else 0.

Definition pack_string_reg_2c (s : string) (maxlen base addr : Z) : Z :=
  let i := (addr - base) * 2 in
  let lo := if (i <? strlen s) && (i <? maxlen) then char_at s i else 0 in
  let hi := if (i + 1 <? strlen s) && (i + 1 <? maxlen) then char_at s (i + 1) else 0 in
  Z.lor (Z.shiftl hi 8) lo.

(** ** The register map *)

Inductive esp_reset_reason : Type :=
| ESP_RST_UNKNOWN | ESP_RST_POWERON | ESP_RST_EXT | ESP_RST_SW | ESP_RST_PANIC | ESP_RST_INT_WDT
| ESP_RST_TASK_WDT | ESP_RST_WDT | ESP_RST_DEEPSLEEP | ESP_RST_BROWNOUT | ESP_RST_SDIO.

(** What the map reports. *)
Record device_env := DeviceEnv {
  uptime_us : Z;                   (* esp_timer_get_time() *)
  supply_mv : Z;                   (* the supply voltage in mV, rounded *)
  device_name : string;
  firmware_git_info : string;
  firmware_ver : string;
  device_serial_num : Z;
  device_signature : string;
  cache_value_timeout_s : Z;
  packets_processed : Z;
  last_packet_age_s : Z;
  devices_on_bus : Z;
  map_age_s : Z;
  heap_total : Z;                  (* heap_caps_get_total_size, internal *)
  heap_free : Z -> Z;              (* heap_caps_get_free_size, when this register is read *)
  reset_reason : esp_reset_reason
}.

Definition u16 (x : Z) : Z := x mod 65536.
Definition sat_u16 (v : Z) : Z := if 0xFFFF <? v then 0xFFFF else v.

Definition map_reboot_reason (r : esp_reset_reason) : Z :=
  match r with
  | ESP_RST_BROWNOUT | ESP_RST_DEEPSLEEP => 1
  | ESP_RST_INT_WDT => 2
  | ESP_RST_TASK_WDT | ESP_RST_WDT => 3
  | ESP_RST_SW | ESP_RST_PANIC => 4
  | ESP_RST_POWERON => 5
  | ESP_RST_EXT => 6
  | _ => 0
  end.

Definition within (base count addr : Z) : bool := (base <=? addr) && (addr <? base + count).

(** The [shift]-th 16-bit word of a value, MSW first among [count]. *)
Definition msw_word (v count i : Z) : Z := u16 (Z.shiftr v ((count - 1 - i) * 16)).

Definition fw_reg (fw : fw_version_t) (addr : Z) : Z :=
  if addr =? 320 then u16 (fw_major fw)
  else if addr =? 321 then u16 (fw_minor fw)
  else if addr =? 322 then u16 (fw_patch fw)
  else if addr =? 323 then u16 (fw_suffix fw)
  else if (addr =? 324) || (addr =? 327) then u16 (fw_version fw)
  else u16 (Z.shiftr (fw_version fw) 16).

Definition stats_reg (e : device_env) (addr : Z) : Z :=
  if addr =? 528 then u16 (Z.shiftr (packets_processed e) 16)
  else if addr =? 529 then u16 (packets_processed e)
  else if addr =? 530 then u16 (Z.shiftr (last_packet_age_s e) 16)
  else if addr =? 531 then u16 (last_packet_age_s e)
  else if addr =? 532 then u16 (devices_on_bus e)
  else if 0 <? map_age_s e then sat_u16 (packets_processed e * 60 / map_age_s e) else 0.

Definition device_get_reg (e : device_env) (addr : Z) : option Z :=
  if (addr =? 104) || (addr =? 105) then
    let uptime_s := (uptime_us e / 1000000) mod 2 ^ 32 in
    Some (if addr =? 104 then u16 (Z.shiftr uptime_s 16) else u16 uptime_s)
  else if addr =? 121 then Some (u16 (supply_mv e))
  else if within 200 20 addr then Some (pack_string_reg_1c (device_name e) 20 200 addr)
  else if within 220 25 addr then Some (pack_string_reg_2c (firmware_git_info e) 50 220 addr)
  else if within 250 16 addr then Some (pack_string_reg_1c (firmware_ver e) 16 250 addr)
  else if within 266 2 addr then Some (msw_word 4 2 (addr - 266))
  else if within 268 4 addr then Some (msw_word (device_serial_num e) 4 (addr - 268))
  else if within 290 12 addr then Some (pack_string_reg_1c (device_signature e) 12 290 addr)
  else if within 320 8 addr then Some (fw_reg (parse_fw_version (firmware_ver e)) addr)
  else if addr =? 534 then Some (u16 (cache_value_timeout_s e))
  else if within 528 6 addr then Some (stats_reg e addr)
  else if addr =? 65505 then Some (sat_u16 (heap_total e / 1024))
  else if addr =? 65506 then
    let free_internal := heap_free e addr in
    let used := if free_internal <? heap_total e then heap_total e - free_internal else 0 in
    Some (sat_u16 (used / 1024))
  else if addr =? 65507 then Some (sat_u16 (heap_free e addr / 1024))
  else if addr =? 65508 then Some (map_reboot_reason (reset_reason e))
  else None.

(** ** The handler *)

Definition ILLEGAL_FUNCTION : Z := 1.
Definition ILLEGAL_ADDRESS : Z := 2.
Definition ILLEGAL_DATA_VALUE : Z := 3.

(** Every register of the range, or [None] when one is undefined. *)
Fixpoint read_range (e : device_env) (addr : Z) (count : nat) : option (list Z) :=
  match count with
  | O => Some []
  | S count =>
      match device_get_reg e addr with
      | None => None
      | Some v => cons v <$> read_range e (addr + 1) count
      end
  end.

Definition reg_be (v : Z) : list Z := [Z.shiftr v 8; Z.land v 0xFF].

(** The response, or the exception code. *)
Definition mb_device_build_read_response (e : device_env) (unit_id fc : Z) (tid : list Z)
  (start_addr count : Z) : list Z + Z :=
  if negb ((fc =? 3) || (fc =? 4)) then inr ILLEGAL_FUNCTION
  else if 0x10000 <? start_addr + count then inr ILLEGAL_ADDRESS
  else match read_range e start_addr (Z.to_nat count) with
       | None => inr ILLEGAL_ADDRESS
       | Some vs =>
           let byte_count := (count * 2) mod 256 in
           inl (tid ++ [0; 0] ++ reg_be (3 + byte_count) ++ [unit_id; fc] ++ [byte_count] ++ (vs ≫= reg_be))
       end.

(** [modbus_pdu_build_exception] *)
Definition build_exception (tid : list Z) (unit_id fc exc : Z) : list Z :=
  tid ++ [0; 0] ++ [0; 3] ++ [unit_id; Z.lor fc 0x80] ++ [exc].

Definition mb_device_handle_self_request (e : device_env) (req : list Z) : list Z :=
  let tid := take 2 req in
  let unit_id := byte_at req 6 in
  let fc := byte_at req 7 in
  if negb ((fc =? 3) || (fc =? 4)) then build_exception tid unit_id fc ILLEGAL_FUNCTION
  else if zlen req <? 8 + 4 then build_exception tid unit_id fc ILLEGAL_DATA_VALUE
  else
    let start := Z.lor (Z.shiftl (byte_at req 8) 8) (byte_at req 9) in
    let count := Z.lor (Z.shiftl (byte_at req 10) 8) (byte_at req 11) in
    if (count <? 1) || (125 <? count) then build_exception tid unit_id fc ILLEGAL_DATA_VALUE
    else match mb_device_build_read_response e unit_id fc tid start count with
         | inl frame => frame
         | inr exc => build_exception tid unit_id fc exc
         end.

(** ** Every register is a 16-bit value *)

(** The figures of the rest of the firmware, which are unsigned. *)
Record env_ok (e : device_env) : Prop := {
  ok_heap : 0 <= heap_total e;
  ok_free : forall a, 0 <= heap_free e a;
  ok_packets : 0 <= packets_processed e
}.

Lemma u16_ok x : is_u16 (u16 x).
Proof. unfold is_u16, u16. apply Z.mod_pos_bound. lia. Qed.

Lemma sat_u16_ok v : 0 <= v -> is_u16 (sat_u16 v).
Proof. unfold is_u16, sat_u16. intros H. destruct (Z.ltb_spec 0xFFFF v); lia. Qed.

Lemma char_at_byte s i : is_byte (char_at s i).
Proof.
  unfold is_byte, char_at. destruct (String.get (Z.to_nat i) s) as [c|]; [|lia].
  pose proof (nat_ascii_bounded c). lia.
Qed.

Lemma pack_1c_byte s m b a : is_byte (pack_string_reg_1c s m b a).
Proof. unfold pack_string_reg_1c. destruct (_ && _); [apply char_at_byte | unfold is_byte; lia]. Qed.

Lemma pack_2c_u16 s m b a : is_u16 (pack_string_reg_2c s m b a).
Proof.
  assert (forall (c : bool) i, is_byte (if c then char_at s i else 0)) as H.
  { intros [] i; [apply char_at_byte | unfold is_byte; lia]. }
  unfold pack_string_reg_2c. rewrite lor_shiftl_8 by apply H.
  pose proof (H (((a - b) * 2 <? strlen s) && ((a - b) * 2 <? m)) ((a - b) * 2)).
  pose proof (H (((a - b) * 2 + 1 <? strlen s) && ((a - b) * 2 + 1 <? m)) ((a - b) * 2 + 1)).
  unfold is_byte, is_u16 in *. lia.
Qed.

Lemma byte_u16 x : is_byte x -> is_u16 x.
Proof. unfold is_byte, is_u16. lia. Qed.

#[local] Hint Resolve u16_ok sat_u16_ok pack_1c_byte pack_2c_u16 byte_u16 ok_heap ok_free ok_packets : wbmge.

Lemma device_reg_u16 (e : device_env) (addr v : Z) :
  env_ok e -> device_get_reg e addr = Some v -> is_u16 v.
Proof.
  intros He. unfold device_get_reg, fw_reg, stats_reg, msw_word.
  repeat match goal with |- (if ?b then _ else _) = _ -> _ => destruct b end; intros [= <-];
    repeat case_match; auto with wbmge; try (unfold is_u16; lia);
    try (destruct (reset_reason e); unfold is_u16; cbn; lia);
    apply sat_u16_ok; bool_to_prop; pose proof (ok_packets e He); pose proof (ok_heap e He);
    pose proof (ok_free e He addr); apply Z.div_pos; lia.
Qed.

Definition demo_env : device_env :=
  DeviceEnv 90000000 24012 "MGE-3" "abcdef12" "1.12.3-rc2" 0x112233445566 "mge_v3" 33 1000 4 2 60
    435200 (fun a => if a =? 65506 then 256000 else 265216) ESP_RST_SW.

(** ** The handler's answers *)

Lemma read_range_spec e addr n vs :
  read_range e addr n = Some vs ->
  length vs = n /\ forall i, (i < n)%nat -> device_get_reg e (addr + Z.of_nat i) = vs !! i.
Proof.
  revert addr vs. induction n as [|n IH]; intros addr vs; cbn [read_range].
  { intros [= <-]. split; [done | lia]. }
  destruct (device_get_reg e addr) as [v|] eqn:E; [|done].
  destruct (read_range e (addr + 1) n) as [l|] eqn:El; [|done]. cbn. intros [= <-].
  destruct (IH _ _ El) as [Hl Hi]. split; [cbn; lia|]. intros [|i] Hn.
  - by rewrite Z.add_0_r.
  - cbn. rewrite <- Hi by lia. f_equal. lia.
Qed.

Lemma read_range_u16 e addr n vs : env_ok e -> read_range e addr n = Some vs -> Forall is_u16 vs.
Proof.
  intros He H. destruct (read_range_spec e addr n vs H) as [Hl Hi]. apply Forall_lookup. intros i v Hv.
  eapply device_reg_u16; [exact He|]. rewrite (Hi i); [exact Hv|]. rewrite <- Hl. by eapply lookup_lt_Some.
Qed.

Lemma reg_be_word v : reg_be v = [v / 256; v mod 256].
Proof. unfold reg_be. by rewrite shiftr_8, land_255. Qed.

(** A read of a legal size in unit [u] with transaction id [t]. *)
Lemma handle_answer e t1 t2 u fc start count :
  (fc = 3 \/ fc = 4) -> is_u16 start -> 1 <= count <= 125 -> start + count <= 65536 ->
  mb_device_handle_self_request e
    ([t1; t2; 0; 0; 0; 6; u; fc; start / 256; start mod 256; count / 256; count mod 256]) =
  match read_range e start (Z.to_nat count) with
  | Some vs => [t1; t2; 0; 0] ++ reg_be (3 + 2 * count) ++ [u; fc; 2 * count] ++ (vs ≫= reg_be)
  | None => build_exception [t1; t2] u fc ILLEGAL_ADDRESS
  end.
Proof.
  intros Hfc Hs Hc Hr. unfold mb_device_handle_self_request.
  cbn [take byte_at lookup list_lookup default from_option id]. unfold byte_at.
  cbn [lookup list_lookup default from_option id].
  assert (negb ((fc =? 3) || (fc =? 4)) = false) as E by (destruct Hfc as [-> | ->]; done). rewrite E.
  destruct (u16_split start Hs) as [_ Hb1]. destruct (u16_split count ltac:(unfold is_u16; lia)) as [_ Hb2].
  rewrite !lor_shiftl_8, !u16_join by done. cbn [zlen length].
  change (zlen _ <? 8 + 4) with false. cbv iota.
  rewrite (proj2 (Z.ltb_ge count 1)), (proj2 (Z.ltb_ge 125 count)) by lia. cbn [orb].
  unfold mb_device_build_read_response. rewrite E, (proj2 (Z.ltb_ge 0x10000 _)) by lia.
  destruct (read_range e start (Z.to_nat count)) as [vs|]; [|done].
  rewrite Z.mod_small by lia. replace (count * 2) with (2 * count) by lia. done.
Qed.

(** ** Every answer is a frame *)

(** A Modbus TCP frame that answers [req]: bytes; the transaction id, the
    protocol and the unit echoed; the length field covers the rest; the
    function code is the request's, or flagged as an exception with one code
    byte. *)
Record answers (req r : list Z) : Prop := {
  an_bytes : bytes_ok r;
  an_tid : take 4 r = take 2 req ++ [0; 0];
  an_length : 256 * byte_at r 4 + byte_at r 5 = zlen r - 6;
  an_size : 9 <= zlen r <= 259;
  an_unit : byte_at r 6 = byte_at req 6;
  an_fc : byte_at r 7 = byte_at req 7 \/
          byte_at r 7 = Z.lor (byte_at req 7) 0x80 /\ zlen r = 9 /\ 1 <= byte_at r 8 <= 3
}.

Lemma exception_answers req exc :
  bytes_ok req -> (8 <= length req)%nat -> 1 <= exc <= 3 ->
  answers req (build_exception (take 2 req) (byte_at req 6) (byte_at req 7) exc).
Proof.
  intros Hb Hl He. destruct req as [|t1 [|t2 req]]; [cbn in Hl; lia..|]. change (take 2 (t1 :: t2 :: req)) with [t1; t2].
  pose proof (byte_at_ok _ 6 Hb) as H6. pose proof (byte_at_ok _ 7 Hb) as H7.
  apply bytes_ok_cons in Hb as [Ht1 Hb]. apply bytes_ok_cons in Hb as [Ht2 _].
  set (u := byte_at _ 6) in *. set (f := byte_at _ 7) in *.
  assert (is_byte (Z.lor f 0x80)) as Hf by (apply lor_byte; unfold is_byte in *; lia).
  unfold build_exception. cbn [app].
  split; unfold byte_at, zlen; cbn [lookup list_lookup default from_option id length take app];
    try done; try lia.
  - unfold bytes_ok. repeat (apply Forall_cons; split); try done; unfold is_byte; lia.
  - right. split_and!; [done | done | lia | lia].
Qed.

Lemma registers_bytes vs : Forall is_u16 vs -> bytes_ok (vs ≫= reg_be) /\ length (vs ≫= reg_be) = (2 * length vs)%nat.
Proof.
  induction 1 as [|v vs Hv Hvs [IH1 IH2]]; [by split; [constructor|]|]. rewrite bind_cons, reg_be_word.
  destruct (u16_split v Hv) as [H1 H2]. split.
  - apply bytes_ok_app. split; [|done]. apply bytes_ok_cons. split; [done|]. apply bytes_ok_cons. by split; [|constructor].
  - rewrite length_app, IH2. cbn. lia.
Qed.

(** C38. Every answer of the self unit is a well-formed frame.  Whatever bytes
    of at least a header's length arrive, and whatever the identity strings,
    the statistics and the heap hold, the handler answers with a frame of
    bytes whose length field is right, at most 259 bytes long, that echoes the
    transaction and the unit; registers are 16-bit values, and an exception
    carries one of the codes 1 to 3. *)
Theorem self_answers_well_formed (e : device_env) (req : list Z) :
  env_ok e -> bytes_ok req -> (8 <= length req)%nat ->
  answers req (mb_device_handle_self_request e req).
Proof.
  intros He Hb Hl. unfold mb_device_handle_self_request.
  destruct (negb _) eqn:Ef; [apply exception_answers; try done; unfold ILLEGAL_FUNCTION; lia|].
  destruct (zlen req <? 8 + 4) eqn:El; [apply exception_answers; try done; unfold ILLEGAL_DATA_VALUE; lia|].
  set (start := Z.lor _ (byte_at req 9)). set (count := Z.lor _ (byte_at req 11)).
  assert (0 <= start) as Hs.
  { unfold start. rewrite lor_shiftl_8 by by apply byte_at_ok. pose proof (byte_at_ok req 8 Hb).
    pose proof (byte_at_ok req 9 Hb). unfold is_byte in *. lia. }
  clearbody start count.
  destruct ((count <? 1) || (125 <? count)) eqn:Ec;
    [apply exception_answers; try done; unfold ILLEGAL_DATA_VALUE; lia|].
  unfold mb_device_build_read_response. rewrite Ef.
  destruct (0x10000 <? start + count); [apply exception_answers; try done; unfold ILLEGAL_ADDRESS; lia|].
  destruct (read_range e start (Z.to_nat count)) as [vs|] eqn:Er;
    [|apply exception_answers; try done; unfold ILLEGAL_ADDRESS; lia].
  pose proof (read_range_u16 _ _ _ _ He Er) as Hu. destruct (read_range_spec _ _ _ _ Er) as [Hlen _].
  destruct (registers_bytes vs Hu) as [Hvb Hvl]. apply orb_false_iff in Ec as [E1 E2]. bool_to_prop.
  rewrite Z.mod_small by lia. rewrite reg_be_word, Z.div_small, Z.mod_small by lia.
  destruct req as [|t1 [|t2 req]]; [cbn in Hl; lia..|]. change (take 2 (t1 :: t2 :: req)) with [t1; t2]. cbn [app].
  pose proof (byte_at_ok _ 6 Hb) as H6. pose proof (byte_at_ok _ 7 Hb) as H7.
  apply bytes_ok_cons in Hb as [Ht1 Hb']. apply bytes_ok_cons in Hb' as [Ht2 _].
  set (u := byte_at _ 6) in *. set (f := byte_at _ 7) in *.
  split; unfold byte_at, zlen; cbn [lookup list_lookup default from_option id length take app];
    rewrite ?Hvl; try done; try lia.
  - unfold bytes_ok. repeat (apply Forall_cons; split); try done; unfold is_byte; lia.
  - by left.
Qed.

Lemma self_answers_well_formed_witness :
  answers [0; 66; 0; 0; 0; 6; 255; 4; 1; 64; 0; 8]
    (mb_device_handle_self_request demo_env [0; 66; 0; 0; 0; 6; 255; 4; 1; 64; 0; 8]).
Proof.
  apply self_answers_well_formed.
  - split; cbn; try lia. intros a. destruct (a =? 65506); lia.
  - unfold bytes_ok. repeat (apply Forall_cons; split); try done; unfold is_byte; lia.
  - cbn. lia.
Defined.
