(* ===== verification/SelfUnit.v ===== *)
(** * The self-unit tests: api_tests/43_test_device_self_unit_e2e.py

    The tests read the registers of Modbus unit 255 over a fresh TCP connection
    and compare them with what the HTTP API reports.  A world has the HTTP side
    (ApiClient) and, in order, the connections the test will open: the exception
    [connect] raises, or a socket (Sockets) with what its peer will send.  The
    firmware's side of such a connection is MbDevice. *)

From Stdlib Require Import QArith Ascii String.
From stdpp Require Import base list gmap strings.
From Stdlib Require Import ZArith Lia.
From S2P Require Import Prelude PyBytes PyStr RtuSlave Sockets ModbusTcp ApiClient MbDevice.

Open Scope Z_scope.
Open Scope py_scope.

Definition SELF_UNIT_ID : Z := 0xFF.

(** ** Decoders *)

(** [bytes.decode("latin-1")], and its inverse. *)
Definition latin1 (l : list Z) : string :=
  string_of_list_ascii ((fun b => ascii_of_nat (Z.to_nat b)) <$> l).
Definition latin1_bytes (s : string) : list Z :=
  (fun c => Z.of_nat (nat_of_ascii c)) <$> list_ascii_of_string s.

(** [raw.rstrip(b"\x00")] *)
Fixpoint rstrip_nul (l : list Z) : list Z :=
  match l with
  | [] => []
  | b :: l =>
      match rstrip_nul l with
      | [] => if b =? 0 then [] else [b]
      | r => b :: r
      end
  end.

Fixpoint mem8_bytes (values : list Z) : outcome (list Z) :=
  match values with
  | [] => Ok []
  | v :: values =>
      if Z.shiftr v 8 =? 0 then let? raw := mem8_bytes values in Ok (Z.land v 0xFF :: raw)
      else Raise AssertionError
  end.

Definition decode_mem8 (values : list Z) : outcome string :=
  let? raw := mem8_bytes values in Ok (latin1 (rstrip_nul raw)).

Definition decode_git_string (values : list Z) : string :=
  latin1 (rstrip_nul (values ≫= (fun v => [Z.land v 0xFF; Z.land (Z.shiftr v 8) 0xFF]))).

Definition regs_from_payload (payload : list Z) : outcome (list Z) :=
  match payload with
  | [] => Raise AssertionError
  | byte_count :: _ =>
      if zlen payload <? 1 + byte_count then Raise AssertionError
      else mapM_ok (fun i => unpack_H (slice (1 + i * 2) (1 + i * 2 + 2) payload))
             (seq 0 (Z.to_nat (byte_count / 2)))
  end.

(** ** The numeric version *)

Fixpoint lead_digits (s : string) : string :=
  match s with
  | String ch s' => if is_digit ch then String ch (lead_digits s') else EmptyString
  | EmptyString => EmptyString
  end.

Definition lead_uint (s : string) : Z :=
  match lead_digits s with
  | EmptyString => 0
  | digits => default 0 (py_int_opt digits)
  end.

(** [parts[i]], 0 when there are not that many parts. *)
Definition part (i : nat) (parts : list string) : Z := from_option lead_uint 0 (parts !! i).

(** (major, minor, patch, suffix, version); [s.split(sep, 1)[1]] is what
    follows the first [sep]. *)
Definition expected_numeric_version (firmware : string) : Z * Z * Z * Z * Z :=
  let parts := split_on "." firmware in
  let major := part 0 parts in
  let minor := part 1 parts in
  let patch := part 2 parts in
  let suffix :=
    match after_sub "+wb" firmware with
    | Some s => lead_uint s
    | None => match after_sub "-rc" firmware with
              | Some s => - lead_uint s
              | None => 0
              end
    end in
  let enc := if 0 <=? suffix then suffix + 128 else -1 - suffix in
  let version :=
    Z.lor (Z.lor (Z.lor (Z.shiftl (Z.land major 0xFF) 24) (Z.shiftl (Z.land minor 0xFF) 16))
              (Z.shiftl (Z.land patch 0xFF) 8))
       (Z.land enc 0xFF) in
  (major, minor, patch, suffix, version).

(** ** The tests *)

Section Tests.
Context {D : Type} (device : request -> D -> outcome response * D).

Record iworld := IWorld {
  iapi : aworld D;
  conns : list (option exn * sock);
  done_conns : list sock                (* the sockets after [close()] *)
}.

Definition on_http {A} (m : eff (aworld D) A) : eff iworld A := fun w =>
  let (r, a) := m (iapi w) in (r, IWorld a (conns w) (done_conns w)).

Definition assert (b : bool) : eff iworld unit := if b then ret tt else raise AssertionError.

(** The socket of one read: connect, exchange, close. *)
Definition exchange_once (c : option exn) (req : list Z) : eff sock ModbusTcp.response :=
  try_finally
    (match c with
     | Some e => raise e
     | None => send_and_receive req
     end)
    sock_close.

Definition read_self_regs (fc start count : Z) : eff iworld ModbusTcp.response :=
  let* req := lift (make_mbap_request 0x0042 SELF_UNIT_ID fc start count) in
  fun w =>
    match conns w with
    | [] => (Blocked, w)
    | (c, k) :: q =>
        let (r, k') := exchange_once c req k in
        (r, IWorld (iapi w) q (done_conns w ++ [k']))
    end.

Definition is_exception (r : ModbusTcp.response) : bool := negb (Z.land (r_fc r) 0x80 =? 0).

(** The assertions that open most of the tests, and the registers. *)
Definition self_regs (fc start count : Z) : eff iworld (list Z) :=
  let* r := read_self_regs fc start count in
  assert (negb (is_exception r)) ;;;
  assert (r_unit r =? SELF_UNIT_ID) ;;;
  lift (regs_from_payload (r_payload r)).

(** [api.get_info().json()[key]] *)
Definition info_field (key : string) : eff iworld json :=
  let* resp := on_http (get_info device) in
  let* j := lift (resp_json resp) in
  lift (match j with
        | JObj fields => match jget key fields with Some v => Ok v | None => Raise KeyError end
        | _ => Raise TypeError
        end).

(** [s == v] for a str [s] and a JSON value [v]. *)
Definition eq_str (s : string) (v : json) : bool :=
  match v with JStr s' => String.eqb s s' | _ => false end.

Definition eq_num (n : Z) (v : json) : bool :=
  match v with JNum m => n =? m | _ => false end.

Definition test_self_unit_model_matches_info : eff iworld unit :=
  let* expected := info_field "device_name" in
  let* regs := self_regs 0x04 200 20 in
  let* model := lift (decode_mem8 regs) in
  assert (eq_str model expected).

Definition test_self_unit_firmware_matches_info : eff iworld unit :=
  let* expected := info_field "firmware" in
  let* regs := self_regs 0x04 250 16 in
  let* fw := lift (decode_mem8 regs) in
  assert (eq_str fw expected).

Definition test_self_unit_git_info_matches_info : eff iworld unit :=
  let* expected := info_field "git_info" in
  let* regs := self_regs 0x04 220 25 in
  assert (eq_str (decode_git_string regs) expected).

Definition test_self_unit_signature_fc03 : eff iworld unit :=
  let* expected := info_field "signature" in
  let* r := read_self_regs 0x03 290 12 in
  assert (negb (is_exception r)) ;;;
  assert (r_unit r =? SELF_UNIT_ID) ;;;
  assert (r_fc r =? 0x03) ;;;
  let* regs := lift (regs_from_payload (r_payload r)) in
  let* signature := lift (decode_mem8 regs) in
  assert (eq_str signature expected).

(** [l[i]] *)
Definition index (l : list Z) (i : nat) : outcome Z :=
  match l !! i with Some x => Ok x | None => Raise IndexError end.

Definition join16 (l : list Z) : Z := fold_left (fun acc r => Z.lor (Z.shiftl acc 16) r) l 0.

Definition test_self_unit_serial_matches_info : eff iworld unit :=
  let* serial_num := info_field "serial_num" in
  let* scheme_regs := self_regs 0x04 266 2 in
  let* s0 := lift (index scheme_regs 0) in
  let* s1 := lift (index scheme_regs 1) in
  assert (Z.lor (Z.shiftl s0 16) s1 =? 4) ;;;
  let* val_regs := self_regs 0x04 268 4 in
  assert (eq_num (join16 val_regs) serial_num).

(** [str] methods on a value that should be a str. *)
Definition as_str (v : json) : outcome string :=
  match v with JStr s => Ok s | _ => Raise AttributeError end.

Definition test_self_unit_fw_numeric_consistent : eff iworld unit :=
  let* firmware := info_field "firmware" in
  let* firmware := lift (as_str firmware) in
  let '(major, minor, patch, suffix, version) := expected_numeric_version firmware in
  let* regs := self_regs 0x04 320 8 in
  assert (zlen regs =? 8) ;;;
  assert (byte_at regs 0 =? major) ;;;
  assert (byte_at regs 1 =? minor) ;;;
  assert (byte_at regs 2 =? patch) ;;;
  let exp_lo := Z.land version 0xFFFF in
  let exp_hi := Z.land (Z.shiftr version 16) 0xFFFF in
  assert (byte_at regs 4 =? exp_lo) ;;;
  assert (byte_at regs 5 =? exp_hi) ;;;
  assert (byte_at regs 6 =? exp_hi) ;;;
  assert (byte_at regs 7 =? exp_lo).

Definition test_self_unit_reboot_reason_plausible : eff iworld unit :=
  let* regs := self_regs 0x04 65508 1 in
  assert (zlen regs =? 1) ;;;
  assert ((0 <=? byte_at regs 0) && (byte_at regs 0 <=? 6)).

Definition test_self_unit_ram_diagnostics_kb : eff iworld unit :=
  let* regs := self_regs 0x04 121 1 in
  assert (zlen regs =? 1) ;;;
  assert ((0 <=? byte_at regs 0) && (byte_at regs 0 <=? 65535)) ;;;
  let* regs := self_regs 0x04 65505 3 in
  assert (zlen regs =? 3) ;;;
  let total_ram_kb := byte_at regs 0 in
  let used_ram_kb := byte_at regs 1 in
  let free_ram_kb := byte_at regs 2 in
  assert (64 <? total_ram_kb) ;;;
  assert (total_ram_kb <? 2000) ;;;
  assert (0 <? used_ram_kb) ;;;
  assert (0 <? free_ram_kb) ;;;
  assert (used_ram_kb <? total_ram_kb) ;;;
  assert (free_ram_kb <? total_ram_kb) ;;;
  let sum_delta_kb := used_ram_kb + free_ram_kb - total_ram_kb in
  assert (Z.abs sum_delta_kb <=? 8).

(** The verdict on the three registers, given the two figures of /info. *)
Definition ram_verdict (total_ram_kb used_ram_kb free_ram_kb info_total_kb info_free_kb : Z) : eff iworld unit :=
  let info_used_kb := info_total_kb - info_free_kb in
  assert (total_ram_kb =? info_total_kb) ;;;
  let measured_drift_kb := 9 in
  let min_separation_kb := 4 * measured_drift_kb in
  let separation_kb := Z.abs (info_free_kb - info_used_kb) in
  (if separation_kb <? min_separation_kb then raise PytestSkip else ret tt) ;;;
  assert (Z.abs (free_ram_kb - info_free_kb) <? Z.abs (free_ram_kb - info_used_kb)) ;;;
  assert (Z.abs (used_ram_kb - info_used_kb) <? Z.abs (used_ram_kb - info_free_kb)).

Definition test_self_unit_ram_matches_info : eff iworld unit :=
  let* regs := self_regs 0x04 65505 3 in
  assert (zlen regs =? 3) ;;;
  let* info_resp := on_http (get_info device) in
  assert (status_code info_resp =? 200) ;;;
  let* info := lift (resp_json info_resp) in
  let* t := lift (let? v := jindex "heap_total" info in int_of v) in
  let* f := lift (let? v := jindex "heap_free" info in int_of v) in
  ram_verdict (byte_at regs 0) (byte_at regs 1) (byte_at regs 2) (t / 1024) (f / 1024).

Definition test_self_unit_65504_unmapped : eff iworld unit :=
  let* r := read_self_regs 0x04 65504 1 in
  assert (r_fc r =? Z.lor 0x04 0x80) ;;;
  assert (r_unit r =? SELF_UNIT_ID) ;;;
  assert (1 <=? zlen (r_payload r)) ;;;
  assert (byte_at (r_payload r) 0 =? 0x02).

Definition test_self_unit_undefined_addr_exception : eff iworld unit :=
  let* r := read_self_regs 0x04 500 1 in
  assert (is_exception r) ;;;
  assert (r_fc r =? Z.lor 0x04 0x80) ;;;
  assert (1 <=? zlen (r_payload r)) ;;;
  assert (byte_at (r_payload r) 0 =? 0x02).

(** [payload[0]] *)
Definition first_byte (r : ModbusTcp.response) : outcome Z := index (r_payload r) 0.

Definition test_self_unit_bootloader_field_not_claimed : eff iworld unit :=
  let* r := read_self_regs 0x03 330 8 in
  assert (is_exception r) ;;;
  let* b := lift (first_byte r) in
  assert (b =? 0x02) ;;;
  let* r := read_self_regs 0x03 337 1 in
  assert (is_exception r) ;;;
  let* b := lift (first_byte r) in
  assert (b =? 0x02).

Definition test_self_unit_bad_fc_exception : eff iworld unit :=
  let* r := read_self_regs 0x01 0 1 in
  assert (is_exception r) ;;;
  assert (r_fc r =? Z.lor 0x01 0x80) ;;;
  assert (1 <=? zlen (r_payload r)) ;;;
  assert (byte_at (r_payload r) 0 =? 0x01).

End Tests.

(** ** The numeric version: Python against C *)

Lemma lor_range width u v : 0 <= width -> 0 <= u < 2 ^ width -> 0 <= v < 2 ^ width -> 0 <= Z.lor u v < 2 ^ width.
Proof.
  intros Hn Hx Hy. split; [apply Z.lor_nonneg; lia|].
  destruct (Z.eq_dec (Z.lor u v) 0) as [->|H0]; [lia|].
  apply Z.log2_lt_pow2; [pose proof (proj2 (Z.lor_nonneg u v) ltac:(lia)); lia|].
  rewrite Z.log2_lor by lia. apply Z.max_lub_lt.
  - destruct (Z.eq_dec u 0) as [->|]; [|apply Z.log2_lt_pow2; lia].
    destruct (Z.eq_dec width 0) as [->|]; [|cbn; lia]. rewrite Z.lor_0_l in H0. lia.
  - destruct (Z.eq_dec v 0) as [->|]; [|apply Z.log2_lt_pow2; lia].
    destruct (Z.eq_dec width 0) as [->|]; [|cbn; lia]. rewrite Z.lor_0_r in H0. lia.
Qed.

Lemma lead_digits_all s : all_chars is_digit (lead_digits s) = true.
Proof.
  induction s as [|c s IH]; cbn [lead_digits]; [done|]. destruct (is_digit c) eqn:E; [|done].
  cbn [all_chars]. by rewrite E.
Qed.

Lemma c_digits_lead acc s : (c_digits acc (lead_digits s)).1 = (c_digits acc s).1.
Proof.
  revert acc. induction s as [|c s IH]; intros acc; cbn [lead_digits c_digits]; [done|].
  unfold is_digit. destruct (digit_val c) as [d|] eqn:E.
  - rewrite bool_decide_eq_true_2 by done. cbn [c_digits]. rewrite E. apply IH.
  - rewrite bool_decide_eq_false_2 by (intros [? [=]]). done.
Qed.

(** [lead_uint] reads what C's digit scanner reads. *)
Lemma lead_uint_c s : lead_uint s = (c_digits 0 s).1.
Proof.
  unfold lead_uint. rewrite <- (c_digits_lead 0 s). pose proof (lead_digits_all s) as Hd.
  destruct (lead_digits s) as [|c l] eqn:E; [done|]. rewrite <- E in *.
  rewrite E. rewrite <- E. rewrite py_int_digits by (try done; rewrite E; done). done.
Qed.

(** A run of digits, and what may follow one. *)
Definition digits (d : string) : Prop := d <> "" /\ all_chars is_digit d = true.
Definition number (d : string) : Z := (c_digits 0 d).1.

Definition stops (s : string) : Prop := starts_with_digit s = false.

Lemma c_digits_app acc d s : all_chars is_digit d = true -> stops s ->
  c_digits acc (d +:+ s) = ((c_digits acc d).1, s).
Proof.
  intros Hd Hs. revert acc. induction d as [|c d IH]; intros acc.
  - rewrite sapp_nil. destruct s as [|c s]; [done|]. cbn [c_digits fst].
    unfold stops in Hs. cbn in Hs. unfold is_digit in Hs. apply bool_decide_eq_false in Hs.
    destruct (digit_val c); [|done]. by destruct Hs.
  - rewrite sapp_cons. cbn [all_chars] in Hd. bool_to_prop. cbn [c_digits].
    unfold is_digit in H. apply bool_decide_eq_true in H as [x Hx]. rewrite Hx. by apply IH.
Qed.

Lemma digits_head d s : digits d -> exists c d', d = String c d' /\ d +:+ s = String c (d' +:+ s) /\ is_digit c = true.
Proof.
  intros [Hne Hd]. destruct d as [|c d]; [done|]. cbn [all_chars] in Hd. bool_to_prop. exists c, d. by split_and!.
Qed.

Lemma digit_not_c_space c : is_digit c = true -> c_isspace c = false.
Proof.
  intros H. apply digit_not_space in H. revert H. unfold is_space, c_isspace.
  generalize (nat_of_ascii c). intros n H. apply orb_false_iff in H as [H1 H2]. rewrite H1. cbn [orb].
  apply Nat.eqb_neq. intros ->. done.
Qed.

Lemma scan_u_digits d s : digits d -> stops s -> number d < 2 ^ 32 -> 0 <= number d ->
  scan_u (d +:+ s) = Some (number d, s).
Proof.
  intros Hd Hs Hlt Hge. destruct (digits_head d s Hd) as (c & d' & E & E' & Hc).
  unfold scan_u. rewrite E'. cbn [lstrip_by]. rewrite digit_not_c_space by done. cbn [c_sign].
  rewrite !ascii_eqb_digit by done. cbn [starts_with_digit]. rewrite Hc, <- E'.
  rewrite c_digits_app; [|by destruct Hd | done]. unfold number in *. cbn [fst].
  rewrite Z.mul_1_l, Z.mod_small by lia. done.
Qed.

Lemma c_digits_nonneg acc s : 0 <= acc -> 0 <= (c_digits acc s).1.
Proof.
  revert acc. induction s as [|c s IH]; intros acc Ha; cbn [c_digits]; [done|].
  destruct (digit_val c) as [d|] eqn:E; [|done]. apply IH.
  unfold digit_val in E. destruct (_ && _) eqn:Eb; [|done]. bool_to_prop. simplify_eq. lia.
Qed.

Lemma split_on_head c d s : no_char c d = true ->
  split_on c (d +:+ s) = match split_on c s with h :: t => (d +:+ h) :: t | [] => [d] end.
Proof.
  induction d as [|x d IH]; intros Hn.
  - rewrite sapp_nil. pose proof (split_on_nonempty c s). destruct (split_on c s); [done|]. by rewrite sapp_nil.
  - unfold no_char in Hn. cbn [all_chars] in Hn. bool_to_prop. rewrite sapp_cons. cbn [split_on]. rewrite H, IH by done.
    pose proof (split_on_nonempty c s). destruct (split_on c s); [done|]. by rewrite sapp_cons.
Qed.

Lemma digits_no_dot d : digits d -> no_char "." d = true.
Proof.
  intros [_ Hd]. unfold no_char. eapply all_chars_impl; [|exact Hd]. intros c Hc.
  apply negb_true_iff. rewrite Ascii.eqb_sym. by apply ascii_eqb_digit.
Qed.

Lemma split_head_stops s h t : stops s -> split_on "." s = h :: t -> stops h.
Proof.
  destruct s as [|c s]; cbn [split_on]; [by intros _ [= <- _]|]. intros Hs.
  destruct (Ascii.eqb "." c); [by intros [= <- _]|].
  destruct (split_on "." s); intros [= <- _]; exact Hs.
Qed.

(** A version of the shape the build accepts: three numbers, then anything
    that does not prolong the last one. *)
Definition version_text (a b c rest : string) : string :=
  a +:+ String "." (b +:+ String "." (c +:+ rest)).

Lemma python_numbers a b c rest : digits a -> digits b -> digits c -> stops rest ->
  let parts := split_on "." (version_text a b c rest) in
  part 0 parts = number a /\ part 1 parts = number b /\ part 2 parts = number c.
Proof.
  intros Ha Hb Hc Hr parts. unfold parts, version_text.
  rewrite split_on_app by by apply digits_no_dot. rewrite split_on_app by by apply digits_no_dot.
  rewrite split_on_head by by apply digits_no_dot.
  destruct (split_on "." rest) as [|h t] eqn:E; [by apply split_on_nonempty in E|].
  unfold part. cbn [lookup list_lookup from_option]. rewrite !lead_uint_c.
  split_and!; [done | done |]. rewrite c_digits_app; [done | by destruct Hc |].
  by apply (split_head_stops rest h t).
Qed.

Lemma c_numbers a b c rest : digits a -> digits b -> digits c -> stops rest ->
  number a < 2 ^ 32 -> number b < 2 ^ 32 -> number c < 2 ^ 32 ->
  sscanf_version (version_text a b c rest) = (number a, number b, number c).
Proof.
  intros Ha Hb Hc Hr La Lb Lc. unfold version_text, sscanf_version.
  assert (forall d, 0 <= number d) as Hn by (intros d; by apply c_digits_nonneg).
  rewrite scan_u_digits by done. rewrite Ascii.eqb_refl. rewrite scan_u_digits by done.
  rewrite Ascii.eqb_refl. by rewrite scan_u_digits by done.
Qed.

(** What [atoi] and [lead_uint] read alike: no white space and no sign. *)
Definition plain (s : string) : bool :=
  match s with
  | String c _ => negb (c_isspace c) && negb (Ascii.eqb c "-") && negb (Ascii.eqb c "+")
  | EmptyString => true
  end.

Lemma atoi_plain s : plain s = true -> atoi s = lead_uint s.
Proof.
  intros Hp. rewrite lead_uint_c. unfold atoi. destruct s as [|c s]; [done|].
  unfold plain in Hp. apply andb_true_iff in Hp as [Hp H3]. apply andb_true_iff in Hp as [H1 H2].
  cbn [lstrip_by]. apply negb_true_iff in H1, H2, H3. rewrite H1. cbn [c_sign]. rewrite H2, H3. lia.
Qed.

(** The suffix number in a version text, if any. *)
Definition suffix_text (fw : string) : option string :=
  match after_sub "+wb" fw with Some s => Some s | None => after_sub "-rc" fw end.

Lemma version_figures_agree (a b c rest : string) :
  digits a -> digits b -> digits c -> stops rest ->
  number a < 2 ^ 32 -> number b < 2 ^ 32 -> number c < 2 ^ 32 ->
  (forall s, suffix_text (version_text a b c rest) = Some s -> plain s = true /\ number s < 2 ^ 31) ->
  expected_numeric_version (version_text a b c rest) =
  let fw := parse_fw_version (version_text a b c rest) in
  (fw_major fw, fw_minor fw, fw_patch fw, fw_suffix fw, fw_version fw).
Proof.
  intros Ha Hb Hc Hr La Lb Lc Hs. unfold expected_numeric_version, parse_fw_version.
  destruct (python_numbers a b c rest Ha Hb Hc Hr) as (E1 & E2 & E3).
  rewrite E1, E2, E3, c_numbers by done.
  unfold suffix_text in Hs. generalize dependent (version_text a b c rest). intros fw Hs E1 E2 E3.
  destruct (after_sub "+wb" fw) as [s|] eqn:Ew.
  - destruct (Hs s eq_refl) as [Hp Hl]. rewrite atoi_plain by done.
    pose proof (c_digits_nonneg 0 s ltac:(lia)) as Hn. rewrite lead_uint_c in *. unfold number in Hl.
    rewrite (proj2 (Z.leb_le _ _) Hn). rewrite Z.mod_small by lia. done.
  - destruct (after_sub "-rc" fw) as [s|] eqn:Er; [|done].
    destruct (Hs s eq_refl) as [Hp Hl]. rewrite atoi_plain by done.
    pose proof (c_digits_nonneg 0 s ltac:(lia)) as Hn. rewrite lead_uint_c in *. unfold number in Hl.
    destruct (Z.leb_spec 0 (- (c_digits 0 s).1)); rewrite Z.mod_small by lia; done.
Qed.

Lemma encoded_bound fw : 0 <= fw_version (parse_fw_version fw) < 2 ^ 32.
Proof.
  unfold parse_fw_version. destruct (sscanf_version fw) as [[x y] z]. cbn [fw_version].
  rewrite !land_255, !Z.shiftl_mul_pow2 by lia.
  assert (forall k, 0 <= k mod 256 < 256) as Hm by (intros k; apply Z.mod_pos_bound; lia).
  match goal with |- context [Z.lor _ (?k mod 256)] => pose proof (Hm k); generalize dependent (k mod 256) end.
  pose proof (Hm x). pose proof (Hm y). pose proof (Hm z). intros enc He.
  change (2 ^ 24) with 16777216. change (2 ^ 16) with 65536. change (2 ^ 8) with 256.
  repeat apply lor_range; change (2 ^ 32) with 4294967296; lia.
Qed.

(** The version the test computes is the one the firmware reports.  For
    every version string that starts with three dotted numbers of 32 bits,
    whatever follows them, if the number after "+wb" or "-rc" has no space or
    sign before it, the Python function and the firmware's C parser agree on
    all five figures; the three numbers are those of the string, and the
    encoded version is a 32-bit value. *)
Theorem numeric_version_agrees (a b c rest : string) :
  digits a -> digits b -> digits c -> stops rest ->
  number a < 2 ^ 32 -> number b < 2 ^ 32 -> number c < 2 ^ 32 ->
  (forall s, suffix_text (version_text a b c rest) = Some s -> plain s = true /\ number s < 2 ^ 31) ->
  let fw := parse_fw_version (version_text a b c rest) in
  expected_numeric_version (version_text a b c rest) =
    (fw_major fw, fw_minor fw, fw_patch fw, fw_suffix fw, fw_version fw) /\
  0 <= fw_version fw < 2 ^ 32 /\ fw_major fw = number a /\ fw_minor fw = number b /\ fw_patch fw = number c.
Proof.
  intros Ha Hb Hc Hr La Lb Lc Hs fw. split; [by apply version_figures_agree|].
  split; [apply encoded_bound|]. unfold fw, parse_fw_version. by rewrite c_numbers.
Qed.

Lemma numeric_version_agrees_witness :
  expected_numeric_version "1.12.3-rc2" = (1, 12, 3, -2, 0x010C0301) /\
  parse_fw_version "1.12.3-rc2" = FwVersion 1 12 3 (-2) 0x010C0301.
Proof.
  split; [vm_compute; reflexivity|].
  assert (Hd : forall d, String.eqb d "" = false -> all_chars is_digit d = true -> digits d).
  { intros d H1 H2. split; [by apply String.eqb_neq | exact H2]. }
  assert (Hs : forall s, suffix_text (version_text "1" "12" "3" "-rc2") = Some s -> plain s = true /\ number s < 2 ^ 31).
  { intros s E. vm_compute in E. injection E as <-. split; vm_compute; reflexivity. }
  destruct (numeric_version_agrees "1" "12" "3" "-rc2" (Hd "1" eq_refl eq_refl) (Hd "12" eq_refl eq_refl)
    (Hd "3" eq_refl eq_refl) eq_refl eq_refl eq_refl eq_refl Hs) as (H & _).
  change (version_text "1" "12" "3" "-rc2") with "1.12.3-rc2" in H.
  destruct (parse_fw_version "1.12.3-rc2") as [f1 f2 f3 f4 f5]. cbn [fw_major fw_minor fw_patch fw_suffix fw_version] in H.
  assert (E : expected_numeric_version "1.12.3-rc2" = (1, 12, 3, -2, 0x010C0301)) by (vm_compute; reflexivity).
  rewrite E in H. injection H as <- <- <- <- <-. reflexivity.
Defined.

(** Off that shape the two differ: [sscanf] stops at the first field that is
    not a number, the test reads every field on its own. *)
Lemma numeric_version_differs :
  expected_numeric_version "1.x.3" = (1, 0, 3, 0, 0x01000380) /\
  parse_fw_version "1.x.3" = FwVersion 1 0 0 0 0x01000080.
Proof. split; vm_compute; reflexivity. Qed.

(** ** Strings in registers *)

Lemma latin1_lookup s i : latin1_bytes s !! i = (fun c => Z.of_nat (nat_of_ascii c)) <$> String.get i s.
Proof. revert i. induction s as [|c s IH]; intros [|i]; try done. cbn. apply IH. Qed.

Lemma latin1_length s : length (latin1_bytes s) = String.length s.
Proof. unfold latin1_bytes. rewrite length_fmap. induction s; cbn; congruence. Qed.

Lemma latin1_roundtrip s : latin1 (latin1_bytes s) = s.
Proof.
  unfold latin1, latin1_bytes. rewrite <- list_fmap_compose. transitivity (string_of_list_ascii (list_ascii_of_string s)).
  - f_equal. rewrite <- (list_fmap_id (list_ascii_of_string s)) at 2. apply list_fmap_ext.
    intros i c _. cbn. rewrite Nat2Z.id. apply ascii_nat_embedding.
  - apply string_of_list_ascii_of_string.
Qed.

Lemma latin1_inv l : bytes_ok l -> latin1_bytes (latin1 l) = l.
Proof.
  intros Hl. unfold latin1, latin1_bytes. rewrite list_ascii_of_string_of_list_ascii, <- list_fmap_compose.
  rewrite <- (list_fmap_id l) at 2. apply Forall_fmap_ext_1. eapply Forall_impl; [exact Hl|].
  intros b Hb. cbn. unfold is_byte in Hb. rewrite nat_ascii_embedding by lia. lia.
Qed.

Lemma latin1_bytes_ok s : bytes_ok (latin1_bytes s).
Proof.
  unfold bytes_ok, latin1_bytes. apply Forall_fmap. apply Forall_true. intros c. cbn.
  pose proof (nat_ascii_bounded c). unfold is_byte. lia.
Qed.

(** Bytes that do not end in NUL. *)
Definition no_nul_end (l : list Z) : Prop := last l <> Some 0.

Lemma rstrip_nul_zeros n : rstrip_nul (replicate n 0) = [].
Proof. induction n as [|n IH]; [done|]. cbn. by rewrite IH. Qed.

Lemma rstrip_nul_app l n : no_nul_end l -> rstrip_nul (l ++ replicate n 0) = l.
Proof.
  induction l as [|b l IH]; intros H; [apply rstrip_nul_zeros|]. cbn [app rstrip_nul].
  destruct l as [|c l].
  - change ([] ++ replicate n 0) with (replicate n 0). rewrite rstrip_nul_zeros. unfold no_nul_end in H. cbn in H. destruct (Z.eqb_spec b 0); congruence.
  - rewrite IH by exact H. done.
Qed.

Lemma rstrip_nul_split l : exists n, l = rstrip_nul l ++ replicate n 0 /\ no_nul_end (rstrip_nul l).
Proof.
  induction l as [|b l (n & E & H)]; [by exists 0%nat|]. cbn [rstrip_nul].
  destruct (rstrip_nul l) as [|c r] eqn:Er.
  - destruct (Z.eqb_spec b 0) as [->|Hb].
    + exists (S n). by rewrite E.
    + exists n. split; [by rewrite E|]. unfold no_nul_end. cbn. congruence.
  - exists n. split; [by rewrite E|]. exact H.
Qed.

Lemma mem8_bytes_spec vs raw : Forall is_u16 vs ->
  mem8_bytes vs = Ok raw <-> raw = vs /\ bytes_ok vs.
Proof.
  intros Hu. revert raw. induction Hu as [|v vs Hv Hu IH]; intros raw; cbn [mem8_bytes].
  { split; [intros [= <-]; by split; [|constructor] | by intros [-> _]]. }
  rewrite bytes_ok_cons, shiftr_8. unfold is_u16 in Hv. destruct (Z.eqb_spec (v / 256) 0) as [E|E].
  - assert (is_byte v) as Hb. { unfold is_byte. pose proof (Z.div_mod v 256). pose proof (Z.mod_pos_bound v 256). lia. }
    rewrite land_255, Z.mod_small by exact Hb. split.
    + destruct (mem8_bytes vs) as [r|e|]; cbn; [|done|done]. intros [= <-].
      destruct (proj1 (IH r) eq_refl) as [-> Hr]. by split.
    + intros (-> & _ & Hr). by rewrite (proj2 (IH vs) (conj eq_refl Hr)).
  - split; [done|]. intros (_ & Hb & _). unfold is_byte in Hb. rewrite Z.div_small in E by lia. done.
Qed.

Lemma decode_mem8_layout s n : no_nul_end (latin1_bytes s) ->
  decode_mem8 (latin1_bytes s ++ replicate n 0) = Ok s.
Proof.
  intros Hn. unfold decode_mem8. set (vs := latin1_bytes s ++ replicate n 0).
  assert (bytes_ok vs) as Hb.
  { apply bytes_ok_app. split; [apply latin1_bytes_ok|]. apply bytes_ok_replicate. by unfold is_byte. }
  rewrite (proj2 (mem8_bytes_spec vs vs ltac:(eapply Forall_impl; [exact Hb | apply byte_u16]))) by done.
  cbn. unfold vs. by rewrite rstrip_nul_app, latin1_roundtrip.
Qed.

(** The string decoder accepts exactly the layout it documents: for any
    16-bit registers, it returns the text [s] if and only if the registers are
    the characters of [s], one per register, followed by zeros, and [s] does
    not end in NUL; every other content raises. *)
Theorem decode_mem8_exact (vs : list Z) (s : string) :
  Forall is_u16 vs ->
  decode_mem8 vs = Ok s <->
  exists n, vs = latin1_bytes s ++ replicate n 0 /\ no_nul_end (latin1_bytes s).
Proof.
  intros Hu. unfold decode_mem8. split.
  - destruct (mem8_bytes vs) as [raw|e|] eqn:E; cbn; [|done|done]. intros [= <-].
    apply mem8_bytes_spec in E as [-> Hb]; [|done]. destruct (rstrip_nul_split vs) as (n & Ev & Hn).
    assert (bytes_ok (rstrip_nul vs)) as Hr. { rewrite Ev in Hb. by apply bytes_ok_app in Hb as [Hb _]. }
    exists n. rewrite latin1_inv by done. by split.
  - intros (n & -> & Hn). by apply decode_mem8_layout.
Qed.

Lemma decode_mem8_exact_witness :
  decode_mem8 [77; 71; 69; 0; 0] = Ok "MGE" /\ decode_mem8 [0x474D; 0x45; 0] <> Ok "MGE".
Proof.
  split.
  - apply decode_mem8_exact.
    + repeat (apply Forall_cons; split); try done; unfold is_u16; lia.
    + exists 2%nat. split; [reflexivity|]. unfold no_nul_end. vm_compute. congruence.
  - intros H. apply decode_mem8_exact in H as (n & H & _).
    + vm_compute in H. discriminate.
    + repeat (apply Forall_cons; split); try done; unfold is_u16; lia.
Defined.

(** A field of [n] registers, one character each. *)
Definition chars (s : string) (m i : Z) : Z := if (i <? strlen s) && (i <? m) then char_at s i else 0.

Lemma chars_field s n : (String.length s <= n)%nat ->
  (fun i => chars s (Z.of_nat n) (Z.of_nat i)) <$> seq 0 n = latin1_bytes s ++ replicate (n - String.length s) 0.
Proof.
  intros Hl. apply list_eq. intros i. rewrite list_lookup_fmap.
  destruct (decide (i < n)%nat) as [Hi|Hi].
  - rewrite lookup_seq_lt by done. cbn. unfold chars, strlen.
    destruct (decide (i < String.length s)%nat) as [Hs|Hs].
    + rewrite lookup_app_l by by rewrite latin1_length. rewrite latin1_lookup.
      rewrite (proj2 (Z.ltb_lt _ _)), (proj2 (Z.ltb_lt _ _)) by lia. cbn [andb]. unfold char_at. rewrite Nat2Z.id.
      destruct (String.get i s) as [c|] eqn:E; [done|]. exfalso.
      pose proof (latin1_lookup s i) as H. rewrite E in H. apply lookup_ge_None in H. rewrite latin1_length in H. lia.
    + rewrite lookup_app_r by (rewrite latin1_length; lia). rewrite latin1_length.
      rewrite (proj2 (Z.ltb_ge _ _)) by lia. cbn [andb]. symmetry. apply lookup_replicate. lia.
  - rewrite (proj2 (lookup_ge_None _ _)) by (rewrite length_seq; lia). symmetry. cbn. apply lookup_ge_None.
    rewrite length_app, length_replicate, latin1_length. lia.
Qed.

(** A C string has no NUL. *)
Definition c_string (s : string) : Prop := Forall (fun b => b <> 0) (latin1_bytes s).

Lemma c_string_end s : c_string s -> no_nul_end (latin1_bytes s).
Proof.
  intros H E. apply last_Some in E as [l E]. unfold c_string in H. rewrite E in H.
  apply Forall_app in H as [_ H]. by inversion H.
Qed.

Lemma pack_2c_bytes s m base i :
  let v := pack_string_reg_2c s m base (base + i) in
  [Z.land v 0xFF; Z.land (Z.shiftr v 8) 0xFF] = [chars s m (2 * i); chars s m (2 * i + 1)].
Proof.
  cbv zeta. unfold pack_string_reg_2c. replace (base + i - base) with i by lia.
  replace (i * 2) with (2 * i) by lia. fold (chars s m (2 * i)). fold (chars s m (2 * i + 1)).
  assert (forall j, is_byte (chars s m j)) as Hc.
  { intros j. unfold chars. destruct (_ && _); [apply char_at_byte | unfold is_byte; lia]. }
  rewrite lor_shiftl_8, !land_255, shiftr_8 by apply Hc.
  pose proof (Hc (2 * i)) as H1. pose proof (Hc (2 * i + 1)) as H2. unfold is_byte in H1, H2.
  generalize dependent (chars s m (2 * i)). generalize dependent (chars s m (2 * i + 1)). intros y Hy x Hx.
  f_equal; [|f_equal].
  - rewrite Z.add_comm, Z.mul_comm, Z.mod_add, Z.mod_small by lia. done.
  - rewrite Z.add_comm, Z.mul_comm, Z.div_add, Z.div_small, Z.mod_small by lia. done.
Qed.

Lemma pairs_flatten {A} (f : nat -> A) n k :
  (seq k n ≫= (fun i => [f (2 * i)%nat; f (2 * i + 1)%nat])) = f <$> seq (2 * k) (2 * n).
Proof.
  revert k. induction n as [|n IH]; intros k; [done|]. cbn [seq]. rewrite bind_cons, IH.
  replace (2 * S n)%nat with (S (S (2 * n))) by lia. cbn [seq fmap list_fmap app].
  replace (2 * k + 1)%nat with (S (2 * k)) by lia. replace (2 * S k)%nat with (S (S (2 * k))) by lia. done.
Qed.

(** ** Reading the firmware's registers *)

(** The request bytes of a read. *)
Definition request_bytes (fc start count : Z) : list Z :=
  [0; 66; 0; 0; 0; 6; 255; fc; start / 256; start mod 256; count / 256; count mod 256].

Lemma request_made fc start count : is_byte fc -> is_u16 start -> is_u16 count ->
  make_mbap_request 0x0042 SELF_UNIT_ID fc start count = Ok (request_bytes fc start count).
Proof.
  intros Hf Hs Hc. rewrite make_mbap_request_ok; try done; unfold is_u16, is_byte, SELF_UNIT_ID; lia.
Qed.

(** A read the tests make: function, first register, number of registers. *)
Definition read : Type := Z * Z * Z.

Definition legal (r : read) : Prop :=
  let '(fc, start, count) := r in is_byte fc /\ is_u16 start /\ 1 <= count <= 125 /\ start + count <= 65536.

(** A connection that is accepted, and on which the bytes the firmware answers
    to the request arrive, cut in any way. *)
Record served (e : device_env) (r : read) (c : option exn * sock) : Prop := {
  sv_connect : c.1 = None;
  sv_open : is_closed c.2 = false;
  sv_send : forall x, head (send_faults c.2) <> Some (Some x);
  sv_answer : ready (incoming c.2) =
    mb_device_handle_self_request e (request_bytes r.1.1 r.1.2 r.2)
}.

Definition answer (e : device_env) (r : read) : ModbusTcp.response :=
  let '(fc, start, count) := r in
  if negb ((fc =? 3) || (fc =? 4)) then ModbusTcp.Response 66 255 (Z.lor fc 0x80) [ILLEGAL_FUNCTION]
  else match read_range e start (Z.to_nat count) with
       | Some vs => ModbusTcp.Response 66 255 fc (2 * zlen vs :: (vs ≫= word_bytes))
       | None => ModbusTcp.Response 66 255 (Z.lor fc 0x80) [ILLEGAL_ADDRESS]
       end.

Lemma firmware_frame e r : legal r ->
  mb_device_handle_self_request e (request_bytes r.1.1 r.1.2 r.2) = encode_response (answer e r).
Proof.
  destruct r as [[fc start] count]. intros (Hf & Hs & Hc & Hr). cbn [fst snd]. unfold request_bytes, answer.
  destruct (negb ((fc =? 3) || (fc =? 4))) eqn:Ef.
  { unfold mb_device_handle_self_request. unfold byte_at. cbn [lookup list_lookup default from_option id].
    rewrite Ef. reflexivity. }
  assert (fc = 3 \/ fc = 4) as Hfc by (bool_to_prop; destruct Ef as [?%Z.eqb_eq|?%Z.eqb_eq]; auto).
  rewrite (handle_answer e 0 66 255 fc start count) by done.
  destruct (read_range e start (Z.to_nat count)) as [vs|] eqn:E; [|reflexivity].
  destruct (read_range_spec e start _ vs E) as [Hl _].
  assert (zlen vs = count) as Hz by (unfold zlen; lia).
  unfold encode_response. cbn [r_tid r_unit r_fc r_payload].
  assert (zlen (2 * zlen vs :: (vs ≫= word_bytes)) = 1 + 2 * count) as Hzl.
  { unfold zlen in *. cbn [length]. rewrite words_length. lia. }
  rewrite Hzl, Hz, reg_be_word. unfold word. replace (2 + (1 + 2 * count)) with (3 + 2 * count) by lia.
  assert ((vs ≫= reg_be) = (vs ≫= word_bytes)) as Hw.
  { apply list_bind_ext; [|done]. intros v. apply reg_be_word. }
  rewrite Hw. reflexivity.
Qed.

Section Reads.
Context {D : Type} (device : request -> D -> outcome response * D).

Lemma read_served (e : device_env) (r : read) c q (w : iworld (D := D)) :
  legal r -> served e r c -> conns w = c :: q ->
  exists k, read_self_regs r.1.1 r.1.2 r.2 w = (Ok (answer e r), IWorld (iapi w) q (done_conns w ++ [k])) /\
    is_closed k = true.
Proof.
  intros Hl [Hc Ho Hsf Ha] Hw. destruct r as [[fc start] count]. destruct c as [ce k0]. cbn [fst snd] in *. subst ce.
  pose proof Hl as (Hf & Hs & Hn & Hr). unfold read_self_regs, bind at 1, lift.
  rewrite request_made by (try done; unfold is_u16; lia). rewrite Hw. unfold exchange_once, try_finally.
  pose proof (firmware_frame e (fc, start, count) Hl) as Hfr. cbn [fst snd] in Hfr.
  destruct (send_and_receive_framing (request_bytes fc start count) k0 (answer e (fc, start, count)) [])
    as (k' & -> & _ & _ & _ & Hk).
  - done.
  - done.
  - rewrite app_nil_r, <- Hfr. exact Ha.
  - cbn. eexists. split; [reflexivity|]. done.
Qed.

Lemma payload_registers vs : regs_from_payload (2 * zlen vs :: (vs ≫= word_bytes)) = Ok vs.
Proof.
  pose proof (decode_registers vs 0) as H. unfold decode_fc03_fc04 in H. unfold regs_from_payload.
  by destruct (_ <? _).
Qed.

Lemma self_regs_served e fc start count vs c q (w : iworld (D := D)) :
  legal (fc, start, count) -> (fc = 3 \/ fc = 4) -> served e (fc, start, count) c -> conns w = c :: q ->
  read_range e start (Z.to_nat count) = Some vs ->
  exists k, self_regs fc start count w = (Ok vs, IWorld (iapi w) q (done_conns w ++ [k])).
Proof.
  intros Hl Hfc Hs Hw Hr. destruct (read_served e (fc, start, count) c q w Hl Hs Hw) as (k & E & _).
  cbn [fst snd] in E. exists k. unfold self_regs, bind at 1. rewrite E. unfold answer. rewrite Hr.
  assert (negb ((fc =? 3) || (fc =? 4)) = false) as -> by (destruct Hfc as [-> | ->]; done).
  unfold bind, is_exception, assert, lift. cbn [r_fc r_unit r_payload].
  assert ((Z.land fc 0x80 =? 0) = true) as -> by (destruct Hfc as [-> | ->]; done). cbn [negb].
  change (255 =? SELF_UNIT_ID) with true. by rewrite payload_registers.
Qed.

End Reads.

(** ** The map, range by range *)

Lemma read_range_map e addr n (f : nat -> Z) :
  (forall i, (i < n)%nat -> device_get_reg e (addr + Z.of_nat i) = Some (f i)) ->
  read_range e addr n = Some (f <$> seq 0 n).
Proof.
  revert addr f. induction n as [|n IH]; intros addr f H; [done|]. cbn [read_range seq fmap list_fmap].
  pose proof (H 0%nat ltac:(lia)) as H0. rewrite Z.add_0_r in H0. rewrite H0.
  rewrite (IH (addr + 1) (fun i => f (S i))).
  - cbn. rewrite <- fmap_S_seq, <- list_fmap_compose. done.
  - intros i Hi. rewrite <- (H (S i)) by lia. f_equal. lia.
Qed.

(** Decide the comparisons of the map at an address known up to [lia]. *)
Ltac reg_at := unfold device_get_reg, within;
  repeat match goal with
  | |- context [?x =? ?y] => first [rewrite (proj2 (Z.eqb_neq x y)) by lia | rewrite (proj2 (Z.eqb_eq x y)) by lia]
  | |- context [?x <=? ?y] => first [rewrite (proj2 (Z.leb_gt x y)) by lia | rewrite (proj2 (Z.leb_le x y)) by lia]
  | |- context [?x <? ?y] => first [rewrite (proj2 (Z.ltb_ge x y)) by lia | rewrite (proj2 (Z.ltb_lt x y)) by lia]
  end; cbn [orb andb].

(** A one-character-per-register field reads back as its string. *)
Definition text_field (e : device_env) (s : string) (base : Z) (n : nat) : Prop :=
  (String.length s <= n)%nat ->
  read_range e base n = Some (latin1_bytes s ++ replicate (n - String.length s) 0).

Lemma pack_1c_chars s m base i : pack_string_reg_1c s m base (base + i) = chars s m i.
Proof. unfold pack_string_reg_1c, chars. by replace (base + i - base) with i by lia. Qed.

Lemma model_field e : text_field e (device_name e) 200 20.
Proof.
  intros Hl. rewrite <- (chars_field _ 20 Hl). apply read_range_map. intros i Hi.
  rewrite <- (pack_1c_chars _ _ 200). by reg_at.
Qed.

Lemma firmware_field e : text_field e (firmware_ver e) 250 16.
Proof.
  intros Hl. rewrite <- (chars_field _ 16 Hl). apply read_range_map. intros i Hi.
  rewrite <- (pack_1c_chars _ _ 250). by reg_at.
Qed.

Lemma signature_field e : text_field e (device_signature e) 290 12.
Proof.
  intros Hl. rewrite <- (chars_field _ 12 Hl). apply read_range_map. intros i Hi.
  rewrite <- (pack_1c_chars _ _ 290). by reg_at.
Qed.

Lemma git_field e : (String.length (firmware_git_info e) <= 50)%nat -> c_string (firmware_git_info e) ->
  exists vs, read_range e 220 25 = Some vs /\ decode_git_string vs = firmware_git_info e.
Proof.
  intros Hl Hc. eexists. split.
  - apply (read_range_map e 220 25 (fun i => pack_string_reg_2c (firmware_git_info e) 50 220 (220 + Z.of_nat i))).
    intros i Hi. by reg_at.
  - unfold decode_git_string. set (s := firmware_git_info e) in *.
    assert (((fun i => pack_string_reg_2c s 50 220 (220 + Z.of_nat i)) <$> seq 0 25) ≫=
      (fun v => [Z.land v 0xFF; Z.land (Z.shiftr v 8) 0xFF]) =
      (fun i => chars s 50 (Z.of_nat i)) <$> seq 0 50) as ->.
    { change (seq 0 50) with (seq (2 * 0) (2 * 25)).
      rewrite <- (pairs_flatten (fun i => chars s 50 (Z.of_nat i)) 25 0), list_fmap_bind.
      apply list_bind_ext; [|done]. intros i. etransitivity; [exact (pack_2c_bytes s 50 220 (Z.of_nat i))|].
      f_equal; [f_equal; lia | do 2 f_equal; lia]. }
    change 50 with (Z.of_nat 50). rewrite chars_field by done.
    rewrite rstrip_nul_app by by apply c_string_end. apply latin1_roundtrip.
Qed.

Lemma version_regs e : let fw := parse_fw_version (firmware_ver e) in
  read_range e 320 8 = Some [u16 (fw_major fw); u16 (fw_minor fw); u16 (fw_patch fw); u16 (fw_suffix fw);
    u16 (fw_version fw); u16 (Z.shiftr (fw_version fw) 16); u16 (Z.shiftr (fw_version fw) 16); u16 (fw_version fw)].
Proof. reflexivity. Qed.

(** ** The tests accept the firmware *)

Section Accept.
Context {D : Type} (device : request -> D -> outcome response * D).
Context (e : device_env) (fields : list (string * json)).

(** The device's own /info: the strings and the serial number of [e]. *)
Record reports : Prop := {
  rp_device_name : jget "device_name" fields = Some (JStr (device_name e));
  rp_firmware : jget "firmware" fields = Some (JStr (firmware_ver e));
  rp_git_info : jget "git_info" fields = Some (JStr (firmware_git_info e));
  rp_signature : jget "signature" fields = Some (JStr (device_signature e));
  rp_serial : jget "serial_num" fields = Some (JNum (device_serial_num e));
  rp_http : forall d, exists d' txt ck, device (Request GET "/info" None (scalar 10)) d =
    (Ok (Response 200 txt (Some (JObj fields)) ck), d')
}.

(** Identity strings that fit their fields. *)
Record identity_ok : Prop := {
  id_name : c_string (device_name e) /\ (String.length (device_name e) <= 20)%nat;
  id_firmware : c_string (firmware_ver e) /\ (String.length (firmware_ver e) <= 16)%nat;
  id_git : c_string (firmware_git_info e) /\ (String.length (firmware_git_info e) <= 50)%nat;
  id_signature : c_string (device_signature e) /\ (String.length (device_signature e) <= 12)%nat;
  id_serial : 0 <= device_serial_num e < 2 ^ 64;
  id_version : exists a b c rest, firmware_ver e = version_text a b c rest /\
    digits a /\ digits b /\ digits c /\ stops rest /\
    number a < 65536 /\ number b < 65536 /\ number c < 65536 /\
    forall s, suffix_text (firmware_ver e) = Some s -> plain s = true /\ number s < 2 ^ 31
}.

(** The test passes whenever its connections carry the firmware's answers. *)
Definition accepts (t : eff (iworld (D := D)) unit) (reads : list read) : Prop :=
  forall w cs q, conns w = cs ++ q -> Forall2 (served e) reads cs ->
  exists w', t w = (Ok tt, w') /\ conns w' = q.

Lemma info_field_ok (Hr : reports) key v w : jget key fields = Some v ->
  exists a, info_field device key w = (Ok v, IWorld a (conns w) (done_conns w)).
Proof.
  intros Hk. unfold info_field, bind at 1, on_http, get_info, http_get.
  destruct (session_request_spec device (Request GET "/info" None (scalar 10)) (iapi w))
    as (r & d & t & c & -> & Hd & _).
  destruct (rp_http Hr (dev (iapi w))) as (d' & txt & ck & E). rewrite E in Hd. injection Hd as <- <-.
  eexists. unfold bind, lift, resp_json. cbn [body_json]. rewrite Hk. reflexivity.
Qed.

Lemma accepts_text key s base n fc :
  reports -> jget key fields = Some (JStr s) -> text_field e s base n -> c_string s -> (String.length s <= n)%nat ->
  legal (fc, base, Z.of_nat n) -> (fc = 3 \/ fc = 4) ->
  accepts (let* expected := info_field device key in
           let* regs := self_regs fc base (Z.of_nat n) in
           let* text := lift (decode_mem8 regs) in
           assert (eq_str text expected)) [(fc, base, Z.of_nat n)].
Proof.
  intros Hr Hk Ht Hc Hl Hg Hfc w cs q Hw Hs. inversion Hs as [|r c rs cs' Hsv Hnil]; subst. inversion Hnil; subst.
  cbn [app] in Hw. unfold bind at 1. destruct (info_field_ok Hr key _ w Hk) as [a ->].
  unfold bind at 1. destruct (self_regs_served e fc base (Z.of_nat n) _ c q (IWorld a (conns w) (done_conns w))
    Hg Hfc Hsv Hw ltac:(rewrite Nat2Z.id; exact (Ht Hl))) as [k ->].
  unfold bind, lift. rewrite decode_mem8_layout by by apply c_string_end.
  unfold assert, eq_str. rewrite String.eqb_refl. eexists. by split.
Qed.

Lemma accepts_git (Hr : reports) (Hi : identity_ok) :
  accepts (test_self_unit_git_info_matches_info device) [(4, 220, 25)].
Proof.
  intros w cs q Hw Hs. inversion Hs as [|r c rs cs' Hsv Hnil]; subst. inversion Hnil; subst. cbn [app] in Hw.
  unfold test_self_unit_git_info_matches_info, bind at 1.
  destruct (info_field_ok Hr "git_info" _ w (rp_git_info Hr)) as [a ->].
  destruct (id_git Hi) as [Hc Hl]. destruct (git_field e Hl Hc) as (vs & Hv & Hd). unfold bind.
  destruct (self_regs_served e 4 220 25 vs c q (IWorld a (conns w) (done_conns w))
    ltac:(unfold legal, is_byte, is_u16; lia) (or_intror eq_refl) Hsv Hw Hv) as [k ->].
  rewrite Hd. unfold assert, eq_str. rewrite String.eqb_refl. eexists. by split.
Qed.

Lemma accepts_signature (Hr : reports) (Hi : identity_ok) :
  accepts (test_self_unit_signature_fc03 device) [(3, 290, 12)].
Proof.
  intros w cs q Hw Hs. inversion Hs as [|r c rs cs' Hsv Hnil]; subst. inversion Hnil; subst. cbn [app] in Hw.
  unfold test_self_unit_signature_fc03, bind at 1.
  destruct (info_field_ok Hr "signature" _ w (rp_signature Hr)) as [a ->].
  destruct (id_signature Hi) as [Hc Hl]. pose proof (signature_field e Hl) as Hv. unfold bind at 1.
  destruct (read_served e (3, 290, 12) c q (IWorld a (conns w) (done_conns w))
    ltac:(unfold legal, is_byte, is_u16; lia) Hsv Hw) as (k & E & _). cbn [fst snd] in E. rewrite E.
  unfold answer. cbn [Z.eqb Pos.eqb negb orb]. change (Z.to_nat 12) with 12%nat. rewrite Hv.
  unfold bind, lift, is_exception, assert. cbn [r_fc r_unit r_payload]. change (3 =? 3) with true.
  cbv iota. change (negb (negb (Z.land 3 128 =? 0))) with true. cbv iota. change (255 =? SELF_UNIT_ID) with true. cbv iota.
  rewrite payload_registers, decode_mem8_layout by by apply c_string_end.
  unfold eq_str. rewrite String.eqb_refl. eexists. by split.
Qed.

(** One read of registers [vs], then the rest of the test. *)
Lemma regs_then {A} fc start count vs c q w (k : list Z -> eff (iworld (D := D)) A) :
  legal (fc, start, count) -> (fc = 3 \/ fc = 4) -> served e (fc, start, count) c -> conns w = c :: q ->
  read_range e start (Z.to_nat count) = Some vs ->
  exists w1, bind (self_regs fc start count) k w = k vs w1 /\ conns w1 = q /\ iapi w1 = iapi w.
Proof.
  intros Hl Hf Hs Hw Hv. unfold bind. destruct (self_regs_served e fc start count vs c q w Hl Hf Hs Hw Hv) as [x ->].
  eexists. by split_and!.
Qed.

Lemma info_then {A} (Hr : reports) key v w (k : json -> eff (iworld (D := D)) A) : jget key fields = Some v ->
  exists w1, bind (info_field device key) k w = k v w1 /\ conns w1 = conns w.
Proof.
  intros Hk. unfold bind. destruct (info_field_ok Hr key v w Hk) as [a ->]. eexists. by split.
Qed.

Lemma assert_then {A} b w (k : eff (iworld (D := D)) A) : b = true -> bind (assert b) (fun _ => k) w = k w.
Proof. by intros ->. Qed.

Lemma lor_shiftl_16 h l : 0 <= l < 65536 -> Z.lor (Z.shiftl h 16) l = 65536 * h + l.
Proof.
  intros Hl. rewrite Z.shiftl_mul_pow2 by lia. change (2 ^ 16) with 65536.
  pose proof (Z.add_lor_land (h * 65536) l) as E.
  assert (Z.land (h * 65536) l = 0) as E0.
  { apply Z.bits_inj'. intros n Hn. rewrite Z.land_spec, Z.bits_0.
    destruct (Z.lt_ge_cases n 16) as [Hlt|Hge].
    - change 65536 with (2 ^ 16). rewrite Z.mul_pow2_bits_low by lia. done.
    - assert (Z.testbit l n = false) as ->; [|apply andb_false_r].
      destruct (Z.eq_dec l 0) as [->|]; [apply Z.bits_0|]. apply Z.bits_above_log2; [lia|].
      assert (Z.log2 l < 16); [|lia]. apply Z.log2_lt_pow2; lia. }
  lia.
Qed.

Lemma join16_words v : 0 <= v < 2 ^ 64 ->
  join16 [msw_word v 4 0; msw_word v 4 1; msw_word v 4 2; msw_word v 4 3] = v.
Proof.
  intros Hv. unfold join16, msw_word, u16. cbn [fold_left].
  change ((4 - 1 - 0) * 16) with 48. change ((4 - 1 - 1) * 16) with 32.
  change ((4 - 1 - 2) * 16) with 16. change ((4 - 1 - 3) * 16) with 0.
  rewrite !Z.shiftr_div_pow2 by lia. rewrite !lor_shiftl_16 by (apply Z.mod_pos_bound; lia).
  change (2 ^ 0) with 1. rewrite Z.div_1_r.
  change (2 ^ 48) with (65536 * (65536 * 65536)). change (2 ^ 32) with (65536 * 65536).
  change (2 ^ 16) with 65536. rewrite <- !Z.div_div by lia.
  set (a := v / 65536). set (b := a / 65536). set (d := b / 65536).
  pose proof (Z.div_mod v 65536 ltac:(lia)). pose proof (Z.div_mod a 65536 ltac:(lia)).
  pose proof (Z.div_mod b 65536 ltac:(lia)).
  assert (0 <= d < 65536).
  { unfold d, b, a. rewrite !Z.div_div by lia. split; [apply Z.div_pos; lia|]. apply Z.div_lt_upper_bound; lia. }
  rewrite (Z.mod_small d) by lia. fold a in H. fold b in H0. fold d in H1. lia.
Qed.

(** A read the firmware answers with an exception. *)
Lemma exception_then {A} r c q w (k : ModbusTcp.response -> eff (iworld (D := D)) A) :
  legal r -> served e r c -> conns w = c :: q ->
  exists w1, bind (read_self_regs r.1.1 r.1.2 r.2) k w = k (answer e r) w1 /\ conns w1 = q.
Proof.
  intros Hl Hs Hw. unfold bind. destruct (read_served e r c q w Hl Hs Hw) as (x & -> & _). eexists. by split.
Qed.

(** Run the next step of a test: an /info field, a read of registers. *)
Ltac step_info Hr H w' W :=
  match goal with |- context [bind (info_field device ?key) ?f ?w] =>
    destruct (info_then Hr key _ w f H) as (w' & -> & W) end.

Ltac step_regs vs Hs Hw Hv w' W :=
  match goal with |- context [bind (self_regs ?fc ?start ?count) ?f ?w] =>
    destruct (regs_then fc start count vs _ _ w f ltac:(unfold legal, is_byte, is_u16; lia)
                ltac:(by right) Hs Hw Hv) as (w' & -> & W & _) end.

Ltac step_read r Hs Hw w' W :=
  match goal with |- context [bind (read_self_regs _ _ _) ?f ?w] =>
    let E := fresh in
    destruct (exception_then r _ _ w f ltac:(unfold legal, is_byte, is_u16; lia) Hs Hw) as (w' & E & W);
    cbn [fst snd] in E; rewrite E; clear E end.

Lemma accepts_serial (Hr : reports) (Hi : identity_ok) :
  accepts (test_self_unit_serial_matches_info device) [(4, 266, 2); (4, 268, 4)].
Proof.
  intros w cs q Hw Hs. inversion Hs as [|r1 c1 rs cs1 Hs1 Hs']; subst. inversion Hs' as [|r2 c2 rs2 cs2 Hs2 Hnil]; subst.
  inversion Hnil; subst. cbn [app] in Hw. unfold test_self_unit_serial_matches_info.
  step_info Hr (rp_serial Hr) w1 W1. rewrite Hw in W1.
  step_regs [0; 4] Hs1 W1 (eq_refl (Some [0; 4])) w2 W2.
  unfold bind at 1, lift at 1, index at 1. cbn [lookup list_lookup].
  unfold bind at 1, lift at 1, index at 1. cbn [lookup list_lookup].
  rewrite assert_then by reflexivity.
  set (vs := [msw_word (device_serial_num e) 4 0; msw_word (device_serial_num e) 4 1;
    msw_word (device_serial_num e) 4 2; msw_word (device_serial_num e) 4 3]).
  step_regs vs Hs2 W2 (eq_refl (Some vs)) w3 W3. unfold vs.
  rewrite join16_words by apply (id_serial Hi). unfold assert, eq_num. rewrite Z.eqb_refl. eexists. by split.
Qed.

Lemma u16_small x : 0 <= x < 65536 -> u16 x = x.
Proof. intros H. by apply Z.mod_small. Qed.

Lemma accepts_numeric (Hr : reports) (Hi : identity_ok) :
  accepts (test_self_unit_fw_numeric_consistent device) [(4, 320, 8)].
Proof.
  intros w cs q Hw Hs. inversion Hs as [|r1 c1 rs cs1 Hs1 Hnil]; subst. inversion Hnil; subst. cbn [app] in Hw.
  unfold test_self_unit_fw_numeric_consistent.
  step_info Hr (rp_firmware Hr) w1 W1. rewrite Hw in W1.
  unfold bind at 1, lift, as_str.
  destruct (id_version Hi) as (a & b & c & rest & E & Ha & Hb & Hc & Hst & La & Lb & Lc & Hsuf). rewrite E in Hsuf.
  rewrite E, version_figures_agree by (try done; lia). cbv zeta iota.
  pose proof (version_regs e) as Hv. cbv zeta in Hv. rewrite E in Hv.
  match type of Hv with _ = Some ?l => step_regs l Hs1 W1 Hv w2 W2 end.
  assert (fw_major (parse_fw_version (version_text a b c rest)) = number a /\
    fw_minor (parse_fw_version (version_text a b c rest)) = number b /\
    fw_patch (parse_fw_version (version_text a b c rest)) = number c) as (E1 & E2 & E3).
  { unfold parse_fw_version. rewrite c_numbers by (try done; lia). done. }
  set (fw := parse_fw_version _) in *. clearbody fw.
  assert (forall d, 0 <= number d) as Hn by (intros d; by apply c_digits_nonneg).
  unfold byte_at. cbn [lookup list_lookup default from_option id].
  rewrite E1, E2, E3. pose proof (Hn a). pose proof (Hn b). pose proof (Hn c).
  rewrite !(u16_small (number a)), !(u16_small (number b)), !(u16_small (number c)) by lia.
  rewrite !land_65535. fold (u16 (fw_version fw)). fold (u16 (Z.shiftr (fw_version fw) 16)).
  rewrite !assert_then by (try reflexivity; apply Z.eqb_refl). unfold assert. rewrite Z.eqb_refl. eexists. by split.
Qed.

Lemma accepts_errors :
  accepts test_self_unit_65504_unmapped [(4, 65504, 1)] /\
  accepts test_self_unit_undefined_addr_exception [(4, 500, 1)] /\
  accepts test_self_unit_bootloader_field_not_claimed [(3, 330, 8); (3, 337, 1)] /\
  accepts test_self_unit_bad_fc_exception [(1, 0, 1)].
Proof.
  split_and!; intros w cs q Hw Hs; inversion Hs as [|r1 c1 rs cs1 Hs1 Hs']; subst.
  - inversion Hs'; subst. unfold test_self_unit_65504_unmapped. step_read (4, 65504, 1) Hs1 Hw w1 W. by exists w1.
  - inversion Hs'; subst. unfold test_self_unit_undefined_addr_exception. step_read (4, 500, 1) Hs1 Hw w1 W. by exists w1.
  - inversion Hs' as [|r2 c2 rs2 cs2 Hs2 Hnil]; subst. inversion Hnil; subst.
    unfold test_self_unit_bootloader_field_not_claimed. step_read (3, 330, 8) Hs1 Hw w1 W.
    rewrite assert_then by reflexivity. unfold bind at 1, lift at 1.
    change (first_byte (answer e (3, 330, 8))) with (Ok (A := Z) 2). cbv iota. rewrite assert_then by reflexivity.
    step_read (3, 337, 1) Hs2 W w2 W2. by exists w2.
  - inversion Hs'; subst. unfold test_self_unit_bad_fc_exception. step_read (1, 0, 1) Hs1 Hw w1 W. by exists w1.
Qed.

Lemma accepts_reboot : accepts test_self_unit_reboot_reason_plausible [(4, 65508, 1)].
Proof.
  intros w cs q Hw Hs. inversion Hs as [|r1 c1 rs cs1 Hs1 Hs']; subst. inversion Hs'; subst. cbn [app] in Hw.
  unfold test_self_unit_reboot_reason_plausible.
  step_regs [map_reboot_reason (reset_reason e)] Hs1 Hw (eq_refl (Some [map_reboot_reason (reset_reason e)])) w1 W1.
  exists w1. split; [|exact W1]. destruct (reset_reason e); reflexivity.
Qed.

(** ** The RAM registers *)

(** The verdict of the nearest-match test on three registers. *)
Definition verdict (total used free info_total info_free : Z) : outcome unit :=
  if negb (total =? info_total) then Raise AssertionError
  else if Z.abs (2 * info_free - info_total) <? 36 then Raise PytestSkip
  else if (Z.abs (free - info_free) <? Z.abs (free - (info_total - info_free))) &&
          (Z.abs (used - (info_total - info_free)) <? Z.abs (used - info_free)) then Ok tt
  else Raise AssertionError.

Lemma ram_verdict_eq total used free info_total info_free (w : iworld (D := D)) :
  ram_verdict total used free info_total info_free w = (verdict total used free info_total info_free, w).
Proof.
  unfold ram_verdict, verdict, bind, assert.
  destruct (total =? info_total); [|done]. cbn [negb].
  replace (info_free - (info_total - info_free)) with (2 * info_free - info_total) by lia.
  change (4 * 9) with 36. destruct (Z.abs (2 * info_free - info_total) <? 36); [done|]. unfold ret.
  destruct (Z.abs (free - info_free) <? _); [|done]. cbn [andb].
  by destruct (Z.abs (used - (info_total - info_free)) <? _).
Qed.

Lemma sat_kb x : 0 <= x < 65536 * 1024 -> sat_u16 (x / 1024) = x / 1024.
Proof.
  intros H. unfold sat_u16. rewrite (proj2 (Z.ltb_ge _ _)); [done|].
  assert (x / 1024 < 65536); [|lia]. apply Z.div_lt_upper_bound; lia.
Qed.

(** A heap of the size of an ESP32's, that moves by at most 7 KB between the
    two reads. *)
Definition heap_steady : Prop :=
  let total := heap_total e in
  let f1 := heap_free e 65506 in
  let f2 := heap_free e 65507 in
  65 * 1024 <= total < 2000 * 1024 /\ 1024 <= f1 <= total - 1024 /\ 1024 <= f2 <= total - 1024 /\
  Z.abs (f1 - f2) <= 7 * 1024.

Lemma accepts_diagnostics : heap_steady ->
  accepts test_self_unit_ram_diagnostics_kb [(4, 121, 1); (4, 65505, 3)].
Proof.
  intros (Ht & H1 & H2 & Hd) w cs q Hw Hs. inversion Hs as [|r1 c1 rs cs1 Hs1 Hs']; subst.
  inversion Hs' as [|r2 c2 rs2 cs2 Hs2 Hnil]; subst. inversion Hnil; subst. cbn [app] in Hw.
  unfold test_self_unit_ram_diagnostics_kb.
  step_regs [u16 (supply_mv e)] Hs1 Hw (eq_refl (Some [u16 (supply_mv e)])) w1 W1.
  rewrite assert_then by reflexivity. unfold byte_at at 1 2. cbn [lookup list_lookup default from_option id].
  pose proof (u16_ok (supply_mv e)) as [Ha Hb].
  rewrite assert_then by (apply andb_true_iff; split; apply Z.leb_le; lia).
  set (total := heap_total e) in *. set (f1 := heap_free e 65506) in *. set (f2 := heap_free e 65507) in *.
  assert (read_range e 65505 3 = Some [total / 1024; (total - f1) / 1024; f2 / 1024]) as Hv.
  { transitivity (Some [sat_u16 (total / 1024); sat_u16 ((if f1 <? total then total - f1 else 0) / 1024);
      sat_u16 (f2 / 1024)]); [reflexivity|].
    rewrite (proj2 (Z.ltb_lt f1 total)), !sat_kb by lia. done. }
  step_regs [total / 1024; (total - f1) / 1024; f2 / 1024] Hs2 W1 Hv w2 W2.
  unfold byte_at. cbn [lookup list_lookup default from_option id].
  assert (forall x, x = 1024 * (x / 1024) + x mod 1024 /\ 0 <= x mod 1024 < 1024) as Hm.
  { intros x. split; [apply Z.div_mod | apply Z.mod_pos_bound]; lia. }
  pose proof (Hm total). pose proof (Hm f2). pose proof (Hm (total - f1)).
  rewrite !assert_then; try (reflexivity || (apply Z.ltb_lt; lia)).
  unfold assert. rewrite (proj2 (Z.leb_le _ _)) by lia. eexists. by split.
Qed.

End Accept.

(** Rounding to KB moves a difference by less than two KB. *)
Lemma kb_distance total f1 f2 f3 :
  0 <= f1 <= total -> 0 <= f2 <= total -> 0 <= f3 <= total ->
  Z.abs (f2 / 1024 - f3 / 1024) <= Z.abs (f2 - f3) / 1024 + 1 /\
  Z.abs ((total - f1) / 1024 - (total / 1024 - f3 / 1024)) <= Z.abs (f1 - f3) / 1024 + 2.
Proof.
  intros H1 H2 H3.
  assert (forall x, x = 1024 * (x / 1024) + x mod 1024 /\ 0 <= x mod 1024 < 1024) as Hd.
  { intros x. split; [apply Z.div_mod | apply Z.mod_pos_bound]; lia. }
  pose proof (Hd f2). pose proof (Hd f3). pose proof (Hd total). pose proof (Hd (total - f1)).
  pose proof (Hd (Z.abs (f2 - f3))). pose proof (Hd (Z.abs (f1 - f3))). lia.
Qed.

Lemma verdict_cases it ifr used free du df :
  Z.abs (free - ifr) <= df -> Z.abs (used - (it - ifr)) <= du ->
  36 <= Z.abs (2 * ifr - it) -> 2 * du < Z.abs (2 * ifr - it) -> 2 * df < Z.abs (2 * ifr - it) ->
  verdict it used free it ifr = Ok tt /\ verdict it free used it ifr = Raise AssertionError.
Proof.
  intros Hf Hu Hs H1 H2. unfold verdict. rewrite Z.eqb_refl. cbn [negb].
  rewrite (proj2 (Z.ltb_ge (Z.abs (2 * ifr - it)) 36)) by lia. split.
  - rewrite (proj2 (Z.ltb_lt (Z.abs (free - ifr)) _)), (proj2 (Z.ltb_lt (Z.abs (used - (it - ifr))) _)) by lia. done.
  - rewrite (proj2 (Z.ltb_ge (Z.abs (used - ifr)) _)) by lia. done.
Qed.

(** The state of the heap in one run of the test: the registers are read at
    the free sizes [f1] and [f2], /info at [f3]. *)
Record heap_run (e : device_env) (fields : list (string * json)) (total f1 f2 f3 : Z) : Prop := {
  hr_total : heap_total e = total;
  hr_used_read : heap_free e 65506 = f1;
  hr_free_read : heap_free e 65507 = f2;
  hr_info_total : jget "heap_total" fields = Some (JNum total);
  hr_info_free : jget "heap_free" fields = Some (JNum f3);
  hr_f1 : 0 <= f1 < total;
  hr_f2 : 0 <= f2 <= total;
  hr_f3 : 0 <= f3 <= total;
  hr_u16 : total < 65536 * 1024
}.

Lemma ram_test_verdict {D} (device : request -> D -> outcome response * D) e fields total f1 f2 f3 w c q :
  reports device e fields -> heap_run e fields total f1 f2 f3 ->
  served e (4, 65505, 3) c -> conns w = c :: q ->
  (test_self_unit_ram_matches_info device w).1 =
  verdict (total / 1024) ((total - f1) / 1024) (f2 / 1024) (total / 1024) (f3 / 1024).
Proof.
  intros Hr [Ht H1 H2 Hit Hif B1 B2 B3 B4] Hs Hw. unfold test_self_unit_ram_matches_info.
  assert (read_range e 65505 3 = Some [total / 1024; (total - f1) / 1024; f2 / 1024]) as Hv.
  { transitivity (Some [sat_u16 (heap_total e / 1024);
      sat_u16 ((if heap_free e 65506 <? heap_total e then heap_total e - heap_free e 65506 else 0) / 1024);
      sat_u16 (heap_free e 65507 / 1024)]); [reflexivity|].
    rewrite Ht, H1, H2, (proj2 (Z.ltb_lt f1 total)), !sat_kb by lia. done. }
  unfold bind at 1. destruct (self_regs_served e 4 65505 3 _ c q w ltac:(unfold legal, is_byte, is_u16; lia)
    (or_intror eq_refl) Hs Hw Hv) as [k ->].
  unfold bind at 1, assert at 1. change (zlen [total / 1024; (total - f1) / 1024; f2 / 1024] =? 3) with true.
  cbv iota. unfold ret at 1. unfold bind at 1, on_http, get_info, http_get. set (w1 := iapi _).
  destruct (session_request_spec device (Request GET "/info" None (scalar 10)) w1) as (r & d & t & ck & -> & Hd & _).
  destruct (rp_http device e fields Hr (dev w1)) as (d' & txt & ck' & E). rewrite E in Hd. injection Hd as <- <-.
  unfold bind at 1, assert at 1. change (status_code _ =? 200) with true. cbv iota. unfold ret at 1.
  unfold bind, lift, resp_json. cbn [body_json obind jindex]. rewrite Hit, Hif. cbn [obind int_of].
  rewrite ram_verdict_eq. reflexivity.
Qed.

(** The RAM test tells the used heap from the free heap.  Run against the
    firmware's registers, it is skipped when the two candidates of /info are
    less than 36 KB apart; otherwise, if the free heap moved by less than half
    of that distance (up to 3 KB of rounding) between the reads, the test
    passes, and the same verdict on the two registers exchanged fails. *)
Theorem ram_match_decides {D} (device : request -> D -> outcome response * D) (e : device_env)
  (fields : list (string * json)) (total f1 f2 f3 : Z) (w : iworld) (c : option exn * sock) (q : list (option exn * sock)) :
  reports device e fields -> heap_run e fields total f1 f2 f3 ->
  served e (4, 65505, 3) c -> conns w = c :: q ->
  let it := total / 1024 in
  let ifr := f3 / 1024 in
  let apart := Z.abs (ifr - (it - ifr)) in
  (apart < 36 -> (test_self_unit_ram_matches_info device w).1 = Raise PytestSkip) /\
  (36 <= apart -> 2 * (Z.abs (f1 - f3) / 1024 + 3) <= apart -> 2 * (Z.abs (f2 - f3) / 1024 + 3) <= apart ->
   (test_self_unit_ram_matches_info device w).1 = Ok tt /\
   (ram_verdict (D := D) it (f2 / 1024) ((total - f1) / 1024) it ifr w).1 = Raise AssertionError).
Proof.
  intros Hr Hh Hs Hw it ifr apart. rewrite (ram_test_verdict device e fields total f1 f2 f3 w c q Hr Hh Hs Hw).
  rewrite ram_verdict_eq. cbn [fst]. fold it ifr.
  assert (apart = Z.abs (2 * ifr - it)) as -> by (unfold apart; f_equal; lia). split.
  - intros Hlt. unfold verdict. rewrite Z.eqb_refl. cbn [negb]. by rewrite (proj2 (Z.ltb_lt _ _) Hlt).
  - intros Hge Hd1 Hd2.
    destruct (kb_distance total f1 f2 f3 ltac:(pose proof (hr_f1 _ _ _ _ _ _ Hh); lia)
      (hr_f2 _ _ _ _ _ _ Hh) (hr_f3 _ _ _ _ _ _ Hh)) as [K1 K2].
    eapply verdict_cases; [exact K1 | exact K2 | exact Hge | |]; lia.
Qed.

(** C18. Twelve of the eighteen self-unit tests accept the firmware.  Against a
    device whose /info reports its own identity, whose identity strings hold no
    NUL and fit their registers, whose serial number is a 64-bit number and
    whose version is digits.digits.digits (each below 65536) followed by
    nothing or by what does not begin with a digit and holds, where there is a
    suffix, a plain number below 2^31, and with the answers of the firmware's
    register map arriving on the connections in any pieces, the tests of the
    model, the version string, the git info, the signature, the serial number,
    the numeric version, the reboot reason, the two undefined registers, the
    bootloader field and the unsupported function all pass, and the RAM
    diagnostics pass when the heap is steady between the two reads.  The tests
    of the uptime, the RAM against /info, the statistics block and the three
    through the cache server are not part of the statement. *)
Theorem self_tests_accept_firmware {D} (device : request -> D -> outcome response * D) (e : device_env)
  (fields : list (string * json)) :
  reports device e fields -> identity_ok e ->
  accepts e (test_self_unit_model_matches_info device) [(4, 200, 20)] /\
  accepts e (test_self_unit_firmware_matches_info device) [(4, 250, 16)] /\
  accepts e (test_self_unit_git_info_matches_info device) [(4, 220, 25)] /\
  accepts e (test_self_unit_signature_fc03 device) [(3, 290, 12)] /\
  accepts e (test_self_unit_serial_matches_info device) [(4, 266, 2); (4, 268, 4)] /\
  accepts e (test_self_unit_fw_numeric_consistent device) [(4, 320, 8)] /\
  accepts (D := D) e test_self_unit_reboot_reason_plausible [(4, 65508, 1)] /\
  (accepts (D := D) e test_self_unit_65504_unmapped [(4, 65504, 1)] /\
   accepts (D := D) e test_self_unit_undefined_addr_exception [(4, 500, 1)] /\
   accepts (D := D) e test_self_unit_bootloader_field_not_claimed [(3, 330, 8); (3, 337, 1)] /\
   accepts (D := D) e test_self_unit_bad_fc_exception [(1, 0, 1)]) /\
  (heap_steady e -> accepts (D := D) e test_self_unit_ram_diagnostics_kb [(4, 121, 1); (4, 65505, 3)]).
Proof.
  intros Hr Hi. split_and!.
  - destruct (id_name e Hi). apply (accepts_text device e fields "device_name" (device_name e) 200 20 4); try done;
      [apply Hr | apply model_field | unfold legal, is_byte, is_u16; lia].
  - destruct (id_firmware e Hi). apply (accepts_text device e fields "firmware" (firmware_ver e) 250 16 4); try done;
      [apply Hr | apply firmware_field | unfold legal, is_byte, is_u16; lia].
  - by apply (accepts_git device e fields).
  - by apply (accepts_signature device e fields).
  - by apply (accepts_serial device e fields).
  - by apply (accepts_numeric device e fields).
  - apply accepts_reboot.
  - apply accepts_errors.
  - apply accepts_errors.
  - apply accepts_errors.
  - apply accepts_errors.
  - apply accepts_diagnostics.
Qed.

(** ** A device *)

Definition demo_fields : list (string * json) :=
  [("device_name", JStr "MGE-3"); ("firmware", JStr "1.12.3-rc2"); ("git_info", JStr "abcdef12");
   ("signature", JStr "mge_v3"); ("serial_num", JNum 0x112233445566);
   ("heap_total", JNum 435200); ("heap_free", JNum 265216)].

Definition demo_device (q : request) (d : unit) : outcome response * unit :=
  (Ok (Response 200 "" (Some (JObj demo_fields)) []), tt).

(** The frame [l] arriving in two pieces: its first byte, then the rest. *)
Definition split_conn (l : list Z) : option exn * sock :=
  (None, Sock (match l with b :: l => Bytes b [] :: push_bytes l [] | [] => [] end) true [] [] false).

Lemma split_served e r l :
  l = mb_device_handle_self_request e (request_bytes r.1.1 r.1.2 r.2) -> served e r (split_conn l).
Proof.
  intros ->. split; try done. cbn [split_conn snd incoming].
  destruct (mb_device_handle_self_request _ _) as [|b l]; [done|]. cbn [ready app]. f_equal.
  by rewrite push_bytes_ready, app_nil_r.
Qed.

Definition demo_conn (r : read) : option exn * sock :=
  split_conn (mb_device_handle_self_request demo_env (request_bytes r.1.1 r.1.2 r.2)).

Definition demo_world (rs : list read) : iworld (D := unit) :=
  IWorld (AWorld tt [] ∅ 1 0%Q (fun _ => 0%Q)) (demo_conn <$> rs) [].

Lemma demo_reports : reports demo_device demo_env demo_fields.
Proof. split; try reflexivity. intros d. by exists tt, "", []. Qed.

Lemma demo_identity : identity_ok demo_env.
Proof.
  assert (forall s, forallb (fun b => negb (b =? 0)) (latin1_bytes s) = true -> c_string s) as Hc.
  { intros s H. unfold c_string. apply Forall_forall. intros b Hb. rewrite forallb_forall in H.
    specialize (H b ltac:(by apply list_elem_of_In)). by apply negb_true_iff, Z.eqb_neq in H. }
  split; try (split; [apply Hc; vm_compute; reflexivity | cbn; lia]); [cbn; lia|].
  exists "1", "12", "3", "-rc2". split; [reflexivity|].
  assert (forall d, String.eqb d "" = false -> all_chars is_digit d = true -> digits d) as Hd.
  { intros d H1 H2. split; [by apply String.eqb_neq | exact H2]. }
  split; [by apply Hd|]. split; [by apply Hd|]. split; [by apply Hd|]. do 4 (split; [vm_compute; reflexivity|]).
  intros s E. vm_compute in E. injection E as <-. split; vm_compute; reflexivity.
Qed.

Lemma demo_served r : served demo_env r (demo_conn r).
Proof. exact (split_served demo_env r _ eq_refl). Qed.

Lemma self_tests_accept_firmware_witness :
  exists w', test_self_unit_fw_numeric_consistent demo_device (demo_world [(4, 320, 8)]) = (Ok tt, w').
Proof.
  destruct (self_tests_accept_firmware demo_device demo_env demo_fields demo_reports demo_identity)
    as (_ & _ & _ & _ & _ & H & _).
  destruct (H (demo_world [(4, 320, 8)]) [demo_conn (4, 320, 8)] [] eq_refl) as (w' & E & _).
  - constructor; [|constructor]. apply demo_served.
  - exists w'. exact E.
Defined.

Lemma ram_match_decides_witness :
  let w := demo_world [(4, 65505, 3)] in
  (test_self_unit_ram_matches_info demo_device w).1 = Ok tt /\
  (ram_verdict (D := unit) 425 259 175 425 259 w).1 = Raise AssertionError.
Proof.
  intros w.
  destruct (ram_match_decides demo_device demo_env demo_fields 435200 256000 265216 265216 w
    (demo_conn (4, 65505, 3)) [] demo_reports) as [_ H].
  - split; try reflexivity; lia.
  - apply demo_served.
  - reflexivity.
  - apply H; vm_compute; discriminate.
Defined.
