(* ===== verification/UnityReport.v ===== *)
(** * The Unity log converter: scripts/unity_to_junit.py

    Logs of C unit tests are parsed line by line and written as one JUnit
    report.  The model goes from the content of the log files to the tree of
    XML elements; the serialisation of the tree is the XML library's. *)

From Stdlib Require Import ZArith Lia Ascii String.
From stdpp Require Import base list strings.
From S2P Require Import Prelude PyBytes PyStr.

Open Scope Z_scope.

(** ** Lines *)

Definition ESC : ascii := "027"%char.

Definition is_alpha (c : ascii) : bool :=
  let n := nat_of_ascii c in ((65 <=? n) && (n <=? 90) || (97 <=? n) && (n <=? 122))%nat.

(** The rest of a colour sequence after ["\x1b["]: [[0-9;]*[a-zA-Z]]. *)
Fixpoint ansi_tail (s : string) : option string :=
  match s with
  | EmptyString => None
  | String c s' =>
      if is_digit c || Ascii.eqb c ";" then ansi_tail s'
      else if is_alpha c then Some s' else None
  end.

(** [ANSI_RE.sub('', s)] *)
Fixpoint ansi_sub (fuel : nat) (s : string) : string :=
  match fuel, s with
  | S fuel, String c s' =>
      match (if Ascii.eqb c ESC then
               match s' with
               | String b s'' => if Ascii.eqb b "[" then ansi_tail s'' else None
               | EmptyString => None
               end
             else None) with
      | Some rest => ansi_sub fuel rest
      | None => String c (ansi_sub fuel s')
      end
  | _, _ => s
  end.

Definition strip_ansi (s : string) : string := ansi_sub (String.length s) s.

Inductive status : Type := PASS | FAIL | IGNORE.

#[export] Instance status_eq_dec : EqDecision status.
Proof. solve_decision. Defined.

Definition status_text (st : status) : string :=
  match st with PASS => "PASS" | FAIL => "FAIL" | IGNORE => "IGNORE" end.

(** (file, line, name, status, msg) *)
Record case := Case {
  c_file : string;
  c_line : string;
  c_name : string;
  c_status : status;
  c_msg : string
}.

(** [[^:\s]+\.c] up to the first colon. *)
Definition file_ok (s : string) : bool :=
  (3 <=? String.length s)%nat && endswith ".c" s &&
  all_chars (fun c => negb (is_space c) && negb (Ascii.eqb ":" c)) s.

(** [[A-Za-z_]\w*] *)
Definition word_char (c : ascii) : bool := is_alnum c || Ascii.eqb c "_".
Definition name_ok (s : string) : bool :=
  match s with
  | String c s' => (is_alpha c || Ascii.eqb c "_") && all_chars word_char s'
  | EmptyString => false
  end.

(** The status, alone or followed by a colon, white space and the message, up
    to the end of the line; no message is the empty string. *)
Definition status_msg (st : status) (s : string) : option (status * string) :=
  if String.eqb s (status_text st) then Some (st, "")
  else if startswith (status_text st +:+ ":") s then
    Some (st, lstrip_by is_space (sdrop (S (String.length (status_text st))) s))
  else None.

Definition match_status (s : string) : option (status * string) :=
  match status_msg PASS s with
  | Some r => Some r
  | None => match status_msg FAIL s with
            | Some r => Some r
            | None => status_msg IGNORE s
            end
  end.

(** The head up to the first colon and the tail after it. *)
Definition cut (s : string) : option (string * string) :=
  if contains ":" s then Some (partition_at ":" s) else None.

(** [TEST_LINE_RE.match(clean)] *)
Definition match_line (clean : string) : option case :=
  match cut clean with
  | None => None
  | Some (file, s1) =>
      if negb (file_ok file) then None
      else match cut s1 with
           | None => None
           | Some (line, s2) =>
               if negb (isdigit line) then None
               else match cut s2 with
                    | None => None
                    | Some (name, s3) =>
                        if negb (name_ok name) then None
                        else match match_status s3 with
                             | None => None
                             | Some (st, msg) => Some (Case file line name st msg)
                             end
                    end
           end
  end.

Definition parse_line (raw : string) : option case :=
  match_line (rstrip_by is_space (strip_ansi raw)).

(** [parse_log(path)] on the text of the file; a text file is read line by
    line with universal newlines. *)
Definition parse_log (content : string) : list case :=
  omap parse_line (split_on LF (universal_newlines content)).

(** ** The report *)

Inductive element : Type :=
| Element (tag : string) (attrs : list (string * string)) (text : string) (children : list element).

(** [os.path.splitext(os.path.basename(path))[0]]: the last dot that is not a
    leading one starts the extension. *)
Fixpoint last_part (l : list string) : string :=
  match l with [] => "" | [x] => x | _ :: l => last_part l end.

Definition basename (path : string) : string := last_part (split_on "/" path).

Definition splitext_root (name : string) : string :=
  let parts := split_on "." name in
  match parts with
  | [] | [_] => name
  | _ => let root := join "." (take (length parts - 1) parts) in
         if all_chars (Ascii.eqb ".") root then name else root
  end.

(** [suite_name_from_path], from the path relative to the root of the logs. *)
Definition suite_name_from_path (rel : string) : string :=
  let group := default "unknown" (head (split_on "/" rel)) in
  group +:+ "." +:+ splitext_root (basename rel).

Definition or_default (msg dflt : string) : string := if String.eqb msg "" then dflt else msg.

Definition testcase (suite_name : string) (c : case) : element :=
  Element "testcase"
    [("classname", suite_name); ("name", c_name c); ("file", c_file c); ("line", c_line c)] ""
    (match c_status c with
     | FAIL =>
         [Element "failure" [("message", or_default (c_msg c) "assertion failed"); ("type", "UnityAssertion")]
            (c_file c +:+ ":" +:+ c_line c +:+ ": " +:+ c_msg c) []]
     | IGNORE => [Element "skipped" [("message", or_default (c_msg c) "ignored")] "" []]
     | PASS => []
     end).

(** The loop over the cases of one log: elements, failures, skips. *)
Fixpoint suite_cases (suite_name : string) (cases : list case) : list element * Z * Z :=
  match cases with
  | [] => ([], 0, 0)
  | c :: cases =>
      let '(els, s_fail, s_skip) := suite_cases suite_name cases in
      (testcase suite_name c :: els,
       (if bool_decide (c_status c = FAIL) then s_fail + 1 else s_fail),
       (if bool_decide (c_status c = IGNORE) then s_skip + 1 else s_skip))
  end.

(** One log with its cases: the element, its failures, its skips. *)
Definition testsuite (rel : string) (cases : list case) : element * Z * Z :=
  let suite_name := suite_name_from_path rel in
  let '(els, s_fail, s_skip) := suite_cases suite_name cases in
  (Element "testsuite"
     [("name", suite_name); ("tests", show_Z (zlen cases)); ("failures", show_Z s_fail);
      ("errors", "0"); ("skipped", show_Z s_skip)] "" els, s_fail, s_skip).

Record totals := Totals { t_tests : Z; t_failures : Z; t_skipped : Z }.

(** The loop of [main] over the logs, as (relative path, content) in sorted
    order: the suites and the totals. *)
Fixpoint convert (logs : list (string * string)) (t : totals) : list element * totals :=
  match logs with
  | [] => ([], t)
  | (rel, content) :: logs =>
      match parse_log content with
      | [] => convert logs t
      | cases =>
          let '(suite_el, s_fail, s_skip) := testsuite rel cases in
          let (suites, t') := convert logs
            (Totals (t_tests t + zlen cases) (t_failures t + s_fail) (t_skipped t + s_skip)) in
          (suite_el :: suites, t')
      end
  end.

Definition main (logs : list (string * string)) : element :=
  let (suites, t) := convert logs (Totals 0 0 0) in
  Element "testsuites"
    [("name", "C unittests"); ("tests", show_Z (t_tests t)); ("failures", show_Z (t_failures t));
     ("errors", "0"); ("skipped", show_Z (t_skipped t))] "" suites.

(** ** Counting *)

Definition tally (st : status) (cases : list case) : Z := zlen (filter (fun c => c_status c = st) cases).

Definition tag_of (e : element) : string := let 'Element t _ _ _ := e in t.
Definition children (e : element) : list element := let 'Element _ _ _ c := e in c.

(** The elements with a tag, anywhere in the tree. *)
Fixpoint count_tag (tag : string) (e : element) : Z :=
  let 'Element t _ _ cs := e in
  (if String.eqb t tag then 1 else 0) +
  (fix sum (l : list element) : Z := match l with [] => 0 | c :: l => count_tag tag c + sum l end) cs.

Definition count_all (tag : string) (l : list element) : Z := foldr (fun c n => count_tag tag c + n) 0 l.

Lemma count_tag_children tag t a x cs :
  count_tag tag (Element t a x cs) = (if String.eqb t tag then 1 else 0) + count_all tag cs.
Proof. cbn [count_tag]. f_equal. Qed.

Lemma tally_cons st c cases :
  tally st (c :: cases) = (if bool_decide (c_status c = st) then 1 else 0) + tally st cases.
Proof.
  unfold tally, zlen. rewrite filter_cons. destruct (decide (c_status c = st)) as [H|H].
  - rewrite bool_decide_eq_true_2 by done. cbn [length]. lia.
  - rewrite bool_decide_eq_false_2 by done. lia.
Qed.

Lemma tally_app st l k : tally st (l ++ k) = tally st l + tally st k.
Proof. unfold tally. by rewrite list.filter_app, zlen_app. Qed.

Lemma suite_cases_spec name cases els s_fail s_skip :
  suite_cases name cases = (els, s_fail, s_skip) ->
  els = testcase name <$> cases /\ s_fail = tally FAIL cases /\ s_skip = tally IGNORE cases /\
  count_all "testcase" els = zlen cases /\ count_all "failure" els = tally FAIL cases /\
  count_all "skipped" els = tally IGNORE cases.
Proof.
  revert els s_fail s_skip. induction cases as [|c cases IH]; intros els s_fail s_skip; cbn [suite_cases].
  { intros [= <- <- <-]. done. }
  destruct (suite_cases name cases) as [[els' f'] k'] eqn:E. intros [= <- <- <-].
  destruct (IH _ _ _ eq_refl) as (-> & -> & -> & H1 & H2 & H3). split; [done|].
  rewrite !tally_cons. cbn [count_all foldr] in *.
  fold (count_all "testcase" (testcase name <$> cases)). fold (count_all "failure" (testcase name <$> cases)).
  fold (count_all "skipped" (testcase name <$> cases)). rewrite H1, H2, H3.
  unfold testcase. rewrite !count_tag_children. unfold zlen in *. cbn [length].
  destruct (c_status c); repeat case_bool_decide; try done; cbn [count_all foldr count_tag String.eqb Ascii.eqb Bool.eqb];
    split_and!; lia.
Qed.

(** The suites of the logs that have cases, in order. *)
Definition suite_of (log : string * string) : list element :=
  match parse_log log.2 with [] => [] | cases => [(testsuite log.1 cases).1.1] end.

Lemma convert_spec logs t suites t' :
  convert logs t = (suites, t') ->
  let all := logs ≫= (fun log => parse_log log.2) in
  suites = logs ≫= suite_of /\
  t' = Totals (t_tests t + zlen all) (t_failures t + tally FAIL all) (t_skipped t + tally IGNORE all) /\
  count_all "testcase" suites = zlen all /\ count_all "failure" suites = tally FAIL all /\
  count_all "skipped" suites = tally IGNORE all.
Proof.
  revert t suites t'. induction logs as [|[rel content] logs IH]; intros t suites t'; cbn [convert].
  { intros [= <- <-]. cbn. destruct t. cbn. by rewrite !Z.add_0_r. }
  cbv zeta in *. rewrite !bind_cons. unfold suite_of at 1. cbn [fst snd].
  destruct (parse_log content) as [|c cases] eqn:Ep; [apply IH|].
  unfold testsuite. destruct (suite_cases (suite_name_from_path rel) (c :: cases)) as [[els f] k] eqn:E.
  destruct (suite_cases_spec _ _ _ _ _ E) as (_ & -> & -> & H1 & H2 & H3).
  destruct (convert logs _) as [suites0 t0] eqn:Ec. intros [= <- <-].
  destruct (IH _ _ _ Ec) as (-> & -> & G1 & G2 & G3).
  cbn [t_tests t_failures t_skipped]. rewrite !zlen_app, !tally_app.
  split; [done|]. split; [f_equal; lia|]. cbn [count_all foldr].
  rewrite !count_tag_children. cbn [String.eqb Ascii.eqb Bool.eqb].
  split_and!; unfold count_all in *; lia.
Qed.

(** The report loses nothing.  The root counts every parsed case, every
    failure and every skip of all the logs; its suites are those of the logs
    that have cases, in their order; and the tree holds exactly that many
    testcase, failure and skipped elements. *)
Theorem report_complete (logs : list (string * string)) :
  let all := logs ≫= (fun log => parse_log log.2) in
  main logs = Element "testsuites"
    [("name", "C unittests"); ("tests", show_Z (zlen all)); ("failures", show_Z (tally FAIL all));
     ("errors", "0"); ("skipped", show_Z (tally IGNORE all))] "" (logs ≫= suite_of) /\
  count_tag "testcase" (main logs) = zlen all /\ count_tag "failure" (main logs) = tally FAIL all /\
  count_tag "skipped" (main logs) = tally IGNORE all.
Proof.
  intros all. unfold main. destruct (convert logs (Totals 0 0 0)) as [suites t] eqn:E.
  destruct (convert_spec _ _ _ _ E) as (-> & -> & H1 & H2 & H3). cbn [t_tests t_failures t_skipped].
  rewrite !Z.add_0_l, !count_tag_children, H1, H2, H3. by split_and!.
Qed.

(** ** Reading Unity's output back *)

(** The parameters of a colour sequence. *)
Definition params (p : string) : bool := all_chars (fun c => is_digit c || Ascii.eqb c ";") p.

(** [raw] is [s] with colour sequences put in anywhere. *)
Inductive coloured : string -> string -> Prop :=
| col_nil : coloured "" ""
| col_char c s raw : coloured s raw -> coloured (String c s) (String c raw)
| col_seq p x s raw : params p = true -> is_alpha x = true -> coloured s raw ->
    coloured s (String ESC (String "[" (p +:+ String x raw))).

Lemma ansi_tail_seq p x raw : params p = true -> is_alpha x = true -> ansi_tail (p +:+ String x raw) = Some raw.
Proof.
  intros Hp Hx. induction p as [|c p IH]; unfold params in *.
  - rewrite sapp_nil. cbn [ansi_tail]. rewrite Hx.
    assert ((is_digit x || Ascii.eqb x ";") = false) as ->; [|done].
    apply orb_false_iff. split; [|destruct (Ascii.eqb_spec x ";"); [subst; vm_compute in Hx; discriminate | done]].
    unfold is_digit. apply bool_decide_eq_false. intros [d Hd]. unfold digit_val in Hd. split_match_in Hd; [|done].
    unfold is_alpha in Hx. bool_to_prop. destruct Hx; bool_to_prop; lia.
  - cbn [all_chars] in Hp. apply andb_true_iff in Hp as [Hc Hp]. rewrite sapp_cons. cbn [ansi_tail].
    rewrite Hc. by apply IH.
Qed.

Lemma ansi_sub_coloured s raw fuel : coloured s raw -> no_char ESC s = true ->
  (String.length raw <= fuel)%nat -> ansi_sub fuel raw = s.
Proof.
  intros H. revert fuel. induction H as [|c s raw H IH|p x s raw Hp Hx H IH]; intros fuel Hn Hf.
  - by destruct fuel.
  - cbn in Hf. destruct fuel as [|fuel]; [lia|]. cbn [ansi_sub].
    unfold no_char in Hn. cbn [all_chars] in Hn. apply andb_true_iff in Hn as [Hc Hn].
    apply negb_true_iff in Hc. rewrite Ascii.eqb_sym, Hc. f_equal. apply IH; [done | lia].
  - cbn [String.length] in Hf. rewrite sapp_length in Hf. cbn [String.length] in Hf.
    destruct fuel as [|fuel]; [lia|]. cbn [ansi_sub]. rewrite Ascii.eqb_refl.
    change (Ascii.eqb "[" "[") with true. cbv iota. rewrite ansi_tail_seq by done. apply IH; [done | lia].
Qed.

Lemma strip_ansi_coloured s raw : coloured s raw -> no_char ESC s = true -> strip_ansi raw = s.
Proof. intros H Hn. by apply ansi_sub_coloured. Qed.

(** The text Unity prints for a case. *)
Definition render (c : case) : string :=
  c_file c +:+ String ":" (c_line c +:+ String ":" (c_name c +:+ String ":"
    (status_text (c_status c) +:+ (if String.eqb (c_msg c) "" then "" else ": " +:+ c_msg c)))).

Definition ends_plain (s : string) : bool :=
  match srev s with String c _ => negb (is_space c) | EmptyString => true end.

Definition starts_plain (s : string) : bool :=
  match s with String c _ => negb (is_space c) | EmptyString => true end.

(** A case Unity can print: an identifier, a line number, a C file, and a
    message on one line with no white space around it and no escape. *)
Record case_ok (c : case) : Prop := {
  ok_file : file_ok (c_file c) = true;
  ok_line : isdigit (c_line c) = true;
  ok_name : name_ok (c_name c) = true;
  ok_start : starts_plain (c_msg c) = true;
  ok_end : ends_plain (render c) = true;
  ok_escape : no_char ESC (render c) = true
}.

Lemma rstrip_plain s : ends_plain s = true -> rstrip_by is_space s = s.
Proof.
  unfold ends_plain, rstrip_by. intros H. destruct (srev s) as [|c r] eqn:E.
  - cbn. rewrite <- (srev_involutive s), E. done.
  - apply negb_true_iff in H. cbn [lstrip_by]. rewrite H, <- E. apply srev_involutive.
Qed.

Lemma contains_char c s t : contains (String c "") (s +:+ String c t) = true.
Proof.
  induction s as [|d s IH].
  - rewrite sapp_nil. cbn [contains String.prefix]. destruct (ascii_dec c c); [by destruct t | congruence].
  - rewrite sapp_cons. cbn [contains]. by rewrite IH, orb_true_r.
Qed.

Lemma cut_app s t : no_char ":" s = true -> cut (s +:+ String ":" t) = Some (s, t).
Proof. intros H. unfold cut. by rewrite contains_char, partition_at_app. Qed.

Lemma match_status_render st msg : starts_plain msg = true ->
  match_status (status_text st +:+ (if String.eqb msg "" then "" else ": " +:+ msg)) = Some (st, msg).
Proof.
  intros Hs. destruct (String.eqb_spec msg "") as [->|Hne]; [by destruct st|].
  destruct msg as [|c msg]; [done|]. cbn in Hs. apply negb_true_iff in Hs.
  assert (lstrip_by is_space (String " " (String c msg)) = String c msg) as El.
  { cbn [lstrip_by]. change (is_space " ") with true. cbv iota. by rewrite Hs. }
  destruct st; unfold match_status, status_msg; cbn [status_text]; rewrite ?sapp_cons, ?sapp_nil;
    cbn [String.eqb Ascii.eqb Bool.eqb startswith String.prefix String.length sdrop];
    repeat match goal with |- context [ascii_dec ?a ?b] => destruct (ascii_dec a b); try done end;
    by rewrite El.
Qed.

Lemma match_render c : case_ok c -> match_line (render c) = Some c.
Proof.
  intros [Hf Hl Hn Hs _ _]. destruct c as [file line name st msg]. cbn [c_file c_line c_name c_status c_msg] in *.
  unfold match_line, render. cbn [c_file c_line c_name c_status c_msg].
  assert (no_char ":" file = true) as Nf.
  { unfold file_ok in Hf. apply andb_true_iff in Hf as [_ Hf]. unfold no_char. eapply all_chars_impl; [|exact Hf].
    intros d Hd. apply andb_true_iff in Hd as [_ Hd]. done. }
  assert (no_char ":" line = true) as Nl.
  { unfold isdigit in Hl. apply andb_true_iff in Hl as [_ Hl]. unfold no_char. eapply all_chars_impl; [|exact Hl].
    intros d Hd. apply negb_true_iff. rewrite Ascii.eqb_sym. by apply ascii_eqb_digit. }
  assert (no_char ":" name = true) as Nn.
  { destruct name as [|d name]; [done|]. unfold name_ok in Hn. apply andb_true_iff in Hn as [Hd Hn].
    unfold no_char. cbn [all_chars]. apply andb_true_iff. split.
    - apply negb_true_iff. destruct (Ascii.eqb_spec ":" d); [by subst | done].
    - eapply all_chars_impl; [|exact Hn]. intros x Hx. apply negb_true_iff.
      destruct (Ascii.eqb_spec ":" x); [by subst | done]. }
  rewrite cut_app, Hf by done. cbn [negb]. rewrite cut_app, Hl by done. cbn [negb].
  rewrite cut_app, Hn by done. cbn [negb]. by rewrite match_status_render.
Qed.

Lemma universal_plain s : no_char CR s = true -> universal_newlines s = s.
Proof.
  induction s as [|c s IH]; [done|]. unfold no_char. cbn [all_chars universal_newlines]. intros H.
  apply andb_true_iff in H as [Hc H]. apply negb_true_iff in Hc. rewrite Ascii.eqb_sym, Hc. by rewrite IH.
Qed.

(** What a line of a log is: a result in any colours, or anything else the
    parser passes over. *)
Definition line_is (raw : string) (oc : option case) : Prop :=
  no_char LF raw = true /\ no_char CR raw = true /\
  match oc with
  | Some c => case_ok c /\ coloured (render c) raw
  | None => parse_line raw = None
  end.

Lemma no_char_join c (l : list string) : Ascii.eqb c LF = false ->
  Forall (fun s => no_char c s = true) l -> no_char c (join (String LF "") l) = true.
Proof.
  intros Hc. induction 1 as [|s l Hs Hl IH]; [done|]. destruct l as [|t l]; [done|].
  change (join (String LF "") (s :: t :: l)) with (s +:+ String LF (join (String LF "") (t :: l))).
  rewrite no_char_app, Hs. change (no_char c (String LF ?x)) with (negb (Ascii.eqb c LF) && no_char c x).
  by rewrite Hc, IH.
Qed.

(** Every result line is read back.  A log whose lines are the results
    Unity prints, with colour sequences put in anywhere, and other output
    between them, is parsed to exactly those results, in order. *)
Theorem parse_log_roundtrip (lines : list string) (results : list (option case)) :
  lines <> [] -> Forall2 line_is lines results ->
  parse_log (join (String LF "") lines) = omap id results.
Proof.
  intros Hne H. unfold parse_log.
  assert (Forall (fun s => no_char LF s = true) lines) as H1.
  { clear Hne. induction H as [|raw oc ls os (Ha & _) H IH]; [constructor|]. by constructor. }
  assert (Forall (fun s => no_char CR s = true) lines) as H2.
  { clear Hne H1. induction H as [|raw oc ls os (_ & Hb & _) H IH]; [constructor|]. by constructor. }
  rewrite universal_plain by (by apply no_char_join). rewrite split_on_join by done.
  clear Hne H1 H2. induction H as [|raw oc ls os (_ & _ & Hl) H IH]; [done|]. cbn [omap list_omap].
  assert (parse_line raw = oc) as ->.
  { destruct oc as [c|]; [|done]. destruct Hl as [Hc Hcol]. unfold parse_line.
    rewrite (strip_ansi_coloured (render c) raw Hcol (ok_escape c Hc)), rstrip_plain by apply Hc.
    by apply match_render. }
  destruct oc; cbn [id]; by rewrite IH.
Qed.

Definition demo_case : case := Case "test_crc.c" "42" "test_empty" FAIL "Expected 0 Was 1".

(** A red FAIL between two other lines. *)
Lemma parse_log_roundtrip_witness :
  parse_log (join (String LF "")
    ["Running"; "test_crc.c:42:test_empty:" +:+ String ESC "[31mFAIL" +:+ String ESC "[0m: Expected 0 Was 1"; "OK"]) =
  [demo_case].
Proof.
  apply (parse_log_roundtrip _ [None; Some demo_case; None]); [done|].
  constructor; [split_and!; vm_compute; reflexivity|].
  constructor; [|constructor; [split_and!; vm_compute; reflexivity | constructor]].
  split; [vm_compute; reflexivity|]. split; [vm_compute; reflexivity|]. split.
  - split; vm_compute; reflexivity.
  - change (render demo_case) with ("test_crc.c:42:test_empty:" +:+ "FAIL: Expected 0 Was 1").
    cbn [String.append]. do 25 apply col_char.
    apply (col_seq "31" "m"); [reflexivity | reflexivity |]. do 4 apply col_char.
    apply (col_seq "0" "m"); [reflexivity | reflexivity |]. repeat constructor.
Defined.
