(* ===== verification/NetLog.v ===== *)
(** * Requests on the record

    Several tests talk to the device through different base URLs, sessions or
    cookies, and what a verdict of theirs means is what they were answered, in
    which order.  This file has the network of the HTTP client ([ApiClient])
    in which every request is recorded with who made it and what came back,
    and one judgement for all code that runs on it: what the record shows
    afterwards, what the code costs, and what it leaves behind. *)

From Stdlib Require Import QArith Qminmax Lqa.
From stdpp Require Import base list gmap strings.
From Stdlib Require Import ZArith Lia.
From S2P Require Import Prelude PyStr Gateway ApiClient.

Open Scope Z_scope.

(** ** The network *)

(** What happened: a request with its answer, a look at the serial log, a
    warning of the test. *)
Inductive event (T : Type) : Type :=
| Asked (who : T) (q : request) (r : outcome response)
| Saw (content : option string)
| Warned.
Arguments Asked {T} who q r.
Arguments Saw {T} content.
Arguments Warned {T}.

Definition history (T : Type) : Type := list (event T).

(** ["k" in j] on a value read from JSON. *)
Definition py_in (k : string) (j : json) : outcome bool :=
  match j with
  | JObj fields => Ok (bool_decide (k ∈ fields.*1))
  | JList l => Ok (existsb (fun v => match v with JStr s => String.eqb s k | _ => false end) l)
  | JStr s => Ok (contains k s)
  | _ => Raise TypeError
  end.

Lemma py_get_settled k j : settled (py_get k j).
Proof. by destruct j. Qed.
Lemma jindex_settled k j : settled (jindex k j).
Proof. destruct j; try done. cbn. by destruct (jget k fields). Qed.
Lemma py_in_settled k j : settled (py_in k j).
Proof. by destruct j. Qed.
Lemma resp_json_settled r : settled (resp_json r).
Proof. unfold resp_json. by destruct (body_json r). Qed.

Definition assert {W} (b : bool) : eff W unit := if b then ret tt else raise AssertionError.

(** [try: m finally: f], where [f] can see whether an exception is on its way. *)
Definition try_finally_exc {W} (m : eff W unit) (f : bool -> eff W unit) : eff W unit := fun w =>
  match m w with
  | (Ok _, w') => f false w'
  | (Raise e, w') => (f true ;;; raise e) w'
  | (Blocked, w') => (Blocked, w')
  end.

(** One step of a [try] whose [finally] depends on how far the block got. *)
Definition or_finally {W A B} (m : eff W A) (f : eff W unit) (k : A -> eff W B) : eff W B := fun w =>
  match m w with
  | (Ok x, w') => k x w'
  | (Raise e, w') => try_finally (raise e) f w'
  | (Blocked, w') => (Blocked, w')
  end.

Section Net.
Context {Who D : Type} {device : Who -> request -> D -> outcome response * D}.

(** The device, with the record of every request made of it. *)
Definition recorded (who : Who) (q : request) (d : D * history Who) : outcome response * (D * history Who) :=
  let (r, d') := device who q d.1 in (r, (d', d.2 ++ [Asked who q r])).

Notation network := (aworld (D * history Who)).

Definition close_session : eff network unit :=
  modify (fun a => AWorld (dev a) (log a) (cookies a) (pred (open_sessions a)) (now a) (cost a)).

(** [client = WBMGEAPI(base_url); try: m finally: client.session.close()]: a
    session of its own, whose cookies are not those of the fixture. *)
Definition with_client {A} (m : eff network A) : eff network A := fun a =>
  let (r, a') := try_finally m close_session
                   (AWorld (dev a) (log a) ∅ (S (open_sessions a)) (now a) (cost a)) in
  (r, AWorld (dev a') (log a') (cookies a) (open_sessions a') (now a') (cost a')).

(** A request of its own, or of a plain [requests.Session]: no delay. *)
Definition bare (who : Who) (q : request) : eff network response := fun a =>
  let (r, d) := recorded who q (dev a) in
  (r, AWorld d (log a ++ [q]) (cookies a) (open_sessions a) (now a + cost a (length (log a))) (cost a)).

(** Note something down that is not a request. *)
Definition mark (e : event Who) : eff network unit :=
  modify (fun a => AWorld ((dev a).1, (dev a).2 ++ [e]) (log a) (cookies a) (open_sessions a) (now a) (cost a)).

(** ** What a call shows, costs and leaves behind

    One judgement for all helpers.  [runs b m Phi]: the record of [m] only
    grows, by some [h], and [Phi a h] holds when [m] returns [a]; and on a
    network that behaves, [m] returns, raises an ordinary exception or skips, leaves
    the fixture's session as it was, and takes at most [b] when no request
    took longer than its timeout. *)

(** Whether the code may also skip the test. *)
Context {skips : bool}.

Definition ordinary {A} (r : outcome A) : Prop :=
  match r with
  | Ok _ => True
  | Raise e => catches Exception_ e = true \/ (skips = true /\ e = PytestSkip)
  | Blocked => False
  end.

(** The device answers, or [requests] raises. *)
Definition answers {A} (r : outcome A) : Prop :=
  match r with Ok _ => True | Raise e => catches Exception_ e = true | Blocked => False end.

#[local] Hint Extern 0 (ordinary _) => (left; reflexivity) : core.
#[local] Hint Extern 0 (ordinary _) => exact I : core.

Lemma answers_ordinary {A} (r : outcome A) : answers r -> ordinary r.
Proof. destruct r; cbn; auto. Qed.

Definition timely (a : network) : Prop :=
  forall n q, log a !! n = Some q -> (0 <= cost a n <= (timeout q).2)%Q.

(** Fuel for one round per second of the longest wait. *)
Context {fuel limit : nat}.

Record nice (a : network) : Prop := {
  nice_fuel : (limit < fuel)%nat;
  nice_device : forall who q d, answers (device who q d).1;
  nice_cost : forall n, (0 <= cost a n)%Q;
  nice_session : (1 <= open_sessions a)%nat
}.

Record grown (a a' : network) (h : history Who) : Prop := {
  grown_history : (dev a').2 = (dev a).2 ++ h;
  grown_cost : cost a' = cost a;
  grown_log : exists l, log a' = log a ++ l
}.

Record behaved {A} (b : Q) (a : network) (r : outcome A) (a' : network) : Prop := {
  beh_ordinary : ordinary r;
  beh_session : open_sessions a' = open_sessions a;
  beh_later : (now a <= now a')%Q;
  beh_time : timely a' -> (now a' <= now a + b)%Q
}.

Definition runs {A} (b : Q) (m : eff network A) (Phi : A -> history Who -> Prop) : Prop := forall a, exists h,
  grown a (m a).2 h /\ (forall x, (m a).1 = Ok x -> Phi x h) /\ (nice a -> behaved b a (m a).1 (m a).2).

Lemma grown_refl a : grown a a [].
Proof. split; [by rewrite app_nil_r|done|exists []; by rewrite app_nil_r]. Qed.

Lemma grown_trans a1 a2 a3 h1 h2 : grown a1 a2 h1 -> grown a2 a3 h2 -> grown a1 a3 (h1 ++ h2).
Proof.
  intros [H1 C1 [l1 L1]] [H2 C2 [l2 L2]]. split; [by rewrite H2, H1, app_assoc|congruence|].
  exists (l1 ++ l2). by rewrite L2, L1, app_assoc.
Qed.

Lemma grown_timely a a' h : grown a a' h -> timely a' -> timely a.
Proof.
  intros [_ C [l L]] H n q Hn. rewrite <- C. apply H. rewrite L. by apply lookup_app_l_Some.
Qed.

Lemma behaved_nice {A} b a (r : outcome A) a' h : grown a a' h -> behaved b a r a' -> nice a -> nice a'.
Proof.
  intros [_ C _] [_ S _ _] [? ? ? ?]. split; [done|done|by rewrite C|by rewrite S].
Qed.

Lemma runs_ret {A} (x : A) (Phi : A -> history Who -> Prop) : Phi x [] -> runs 0 (ret x) Phi.
Proof.
  intros H a. exists []. split_and!; [apply grown_refl|by intros y [= <-]|].
  intros _. split; [done|done|cbn; lra|]. intros _. cbn. lra.
Qed.

Lemma runs_raise {A} e (Phi : A -> history Who -> Prop) : ordinary (A := A) (Raise e) -> runs 0 (raise e) Phi.
Proof.
  intros H a. exists []. split_and!; [apply grown_refl|done|].
  intros _. split; [exact H|done|cbn; lra|]. intros _. cbn. lra.
Qed.

Lemma ordinary_exn {A} e : catches Exception_ e = true -> ordinary (A := A) (Raise e).
Proof. by left. Qed.

Lemma runs_lift {A} (r : outcome A) (Phi : A -> history Who -> Prop) :
  ordinary r -> (forall x, r = Ok x -> Phi x []) -> runs 0 (lift r) Phi.
Proof.
  intros Hr H a. exists []. split_and!; [apply grown_refl|done|].
  intros _. split; [done|done|cbn; lra|]. intros _. cbn. lra.
Qed.

Lemma runs_weaken {A} b b' (m : eff network A) (Phi Psi : A -> history Who -> Prop) :
  runs b m Phi -> (b <= b')%Q -> (forall x h, Phi x h -> Psi x h) -> runs b' m Psi.
Proof.
  intros H Hb HP a. destruct (H a) as (h & G & P & B). exists h. split_and!; [done|auto|].
  intros N. destruct (B N) as [O S L T]. split; [done|done|done|]. intros Ht. specialize (T Ht). lra.
Qed.

Lemma runs_le {A} b b' (m : eff network A) Phi : runs b m Phi -> (b <= b')%Q -> runs b' m Phi.
Proof. intros H Hb. by apply (runs_weaken b _ _ Phi). Qed.

Lemma runs_bind {A B} b1 b2 (m : eff network A) (k : A -> eff network B) Phi Psi :
  (0 <= b2)%Q -> runs b1 m Phi ->
  (forall x h, Phi x h -> runs b2 (k x) (fun y h' => Psi y (h ++ h'))) ->
  runs (b1 + b2) (bind m k) Psi.
Proof.
  intros Hb H1 H2 a. destruct (H1 a) as (h & G & P & N1). unfold bind.
  destruct (m a) as [[x|e|] a1]; cbn [fst snd] in *.
  - destruct (H2 x h (P x eq_refl) a1) as (h' & G' & P' & N2). exists (h ++ h').
    split_and!; [by eapply grown_trans|exact P'|]. intros N. pose proof (N1 N) as B1.
    pose proof (N2 (behaved_nice _ _ _ _ _ G B1 N)) as B2. destruct B1 as [_ S1 L1 T1], B2 as [O2 S2 L2 T2].
    split; [done|congruence|lra|]. intros Ht. specialize (T2 Ht). specialize (T1 (grown_timely _ _ _ G' Ht)). lra.
  - exists h. split_and!; [done|done|]. intros N. destruct (N1 N) as [O1 S1 L1 T1].
    split; [done|done|done|]. intros Ht. specialize (T1 Ht). lra.
  - exists h. split_and!; [done|done|]. intros N. by destruct (N1 N) as [[] _ _ _].
Qed.

Lemma runs_try {A} b1 b2 (m : eff network A) c k Psi :
  (0 <= b2)%Q -> runs b1 m Psi -> (forall e h, runs b2 (k e) (fun y h' => Psi y (h ++ h'))) ->
  runs (b1 + b2) (try_except m c k) Psi.
Proof.
  intros Hb H1 H2 a. destruct (H1 a) as (h & G & P & N1). unfold try_except.
  assert (nice a -> (timely (m a).2 -> now (m a).2 <= now a + (b1 + b2))%Q) as Ht'.
  { intros N Ht. destruct (N1 N) as [_ _ _ T]. specialize (T Ht). lra. }
  destruct (m a) as [[x|e|] a1]; cbn [fst snd] in *.
  - exists h. split_and!; [done|done|]. intros N. destruct (N1 N). split; auto.
  - destruct (c e); [|exists h; split_and!; [done|done|]; intros N; destruct (N1 N); split; auto].
    destruct (H2 e h a1) as (h' & G' & P' & N2). exists (h ++ h').
    split_and!; [by eapply grown_trans|exact P'|]. intros N. pose proof (N1 N) as B1.
    pose proof (N2 (behaved_nice _ _ _ _ _ G B1 N)) as B2. destruct B1 as [_ S1 L1 T1], B2 as [O2 S2 L2 T2].
    split; [done|congruence|lra|]. intros Ht. specialize (T2 Ht). specialize (T1 (grown_timely _ _ _ G' Ht)). lra.
  - exists h. split_and!; [done|done|]. intros N. by destruct (N1 N) as [[] _ _ _].
Qed.

Lemma runs_finally {A} b1 b2 (m : eff network A) (f : eff network unit) Phi Psi :
  (0 <= b2)%Q -> runs b1 m Phi -> runs b2 f (fun _ _ => True) -> (forall x h h', Phi x h -> Psi x (h ++ h')) ->
  runs (b1 + b2) (try_finally m f) Psi.
Proof.
  intros Hb H1 H2 HP a. destruct (H1 a) as (h & G & P & N1). unfold try_finally.
  destruct (m a) as [[x|e|] a1]; cbn [fst snd] in *.
  3: { exists h. split_and!; [done|done|]. intros N. by destruct (N1 N) as [[] _ _ _]. }
  all: destruct (H2 a1) as (h' & G' & _ & N2); exists (h ++ h');
    (destruct (f a1) as [[[]|e'|] a2]; cbn [fst snd] in *);
    (split_and!; [by eapply grown_trans|try done; by intros y [= <-]; auto|]);
    intros N; pose proof (N1 N) as B1; pose proof (N2 (behaved_nice _ _ _ _ _ G B1 N)) as B2;
    destruct B1 as [O1 S1 L1 T1], B2 as [O2 S2 L2 T2];
    (split; [done|congruence|lra|]); intros Ht; specialize (T2 Ht); specialize (T1 (grown_timely _ _ _ G' Ht)); lra.
Qed.

Lemma runs_or_finally {A B} b1 b2 (m : eff network A) f (k : A -> eff network B) Phi Psi :
  (0 <= b2)%Q -> runs b1 m Phi -> runs b2 f (fun _ _ => True) ->
  (forall x h, Phi x h -> runs b2 (k x) (fun y h' => Psi y (h ++ h'))) ->
  runs (b1 + b2) (or_finally m f k) Psi.
Proof.
  intros Hb H1 Hf H2.
  assert (forall e, ordinary (A := B) (Raise e) -> runs b2 (try_finally (raise e) f) (fun (_ : B) _ => False)) as R.
  { intros e He. eapply runs_le; [eapply (runs_finally 0 b2 _ _ (fun _ _ => False)); [done|by apply runs_raise|done|done]|lra]. }
  intros a. destruct (H1 a) as (h & G & P & N1). unfold or_finally.
  destruct (m a) as [[x|e|] a1]; cbn [fst snd] in *.
  3: { exists h. split_and!; [done|done|]. intros N. by destruct (N1 N) as [[] _ _ _]. }
  - destruct (H2 x h (P x eq_refl) a1) as (h' & G' & P' & N2). exists (h ++ h').
    split_and!; [by eapply grown_trans|exact P'|]. intros N. pose proof (N1 N) as B1.
    pose proof (N2 (behaved_nice _ _ _ _ _ G B1 N)) as B2. destruct B1 as [_ S1 L1 T1], B2 as [O2 S2 L2 T2].
    split; [done|congruence|lra|]. intros Ht. specialize (T2 Ht). specialize (T1 (grown_timely _ _ _ G' Ht)). lra.
  - destruct (Hf a1) as (h' & G' & _ & N2). exists (h ++ h').
    assert ((try_finally (A := B) (raise e) f a1).2 = (f a1).2 /\ forall y : B, (try_finally (raise e) f a1).1 <> Ok y) as [E1 E2].
    { unfold try_finally, raise. destruct (f a1) as [[[]|e'|] a2]; by split. }
    rewrite E1. split_and!; [by eapply grown_trans|by intros y Hy; destruct (E2 y)|].
    intros N. pose proof (N1 N) as B1. pose proof (behaved_nice _ _ _ _ _ G B1 N) as Na.
    assert (ordinary (A := B) (Raise e)) as Oe by apply B1.
    destruct (R e Oe a1) as (h2 & G2 & _ & N3). specialize (N3 Na). rewrite E1 in G2, N3.
    destruct B1 as [_ S1 L1 T1], N3 as [O2 S2 L2 T2].
    split; [done|congruence|lra|]. intros Ht. specialize (T2 Ht). specialize (T1 (grown_timely _ _ _ G' Ht)). lra.
Qed.

(** The requests and the sleep. *)
Lemma runs_sleep d : (0 <= d)%Q -> runs d (asleep d) (fun _ h => h = []).
Proof.
  intros Hd a. exists []. split_and!; [|done|].
  - split; [by rewrite app_nil_r|done|exists []; by rewrite app_nil_r].
  - intros _. split; [done|done|cbn; lra|]. intros _. cbn. lra.
Qed.

Lemma runs_mark e : runs 0 (mark e) (fun _ h => h = [e]).
Proof.
  intros a. unfold mark, modify. exists [e]. split_and!; [split; [done|done|exists []; by rewrite app_nil_r]|done|].
  intros _. split; [done|done|apply Qle_refl|]. intros _. rewrite Qplus_0_r. apply Qle_refl.
Qed.

Lemma timely_last (a : network) q d c o t :
  timely (AWorld d (log a ++ [q]) c o t (cost a)) -> (0 <= cost a (length (log a)) <= (timeout q).2)%Q.
Proof. intros H. apply (H (length (log a))). cbn [log]. apply list_lookup_middle. done. Qed.

(** The record of a request holds whatever came back. *)
Lemma bare_spec who q a : exists r,
  grown a (bare who q a).2 [Asked who q r] /\ (bare who q a).1 = r /\
  (nice a -> behaved (timeout q).2 a r (bare who q a).2).
Proof.
  unfold bare, recorded. pose proof (fun N => nice_device a N who q (dev a).1) as Hd.
  destruct (device who q (dev a).1) as [r d]. cbn [fst snd dev] in *. exists r.
  split_and!; [split; [done|done|by exists [q]]|done|].
  intros N. pose proof (nice_cost _ N (length (log a))) as Hc0.
  split; [by apply answers_ordinary, Hd|done|cbn; lra|]. intros Ht. cbn [now].
  pose proof (timely_last a q _ _ _ _ Ht) as Hc. lra.
Qed.

Lemma runs_bare who q : runs (timeout q).2 (bare who q) (fun r h => h = [Asked who q (Ok r)]).
Proof.
  intros a. destruct (bare_spec who q a) as (r & G & E & B). exists [Asked who q r].
  split_and!; [done|by intros x; rewrite E; intros ->|]. intros N. rewrite E. by apply B.
Qed.

Lemma runs_request who q :
  runs (DELAY_S + (timeout q).2) (session_request (recorded who) q) (fun r h => h = [Asked who q (Ok r)]).
Proof.
  intros a. unfold session_request, bind, asleep, modify, recorded. cbn [dev log cookies open_sessions now cost].
  pose proof (fun N => nice_device a N who q (dev a).1) as Hd.
  destruct (device who q (dev a).1) as [r d]. cbn [fst snd dev] in *. exists [Asked who q r].
  split_and!; [split; [done|done|by exists [q]]|by intros x ->|].
  intros N. pose proof (nice_cost _ N (length (log a))) as Hc0.
  split; [by apply answers_ordinary, Hd|done|cbn; unfold DELAY_S; lra|]. intros Ht. cbn [now].
  pose proof (timely_last a q _ _ _ _ Ht) as Hc. unfold DELAY_S. lra.
Qed.

Lemma runs_client {A} b (m : eff network A) Phi : runs b m Phi -> runs b (with_client m) Phi.
Proof.
  intros H a. unfold with_client, close_session. rewrite try_finally_total.
  set (a0 := AWorld _ _ ∅ _ _ _). destruct (H a0) as (h & [G1 G2 G3] & P & N0). exists h.
  destruct (m a0) as [r a1]; cbn [fst snd] in *.
  assert (grown a (AWorld (dev a1) (log a1) (cookies a) (pred (open_sessions a1)) (now a1) (cost a1)) h)
    as Hg by by split.
  destruct r as [x|e|]; cbn [fst snd dev log open_sessions now cost]; (split_and!; [by split|by auto|]).
  all: intros [Nf Nd Nc Ns]; destruct N0 as [O S L T]; [split; [done|done|done|cbn; lia]|].
  3: by destruct O.
  all: split; [done|by cbn in *; rewrite S|exact L|].
  all: intros Ht; apply T; intros n q Hn; by apply Ht.
Qed.

(** ** What the record shows *)

(** The events [Ps] occurred, in this order. *)
Fixpoint in_order (Ps : list (event Who -> Prop)) (h : history Who) : Prop :=
  match Ps with
  | [] => True
  | P :: Ps => exists h1 e h2, h = h1 ++ e :: h2 /\ P e /\ in_order Ps h2
  end.

Lemma in_order_after Ps h0 h : in_order Ps h -> in_order Ps (h0 ++ h).
Proof.
  destruct Ps as [|P Ps]; [done|]. intros (h1 & e & h2 & -> & He & H). exists (h0 ++ h1), e, h2.
  by rewrite app_assoc.
Qed.

Lemma in_order_app Ps Qs h h' : in_order Ps h -> in_order Qs h' -> in_order (Ps ++ Qs) (h ++ h').
Proof.
  revert h. induction Ps as [|P Ps IH]; intros h H H'; [by apply in_order_after|].
  destruct H as (h1 & e & h2 & -> & He & H). exists h1, e, (h2 ++ h'). rewrite <- app_assoc. cbn [app].
  split_and!; [done|done|]. by apply IH.
Qed.

Lemma in_order_before Ps h h' : in_order Ps h -> in_order Ps (h ++ h').
Proof. intros H. pose proof (in_order_app Ps [] h h' H I) as H'. by rewrite app_nil_r in H'. Qed.

Lemma in_order_one (P : event Who -> Prop) e : P e -> in_order [P] [e].
Proof. intros H. by exists [], e, []. Qed.

(** ** Polling

    The loops have one shape: below the deadline, a round of at most [c]
    seconds either ends the loop or leads back to it at least [gap] seconds
    later; past the deadline the round, of at most [c0] seconds, is the last.
    The state [s] the loop carries may say something of the record so far. *)

Definition ends_here {A} (c : Q) (Phi : A -> history Who -> Prop) (a : network) (r : outcome A) (a' : network) : Prop :=
  exists h, grown a a' h /\ (forall x, r = Ok x -> Phi x h) /\ (nice a -> behaved c a r a').

Definition goes_on_by (c gap : Q) (a a1 : network) (h : history Who) : Prop :=
  grown a a1 h /\ (nice a -> behaved c a (Ok tt) a1 /\ (now a + gap <= now a1)%Q).

Definition goes_on (c : Q) (a a1 : network) : Prop := exists h, goes_on_by c 1 a a1 h.

Section Spin.
Context {A St : Type} (loop : St -> nat -> eff network A) (deadline c c0 gap : Q).
Context (Inv : St -> history Who -> Prop) (Phi : A -> history Who -> Prop).
Hypothesis gap_pos : (0 < gap)%Q.
Hypothesis c0_pos : (0 <= c0)%Q.
Hypothesis spin_0 : forall s, loop s 0%nat = block.
Hypothesis spin_late : forall s n a h0, Inv s h0 -> (deadline <= now a)%Q ->
  ends_here c0 (fun x h => Phi x (h0 ++ h)) a (loop s (S n) a).1 (loop s (S n) a).2.
Hypothesis spin_round : forall s n a h0, Inv s h0 -> (now a < deadline)%Q ->
  ends_here c (fun x h => Phi x (h0 ++ h)) a (loop s (S n) a).1 (loop s (S n) a).2 \/
  exists s' a1 h, goes_on_by c gap a a1 h /\ Inv s' (h0 ++ h) /\ loop s (S n) a = loop s' n a1.

Lemma spin_ends n s a h0 : Inv s h0 ->
  exists h, grown a (loop s n a).2 h /\ (forall x, (loop s n a).1 = Ok x -> Phi x (h0 ++ h)) /\
    (nice a -> (deadline + gap <= now a + gap * inject_Z (Z.of_nat n))%Q -> (0 < n)%nat ->
     ordinary (loop s n a).1 /\ open_sessions (loop s n a).2 = open_sessions a /\ (now a <= now (loop s n a).2)%Q /\
     (timely (loop s n a).2 -> (now (loop s n a).2 <= Qmax (now a) (deadline + c) + c0)%Q)).
Proof.
  revert s a h0. induction n as [|n IH]; intros s a h0 Hi.
  { rewrite spin_0. exists []. split_and!; [apply grown_refl|done|lia]. }
  pose proof (Q.le_max_l (now a) (deadline + c)) as M1. pose proof (Q.le_max_r (now a) (deadline + c)) as M2.
  destruct (Qlt_le_dec (now a) deadline) as [Hlt|Hle].
  - destruct (spin_round s n a h0 Hi Hlt) as [(h & G & P & B)|(s' & a1 & h & [G B] & Hi' & ->)].
    + exists h. split_and!; [done|done|]. intros N _ _. destruct (B N) as [O S L T]. split_and!; [done|done|done|].
      intros Ht. specialize (T Ht). lra.
    + destruct (IH s' a1 (h0 ++ h) Hi') as (h' & G' & P' & B'). exists (h ++ h').
      split_and!; [by eapply grown_trans|by intros x Hx; rewrite app_assoc; apply P'|].
      intros N Hn _. destruct (B N) as [[O S L T] L1].
      rewrite Nat2Z.inj_succ, <- Z.add_1_r, inject_Z_plus in Hn. change (inject_Z 1) with 1%Q in Hn.
      destruct (B' (behaved_nice _ _ _ _ _ G (Build_behaved _ c a (Ok tt) a1 O S L T) N)) as (O' & S' & L' & T').
      * lra.
      * destruct n; [change (inject_Z (Z.of_nat 0)) with 0%Q in Hn; lra|lia].
      * split_and!; [done|congruence|lra|]. intros Ht. specialize (T' Ht).
        specialize (T (grown_timely _ _ _ G' Ht)).
        destruct (Q.max_spec (now a1) (deadline + c)) as [[_ E]|[_ E]]; rewrite E in T'; lra.
  - destruct (spin_late s n a h0 Hi Hle) as (h & G & P & B). exists h. split_and!; [done|done|].
    intros N _ _. destruct (B N) as [O S L T]. split_and!; [done|done|done|].
    intros Ht. specialize (T Ht). lra.
Qed.

(** With the fuel of the section, a loop of at most [limit] gaps ends. *)
Lemma spin_runs t s : (0 <= t)%Q -> (t <= gap * inject_Z (Z.of_nat limit))%Q -> (0 <= c)%Q -> Inv s [] ->
  forall a, (deadline == now a + t)%Q -> ends_here (t + c + c0) Phi a (loop s fuel a).1 (loop s fuel a).2.
Proof.
  intros Ht0 Ht Hc Hi a Hd. destruct (spin_ends fuel s a [] Hi) as (h & G & P & B). exists h. split_and!; [done|done|].
  intros N. pose proof (nice_fuel _ N) as Hf.
  assert (inject_Z (Z.of_nat limit) + 1 <= inject_Z (Z.of_nat fuel))%Q as Hq.
  { change 1%Q with (inject_Z 1). rewrite <- inject_Z_plus, <- Zle_Qle. lia. }
  assert (gap * (inject_Z (Z.of_nat limit) + 1) <= gap * inject_Z (Z.of_nat fuel))%Q as Hg
    by (rewrite !(Qmult_comm gap); apply Qmult_le_compat_r; [done|lra]).
  destruct (B N) as (O & S & L & T); [lra|lia|]. split; [done|done|done|].
  intros Hti. specialize (T Hti). destruct (Q.max_spec (now a) (deadline + c)) as [[_ E]|[_ E]]; rewrite E in T; lra.
Qed.
End Spin.

(** The common case: no state, a second per round, no round past the deadline. *)
Section Poll.
Context {A : Type} (loop : nat -> eff network A) (deadline c : Q) (Phi : A -> history Who -> Prop).
Hypothesis loop_0 : loop 0%nat = block.
Hypothesis loop_late : forall n a, (deadline <= now a)%Q -> ends_here 0 Phi a (loop (S n) a).1 a /\ (loop (S n) a).2 = a.
Hypothesis loop_round : forall n a, (now a < deadline)%Q ->
  ends_here c Phi a (loop (S n) a).1 (loop (S n) a).2 \/
  exists a1, goes_on c a a1 /\ loop (S n) a = loop n a1.
Hypothesis Phi_after : forall x h0 h, Phi x h -> Phi x (h0 ++ h).

Lemma ends_after b a (r : outcome A) a' h0 : ends_here b Phi a r a' -> ends_here b (fun x h => Phi x (h0 ++ h)) a r a'.
Proof. intros (h & G & P & B). exists h. split_and!; [done|auto|done]. Qed.

Lemma poll_runs t : (0 <= t)%Q -> (t <= inject_Z (Z.of_nat limit))%Q -> (0 <= c)%Q ->
  forall a, (deadline == now a + t)%Q -> ends_here (t + c) Phi a (loop fuel a).1 (loop fuel a).2.
Proof.
  intros Ht0 Ht Hc a Hd.
  destruct (spin_runs (fun _ : unit => loop) deadline c 0 1 (fun _ _ => True) Phi) with (t := t) (s := tt) (a := a)
    as (h & G & P & B); try done.
  - intros _ n a1 h0 _ Hl. destruct (loop_late n a1 Hl) as [E ->]. by apply ends_after.
  - intros _ n a1 h0 _ Hl. destruct (loop_round n a1 Hl) as [E|(a2 & (h & G) & E)].
    + left. by apply ends_after.
    + right. by exists tt, a2, h.
  - lra.
  - exists h. split_and!; [done|done|]. intros N. destruct (B N) as [O S L T]. split; [done|done|done|].
    intros Hti. specialize (T Hti). lra.
Qed.
End Poll.

Lemma slept {A} a (r : outcome A) a1 h c d :
  grown a a1 h -> (nice a -> behaved c a r a1) -> (1 <= d)%Q -> goes_on (c + d) a (asleep d a1).2.
Proof.
  intros [G1 G2 G3] B Hd. exists h. split; [by split|]. intros N. destruct (B N) as [O S L T].
  split; [|cbn; lra]. split; [done|done|cbn; lra|]. intros Ht. cbn. specialize (T Ht). lra.
Qed.

Lemma finished {A} a (r : outcome A) a' h c c' (Phi : A -> history Who -> Prop) :
  grown a a' h -> (nice a -> behaved c a r a') -> (c <= c')%Q -> (forall x, r = Ok x -> Phi x h) ->
  ends_here c' Phi a r a'.
Proof.
  intros G B Hc P. exists h. split_and!; [done|done|]. intros N. destruct (B N) as [O S L T].
  split; [done|done|done|]. intros Ht. specialize (T Ht). lra.
Qed.

Lemma late_now deadline (a : network) : (deadline <= now a)%Q -> Qle_bool deadline (now a) = true.
Proof. apply Qle_bool_iff. Qed.

Lemma early_now deadline (a : network) : (now a < deadline)%Q -> Qle_bool deadline (now a) = false.
Proof.
  intros H. destruct (Qle_bool _ _) eqn:E; [|done]. apply Qle_bool_iff in E. lra.
Qed.

(** ** The calls of the client *)

(** [GET /info] answered 200. *)
Definition info_ok (who : Who) (e : event Who) : Prop :=
  exists r, e = Asked who info_request (Ok r) /\ status_code r = 200.

(** [POST /auth] with the credentials of the client was answered; the code
    looks at no more of the answer. *)
Definition auth_answered (who : Who) (e : event Who) : Prop :=
  exists r, e = Asked who (Request POST "/auth" (Some (JObj [("login", JStr DEFAULT_LOGIN); ("pass", JStr DEFAULT_PASSWORD)])) (scalar 10)) (Ok r).

(** What a pass of [wait_for_ready] shows. *)
Definition back_up (who : Who) : list (event Who -> Prop) := [auth_answered who; info_ok who].

Lemma runs_reconnect : runs 0 reconnect (fun _ h => h = []).
Proof.
  intros a. exists []. split_and!; [split; [by rewrite app_nil_r|done|exists []; by rewrite app_nil_r]|done|].
  intros N. pose proof (nice_session _ N). split; [done|cbn; lia|cbn; lra|]. intros _. cbn. lra.
Qed.

Lemma runs_call who q t (Phi : response -> history Who -> Prop) :
  (DELAY_S + (timeout q).2 <= t)%Q -> (forall r, Phi r [Asked who q (Ok r)]) ->
  runs t (session_request (recorded who) q) Phi.
Proof.
  intros Ht HP. eapply runs_weaken; [apply runs_request|exact Ht|]. intros r h ->. apply HP.
Qed.

Lemma runs_ready_probe who :
  runs (11 + 11) (ready_probe (recorded who))
    (fun up h => up = true -> in_order (back_up who) h).
Proof.
  eapply runs_le; [apply (runs_try (11 + 11) 0); [done| |]|done].
  - eapply runs_bind; [done|by apply (runs_call _ _ 11 (fun r h => in_order [auth_answered who] h)); [done|intros r; apply in_order_one; by exists r]|].
    intros resp h Hh.
    eapply runs_le; [apply (runs_bind 11 0 _ _ (fun r h' => h' = [Asked who info_request (Ok r)])); [done| |]|done].
    + by apply runs_call.
    + intros r h' ->. apply runs_ret. intros E%Z.eqb_eq. rewrite app_nil_r.
      apply (in_order_app [auth_answered who] [info_ok who]); [done|]. apply in_order_one. by exists r.
  - intros e h. by apply runs_ret.
Qed.

Lemma runs_wait_for_ready who t : (0 <= t)%Q -> (t <= inject_Z (Z.of_nat limit))%Q ->
  runs (t + (1 + 11 + 11)) (wait_for_ready (recorded who) fuel t 1)
    (fun _ h => in_order (back_up who) h).
Proof.
  intros H0 H6 a. unfold wait_for_ready, bind, anow. cbn [fst snd].
  apply (poll_runs (fun n => ready_loop (recorded who) n 1 (now a + t)) (now a + t)); try done; try reflexivity.
  - intros n a1 Hl. rewrite ready_loop_S. unfold bind, anow. rewrite (late_now _ _ Hl). cbn [fst snd raise].
    split; [|done]. exists []. split_and!; [apply grown_refl|done|]. intros _. split; [done|done|lra|intros _; lra].
  - intros n a1 Hl. cbv beta.
    assert (runs (0 + (11 + 11)) (reconnect ;;; ready_probe (recorded who))
      (fun up h => up = true -> in_order (back_up who) h)) as R.
    { eapply runs_bind; [done|apply runs_reconnect|]. intros _ h ->. apply runs_ready_probe. }
    set (a2 := (asleep 1 a1).2). assert (goes_on 1 a1 a2) as (h1 & G1 & B1).
    { eapply (slept a1 (Ok tt) a1 [] 0); [apply grown_refl| |done]. intros _. split; [done|done|lra|intros _; lra]. }
    destruct (R a2) as (h2 & G2 & P & B2). set (a3 := (reconnect a2).2).
    change ((reconnect ;;; ready_probe (recorded who)) a2) with (ready_probe (recorded who) a3) in *.
    assert (ready_loop (recorded who) (S n) 1 (now a + t) a1 =
      bind (ready_probe (recorded who))
        (fun back : bool => if back then ret tt else ready_loop (recorded who) n 1 (now a + t)) a3) as ->.
    { rewrite ready_loop_S. unfold bind at 1, anow. by rewrite (early_now _ _ Hl). }
    unfold bind.
    assert (nice a1 -> behaved (1 + 11 + 11) a1 (ready_probe (recorded who) a3).1
              (ready_probe (recorded who) a3).2 /\ (now a1 + 1 <= now (ready_probe (recorded who) a3).2)%Q) as B.
    { intros N. destruct (B1 N) as [Q1 L1]. destruct (B2 (behaved_nice _ _ _ _ _ G1 Q1 N)) as [O2 S2 L2 T2].
      destruct Q1 as [_ S1 _ T1]. split; [|lra]. split; [done|congruence|lra|]. intros Ht. specialize (T2 Ht).
      specialize (T1 (grown_timely _ _ _ G2 Ht)). lra. }
    pose proof (grown_trans _ _ _ _ _ G1 G2) as G.
    destruct (ready_probe (recorded who) a3) as [[[]|e|] a4]; cbn [fst snd ret] in *.
    + left. eapply (finished _ _ _ (h1 ++ h2)); [done|intros N; destruct (B N) as [[? ? ? ?] _]; by split|done|].
      intros x _. apply in_order_after. exact (P true eq_refl eq_refl).
    + right. exists a4. split; [|done]. exists (h1 ++ h2). split; [done|]. intros N.
      destruct (B N) as [[? ? ? ?] ?]. split; [by split|done].
    + left. eapply (finished _ _ _ (h1 ++ h2)); [done|intros N; destruct (B N) as [[? ? ? ?] _]; by split|done|done].
    + left. eapply (finished _ _ _ (h1 ++ h2)); [done|intros N; destruct (B N) as [[? ? ? ?] _]; by split|done|done].
  - intros x h0 h Hx. by apply in_order_after.
Qed.

Definition anything {A} (_ : A) (_ : history Who) : Prop := True.

Lemma ordinary_json r : ordinary (resp_json r).
Proof. unfold resp_json. by destruct (body_json r). Qed.
Lemma ordinary_get k j : ordinary (py_get k j).
Proof. by destruct j. Qed.
Lemma ordinary_in k j : ordinary (py_in k j).
Proof. by destruct j. Qed.
Lemma ordinary_item k j : ordinary (jindex k j).
Proof. destruct j; try done. cbn. by destruct (jget k fields). Qed.

(** A lifted value costs nothing. *)
Lemma runs_lift_bind {A B} b (r : outcome A) (k : A -> eff network B) Psi :
  (0 <= b)%Q -> ordinary r -> (forall x, r = Ok x -> runs b (k x) Psi) -> runs b (bind (lift r) k) Psi.
Proof.
  intros Hb Hr H. eapply runs_le; [eapply (runs_bind 0 b _ _ (fun x h => r = Ok x /\ h = [])); [done| |]|lra].
  - apply runs_lift; [done|]. by intros x ->.
  - intros x h [-> ->]. by apply H.
Qed.

(** A last step that only adds to the record. *)
Lemma runs_then {A B} b1 b2 (m : eff network A) (k : A -> eff network B) (Psi : B -> history Who -> Prop) :
  (0 <= b2)%Q -> runs b1 m anything -> (forall y h0 h, Psi y h -> Psi y (h0 ++ h)) ->
  (forall x, runs b2 (k x) Psi) -> runs (b1 + b2) (bind m k) Psi.
Proof.
  intros Hb Hm HP Hk. eapply runs_bind; [done|exact Hm|]. intros x h _.
  eapply runs_weaken; [apply Hk|apply Qle_refl|auto].
Qed.

Lemma runs_assert (b : bool) (Phi : unit -> history Who -> Prop) : (b = true -> Phi tt []) -> runs 0 (assert b) Phi.
Proof. intros H. destruct b; [by apply runs_ret, H|by apply runs_raise]. Qed.

(** An assertion that holds, and nothing else, leads on. *)
Lemma runs_assert_bind {B} b (c : bool) (k : unit -> eff network B) Psi :
  (0 <= b)%Q -> (c = true -> runs b (k tt) Psi) -> runs b (bind (assert c) k) Psi.
Proof.
  intros Hb H. eapply runs_le; [eapply (runs_bind 0 b _ _ (fun _ h => c = true /\ h = [])); [done| |]|lra].
  - by apply runs_assert.
  - intros [] h [-> ->]. by apply H.
Qed.

End Net.

Arguments ordinary skips {A} r.
Arguments behaved {Who D} skips {A} b a r a'.
Arguments recorded {Who D} device who q d.
Arguments bare {Who D} device who q a.
Arguments nice {Who D} device fuel limit a.
Arguments runs {Who D} device skips fuel limit {A} b m Phi.
Arguments ends_here {Who D} device skips fuel limit {A} c Phi a r a'.
Arguments goes_on_by {Who D} device skips fuel limit c gap a a1 h.
Arguments goes_on {Who D} device skips fuel limit c a a1.

#[export] Hint Extern 0 (ordinary _ _) => (left; reflexivity) : core.
#[export] Hint Extern 0 (ordinary _ _) => exact I : core.
