(* ===== verification/HeapSession.v ===== *)
(** * The heap-leak guard of the session (src/api_tests/00_test_heap_session.py)

    [test_heap_baseline] waits until boot is over and records the free heap;
    [test_heap_no_leak] compares with it at the end of the session.  The two
    share the attributes they leave on pytest's config, and each talks to the
    device through the HTTP client of [ApiClient].

    The wait is one pass over /info samples with six variables; what it
    returns is characterised on the record of all samples. *)

From Stdlib Require Import QArith Qminmax Lqa.
From stdpp Require Import base list gmap strings.
From Stdlib Require Import ZArith Lia.
From S2P Require Import Prelude PyStr Gateway ApiClient NetLog.

Open Scope Z_scope.

Definition HEAP_LEAK_TOLERANCE_BYTES : Z := 16 * 1024.
Definition _SAMPLES : nat := 4.
Definition _SAMPLE_GAP_S : Q := 1 # 4.

Definition _BOOT_SETTLE_MAX_S : Q := 30.
Definition _BOOT_SETTLE_STABLE_S : Q := 3.
Definition _BOOT_SETTLE_POLL_S : Q := 1 # 4.
Definition _BOOT_SETTLE_NOISE_B : Z := 1024.

Definition _PORT_KEYS : list string := ["rs485_1"; "rs485_2"].

Inductive verdict : Type :=
| _SETTLED
| _MODES_UNCONVERGED
| _NO_INIT_SIGNAL
| _HEAP_UNSETTLED
| _NO_SIGNAL_POSSIBLE
| _WAIT_ERRORED.

#[export] Instance verdict_eq_dec : EqDecision verdict.
Proof. solve_decision. Defined.

Definition _USABLE_VERDICTS : list verdict := [_SETTLED; _MODES_UNCONVERGED].
Definition usable (v : verdict) : bool := bool_decide (v ∈ _USABLE_VERDICTS).

Definition _MODE_DISABLED : json := JStr "disabled".
Definition _CACHE_PORT_KEY : string := "cache_modbus_active_port".
Definition _CACHE_ENABLED_KEY : string := "cache_modbus_server_enabled".

(** [_port_modes]: the shape of the payload is asserted. *)
Definition port_mode_of (key : string) (body : json) : outcome json :=
  let? port := py_get key body in
  match port with
  | Some (JObj f) => match jget "port_mode" f with Some m => Ok m | None => Raise AssertionError end
  | _ => Raise AssertionError
  end.

Fixpoint modes_of (keys : list string) (body : json) : outcome (list json) :=
  match keys with
  | [] => Ok []
  | key :: keys =>
      let? m := port_mode_of key body in
      let? modes := modes_of keys body in
      Ok (m :: modes)
  end.

Definition _port_modes (body : json) : outcome (list json) := modes_of _PORT_KEYS body.

Definition disabled (mode : json) : bool := jeq mode _MODE_DISABLED.

(** [isinstance(v, (int, float))], and the number; a bool is an int. *)
Definition number (v : option json) : option Z :=
  match v with Some (JNum n) => Some n | Some (JBool b) => Some (Z.b2z b) | _ => None end.

Definition _init_signal (info : json) (active : list json) (require_cache_field : bool) : outcome bool :=
  if existsb (fun mode => negb (disabled mode)) active then Ok true
  else
    let? active_port := py_get _CACHE_PORT_KEY info in
    if require_cache_field && bool_decide (number active_port = None) then Raise AssertionError
    else Ok (match number active_port with Some n => 0 <? n | None => false end).

(** The variables of the loop of [_wait_boot_settled]. *)
Record track := Track {
  prev : option Z;
  ready_since : option Q;
  heap_steady_since : Q;
  init_observed : bool;
  samples : nat
}.

(** One /info sample, as the record keeps it. *)
Record sample := Sample {
  at_ : Q;
  info_of : json;
  free_of : Z;
  modes : list json
}.

Definition same_modes (active wanted : list json) : bool := jeq (JList active) (JList wanted).

(** What one sample does to the variables, and whether the wait is over. *)
Definition observe (wanted : list json) (t : track) (s : sample) (observed : bool) : track * bool :=
  let steady :=
    match prev t with
    | Some p => if free_of s <? p - _BOOT_SETTLE_NOISE_B then at_ s else heap_steady_since t
    | None => heap_steady_since t
    end in
  if same_modes (modes s) wanted && observed then
    let ready := default (at_ s) (ready_since t) in
    (Track (Some (free_of s)) (Some ready) steady observed (S (samples t)),
     Qle_bool _BOOT_SETTLE_STABLE_S (at_ s - Qmax ready steady))
  else (Track (Some (free_of s)) (ready_since t) steady observed (S (samples t)), false).

(** The verdict at the deadline. *)
Definition expired (t : track) (now : Q) : verdict :=
  if negb (Qle_bool _BOOT_SETTLE_STABLE_S (now - heap_steady_since t)) then _HEAP_UNSETTLED
  else if negb (init_observed t) then _NO_INIT_SIGNAL
  else _MODES_UNCONVERGED.

Section Heap.
Context {D : Type} (device : request -> D -> outcome response * D).

Notation net := (aworld D).

(** [resp = api.get_info(); assert 200; info = resp.json(); int(info["heap_free"])] *)
Definition read_info : eff net (json * Z) :=
  let* resp := get_info device in
  assert (status_code resp =? 200) ;;;
  let* info := lift (resp_json resp) in
  let* free := lift (let? v := jindex "heap_free" info in int_of v) in
  ret (info, free).

(** One round of the loop, up to the updated variables. *)
Definition take_sample (wanted : list json) (only : bool) (t : track) : eff net (sample * track * bool) :=
  let* (info, free) := read_info in
  let* now := anow in
  let* active := lift (_port_modes info) in
  let* observed := if init_observed t then ret true else lift (_init_signal info active only) in
  let s := Sample now info free active in
  ret (s, (observe wanted t s observed).1, (observe wanted t s observed).2).

Fixpoint settle_loop (fuel : nat) (wanted : list json) (only : bool) (deadline : Q) (t : track)
    : eff net (verdict * nat * Z) :=
  match fuel with
  | O => block
  | S fuel =>
      let* (s, t, done) := take_sample wanted only t in
      if (done : bool) then ret (_SETTLED, samples t, free_of s)
      else if Qle_bool deadline (at_ s) then ret (expired t (at_ s), samples t, free_of s)
      else asleep _BOOT_SETTLE_POLL_S ;;; settle_loop fuel wanted only deadline t
  end.

(** With both ports disabled, only the cache server can give the signal. *)
Definition signal_possible (wanted : list json) (settings : json) : outcome bool :=
  if forallb disabled wanted then
    let? cache_enabled := py_get _CACHE_ENABLED_KEY settings in
    match cache_enabled with Some (JBool b) => Ok b | _ => Raise AssertionError end
  else Ok true.

Definition _wait_boot_settled (fuel : nat) : eff net (verdict * nat * Z) :=
  let* resp := get_settings device in
  assert (status_code resp =? 200) ;;;
  let* settings := lift (resp_json resp) in
  let* wanted := lift (_port_modes settings) in
  let* possible := lift (signal_possible wanted settings) in
  if negb possible then ret (_NO_SIGNAL_POSSIBLE, 0%nat, 0)
  else
    let* start := anow in
    settle_loop fuel wanted (forallb disabled wanted) (start + _BOOT_SETTLE_MAX_S)%Q
      (Track None None start false 0).

(** [_free_heap_quiescent]: the largest of a few samples, and the last payload. *)
Fixpoint quiescent_loop (n : nat) (best : Z) (data : json) : eff net (Z * json) :=
  match n with
  | O => ret (best, data)
  | S n =>
      let* (data, free) := read_info in
      let best := if best <? free then free else best in
      asleep _SAMPLE_GAP_S ;;; quiescent_loop n best data
  end.

Definition _free_heap_quiescent : eff net (Z * json) := quiescent_loop _SAMPLES (-1) JNull.

(** ** The two tests *)

(** The device behind its client, and the attributes of [request.config]. *)
Record hworld := HWorld {
  hnet : net;
  _heap_baseline_verdict : option verdict;
  _heap_baseline : option Z
}.

Definition on_net {A} (m : eff net A) : eff hworld A := fun w =>
  let (r, a) := m (hnet w) in (r, HWorld a (_heap_baseline_verdict w) (_heap_baseline w)).

Definition publish (v : verdict) : eff hworld unit :=
  modify (fun w => HWorld (hnet w) (Some v) (_heap_baseline w)).
Definition record_baseline (free : Z) : eff hworld unit :=
  modify (fun w => HWorld (hnet w) (_heap_baseline_verdict w) (Some free)).

(** Its last part: the baseline, published with the verdict it was taken under. *)
Definition take_baseline (v : verdict) : eff hworld unit :=
  let* (free, data) := on_net _free_heap_quiescent in
  record_baseline free ;;;
  publish v ;;;
  let* _ := lift (jindex "heap_total" data) in
  let* _ := lift (jindex "heap_min_free" data) in
  assert (0 <? free).

Definition test_heap_baseline (fuel : nat) : eff hworld unit :=
  publish _WAIT_ERRORED ;;;
  let* (v, settle_samples, settle_free) := on_net (_wait_boot_settled fuel) in
  (if usable v then ret tt else publish v) ;;;
  assert (bool_decide (v <> _NO_SIGNAL_POSSIBLE)) ;;;
  assert (bool_decide (v ∉ [_HEAP_UNSETTLED; _NO_INIT_SIGNAL])) ;;;
  take_baseline v.

Definition test_heap_no_leak : eff hworld unit :=
  let* w := get in
  let v := _heap_baseline_verdict w in
  if match v with Some v => negb (usable v) | None => false end then raise PytestSkip
  else
    match _heap_baseline w with
    | None => raise AssertionError
    | Some baseline =>
        let* (free, data) := on_net _free_heap_quiescent in
        let delta := baseline - free in
        let* _ := lift (jindex "heap_min_free" data) in
        assert (delta <=? HEAP_LEAK_TOLERANCE_BYTES)
    end.

(** ** The record of a wait

    [sampled a tr a']: starting in [a], the answers of the device give the
    samples [tr], a poll interval apart, and the last of them arrived in
    [a']. *)
Inductive sampled (a : net) : list sample -> net -> Prop :=
| sampled_one info free active a' :
    read_info a = (Ok (info, free), a') -> _port_modes info = Ok active ->
    sampled a [Sample (now a') info free active] a'
| sampled_more tr a1 info free active a' :
    sampled a tr a1 -> read_info (asleep _BOOT_SETTLE_POLL_S a1).2 = (Ok (info, free), a') ->
    _port_modes info = Ok active ->
    sampled a (tr ++ [Sample (now a') info free active]) a'.

End Heap.

(** *** What the verdicts mean, on the whole record *)

(** A sample that proves that [port_manager_init] has begun. *)
Definition signals (only : bool) (s : sample) : bool :=
  match _init_signal (info_of s) (modes s) only with Ok b => b | _ => false end.

Definition seen (only : bool) (tr : list sample) : bool := existsb (signals only) tr.

(** When free heap fell by more than the noise from one sample to the next. *)
Definition falls (tr : list sample) : list Q :=
  omap (fun ab : sample * sample =>
          if free_of ab.2 <? free_of ab.1 - _BOOT_SETTLE_NOISE_B then Some (at_ ab.2) else None)
    (zip tr (tail tr)).

(** When the modes agreed with a signal seen by then. *)
Definition ready (wanted : list json) (only : bool) (tr : list sample) : list Q :=
  omap (fun k => s ← tr !! k;
          if same_modes (modes s) wanted && seen only (take (S k) tr) then Some (at_ s) else None)
    (seq 0 (length tr)).

(** Three seconds have passed from [q] to [t]. *)
Definition long_ago (t q : Q) : bool := Qle_bool _BOOT_SETTLE_STABLE_S (t - q).

(** The verdict a record leads to, [None] when the wait goes on. *)
Definition verdict_of (wanted : list json) (only : bool) (start : Q) (tr : list sample) : option verdict :=
  s ← last tr;
  let quiet := forallb (long_ago (at_ s)) (falls tr) in
  if same_modes (modes s) wanted && existsb (long_ago (at_ s)) (ready wanted only tr) && quiet
  then Some _SETTLED
  else if Qle_bool (start + _BOOT_SETTLE_MAX_S) (at_ s) then
    Some (if negb quiet then _HEAP_UNSETTLED
          else if negb (seen only tr) then _NO_INIT_SIGNAL
          else _MODES_UNCONVERGED)
  else None.

(** ** The single pass agrees with the record *)

Lemma falls_snoc tr s :
  falls (tr ++ [s]) = falls tr ++
    match last tr with
    | Some p => if free_of s <? free_of p - _BOOT_SETTLE_NOISE_B then [at_ s] else []
    | None => []
    end.
Proof.
  destruct tr as [|x tr]; [done|]. revert x. induction tr as [|y tr IH]; intros x.
  - unfold falls. cbn. by destruct (free_of s <? free_of x - _).
  - specialize (IH y). unfold falls in *. cbn [app tail zip zip_with omap list_omap last fst snd] in *.
    destruct (free_of y <? free_of x - _); cbn [app]; by rewrite IH.
Qed.

Lemma ready_snoc wanted only tr s :
  ready wanted only (tr ++ [s]) = ready wanted only tr ++
    (if same_modes (modes s) wanted && seen only (tr ++ [s]) then [at_ s] else []).
Proof.
  unfold ready. rewrite length_app. cbn [length]. rewrite seq_app, omap_app. cbn [seq]. f_equal.
  - apply list_omap_ext. apply Forall2_same_length_lookup_2; [done|]. intros i x y Hx Hy.
    rewrite Hx in Hy. injection Hy as <-. apply lookup_seq in Hx as [-> Hi]. cbn [plus].
    rewrite lookup_app_l by done. by rewrite take_app_le by lia.
  - cbn [omap list_omap plus]. rewrite list_lookup_middle by done. cbn [mbind option_bind].
    rewrite firstn_all2 by (rewrite length_app; cbn; lia). by destruct (_ && _).
Qed.

Lemma seen_snoc only tr s : seen only (tr ++ [s]) = seen only tr || signals only s.
Proof. unfold seen. rewrite existsb_app. cbn. by rewrite orb_false_r. Qed.

Lemma falls_in tr q : q ∈ falls tr -> exists s, s ∈ tr /\ at_ s = q.
Proof.
  unfold falls. rewrite list_elem_of_omap. intros ([a b] & Hin & E). cbn [fst snd] in E.
  destruct (_ <? _); [|done]. injection E as <-. exists b. split; [|done].
  apply list_elem_of_lookup in Hin as [i Hi]. apply lookup_zip_with_Some in Hi as (x & y & E & Hx & Hy).
  injection E as <- <-. destruct tr as [|z tr]; [done|]. apply list_elem_of_lookup. by exists (S i).
Qed.

Lemma ready_in wanted only tr q : q ∈ ready wanted only tr -> exists s, s ∈ tr /\ at_ s = q.
Proof.
  unfold ready. rewrite list_elem_of_omap. intros (k & _ & E). destruct (tr !! k) as [s|] eqn:Es; [|done].
  cbn in E. destruct (_ && _); [|done]. injection E as <-. exists s. split; [|done].
  apply list_elem_of_lookup. by exists k.
Qed.

(** The variables after the samples [tr], the last of them no later than [T]. *)
Record tracks (wanted : list json) (only : bool) (start T : Q) (tr : list sample) (t : track) : Prop := {
  tr_prev : prev t = free_of <$> last tr;
  tr_ready : ready_since t = head (ready wanted only tr);
  tr_observed : init_observed t = seen only tr;
  tr_samples : samples t = length tr;
  tr_times : forall s, s ∈ tr -> (start <= at_ s <= T)%Q;
  tr_first : forall r q, head (ready wanted only tr) = Some r -> q ∈ ready wanted only tr -> (r <= q)%Q;
  tr_steady : (start <= heap_steady_since t)%Q;
  tr_fallen : forall q, q ∈ falls tr -> (q <= heap_steady_since t)%Q;
  tr_steady_is : heap_steady_since t = start \/ heap_steady_since t ∈ falls tr
}.

Lemma tracks_nil wanted only start : tracks wanted only start start [] (Track None None start false 0).
Proof. split; cbn; try (intros; set_solver); try (by left); apply Qle_refl. Qed.

(** The end of the quiet interval after [s]. *)
Definition steady_after (t : track) (s : sample) : Q :=
  match prev t with
  | Some p => if free_of s <? p - _BOOT_SETTLE_NOISE_B then at_ s else heap_steady_since t
  | None => heap_steady_since t
  end.

Lemma observe_steady wanted t s o : heap_steady_since (observe wanted t s o).1 = steady_after t s.
Proof. unfold observe. by destruct (_ && _). Qed.

Section Step.
Context (wanted : list json) (only : bool) (start T : Q) (tr : list sample) (t : track) (s : sample).
Hypothesis Ht : tracks wanted only start T tr t.
Hypothesis Hs : (start <= T <= at_ s)%Q.

Let t' := (observe wanted t s (seen only (tr ++ [s]))).1.

Lemma steady_step :
  (heap_steady_since t <= steady_after t s <= at_ s)%Q /\
  (forall q, q ∈ falls (tr ++ [s]) -> (q <= steady_after t s)%Q) /\
  (steady_after t s = start \/ steady_after t s ∈ falls (tr ++ [s])).
Proof.
  destruct Ht as [Hp _ _ _ Htimes _ H0 Hf Hi]. rewrite falls_snoc. unfold steady_after. rewrite Hp.
  assert (heap_steady_since t <= at_ s)%Q as Hle.
  { destruct Hi as [->|Hi]; [lra|]. apply falls_in in Hi as (x & Hx & <-). specialize (Htimes x Hx). lra. }
  destruct (last tr) as [p|]; cbn [fmap option_fmap option_map];
    [destruct (free_of s <? free_of p - _) eqn:E|]; rewrite ?app_nil_r.
  - split_and!; [lra|lra| |right; set_solver].
    intros q [Hq|Hq%list_elem_of_singleton]%elem_of_app; [specialize (Hf q Hq); lra|subst; lra].
  - split_and!; [lra|lra|done|done].
  - split_and!; [lra|lra|done|done].
Qed.

Lemma ready_step : ready_since t' = head (ready wanted only (tr ++ [s])) /\
  forall r q, head (ready wanted only (tr ++ [s])) = Some r -> q ∈ ready wanted only (tr ++ [s]) -> (r <= q)%Q.
Proof.
  destruct Ht as [_ Hr _ _ Htimes Hf _ _ _]. rewrite ready_snoc. unfold t', observe.
  assert (forall q, q ∈ ready wanted only tr -> (q <= at_ s)%Q) as Hle.
  { intros q Hq. apply ready_in in Hq as (x & Hx & <-). specialize (Htimes x Hx). lra. }
  destruct (same_modes _ _ && seen _ _); cbn [fst ready_since]; rewrite ?app_nil_r; [|done].
  rewrite Hr. destruct (ready wanted only tr) as [|r l]; cbn [head app default from_option] in *.
  - split; [done|]. intros r q [= <-] Hq%list_elem_of_singleton. subst. lra.
  - split; [done|]. intros r' q [= <-] Hq. change (r :: l ++ [at_ s]) with ((r :: l) ++ [at_ s]) in Hq.
    apply elem_of_app in Hq as [Hq|Hq%list_elem_of_singleton]; [by apply Hf|]. subst q.
    apply Hle. left.
Qed.

Lemma tracks_step : tracks wanted only start (at_ s) (tr ++ [s]) t'.
Proof.
  destruct steady_step as (H1 & H2 & H3), ready_step as (R1 & R2). destruct Ht as [Hp Hr Ho Hn Htimes Hf H0 _ _].
  split; try done; unfold t'; rewrite ?observe_steady; try done.
  - rewrite last_snoc. unfold observe. by destruct (_ && _).
  - unfold observe. by destruct (_ && _).
  - unfold observe. rewrite length_app, Nat.add_1_r, <- Hn. by destruct (_ && _).
  - intros x [Hx|Hx%list_elem_of_singleton]%elem_of_app; [specialize (Htimes x Hx); lra|subst; lra].
  - lra.
Qed.
End Step.

Lemma quiet_iff wanted only start T tr t :
  tracks wanted only start T tr t -> (_BOOT_SETTLE_STABLE_S <= T - start)%Q ->
  Qle_bool _BOOT_SETTLE_STABLE_S (T - heap_steady_since t) = forallb (long_ago T) (falls tr).
Proof.
  intros [_ _ _ _ _ _ _ Hf Hi] H0. apply eq_true_iff_eq. rewrite Qle_bool_iff, forallb_forall. split.
  - intros H q Hq. apply Qle_bool_iff. apply list_elem_of_In in Hq. specialize (Hf q Hq). lra.
  - intros H. destruct Hi as [->|Hi]; [done|]. apply Qle_bool_iff, H, list_elem_of_In, Hi.
Qed.

(** Enough time since the first agreement, or since any. *)
Lemma long_ready wanted only start T tr t r :
  tracks wanted only start T tr t -> head (ready wanted only tr) = Some r ->
  existsb (long_ago T) (ready wanted only tr) = Qle_bool _BOOT_SETTLE_STABLE_S (T - r).
Proof.
  intros [_ _ _ _ _ Hf _ _ _] Hr. apply eq_true_iff_eq. rewrite existsb_exists. split.
  - intros (q & Hq & Hl). apply list_elem_of_In in Hq. apply Qle_bool_iff in Hl. apply Qle_bool_iff.
    specialize (Hf r q Hr Hq). lra.
  - intros H. exists r. split; [|done]. apply list_elem_of_In. destruct (ready wanted only tr); [done|].
    injection Hr as ->. left.
Qed.

Lemma settled_iff wanted only start T tr t r :
  tracks wanted only start T tr t -> head (ready wanted only tr) = Some r ->
  Qle_bool _BOOT_SETTLE_STABLE_S (T - Qmax r (heap_steady_since t)) =
  existsb (long_ago T) (ready wanted only tr) && forallb (long_ago T) (falls tr).
Proof.
  intros Ht Hr. rewrite (long_ready _ _ _ _ _ _ _ Ht Hr).
  assert (start <= r)%Q as H0.
  { destruct (ready_in wanted only tr r) as (s & Hs & <-); [|by apply (tr_times _ _ _ _ _ _ Ht)].
    destruct (ready wanted only tr); [done|]. injection Hr as ->. left. }
  pose proof (Q.le_max_l r (heap_steady_since t)) as M1. pose proof (Q.le_max_r r (heap_steady_since t)) as M2.
  destruct (Qle_bool _ (T - r)) eqn:E; cbn [andb].
  - apply Qle_bool_iff in E. rewrite <- (quiet_iff _ _ _ _ _ _ Ht) by lra. apply eq_true_iff_eq.
    rewrite !Qle_bool_iff. destruct (Q.max_spec r (heap_steady_since t)) as [[_ ->]|[? ->]]; lra.
  - apply not_true_iff_false. rewrite Qle_bool_iff. apply not_true_iff_false in E.
    rewrite Qle_bool_iff in E. lra.
Qed.

Lemma ready_needs_signal wanted only tr : seen only tr = false -> ready wanted only tr = [].
Proof.
  intros Hs. apply elem_of_nil_inv. intros q. unfold ready. rewrite list_elem_of_omap.
  intros (k & _ & Hk). destruct (tr !! k) as [x|]; [|done]. cbn in Hk.
  destruct (seen only (take (S k) tr)) eqn:E; [|by rewrite andb_false_r in Hk].
  unfold seen in *. rewrite <- (take_drop (S k) tr), existsb_app, E in Hs. done.
Qed.

(** One round of the loop decides as the record does. *)
Lemma verdict_step wanted only start T tr t s :
  tracks wanted only start T tr t -> (start <= T <= at_ s)%Q ->
  let (t', done) := observe wanted t s (seen only (tr ++ [s])) in
  verdict_of wanted only start (tr ++ [s]) =
  if done then Some _SETTLED
  else if Qle_bool (start + _BOOT_SETTLE_MAX_S) (at_ s) then Some (expired t' (at_ s)) else None.
Proof.
  intros Ht Hs. pose proof (tracks_step _ _ _ _ _ _ s Ht Hs) as Ht'.
  destruct (observe wanted t s (seen only (tr ++ [s]))) as [t' done] eqn:Eo. cbn [fst] in Ht'.
  unfold verdict_of. rewrite last_snoc. cbn [mbind option_bind].
  assert (done = same_modes (modes s) wanted && existsb (long_ago (at_ s)) (ready wanted only (tr ++ [s]))
                 && forallb (long_ago (at_ s)) (falls (tr ++ [s]))) as ->.
  { pose proof (tr_ready _ _ _ _ _ _ Ht') as Hr. revert Eo Hr. unfold observe.
    destruct (same_modes (modes s) wanted) eqn:Em; [|by intros [= <- <-]]. cbn [andb].
    destruct (seen only (tr ++ [s])) eqn:Es.
    - intros [= <- <-] Hr. cbn [ready_since] in Hr. by rewrite <- (settled_iff _ _ _ _ _ _ _ Ht' (eq_sym Hr)).
    - intros [= <- <-] _. by rewrite (ready_needs_signal wanted only _ Es). }
  destruct (_ && _ && _); [done|]. destruct (Qle_bool (start + _) _) eqn:Ed; [|done]. f_equal.
  apply Qle_bool_iff in Ed. unfold expired, _BOOT_SETTLE_MAX_S in *.
  rewrite (quiet_iff _ _ _ _ _ _ Ht') by (unfold _BOOT_SETTLE_STABLE_S; lra).
  by rewrite <- (tr_observed _ _ _ _ _ _ Ht').
Qed.

(** ** The loop *)

Section Loop.
Context {D : Type} (device : request -> D -> outcome response * D).
Notation net := (aworld D).

(** A read of /info is one request; what follows it is local. *)
Lemma read_info_spec a :
  cost (read_info device a).2 = cost a /\
  now (read_info device a).2 = (now a + DELAY_S + cost a (length (log a)))%Q /\
  ((forall q d, settled (device q d).1) -> settled (read_info device a).1).
Proof.
  unfold read_info, get_info, http_get, session_request, bind, asleep, modify. cbn [dev log cookies open_sessions now cost].
  pose proof (fun H : forall q d, settled (device q d).1 => H (Request GET "/info" None (scalar 10)) (dev a)) as Hd.
  destruct (device _ (dev a)) as [r d]. set (a' := AWorld d _ _ _ _ _).
  match goal with |- context [?x.2] => enough (exists o, x = (o, a') /\ ((forall q d, settled (device q d).1) -> settled o))
    as (o & -> & Ho) by by split_and! end.
  destruct r as [resp|e|]; [|by eexists|exists Blocked; split; [reflexivity|intros H; by destruct (Hd H)]].
  unfold assert. destruct (status_code resp =? 200); [|by eexists].
  unfold ret, lift, resp_json. destruct (body_json resp) as [info|]; [|by eexists].
  destruct info; try by eexists. cbn [jindex]. destruct (jget "heap_free" fields) as [[| | |s| |]|]; try by eexists.
  cbn [obind int_of]. unfold py_int. destruct (py_int_opt s); by eexists.
Qed.

Lemma read_info_later a : (forall n, (0 <= cost a n)%Q) -> (now a + DELAY_S <= now (read_info device a).2)%Q.
Proof. intros H. destruct (read_info_spec a) as (_ & -> & _). specialize (H (length (log a))). lra. Qed.

Lemma port_modes_settled info : _port_modes info <> Blocked.
Proof.
  unfold _port_modes, modes_of, port_mode_of, _PORT_KEYS. destruct info; try done. cbn [py_get obind].
  destruct (jget "rs485_1" fields) as [[| | | | |f]|]; try done. destruct (jget "port_mode" f); [|done].
  destruct (jget "rs485_2" fields) as [[| | | | |g]|]; try done. by destruct (jget "port_mode" g).
Qed.

Lemma init_signal_settled info active only : settled (_init_signal info active only).
Proof. unfold _init_signal. destruct (existsb _ _); [done|]. destruct info; try done. cbn. by destruct (_ && _). Qed.

Lemma take_sample_ok wanted only t a s t' over a' :
  take_sample device wanted only t a = (Ok (s, t', over), a') ->
  exists info free active, read_info device a = (Ok (info, free), a') /\ _port_modes info = Ok active /\
    s = Sample (now a') info free active /\ (t', over) = observe wanted t s (init_observed t || signals only s).
Proof.
  unfold take_sample. intros H. apply bind_ok in H as ([info free] & a1 & Hi & H).
  unfold bind at 1, anow in H. apply bind_ok in H as (active & a2 & Ha & H). injection Ha as Ha ->.
  apply bind_ok in H as (o & a3 & Ho & H). cbn zeta in H.
  exists info, free, active. injection H as <- <- <- <-.
  assert (a3 = a2 /\ o = init_observed t || signals only (Sample (now a2) info free active)) as [-> ->].
  { destruct (init_observed t); [by injection Ho as <- <-|]. injection Ho as Ho ->. split; [done|].
    unfold signals. cbn [info_of modes orb]. by rewrite Ho. }
  split_and!; [done|done|done|]. by destruct (observe _ _ _ _).
Qed.

Lemma take_sample_spec wanted only t a :
  cost (take_sample device wanted only t a).2 = cost a /\
  now (take_sample device wanted only t a).2 = (now a + DELAY_S + cost a (length (log a)))%Q /\
  ((forall q d, settled (device q d).1) -> settled (take_sample device wanted only t a).1) /\
  (forall s t' over, (take_sample device wanted only t a).1 = Ok (s, t', over) ->
   at_ s = now (take_sample device wanted only t a).2).
Proof.
  destruct (read_info_spec a) as (C & N & S). unfold take_sample, bind.
  destruct (read_info device a) as [[[info free]|e|] a1]; cbn [fst snd] in *;
    [|by split_and!|split_and!; [done|done|intros H; by destruct (S H)|done]].
  unfold anow, lift. destruct (_port_modes info) as [active|e|] eqn:Ep;
    [|by split_and!|by apply port_modes_settled in Ep].
  destruct (init_observed t); [split_and!; try done; by intros s t' o [= <- <- <-]|].
  pose proof (init_signal_settled info active only) as Hs.
  destruct (_init_signal info active only) as [o|e|]; split_and!; try done. by intros s t' o' [= <- <- <-].
Qed.

(** The world in which the next sample is taken. *)
Definition reached (a0 : net) (tr : list sample) (a : net) : Prop :=
  (tr = [] /\ a = a0) \/ exists a1, sampled device a0 tr a1 /\ a = (asleep _BOOT_SETTLE_POLL_S a1).2.

Lemma reached_sampled a0 tr a info free active a' :
  reached a0 tr a -> read_info device a = (Ok (info, free), a') -> _port_modes info = Ok active ->
  sampled device a0 (tr ++ [Sample (now a') info free active]) a'.
Proof.
  intros [[-> ->]|(a1 & Hs & ->)] Hr Ha; [by apply sampled_one|by eapply sampled_more].
Qed.

(** The loop returns the verdict of the record of its samples, at the first
    sample at which the record has one. *)
Lemma settle_loop_exact wanted only start a0 fuel tr t a v n f a' :
  settle_loop device fuel wanted only (start + _BOOT_SETTLE_MAX_S) t a = (Ok (v, n, f), a') ->
  (forall k, (0 <= cost a k)%Q) -> (start <= now a)%Q -> reached a0 tr a ->
  tracks wanted only start (now a) tr t -> (forall k, verdict_of wanted only start (take k tr) = None) ->
  exists tr' s, sampled device a0 tr' a' /\ verdict_of wanted only start tr' = Some v /\ n = length tr' /\
    last tr' = Some s /\ f = free_of s /\
    forall k, (k < length tr')%nat -> verdict_of wanted only start (take k tr') = None.
Proof.
  revert tr t a. induction fuel as [|fuel IH]; intros tr t a H Hc Hst Hre Ht Hp; [done|].
  cbn [settle_loop] in H. apply bind_ok in H as ([[s t'] over] & a1 & Hts & H).
  apply take_sample_ok in Hts as (info & free & active & Hr & Ha & -> & Ho).
  pose proof (read_info_spec a) as (C1 & _). pose proof (read_info_later a Hc) as T1.
  rewrite Hr in C1, T1. cbn [snd] in C1, T1. unfold DELAY_S in T1. set (s := Sample (now a1) info free active) in *.
  pose proof (reached_sampled _ _ _ _ _ _ _ Hre Hr Ha) as Hsam. fold s in Hsam.
  rewrite (tr_observed _ _ _ _ _ _ Ht), <- seen_snoc in Ho.
  assert (start <= now a <= at_ s)%Q as Hs by (cbn [at_ s]; lra).
  pose proof (tracks_step _ _ _ _ _ _ s Ht Hs) as Ht'. pose proof (verdict_step _ _ _ _ _ _ s Ht Hs) as Hv.
  rewrite <- Ho in Ht', Hv. cbn [fst] in Ht'.
  assert (forall k, (k < length (tr ++ [s]))%nat -> verdict_of wanted only start (take k (tr ++ [s])) = None) as Hp'.
  { intros k Hk. rewrite length_app in Hk. cbn in Hk. rewrite take_app_le by lia. apply Hp. }
  pose proof (tr_samples _ _ _ _ _ _ Ht') as Hn.
  destruct over; [|destruct (Qle_bool _ (at_ s))].
  1,2: injection H as <- <- <- <-; exists (tr ++ [s]), s; rewrite last_snoc; by split_and!.
  unfold bind, asleep, modify in H. eapply (IH (tr ++ [s]) t'); [exact H|by cbn; rewrite C1|cbn [now]; unfold _BOOT_SETTLE_POLL_S; lra|..].
  - right. by exists a1.
  - destruct Ht'. split; try done. intros x Hx. specialize (tr_times0 x Hx). cbn [now s at_] in *.
    unfold _BOOT_SETTLE_POLL_S. lra.
  - intros k. destruct (decide (k < length (tr ++ [s]))%nat) as [Hk|Hk]; [by apply Hp'|].
    by rewrite firstn_all2 by lia.
Qed.

(** A round takes at least 0.35 s, so 87 rounds reach the deadline. *)
Lemma settle_loop_ends wanted only deadline fuel t a :
  (forall q d, settled (device q d).1) -> (forall n, (0 <= cost a n <= 10)%Q) ->
  (deadline <= now a + DELAY_S + inject_Z (Z.of_nat fuel) * (DELAY_S + _BOOT_SETTLE_POLL_S))%Q ->
  (now a <= deadline + _BOOT_SETTLE_POLL_S)%Q ->
  settled (settle_loop device (S fuel) wanted only deadline t a).1 /\
  (now (settle_loop device (S fuel) wanted only deadline t a).2 <= deadline + _BOOT_SETTLE_POLL_S + DELAY_S + 10)%Q.
Proof.
  intros Hd. revert t a. induction fuel as [|fuel IH]; intros t a Hc Hf Ha;
    pose proof (Hc (length (log a))) as Hl; destruct (take_sample_spec wanted only t a) as (C & N & S & At);
    specialize (S Hd); cbn [settle_loop]; unfold bind;
    destruct (take_sample device wanted only t a) as [[[[s t'] over]|e|] a1]; cbn [fst snd] in *;
    try (by split; [done|rewrite N; lra]); specialize (At _ _ _ eq_refl);
    (destruct over; [by split; [done|cbn; rewrite N; lra]|]); rewrite At;
    (destruct (Qle_bool deadline (now a1)) eqn:Eq; [by split; [done|cbn; rewrite N; lra]|]);
    apply not_true_iff_false in Eq; rewrite Qle_bool_iff, N in Eq.
  - exfalso. apply Eq. change (inject_Z (Z.of_nat 0)) with 0%Q in Hf. lra.
  - unfold asleep, modify. apply (IH t'); cbn [now cost]; [by rewrite C| |]; rewrite N; [|lra].
    rewrite Nat2Z.inj_succ, <- Z.add_1_r, inject_Z_plus in Hf. change (inject_Z 1) with 1%Q in Hf. lra.
Qed.

End Loop.

(** ** What the verdicts say of the device *)

(** Sample [i + 1] of the record fell by more than the noise. *)
Definition fell (tr : list sample) (i : nat) (y : sample) : Prop :=
  exists x, tr !! i = Some x /\ tr !! S i = Some y /\ free_of y < free_of x - _BOOT_SETTLE_NOISE_B.

Lemma elem_of_falls tr q : q ∈ falls tr <-> exists i y, fell tr i y /\ at_ y = q.
Proof.
  unfold falls. rewrite list_elem_of_omap. split.
  - intros ([x y] & Hin & E). cbn [fst snd] in E. destruct (_ <? _) eqn:El; [|done]. bool_to_prop.
    injection E as <-. apply list_elem_of_lookup in Hin as [i Hi].
    apply lookup_zip_with_Some in Hi as (x' & y' & E & Hx & Hy). injection E as <- <-.
    rewrite lookup_tail in Hy. exists i, y. split; [|done]. by exists x.
  - intros (i & y & (x & Hx & Hy & Hl) & <-). exists (x, y). cbn [fst snd].
    split; [|by apply Z.ltb_lt in Hl as ->]. apply list_elem_of_lookup. exists i. apply lookup_zip_with_Some.
    exists x, y. by rewrite lookup_tail.
Qed.

Lemma elem_of_ready wanted only tr q :
  q ∈ ready wanted only tr <->
  exists k s, tr !! k = Some s /\ at_ s = q /\ same_modes (modes s) wanted = true /\ seen only (take (S k) tr) = true.
Proof.
  unfold ready. rewrite list_elem_of_omap. split.
  - intros (k & _ & Hk). destruct (tr !! k) as [s|] eqn:E; [|done]. cbn in Hk.
    destruct (_ && _) eqn:Eb; [|done]. bool_to_prop. injection Hk as <-. by exists k, s.
  - intros (k & s & Hk & <- & Hm & Hs). exists k. rewrite Hk. cbn [mbind option_bind]. rewrite Hm, Hs. split; [|done].
    apply elem_of_seq. apply lookup_lt_Some in Hk. lia.
Qed.

(** No fall in the three seconds before [s]. *)
Definition steady (tr : list sample) (s : sample) : Prop :=
  forall i y, fell tr i y -> (_BOOT_SETTLE_STABLE_S <= at_ s - at_ y)%Q.

Lemma steady_iff tr s : forallb (long_ago (at_ s)) (falls tr) = true <-> steady tr s.
Proof.
  rewrite forallb_forall. unfold steady, long_ago. split.
  - intros H i y Hf. apply Qle_bool_iff, H, list_elem_of_In, elem_of_falls. by exists i, y.
  - intros H q Hq. apply list_elem_of_In, elem_of_falls in Hq as (i & y & Hf & <-). by apply Qle_bool_iff, (H i).
Qed.

(** Some sample proved that [port_manager_init] had begun. *)
Definition init_proved (only : bool) (tr : list sample) : Prop := exists s, s ∈ tr /\ signals only s = true.

Lemma seen_iff only tr : seen only tr = true <-> init_proved only tr.
Proof.
  unfold seen. rewrite existsb_exists. unfold init_proved. by setoid_rewrite list_elem_of_In.
Qed.

(** Agreement with the configured modes at [s] and, with a signal by then,
    three seconds earlier. *)
Definition converged (wanted : list json) (only : bool) (tr : list sample) (s : sample) : Prop :=
  same_modes (modes s) wanted = true /\
  exists k x, tr !! k = Some x /\ same_modes (modes x) wanted = true /\ init_proved only (take (S k) tr) /\
    (_BOOT_SETTLE_STABLE_S <= at_ s - at_ x)%Q.

Definition means (wanted : list json) (only : bool) (start : Q) (tr : list sample) (s : sample) (v : verdict) : Prop :=
  match v with
  | _SETTLED => converged wanted only tr s /\ steady tr s
  | _HEAP_UNSETTLED => (start + _BOOT_SETTLE_MAX_S <= at_ s)%Q /\ ~ steady tr s
  | _NO_INIT_SIGNAL => (start + _BOOT_SETTLE_MAX_S <= at_ s)%Q /\ steady tr s /\ ~ init_proved only tr
  | _MODES_UNCONVERGED =>
      (start + _BOOT_SETTLE_MAX_S <= at_ s)%Q /\ steady tr s /\ init_proved only tr /\ ~ converged wanted only tr s
  | _NO_SIGNAL_POSSIBLE | _WAIT_ERRORED => False
  end.

Lemma converged_iff wanted only tr s :
  same_modes (modes s) wanted && existsb (long_ago (at_ s)) (ready wanted only tr) = true <-> converged wanted only tr s.
Proof.
  rewrite andb_true_iff, existsb_exists. unfold converged, long_ago. apply and_iff_compat_l. split.
  - intros (q & Hq & Hl). apply list_elem_of_In, elem_of_ready in Hq as (k & x & Hk & <- & Hm & Hs).
    exists k, x. rewrite <- seen_iff. by apply Qle_bool_iff in Hl.
  - intros (k & x & Hk & Hm & Hs & Hl). exists (at_ x). rewrite Qle_bool_iff. split; [|done].
    apply list_elem_of_In, elem_of_ready. exists k, x. by rewrite seen_iff.
Qed.

(** The verdict of a record is the one that is true of it, and the wait goes
    on only before the deadline with [_SETTLED] not true. *)
Lemma verdict_of_means wanted only start tr s v :
  last tr = Some s -> verdict_of wanted only start tr = Some v -> means wanted only start tr s v.
Proof.
  intros Hl. unfold verdict_of. rewrite Hl. cbn [mbind option_bind].
  destruct (_ && existsb _ _) eqn:Ec; [apply converged_iff in Ec|apply not_true_iff_false in Ec; rewrite converged_iff in Ec];
    (destruct (forallb _ _) eqn:Es; [apply steady_iff in Es|apply not_true_iff_false in Es; rewrite steady_iff in Es]);
    cbn [andb negb].
  1: by intros [= <-].
  all: (destruct (Qle_bool (start + _) _) eqn:Ed; [apply Qle_bool_iff in Ed|done]).
  1,3: by intros [= <-].
  destruct (seen only tr) eqn:Ei; [apply seen_iff in Ei|apply not_true_iff_false in Ei; rewrite seen_iff in Ei];
    by intros [= <-].
Qed.

Lemma verdict_of_none wanted only start tr s :
  last tr = Some s -> verdict_of wanted only start tr = None ->
  (at_ s < start + _BOOT_SETTLE_MAX_S)%Q /\ ~ (converged wanted only tr s /\ steady tr s).
Proof.
  intros Hl. unfold verdict_of. rewrite Hl. cbn [mbind option_bind].
  rewrite <- converged_iff, <- steady_iff, <- andb_true_iff. destruct (_ && _ && _); [done|].
  destruct (Qle_bool _ (at_ s)) eqn:E; [done|]. intros _. split; [|done].
  apply not_true_iff_false in E. rewrite Qle_bool_iff in E. lra.
Qed.

Section Tests.
Context {D : Type} (device : request -> D -> outcome response * D).
Notation net := (aworld D).

(** GET /settings gave the modes that are configured. *)
Definition configured (a : net) (settings : json) (wanted : list json) (a1 : net) : Prop :=
  exists resp, get_settings device a = (Ok resp, a1) /\ status_code resp = 200 /\
    body_json resp = Some settings /\ _port_modes settings = Ok wanted.

Lemma get_settings_spec a :
  cost (get_settings device a).2 = cost a /\
  now (get_settings device a).2 = (now a + DELAY_S + cost a (length (log a)))%Q /\
  ((forall q d, settled (device q d).1) -> settled (get_settings device a).1).
Proof.
  unfold get_settings, http_get, session_request, bind, asleep, modify. cbn [dev log cookies open_sessions now cost].
  pose proof (fun H : forall q d, settled (device q d).1 => H (Request GET "/settings" None (scalar 30)) (dev a)) as Hd.
  destruct (device _ (dev a)) as [r d]. by split_and!.
Qed.

(** The record behind a verdict: decided by its last sample, no sooner. *)
Record decided (wanted : list json) (only : bool) (a1 : net) (tr : list sample) (v : verdict) (n : nat) (f : Z) (a' : net)
    : Prop := {
  dec_sampled : sampled device a1 tr a';
  dec_samples : n = length tr;
  dec_last : exists s, last tr = Some s /\ f = free_of s /\ means wanted only (now a1) tr s v;
  dec_first : forall k x, tr !! k = Some x -> (S k < length tr)%nat ->
    (at_ x < now a1 + _BOOT_SETTLE_MAX_S)%Q /\
    ~ (converged wanted only (take (S k) tr) x /\ steady (take (S k) tr) x)
}.

Definition waited (a : net) (v : verdict) (n : nat) (f : Z) (a' : net) : Prop :=
  exists settings wanted a1, configured a settings wanted a1 /\
    ((v = _NO_SIGNAL_POSSIBLE /\ n = 0%nat /\ f = 0 /\ a' = a1 /\ forallb disabled wanted = true /\
      py_get _CACHE_ENABLED_KEY settings = Ok (Some (JBool false))) \/
     exists tr, decided wanted (forallb disabled wanted) a1 tr v n f a').

Lemma wait_boot_settled_spec fuel a v n f a' :
  _wait_boot_settled device fuel a = (Ok (v, n, f), a') -> (forall k, (0 <= cost a k)%Q) -> waited a v n f a'.
Proof.
  unfold _wait_boot_settled. intros H Hc. apply bind_ok in H as (resp & a1 & Hg & H).
  pose proof (get_settings_spec a) as (Cg & _). rewrite Hg in Cg. cbn [snd] in Cg.
  unfold assert, bind at 1 in H. destruct (status_code resp =? 200) eqn:E; [|done]. bool_to_prop. cbn [ret] in H.
  apply bind_ok in H as (settings & a2 & Hs & H). injection Hs as Hs ->.
  apply bind_ok in H as (wanted & a3 & Hw & H). injection Hw as Hw ->.
  apply bind_ok in H as (possible & a4 & Hp & H). injection Hp as Hp ->.
  unfold resp_json in Hs. destruct (body_json resp) as [j|] eqn:Ej; [|done]. injection Hs as ->.
  exists settings, wanted, a4. split; [by exists resp|]. destruct possible; cbn [negb] in H.
  - right. unfold bind, anow in H.
    destruct (settle_loop_exact device _ _ (now a4) a4 _ [] _ _ _ _ _ _ H) as (tr & s & Hsam & Hv & -> & Hl & -> & Hk).
    + by rewrite Cg.
    + apply Qle_refl.
    + by left.
    + apply tracks_nil.
    + intros k. by rewrite take_nil.
    + exists tr. split; [done|done|exists s; split_and!; [done|done|by eapply verdict_of_means]|].
      intros k x Hx Hlt. eapply verdict_of_none; [|by apply Hk]. by rewrite (take_S_r _ _ _ Hx), last_snoc.
  - left. injection H as <- <- <- <-. revert Hp. unfold signal_possible. destruct (forallb disabled wanted); [|done].
    by destruct (py_get _ settings) as [[[| [] | | | |]|]| |].
Qed.

(** The readings of [_free_heap_quiescent], a gap after each. *)
Inductive readings (a : net) : list (json * Z) -> net -> Prop :=
| readings_nil : readings a [] a
| readings_cons x a1 l a' :
    read_info device a = (Ok x, a1) -> readings (asleep _SAMPLE_GAP_S a1).2 l a' -> readings a (x :: l) a'.

Lemma last_cons_default {A} (x d : A) l : List.last (x :: l) d = List.last l x.
Proof. revert x d. induction l as [|y l IH]; intros x d; [done|]. rewrite (IH y x). exact (IH y d). Qed.

Lemma quiescent_loop_ok n best data a f data' a' :
  quiescent_loop device n best data a = (Ok (f, data'), a') ->
  exists l, readings a l a' /\ length l = n /\ f = foldl Z.max best l.*2 /\ data' = List.last l.*1 data.
Proof.
  revert best data a. induction n as [|n IH]; intros best data a H.
  { injection H as <- <- <-. exists []. by split_and!; [constructor|..]. }
  cbn [quiescent_loop] in H. apply bind_ok in H as ([d x] & a1 & Hr & H).
  unfold bind, asleep, modify in H. destruct (IH _ _ _ H) as (l & Hl & Hn & -> & ->).
  exists ((d, x) :: l). split_and!; [by eapply readings_cons|cbn; lia| |].
  - cbn. f_equal. destruct (best <? x) eqn:E; bool_to_prop; lia.
  - symmetry. apply last_cons_default.
Qed.

(** Four readings, and the largest of them (or -1). *)
Definition best_of_four (a : net) (b : Z) (data : json) : Prop :=
  exists l a', readings a l a' /\ length l = 4%nat /\ b = foldl Z.max (-1) l.*2 /\ data = List.last l.*1 JNull.

Lemma foldl_max_le l b : Forall (fun x => x <= foldl Z.max b l) l /\ b <= foldl Z.max b l.
Proof.
  revert b. induction l as [|x l IH]; intros b; cbn; [split; [done|lia]|].
  destruct (IH (b `max` x)) as [H1 H2]. split; [constructor; [lia|done]|lia].
Qed.

Lemma take_baseline_leaves v w r w1 :
  take_baseline device v w = (r, w1) ->
  (w1 = HWorld (hnet w1) (_heap_baseline_verdict w) (_heap_baseline w) /\ r <> Ok tt) \/
  exists b data, _heap_baseline_verdict w1 = Some v /\ _heap_baseline w1 = Some b /\ best_of_four (hnet w) b data.
Proof.
  unfold take_baseline, on_net, record_baseline, publish, modify, bind, lift.
  destruct (_free_heap_quiescent device (hnet w)) as [[[b data]|e|] a2] eqn:Eq; [|by intros [= <- <-]; left..].
  cbn [hnet _heap_baseline_verdict _heap_baseline]. intros H. right. exists b, data.
  apply quiescent_loop_ok in Eq as (l & Hl & Hn & -> & ->). set (w2 := HWorld a2 _ _) in H.
  assert (w1 = w2) as ->.
  { unfold assert, ret, raise in H. destruct (jindex "heap_total" _) as [j| |]; [|by injection H..].
    destruct (jindex "heap_min_free" _) as [k| |]; [|by injection H..]. by destruct (_ <? _); injection H. }
  split_and!; [done|done|by exists l, a2].
Qed.

(** Runs of [test_heap_baseline]: unless a baseline was recorded, together
    with the usable verdict it was taken under, the verdict left behind is
    unusable and the test did not pass. *)
Lemma heap_baseline_leaves fuel w r w1 :
  test_heap_baseline device fuel w = (r, w1) -> _heap_baseline w = None -> (forall k, (0 <= cost (hnet w) k)%Q) ->
  (exists v, _heap_baseline_verdict w1 = Some v /\ usable v = false /\ _heap_baseline w1 = None /\ r <> Ok tt) \/
  (exists v n f a1 b data, _heap_baseline_verdict w1 = Some v /\ usable v = true /\ _heap_baseline w1 = Some b /\
     waited (hnet w) v n f a1 /\ best_of_four a1 b data).
Proof.
  intros H Hb Hc. unfold test_heap_baseline, publish at 1, on_net, modify in H. unfold bind at 1 2 in H.
  cbn [hnet _heap_baseline_verdict _heap_baseline] in H. rewrite Hb in H.
  destruct (_wait_boot_settled device fuel (hnet w)) as [[[[v n] f]|e|] a1] eqn:Ew;
    [|injection H as <- <-; left; by exists _WAIT_ERRORED..].
  apply wait_boot_settled_spec in Ew; [|done].
  destruct v; cbn -[take_baseline] in H.
  3-5: injection H as <- <-; left; by eexists.
  1,2: apply take_baseline_leaves in H as [[-> H]|(b & data & H1 & H2 & H3)];
    [left; by exists _WAIT_ERRORED|right; by eexists _, n, f, a1, b, data].
  exfalso. destruct Ew as (st & wanted & a2 & _ & [[? _]|[tr [_ _ (s & _ & _ & []) _]]]); done.
Qed.

Lemma readings_quiescent n best data a l a' :
  readings a l a' -> length l = n ->
  quiescent_loop device n best data a = (Ok (foldl Z.max best l.*2, List.last l.*1 data), a').
Proof.
  intros Hl. revert n best data. induction Hl as [a|a [d x] a1 l a' Hr Hl IH]; intros n best data <-; [done|].
  cbn [length quiescent_loop]. unfold bind at 1. rewrite Hr. unfold bind, asleep, modify.
  unfold asleep, modify in IH. cbn [snd] in IH. rewrite (IH _ _ d eq_refl). cbn [fmap list_fmap foldl fst snd].
  rewrite last_cons_default. do 4 f_equal. destruct (best <? x) eqn:E; bool_to_prop; lia.
Qed.

(** The final test on four readings. *)
Lemma no_leak_decides v b a l a' :
  usable v = true -> readings a l a' -> length l = 4%nat ->
  is_ok (jindex "heap_min_free" (List.last l.*1 JNull)) = true ->
  (test_heap_no_leak device (HWorld a (Some v) (Some b))).1 =
  if b - foldl Z.max (-1) l.*2 <=? HEAP_LEAK_TOLERANCE_BYTES then Ok tt else Raise AssertionError.
Proof.
  intros Hu Hl Hn Hi. unfold test_heap_no_leak, get. unfold bind at 1. cbn [_heap_baseline_verdict _heap_baseline].
  rewrite Hu. cbn [negb]. unfold bind at 1, on_net. cbn [hnet]. unfold _free_heap_quiescent, _SAMPLES.
  rewrite (readings_quiescent 4 _ _ _ _ _ Hl Hn). unfold bind, lift.
  destruct (jindex "heap_min_free" _); [|done|done]. unfold assert. by destruct (_ <=? _).
Qed.

(** C30. A session that ends in a leak verdict has evidence for it.  After [test_heap_baseline] has run on a fresh session, whatever happened in it, either no baseline was recorded, and then the baseline test did not pass and [test_heap_no_leak] skips without a request; or the baseline recorded is the largest of four readings after a wait with a usable verdict, and on four final readings the test passes if one of them is within the tolerance of the baseline and fails if all are below it (for a baseline of at least the tolerance). *)
Theorem leak_verdict_sound fuel w r w1 a :
  test_heap_baseline device fuel w = (r, w1) -> _heap_baseline w = None -> (forall k, (0 <= cost (hnet w) k)%Q) ->
  let w2 := HWorld a (_heap_baseline_verdict w1) (_heap_baseline w1) in
  (_heap_baseline w1 = None /\ test_heap_no_leak device w2 = (Raise PytestSkip, w2) /\ r <> Ok tt) \/
  exists v n f a1 b data, _heap_baseline w1 = Some b /\ waited (hnet w) v n f a1 /\ usable v = true /\ best_of_four a1 b data /\
    forall l a', readings a l a' -> length l = 4%nat ->
      is_ok (jindex "heap_min_free" (List.last l.*1 JNull)) = true ->
      (Exists (fun x => b - HEAP_LEAK_TOLERANCE_BYTES <= x) l.*2 -> (test_heap_no_leak device w2).1 = Ok tt) /\
      (Forall (fun x => x < b - HEAP_LEAK_TOLERANCE_BYTES) l.*2 -> HEAP_LEAK_TOLERANCE_BYTES <= b ->
       (test_heap_no_leak device w2).1 = Raise AssertionError).
Proof.
  intros H Hb Hc w2. subst w2. destruct (heap_baseline_leaves _ _ _ _ H Hb Hc)
    as [(v & -> & Hu & -> & Hr)|(v & n & f & a1 & b & data & -> & Hu & -> & Hw & Hq)].
  - left. split; [done|]. split; [|done]. unfold test_heap_no_leak, get, bind. cbn [_heap_baseline_verdict]. by rewrite Hu.
  - right. exists v, n, f, a1, b, data. split_and!; [done|done|done|done|]. intros l a' Hl Hn Hi.
    rewrite (no_leak_decides _ _ _ _ _ Hu Hl Hn Hi). destruct (foldl_max_le l.*2 (-1)) as [H1 H2]. split.
    + intros (x & Hx & Hle)%Exists_exists. rewrite Forall_forall in H1. specialize (H1 x Hx).
      by rewrite (proj2 (Z.leb_le _ _)) by lia.
    + intros Hf Ht. rewrite (proj2 (Z.leb_gt _ _)); [done|]. enough (foldl Z.max (-1) l.*2 < b - HEAP_LEAK_TOLERANCE_BYTES) by lia.
      clear - Hf Ht. assert (-1 < b - HEAP_LEAK_TOLERANCE_BYTES) as H0 by lia. revert H0. generalize (-1) as m.
      induction Hf as [|x l' Hx Hf IH]; intros m H0; [done|]. cbn. apply IH. lia.
Qed.

(** The boot wait ends.  On a device whose requests return or fail within 10 s, 87 rounds are enough for any wait, and it returns or raises within 51 s: the /settings read, the 30 s of the wait and one more round. *)
Theorem boot_wait_ends fuel a :
  (forall q d, settled (device q d).1) -> (forall n, (0 <= cost a n <= 10)%Q) -> (87 <= fuel)%nat ->
  settled (_wait_boot_settled device fuel a).1 /\ (now (_wait_boot_settled device fuel a).2 <= now a + 51)%Q.
Proof.
  intros Hd Hc Hf. destruct (get_settings_spec a) as (C & N & S). specialize (S Hd).
  pose proof (Hc (length (log a))) as H1. unfold _wait_boot_settled, bind, lift, resp_json.
  assert (now (get_settings device a).2 <= now a + 11)%Q as H2 by (rewrite N; unfold DELAY_S; lra).
  destruct (get_settings device a) as [[resp|e|] a1]; cbn [fst snd] in *; [|split; [done|lra]|done].
  assert (forall o : outcome (verdict * nat * Z), settled o -> settled (o, a1).1 /\ (now (o, a1).2 <= now a + 51)%Q)
    as K by (intros o Ho; split; [done|cbn; lra]).
  unfold assert. destruct (status_code resp =? 200); [|by apply (K (Raise AssertionError))].
  cbn [ret]. destruct (body_json resp) as [settings|]; [|by apply (K (Raise JSONDecodeError))].
  destruct (_port_modes settings) as [wanted|e|] eqn:Ep; [|by apply (K (Raise e))|by apply port_modes_settled in Ep].
  assert (settled (signal_possible wanted settings)) as Sp.
  { unfold signal_possible. destruct (forallb _ _); [|done]. destruct settings; try done. cbn.
    by destruct (jget _ _) as [[| | | | |]|]. }
  destruct (signal_possible wanted settings) as [[]|e|]; [|by apply (K (Ok (_NO_SIGNAL_POSSIBLE, 0%nat, 0)))|by apply (K (Raise e))|done].
  cbn [negb anow]. destruct fuel as [|fuel]; [lia|].
  destruct (settle_loop_ends device wanted (forallb disabled wanted) (now a1 + _BOOT_SETTLE_MAX_S) fuel
              (Track None None (now a1) false 0) a1) as [G1 G2].
  - done.
  - by rewrite C.
  - assert (inject_Z 86 <= inject_Z (Z.of_nat fuel))%Q as Hq by (rewrite <- Zle_Qle; lia).
    change (inject_Z 86) with 86%Q in Hq. unfold _BOOT_SETTLE_MAX_S, DELAY_S, _BOOT_SETTLE_POLL_S. lra.
  - unfold _BOOT_SETTLE_MAX_S, _BOOT_SETTLE_POLL_S. lra.
  - split; [exact G1|]. unfold _BOOT_SETTLE_MAX_S, _BOOT_SETTLE_POLL_S, DELAY_S in *.
    eapply Qle_trans; [exact G2|]. rewrite N in *. lra.
Qed.

(** C16. The boot wait returns exactly the verdict that is true of the /info samples it took, read as a whole: [_SETTLED] when the modes agree at the last sample and agreed, with an init signal seen by then, at a sample at least 3 s earlier, and free heap did not fall by more than the noise from one sample to the next within the last 3 s; at the deadline the other verdicts separate a falling heap, a missing signal and modes that did not agree for long enough.  No earlier sample had decided the wait. *)
Theorem boot_wait_verdict fuel a v n f a' :
  _wait_boot_settled device fuel a = (Ok (v, n, f), a') -> (forall k, (0 <= cost a k)%Q) ->
  exists settings wanted a1, configured a settings wanted a1 /\
    ((v = _NO_SIGNAL_POSSIBLE /\ n = 0%nat /\ f = 0 /\ a' = a1 /\ forallb disabled wanted = true /\
      py_get _CACHE_ENABLED_KEY settings = Ok (Some (JBool false))) \/
     exists tr, decided wanted (forallb disabled wanted) a1 tr v n f a').
Proof. apply wait_boot_settled_spec. Qed.

End Tests.

(** ** A device on a script *)

(** It answers each /info with the next payload, and repeats the last one. *)
Definition scripted (settings : json) (q : request) (d : list json) : outcome response * list json :=
  let reply j := Ok (Response 200 "" (Some j) []) in
  if String.eqb (url_path q) "/settings" then (reply settings, d)
  else match d with
       | [] => (Raise ConnectionError, [])
       | [j] => (reply j, [j])
       | j :: d => (reply j, d)
       end.

Definition ports (m1 m2 : string) : list (string * json) :=
  [("rs485_1", JObj [("port_mode", JStr m1)]); ("rs485_2", JObj [("port_mode", JStr m2)])].
Definition bridge_settings : json := JObj (ports "tcp_bridge" "tcp_bridge").
Definition info_reply (m1 m2 : string) (free : Z) : json :=
  JObj (ports m1 m2 ++ [("heap_free", JNum free); ("heap_total", JNum 400000); ("heap_min_free", JNum 200000)]).

Definition at_boot (d : list json) : aworld (list json) := AWorld d [] ∅ 1 0 (fun _ => 0%Q).

(** The device of CI build 21: free heap drops when the ports come up. *)
Definition slow_boot : list json :=
  replicate 8 (info_reply "disabled" "disabled" 288555) ++ [info_reply "tcp_bridge" "tcp_bridge" 269555].

Lemma scripted_settled settings q d : settled (scripted settings q d).1.
Proof. unfold scripted. destruct (String.eqb _ _); [done|]. by destruct d as [|j [|]]. Qed.

Lemma boot_wait_ends_witness :
  settled (_wait_boot_settled (scripted bridge_settings) 87 (at_boot slow_boot)).1 /\
  (now (_wait_boot_settled (scripted bridge_settings) 87 (at_boot slow_boot)).2 <= now (at_boot slow_boot) + 51)%Q.
Proof. apply boot_wait_ends; [apply scripted_settled|done|lia]. Defined.

Lemma boot_wait_verdict_witness :
  exists v n f a', _wait_boot_settled (scripted bridge_settings) 87 (at_boot slow_boot) = (Ok (v, n, f), a') /\
    v = _SETTLED /\ n = 18%nat /\ f = 269555 /\
    exists settings wanted a1, configured (scripted bridge_settings) (at_boot slow_boot) settings wanted a1 /\
    ((v = _NO_SIGNAL_POSSIBLE /\ n = 0%nat /\ f = 0 /\ a' = a1 /\ forallb disabled wanted = true /\
      py_get _CACHE_ENABLED_KEY settings = Ok (Some (JBool false))) \/
     exists tr, decided (scripted bridge_settings) wanted (forallb disabled wanted) a1 tr v n f a').
Proof.
  eexists _, _, _, _. split_and!; [vm_compute; reflexivity|done|done|done|].
  eapply (boot_wait_verdict (scripted bridge_settings) 87); [vm_compute; reflexivity|done].
Defined.

Definition session_start (d : list json) : hworld := HWorld (at_boot d) None None.
Definition leaky : aworld (list json) := at_boot [info_reply "tcp_bridge" "tcp_bridge" 250000].

Lemma leak_verdict_sound_witness :
  let w := session_start slow_boot in
  let w1 := (test_heap_baseline (scripted bridge_settings) 87 w).2 in
  let w2 := HWorld leaky (_heap_baseline_verdict w1) (_heap_baseline w1) in
  _heap_baseline w1 = Some 269555 /\ (test_heap_no_leak (scripted bridge_settings) w2).1 = Raise AssertionError /\
  ((_heap_baseline w1 = None /\ test_heap_no_leak (scripted bridge_settings) w2 = (Raise PytestSkip, w2) /\
    (test_heap_baseline (scripted bridge_settings) 87 w).1 <> Ok tt) \/
   exists v n f a1 b data, _heap_baseline w1 = Some b /\ waited (scripted bridge_settings) (hnet w) v n f a1 /\ usable v = true /\
    best_of_four (scripted bridge_settings) a1 b data /\
    forall l a', readings (scripted bridge_settings) leaky l a' -> length l = 4%nat ->
      is_ok (jindex "heap_min_free" (List.last l.*1 JNull)) = true ->
      (Exists (fun x => b - HEAP_LEAK_TOLERANCE_BYTES <= x) l.*2 ->
       (test_heap_no_leak (scripted bridge_settings) w2).1 = Ok tt) /\
      (Forall (fun x => x < b - HEAP_LEAK_TOLERANCE_BYTES) l.*2 -> HEAP_LEAK_TOLERANCE_BYTES <= b ->
       (test_heap_no_leak (scripted bridge_settings) w2).1 = Raise AssertionError)).
Proof.
  intros w w1 w2. split; [vm_compute; reflexivity|]. split; [vm_compute; reflexivity|].
  eapply (leak_verdict_sound (scripted bridge_settings) 87 w); [apply surjective_pairing|done|done].
Defined.

(** [ready_since] survives a disagreement: modes that agree at the first and
    at the tenth sample only, three seconds apart, settle the wait. *)
Example agreement_need_not_hold :
  let d := [info_reply "tcp_bridge" "tcp_bridge" 269555] ++ replicate 8 (info_reply "tcp_bridge" "disabled" 269555)
             ++ [info_reply "tcp_bridge" "tcp_bridge" 269555] in
  (_wait_boot_settled (scripted bridge_settings) 87 (at_boot d)).1 = Ok (_SETTLED, 10%nat, 269555).
Proof. vm_compute. reflexivity. Qed.

(** Both ports disabled and the cache server off: no wait, no request to /info. *)
Example nothing_to_wait_for :
  let s := JObj (ports "disabled" "disabled" ++ [(_CACHE_ENABLED_KEY, JBool false)]) in
  (_wait_boot_settled (scripted s) 87 (at_boot slow_boot)).1 = Ok (_NO_SIGNAL_POSSIBLE, 0%nat, 0).
Proof. vm_compute. reflexivity. Qed.
