(* ===== verification/WebPort.v ===== *)
(** * The web-port test (src/api_tests/40_test_web_port.py)

    The test moves the web server of the device to another port, reboots it,
    and must put it back: every later test of the session talks to the default
    port.  Its restore retries, falls back to a second pass, judges the end
    state and has a time budget written out in constants.

    The device is a parameter: it answers a request made through a base URL
    (two host ports are forwarded to it).  The world is the network of
    [NetLog], on which every request is recorded with its base URL and its
    answer, and the warnings the test issued.  [time.monotonic] is free; a
    request takes the time the network says, a sleep exactly its length. *)

From Stdlib Require Import QArith Qminmax Lqa.
From stdpp Require Import base list gmap strings.
From Stdlib Require Import ZArith Lia.
From S2P Require Import Prelude PyStr QemuPorts Gateway ApiClient NetLog.

Open Scope Z_scope.

(** ** Constants *)

Definition ALT_PORT_GUEST : Z := _GUEST_ALT_WEB.
Definition ALT_PORT_HOST (slot : Z) : Z := ALT_WEB_HOST_PORT slot.
Definition DEFAULT_PORT_HOST (slot : Z) : Z := HTTP_HOST_PORT slot.
Definition DEFAULT_PORT_GUEST : Z := 80.

Definition _REACHABLE_TIMEOUT_S : Q := 5.
Definition _PROBE_TIMEOUT_S : Q := 2.
Definition _POLL_INTERVAL_S : Q := 1.
Definition _COLD_BOOT_WAIT_S : Q := 600.
Definition _RESTORE_PORT_WAIT_S : Q := 300.
Definition _RESTORE_DEFAULT_WAIT_S : Q := _COLD_BOOT_WAIT_S.
Definition _RESTORE_RETRY_PORT_WAIT_S : Q := 60.
Definition _RESTORE_RETRY_DEFAULT_WAIT_S : Q := 120.
Definition _RESTORE_REARM_S : Q := 300.
Definition _RESTORE_ATTEMPTS : nat := 4.
Definition _RESTORE_ATTEMPT_PAUSE_S : Q := 2.
Definition _RESTORE_REWRITE_ATTEMPTS : nat := 2.
Definition _RESTORE_READ_ATTEMPTS : nat := 3.
Definition _RESTORE_READ_PAUSE_S : Q := 2.
Definition _RESTORE_FAILFAST_WAIT_S : Q := 300.

Definition _CALL_AUTH_S : Q := 11.
Definition _CALL_INFO_S : Q := 11.
Definition _CALL_SETTINGS_S : Q := 31.
Definition _CALL_CMD_S : Q := 31.
Definition _URL_POLL_OVERRUN_S : Q := (_PROBE_TIMEOUT_S + _POLL_INTERVAL_S)%Q.
Definition _BASE_POLL_OVERRUN_S : Q := (2 * _PROBE_TIMEOUT_S + _POLL_INTERVAL_S)%Q.
Definition _READY_POLL_OVERRUN_S : Q := (_POLL_INTERVAL_S + _CALL_AUTH_S + _CALL_INFO_S)%Q.

Definition attempts_cost (attempts : nat) (call pause : Q) : Q :=
  (inject_Z (Z.of_nat attempts) * call + inject_Z (Z.of_nat attempts - 1) * pause)%Q.

Definition _WRITE_COST_S : Q :=
  attempts_cost _RESTORE_ATTEMPTS (_CALL_AUTH_S + _CALL_SETTINGS_S) _RESTORE_ATTEMPT_PAUSE_S.
Definition _REWRITE_COST_S : Q :=
  attempts_cost _RESTORE_REWRITE_ATTEMPTS (_CALL_AUTH_S + _CALL_SETTINGS_S) _RESTORE_ATTEMPT_PAUSE_S.
Definition _READ_COST_S : Q := attempts_cost _RESTORE_READ_ATTEMPTS _CALL_SETTINGS_S _RESTORE_READ_PAUSE_S.

Definition _BODY_BUDGET_S : Q :=
  (_REACHABLE_TIMEOUT_S + _CALL_SETTINGS_S + _CALL_CMD_S + (_COLD_BOOT_WAIT_S + _URL_POLL_OVERRUN_S)
   + _REACHABLE_TIMEOUT_S)%Q.

Definition _TEARDOWN_BUDGET_S : Q :=
  (_RESTORE_PORT_WAIT_S + _BASE_POLL_OVERRUN_S
   + _WRITE_COST_S
   + _CALL_AUTH_S + _CALL_CMD_S
   + _RESTORE_DEFAULT_WAIT_S + _URL_POLL_OVERRUN_S
   + _RESTORE_RETRY_PORT_WAIT_S + _BASE_POLL_OVERRUN_S
   + _WRITE_COST_S
   + _RESTORE_RETRY_DEFAULT_WAIT_S + _URL_POLL_OVERRUN_S
   + _RESTORE_REARM_S + _READY_POLL_OVERRUN_S
   + _READ_COST_S
   + _REWRITE_COST_S
   + _READ_COST_S)%Q.

Definition _FIXTURE_BUDGET_S : Q := 45.
Definition _TEST_TIMEOUT_S : Q := (_BODY_BUDGET_S + _TEARDOWN_BUDGET_S + _FIXTURE_BUDGET_S)%Q.

(** ** What the test reports *)

Inductive severity : Type := Error | Warning.

(** The descriptions the helpers hand back. *)
Inductive failure : Type :=
| NoAttempt
| PostStatus (settings auth : Z)
| NoSuccess (body : json)
| CmdStatus (cmd auth : Z)
| GetStatus (settings : Z)
| NoField
| AuthFailed (e : exn)
| Failed (e : exn).

Inductive problem : Type :=
| NowhereToWrite
| NotBack (write_errors : list failure)
| StillNotBack (write_errors : list failure)
| NotReady (e : exn)
| Unreadable (read_error : failure) (write_errors : list failure)
| WrongPort (readback : json) (write_errors : list failure)
| RestoreRaised (e : exn).

(** ** The network *)

Section Test.
Context {D : Type} (device : string -> request -> D -> outcome response * D).

Notation event := (event string).
Notation history := (history string).
Notation network := (aworld (D * history)).
Notation recorded := (recorded device).

Record pworld := PWorld { net : network; warned : list (problem * severity) }.

Definition on_net {A} (m : eff network A) : eff pworld A := fun w =>
  let (r, a) := m (net w) in (r, PWorld a (warned w)).

Definition pnow : eff pworld Q := on_net anow.
Definition psleep (d : Q) : eff pworld unit := on_net (asleep d).

(** [requests.get(url, timeout)] *)
Definition bare_get (base_url path : string) (t : Q) : eff network response :=
  bare device base_url (Request GET path None (scalar t)).

(** ** The helpers *)

Definition _is_reachable (base_url path : string) (timeout : Q) : eff network bool :=
  try_except (bare_get base_url path timeout ;;; ret true) (catches RequestException) (fun _ => ret false).

Fixpoint url_loop (fuel : nat) (base_url path : string) (deadline : Q) : eff network bool :=
  match fuel with
  | O => block
  | S fuel =>
      let* t := anow in
      if Qle_bool deadline t then ret false
      else
        let* up := _is_reachable base_url path _PROBE_TIMEOUT_S in
        if (up : bool) then ret true
        else asleep _POLL_INTERVAL_S ;;; url_loop fuel base_url path deadline
  end.

Definition _wait_for_url (fuel : nat) (base_url path : string) (timeout : Q) : eff network bool :=
  let* t := anow in url_loop fuel base_url path (t + timeout)%Q.

Definition favicon : string := "/favicon.webp".

Fixpoint first_serving (base_urls : list string) : eff network (option string) :=
  match base_urls with
  | [] => ret None
  | base_url :: base_urls =>
      let* up := _is_reachable base_url favicon _PROBE_TIMEOUT_S in
      if (up : bool) then ret (Some base_url) else first_serving base_urls
  end.

Fixpoint base_loop (fuel : nat) (base_urls : list string) (deadline : Q) : eff network (option string) :=
  match fuel with
  | O => block
  | S fuel =>
      let* t := anow in
      if Qle_bool deadline t then ret None
      else
        let* up := first_serving base_urls in
        match up with
        | Some base_url => ret (Some base_url)
        | None => asleep _POLL_INTERVAL_S ;;; base_loop fuel base_urls deadline
        end
  end.

Definition _wait_for_serving_base (fuel : nat) (base_urls : list string) (timeout : Q)
  : eff network (option string) :=
  let* t := anow in base_loop fuel base_urls (t + timeout)%Q.

Definition port_setting (port : Z) : json := JObj [("web_port", JNum port)].

(** One attempt of [_write_web_port]; [None] when the device confirmed. *)
Definition write_once (base_url : string) (port : Z) : eff network (option failure) :=
  with_client
    (try_except
       (let* auth_resp := auth (recorded base_url) DEFAULT_LOGIN DEFAULT_PASSWORD in
        let* resp := update_settings (recorded base_url) (port_setting port) in
        if negb (status_code resp =? 200)
        then ret (Some (PostStatus (status_code resp) (status_code auth_resp)))
        else
          let* body := lift (resp_json resp) in
          let* success := lift (py_get "success" body) in
          match success with
          | Some (JBool true) => ret None
          | _ => ret (Some (NoSuccess body))
          end)
       (catches Exception_) (fun e => ret (Some (Failed e)))).

(** With [more] attempts after this one. *)
Fixpoint write_loop (more : nat) (base_url : string) (port : Z) : eff network (option failure) :=
  let* error := write_once base_url port in
  match error, more with
  | None, _ => ret None
  | Some e, O => ret (Some e)
  | Some _, S more => asleep _RESTORE_ATTEMPT_PAUSE_S ;;; write_loop more base_url port
  end.

Definition _write_web_port (base_url : string) (port : Z) (attempts : nat) : eff network (option failure) :=
  match attempts with
  | O => ret (Some NoAttempt)
  | S more => write_loop more base_url port
  end.

(** [None] when the reboot fired. *)
Definition _reboot_via (base_url : string) : eff network (option failure) :=
  with_client
    (try_except
       (let* authed := try_except
          (let* r := auth (recorded base_url) DEFAULT_LOGIN DEFAULT_PASSWORD in ret (inl r))
          (catches RequestException) (fun e => ret (inr e)) in
        match authed with
        | inr e => ret (Some (AuthFailed e))
        | inl auth_resp =>
            let* done := try_except
              (let* r := execute_command (recorded base_url) "reboot" in ret (Some r))
              (catches RequestException) (fun _ => ret None) in
            match done with
            | None => ret None
            | Some resp =>
                if status_code resp =? 200 then ret None
                else ret (Some (CmdStatus (status_code resp) (status_code auth_resp)))
            end
        end)
       (catches Exception_) (fun e => ret (Some (Failed e)))).

(** One attempt of [_read_web_port], through the fixture at [api_url]. *)
Definition read_once (api_url : string) : eff network (json + failure) :=
  try_except
    (let* resp := get_settings (recorded api_url) in
     if negb (status_code resp =? 200) then ret (inr (GetStatus (status_code resp)))
     else
       let* body := lift (resp_json resp) in
       let* present := lift (py_in "web_port" body) in
       if (present : bool) then let* v := lift (jindex "web_port" body) in ret (inl v)
       else ret (inr NoField))
    (catches Exception_) (fun e => ret (inr (Failed e))).

Fixpoint read_loop (more : nat) (api_url : string) : eff network (json + failure) :=
  let* got := read_once api_url in
  match got, more with
  | inl v, _ => ret (inl v)
  | inr e, O => ret (inr e)
  | inr _, S more => asleep _RESTORE_READ_PAUSE_S ;;; read_loop more api_url
  end.

(** [inr] is [(_UNREADABLE, description)]. *)
Definition _read_web_port (api_url : string) : eff network (json + failure) :=
  read_loop (pred _RESTORE_READ_ATTEMPTS) api_url.

Definition note (error : option failure) (write_errors : list failure) : list failure :=
  match error with Some e => write_errors ++ [e] | None => write_errors end.

Definition is_default (readback : json + failure) : bool :=
  match readback with inl v => jeq_int v DEFAULT_PORT_GUEST | inr _ => false end.

(** The readback, the rewrite and the second readback. *)
Definition confirm (api_url default_url : string) (write_errors : list failure)
  : eff network (option (problem * severity)) :=
  let* readback := _read_web_port api_url in
  if is_default readback then ret None
  else
    let* error := _write_web_port default_url DEFAULT_PORT_GUEST _RESTORE_REWRITE_ATTEMPTS in
    let write_errors := note error write_errors in
    let* readback := _read_web_port api_url in
    if is_default readback then ret None
    else match readback with
         | inr read_error => ret (Some (Unreadable read_error write_errors, Warning))
         | inl v => ret (Some (WrongPort v write_errors, Error))
         end.

(** Once the default port answers: re-arm the fixture, then confirm. *)
Definition rearm (fuel : nat) (api_url default_url : string) (write_errors : list failure)
  : eff network (option (problem * severity)) :=
  let* ready := try_except
    (wait_for_ready (recorded api_url) fuel _RESTORE_REARM_S 1 ;;; ret None)
    (catches Exception_) (fun e => ret (Some e)) in
  match ready with
  | Some e => ret (Some (NotReady e, Error))
  | None => confirm api_url default_url write_errors
  end.

(** The second pass, when the default port did not come back. *)
Definition second_pass (fuel : nat) (api_url alt_url default_url : string) (write_errors : list failure)
  : eff network (option (problem * severity)) :=
  let* retry_base := _wait_for_serving_base fuel [alt_url; default_url] _RESTORE_RETRY_PORT_WAIT_S in
  match retry_base with
  | None => ret (Some (NotBack write_errors, Error))
  | Some retry_base =>
      let* error := _write_web_port retry_base DEFAULT_PORT_GUEST _RESTORE_ATTEMPTS in
      let write_errors := note error write_errors in
      let* back := _wait_for_url fuel default_url favicon _RESTORE_RETRY_DEFAULT_WAIT_S in
      if (back : bool) then rearm fuel api_url default_url write_errors
      else ret (Some (StillNotBack write_errors, Error))
  end.

Definition _restore_default_web_port (fuel : nat) (api_url alt_url default_url : string)
    (port_wait_s default_wait_s : Q) (allow_reboot : bool) : eff network (option (problem * severity)) :=
  let* base_url := _wait_for_serving_base fuel [alt_url; default_url] port_wait_s in
  match base_url with
  | None => ret (Some (NowhereToWrite, Error))
  | Some base_url =>
      let* error := _write_web_port base_url DEFAULT_PORT_GUEST _RESTORE_ATTEMPTS in
      let write_errors := note error [] in
      let* write_errors :=
        (if String.eqb base_url alt_url && allow_reboot
         then let* error := _reboot_via alt_url in ret (note error write_errors)
         else ret write_errors) in
      let* back := _wait_for_url fuel default_url favicon default_wait_s in
      if (back : bool) then rearm fuel api_url default_url write_errors
      else second_pass fuel api_url alt_url default_url write_errors
  end.

(** ** The test *)

Definition body (fuel : nat) (api_url alt_url default_url : string) : eff network unit :=
  let* resp := update_settings (recorded api_url) (port_setting ALT_PORT_GUEST) in
  assert (status_code resp =? 200) ;;;
  let* j := lift (resp_json resp) in
  let* success := lift (py_get "success" j) in
  assert (match success with Some (JBool true) => true | _ => false end) ;;;
  try_except (execute_command (recorded api_url) "reboot" ;;; ret tt) (catches Exception_) (fun _ => ret tt) ;;;
  let* ready := _wait_for_url fuel alt_url favicon _COLD_BOOT_WAIT_S in
  assert ready ;;;
  let* still := _is_reachable default_url "" _REACHABLE_TIMEOUT_S in
  assert (negb still).

Definition warn (p : problem * severity) : eff pworld unit :=
  modify (fun w => PWorld (net w) (warned w ++ [p])).

(** The [finally] block; [body_failed] is [sys.exc_info()[0] is not None]. *)
Definition teardown (fuel : nat) (api_url alt_url default_url : string) (body_failed : bool) : eff pworld unit :=
  let default_wait_s := if body_failed then _RESTORE_FAILFAST_WAIT_S else _RESTORE_DEFAULT_WAIT_S in
  let* found := on_net (try_except
    (_restore_default_web_port fuel api_url alt_url default_url _RESTORE_PORT_WAIT_S default_wait_s
       (negb body_failed))
    (catches Exception_) (fun e => ret (Some (RestoreRaised e, Error)))) in
  match found with
  | None => ret tt
  | Some (p, sev) =>
      if body_failed || (match sev with Warning => true | Error => false end) then warn (p, sev)
      else raise RuntimeError
  end.

(** [hostname] is [urlparse(api.base_url).hostname]. *)
Definition host_of (hostname : option string) : string :=
  match hostname with None | Some "" => "localhost" | Some h => h end.

Definition url (host : string) (port : Z) : string := "http://" +:+ host +:+ ":" +:+ show_Z port.

Definition test_web_port_change (fuel : nat) (slot : Z) (hostname : option string) (api_url : string)
    (is_qemu : bool) : eff pworld unit :=
  if negb is_qemu then raise PytestSkip
  else
    let host := host_of hostname in
    let default_url := url host (DEFAULT_PORT_HOST slot) in
    let alt_url := url host (ALT_PORT_HOST slot) in
    let* up := on_net (_is_reachable default_url "" _REACHABLE_TIMEOUT_S) in
    assert up ;;;
    try_finally_exc (on_net (body fuel api_url alt_url default_url))
      (teardown fuel api_url alt_url default_url).

(** ** What the helpers show and cost *)

Context (fuel : nat).
Notation runs := (runs device false fuel 600).
Notation ordinary := (ordinary false).
Notation behaved := (behaved false).
Notation nice := (nice device fuel 600).

(** A GET of a URL that was answered, or that the network refused. *)
Definition answered (base_url path : string) (e : event) : Prop :=
  exists t r, e = Asked base_url (Request GET path None t) (Ok r).
Definition refused (base_url path : string) (e : event) : Prop :=
  exists t x, e = Asked base_url (Request GET path None t) (Raise x) /\ catches RequestException x = true.

Lemma runs_reachable base_url path t :
  (0 <= t)%Q ->
  runs t (_is_reachable base_url path t)
    (fun up h => in_order [if (up : bool) then answered base_url path else refused base_url path] h).
Proof.
  intros Ht a. unfold _is_reachable, try_except, bind, bare_get. set (q := Request GET path None (scalar t)).
  destruct (bare_spec (device := device) (skips := false) (fuel := fuel) (limit := 600) base_url q a) as (r & G & E & B).
  exists [Asked base_url q r]. destruct (bare device base_url q a) as [r' a']. cbn [fst snd] in *. subst r'.
  destruct r as [x|e|]; [| destruct (catches RequestException e) eqn:Ec |]; cbn [fst snd ret];
    (split_and!; [exact G| |intros N; destruct (B N); by split]).
  - intros y [= <-]. apply in_order_one. by exists (scalar t), x.
  - intros y [= <-]. apply in_order_one. by exists (scalar t), e.
  - done.
  - done.
Qed.

Definition up_or_not (base_url path : string) (up : bool) (h : history) : Prop :=
  up = true -> in_order [answered base_url path] h.

Lemma runs_wait_url base_url path t : (0 <= t)%Q -> (t <= 600)%Q ->
  runs (t + _URL_POLL_OVERRUN_S) (_wait_for_url fuel base_url path t) (up_or_not base_url path).
Proof.
  intros H0 H6 a. unfold _wait_for_url, bind, anow. cbn [fst snd].
  apply (poll_runs (fun n => url_loop n base_url path (now a + t)) (now a + t)); try done; try reflexivity.
  - intros n a1 Hl. cbn [url_loop]. unfold bind, anow. rewrite (late_now _ _ Hl). cbn [fst snd ret]. split; [|done].
    exists []. split_and!; [apply grown_refl|intros x [= <-]; by intros|]. intros _. split; [done|done|lra|intros _; lra].
  - intros n a1 Hl. cbn [url_loop]. unfold bind, anow. rewrite (early_now _ _ Hl). cbn [fst snd].
    destruct (runs_reachable base_url path _PROBE_TIMEOUT_S ltac:(done) a1) as (h & G & P & B).
    destruct (_is_reachable base_url path _PROBE_TIMEOUT_S a1) as [[[]|e|] a2]; cbn [fst snd ret] in *.
    + left. apply (finished _ _ _ h _PROBE_TIMEOUT_S); [done|done|done|]. intros x [= <-] _. exact (P true eq_refl).
    + right. eexists. split; [|reflexivity]. by apply (slept a1 (Ok false) a2 h _PROBE_TIMEOUT_S _POLL_INTERVAL_S).
    + left. by apply (finished _ _ _ h _PROBE_TIMEOUT_S).
    + left. by apply (finished _ _ _ h _PROBE_TIMEOUT_S).
  - intros x h0 h Hx Hup. by apply in_order_after, Hx.
Qed.

Lemma runs_first_serving l :
  runs (inject_Z (Z.of_nat (length l)) * _PROBE_TIMEOUT_S) (first_serving l) (fun _ _ => True).
Proof.
  induction l as [|b l IH]; [by apply runs_ret|]. cbn [first_serving length].
  assert (0 <= inject_Z (Z.of_nat (length l)) * _PROBE_TIMEOUT_S)%Q as Hl.
  { assert (0 <= inject_Z (Z.of_nat (length l)))%Q by (change 0%Q with (inject_Z 0); rewrite <- Zle_Qle; lia).
    unfold _PROBE_TIMEOUT_S. lra. }
  eapply runs_weaken; [eapply (runs_bind _ (inject_Z (Z.of_nat (length l)) * _PROBE_TIMEOUT_S) _ _ _ (fun _ _ => True));
    [exact Hl|by apply runs_reachable|]| |done].
  - intros [] h _.
    + eapply runs_weaken; [by apply (runs_ret _ (fun _ _ => True))|exact Hl|done].
    + eapply runs_weaken; [exact IH|lra|done].
  - rewrite Nat2Z.inj_succ, <- Z.add_1_r, inject_Z_plus. change (inject_Z 1) with 1%Q. unfold _PROBE_TIMEOUT_S. lra.
Qed.

Lemma runs_serving_base b1 b2 t : (0 <= t)%Q -> (t <= 600)%Q ->
  runs (t + _BASE_POLL_OVERRUN_S) (_wait_for_serving_base fuel [b1; b2] t) (fun _ _ => True).
Proof.
  intros H0 H6 a. unfold _wait_for_serving_base, bind, anow. cbn [fst snd].
  apply (poll_runs (fun n => base_loop n [b1; b2] (now a + t)) (now a + t)); try done; try reflexivity.
  - intros n a1 Hl. cbn [base_loop]. unfold bind, anow. rewrite (late_now _ _ Hl). cbn [fst snd ret]. split; [|done].
    exists []. split_and!; [apply grown_refl|done|]. intros _. split; [done|done|lra|intros _; lra].
  - intros n a1 Hl. cbn [base_loop]. unfold bind, anow. rewrite (early_now _ _ Hl). cbn [fst snd].
    destruct (runs_first_serving [b1; b2] a1) as (h & G & P & B).
    destruct (first_serving [b1; b2] a1) as [[[u|]|e|] a2]; cbn [fst snd ret] in *.
    + left. by eapply (finished _ _ _ h).
    + right. eexists. split; [|reflexivity]. by apply (slept a1 (Ok (@None string)) a2 h _ _POLL_INTERVAL_S).
    + left. by eapply (finished _ _ _ h).
    + left. by eapply (finished _ _ _ h).
Qed.

(** [GET /settings] answered 200 with a [web_port]. *)
Definition port_read (api_url : string) (v : json) (e : event) : Prop :=
  exists r fields, e = Asked api_url (Request GET "/settings" None (scalar 30)) (Ok r) /\ status_code r = 200 /\
    body_json r = Some (JObj fields) /\ jget "web_port" fields = Some v.
(** [POST /settings] of a web port, answered 200 with [success]. *)
Definition port_written (base_url : string) (port : Z) (e : event) : Prop :=
  exists r fields, e = Asked base_url (Request POST "/settings" (Some (port_setting port)) (scalar 30)) (Ok r) /\
    status_code r = 200 /\ body_json r = Some (JObj fields) /\ jget "success" fields = Some (JBool true).

(** ** The helpers of the restore *)

Lemma runs_write_once base_url port :
  runs (_CALL_AUTH_S + _CALL_SETTINGS_S) (write_once base_url port) anything.
Proof.
  apply runs_client. eapply runs_le; [apply (runs_try (_CALL_AUTH_S + _CALL_SETTINGS_S) 0); [done| |]|done].
  - eapply runs_bind; [done|by apply (runs_call _ _ _CALL_AUTH_S anything)|]. intros ar h _.
    eapply runs_le; [apply (runs_bind _CALL_SETTINGS_S 0 _ _ anything); [done|by apply runs_call|]|done].
    intros r h' _. destruct (negb _); [by apply runs_ret|].
    apply runs_lift_bind; [done|apply ordinary_json|]. intros j _.
    apply runs_lift_bind; [done|apply ordinary_get|]. intros [[| [] | | | |]|] _; by apply runs_ret.
  - intros e h. by apply runs_ret.
Qed.

(** What [more + 1] attempts of at most [call] seconds cost. *)
Lemma attempts_cost_S more call pause :
  (attempts_cost (S (S more)) call pause == call + (pause + attempts_cost (S more) call pause))%Q.
Proof.
  unfold attempts_cost. replace (Z.of_nat (S (S more))) with (Z.of_nat more + 2) by lia.
  replace (Z.of_nat (S more)) with (Z.of_nat more + 1) by lia.
  replace (Z.of_nat more + 2 - 1) with (Z.of_nat more + 1) by lia.
  replace (Z.of_nat more + 1 - 1) with (Z.of_nat more) by lia. rewrite !inject_Z_plus.
  change (inject_Z 1) with 1%Q. change (inject_Z 2) with 2%Q. ring.
Qed.

Lemma attempts_cost_nonneg more call pause :
  (0 <= call)%Q -> (0 <= pause)%Q -> (call <= attempts_cost (S more) call pause)%Q.
Proof.
  intros Hc Hp. induction more as [|more IH].
  - unfold attempts_cost. change (inject_Z (Z.of_nat 1)) with 1%Q. change (inject_Z (Z.of_nat 1 - 1)) with 0%Q. lra.
  - rewrite attempts_cost_S. lra.
Qed.

Lemma runs_write base_url port more :
  runs (attempts_cost (S more) (_CALL_AUTH_S + _CALL_SETTINGS_S) _RESTORE_ATTEMPT_PAUSE_S)
    (_write_web_port base_url port (S more)) anything.
Proof.
  cbn [_write_web_port]. induction more as [|more IH]; cbn [write_loop].
  - eapply runs_le; [eapply (runs_bind _ 0); [done|apply runs_write_once|]|done]. intros [e|] h _; by apply runs_ret.
  - set (rest := attempts_cost (S more) _ _) in *.
    assert (0 <= rest)%Q as Hr.
    { eapply Qle_trans; [|by apply attempts_cost_nonneg]. done. }
    eapply runs_le; [eapply (runs_bind _ (_RESTORE_ATTEMPT_PAUSE_S + rest)); [unfold _RESTORE_ATTEMPT_PAUSE_S; lra
      |apply runs_write_once|]|rewrite attempts_cost_S; apply Qle_refl].
    intros [e|] h _.
    + eapply (runs_bind _RESTORE_ATTEMPT_PAUSE_S rest); [done|by apply runs_sleep|]. intros _ h' _. exact IH.
    + eapply runs_le; [by apply runs_ret|]. unfold _RESTORE_ATTEMPT_PAUSE_S. lra.
Qed.

Definition read_shows (api_url : string) (got : json + failure) (h : history) : Prop :=
  match got with inl v => in_order [port_read api_url v] h | inr _ => True end.

Lemma runs_read_once api_url : runs _CALL_SETTINGS_S (read_once api_url) (read_shows api_url).
Proof.
  eapply runs_le; [apply (runs_try _CALL_SETTINGS_S 0); [done| |]|done].
  - eapply runs_le; [eapply (runs_bind _CALL_SETTINGS_S 0 _ _
      (fun r h => h = [Asked api_url (Request GET "/settings" None (scalar 30)) (Ok r)])); [done|by apply runs_call|]|done].
    intros r h ->. destruct (negb (status_code r =? 200)) eqn:Es; [by apply runs_ret|]. bool_to_prop.
    apply runs_lift_bind; [done|apply ordinary_json|]. intros j Hj.
    apply runs_lift_bind; [done|apply ordinary_in|]. intros [] _; [|by apply runs_ret].
    apply runs_lift_bind; [done|apply ordinary_item|]. intros v Hv. apply runs_ret. rewrite app_nil_r.
    apply in_order_one. unfold resp_json in Hj. destruct (body_json r) as [j'|] eqn:Ej; [|done]. injection Hj as ->.
    destruct j as [| | | | |fields]; try done. cbn in Hv. destruct (jget "web_port" fields) as [v'|] eqn:Ev; [|done].
    injection Hv as ->. by exists r, fields.
  - intros e h. by apply runs_ret.
Qed.

Lemma read_shows_after api_url got h0 h : read_shows api_url got h -> read_shows api_url got (h0 ++ h).
Proof. destruct got; [apply in_order_after|done]. Qed.

Lemma runs_read_loop api_url more :
  runs (attempts_cost (S more) _CALL_SETTINGS_S _RESTORE_READ_PAUSE_S) (read_loop more api_url) (read_shows api_url).
Proof.
  induction more as [|more IH]; cbn [read_loop].
  - eapply runs_le; [eapply (runs_bind _ 0); [done|apply runs_read_once|]|done].
    intros [v|e] h Hh; apply runs_ret; [by rewrite app_nil_r|done].
  - set (rest := attempts_cost (S more) _ _) in *.
    assert (0 <= rest)%Q as Hr.
    { eapply Qle_trans; [|by apply attempts_cost_nonneg]. done. }
    eapply runs_le; [eapply (runs_bind _ (_RESTORE_READ_PAUSE_S + rest)); [unfold _RESTORE_READ_PAUSE_S; lra
      |apply runs_read_once|]|rewrite attempts_cost_S; apply Qle_refl].
    intros [v|e] h Hh.
    + eapply runs_le; [by apply runs_ret; rewrite app_nil_r|]. unfold _RESTORE_READ_PAUSE_S. lra.
    + eapply (runs_bind _RESTORE_READ_PAUSE_S rest); [done|by apply runs_sleep|]. intros _ h' ->.
      eapply runs_weaken; [exact IH|lra|]. intros x h'' Hx. by apply read_shows_after.
Qed.

Lemma runs_reboot base_url : runs (_CALL_AUTH_S + _CALL_CMD_S) (_reboot_via base_url) anything.
Proof.
  apply runs_client. eapply runs_le; [apply (runs_try (_CALL_AUTH_S + _CALL_CMD_S) 0); [done| |]|done].
  - eapply (runs_bind _CALL_AUTH_S _CALL_CMD_S _ _ anything); [done| |].
    + eapply runs_le; [apply (runs_try _CALL_AUTH_S 0); [done| |]|done]; [|by intros; apply runs_ret].
      eapply runs_le; [eapply (runs_bind _CALL_AUTH_S 0 _ _ anything); [done|by apply runs_call|]|done].
      intros; by apply runs_ret.
    + intros [ar|e] h _; [|by eapply runs_le; [apply runs_ret|]].
      eapply runs_le; [eapply (runs_bind _CALL_CMD_S 0 _ _ anything); [done| |]|done].
      * eapply runs_le; [apply (runs_try _CALL_CMD_S 0); [done| |]|done]; [|by intros; apply runs_ret].
        eapply runs_le; [eapply (runs_bind _CALL_CMD_S 0 _ _ anything); [done|by apply runs_call|]|done].
        intros; by apply runs_ret.
      * intros [r|] h' _; [|by apply runs_ret]. destruct (status_code r =? 200); by apply runs_ret.
  - intros e h. by apply runs_ret.
Qed.

(** ** The restore *)

Definition confirmed (api_url : string) : list (event -> Prop) := [port_read api_url (JNum DEFAULT_PORT_GUEST)].
Definition rearmed (api_url : string) : list (event -> Prop) := back_up api_url ++ confirmed api_url.
Definition restored (api_url default_url : string) : list (event -> Prop) :=
  answered default_url favicon :: rearmed api_url.

(** No problem was reported only if the record shows [Ps]. *)
Definition sound (Ps : list (event -> Prop)) (found : option (problem * severity)) (h : history) : Prop :=
  found = None -> in_order Ps h.

Lemma sound_after Ps found h0 h : sound Ps found h -> sound Ps found (h0 ++ h).
Proof. intros H E. by apply in_order_after, H. Qed.

Lemma runs_problem Ps b p h : (0 <= b)%Q -> runs b (ret (Some p)) (fun x h' => sound Ps x (h ++ h')).
Proof. intros Hb. eapply runs_le; [by apply runs_ret|done]. Qed.

Lemma default_read api_url got h :
  read_shows api_url got h -> is_default got = true -> in_order (confirmed api_url) h.
Proof.
  destruct got as [[| [] |n | | |]|e]; try done. cbn. intros H ->%Z.eqb_eq. exact H.
Qed.

(** Forget the record so far. *)
Lemma runs_forget b (m : eff network (option (problem * severity))) Ps h :
  runs b m (sound Ps) -> runs b m (fun x h' => sound Ps x (h ++ h')).
Proof. intros H. eapply runs_weaken; [exact H|apply Qle_refl|]. intros x h'. apply sound_after. Qed.

Lemma runs_confirm api_url default_url errs :
  runs (_READ_COST_S + (_REWRITE_COST_S + (_READ_COST_S + 0))) (confirm api_url default_url errs)
    (sound (confirmed api_url)).
Proof.
  eapply runs_bind; [done|apply runs_read_loop|]. intros got h Hg.
  destruct (is_default got) eqn:E1.
  { eapply runs_le; [apply runs_ret|done]. intros _. rewrite app_nil_r. by eapply default_read. }
  apply runs_forget. eapply runs_then; [done|apply runs_write|intros; by apply sound_after|].
  intros error. eapply runs_bind; [done|apply runs_read_loop|]. intros got' h' Hg'.
  destruct (is_default got') eqn:E2; [|destruct got'; by apply runs_ret].
  apply runs_ret. intros _. rewrite app_nil_r. by eapply default_read.
Qed.

Definition rearm_cost : Q :=
  (_RESTORE_REARM_S + _READY_POLL_OVERRUN_S + (_READ_COST_S + (_REWRITE_COST_S + (_READ_COST_S + 0))))%Q.

Lemma runs_rearm api_url default_url errs :
  runs rearm_cost (rearm fuel api_url default_url errs) (sound (rearmed api_url)).
Proof.
  eapply (runs_bind _ _ _ _ (fun ready h => ready = None -> in_order (back_up api_url) h)); [done| |].
  - eapply runs_le; [eapply (runs_try (_RESTORE_REARM_S + _READY_POLL_OVERRUN_S) 0); [done| |]|lra].
    + eapply runs_le; [eapply (runs_bind _ 0); [done|by apply runs_wait_for_ready|]|done].
      intros u h Hh. apply runs_ret. by rewrite app_nil_r.
    + intros e h. by apply runs_ret.
  - intros [e|] h Hh; [by apply runs_problem|]. eapply runs_weaken; [apply runs_confirm|apply Qle_refl|].
    intros x h' Hx E. apply (in_order_app (back_up api_url) (confirmed api_url)); auto.
Qed.

(** The default port answered, then the fixture was re-armed. *)
Lemma runs_back api_url default_url errs (up : bool) h b k :
  (rearm_cost <= b)%Q -> up_or_not default_url favicon up h -> runs b k (sound (restored api_url default_url)) ->
  runs b (if up then rearm fuel api_url default_url errs else k)
    (fun x h' => sound (restored api_url default_url) x (h ++ h')).
Proof.
  intros Hb Hu Hk. destruct up; [|by apply runs_forget].
  eapply runs_weaken; [apply runs_rearm|exact Hb|]. intros x h' Hx E.
  apply (in_order_app [answered default_url favicon] (rearmed api_url)); auto.
Qed.

Definition second_cost : Q :=
  (_RESTORE_RETRY_PORT_WAIT_S + _BASE_POLL_OVERRUN_S
   + (_WRITE_COST_S + (_RESTORE_RETRY_DEFAULT_WAIT_S + _URL_POLL_OVERRUN_S + rearm_cost)))%Q.

Lemma runs_second_pass api_url alt_url default_url errs :
  runs second_cost (second_pass fuel api_url alt_url default_url errs) (sound (restored api_url default_url)).
Proof.
  eapply runs_then; [done|by apply runs_serving_base|intros; by apply sound_after|].
  intros [base|]; [|by apply (runs_problem _ _ _ [])].
  eapply runs_then; [done|apply runs_write|intros; by apply sound_after|]. intros error.
  eapply runs_bind; [done|by apply runs_wait_url|]. intros up h Hu.
  apply runs_back; [apply Qle_refl|done|]. by apply (runs_problem _ _ _ []).
Qed.

Definition restore_cost (default_wait_s : Q) : Q :=
  (_RESTORE_PORT_WAIT_S + _BASE_POLL_OVERRUN_S
   + (_WRITE_COST_S + (_CALL_AUTH_S + _CALL_CMD_S + (default_wait_s + _URL_POLL_OVERRUN_S + second_cost))))%Q.

Lemma runs_restore api_url alt_url default_url default_wait_s allow_reboot :
  (0 <= default_wait_s)%Q -> (default_wait_s <= 600)%Q ->
  runs (restore_cost default_wait_s)
    (_restore_default_web_port fuel api_url alt_url default_url _RESTORE_PORT_WAIT_S default_wait_s allow_reboot)
    (sound (restored api_url default_url)).
Proof.
  intros H0 H6.
  assert (0 <= second_cost)%Q as Hs by done. assert (0 <= _URL_POLL_OVERRUN_S)%Q as Hu by done.
  assert (0 <= _CALL_AUTH_S + _CALL_CMD_S)%Q as Hc by done. assert (0 <= _WRITE_COST_S)%Q as Hw by done.
  eapply runs_then; [lra|by apply runs_serving_base|intros; by apply sound_after|].
  intros [base|]; [|apply (runs_problem _ _ _ []); lra].
  eapply runs_then; [lra|apply runs_write|intros; by apply sound_after|]. intros error.
  eapply runs_then; [lra| |intros; by apply sound_after|].
  - destruct (String.eqb base alt_url && allow_reboot); [|by eapply runs_le; [apply runs_ret|]].
    eapply runs_le; [eapply (runs_bind _ 0); [done|apply runs_reboot|]|lra]. intros e h _. by apply runs_ret.
  - intros errs. eapply runs_bind; [done|by apply runs_wait_url|]. intros up h Hup.
    apply runs_back; [done|done|]. apply runs_second_pass.
Qed.

(** ** The test *)

Definition moved (api_url alt_url default_url : string) : list (event -> Prop) :=
  [port_written api_url ALT_PORT_GUEST; answered alt_url favicon; refused default_url ""].

Definition body_cost : Q :=
  (_CALL_SETTINGS_S + (_CALL_CMD_S + (_COLD_BOOT_WAIT_S + _URL_POLL_OVERRUN_S + (_REACHABLE_TIMEOUT_S + 0))))%Q.

Lemma runs_body api_url alt_url default_url :
  runs body_cost (body fuel api_url alt_url default_url) (fun _ => in_order (moved api_url alt_url default_url)).
Proof.
  eapply (runs_bind _ _ _ _
    (fun r h => h = [Asked api_url (Request POST "/settings" (Some (port_setting ALT_PORT_GUEST)) (scalar 30)) (Ok r)]));
    [done|by apply runs_call|].
  intros r h ->. apply runs_assert_bind; [done|]. intros E200%Z.eqb_eq.
  apply runs_lift_bind; [done|apply ordinary_json|]. intros j Hj.
  apply runs_lift_bind; [done|apply ordinary_get|]. intros success Hs.
  apply runs_assert_bind; [done|]. intros Hok.
  assert (port_written api_url ALT_PORT_GUEST
    (Asked api_url (Request POST "/settings" (Some (port_setting ALT_PORT_GUEST)) (scalar 30)) (Ok r))) as Hw.
  { unfold resp_json in Hj. destruct (body_json r) as [j'|] eqn:Ej; [|done]. injection Hj as ->.
    destruct j as [| | | | |fields]; try done. cbn in Hs. injection Hs as Hs.
    exists r, fields. split_and!; [done|done|done|]. rewrite Hs. by destruct success as [[| [] | | | |]|]. }
  eapply (runs_bind _ _ _ _ anything); [done| |].
  { eapply runs_le; [eapply (runs_try _CALL_CMD_S 0); [done| |]|done]; [|intros; by apply runs_ret].
    eapply runs_le; [eapply (runs_bind _CALL_CMD_S 0 _ _ anything); [done|by apply runs_call|]|done].
    intros; by apply runs_ret. }
  intros _ h1 _. eapply runs_bind; [done|by apply runs_wait_url|]. intros up h2 Hup.
  apply runs_assert_bind; [done|]. intros ->. specialize (Hup eq_refl).
  eapply runs_bind; [done|by apply runs_reachable|]. intros still h3 Hst. apply runs_assert. intros Hn.
  destruct still; [done|]. rewrite app_nil_r.
  apply (in_order_app [port_written api_url ALT_PORT_GUEST]); [by apply in_order_one|].
  apply in_order_after. by apply (in_order_app [answered alt_url favicon]).
Qed.

Lemma web_teardown_spec api_url alt_url default_url failed (w : pworld) :
  let t := teardown fuel api_url alt_url default_url failed w in
  exists h, grown (net w) (net t.2) h /\
    (t.1 = Ok tt -> warned t.2 = warned w -> in_order (restored api_url default_url) h) /\
    (nice (net w) -> behaved _TEARDOWN_BUDGET_S (net w) t.1 (net t.2) /\
       (t.1 = Ok tt \/ failed = false /\ t.1 = Raise RuntimeError)).
Proof.
  set (wait := if failed then _RESTORE_FAILFAST_WAIT_S else _RESTORE_DEFAULT_WAIT_S).
  assert (0 <= wait <= 600)%Q as [W0 W6] by (unfold wait; by destruct failed).
  assert (runs (restore_cost wait + 0)
    (try_except (_restore_default_web_port fuel api_url alt_url default_url _RESTORE_PORT_WAIT_S wait (negb failed))
       (catches Exception_) (fun e => ret (Some (RestoreRaised e, Error)))) (sound (restored api_url default_url))) as R.
  { apply runs_try; [done|by apply runs_restore|]. intros e h. by apply runs_ret. }
  assert (restore_cost wait + 0 <= _TEARDOWN_BUDGET_S)%Q as Hb by (unfold wait; by destruct failed).
  cbv zeta. unfold teardown. fold wait. unfold bind, on_net.
  destruct (R (net w)) as (h & G & P & B). exists h.
  destruct (try_except _ _ _ (net w)) as [[found|e|] a] eqn:E; cbn [fst snd net warned] in *.
  - destruct found as [[p sev]|]; [|cbn [ret fst snd net warned]; split_and!; [done|by intros; apply (P None)|]; intros N; destruct (B N) as [O S L T];
      split; [split; [done|done|done|intros Ht; specialize (T Ht); lra]|by left]].
    destruct (failed || _) eqn:Ef; cbn [fst snd net warned warn modify raise];
      (split_and!; [done| |intros N; destruct (B N) as [O S L T];
         split; [split; [done|done|done|intros Ht; specialize (T Ht); lra]|]]).
    + intros _ Hw. exfalso. apply (f_equal length) in Hw. rewrite length_app in Hw. cbn in Hw. lia.
    + by left.
    + done.
    + right. split; [|done]. by destruct failed.
  - split_and!; [done|done|]. intros N. exfalso. destruct (B N) as [O _ _ _]. unfold try_except in E.
    destruct (_restore_default_web_port _ _ _ _ _ _ _ _) as [[f|e'|] a']; try done.
    destruct (catches Exception_ e') eqn:Ec; [done|]. injection E as -> ->. cbn in O. destruct O as [O|[? _]]; congruence.
  - split_and!; [done|done|]. intros N. by destruct (B N) as [[] _ _ _].
Qed.

(** The probe that comes first, and the rest. *)
Lemma test_steps slot hostname api_url (w : pworld) :
  let host := host_of hostname in
  let default_url := url host (DEFAULT_PORT_HOST slot) in
  let alt_url := url host (ALT_PORT_HOST slot) in
  let t := test_web_port_change fuel slot hostname api_url true w in
  exists h r a, grown (net w) a h /\ _is_reachable default_url "" _REACHABLE_TIMEOUT_S (net w) = (r, a) /\
    (nice (net w) -> behaved _REACHABLE_TIMEOUT_S (net w) r a) /\
    let w1 := PWorld a (warned w) in
    match r with
    | Ok true => t = try_finally_exc (on_net (body fuel api_url alt_url default_url))
                       (teardown fuel api_url alt_url default_url) w1
    | Ok false => t = (Raise AssertionError, w1)
    | Raise e => t = (Raise e, w1)
    | Blocked => t = (Blocked, w1)
    end.
Proof.
  cbv zeta. set (default_url := url _ (DEFAULT_PORT_HOST slot)).
  destruct (runs_reachable default_url "" _REACHABLE_TIMEOUT_S ltac:(done) (net w)) as (h & G & _ & B).
  destruct (_is_reachable default_url "" _REACHABLE_TIMEOUT_S (net w)) as [r a] eqn:E.
  assert (on_net (_is_reachable default_url "" _REACHABLE_TIMEOUT_S) w = (r, PWorld a (warned w))) as Eo
    by (unfold on_net; by rewrite E).
  exists h, r, a. split_and!; [done|done|done|].
  destruct r as [[]|e|]; unfold test_web_port_change, bind; cbn [negb]; fold default_url; by rewrite Eo.
Qed.

(** What the [finally] block makes of the outcome of the body. *)
Lemma finally_verdict (r1 : outcome unit) (f : bool -> eff pworld unit) (w1 : pworld) :
  let failed := match r1 with Ok _ => false | _ => true end in
  ordinary r1 -> (f failed w1).1 = Ok tt \/ failed = false /\ (f failed w1).1 = Raise RuntimeError ->
  ordinary (f failed w1).1 ->
  exists r' w', (match r1 with
    | Ok _ => f false w1
    | Raise e => (f true ;;; raise e) w1
    | Blocked => (Blocked, w1)
    end) = (r', w') /\ w' = (f failed w1).2 /\ ordinary r' /\
    match r1 with
    | Ok _ => r' = Ok tt \/ r' = Raise RuntimeError
    | Raise e => r' = Raise e
    | Blocked => r' = Blocked
    end.
Proof.
  cbv zeta. destruct r1 as [[]|e|]; intros O1 V O2; [| |done].
  - destruct (f false w1) as [r2 w2]. cbn [fst snd] in *. exists r2, w2.
    split_and!; try done. destruct V as [->|[_ ->]]; auto.
  - unfold bind. destruct (f true w1) as [r2 w2]. cbn [fst snd] in *.
    destruct V as [->|[? _]]; [|done]. by exists (Raise e), w2.
Qed.

End Test.

(** C20. A pass means that the port moved and came back.  If the test passes
    without a warning, its requests show, in this order: the write of the new
    port was confirmed, the new port answered, the default port refused; then
    the default port answered again, the fixture sent its credentials to /auth
    and got an answer (whose status [wait_for_ready] does not look at), read
    /info with status 200, and a read of the settings gave the default port.
    Whatever the device does, however the requests fail, and however often
    the restore had to retry. *)
Theorem web_port_pass_means {D} (device : string -> request -> D -> outcome response * D) (fuel : nat) (slot : Z)
    (hostname : option string) (api_url : string) (is_qemu : bool) (w w' : pworld) :
  test_web_port_change device fuel slot hostname api_url is_qemu w = (Ok tt, w') -> warned w' = warned w ->
  let default_url := url (host_of hostname) (DEFAULT_PORT_HOST slot) in
  let alt_url := url (host_of hostname) (ALT_PORT_HOST slot) in
  exists h, (dev (net w')).2 = (dev (net w)).2 ++ h /\
    in_order (moved api_url alt_url default_url ++ restored api_url default_url) h.
Proof.
  destruct is_qemu; [|done]. intros E Hw. cbv zeta.
  destruct (test_steps device fuel slot hostname api_url w) as (h & r & a & G & _ & _ & Ht).
  rewrite E in Ht. destruct r as [[]|e|]; try done. unfold try_finally_exc, on_net in Ht. cbn [net warned] in Ht.
  set (default_url := url _ (DEFAULT_PORT_HOST slot)) in *. set (alt_url := url _ (ALT_PORT_HOST slot)) in *.
  destruct (runs_body device fuel api_url alt_url default_url a) as (h1 & G1 & P1 & _).
  destruct (body _ _ _ _ _ a) as [[[]|e|] a1]; cbn [fst snd] in *; [| |done].
  - pose proof (web_teardown_spec device fuel api_url alt_url default_url false (PWorld a1 (warned w))) as Hs.
    cbv zeta in Hs. rewrite <- Ht in Hs. destruct Hs as (h2 & G2 & P2 & _). cbn [fst snd net warned] in *.
    exists (h ++ (h1 ++ h2)). split.
    + by apply (grown_history _ _ _ (grown_trans _ _ _ _ _ G (grown_trans _ _ _ _ _ G1 G2))).
    + apply in_order_after, in_order_app; [exact (P1 tt eq_refl)|by apply P2].
  - unfold bind in Ht. by destruct (teardown _ _ _ _ _ _ _) as [[|?|] ?].
Qed.

(** C21. The test ends within its own budget, and its teardown never hides a
    failure.  On a device that answers or fails with an ordinary exception,
    with fuel for 600 rounds, the test ends; it leaves the fixture's session
    open and no other; if no request takes longer than its timeout, it is over
    within the body and the teardown budget, which with the allowance of the
    fixtures is the 2809 seconds of its alarm; a failure of the body is the
    verdict, and a pass of the body becomes a pass or a teardown error. *)
Theorem web_port_in_budget {D} (device : string -> request -> D -> outcome response * D) (fuel : nat) (slot : Z)
    (hostname : option string) (api_url : string) (w : pworld) :
  nice device fuel 600 (net w) ->
  let default_url := url (host_of hostname) (DEFAULT_PORT_HOST slot) in
  let alt_url := url (host_of hostname) (ALT_PORT_HOST slot) in
  let (r, w') := test_web_port_change device fuel slot hostname api_url true w in
  ordinary false r /\ open_sessions (net w') = open_sessions (net w) /\
  (timely (net w') -> (now (net w') - now (net w) <= _BODY_BUDGET_S + _TEARDOWN_BUDGET_S)%Q) /\
  (_TEST_TIMEOUT_S == _BODY_BUDGET_S + _TEARDOWN_BUDGET_S + _FIXTURE_BUDGET_S /\ _TEST_TIMEOUT_S == 2809)%Q /\
  forall a, _is_reachable device default_url "" _REACHABLE_TIMEOUT_S (net w) = (Ok true, a) ->
    match (body device fuel api_url alt_url default_url a).1 with
    | Ok _ => r = Ok tt \/ r = Raise RuntimeError
    | Raise e => r = Raise e
    | Blocked => r = Blocked
    end.
Proof.
  intros N. cbv zeta. destruct (test_steps device fuel slot hostname api_url w) as (h & r & a & G & Er & B & Ht).
  set (default_url := url _ (DEFAULT_PORT_HOST slot)) in *. set (alt_url := url _ (ALT_PORT_HOST slot)) in *.
  specialize (B N). pose proof (behaved_nice (device := device) (skips := false) _ _ _ _ _ G B N) as N1. destruct B as [O S L T].
  assert (0 <= _TEARDOWN_BUDGET_S)%Q as Htd by done.
  assert (_REACHABLE_TIMEOUT_S + body_cost == _BODY_BUDGET_S)%Q as Hbc by reflexivity.
  assert (0 <= body_cost)%Q as Hb0 by done.
  assert (_TEST_TIMEOUT_S == _BODY_BUDGET_S + _TEARDOWN_BUDGET_S + _FIXTURE_BUDGET_S /\ _TEST_TIMEOUT_S == 2809)%Q as Hc
    by (split; reflexivity).
  destruct r as [[]|e|]; [| | |done]; cycle 1.
  { rewrite Ht. split_and!; try done; [|by rewrite Er]. intros Hti. specialize (T Hti). cbn [net]. lra. }
  { rewrite Ht. split_and!; try done; [|by rewrite Er]. intros Hti. specialize (T Hti). cbn [net]. lra. }
  rewrite Ht, Er. clear Ht. unfold try_finally_exc, on_net. cbn [net warned].
  destruct (runs_body device fuel api_url alt_url default_url a) as (h1 & G1 & _ & B1). specialize (B1 N1).
  destruct (body device fuel api_url alt_url default_url a) as [r1 a1] eqn:Eb; cbn [fst snd] in *.
  pose proof (behaved_nice (device := device) (skips := false) _ _ _ _ _ G1 B1 N1) as N2. destruct B1 as [O1 S1 L1 T1].
  set (failed := match r1 with Ok _ => false | _ => true end).
  destruct (web_teardown_spec device fuel api_url alt_url default_url failed (PWorld a1 (warned w))) as (h2 & G2 & _ & B2).
  destruct (B2 N2) as [[O2 S2 L2 T2] V2]. clear B2.
  destruct (finally_verdict r1 (teardown device fuel api_url alt_url default_url) (PWorld a1 (warned w)) O1 V2 O2)
    as (r' & w' & -> & Hw' & Hr' & Hv).
  cbv zeta in Hw'. fold failed in Hw'. rewrite Hw'. split_and!; [done|cbn [net] in *; congruence| |by apply Hc|by apply Hc|].
  - intros Hti. specialize (T2 Hti). pose proof (grown_timely _ _ _ G2 Hti) as Ht1. specialize (T1 Ht1).
    specialize (T (grown_timely _ _ _ G1 Ht1)). cbn [net] in *. lra.
  - intros a' [= <-]. rewrite Eb. exact Hv.
Qed.

(** ** A device *)

(** The device keeps the guest port it serves; the two host ports of slot 0
    are forwarded to guest ports 80 and 8081, and a write of the setting moves
    the server at once. *)
Definition forwards (port : Z) (base_url : string) : bool :=
  String.eqb base_url (url "localhost" (if port =? 80 then DEFAULT_PORT_HOST 0 else ALT_PORT_HOST 0)).

Definition demo_answer (j : json) : outcome response := Ok (Response 200 "" (Some j) []).

Definition demo_device (base_url : string) (q : request) (port : Z) : outcome response * Z :=
  if negb (forwards port base_url) then (Raise RequestException, port)
  else match meth q, url_path q, payload q with
       | POST, "/settings", Some (JObj [("web_port", JNum p)]) => (demo_answer (JObj [("success", JBool true)]), p)
       | POST, "/cmd", _ => (Raise RequestException, port)
       | GET, "/settings", _ => (demo_answer (JObj [("web_port", JNum port)]), port)
       | _, _, _ => (demo_answer (JObj []), port)
       end.

Definition demo_world : pworld (D := Z) := PWorld (AWorld (80, []) [] ∅ 1 0 (fun _ => 1 # 2)) [].
Definition demo_run : outcome unit * pworld :=
  test_web_port_change demo_device 601 0 None (url "localhost" (DEFAULT_PORT_HOST 0)) true demo_world.

Lemma web_port_pass_means_witness : demo_run.1 = Ok tt /\ (dev (net demo_run.2)).1 = 80 /\
  exists h, (dev (net demo_run.2)).2 = h /\
    in_order (moved (url "localhost" (DEFAULT_PORT_HOST 0)) (url "localhost" (ALT_PORT_HOST 0))
                (url "localhost" (DEFAULT_PORT_HOST 0)) ++
              restored (url "localhost" (DEFAULT_PORT_HOST 0)) (url "localhost" (DEFAULT_PORT_HOST 0))) h.
Proof.
  split; [vm_compute; reflexivity|]. split; [vm_compute; reflexivity|].
  apply (web_port_pass_means demo_device 601 0 None (url "localhost" (DEFAULT_PORT_HOST 0)) true demo_world demo_run.2).
  - vm_compute. reflexivity.
  - vm_compute. reflexivity.
Defined.

Lemma demo_nice : nice demo_device 601 600 (net demo_world).
Proof.
  split; [lia| |intros n; vm_compute; discriminate|cbn; lia].
  intros base_url q d. unfold demo_device. destruct (negb _); [done|].
  destruct (meth q), (url_path q) as [|c s]; try done; repeat split_match; done.
Qed.

Lemma demo_timely : timely (net demo_run.2).
Proof.
  assert (cost (net demo_run.2) = (fun _ => 1 # 2)) as E by (vm_compute; reflexivity).
  assert (forallb (fun q => Qle_bool (1 # 2) (timeout q).2) (log (net demo_run.2)) = true) as H
    by (vm_compute; reflexivity).
  intros n q Hq. rewrite E. split; [by vm_compute|]. apply Qle_bool_iff.
  apply (proj1 (forallb_forall _ _) H). apply list_elem_of_In. by eapply list_elem_of_lookup_2.
Qed.

Lemma web_port_in_budget_witness :
  ordinary false demo_run.1 /\ (now (net demo_run.2) - 0 <= _BODY_BUDGET_S + _TEARDOWN_BUDGET_S)%Q.
Proof.
  pose proof demo_timely as Ht. revert Ht.
  pose proof (web_port_in_budget demo_device 601 0 None (url "localhost" (DEFAULT_PORT_HOST 0)) demo_world demo_nice) as H.
  cbv zeta in H. unfold demo_run.
  destruct (test_web_port_change _ _ _ _ _ _ _) as [r w']. destruct H as (H1 & _ & H2 & _). intros Ht.
  split; [exact H1|exact (H2 Ht)].
Defined.

(** A device that takes no write once its port has moved: the pass of the body
    becomes a teardown error. *)
Definition stuck_device (base_url : string) (q : request) (port : Z) : outcome response * Z :=
  match meth q, url_path q with
  | POST, "/settings" => if port =? 80 then demo_device base_url q port
                         else (demo_answer (JObj [("success", JBool false)]), port)
  | _, _ => demo_device base_url q port
  end.

Example stuck_device_fails :
  (test_web_port_change stuck_device 601 0 None (url "localhost" (DEFAULT_PORT_HOST 0)) true demo_world).1 =
  Raise RuntimeError.
Proof. vm_compute. reflexivity. Qed.
