(* ===== verification/AuthRing.v ===== *)
(** * The firmware's session store (src/main/auth.c)

    Ten session ids in a ring, a copy of it in RTC memory that survives a
    software reset, and the handlers of /auth, /logout and /session.  The
    tests of 33_test_auth_settings.py (AuthTests) judge the device by these
    rules.

    What the store uses of ESP-IDF and cJSON is a parameter: the stream of
    [esp_random], the cookie value [httpd_req_get_cookie_val] finds, whether
    [httpd_resp_set_hdr] has room, and [cJSON_GetObjectItem].  The mutex is
    held around each operation on the ring, so operations are atomic. *)

From Stdlib Require Import ZArith Lia Ascii String.
From stdpp Require Import base list sets strings.
From S2P Require Import Prelude PyStr QemuPorts ApiClient MbDevice.

Open Scope Z_scope.

Definition MAX_SESSIONS : nat := 10.
Definition COOKIE_MAX_LEN : nat := 11 + 10 + 35 + 1.
Definition SETTING_ITEM_MAX_STR_LEN : nat := 64.
Definition JSON_UTILS_REQ_RECV_BUF_SIZE : Z := 4096.

Record session_buffer_t := SessionBuffer {
  session_ids : list Z;
  current_index : nat
}.

Inductive reset_reason : Type := ESP_RST_SW | ESP_RST_OTHER.

(** What [auth_init] prints, and the tests look for. *)
Inductive auth_line : Type := SessionsLoaded | SessionsReset.

Record auth_state := AuthState {
  session_buffer : session_buffer_t;
  backup_session_ids : list Z;         (* RTC_NOINIT *)
  backup_current_index : Z;
  session_mutex : bool;
  stored_login : option string;        (* setting_items_read: None when it fails *)
  stored_pass : option string;
  random_pos : nat                     (* calls of esp_random so far *)
}.

Definition with_buffer (b : session_buffer_t) (s : auth_state) : auth_state :=
  AuthState b (backup_session_ids s) (backup_current_index s) (session_mutex s)
    (stored_login s) (stored_pass s) (random_pos s).

(** ** The ring *)

(** One turn of the loop of [defrag_session_buf], in place. *)
Definition defrag_step (st : list Z * nat) (read : nat) : list Z * nat :=
  let (ids, write) := st in
  match ids !! read with
  | Some id =>
      if id =? 0 then (ids, write)
      else ((if (write =? read)%nat then ids else <[read := 0]> (<[write := id]> ids)), S write)
  | None => (ids, write)
  end.

Definition defrag_session_buf (b : session_buffer_t) : session_buffer_t :=
  let (ids, write) := foldl defrag_step (session_ids b, 0%nat) (seq 0 MAX_SESSIONS) in
  SessionBuffer ids (write mod MAX_SESSIONS).

Definition load_session_buf (s : auth_state) : auth_state :=
  let i := backup_current_index s in
  with_buffer
    (SessionBuffer (backup_session_ids s)
       (if (0 <=? i) && (i <? Z.of_nat MAX_SESSIONS) then Z.to_nat i else 0%nat)) s.

Definition save_session_buf (s : auth_state) : auth_state :=
  AuthState (session_buffer s) (session_ids (session_buffer s)) (Z.of_nat (current_index (session_buffer s)))
    (session_mutex s) (stored_login s) (stored_pass s) (random_pos s).

Definition add_session_id (session_id : Z) (s : auth_state) : auth_state :=
  let b := session_buffer s in
  save_session_buf
    (with_buffer (SessionBuffer (<[current_index b := session_id]> (session_ids b))
                    ((current_index b + 1) mod MAX_SESSIONS)) s).

Definition session_id_exists (session_id : Z) (s : auth_state) : bool :=
  existsb (Z.eqb session_id) (session_ids (session_buffer s)).

Definition find_and_remove_session_id (session_id : Z) (s : auth_state) : auth_state :=
  let b := session_buffer s in
  match list_find (eq session_id) (session_ids b) with
  | Some (i, _) =>
      save_session_buf (with_buffer (defrag_session_buf (SessionBuffer (<[i := 0]> (session_ids b)) (current_index b))) s)
  | None => s
  end.

(** ** The cookie *)

(** [strtoul(s, &end, 10)] with a 32-bit [long]: the value, whether it set
    ERANGE, and the text from [end] on. *)
Definition strtoul (s : string) : Z * bool * string :=
  let (sg, s1) := c_sign (lstrip_by c_isspace s) in
  if starts_with_digit s1 then
    let (v, rest) := c_digits 0 s1 in
    if 2 ^ 32 <=? v then (2 ^ 32 - 1, true, rest) else ((sg * v) mod 2 ^ 32, false, rest)
  else (0, false, s).

Definition get_session_id_from_cookie (cookie : option string) : Z :=
  match cookie with
  | None => 0
  | Some session_id_str =>
      let '(value, erange, endptr) := strtoul session_id_str in
      if erange || (2 ^ 32 - 1 <? value) then 0
      else if (String.length endptr =? String.length session_id_str)%nat then 0
      else if negb (String.eqb endptr "") then 0
      else value
  end.

(** [snprintf(cookie_header, COOKIE_MAX_LEN, ...)]. *)
Definition cookie_header (session_id : Z) : string :=
  stake (pred COOKIE_MAX_LEN) ("session_id=" +:+ show_Z session_id +:+ "; HttpOnly; SameSite=Strict; Path=/").

(** The name and the value a client reads from a Set-Cookie header: the
    first pair, before the attributes. *)
Definition cookie_pair (header : string) : string * string := partition_at "=" (partition_at ";" header).1.

(** [strncmp(a, b, n) == 0]. *)
Definition strncmp_eq (n : nat) (a b : string) : bool := String.eqb (stake n a) (stake n b).

(** ** The handlers *)

(** What the HTTP server gives a handler. *)
Record httpd_req := HttpdReq {
  content_len : Z;
  received_json : option json;         (* json_utils_receive_json *)
  cookie_val : option string;          (* httpd_req_get_cookie_val *)
  header_room : bool                   (* httpd_resp_set_hdr returns ESP_OK *)
}.

Definition error_response (message : string) : response :=
  Response 400 "" (Some (JObj [("success", JBool false); ("error", JStr message)])) [].

Section Auth.
Context (esp_random : nat -> Z) (cJSON_GetObjectItem : json -> string -> option json).

(** The [do ... while] loop; [None] when [fuel] draws gave no usable id. *)
Fixpoint generate_unique_session_id (fuel : nat) (s : auth_state) : option (Z * auth_state) :=
  match fuel with
  | O => None
  | S fuel =>
      let id := esp_random (random_pos s) in
      let s := AuthState (session_buffer s) (backup_session_ids s) (backup_current_index s) (session_mutex s)
                 (stored_login s) (stored_pass s) (S (random_pos s)) in
      if (id =? 0) || session_id_exists id s then generate_unique_session_id fuel s else Some (id, s)
  end.

Definition authorization (fuel : nat) (login_req pass_req : string) (s : auth_state) : option (Z * auth_state) :=
  match stored_login s, stored_pass s with
  | Some login, Some pass =>
      if negb (strncmp_eq SETTING_ITEM_MAX_STR_LEN login_req login)
         || negb (strncmp_eq SETTING_ITEM_MAX_STR_LEN pass_req pass)
      then Some (0, s)
      else
        '(id, s) ← generate_unique_session_id fuel s;
        Some (id, add_session_id id s)
  | _, _ => Some (0, s)
  end.

(** [auth_init]; the RAM buffer of a booting device is zero. *)
Definition auth_init (reason : reset_reason) (s : auth_state) : auth_state * list auth_line :=
  if session_mutex s then (s, [])
  else
    let (s, line) := match reason with
                     | ESP_RST_SW => (load_session_buf s, SessionsLoaded)
                     | ESP_RST_OTHER => (s, SessionsReset)
                     end in
    (AuthState (session_buffer s) (backup_session_ids s) (backup_current_index s) true
       (stored_login s) (stored_pass s) (random_pos s), [line]).

Definition auth_middleware_check (req : httpd_req) (s : auth_state) : bool :=
  let session_id := get_session_id_from_cookie (cookie_val req) in
  if session_id =? 0 then false else session_id_exists session_id s.

(** [auth_login_handler]; its response has [auth] as its last field. *)
Definition auth_login_handler (fuel : nat) (req : httpd_req) (s : auth_state) : option (response * auth_state) :=
  let answer (result : bool) (fields : list (string * json)) (set : list (string * string)) (s : auth_state) :=
    Some (Response 200 "" (Some (JObj (fields ++ [("auth", JBool result)]))) set, s) in
  let failed message := answer false [("error", JStr message)] [] s in
  if JSON_UTILS_REQ_RECV_BUF_SIZE <? content_len req then Some (error_response "Login request is too large", s)
  else
    match received_json req with
    | None => Some (error_response "Invalid login request JSON", s)
    | Some request_json =>
        match cJSON_GetObjectItem request_json "login", cJSON_GetObjectItem request_json "pass" with
        | Some (JStr login_req), Some (JStr pass_req) =>
            '(session_id, s) ← authorization fuel login_req pass_req s;
            if negb (session_id =? 0) then
              if header_room req then answer true [] [cookie_pair (cookie_header session_id)] s else answer false [] [] s
            else answer false [("error", JStr "Invalid login or password")] [] s
        | Some _, Some _ => failed "Invalid login or password type"
        | _, _ => failed "No login or password in request"
        end
    end.

Definition auth_logout_handler (req : httpd_req) (s : auth_state) : response * auth_state :=
  let session_id := get_session_id_from_cookie (cookie_val req) in
  (Response 200 "" (Some (JObj [("logout", JBool true)])) [],
   if session_id =? 0 then s else find_and_remove_session_id session_id s).

Definition auth_session_check_handler (req : httpd_req) (s : auth_state) : response :=
  Response (if auth_middleware_check req s then 200 else 401) "" None [].

End Auth.

(** ** Booting *)

(** A reset: RAM is zero again, RTC memory keeps its content, the settings
    are read from flash. *)
Definition reset (reason : reset_reason) (s : auth_state) : auth_state * list auth_line :=
  auth_init reason
    (AuthState (SessionBuffer (replicate MAX_SESSIONS 0) 0) (backup_session_ids s) (backup_current_index s) false
       (stored_login s) (stored_pass s) (random_pos s)).

(** ** The ring as a queue *)

(** The slots in the order in which logins overwrite them. *)
Definition rot (b : session_buffer_t) : list Z :=
  drop (current_index b) (session_ids b) ++ take (current_index b) (session_ids b).

Definition live (l : list Z) : list Z := filter (fun x => x <> 0) l.

(** The sessions, in the order in which they will be evicted. *)
Definition queue (b : session_buffer_t) : list Z := live (rot b).

Record sane (b : session_buffer_t) : Prop := {
  sane_length : length (session_ids b) = MAX_SESSIONS;
  sane_index : (current_index b < MAX_SESSIONS)%nat;
  sane_width : Forall (fun x => 0 <= x < 2 ^ 32) (session_ids b)
}.

(** The invariant of a ring that was never loaded from arbitrary memory. *)
Record ring_ok (b : session_buffer_t) : Prop := {
  ok_sane : sane b;
  ok_nodup : NoDup (live (session_ids b));
  ok_prefix : (length (live (session_ids b)) < MAX_SESSIONS)%nat ->
    session_ids b = live (session_ids b) ++ replicate (MAX_SESSIONS - length (live (session_ids b))) 0 /\
    current_index b = length (live (session_ids b))
}.

Lemma live_app l k : live (l ++ k) = live l ++ live k.
Proof. apply filter_app. Qed.

Lemma live_zeros n : live (replicate n 0) = [].
Proof. induction n as [|n IH]; [done|]. cbn [replicate]. unfold live in *. rewrite filter_cons_False; auto. Qed.

Lemma live_length l : (length (live l) <= length l)%nat.
Proof. apply length_filter. Qed.

Lemma live_full l : length (live l) = length l -> live l = l.
Proof.
  intros H. induction l as [|x l IH]; [done|]. unfold live in *. rewrite filter_cons in *. case_decide.
  - cbn in H. f_equal. apply IH. lia.
  - pose proof (live_length l). unfold live in *. cbn in H. lia.
Qed.

Lemma rot_perm b : rot b ≡ₚ session_ids b.
Proof. unfold rot. rewrite Permutation_app_comm. by rewrite take_drop. Qed.

Lemma queue_perm b : queue b ≡ₚ live (session_ids b).
Proof. unfold queue, live. by rewrite rot_perm. Qed.

Lemma length_rot b : length (rot b) = length (session_ids b).
Proof. by rewrite rot_perm. Qed.

(** What a login does to the ring. *)
Definition put (id : Z) (b : session_buffer_t) : session_buffer_t :=
  SessionBuffer (<[current_index b := id]> (session_ids b)) ((current_index b + 1) mod MAX_SESSIONS).

Lemma put_sane id b : sane b -> 0 <= id < 2 ^ 32 -> sane (put id b).
Proof.
  intros [Hl Hi Hw] Hid. split; cbn [put session_ids current_index].
  - by rewrite length_insert.
  - by apply Nat.mod_upper_bound.
  - by apply Forall_insert.
Qed.

(** A login overwrites the slot that is next in line, whatever it holds. *)
Lemma rot_put id b : sane b -> rot (put id b) = tail (rot b) ++ [id].
Proof.
  intros [Hl Hi _]. unfold rot, put, MAX_SESSIONS in *. cbn [session_ids current_index].
  destruct (lookup_lt_is_Some_2 (session_ids b) (current_index b)) as [x Hx]; [by rewrite Hl|].
  rewrite (drop_S _ _ _ Hx). cbn [app tail].
  destruct (decide (current_index b = 9%nat)) as [E|E].
  - rewrite E in *. change ((9 + 1) mod 10)%nat with 0%nat. rewrite drop_0, take_0, app_nil_r.
    rewrite (drop_ge (session_ids b)) by lia. cbn [app]. rewrite insert_take_drop by lia.
    by rewrite (drop_ge (session_ids b)) by lia.
  - rewrite Nat.mod_small by lia. rewrite Nat.add_1_r, drop_insert_lt by lia.
    rewrite (take_S_r _ _ id) by (apply list_lookup_insert_eq; lia). rewrite take_insert_ge by lia. by rewrite app_assoc.
Qed.

(** The abstract operation: the new session goes to the back, and the front
    one leaves a full queue. *)
Definition enqueue (id : Z) (q : list Z) : list Z :=
  (if (length q =? MAX_SESSIONS)%nat then tail q else q) ++ [id].

Lemma rot_not_full b : ring_ok b -> (length (live (session_ids b)) < MAX_SESSIONS)%nat ->
  rot b = replicate (MAX_SESSIONS - length (live (session_ids b))) 0 ++ live (session_ids b).
Proof.
  intros [_ _ H] Hlt. destruct (H Hlt) as [E Ei]. unfold rot. rewrite Ei.
  set (L := live (session_ids b)) in *. rewrite E. by rewrite drop_app_length, take_app_length.
Qed.

Lemma queue_length b : length (queue b) = length (live (session_ids b)).
Proof. by rewrite queue_perm. Qed.

Lemma queue_put id b : ring_ok b -> id <> 0 -> queue (put id b) = enqueue id (queue b).
Proof.
  intros Hok Hid. pose proof (ok_sane _ Hok) as Hs. unfold enqueue. rewrite queue_length.
  unfold queue. rewrite rot_put by done. rewrite live_app.
  replace (live [id]) with [id] by (unfold live; by rewrite filter_cons_True). f_equal.
  destruct (length (live (session_ids b)) =? MAX_SESSIONS)%nat eqn:E; bool_to_prop.
  - assert (live (rot b) = rot b) as ->.
    { apply live_full. pose proof (queue_length b) as Hq. unfold queue in Hq. rewrite Hq, E, length_rot. symmetry. apply Hs. }
    apply live_full. pose proof (queue_length b) as Hq. unfold queue in Hq.
    pose proof (live_length (tail (rot b))). destruct (rot b) as [|x l] eqn:Er; [done|]. cbn [tail] in *.
    unfold live in *. rewrite filter_cons in Hq. pose proof (length_rot b) as Hl. rewrite Er, (sane_length _ Hs) in Hl.
    cbn in Hl. case_decide; cbn in Hq; lia.
  - pose proof (live_length (session_ids b)) as Hl. rewrite (sane_length _ Hs) in Hl.
    rewrite rot_not_full by (done || lia). destruct (MAX_SESSIONS - length (live (session_ids b)))%nat as [|n] eqn:En; [lia|].
    cbn [replicate app tail]. unfold live at 3. rewrite filter_cons_False by auto. done.
Qed.

Lemma put_ok id b : ring_ok b -> 0 < id < 2 ^ 32 -> id ∉ session_ids b -> ring_ok (put id b).
Proof.
  intros Hok Hid Hnew. pose proof (ok_sane _ Hok) as Hs. pose proof (put_sane id b Hs ltac:(lia)) as Hs'.
  assert (id ∉ live (session_ids b)) as Hnew' by (unfold live; rewrite list_elem_of_filter; naive_solver).
  assert (NoDup (enqueue id (queue b))) as Hnd.
  { assert (NoDup (queue b) /\ id ∉ queue b) as [H1 H2].
    { rewrite queue_perm. split; [apply Hok|done]. }
    unfold enqueue. set (f := if _ : bool then _ else _).
    assert (f `sublist_of` queue b) as Hf by (subst f; destruct (_ =? _)%nat; [destruct (queue b); [|constructor]|]; done).
    apply NoDup_app. split_and!; [by eapply sublist_NoDup| |apply NoDup_singleton].
    intros x Hx ->%list_elem_of_singleton. apply H2. by eapply elem_of_sublist. }
  split; [done|by rewrite <- queue_perm, queue_put by (done || lia)|].
  intros Hlt. rewrite <- queue_length, queue_put in Hlt by (done || lia). unfold enqueue in Hlt.
  rewrite queue_length in Hlt. destruct (_ =? _)%nat eqn:E; bool_to_prop; rewrite length_app in Hlt; cbn in Hlt.
  { destruct (queue b) eqn:Eq; cbn in Hlt; pose proof (queue_length b) as Hq; rewrite Eq, E in Hq; cbn in Hq;
      unfold MAX_SESSIONS in *; lia. }
  rewrite queue_length in Hlt. destruct (ok_prefix _ Hok) as [Ep Ei]; [lia|].
  set (L := live (session_ids b)) in *. unfold put. cbn [session_ids current_index]. rewrite Ei, Ep.
  destruct (MAX_SESSIONS - length L)%nat as [|n] eqn:En; [lia|].
  assert (<[length L := id]> (L ++ replicate (S n) 0) = (L ++ [id]) ++ replicate n 0) as ->.
  { rewrite insert_app_r_alt by lia. rewrite Nat.sub_diag. cbn. by rewrite <- app_assoc. }
  assert (live ((L ++ [id]) ++ replicate n 0) = L ++ [id]) as ->.
  { rewrite !live_app, live_zeros, app_nil_r. f_equal; [|unfold live; by rewrite filter_cons_True by lia].
    subst L. unfold live. by rewrite list_filter_filter_l. }
  rewrite length_app. cbn [length]. split; [f_equal; f_equal; lia|]. rewrite Nat.mod_small; lia.
Qed.

(** ** Logout *)

(** The in-place loop compacts the ids and keeps their order. *)
Lemma defrag_run rest done :
  foldl defrag_step (live done ++ replicate (length done - length (live done)) 0 ++ rest, length (live done))
    (seq (length done) (length rest)) =
  (live (done ++ rest) ++ replicate (length (done ++ rest) - length (live (done ++ rest))) 0,
   length (live (done ++ rest))).
Proof.
  revert done. induction rest as [|x rest IH]; intros done.
  { cbn [length seq foldl]. by rewrite !app_nil_r. }
  pose proof (live_length done) as Hl. cbn [length seq foldl].
  specialize (IH (done ++ [x])). rewrite <- app_assoc in IH. cbn [app] in IH.
  rewrite length_app in IH. cbn [length] in IH. rewrite Nat.add_1_r in IH. rewrite live_app in IH.
  rewrite <- IH. f_equal. unfold defrag_step.
  assert ((live done ++ replicate (length done - length (live done)) 0 ++ x :: rest) !! length done = Some x) as ->.
  { rewrite app_assoc. apply list_lookup_middle. rewrite length_app, length_replicate. lia. }
  destruct (Z.eqb_spec x 0) as [->|Hx].
  - replace (live [0]) with (@nil Z) by (unfold live; by rewrite filter_cons_False by auto). rewrite app_nil_r.
    replace (S (length done) - length (live done))%nat with (length done - length (live done) + 1)%nat by lia.
    rewrite replicate_add. cbn [replicate]. by rewrite <- app_assoc.
  - replace (live [x]) with [x] by (unfold live; by rewrite filter_cons_True). rewrite length_app. cbn [length].
    replace (S (length done) - (length (live done) + 1))%nat with (length done - length (live done))%nat by lia.
    f_equal; [|lia]. destruct (length (live done) =? length done)%nat eqn:E; bool_to_prop.
    + rewrite E, Nat.sub_diag. cbn [replicate app]. by rewrite <- app_assoc.
    + destruct (length done - length (live done))%nat as [|k] eqn:Ek; [lia|]. cbn [replicate app].
      rewrite insert_app_r_alt, Nat.sub_diag by lia. cbn [insert list_insert].
      assert (forall a : list Z, live done ++ x :: replicate k 0 ++ a = (live done ++ x :: replicate k 0) ++ a) as Ha
        by (intros; by rewrite <- app_assoc).
      rewrite Ha, insert_app_r_alt by (rewrite length_app; cbn [length]; rewrite length_replicate; lia).
      rewrite length_app. cbn [length]. rewrite length_replicate.
      replace (length done - (length (live done) + S k))%nat with 0%nat by lia. cbn [insert list_insert].
      rewrite <- app_assoc. cbn [app]. rewrite <- (app_assoc (live done) [x]). cbn [app]. f_equal. f_equal.
      change (0 :: replicate k 0 ++ rest) with (replicate (S k) 0 ++ rest). rewrite replicate_S_end.
      by rewrite <- app_assoc.
Qed.

Lemma defrag_spec b : sane b ->
  defrag_session_buf b =
  SessionBuffer (live (session_ids b) ++ replicate (MAX_SESSIONS - length (live (session_ids b))) 0)
    (length (live (session_ids b)) mod MAX_SESSIONS).
Proof.
  intros [Hl _ _]. unfold defrag_session_buf. pose proof (defrag_run (session_ids b) []) as H.
  cbn [app length live] in H. rewrite Hl in H. unfold live at 1 2 3 in H. cbn [filter list_filter length Nat.sub replicate app] in H.
  by rewrite H.
Qed.

(** What a logout leaves: the other ids, in the order of the array. *)
Definition without (id : Z) (l : list Z) : list Z := filter (fun x => x <> id) l.

Lemma without_notin id l : id ∉ l -> without id l = l.
Proof.
  induction l as [|x l IH]; [done|]. intros H. apply not_elem_of_cons in H as [Hx Hl]. unfold without in *.
  rewrite filter_cons_True by auto. by rewrite IH.
Qed.

Lemma live_zeroed id i l : l !! i = Some id -> id <> 0 -> NoDup (live l) -> live (<[i := 0]> l) = without id (live l).
Proof.
  intros Hi H0 Hnd. rewrite insert_take_drop by (by eapply lookup_lt_Some).
  rewrite <- (take_drop_middle l i id Hi) in Hnd |- * at 3. rewrite !live_app in *.
  replace (live (0 :: drop (S i) l)) with (live (drop (S i) l)) by (unfold live; by rewrite filter_cons_False by auto).
  replace (live (id :: drop (S i) l)) with (id :: live (drop (S i) l)) in * by (unfold live; by rewrite filter_cons_True).
  apply NoDup_app in Hnd as (_ & Hd & Hn). apply NoDup_cons in Hn as [Hn _].
  unfold without. rewrite filter_app, filter_cons_False by auto. f_equal; symmetry; apply without_notin; [|done].
  intros Hin. apply (Hd id Hin). left.
Qed.

(** A compacted ring with room holds its sessions in the order of the array. *)
Lemma compact_ok L :
  NoDup L -> (length L < MAX_SESSIONS)%nat -> Forall (fun x => 0 < x < 2 ^ 32) L ->
  let b := SessionBuffer (L ++ replicate (MAX_SESSIONS - length L) 0) (length L mod MAX_SESSIONS) in
  ring_ok b /\ live (session_ids b) = L /\ queue b = L.
Proof.
  intros Hnd HL Hw. cbn zeta.
  assert (live L = L) as E1.
  { unfold live. clear -Hw. induction Hw as [|x l Hx _ IH]; [done|]. rewrite filter_cons_True by lia. by rewrite IH. }
  assert (live (L ++ replicate (MAX_SESSIONS - length L) 0) = L) as E2 by by rewrite live_app, live_zeros, app_nil_r.
  split_and!; [|done|].
  - split; cbn [session_ids current_index]; rewrite ?E2; [|done|intros _; split; [done|by apply Nat.mod_small]].
    split; cbn [session_ids current_index]; [rewrite length_app, length_replicate; lia|by apply Nat.mod_upper_bound|].
    apply Forall_app. split; [eapply Forall_impl; [exact Hw|cbn; lia]|apply Forall_replicate; lia].
  - unfold queue, rot. cbn [session_ids current_index]. rewrite Nat.mod_small by done.
    by rewrite drop_app_length, take_app_length, live_app, live_zeros.
Qed.

Lemma zeroed_room i l : (i < length l)%nat -> (length (live (<[i := 0%Z]> l)) < length l)%nat.
Proof.
  intros Hi. pose proof (live_length (<[i := 0]> l)) as Hle. rewrite length_insert in Hle.
  destruct (decide (length (live (<[i := 0]> l)) = length l)) as [Ef|]; [|lia].
  assert (0 ∈ live (<[i := 0]> l)) as Hz.
  { rewrite live_full by (by rewrite length_insert). apply list_elem_of_lookup. exists i. by apply list_lookup_insert_eq. }
  by apply list_elem_of_filter in Hz as [? _].
Qed.

Lemma remove_spec id s :
  ring_ok (session_buffer s) -> id <> 0 ->
  let s' := find_and_remove_session_id id s in
  let L := without id (live (session_ids (session_buffer s))) in
  ring_ok (session_buffer s') /\ live (session_ids (session_buffer s')) = L /\
  (id ∈ session_ids (session_buffer s) -> queue (session_buffer s') = L).
Proof.
  intros Hok H0. unfold find_and_remove_session_id. destruct (list_find _ _) as [[i x]|] eqn:E; cbn zeta.
  - apply list_find_Some in E as (Hi & <- & _). set (b := session_buffer s) in *.
    set (L := without id (live (session_ids b))).
    assert (live (<[i := 0]> (session_ids b)) = L) as EL by (apply live_zeroed; [done|done|apply Hok]).
    pose proof (ok_sane _ Hok) as [Hl Hix Hw].
    assert (sane (SessionBuffer (<[i := 0]> (session_ids b)) (current_index b))) as Hs
      by (split; cbn; [by rewrite length_insert|done|by apply Forall_insert]).
    cbn [save_session_buf with_buffer session_buffer]. rewrite (defrag_spec _ Hs). cbn [session_ids]. rewrite EL.
    destruct (compact_ok L) as (H1 & H2 & H3); [apply NoDup_filter, Hok| | |by split_and!].
    + rewrite <- EL, <- Hl. apply zeroed_room. by eapply lookup_lt_Some.
    + rewrite Forall_forall in Hw |- *. intros y Hy. apply list_elem_of_filter in Hy as [_ Hy].
      apply list_elem_of_filter in Hy as [Hne Hy]. specialize (Hw y Hy). lia.
  - apply list_find_None in E. rewrite Forall_forall in E.
    assert (id ∉ session_ids (session_buffer s)) as Hn by (intros H; by apply (E id H)).
    split_and!; [done| |done]. symmetry. apply without_notin. unfold live. rewrite list_elem_of_filter. naive_solver.
Qed.

(** ** The cookie *)

Lemma cookie_header_fits id : 0 <= id < 2 ^ 32 ->
  cookie_header id = "session_id=" +:+ show_Z id +:+ "; HttpOnly; SameSite=Strict; Path=/".
Proof.
  intros H. unfold cookie_header. apply stake_all. rewrite !sapp_length.
  pose proof (show_Z_length 9 id ltac:(cbn; lia)) as Hl. unfold COOKIE_MAX_LEN. cbn [String.length]. lia.
Qed.

Lemma cookie_pair_header id : 0 <= id < 2 ^ 32 -> cookie_pair (cookie_header id) = ("session_id", show_Z id).
Proof.
  intros H. rewrite cookie_header_fits by done. unfold cookie_pair.
  rewrite <- sapp_assoc. change "; HttpOnly; SameSite=Strict; Path=/" with (String ";" " HttpOnly; SameSite=Strict; Path=/").
  rewrite partition_at_app; [|].
  - cbn [fst]. change ("session_id=" +:+ show_Z id) with ("session_id" +:+ String "=" (show_Z id)).
    by rewrite partition_at_app.
  - unfold no_char. rewrite all_chars_app. apply andb_true_iff. split; [done|].
    apply no_char_show; [lia|done].
Qed.

(** The id a login sends is the id read back from the cookie. *)
Lemma cookie_value id : 0 <= id < 2 ^ 32 -> get_session_id_from_cookie (Some (show_Z id)) = id.
Proof.
  intros H. pose proof (show_Z_nonneg_digits id ltac:(lia)) as Hd. unfold get_session_id_from_cookie, strtoul.
  pose proof (c_digits_show id ltac:(lia)) as Hc. pose proof (show_Z_nonempty id) as Hne.
  destruct (show_Z id) as [|c s]; [done|]. cbn [all_chars] in Hd. bool_to_prop.
  cbn [lstrip_by]. replace (c_isspace c) with false.
  2: { symmetry. apply not_true_iff_false. intros Hc'. pose proof (digit_not_space c H0) as Hsp.
       apply not_true_iff_false in Hsp. apply Hsp. unfold c_isspace, is_space in *. cbn zeta in *.
       apply orb_true_iff in Hc' as [Hc'|Hc']; apply orb_true_iff; [by left|right]. apply Nat.eqb_eq in Hc' as ->. done. }
  unfold c_sign. rewrite !ascii_eqb_digit by done. cbn [starts_with_digit]. rewrite H0, Hc.
  replace (2 ^ 32 <=? id) with false by (symmetry; apply Z.leb_gt; lia).
  rewrite Z.mul_1_l, Z.mod_small by lia. cbn [orb]. replace (2 ^ 32 - 1 <? id) with false by (symmetry; apply Z.ltb_ge; lia).
  done.
Qed.

(** ** The store and its specification *)

Inductive call : Type :=
| Login (req : httpd_req)
| Logout (req : httpd_req)
| SessionCheck (req : httpd_req)
| Reset (reason : reset_reason).

(** What is promised to the clients: the valid sessions, in the order in
    which they will be evicted, and those the next software reset brings back. *)
Record store := Store { valid : list Z; kept : list Z }.

Section Store.
Context (esp_random : nat -> Z) (cJSON_GetObjectItem : json -> string -> option json).

Definition serve (fuel : nat) (c : call) (s : auth_state) : option (option response * auth_state) :=
  match c with
  | Login req =>
      '(r, s) ← auth_login_handler esp_random cJSON_GetObjectItem fuel req s; Some (Some r, s)
  | Logout req => let (r, s) := auth_logout_handler req s in Some (Some r, s)
  | SessionCheck req => Some (Some (auth_session_check_handler req s), s)
  | Reset reason => Some (None, (reset reason s).1)
  end.

Fixpoint serve_all (fuel : nat) (cs : list call) (s : auth_state) : option (list (option response) * auth_state) :=
  match cs with
  | [] => Some ([], s)
  | c :: cs =>
      '(r, s) ← serve fuel c s;
      '(rs, s) ← serve_all fuel cs s;
      Some (r :: rs, s)
  end.

(** The request carries the credentials. *)
Definition authentic (login pass : string) (req : httpd_req) : bool :=
  (content_len req <=? JSON_UTILS_REQ_RECV_BUF_SIZE) &&
  match received_json req with
  | Some j =>
      match cJSON_GetObjectItem j "login", cJSON_GetObjectItem j "pass" with
      | Some (JStr l), Some (JStr p) =>
          strncmp_eq SETTING_ITEM_MAX_STR_LEN l login && strncmp_eq SETTING_ITEM_MAX_STR_LEN p pass
      | _, _ => false
      end
  | None => false
  end.

(** The answer that grants session [id], and any that grants none. *)
Definition granted (id : Z) (r : response) : Prop :=
  r = Response 200 "" (Some (JObj [("auth", JBool true)])) [("session_id", show_Z id)].
Definition refused (r : response) : Prop :=
  set_cookies r = [] /\ match body_json r with Some (JObj f) => jget "auth" f <> Some (JBool true) | _ => False end.

Inductive spec (login pass : string) : call -> store -> option response -> store -> Prop :=
| spec_login req st id r q :
    authentic login pass req = true -> 0 < id < 2 ^ 32 -> id ∉ valid st -> q = enqueue id (valid st) ->
    (if header_room req then granted id r else refused r) ->
    spec login pass (Login req) st (Some r) (Store q q)
| spec_refused req st r :
    authentic login pass req = false -> refused r -> spec login pass (Login req) st (Some r) st
| spec_logout req st id q :
    get_session_id_from_cookie (cookie_val req) = id -> id ∈ valid st -> q ≡ₚ without id (valid st) ->
    spec login pass (Logout req) st (Some (Response 200 "" (Some (JObj [("logout", JBool true)])) [])) (Store q q)
| spec_no_logout req st :
    get_session_id_from_cookie (cookie_val req) ∉ valid st ->
    spec login pass (Logout req) st (Some (Response 200 "" (Some (JObj [("logout", JBool true)])) [])) st
| spec_check req st :
    spec login pass (SessionCheck req) st
      (Some (Response (if decide (get_session_id_from_cookie (cookie_val req) ∈ valid st) then 200 else 401) "" None [])) st
| spec_soft st : spec login pass (Reset ESP_RST_SW) st None (Store (kept st) (kept st))
| spec_hard st : spec login pass (Reset ESP_RST_OTHER) st None (Store [] (kept st)).

Inductive spec_all (login pass : string) : list call -> store -> list (option response) -> store -> Prop :=
| spec_nil st : spec_all login pass [] st [] st
| spec_cons c cs st r st1 rs st2 :
    spec login pass c st r st1 -> spec_all login pass cs st1 rs st2 -> spec_all login pass (c :: cs) st (r :: rs) st2.

(** The copy in RTC memory, as a ring. *)
Definition backup_buffer (s : auth_state) : session_buffer_t :=
  SessionBuffer (backup_session_ids s) (Z.to_nat (backup_current_index s)).

Record refines (login pass : string) (s : auth_state) (st : store) : Prop := {
  ref_ring : ring_ok (session_buffer s);
  ref_valid : queue (session_buffer s) = valid st;
  ref_backup : ring_ok (backup_buffer s);
  ref_index : 0 <= backup_current_index s;
  ref_kept : queue (backup_buffer s) = kept st;
  ref_mutex : session_mutex s = true;
  ref_login : stored_login s = Some login;
  ref_pass : stored_pass s = Some pass
}.

(** Among [fuel] numbers in a row, one is not zero and not in use. *)
Definition lively (fuel : nat) : Prop :=
  (forall n, 0 <= esp_random n < 2 ^ 32) /\
  forall n (l : list Z), (length l <= MAX_SESSIONS)%nat ->
    exists m, (m < fuel)%nat /\ esp_random (n + m)%nat <> 0 /\ esp_random (n + m)%nat ∉ l.

Lemma exists_in id s : session_id_exists id s = true <-> id ∈ session_ids (session_buffer s).
Proof.
  unfold session_id_exists. rewrite existsb_exists. setoid_rewrite Z.eqb_eq. rewrite list_elem_of_In. naive_solver.
Qed.

Definition drawn (s : auth_state) (n : nat) : auth_state :=
  AuthState (session_buffer s) (backup_session_ids s) (backup_current_index s) (session_mutex s)
    (stored_login s) (stored_pass s) n.

Lemma generate_ok fuel s m :
  (m < fuel)%nat -> esp_random (random_pos s + m)%nat <> 0 ->
  esp_random (random_pos s + m)%nat ∉ session_ids (session_buffer s) ->
  exists id n, generate_unique_session_id esp_random fuel s = Some (id, drawn s n) /\
    (exists k, id = esp_random k) /\ id <> 0 /\ id ∉ session_ids (session_buffer s).
Proof.
  revert s m. induction fuel as [|fuel IH]; intros s m Hm H0 Hn; [lia|]. cbn [generate_unique_session_id].
  set (s1 := AuthState _ _ _ _ _ _ _). destruct ((esp_random (random_pos s) =? 0) || _) eqn:E.
  - destruct m as [|m].
    + exfalso. rewrite Nat.add_0_r in *. apply orb_true_iff in E as [E%Z.eqb_eq|E%exists_in]; done.
    + destruct (IH s1 m) as (id & n & -> & Hk & Hid & Hnew); [lia|by cbn; rewrite <- Nat.add_succ_r..|].
      by exists id, n.
  - apply orb_false_iff in E as [E1%Z.eqb_neq E2]. apply not_true_iff_false in E2. rewrite exists_in in E2.
    exists (esp_random (random_pos s)), (S (random_pos s)). split_and!; [done|by eexists|done|done].
Qed.

(** Saving makes the copy equal to the ring. *)
Lemma refines_save login pass s q :
  ring_ok (session_buffer s) -> queue (session_buffer s) = q -> session_mutex s = true ->
  stored_login s = Some login -> stored_pass s = Some pass ->
  refines login pass (save_session_buf s) (Store q q).
Proof.
  intros H1 H2 H3 H4 H5.
  assert (backup_buffer (save_session_buf s) = session_buffer s) as E.
  { unfold backup_buffer, save_session_buf. cbn. rewrite Nat2Z.id. by destruct (session_buffer s). }
  split; rewrite ?E; cbn; try done. lia.
Qed.

Lemma refines_drawn login pass s st n : refines login pass s st -> refines login pass (drawn s n) st.
Proof. intros []. by split. Qed.

Lemma in_valid login pass s st id : refines login pass s st -> id <> 0 ->
  id ∈ session_ids (session_buffer s) <-> id ∈ valid st.
Proof.
  intros Hr H0. rewrite <- (ref_valid _ _ _ _ Hr), queue_perm. unfold live. rewrite list_elem_of_filter. naive_solver.
Qed.

Lemma zero_invalid login pass s st : refines login pass s st -> 0 ∉ valid st.
Proof.
  intros Hr H. rewrite <- (ref_valid _ _ _ _ Hr) in H. unfold queue, live in H. by apply list_elem_of_filter in H as [? _].
Qed.

(** With the right credentials, on any ring: a new session in the next slot. *)
Lemma authorization_puts fuel login pass l p s :
  stored_login s = Some login -> stored_pass s = Some pass -> sane (session_buffer s) -> lively fuel ->
  strncmp_eq SETTING_ITEM_MAX_STR_LEN l login = true -> strncmp_eq SETTING_ITEM_MAX_STR_LEN p pass = true ->
  exists id n, authorization esp_random fuel l p s =
      Some (id, save_session_buf (with_buffer (put id (session_buffer s)) (drawn s n))) /\
    0 < id < 2 ^ 32 /\ id ∉ session_ids (session_buffer s).
Proof.
  intros El Ep Hs [Hw Hl] Hm1 Hm2. unfold authorization. rewrite El, Ep, Hm1, Hm2. cbn [negb orb].
  destruct (Hl (random_pos s) (session_ids (session_buffer s))) as (m & Hm & H0 & Hn); [by rewrite (sane_length _ Hs)|].
  destruct (generate_ok fuel s m Hm H0 Hn) as (id & n & -> & [k Hk] & Hid & Hnew). cbn [mbind option_bind].
  exists id, n. split_and!; [done|specialize (Hw k); rewrite <- Hk in Hw; lia|specialize (Hw k); rewrite <- Hk in Hw; lia|done].
Qed.

Lemma authorization_refines fuel login pass l p s st :
  refines login pass s st -> lively fuel ->
  if strncmp_eq SETTING_ITEM_MAX_STR_LEN l login && strncmp_eq SETTING_ITEM_MAX_STR_LEN p pass then
    exists id s', authorization esp_random fuel l p s = Some (id, s') /\ 0 < id < 2 ^ 32 /\ id ∉ valid st /\
      refines login pass s' (Store (enqueue id (valid st)) (enqueue id (valid st)))
  else authorization esp_random fuel l p s = Some (0, s).
Proof.
  intros Hr Hl. pose proof (authorization_puts fuel login pass l p s (ref_login _ _ _ _ Hr) (ref_pass _ _ _ _ Hr)
    (ok_sane _ (ref_ring _ _ _ _ Hr)) Hl) as Hp.
  destruct (strncmp_eq _ l login) eqn:E1; [destruct (strncmp_eq _ p pass) eqn:E2|]; cbn [andb].
  2,3: unfold authorization; by rewrite (ref_login _ _ _ _ Hr), (ref_pass _ _ _ _ Hr), E1, ?E2.
  destruct Hp as (id & n & -> & Hid & Hnew); [done|done|]. eexists id, _. split; [done|]. split; [done|].
  assert (id <> 0) as H0 by lia. split; [by rewrite <- (in_valid _ _ _ _ _ Hr H0)|].
  apply refines_save; cbn [with_buffer session_buffer drawn session_mutex stored_login stored_pass]; try apply Hr.
  - by apply (put_ok id); [apply Hr|..].
  - rewrite <- (ref_valid _ _ _ _ Hr). apply (queue_put id); [apply Hr|lia].
Qed.

Lemma login_refines fuel login pass req s st :
  refines login pass s st -> lively fuel ->
  exists r s' st', serve fuel (Login req) s = Some (r, s') /\ spec login pass (Login req) st r st' /\ refines login pass s' st'.
Proof.
  intros Hr Hl. cbn [serve]. unfold auth_login_handler.
  assert (forall r, authentic login pass req = false -> refused r ->
    exists r' s' st', ('(r, s) ← Some (r, s); Some (Some r, s)) = Some (r', s') /\
      spec login pass (Login req) st r' st' /\ refines login pass s' st') as K.
  { intros r Ha Hf. exists (Some r), s, st. split_and!; [done|by apply spec_refused|done]. }
  unfold authentic in *. rewrite Z.leb_antisym in *. destruct (_ <? content_len req) eqn:Ec; [by apply K|]. cbn [negb andb] in *.
  destruct (received_json req) as [j|] eqn:Ej; [|by apply K].
  destruct (cJSON_GetObjectItem j "login") as [lj|] eqn:El; [|by apply K].
  destruct (cJSON_GetObjectItem j "pass") as [pj|] eqn:Ep; [|destruct lj; by apply K].
  destruct lj as [| | |l| |]; try by apply K. destruct pj as [| | |p| |]; try by apply K.
  pose proof (authorization_refines fuel login pass l p s st Hr Hl) as Ha.
  destruct (strncmp_eq _ l login && strncmp_eq _ p pass) eqn:Es.
  - destruct Ha as (id & s' & -> & Hid & Hnew & Hr'). cbn [mbind option_bind].
    replace (id =? 0) with false by (symmetry; apply Z.eqb_neq; lia). cbn [negb].
    assert (authentic login pass req = true) as Hauth.
    { unfold authentic. by rewrite Z.leb_antisym, Ec, Ej, El, Ep, Es. }
    destruct (header_room req) eqn:Eh; eexists _, s', _; (split; [reflexivity|]); (split; [|exact Hr']);
      (eapply spec_login; [done|exact Hid|exact Hnew|reflexivity|]); rewrite Eh; [|by split].
    unfold granted. by rewrite cookie_pair_header by lia.
  - rewrite Ha. cbn [mbind option_bind]. rewrite Z.eqb_refl. cbn [negb]. by apply K.
Qed.

Lemma logout_refines fuel login pass req s st :
  refines login pass s st ->
  exists r s' st', serve fuel (Logout req) s = Some (r, s') /\ spec login pass (Logout req) st r st' /\ refines login pass s' st'.
Proof.
  intros Hr. cbn [serve]. unfold auth_logout_handler. set (id := get_session_id_from_cookie (cookie_val req)).
  destruct (Z.eqb_spec id 0) as [E|E].
  { eexists _, s, st. split_and!; [done| |done]. apply spec_no_logout. fold id. rewrite E. by eapply zero_invalid. }
  destruct (remove_spec id s (ref_ring _ _ _ _ Hr) E) as (H1 & H2 & H3).
  destruct (decide (id ∈ session_ids (session_buffer s))) as [Hin|Hin].
  - eexists _, _, (Store _ _). split_and!; [done|eapply (spec_logout _ _ _ _ id (queue (session_buffer (find_and_remove_session_id id s)))); [done|by eapply in_valid|]|].
    + rewrite (H3 Hin), <- (ref_valid _ _ _ _ Hr). unfold without. by rewrite queue_perm.
    + unfold find_and_remove_session_id in *. destruct (list_find _ _) as [[i x]|] eqn:Ef.
      * apply refines_save; try done; apply Hr.
      * apply list_find_None in Ef. rewrite Forall_forall in Ef. by destruct (Ef id Hin).
  - exists (Some (Response 200 "" (Some (JObj [("logout", JBool true)])) [])), s, st. split_and!; [|apply spec_no_logout|done].
    + unfold find_and_remove_session_id. destruct (list_find _ _) as [[i x]|] eqn:Ef; [|done].
      apply list_find_Some in Ef as (Hi & <- & _). destruct Hin. by eapply list_elem_of_lookup_2.
    + fold id. by rewrite <- (in_valid _ _ _ _ _ Hr E).
Qed.

Lemma load_backup s :
  sane (backup_buffer s) -> 0 <= backup_current_index s -> session_buffer (load_session_buf s) = backup_buffer s.
Proof.
  intros [_ Hi _] H0. unfold load_session_buf, backup_buffer in *.
  cbn [session_buffer with_buffer current_index] in *.
  replace ((0 <=? backup_current_index s) && (backup_current_index s <? Z.of_nat MAX_SESSIONS)) with true; [done|].
  symmetry. apply andb_true_iff. split; [apply Z.leb_le; lia|apply Z.ltb_lt]. lia.
Qed.

Lemma reset_refines fuel login pass reason s st :
  refines login pass s st ->
  exists r s' st', serve fuel (Reset reason) s = Some (r, s') /\ spec login pass (Reset reason) st r st' /\
    refines login pass s' st'.
Proof.
  intros Hr. cbn [serve]. unfold reset, auth_init. cbn [session_mutex].
  set (z := AuthState (SessionBuffer (replicate MAX_SESSIONS 0) 0) _ _ _ _ _ _).
  pose proof (load_backup z (ok_sane _ (ref_backup _ _ _ _ Hr)) (ref_index _ _ _ _ Hr)) as El.
  destruct reason; cbn [fst].
  - eexists _, _, (Store (kept st) (kept st)). split_and!; [reflexivity|constructor|].
    split; cbn [session_buffer session_mutex stored_login stored_pass]; rewrite ?El; try done; apply Hr.
  - eexists _, _, (Store [] (kept st)). split_and!; [reflexivity|constructor|].
    destruct (compact_ok []) as (H1 & _ & H3); [constructor|unfold MAX_SESSIONS; cbn; lia|constructor|].
    split; cbn [session_buffer session_mutex stored_login stored_pass]; try done; apply Hr.
Qed.

Lemma serve_refines fuel login pass c s st :
  refines login pass s st -> lively fuel ->
  exists r s' st', serve fuel c s = Some (r, s') /\ spec login pass c st r st' /\ refines login pass s' st'.
Proof.
  intros Hr Hl. destruct c as [req|req|req|reason].
  - by apply login_refines.
  - by apply logout_refines.
  - eexists _, s, st. split_and!; [reflexivity| |done].
    replace (auth_session_check_handler req s) with
      (Response (if decide (get_session_id_from_cookie (cookie_val req) ∈ valid st) then 200 else 401) "" None []);
      [apply spec_check|].
    unfold auth_session_check_handler, auth_middleware_check. set (id := get_session_id_from_cookie _).
    destruct (Z.eqb_spec id 0) as [E|E]; [rewrite decide_False; [done|rewrite E; by eapply zero_invalid]|].
    destruct (session_id_exists id s) eqn:Ex.
    + apply exists_in in Ex. rewrite decide_True; [done|]. by eapply in_valid.
    + apply not_true_iff_false in Ex. rewrite exists_in in Ex. rewrite decide_False; [done|].
      by rewrite <- (in_valid _ _ _ _ _ Hr E).
  - by apply reset_refines.
Qed.

(** C4. The session store implements its specification, for every sequence of logins, logouts, checks and resets: it always answers, the answers are those the abstract store gives, and the ring and its copy in RTC memory hold exactly the sessions of the abstract store, in their order of eviction. *)
Theorem auth_store_refines fuel login pass cs s st :
  refines login pass s st -> lively fuel ->
  exists rs s' st', serve_all fuel cs s = Some (rs, s') /\ spec_all login pass cs st rs st' /\ refines login pass s' st'.
Proof.
  intros Hr Hl. revert s st Hr. induction cs as [|c cs IH]; intros s st Hr.
  { exists [], s, st. split_and!; [done|constructor|done]. }
  destruct (serve_refines fuel login pass c s st Hr Hl) as (r & s1 & st1 & E1 & S1 & R1).
  destruct (IH s1 st1 R1) as (rs & s2 & st2 & E2 & S2 & R2).
  exists (r :: rs), s2, st2. split_and!; [|by econstructor|done]. cbn [serve_all]. rewrite E1. cbn. by rewrite E2.
Qed.

End Store.

(** After [n] logins the ring holds the last ten of what it held and was given. *)
Lemma rot_logins ids b :
  sane b -> Forall (fun id => 0 <= id < 2 ^ 32) ids ->
  sane (foldl (fun b id => put id b) b ids) /\
  rot (foldl (fun b id => put id b) b ids) = drop (length ids) (rot b ++ ids).
Proof.
  revert b. induction ids as [|id ids IH]; intros b Hs Hw; cbn [foldl length].
  { by rewrite app_nil_r, drop_0. }
  apply Forall_cons in Hw as [Hid Hw]. destruct (IH (put id b)) as [H1 H2]; [by apply put_sane|done|].
  split; [done|]. rewrite H2, rot_put by done. pose proof (length_rot b) as Hl. rewrite (sane_length _ Hs) in Hl.
  destruct (rot b) as [|x l]; [done|]. cbn [tail app drop]. by rewrite <- app_assoc.
Qed.

(** ** Witnesses and limits *)

Definition count16 (n : nat) : Z := Z.of_nat (n mod 16) + 1.

Lemma count16_lively : lively count16 11.
Proof.
  split.
  { intros n. unfold count16. pose proof (Nat.mod_upper_bound n 16 ltac:(lia)). lia. }
  intros n l Hl. set (vs := (fun m => count16 (n + m)%nat) <$> seq 0 11).
  assert (NoDup vs) as Hnd.
  { assert (vs = (fun m => Z.of_nat ((n mod 16 + m) mod 16) + 1) <$> seq 0 11) as ->.
    { apply list_fmap_ext. intros i m _. unfold count16. by rewrite Nat.Div0.add_mod_idemp_l. }
    pose proof (Nat.mod_upper_bound n 16 ltac:(lia)) as Hn. revert Hn. generalize (n mod 16)%nat as k. clear.
    intros k Hk. do 16 (destruct k as [|k]; [apply (bool_decide_unpack _); vm_compute; exact I|]). lia. }
  destruct (decide (Forall (fun v => v ∈ l) vs)) as [Hin|Hin].
  - exfalso. assert (vs ⊆+ l) as Hsub by (apply NoDup_submseteq; [done|]; by rewrite Forall_forall in Hin).
    apply submseteq_length in Hsub. unfold vs in Hsub. rewrite length_fmap, length_seq in Hsub. unfold MAX_SESSIONS in Hl. lia.
  - apply not_Forall_Exists in Hin; [|apply _]. apply Exists_exists in Hin as (v & Hv & Hnv). unfold vs in Hv.
    apply list_elem_of_fmap in Hv as (m & -> & Hm). apply elem_of_seq in Hm. exists m.
    split_and!; [lia| |done]. unfold count16. pose proof (Nat.mod_upper_bound (n + m) 16 ltac:(lia)). lia.
Qed.

(** A logout keeps the order of eviction as long as the ring has not wrapped. *)
Lemma logout_in_order id s :
  ring_ok (session_buffer s) -> id <> 0 -> id ∈ session_ids (session_buffer s) ->
  (length (live (session_ids (session_buffer s))) < MAX_SESSIONS)%nat \/ current_index (session_buffer s) = 0%nat ->
  queue (session_buffer (find_and_remove_session_id id s)) = without id (queue (session_buffer s)).
Proof.
  intros Hok H0 Hin Hw. destruct (remove_spec id s Hok H0) as (_ & _ & H). rewrite (H Hin). f_equal. unfold queue.
  destruct Hw as [Hlt|Hi].
  - rewrite rot_not_full by done. rewrite live_app, live_zeros. cbn [app]. unfold live. by rewrite list_filter_filter_l.
  - unfold rot. by rewrite Hi, drop_0, take_0, app_nil_r.
Qed.

(** Whatever id a login hands out, its Set-Cookie header fits the buffer of the handler, a client reads the pair (session_id, id) from it, and the id parsed from that cookie is the id of the login. *)
Theorem cookie_roundtrip id :
  0 < id < 2 ^ 32 ->
  (String.length (cookie_header id) < COOKIE_MAX_LEN)%nat /\
  (cookie_pair (cookie_header id)).1 = "session_id" /\
  get_session_id_from_cookie (Some (cookie_pair (cookie_header id)).2) = id.
Proof.
  intros H. rewrite cookie_pair_header by lia. split_and!; [|done|apply cookie_value; lia].
  rewrite cookie_header_fits by lia. rewrite !sapp_length. pose proof (show_Z_length 9 id ltac:(cbn; lia)) as Hl.
  unfold COOKIE_MAX_LEN. cbn [String.length]. lia.
Qed.

Lemma cookie_roundtrip_witness :
  (String.length (cookie_header 4294967295) < COOKIE_MAX_LEN)%nat /\
  (cookie_pair (cookie_header 4294967295)).1 = "session_id" /\
  get_session_id_from_cookie (Some (cookie_pair (cookie_header 4294967295)).2) = 4294967295.
Proof. apply (cookie_roundtrip 4294967295). lia. Defined.

(** Values that are not an id: overflow, a sign that wraps, trailing text. *)
Example odd_cookies :
  get_session_id_from_cookie (Some "4294967296") = 0 /\ get_session_id_from_cookie (Some "-1") = 4294967295 /\
  get_session_id_from_cookie (Some " +7") = 7 /\ get_session_id_from_cookie (Some "7x") = 0 /\
  get_session_id_from_cookie (Some "") = 0.
Proof. vm_compute. done. Qed.

Definition json_item (j : json) (k : string) : option json := match j with JObj f => jget k f | _ => None end.

(** A device that has just been switched on, with nothing in RTC memory. *)
Definition first_boot : auth_state :=
  (reset ESP_RST_OTHER
     (AuthState (SessionBuffer (replicate MAX_SESSIONS 0) 0) (replicate MAX_SESSIONS 0) 0 false
        (Some "admin") (Some "admin") 0)).1.

Definition login_req : httpd_req :=
  HttpdReq 34 (Some (JObj [("login", JStr "admin"); ("pass", JStr "admin")])) None true.
Definition with_cookie (c : string) : httpd_req := HttpdReq 0 None (Some c) true.

Lemma first_boot_refines : refines "admin" "admin" first_boot (Store [] []).
Proof.
  destruct (compact_ok []) as (H1 & _ & H3); [constructor|unfold MAX_SESSIONS; cbn; lia|constructor|].
  split; try done.
Qed.

Lemma auth_store_refines_witness :
  let cs := [Login login_req; SessionCheck (with_cookie "1"); Reset ESP_RST_SW; SessionCheck (with_cookie "1");
             Logout (with_cookie "1"); SessionCheck (with_cookie "1")] in
  refines "admin" "admin" first_boot (Store [] []) /\
  exists rs s' st', serve_all count16 json_item 11 cs first_boot = Some (rs, s') /\
    spec_all json_item "admin" "admin" cs (Store [] []) rs st' /\ refines "admin" "admin" s' st'.
Proof.
  split; [apply first_boot_refines|]. apply auth_store_refines; [apply first_boot_refines|apply count16_lively].
Defined.

(** Twelve logins wrap the ring; a logout then compacts it in the order of
    the array, and the two newest sessions, 11 and 12, are next in line. *)
Example logout_reorders :
  let s12 := Nat.iter 12 (fun s => from_option snd s (authorization count16 11 "admin" "admin" s)) first_boot in
  queue (session_buffer s12) = [3; 4; 5; 6; 7; 8; 9; 10; 11; 12] /\
  queue (session_buffer (find_and_remove_session_id 5 s12)) = [11; 12; 3; 4; 6; 7; 8; 9; 10].
Proof. vm_compute. done. Qed.

(** Sessions that an abnormal reset wiped are valid again after the next
    software reset, when no login or logout came in between. *)
Example wiped_sessions_return :
  exists s, serve_all count16 json_item 11
    [Login login_req; Reset ESP_RST_OTHER; SessionCheck (with_cookie "1"); Reset ESP_RST_SW; SessionCheck (with_cookie "1")]
    first_boot =
  Some ([Some (Response 200 "" (Some (JObj [("auth", JBool true)])) [("session_id", "1")]); None;
         Some (Response 401 "" None []); None; Some (Response 200 "" None [])], s).
Proof. eexists. vm_compute. reflexivity. Qed.
