(* ===== verification/AuthTests.v ===== *)
(** * Session and settings tests (src/api_tests/33_test_auth_settings.py)

    Every helper and test of the file, over the HTTP client of [ApiClient] and
    the recorded network of [NetLog].  A request is made by the fixture's
    session or by a session of its own, with or without a session cookie; the
    serial log of QEMU is read through a parameter, since the device writes
    to it while the test sleeps.

    The tests are judged against the session store of the firmware
    ([AuthRing]): what a pass of a reboot test shows, that the ring tests
    accept the store from every state, and that every test gives back what it
    took. *)

From Stdlib Require Import QArith Qminmax Lqa Ascii String.
From stdpp Require Import base list gmap strings.
From Stdlib Require Import ZArith Lia.
From S2P Require Import Prelude PyStr QemuPorts Gateway ApiClient NetLog MbDevice AuthRing.

Open Scope Z_scope.

(** Whose session a request belongs to. *)
Inductive client : Type :=
| Fixture
| Bare (session_id : option string).

(** [s.rfind(p)]. *)
Fixpoint rfind_from (p s : string) (i : Z) : Z :=
  let here := if startswith p s then i else -1 in
  match s with
  | EmptyString => here
  | String _ s' => let r := rfind_from p s' (i + 1) in if r =? -1 then here else r
  end.
Definition rfind (p s : string) : Z := rfind_from p s 0.

(** The two lines of [auth_init]. *)
Definition _MARK_LOADED : string := "Saved auth sessions were loaded".
Definition _MARK_RESET : string := "Auth sessions were reset".

(** What the text since the offset says, if anything. *)
Definition restored_verdict (tail : string) : option bool :=
  let restored := rfind _MARK_LOADED tail in
  let wiped := rfind _MARK_RESET tail in
  if negb (restored =? -1) || negb (wiped =? -1) then Some (wiped <? restored) else None.

(** [j.get(k) is True] and its kin. *)
Definition get_is (k : string) (b : bool) (j : json) : outcome bool :=
  let? v := py_get k j in
  Ok (match v with Some (JBool c) => Bool.eqb b c | _ => false end).

(** [s.cookies.get(k)] of a session whose only answer was [r]. *)
Definition jar_get (k : string) (r : response) : option string := store_cookies (Ok r) ∅ !! k.

Section Tests.
Context {D : Type} (device : client -> request -> D -> outcome response * D).
Context (serial : D -> option string * D).        (* the log file; None: OSError *)
Context (fuel : nat).

Notation net := (aworld (D * history client)).
Notation api := (session_request (recorded device Fixture)).
Notation bare_as := (bare device).

Definition warn : eff net unit := mark Warned.

Definition read_serial : eff net (option string) := fun a =>
  let (c, d) := serial (dev a).1 in
  (Ok c, AWorld (d, (dev a).2 ++ [Saw c]) (log a) (cookies a) (open_sessions a) (now a) (cost a)).

Definition _serial_log_offset : eff net (option nat) :=
  let* c := read_serial in ret (String.length <$> c).

Fixpoint restored_loop (n : nat) (offset : nat) (deadline : Q) : eff net (option bool) :=
  match n with
  | O => block
  | S n =>
      let* c := read_serial in
      let tail := match c with Some text => universal_newlines (sdrop offset text) | None => "" end in
      match restored_verdict tail with
      | Some b => ret (Some b)
      | None =>
          let* t := anow in
          if Qle_bool deadline t then ret None
          else asleep (1 # 2) ;;; restored_loop n offset deadline
      end
  end.

Definition _sessions_restored_after_reboot (offset : option nat) (read_timeout : Q) : eff net (option bool) :=
  match offset with
  | None => ret None
  | Some offset => let* t := anow in restored_loop fuel offset (t + read_timeout)
  end.

Definition favicon : request := Request GET "/favicon.webp" None (scalar 5).
Definition answering (r : response) : bool :=
  bool_decide (status_code r ∈ [200; 401; 403]).

(** One probe of the two readiness loops. *)
Definition probe_up : eff net bool :=
  try_except (let* resp := bare_as (Bare None) favicon in ret (answering resp))
    (catches RequestException) (fun _ => ret false).

Fixpoint up_loop (n : nat) (consecutive stable_polls : nat) (deadline : Q) : eff net bool :=
  match n with
  | O => block
  | S n =>
      let* t := anow in
      if Qle_bool deadline t then ret false
      else
        asleep 1 ;;;
        let* ok := probe_up in
        if (ok : bool) then
          if (stable_polls <=? S consecutive)%nat then ret true
          else up_loop n (S consecutive) stable_polls deadline
        else up_loop n 0 stable_polls deadline
  end.

Definition _wait_device_up (timeout : Q) (stable_polls : nat) : eff net bool :=
  let* t := anow in up_loop fuel 0 stable_polls (t + timeout).

Definition reboot_command : json := JObj [("cmd", JStr "reboot")].

Definition _reboot_with_session (sid : string) : eff net unit :=
  try_except
    (let* resp := bare_as (Bare (Some sid)) (Request POST "/cmd" (Some reboot_command) (scalar 30)) in
     assert (status_code resp =? 200))
    (catches RequestException) (fun _ => warn).

Definition _rearm_api_session (timeout : Q) : eff net unit :=
  try_except (wait_for_ready (recorded device Fixture) fuel timeout 1) (catches Exception_) (fun _ => warn).

(** ** Requests the tests repeat *)

Definition credentials : json :=
  JObj [("login", JStr DEFAULT_LOGIN); ("pass", JStr DEFAULT_PASSWORD)].
Definition auth_request (j : json) (t : Q) : request := Request POST "/auth" (Some j) (scalar t).
Definition session_probe : request := Request GET "/session" None (scalar 10).
Definition logout_request : request := Request POST "/logout" None (scalar 10).

Definition assert_is (k : string) (b : bool) (resp : response) : eff net unit :=
  let* j := lift (resp_json resp) in
  let* ok := lift (get_is k b j) in
  assert ok.

(** One login of the loops that fill the ring. *)
Definition login_fresh : eff net string :=
  asleep (3 # 10) ;;;
  let* resp := bare_as (Bare None) (auth_request credentials 20) in
  assert (status_code resp =? 200) ;;;
  assert_is "auth" true resp ;;;
  match jar_get "session_id" resp with
  | Some sid => ret sid
  | None => raise AssertionError
  end.

(** [try: for _ in range(n): sids.append(login); rest finally: f]: the
    [finally] has the sids collected so far. *)
Fixpoint fill (n : nat) (sids : list string) (rest fin : list string -> eff net unit) : eff net unit :=
  match n with
  | O => try_finally (rest sids) (fin sids)
  | S n => or_finally login_fresh (fin sids) (fun sid => fill n (sids ++ [sid]) rest fin)
  end.

Definition check_session (sid : string) (expected : Z) : eff net unit :=
  let* resp := bare_as (Bare (Some sid)) session_probe in
  assert (status_code resp =? expected).

Fixpoint check_all (sids : list string) : eff net unit :=
  match sids with
  | [] => ret tt
  | sid :: sids => check_session sid 200 ;;; check_all sids
  end.

Fixpoint logout_all (sids : list string) : eff net unit :=
  match sids with
  | [] => ret tt
  | sid :: sids =>
      asleep (15 # 100) ;;;
      try_except (let* _ := bare_as (Bare (Some sid)) logout_request in ret tt)
        (catches RequestException) (fun _ => ret tt) ;;;
      logout_all sids
  end.

(** [api.auth()] and the check after it. *)
Definition reauth : eff net unit :=
  let* resp := auth (recorded device Fixture) DEFAULT_LOGIN DEFAULT_PASSWORD in
  assert (status_code resp =? 200) ;;;
  assert_is "auth" true resp.

(** ** The reboot tests *)

(** From the offset to the device being up again. *)
Definition reboot_and_wait (sid : string) : eff net unit :=
  let* serial_offset := _serial_log_offset in
  assert (bool_decide (is_Some serial_offset)) ;;;
  _reboot_with_session sid ;;;
  let* restored := _sessions_restored_after_reboot serial_offset 600 in
  match restored with
  | None => raise AssertionError
  | Some false => raise PytestSkip
  | Some true =>
      let* up := _wait_device_up 1800 3 in
      assert up
  end.

Definition newest (sids : list string) : outcome string :=
  match last sids with Some sid => Ok sid | None => Raise IndexError end.

Definition test_au05_full_buffer_preserved_after_sw_reboot : eff net unit :=
  fill MAX_SESSIONS []
    (fun sids =>
       let* sid := lift (newest sids) in
       reboot_and_wait sid ;;;
       check_all sids)
    (fun sids =>
       logout_all sids ;;;
       _rearm_api_session 300).

Definition first_sid (sids : list string) : outcome string :=
  match sids with sid :: _ => Ok sid | [] => Raise IndexError end.

Definition test_au06_ring_wrap_preserved_after_sw_reboot : eff net unit :=
  fill (MAX_SESSIONS + 1) []
    (fun sids =>
       asleep 1 ;;;
       let* sid0 := lift (first_sid sids) in
       check_session sid0 401 ;;;
       let* sid := lift (newest sids) in
       reboot_and_wait sid ;;;
       check_all (drop 1 sids))
    (fun sids =>
       logout_all (drop 1 sids) ;;;
       _rearm_api_session 300).

(** AU-01 has its own loop: the first answer ends it. *)
Fixpoint au01_loop (n : nat) (deadline : Q) : eff net bool :=
  match n with
  | O => block
  | S n =>
      let* t := anow in
      if Qle_bool deadline t then ret false
      else
        asleep 2 ;;;
        let* ok := probe_up in
        if (ok : bool) then ret true else au01_loop n deadline
  end.

Definition fixture_cookie : eff net (option string) := fun a => (Ok (cookies a !! "session_id"), a).

Definition test_au01_session_preserved_after_sw_reboot (qemu : bool) : eff net unit :=
  let* old_sid := fixture_cookie in
  match old_sid with
  | None => raise AssertionError
  | Some old_sid =>
      let* serial_offset := (if qemu then _serial_log_offset else ret None) in
      try_except (let* _ := execute_command (recorded device Fixture) "reboot" in ret tt)
        (catches RequestException) (fun _ => warn) ;;;
      let* t := anow in
      let* device_up := au01_loop fuel (t + 1800) in
      assert device_up ;;;
      match serial_offset with
      | Some _ =>
          let* restored := _sessions_restored_after_reboot serial_offset 600 in
          match restored with
          | None => raise AssertionError
          | Some false => raise PytestSkip
          | Some true => ret tt
          end
      | None => warn
      end ;;;
      check_session old_sid 200 ;;;
      wait_for_ready (recorded device Fixture) fuel 1800 1
  end.

(** ** The ring tests *)

Definition test_au02_session_ring_buffer_eviction : eff net unit :=
  fill (MAX_SESSIONS + 1) []
    (fun session_cookies =>
       asleep 1 ;;;
       let* sid0 := lift (first_sid session_cookies) in
       check_session sid0 401 ;;;
       let* sid10 := lift (match session_cookies !! 10%nat with Some sid => Ok sid | None => Raise IndexError end) in
       check_session sid10 200)
    (fun session_cookies =>
       logout_all (drop 1 session_cookies) ;;;
       asleep (1 # 2) ;;;
       reauth).

Definition test_au03_logout_without_cookie : eff net unit :=
  let* resp := bare_as (Bare None) logout_request in
  assert (status_code resp =? 200) ;;;
  assert_is "logout" true resp.

Definition missing_fields (j : json) : eff net unit :=
  let* resp := bare_as (Bare None) (auth_request j 10) in
  assert (status_code resp =? 200) ;;;
  let* data := lift (resp_json resp) in
  let* no := lift (get_is "auth" false data) in
  assert no ;;;
  let* err := lift (py_in "error" data) in
  assert err.

Definition test_au04_login_missing_fields : eff net unit :=
  missing_fields (JObj [("login", JStr "admin")]) ;;;
  missing_fields (JObj [("pass", JStr "admin")]) ;;;
  missing_fields (JObj []).

Definition test_h3_concurrent_sessions : eff net unit :=
  let* resp := bare_as (Bare None) (auth_request credentials 10) in
  assert (status_code resp =? 200) ;;;
  assert_is "auth" true resp ;;;
  let session_b := Bare (jar_get "session_id" resp) in
  let* resp := ApiClient.logout (recorded device Fixture) in
  assert (status_code resp =? 200) ;;;
  assert_is "logout" true resp ;;;
  let* resp := get_session (recorded device Fixture) in
  assert (status_code resp =? 401) ;;;
  let* resp := bare_as session_b session_probe in
  assert (status_code resp =? 200) ;;;
  let* _ := bare_as session_b logout_request in
  reauth.

(** ** The settings tests *)

(** One POST /settings that must be refused, or accepted. *)
Definition update_expect (b : bool) (j : json) : eff net unit :=
  let* resp := update_settings (recorded device Fixture) j in
  assert (status_code resp =? 200) ;;;
  assert_is "success" b resp.

Definition settings_json : eff net json :=
  let* resp := get_settings (recorded device Fixture) in lift (resp_json resp).

Definition one (k : string) (v : json) : json := JObj [(k, v)].
Definition a_times (n : nat) : json := JStr (String.concat "" (replicate n "a")).

Definition unchanged (key : string) (original : json) : eff net unit :=
  let* s := settings_json in
  let* v := lift (jindex key s) in
  assert (jeq v original).

Definition write_back (j : json) : eff net unit :=
  let* _ := update_settings (recorded device Fixture) j in ret tt.

Definition test_st01_hostname_validation : eff net unit :=
  let* s := settings_json in
  let* original := lift (jindex "hostname" s) in
  try_finally
    (update_expect false (one "hostname" (JStr "valid-host.name")) ;;;
     unchanged "hostname" original ;;;
     update_expect false (one "hostname" (JStr "valid_host_name")) ;;;
     unchanged "hostname" original ;;;
     update_expect true (one "hostname" (a_times 31)) ;;;
     update_expect false (one "hostname" (a_times 32)))
    (write_back (one "hostname" original)).

Definition test_st02_login_validation : eff net unit :=
  let* s := settings_json in
  let* v := lift (py_get "login" s) in
  let original_login := default (JStr DEFAULT_LOGIN) v in
  try_finally
    (update_expect false (one "login" (JStr "admin@test")) ;;;
     update_expect false (one "login" (JStr "admin.test")) ;;;
     update_expect false (one "login" (JStr "admin!test")) ;;;
     update_expect true (one "login" (a_times 31)) ;;;
     let* s := settings_json in
     let* saved := lift (py_get "login" s) in
     assert (match saved with Some j => jeq j (a_times 31) | None => false end) ;;;
     update_expect false (one "login" (a_times 32)))
    (write_back (one "login" original_login)).

Definition test_st03_password_empty_rejected : eff net unit :=
  update_expect false (one "pass" (JStr "")) ;;;
  let* s := settings_json in
  let* v := lift (py_get "pass" s) in
  assert (match v with Some j => jeq j (JStr DEFAULT_PASSWORD) | None => false end).

Definition is_default_of (k v : string) (s : json) : eff net unit :=
  let* j := lift (py_get k s) in
  assert (match j with Some j => jeq j (JStr v) | None => false end).

Definition test_st04_set_default_settings_restores_credentials : eff net unit :=
  let* original_settings := settings_json in
  try_finally
    (update_expect true (one "login" (JStr "testuser123")) ;;;
     update_expect true (one "pass" (JStr "testpass123")) ;;;
     let* _ := execute_command (recorded device Fixture) "set_default_settings" in
     let* settings := settings_json in
     is_default_of "login" DEFAULT_LOGIN settings ;;;
     is_default_of "pass" DEFAULT_PASSWORD settings)
    (write_back original_settings).

(** The [finally] of ST-05 and ST-06: only a value that was there goes back. *)
Definition write_back_opt (k : string) (original : option json) : eff net unit :=
  match original with
  | None | Some JNull => ret tt
  | Some v => write_back (one k v)
  end.

Definition test_st05_timeout_validation : eff net unit :=
  asleep 1 ;;;
  let* s := settings_json in
  let* original_timeout := lift (py_get "cache_value_timeout_s" s) in
  try_finally
    (update_expect true (one "cache_value_timeout_s" (JNum 0)) ;;;
     update_expect true (one "cache_value_timeout_s" (JNum 65535)) ;;;
     update_expect false (one "cache_value_timeout_s" (JNum 65536)) ;;;
     update_expect false (one "cache_value_timeout_s" (JNum (-1))))
    (write_back_opt "cache_value_timeout_s" original_timeout).

Definition test_st06_bool_type_check : eff net unit :=
  let* s := settings_json in
  let* original_vout := lift (py_get "vout" s) in
  try_finally
    (update_expect false (one "vout" (JNum 1)) ;;;
     update_expect true (one "vout" (JBool true)))
    (write_back_opt "vout" original_vout).

End Tests.

(** ** What the helpers show and cost *)

Section Runs.
Context {D : Type} (device : client -> request -> D -> outcome response * D).
Context (serial : D -> option string * D).
Context (fuel : nat).

Notation net := (aworld (D * history client)).
Notation runs := (runs device true fuel 1800).
Notation nice := (nice device fuel 1800).
Notation ends_here := (ends_here device true fuel 1800).
Notation goes_on_by := (goes_on_by device true fuel 1800).

(** The serial log was read, and from [offset] on its last marker says [b]. *)
Definition marker_since (offset : nat) (b : bool) (e : event client) : Prop :=
  exists text, e = Saw (Some text) /\ restored_verdict (universal_newlines (sdrop offset text)) = Some b.

(** The log had [n] bytes. *)
Definition log_size (n : nat) (e : event client) : Prop := exists text, e = Saw (Some text) /\ String.length text = n.

(** The device answered a probe without a session. *)
Definition up (e : event client) : Prop :=
  exists r, e = Asked (Bare None) favicon (Ok r) /\ answering r = true.

(** A reboot was requested with a session: accepted, or no usable reply. *)
Definition reboot_sent (sid : string) (e : event client) : Prop :=
  exists r, e = Asked (Bare (Some sid)) (Request POST "/cmd" (Some reboot_command) (scalar 30)) r /\
    match r with Ok r => status_code r = 200 | Raise x => catches RequestException x = true | Blocked => False end.

(** A login answered with this session id; a session check with this status. *)
Definition logged_in (sid : string) (e : event client) : Prop :=
  exists r j, e = Asked (Bare None) (auth_request credentials 20) (Ok r) /\ status_code r = 200 /\
    body_json r = Some j /\ get_is "auth" true j = Ok true /\ jar_get "session_id" r = Some sid.
Definition checked (status : Z) (sid : string) (e : event client) : Prop :=
  exists r, e = Asked (Bare (Some sid)) session_probe (Ok r) /\ status_code r = status.

Lemma runs_serial : runs 0 (read_serial serial) (fun c h => h = [Saw c]).
Proof.
  intros a. unfold read_serial. destruct (serial (dev a).1) as [c d]. exists [Saw c]. cbn [fst snd].
  split_and!; [split; [done|done|exists []; by rewrite app_nil_r]|by intros x [= <-]|].
  intros _. split; [done|done|apply Qle_refl|]. intros _. cbn [now]. lra.
Qed.

Lemma runs_offset : runs 0 (_serial_log_offset serial) (fun o h => forall n, o = Some n -> in_order [log_size n] h).
Proof.
  eapply runs_le; [eapply (runs_bind 0 0); [done|apply runs_serial|]|done]. intros c h ->. apply runs_ret.
  intros n Hn. rewrite app_nil_r. destruct c as [text|]; [|done]. injection Hn as <-. apply in_order_one. by exists text.
Qed.

(** A read of the log takes no time. *)
Lemma serial_step a : exists c a1, read_serial serial a = (Ok c, a1) /\ grown a a1 [Saw c] /\ now a1 = now a /\
  (nice a -> behaved true 0 a (Ok tt) a1).
Proof.
  destruct (runs_serial a) as (h & G & P & B). unfold read_serial in *. destruct (serial (dev a).1) as [c d].
  cbn [fst snd] in *. rewrite (P c eq_refl) in G. eexists c, _. split_and!; [reflexivity|exact G|done|].
  intros N. by destruct (B N) as [_ S L T].
Qed.

(** The verdict of one read, and what it says. *)
Definition tail_of (offset : nat) (c : option string) : string :=
  match c with Some text => universal_newlines (sdrop offset text) | None => "" end.

Lemma saw_marker offset c b : restored_verdict (tail_of offset c) = Some b -> marker_since offset b (Saw c).
Proof. destruct c as [text|]; [|done]. intros H. by exists text. Qed.

Lemma restored_loop_S n offset deadline a c a1 :
  read_serial serial a = (Ok c, a1) ->
  restored_loop serial (S n) offset deadline a =
  match restored_verdict (tail_of offset c) with
  | Some b => (Ok (Some b), a1)
  | None => if Qle_bool deadline (now a1) then (Ok None, a1) else restored_loop serial n offset deadline (asleep (1 # 2) a1).2
  end.
Proof.
  intros E. cbn [restored_loop]. unfold bind at 1. rewrite E. fold (tail_of offset c).
  destruct (restored_verdict (tail_of offset c)); [done|]. unfold bind at 1, anow. by destruct (Qle_bool deadline (now a1)).
Qed.

Lemma runs_restored offset t : (0 <= t)%Q -> (t <= 900)%Q ->
  runs (t + (1 # 2) + 0) (_sessions_restored_after_reboot serial fuel (Some offset) t)
    (fun o h => forall b, o = Some b -> in_order [marker_since offset b] h).
Proof.
  intros H0 H9 a. unfold _sessions_restored_after_reboot, bind, anow.
  assert (forall a1 a2 c h0 (r : option bool), grown a1 a2 [Saw c] -> (nice a1 -> behaved true 0 a1 (Ok tt) a2) ->
    (forall b, r = Some b -> restored_verdict (tail_of offset c) = Some b) ->
    ends_here 0 (fun (o : option bool) h => forall b, o = Some b -> in_order [marker_since offset b] (h0 ++ h)) a1 (Ok r) a2) as K.
  { intros a1 a2 c h0 r G B Hr. exists [Saw c]. split_and!; [done| |intros N; by destruct (B N)].
    intros x [= <-] b Hb. apply in_order_after, in_order_one, saw_marker, Hr, Hb. }
  apply (spin_runs (fun _ : unit => fun n => restored_loop serial n offset (now a + t)) (now a + t) (1 # 2) 0 (1 # 2)
    (fun _ _ => True)); try done; try reflexivity.
  - intros [] n a1 h0 _ Hl. destruct (serial_step a1) as (c & a2 & E & G & T & B). rewrite (restored_loop_S _ _ _ _ _ _ E), T.
    destruct (restored_verdict _) as [b|] eqn:Ev; [eapply K; [exact G|exact B|by intros ? [= <-]]|].
    rewrite (late_now _ a1 Hl). by eapply K; [exact G|exact B|].
  - intros [] n a1 h0 _ Hl. destruct (serial_step a1) as (c & a2 & E & G & T & B). rewrite (restored_loop_S _ _ _ _ _ _ E), T.
    destruct (restored_verdict _) as [b|] eqn:Ev.
    { left. destruct (K a1 a2 c h0 (Some b) G B) as (h & G' & P' & B'); [by intros ? [= <-]|].
      exists h. split_and!; [done|done|]. intros N. destruct (B' N) as [O S L T']. split; [done|done|done|].
      intros Ht. cbn [snd]. rewrite T. lra. }
    right. exists tt, (asleep (1 # 2) a2).2, [Saw c]. rewrite (early_now _ a1 Hl). split_and!; [|done|done].
    destruct G as [G1 G2 G3]. split; [by split|]. intros N. destruct (B N) as [O S L T']. cbn [asleep modify snd now].
    split; [|rewrite T; lra]. split; [done|done|cbn [now]; lra|]. intros Ht. cbn [now]. rewrite T. lra.
  - change (Z.of_nat 1800) with 1800. change (inject_Z 1800) with 1800%Q. lra.
Qed.

(** One probe: one request, and [true] only for an answer that counts. *)
Lemma probe_step a : exists r, grown a (probe_up device a).2 [Asked (Bare None) favicon r] /\
  ((probe_up device a).1 = Ok true -> up (Asked (Bare None) favicon r)) /\
  (nice a -> behaved true 5 a (probe_up device a).1 (probe_up device a).2).
Proof.
  destruct (bare_spec (device := device) (skips := true) (fuel := fuel) (limit := 1800) (Bare None) favicon a)
    as (r & G & E & B). exists r. unfold probe_up, try_except, bind.
  destruct (bare device (Bare None) favicon a) as [r' a1]. cbn [fst snd] in *. subst r'.
  destruct r as [resp|e|]; [|destruct (catches RequestException e)|]; cbn [fst snd ret] in *;
    (split_and!; [done|try done|intros N; destruct (B N) as [O S L T]; split; [try done; exact O|done|done|exact T]]).
  intros [= H]. by exists resp.
Qed.

(** [k] answers in a row, at the end. *)
Definition in_a_row (k : nat) (h : history client) : Prop :=
  exists h1 es, h = h1 ++ es /\ length es = k /\ Forall up es.

Lemma in_a_row_snoc k h e : in_a_row k h -> up e -> in_a_row (S k) (h ++ [e]).
Proof.
  intros (h1 & es & -> & <- & Hu) He. exists h1, (es ++ [e]). rewrite app_assoc, length_app. cbn.
  split_and!; [done|lia|apply Forall_app; split; [done|by constructor]].
Qed.

Lemma in_a_row_0 h : in_a_row 0 h.
Proof. exists h, []. by rewrite app_nil_r. Qed.

Lemma in_a_row_order k h : in_a_row k h -> in_order (replicate k up) h.
Proof.
  intros (h1 & es & -> & <- & Hu). apply in_order_after. induction Hu as [|e es He Hu IH]; [done|].
  by exists [], e, es.
Qed.

Lemma up_loop_S n k stable deadline a : (now a < deadline)%Q ->
  let p := probe_up device (asleep 1 a).2 in
  up_loop device (S n) k stable deadline a =
  match p.1 with
  | Ok true => if (stable <=? S k)%nat then (Ok true, p.2) else up_loop device n (S k) stable deadline p.2
  | Ok false => up_loop device n 0 stable deadline p.2
  | Raise e => (Raise e, p.2)
  | Blocked => (Blocked, p.2)
  end.
Proof.
  intros H. cbn [up_loop]. unfold bind at 1, anow. rewrite (early_now _ _ H). unfold bind. cbn [asleep modify snd].
  destruct (probe_up device _) as [[[]|e|] a1]; cbn [fst snd]; try done. by destruct (_ <=? _)%nat.
Qed.

Lemma runs_up t stable : (0 <= t)%Q -> (t <= 1800)%Q -> (0 < stable)%nat ->
  runs (t + 6 + 0) (_wait_device_up device fuel t stable) (fun ok h => ok = true -> in_a_row stable h).
Proof.
  intros H0 H1 Hst a. unfold _wait_device_up, bind, anow.
  apply (spin_runs (fun k n => up_loop device n k stable (now a + t)) (now a + t) 6 0 1
    (fun k h => in_a_row k h /\ (k < stable)%nat)); try done; try reflexivity.
  - intros k n a1 h0 _ Hl. cbn [up_loop]. unfold bind, anow. rewrite (late_now _ _ Hl). exists [].
    split_and!; [apply grown_refl|by intros x [= <-]|]. intros _. split; [done|done|apply Qle_refl|].
    intros _. cbn [snd ret]. lra.
  - intros k n a1 h0 [Hr Hk] Hl. rewrite (up_loop_S _ _ _ _ _ Hl). cbv zeta.
    set (a2 := (asleep 1 a1).2). destruct (probe_step a2) as (r & G & U & B).
    assert (grown a1 (probe_up device a2).2 [Asked (Bare None) favicon r]) as G' by (by destruct G; split).
    assert (nice a1 -> behaved true 6 a1 (probe_up device a2).1 (probe_up device a2).2 /\
              (now a1 + 1 <= now (probe_up device a2).2)%Q) as B'.
    { intros N. destruct B as [O S L T]; [by destruct N; split|]. change (now a2) with (now a1 + 1)%Q in L, T.
      split; [|lra]. split; [done|done|lra|]. intros Ht. specialize (T Ht). lra. }
    destruct (probe_up device a2) as [[[]|e|] a3]; cbn [fst snd] in *.
    1: destruct (Nat.leb_spec stable (S k)) as [Hs|Hs].
    1,4,5: left; exists [Asked (Bare None) favicon r]; (split_and!; [done| |intros N; by destruct (B' N) as [[] _]]); try done.
    1: { intros x [= <-] _. replace stable with (S k) by lia. apply in_a_row_snoc; auto. }
    + right. exists (S k), a3, [Asked (Bare None) favicon r]. split_and!; [|apply in_a_row_snoc; auto|lia|done].
      split; [done|]. intros N. destruct (B' N) as [[O S L T] L1]. split; [by split|done].
    + right. exists 0%nat, a3, [Asked (Bare None) favicon r]. split_and!; [|apply in_a_row_0|lia|done].
      split; [done|]. intros N. destruct (B' N) as [[O S L T] L1]. split; [by split|done].
  - split; [apply in_a_row_0|done].
Qed.

Lemma runs_warn : runs 0 (warn (D := D)) anything.
Proof. eapply runs_weaken; [apply runs_mark|done|done]. Qed.

Lemma runs_reboot_with sid : runs 30 (_reboot_with_session device sid) (fun _ h => in_order [reboot_sent sid] h).
Proof.
  intros a. set (q := Request POST "/cmd" (Some reboot_command) (scalar 30)).
  destruct (bare_spec (device := device) (skips := true) (fuel := fuel) (limit := 1800) (Bare (Some sid)) q a) as (r & G & E & B).
  unfold _reboot_with_session, try_except, bind. fold q. destruct (bare device (Bare (Some sid)) q a) as [r' a1] eqn:Eb.
  cbn [fst snd] in *. subst r'.
  assert (forall e, catches RequestException e = true -> r = Raise e ->
    exists h, grown a (warn a1).2 h /\ (forall x, (warn a1).1 = Ok x -> in_order [reboot_sent sid] h) /\
      (nice a -> behaved true 30 a (warn a1).1 (warn a1).2)) as K.
  { intros e He ->. destruct (runs_warn a1) as (h & G' & _ & B'). exists ([Asked (Bare (Some sid)) q (Raise e)] ++ h).
    split_and!; [by eapply grown_trans| |].
    - intros _ _. exists [], (Asked (Bare (Some sid)) q (Raise e)), h. split_and!; [done| |done]. by exists (Raise e).
    - intros N. pose proof (B N) as B1. pose proof (B' (behaved_nice _ _ _ _ _ G B1 N)) as B2.
      destruct B1 as [_ S1 L1 T1], B2 as [O2 S2 L2 T2]. split; [done|congruence|lra|]. intros Ht.
      specialize (T2 Ht). specialize (T1 (grown_timely _ _ _ G' Ht)). change (timeout q).2 with 30%Q in T1. lra. }
  destruct r as [resp|e|].
  - unfold assert. destruct (status_code resp =? 200) eqn:Es; cbn [ret raise]; exists [Asked (Bare (Some sid)) q (Ok resp)];
      (split_and!; [done| |intros N; destruct (B N) as [O S L T]; by split]); [|done].
    intros _ _. bool_to_prop. apply in_order_one. by exists (Ok resp).
  - destruct (catches RequestException e) eqn:Ee; [by eapply K|]. exists [Asked (Bare (Some sid)) q (Raise e)].
    split_and!; [done|done|]. intros N. destruct (B N) as [O S L T]. by split.
  - exists [Asked (Bare (Some sid)) q Blocked]. split_and!; [done|done|]. intros N. by destruct (B N) as [[] _ _ _].
Qed.

Lemma runs_rearm_api : runs (300 + (1 + 11 + 11) + 0) (_rearm_api_session device fuel 300) anything.
Proof.
  apply runs_try; [done| |intros; apply runs_warn].
  eapply runs_weaken; [by apply runs_wait_for_ready|done|done].
Qed.

Lemma ordinary_is k b j : ordinary true (get_is k b j).
Proof. by destruct j. Qed.

Lemma runs_assert_is k b r (Phi : unit -> history client -> Prop) :
  (forall j, body_json r = Some j -> get_is k b j = Ok true -> Phi tt []) -> runs 0 (assert_is k b r) Phi.
Proof.
  intros H. unfold assert_is. apply runs_lift_bind; [done|apply ordinary_json|]. intros j Hj.
  apply runs_lift_bind; [done|apply ordinary_is|]. intros ok Hok. apply runs_assert. intros ->.
  apply (H j); [|done]. unfold resp_json in Hj. destruct (body_json r); [by injection Hj as ->|done].
Qed.

(** The same, with more to come. *)
Lemma runs_assert_is_bind {B} b0 k b r (m : unit -> eff net B) Psi :
  (0 <= b0)%Q -> (forall j, body_json r = Some j -> get_is k b j = Ok true -> runs b0 (m tt) Psi) ->
  runs b0 (bind (assert_is k b r) m) Psi.
Proof.
  intros Hb H. eapply runs_le; [eapply (runs_bind 0 b0 _ _ (fun _ h => h = [] /\ exists j, body_json r = Some j /\ get_is k b j = Ok true)); [done| |]|lra].
  - apply runs_assert_is. intros j H1 H2. split; [done|]. by exists j.
  - intros [] h [-> (j & H1 & H2)]. by apply (H j).
Qed.

Definition login_cost : Q := (3 # 10) + 20.

Lemma runs_login : runs login_cost (login_fresh device) (fun sid h => in_order [logged_in sid] h).
Proof.
  unfold login_fresh. eapply runs_bind; [done|by apply runs_sleep|]. intros _ h ->. cbn [app].
  eapply runs_le; [eapply (runs_bind 20 0); [done|apply runs_bare|]|done]. intros resp h ->.
  apply runs_assert_bind; [done|]. intros Hs. apply runs_assert_is_bind; [done|]. intros j Hj Ha.
  destruct (jar_get "session_id" resp) as [sid|] eqn:Ej; [|by apply runs_raise].
  apply runs_ret. rewrite app_nil_r. bool_to_prop. apply in_order_one. by exists resp, j.
Qed.

Lemma runs_check sid status : runs 10 (check_session device sid status) (fun _ h => in_order [checked status sid] h).
Proof.
  unfold check_session. eapply runs_le; [eapply (runs_bind 10 0); [done|apply runs_bare|]|done]. intros resp h ->.
  apply runs_assert. intros Hs. bool_to_prop. rewrite app_nil_r. apply in_order_one. by exists resp.
Qed.

(** [n] times [c] seconds. *)
Definition times (n : nat) (c : Q) : Q := inject_Z (Z.of_nat n) * c.

Lemma times_S n c : (times (S n) c == c + times n c)%Q.
Proof. unfold times. rewrite Nat2Z.inj_succ, <- Z.add_1_r, inject_Z_plus. change (inject_Z 1) with 1%Q. lra. Qed.

Lemma times_nonneg n c : (0 <= c)%Q -> (0 <= times n c)%Q.
Proof.
  intros H. unfold times. apply Qmult_le_0_compat; [|done]. change 0%Q with (inject_Z 0). rewrite <- Zle_Qle. lia.
Qed.

Lemma runs_check_all sids :
  runs (times (length sids) 10) (check_all device sids) (fun _ h => in_order (checked 200 <$> sids) h).
Proof.
  induction sids as [|sid sids IH]; cbn [check_all length fmap list_fmap].
  { eapply runs_le; [by apply runs_ret|by apply times_nonneg]. }
  eapply runs_le; [eapply (runs_bind 10 (times (length sids) 10)); [by apply times_nonneg|apply (runs_check sid 200)|]|rewrite times_S; lra].
  intros u h Hh. eapply runs_weaken; [exact IH|lra|]. intros x h' H'.
  by apply (in_order_app [checked 200 sid] (checked 200 <$> sids)).
Qed.

Lemma runs_logout_all sids : runs (times (length sids) ((15 # 100) + 10)) (logout_all device sids) anything.
Proof.
  induction sids as [|sid sids IH]; cbn [logout_all length].
  { eapply runs_le; [by apply runs_ret|by apply times_nonneg]. }
  eapply runs_le; [eapply (runs_bind (15 # 100) (10 + times (length sids) ((15 # 100) + 10)))|rewrite times_S; lra].
  - pose proof (times_nonneg (length sids) ((15 # 100) + 10) ltac:(done)). lra.
  - by apply runs_sleep.
  - intros u h Hh. eapply (runs_bind 10 _ _ _ anything); [by apply times_nonneg| |intros; exact IH].
    eapply runs_le; [eapply (runs_try 10 0); [done| |intros; by apply runs_ret]|lra].
    eapply runs_le; [eapply (runs_bind 10 0 _ _ anything); [done|eapply runs_weaken; [apply runs_bare|done|done]|intros; by apply runs_ret]|lra].
Qed.

(** What the reboot tests see of the reboot: the size of the log, then the
    request, then a log whose last marker past that size says that the
    sessions were loaded, then three answers. *)
Definition reboot_seen (sid : string) (n : nat) : list (event client -> Prop) :=
  [log_size n; reboot_sent sid; marker_since n true; up; up; up].

Definition reboot_cost : Q := 0 + (30 + (600 + (1 # 2) + 0 + (1800 + 6 + 0 + 0))).

Lemma runs_reboot_and_wait sid :
  runs reboot_cost (reboot_and_wait device serial fuel sid) (fun _ h => exists n, in_order (reboot_seen sid n) h).
Proof.
  unfold reboot_and_wait. eapply runs_bind; [done|apply runs_offset|]. intros o h1 Ho.
  apply runs_assert_bind; [done|]. intros Hs. bool_to_prop. destruct Hs as [n ->]. specialize (Ho n eq_refl).
  eapply runs_bind; [done|apply runs_reboot_with|]. intros u h2 Hr.
  eapply runs_bind; [done|by apply runs_restored|]. intros [[]|] h3 Hm; [| |].
  2: eapply runs_le; [apply runs_raise; by right|done].
  2: eapply runs_le; [by apply runs_raise|done].
  eapply runs_bind; [done|by apply runs_up; [done|done|lia]|]. intros ok h4 Hu. apply runs_assert. intros ->.
  exists n. rewrite app_nil_r. specialize (Hm true eq_refl). specialize (Hu eq_refl). apply in_a_row_order in Hu.
  change (reboot_seen sid n) with ([log_size n] ++ [reboot_sent sid] ++ [marker_since n true] ++ replicate 3 up).
  by repeat apply in_order_app.
Qed.

(** The loop that fills the ring, with what follows it. *)
Lemma runs_fill br bf n sids rest fin (Psi : list string -> history client -> Prop) :
  (0 <= br)%Q -> (0 <= bf)%Q ->
  (forall sids', length sids' = (length sids + n)%nat -> runs br (rest sids') (fun _ h => Psi sids' h)) ->
  (forall sids', (length sids' <= length sids + n)%nat -> runs bf (fin sids') anything) ->
  (forall sids' h h', Psi sids' h -> Psi sids' (h ++ h')) ->
  runs (times n login_cost + (br + bf)) (fill device n sids rest fin)
    (fun _ h => exists new h1 h2, length new = n /\ h = h1 ++ h2 /\ in_order (logged_in <$> new) h1 /\ Psi (sids ++ new) h2).
Proof.
  intros Hbr Hbf. revert sids. induction n as [|n IH]; intros sids Hr Hf HP; cbn [fill].
  - eapply runs_le; [eapply (runs_finally br bf _ _ (fun _ h => Psi sids h)); [done|apply Hr; lia|apply Hf; lia|]|].
    + intros u h h' H. exists [], [], (h ++ h'). split_and!; [done|done|done|]. rewrite app_nil_r. by apply HP.
    + pose proof (times_nonneg 0 login_cost ltac:(done)). lra.
  - pose proof (times_nonneg n login_cost ltac:(done)) as Hn.
    eapply runs_le; [eapply (runs_or_finally login_cost (times n login_cost + (br + bf)) _ _ _ (fun sid h => in_order [logged_in sid] h))|rewrite times_S; lra].
    + lra.
    + apply runs_login.
    + eapply runs_weaken; [apply Hf; lia|lra|done].
    + intros sid h Hh. eapply runs_weaken; [apply (IH (sids ++ [sid]))|lra|].
      * intros sids' E. apply Hr. rewrite length_app in E. cbn in E. lia.
      * intros sids' E. apply Hf. rewrite length_app in E. cbn in E. lia.
      * done.
      * intros u h' (new & h1 & h2 & Hl & -> & H1 & H2). exists (sid :: new), (h ++ h1), h2.
        rewrite <- app_assoc in H2. rewrite app_assoc. split_and!; [cbn; lia|done| |done].
        change (logged_in <$> sid :: new) with ([logged_in sid] ++ (logged_in <$> new)). by apply in_order_app.
Qed.

Lemma runs_cleanup sids k : (length sids <= k)%nat ->
  runs (times k ((15 # 100) + 10) + (300 + (1 + 11 + 11) + 0))
    (logout_all device sids ;;; _rearm_api_session device fuel 300) anything.
Proof.
  intros Hk. eapply runs_le; [eapply (runs_bind _ _ _ _ anything); [|apply runs_logout_all|intros; apply runs_rearm_api]|]; [done|].
  assert (inject_Z (Z.of_nat (length sids)) <= inject_Z (Z.of_nat k))%Q as H by (rewrite <- Zle_Qle; lia).
  unfold times. lra.
Qed.

Definition au05_seen (sids : list string) (h : history client) : Prop :=
  exists sid n, last sids = Some sid /\ in_order (reboot_seen sid n ++ (checked 200 <$> sids)) h.

Definition au05_cost : Q :=
  times 10 login_cost + (reboot_cost + times 10 10 + (times 10 ((15 # 100) + 10) + (300 + (1 + 11 + 11) + 0))).

Lemma runs_au05 :
  runs au05_cost (test_au05_full_buffer_preserved_after_sw_reboot device serial fuel)
    (fun _ h => exists sids h1 h2, length sids = 10%nat /\ h = h1 ++ h2 /\ in_order (logged_in <$> sids) h1 /\ au05_seen sids h2).
Proof.
  eapply runs_weaken; [apply (runs_fill (reboot_cost + times 10 10) (times 10 ((15 # 100) + 10) + (300 + (1 + 11 + 11) + 0))
    _ _ _ _ au05_seen); try done|apply Qle_refl|done].
  - intros sids Hl. apply runs_lift_bind; [done|by unfold newest; destruct (last sids)|]. intros sid Hsid.
    eapply runs_bind; [done|apply runs_reboot_and_wait|]. intros u h [n Hn].
    eapply runs_weaken; [apply runs_check_all|rewrite Hl; apply Qle_refl|]. intros x h' Hc. exists sid, n.
    split; [|by apply in_order_app]. unfold newest in Hsid. by destruct (last sids); [injection Hsid as ->|].
  - intros sids Hl. by apply runs_cleanup.
  - intros sids h h' (sid & n & E & H). exists sid, n. split; [done|by apply in_order_before].
Qed.

Definition au06_seen (sids : list string) (h : history client) : Prop :=
  exists sid0 sid n, head sids = Some sid0 /\ last sids = Some sid /\
    in_order ([checked 401 sid0] ++ reboot_seen sid n ++ (checked 200 <$> drop 1 sids)) h.

Definition au06_cost : Q :=
  times 11 login_cost + (1 + (10 + (reboot_cost + times 10 10)) + (times 10 ((15 # 100) + 10) + (300 + (1 + 11 + 11) + 0))).

Lemma runs_au06 :
  runs au06_cost (test_au06_ring_wrap_preserved_after_sw_reboot device serial fuel)
    (fun _ h => exists sids h1 h2, length sids = 11%nat /\ h = h1 ++ h2 /\ in_order (logged_in <$> sids) h1 /\ au06_seen sids h2).
Proof.
  eapply runs_weaken; [apply (runs_fill (1 + (10 + (reboot_cost + times 10 10))) (times 10 ((15 # 100) + 10) + (300 + (1 + 11 + 11) + 0))
    _ _ _ _ au06_seen); try done|apply Qle_refl|done].
  - intros sids Hl. eapply runs_bind; [done|by apply runs_sleep|]. intros u h ->. cbn [app].
    apply runs_lift_bind; [done|by unfold first_sid; destruct sids|]. intros sid0 Hsid0.
    eapply runs_bind; [done|apply (runs_check sid0 401)|]. intros u1 h1 H1.
    apply runs_lift_bind; [done|by unfold newest; destruct (last sids)|]. intros sid Hsid.
    eapply runs_bind; [done|apply runs_reboot_and_wait|]. intros u2 h2 [n Hn].
    eapply runs_weaken; [apply runs_check_all|rewrite length_drop, Hl; apply Qle_refl|]. intros x h' Hc. exists sid0, sid, n.
    split_and!; [by destruct sids; [|injection Hsid0 as ->]|by unfold newest in Hsid; destruct (last sids); [injection Hsid as ->|]|].
    apply (in_order_app [checked 401 sid0]); [done|]. by apply in_order_app.
  - intros sids Hl. apply runs_cleanup. rewrite length_drop. cbn in Hl. lia.
  - intros sids h h' (sid0 & sid & n & E0 & E & H). exists sid0, sid, n. split_and!; [done|done|by apply in_order_before].
Qed.

(** ** The settings tests give back what they took *)

Lemma runs_api q : runs (DELAY_S + (timeout q).2) (session_request (recorded device Fixture) q) anything.
Proof. eapply runs_weaken; [apply runs_request|apply Qle_refl|done]. Qed.

Lemma runs_update_expect b j : runs 31 (update_expect device b j) anything.
Proof.
  eapply runs_le; [eapply (runs_bind _ 0 _ _ anything); [done|apply runs_api|]|done]. intros resp h _.
  apply runs_assert_bind; [done|]. intros _. by apply runs_assert_is.
Qed.

Lemma runs_settings_json : runs 31 (settings_json device) anything.
Proof.
  eapply runs_le; [eapply (runs_bind _ 0 _ _ anything); [done|apply runs_api|]|done]. intros resp h _.
  apply runs_lift; [apply ordinary_json|done].
Qed.

Lemma runs_unchanged key v : runs 31 (unchanged device key v) anything.
Proof.
  eapply runs_le; [eapply (runs_bind _ 0 _ _ anything); [done|apply runs_settings_json|]|done]. intros s h _.
  apply runs_lift_bind; [done|apply ordinary_item|]. intros w _. by apply runs_assert.
Qed.

Lemma runs_seq {A} b1 b2 (m : eff net unit) (k : unit -> eff net A) :
  (0 <= b2)%Q -> runs b1 m anything -> runs b2 (k tt) anything -> runs (b1 + b2) (bind m k) anything.
Proof. intros Hb H1 H2. eapply (runs_bind _ _ _ _ anything); [done|done|]. intros [] h _. exact H2. Qed.

(** A [finally] that writes [j] back: it is the last request, and the verdict
    of the body stands unless that request itself fails. *)
Lemma writes_back b (m : eff net unit) j a :
  runs b m anything -> nice a ->
  let q := Request POST "/settings" (Some j) (scalar 30) in
  let (r, a') := try_finally m (write_back device j) a in
  exists l, log a' = log a ++ l ++ [q] /\ ordinary true r /\ (is_ok r = true -> (m a).1 = Ok tt) /\
    (r = (m a).1 \/ exists e, (device Fixture q (dev (m a).2).1).1 = Raise e /\ r = Raise e).
Proof.
  intros R N q. destruct (R a) as (h & [_ _ [l Hl]] & _ & B). destruct (B N) as [O _ _ _].
  unfold try_finally. destruct (m a) as [r a1]. cbn [fst snd] in *.
  pose proof (nice_device _ N Fixture q (dev a1).1) as Hd. unfold NetLog.answers in Hd.
  assert (exists a2, log a2 = log a1 ++ [q] /\ write_back device j a1 =
    (match (device Fixture q (dev a1).1).1 with Ok _ => Ok tt | Raise e => Raise e | Blocked => Blocked end, a2)) as (a2 & Hl2 & E2).
  { unfold write_back, update_settings, http_post, bind, session_request, asleep, modify, recorded.
    cbn [bind dev log cookies open_sessions now cost]. fold q. destruct (device Fixture q (dev a1).1) as [[r'|e|] d]; (eexists; split; cycle 1; [reflexivity|done]). }
  rewrite E2. destruct (device Fixture q (dev a1).1) as [[r'|e|] d]; cbn [fst] in *; [| |done].
  - destruct r as [[]|e|]; [| |done]; exists l; rewrite Hl2, Hl, <- app_assoc; (split_and!; [done|done|done|by left]).
  - destruct r as [[]|e'|]; [| |done]; exists l; rewrite Hl2, Hl, <- app_assoc; (split_and!; [done|by left|done|right; by exists e]).
Qed.

(** [test], run in [a], has [original] as its last request after [a1], and ends. *)
Definition restores (test : eff net unit) (a a1 : net) (original : json) : Prop :=
  exists l, log (test a).2 = log a1 ++ l ++ [Request POST "/settings" (Some original) (scalar 30)] /\
    ordinary true (test a).1.

Lemma restores_by b (test m : eff net unit) a a1 j :
  nice a1 -> runs b m anything -> test a = try_finally m (write_back device j) a1 -> restores test a a1 j.
Proof.
  intros N R E. pose proof (writes_back b m j a1 R N) as H. cbv zeta in H. unfold restores. rewrite E.
  destruct (try_finally m _ a1) as [r a']. destruct H as (l & Hl & O & _). by exists l.
Qed.

Lemma settings_read a s a1 : nice a -> settings_json device a = (Ok s, a1) -> nice a1.
Proof.
  intros N E. destruct (runs_settings_json a) as (h & G & _ & B). rewrite E in G, B. by eapply behaved_nice; [exact G|apply (B N)|].
Qed.

End Runs.

(** A sequence of checks, each of them one of the helpers. *)
Ltac run_checks :=
  repeat first
    [ apply runs_update_expect
    | apply runs_unchanged
    | (eapply runs_seq; [| first [apply runs_update_expect | apply runs_unchanged] |]; [done|]) ].

Section Restore.
Context {D : Type} (device : client -> request -> D -> outcome response * D) (fuel : nat).
Notation runs := (runs device true fuel 1800).
Notation nice := (nice device fuel 1800).

Lemma st01_restores a s a1 v : nice a -> settings_json device a = (Ok s, a1) -> jindex "hostname" s = Ok v ->
  restores (test_st01_hostname_validation device) a a1 (one "hostname" v).
Proof.
  intros N E Ev. eapply (restores_by device fuel (31 + (31 + (31 + (31 + (31 + 31)))))); [by eapply settings_read| |].
  2: { unfold test_st01_hostname_validation. unfold bind at 1. rewrite E. unfold bind at 1, lift at 1. rewrite Ev. reflexivity. }
  run_checks.
Qed.

Lemma runs_get_assert {A} (o : outcome A) (f : A -> bool) (k : unit -> eff (aworld (D * history client)) unit) b :
  (0 <= b)%Q -> ordinary true o -> runs b (k tt) anything ->
  runs b (let* x := lift o in bind (assert (f x)) k) anything.
Proof.
  intros Hb Ho Hk. apply runs_lift_bind; [done|done|]. intros x _. by apply runs_assert_bind.
Qed.

Lemma st02_restores a s a1 v : nice a -> settings_json device a = (Ok s, a1) -> py_get "login" s = Ok v ->
  restores (test_st02_login_validation device) a a1 (one "login" (default (JStr DEFAULT_LOGIN) v)).
Proof.
  intros N E Ev. eapply (restores_by device fuel (31 + (31 + (31 + (31 + (31 + 31)))))); [by eapply settings_read| |].
  2: { unfold test_st02_login_validation. unfold bind at 1. rewrite E. unfold bind at 1, lift at 1. rewrite Ev. reflexivity. }
  do 4 (eapply runs_seq; [done|apply runs_update_expect|]).
  eapply (runs_bind _ _ _ _ anything); [done|apply runs_settings_json|]. intros s' h _.
  apply runs_get_assert; [done|apply ordinary_get|apply runs_update_expect].
Qed.

Lemma st04_restores a s a1 : nice a -> settings_json device a = (Ok s, a1) ->
  restores (test_st04_set_default_settings_restores_credentials device) a a1 s.
Proof.
  intros N E. eapply (restores_by device fuel (31 + (31 + (31 + (31 + 0))))); [by eapply settings_read| |].
  2: { unfold test_st04_set_default_settings_restores_credentials. unfold bind at 1. rewrite E. reflexivity. }
  do 2 (eapply runs_seq; [done|apply runs_update_expect|]).
  eapply (runs_bind _ _ _ _ anything); [done|eapply runs_le; [apply runs_api|done]|]. intros _ h _.
  eapply (runs_bind _ _ _ _ anything); [done|apply runs_settings_json|]. intros s' h' _.
  unfold is_default_of. eapply runs_le; [eapply (runs_seq device fuel 0 0); [done| |]|done];
    (apply runs_lift_bind; [done|apply ordinary_get|]; intros x _; by apply runs_assert).
Qed.

Lemma st05_restores a s a1 v : nice a -> settings_json device (asleep 1 a).2 = (Ok s, a1) ->
  py_get "cache_value_timeout_s" s = Ok (Some v) -> v <> JNull ->
  restores (test_st05_timeout_validation device) a a1 (one "cache_value_timeout_s" v).
Proof.
  intros N E Ev Hv. assert (nice (asleep 1 a).2) as N' by by destruct N; split.
  eapply (restores_by device fuel (31 + (31 + (31 + 31)))); [by eapply settings_read; [exact N'|]| |].
  2: { unfold test_st05_timeout_validation. unfold bind at 1. change (asleep 1 a) with (@Ok unit tt, (asleep 1 a).2). cbv iota beta.
       unfold bind at 1. rewrite E. unfold bind at 1, lift at 1. rewrite Ev. by destruct v. }
  run_checks.
Qed.

Lemma st06_restores a s a1 v : nice a -> settings_json device a = (Ok s, a1) ->
  py_get "vout" s = Ok (Some v) -> v <> JNull ->
  restores (test_st06_bool_type_check device) a a1 (one "vout" v).
Proof.
  intros N E Ev Hv. eapply (restores_by device fuel (31 + 31)); [by eapply settings_read| |].
  2: { unfold test_st06_bool_type_check. unfold bind at 1. rewrite E. unfold bind at 1, lift at 1. rewrite Ev. by destruct v. }
  run_checks.
Qed.

(** The settings tests give back what they changed: once ST-01, 02, 04, 05 or 06 has read the original value, the test ends and its last request writes exactly that value back, whatever its checks said and however the device answers them. *)
Theorem settings_tests_restore a s a1 :
  nice a -> settings_json device a = (Ok s, a1) ->
  (forall v, jindex "hostname" s = Ok v -> restores (test_st01_hostname_validation device) a a1 (one "hostname" v)) /\
  (forall v, py_get "login" s = Ok v ->
     restores (test_st02_login_validation device) a a1 (one "login" (default (JStr DEFAULT_LOGIN) v))) /\
  restores (test_st04_set_default_settings_restores_credentials device) a a1 s /\
  (forall s' a2 v, settings_json device (asleep 1 a).2 = (Ok s', a2) -> py_get "cache_value_timeout_s" s' = Ok (Some v) ->
     v <> JNull -> restores (test_st05_timeout_validation device) a a2 (one "cache_value_timeout_s" v)) /\
  (forall v, py_get "vout" s = Ok (Some v) -> v <> JNull ->
     restores (test_st06_bool_type_check device) a a1 (one "vout" v)).
Proof.
  intros N E. split_and!.
  - intros v. by eapply st01_restores.
  - intros v. by eapply st02_restores.
  - by eapply st04_restores.
  - intros s' a2 v. by eapply st05_restores.
  - intros v. by eapply st06_restores.
Qed.

End Restore.

(** C17. What a pass of the reboot tests shows, whatever the device does: all logins were answered with a session id, in AU-06 the first of them was then refused; the log had some size when the reboot was requested with the newest session and the request was accepted or its reply lost; later the log held, past that size, a marker that sessions were loaded after any that they were reset; three probes were answered; and then every session that had to survive was accepted. *)
Theorem reboot_tests_mean {D} (device : client -> request -> D -> outcome response * D) (serial : D -> option string * D)
    (fuel : nat) a :
  ((test_au05_full_buffer_preserved_after_sw_reboot device serial fuel a).1 = Ok tt ->
   exists h sids sid n,
     (dev (test_au05_full_buffer_preserved_after_sw_reboot device serial fuel a).2).2 = (dev a).2 ++ h /\
     length sids = 10%nat /\ last sids = Some sid /\
     in_order ((logged_in <$> sids) ++ reboot_seen sid n ++ (checked 200 <$> sids)) h) /\
  ((test_au06_ring_wrap_preserved_after_sw_reboot device serial fuel a).1 = Ok tt ->
   exists h sids sid0 sid n,
     (dev (test_au06_ring_wrap_preserved_after_sw_reboot device serial fuel a).2).2 = (dev a).2 ++ h /\
     length sids = 11%nat /\ head sids = Some sid0 /\ last sids = Some sid /\
     in_order ((logged_in <$> sids) ++ [checked 401 sid0] ++ reboot_seen sid n ++ (checked 200 <$> drop 1 sids)) h).
Proof.
  split; intros H.
  - destruct (runs_au05 device serial fuel a) as (h & [G _ _] & P & _).
    destruct (P tt H) as (sids & h1 & h2 & Hl & -> & H1 & sid & n & E & H2). exists (h1 ++ h2), sids, sid, n.
    split_and!; [exact G|done|done|by apply in_order_app].
  - destruct (runs_au06 device serial fuel a) as (h & [G _ _] & P & _).
    destruct (P tt H) as (sids & h1 & h2 & Hl & -> & H1 & sid0 & sid & n & E0 & E & H2). exists (h1 ++ h2), sids, sid0, sid, n.
    split_and!; [exact G|done|done|done|by apply in_order_app].
Qed.

(** The reboot tests end: on a network whose requests return or fail, each of them passes, fails or skips, leaves the sessions of the fixture as they were, and takes at most 3164 s (AU-05) or 3196 s (AU-06) when no request takes longer than its timeout. *)
Theorem reboot_tests_end {D} (device : client -> request -> D -> outcome response * D) (serial : D -> option string * D)
    (fuel : nat) a :
  nice device fuel 1800 a ->
  let (r5, a5) := test_au05_full_buffer_preserved_after_sw_reboot device serial fuel a in
  let (r6, a6) := test_au06_ring_wrap_preserved_after_sw_reboot device serial fuel a in
  ordinary true r5 /\ open_sessions a5 = open_sessions a /\ (timely a5 -> now a5 <= now a + 3164)%Q /\
  ordinary true r6 /\ open_sessions a6 = open_sessions a /\ (timely a6 -> now a6 <= now a + 3196)%Q.
Proof.
  intros N. destruct (runs_au05 device serial fuel a) as (h5 & _ & _ & B5), (runs_au06 device serial fuel a) as (h6 & _ & _ & B6).
  destruct (B5 N) as [O5 S5 _ T5], (B6 N) as [O6 S6 _ T6].
  destruct (test_au05_full_buffer_preserved_after_sw_reboot device serial fuel a) as [r5 a5].
  destruct (test_au06_ring_wrap_preserved_after_sw_reboot device serial fuel a) as [r6 a6]. cbn [fst snd] in *.
  assert (au05_cost <= 3164 /\ au06_cost <= 3196)%Q as [C5 C6] by (split; vm_compute; discriminate).
  split_and!; try done; intros Ht; [specialize (T5 Ht)|specialize (T6 Ht)]; lra.
Qed.

(** ** The serial log, line by line *)

Definition lines_text (lines : list string) : string := foldr (fun l t => l +:+ String LF t) "" lines.

(** What one line says. *)
Definition line_mark (l : string) : option bool :=
  if contains _MARK_LOADED l then Some true else if contains _MARK_RESET l then Some false else None.

Lemma prefix_line p l rest : no_char LF p = true -> startswith p (l +:+ String LF rest) = startswith p l.
Proof.
  unfold startswith. revert l. induction p as [|c p IH]; intros l Hp; [by destruct l|].
  cbn [no_char all_chars] in Hp. unfold no_char in *. cbn [all_chars] in Hp. bool_to_prop.
  destruct l as [|d l].
  - rewrite sapp_nil. cbn [String.prefix]. destruct (ascii_dec c LF) as [->|]; [by rewrite Ascii.eqb_refl in H|done].
  - rewrite sapp_cons. cbn [String.prefix]. destruct (ascii_dec c d); [by apply IH|done].
Qed.

Lemma rfind_bounds p s i : 0 <= i -> rfind_from p s i = -1 \/ i <= rfind_from p s i <= i + Z.of_nat (String.length s).
Proof.
  revert i. induction s as [|c s IH]; intros i Hi; cbn [rfind_from String.length]; cbv zeta.
  - destruct (startswith p ""); [right; lia|by left].
  - destruct (IH (i + 1) ltac:(lia)) as [E|E].
    + rewrite E, Z.eqb_refl. destruct (startswith p (String c s)); [right; lia|by left].
    + destruct (_ =? -1) eqn:Er; bool_to_prop; [lia|right; lia].
Qed.

Lemma rfind_contains p s i : 0 <= i -> p <> "" -> (rfind_from p s i =? -1) = negb (contains p s).
Proof.
  intros Hi Hp. revert i Hi. induction s as [|c s IH]; intros i Hi; cbn [rfind_from contains]; cbv zeta.
  - unfold startswith. destruct p; done.
  - pose proof (IH (i + 1) ltac:(lia)) as E. unfold startswith. destruct (rfind_from p s (i + 1) =? -1) eqn:Er.
    + destruct (String.prefix p (String c s)); cbn [orb negb]; [apply Z.eqb_neq; lia|done].
    + rewrite Er. destruct (contains p s); [|done]. by rewrite orb_true_r.
Qed.

(** An occurrence lies within one line. *)
Lemma rfind_line p l rest i : 0 <= i -> p <> "" -> no_char LF p = true ->
  rfind_from p (l +:+ String LF rest) i =
  let r := rfind_from p rest (i + Z.of_nat (String.length l) + 1) in if r =? -1 then rfind_from p l i else r.
Proof.
  intros Hi Hp Hn. cbv zeta. revert i Hi. induction l as [|c l IH]; intros i Hi.
  - rewrite sapp_nil. cbn [rfind_from String.length]. rewrite Z.add_0_r.
    pose proof (prefix_line p "" rest Hn) as E. rewrite sapp_nil in E. rewrite E.
    by destruct p.
  - rewrite sapp_cons. cbn [rfind_from String.length]. pose proof (prefix_line p (String c l) rest Hn) as E.
    rewrite sapp_cons in E. rewrite E, IH by lia.
    replace (i + 1 + Z.of_nat (String.length l) + 1) with (i + Z.of_nat (S (String.length l)) + 1) by lia.
    destruct (rfind_from p rest _ =? -1) eqn:Er; [done|]. by rewrite Er.
Qed.

Definition verdict_from (tail : string) (i : Z) : option bool :=
  let restored := rfind_from _MARK_LOADED tail i in
  let wiped := rfind_from _MARK_RESET tail i in
  if negb (restored =? -1) || negb (wiped =? -1) then Some (wiped <? restored) else None.

Lemma verdict_line l rest i : 0 <= i -> contains _MARK_LOADED l && contains _MARK_RESET l = false ->
  verdict_from (l +:+ String LF rest) i =
  match verdict_from rest (i + Z.of_nat (String.length l) + 1) with Some b => Some b | None => line_mark l end.
Proof.
  intros Hi Hb. unfold verdict_from, line_mark. rewrite !rfind_line by done. cbv zeta.
  set (j := i + Z.of_nat (String.length l) + 1). set (r := rfind_from _MARK_LOADED rest j). set (w := rfind_from _MARK_RESET rest j).
  pose proof (rfind_bounds _MARK_LOADED rest j ltac:(lia)) as Br. pose proof (rfind_bounds _MARK_RESET rest j ltac:(lia)) as Bw.
  fold r in Br. fold w in Bw.
  pose proof (rfind_bounds _MARK_LOADED l i Hi) as Br'. pose proof (rfind_bounds _MARK_RESET l i Hi) as Bw'.
  pose proof (rfind_contains _MARK_LOADED l i Hi ltac:(done)) as Cr. pose proof (rfind_contains _MARK_RESET l i Hi ltac:(done)) as Cw.
  destruct (r =? -1) eqn:Er, (w =? -1) eqn:Ew; cbn [negb orb].
  - rewrite Cr, Cw. destruct (contains _MARK_LOADED l), (contains _MARK_RESET l); cbn [negb orb andb] in *; try done; f_equal;
      [apply Z.ltb_lt|apply Z.ltb_ge]; bool_to_prop; lia.
  - rewrite Ew. cbn [negb]. rewrite orb_true_r. f_equal. bool_to_prop. destruct (w <? r) eqn:E; bool_to_prop.
    + lia.
    + apply Z.ltb_ge. lia.
  - rewrite Er. cbn [negb orb]. f_equal. bool_to_prop. destruct (w <? r) eqn:E; bool_to_prop; [apply Z.ltb_lt|]; lia.
  - by rewrite Er.
Qed.

(** The verdict on the reboot is that of the last boot: on a text of lines, none of which has both markers, [_sessions_restored_after_reboot] finds exactly what the last line with a marker says, and nothing when no line has one. *)
Theorem last_boot_decides lines :
  Forall (fun l => contains _MARK_LOADED l && contains _MARK_RESET l = false) lines ->
  restored_verdict (lines_text lines) = last (omap line_mark lines).
Proof.
  change (restored_verdict (lines_text lines)) with (verdict_from (lines_text lines) 0).
  assert (0 <= 0) as Hi by lia. revert Hi. generalize 0 at 2 3 as i.
  induction lines as [|l lines IH]; intros i Hi Hf; [done|]. apply Forall_cons in Hf as [Hl Hf].
  change (lines_text (l :: lines)) with (l +:+ String LF (lines_text lines)). rewrite verdict_line by done.
  rewrite IH by (done || lia). cbn [omap list_omap]. change (list_omap _ _ line_mark lines) with (omap line_mark lines).
  destruct (line_mark l) as [b|]; [by rewrite last_cons|by destruct (last _)].
Qed.

Lemma last_boot_decides_witness :
  let lines := ["boot"; "I (352) auth: Auth sessions were reset"; "panic"; "I (349) auth: Saved auth sessions were loaded"; "up"] in
  restored_verdict (lines_text lines) = last (omap line_mark lines) /\ last (omap line_mark lines) = Some true.
Proof.
  split; [|vm_compute; reflexivity]. apply last_boot_decides. repeat constructor.
Defined.

(** ** A device that accepts every setting *)

Definition easy_settings : json :=
  JObj [("hostname", JStr "wb-mge"); ("login", JStr "admin"); ("cache_value_timeout_s", JNum 60); ("vout", JBool false)].

Definition easy_device (c : client) (q : request) (d : unit) : outcome response * unit :=
  (Ok (Response 200 "" (Some (match meth q with GET => easy_settings | POST => JObj [("success", JBool true)] end)) []), d).

Definition easy_start : aworld (unit * history client) := AWorld (tt, []) [] ∅ 1 0 (fun _ => 1%Q).

Lemma easy_nice : nice easy_device 1801 1800 easy_start.
Proof. split; [lia|done|done|done]. Qed.

Lemma settings_tests_restore_witness :
  let a := easy_start in
  let a1 := (settings_json easy_device a).2 in
  settings_json easy_device a = (Ok easy_settings, a1) /\
  (forall v, jindex "hostname" easy_settings = Ok v ->
     restores (test_st01_hostname_validation easy_device) a a1 (one "hostname" v)) /\
  (forall v, py_get "login" easy_settings = Ok v ->
     restores (test_st02_login_validation easy_device) a a1 (one "login" (default (JStr DEFAULT_LOGIN) v))) /\
  restores (test_st04_set_default_settings_restores_credentials easy_device) a a1 easy_settings /\
  (forall s' a2 v, settings_json easy_device (asleep 1 a).2 = (Ok s', a2) ->
     py_get "cache_value_timeout_s" s' = Ok (Some v) -> v <> JNull ->
     restores (test_st05_timeout_validation easy_device) a a2 (one "cache_value_timeout_s" v)) /\
  (forall v, py_get "vout" easy_settings = Ok (Some v) -> v <> JNull ->
     restores (test_st06_bool_type_check easy_device) a a1 (one "vout" v)).
Proof.
  intros a a1. split; [reflexivity|]. apply (settings_tests_restore easy_device 1801); [apply easy_nice|reflexivity].
Defined.

Lemma reboot_tests_end_witness :
  let serial d := (Some "", d) in
  nice easy_device 1801 1800 easy_start /\
  let (r5, a5) := test_au05_full_buffer_preserved_after_sw_reboot easy_device serial 1801 easy_start in
  let (r6, a6) := test_au06_ring_wrap_preserved_after_sw_reboot easy_device serial 1801 easy_start in
  ordinary true r5 /\ open_sessions a5 = open_sessions easy_start /\ (timely a5 -> now a5 <= now easy_start + 3164)%Q /\
  ordinary true r6 /\ open_sessions a6 = open_sessions easy_start /\ (timely a6 -> now a6 <= now easy_start + 3196)%Q.
Proof. intros serial. split; [apply easy_nice|]. apply (reboot_tests_end easy_device serial 1801 easy_start easy_nice). Defined.
