(* ===== verification/AuthAccept.v ===== *)
(** * The session tests on the firmware's session store

    The tests of [AuthTests] run against a device that answers with the
    handlers of [AuthRing].  They accept it from every state: a test that
    rejected a correct store, or depended on what earlier tests left in the
    ring, would fail here. *)

From Stdlib Require Import QArith Lqa Ascii String.
From stdpp Require Import base list gmap strings.
From Stdlib Require Import ZArith Lia.
From S2P Require Import Prelude PyStr QemuPorts Gateway ApiClient NetLog MbDevice AuthRing AuthTests.

Open Scope Z_scope.

(** ASCII lower case, for the names of JSON fields. *)
Definition lower (c : ascii) : ascii :=
  let n := nat_of_ascii c in if ((65 <=? n) && (n <=? 90))%nat then ascii_of_nat (n + 32) else c.
Fixpoint slower (s : string) : string :=
  match s with EmptyString => EmptyString | String c s => String (lower c) (slower s) end.

(** ** Commands (src/main/cmd_handler.c) *)

Definition CMD_NAME_MAX_LEN : nat := 32.
Inductive cmd_code : Type := CMD_REBOOT | CMD_SET_DEFAULT_SETTINGS.

Definition cmd_get_code (cmd_str : string) : option cmd_code :=
  if strncmp_eq CMD_NAME_MAX_LEN cmd_str "reboot" then Some CMD_REBOOT
  else if strncmp_eq CMD_NAME_MAX_LEN cmd_str "set_default_settings" then Some CMD_SET_DEFAULT_SETTINGS
  else None.

(** [cmd_post_handler], up to the execution of the command: the answer, and
    the command to execute. *)
Definition cmd_post_handler (get_item : json -> string -> option json) (req : httpd_req) (s : auth_state)
    : response * option cmd_code :=
  if negb (auth_middleware_check req s) then (Response 401 "" None [], None)
  else
    match received_json req with
    | None => (error_response "Invalid command request JSON", None)
    | Some j =>
        match get_item j "cmd" with
        | Some (JStr cmd) =>
            let cmd_str := stake (pred CMD_NAME_MAX_LEN) cmd in
            match cmd_get_code cmd_str with
            | None => (error_response "Unknown command", None)
            | Some code =>
                (Response 200 "" (Some (JObj [("success", JBool true); ("command", JStr cmd_str)])) [], Some code)
            end
        | _ => (error_response "Invalid command request", None)
        end
    end.

(** ** The device

    Its session store, the cookie in the fixture's jar, the reads of the
    serial log until a requested reboot has happened, and that log. *)
Record fw_state := FwState {
  store_of : auth_state;
  fixture_jar : option string;
  pending : option nat;
  uart_text : string
}.

Definition with_store (s : auth_state) (jar : option string) (d : fw_state) : fw_state :=
  FwState s jar (pending d) (uart_text d).

(** The credentials are back at their defaults. *)
Definition default_credentials (s : auth_state) : auth_state :=
  AuthState (session_buffer s) (backup_session_ids s) (backup_current_index s) (session_mutex s)
    (Some "admin") (Some "admin") (random_pos s).

Section Firmware.
Context (esp_random : nat -> Z) (cJSON_GetObjectItem : json -> string -> option json).
Context (httpd_req_get_cookie_val : option string -> option string) (content_length : request -> Z).
Context (draws : nat).
(** What a boot prints before and after the line of [auth_init], and how many
    reads of the log a reboot takes. *)
Context (before after : string) (boot_reads : nat).

(** The documented behaviour of the libraries: the lookup in an object
    ignores case; a cookie that fits the buffer is returned.
    The requests fit the receive buffer. *)
Hypothesis get_item : forall f k, Forall (fun kv => slower kv.1 = slower k -> kv.1 = k) f ->
  cJSON_GetObjectItem (JObj f) k = jget k f.
Hypothesis get_cookie : forall s, (String.length s < COOKIE_MAX_LEN)%nat -> httpd_req_get_cookie_val (Some s) = Some s.
Hypothesis small : forall q, content_length q < JSON_UTILS_REQ_RECV_BUF_SIZE.
Hypothesis random_lively : lively esp_random draws.

Definition cookie_of (c : client) (d : fw_state) : option string :=
  match c with Fixture => fixture_jar d | Bare sid => sid end.

(** The fixture's session keeps the cookie of the last answer that set one. *)
Definition keep_cookie (c : client) (r : response) (jar : option string) : option string :=
  match c with
  | Fixture => match jar_get "session_id" r with Some sid => Some sid | None => jar end
  | Bare _ => jar
  end.

(** What a command does to the device. *)
Definition execute (code : option cmd_code) (d : fw_state) : fw_state :=
  match code with
  | Some CMD_REBOOT => FwState (store_of d) (fixture_jar d) (Some boot_reads) (uart_text d)
  | Some CMD_SET_DEFAULT_SETTINGS => with_store (default_credentials (store_of d)) (fixture_jar d) d
  | None => d
  end.

Definition fw_device (c : client) (q : request) (d : fw_state) : outcome response * fw_state :=
  let req := HttpdReq (content_length q) (payload q) (httpd_req_get_cookie_val (cookie_of c d)) true in
  let s := store_of d in
  match meth q with
  | POST =>
      if String.eqb (url_path q) "/auth" then
        match auth_login_handler esp_random cJSON_GetObjectItem draws req s with
        | Some (r, s') => (Ok r, with_store s' (keep_cookie c r (fixture_jar d)) d)
        | None => (Blocked, d)
        end
      else if String.eqb (url_path q) "/logout" then
        let (r, s') := auth_logout_handler req s in (Ok r, with_store s' (fixture_jar d) d)
      else if String.eqb (url_path q) "/cmd" then
        let (r, code) := cmd_post_handler cJSON_GetObjectItem req s in (Ok r, execute code d)
      else (Ok (Response 404 "" None []), d)
  | GET =>
      if String.eqb (url_path q) "/session" then (Ok (auth_session_check_handler req s), d)
      else if String.eqb (url_path q) "/favicon.webp" then (Ok (Response 200 "" None []), d)
      else if String.eqb (url_path q) "/info" then
        (Ok (Response (if auth_middleware_check req s then 200 else 401) "" None []), d)
      else (Ok (Response 404 "" None []), d)
  end.

(** The log as the test reads it; the reboot happens while it waits. *)
Definition line_text (l : auth_line) : string :=
  before +:+ (match l with SessionsLoaded => _MARK_LOADED | SessionsReset => _MARK_RESET end) +:+ String LF after.

Definition fw_serial (d : fw_state) : option string * fw_state :=
  match pending d with
  | None => (Some (uart_text d), d)
  | Some (S n) => (Some (uart_text d), FwState (store_of d) (fixture_jar d) (Some n) (uart_text d))
  | Some O =>
      let (s, lines) := reset ESP_RST_SW (store_of d) in
      let text := foldl (fun t l => t +:+ line_text l) (uart_text d) lines in
      (Some text, FwState s (fixture_jar d) None text)
  end.

Notation net := (aworld (fw_state * history client)).

(** The credentials of the tests are stored, and the ring is a ring: nothing
    is assumed of what it holds. *)
Record ready (d : fw_state) : Prop := {
  ready_sane : sane (session_buffer (store_of d));
  ready_login : stored_login (store_of d) = Some "admin";
  ready_pass : stored_pass (store_of d) = Some "admin"
}.

Definition ids (d : fw_state) : list Z := session_ids (session_buffer (store_of d)).

(** ** Single requests *)

Lemma credential_items :
  cJSON_GetObjectItem credentials "login" = Some (JStr "admin") /\
  cJSON_GetObjectItem credentials "pass" = Some (JStr "admin").
Proof.
  unfold credentials. split; (rewrite get_item; [reflexivity|]);
    repeat (constructor; [by vm_compute|]); constructor.
Qed.

(** A login with the right credentials. *)
Lemma fw_login c t d : ready d ->
  exists id d', fw_device c (auth_request credentials t) d =
      (Ok (Response 200 "" (Some (JObj [("auth", JBool true)])) [("session_id", show_Z id)]), d') /\
    0 < id < 2 ^ 32 /\ id ∉ ids d /\ ready d' /\
    session_buffer (store_of d') = put id (session_buffer (store_of d)) /\
    fixture_jar d' = (if c is Fixture then Some (show_Z id) else fixture_jar d) /\
    store_of d' = save_session_buf (store_of d') /\ pending d' = pending d /\ uart_text d' = uart_text d.
Proof.
  intros [Hs Hl Hp]. unfold fw_device. cbn [meth url_path payload auth_request String.eqb Ascii.eqb Bool.eqb].
  unfold auth_login_handler. cbn [content_len received_json header_room].
  rewrite (proj2 (Z.ltb_ge _ _) (Z.lt_le_incl _ _ (small _))). destruct credential_items as [-> ->].
  destruct (authorization_puts esp_random draws "admin" "admin" "admin" "admin" (store_of d) Hl Hp Hs random_lively
    eq_refl eq_refl) as (id & n & -> & Hid & Hnew). cbn [mbind option_bind].
  rewrite (proj2 (Z.eqb_neq id 0)) by lia. cbn [negb app]. rewrite cookie_pair_header by lia.
  eexists id, _. split; [reflexivity|]. split_and!; try lia; try done.
  split; [|exact Hl|exact Hp]. apply (put_sane id); [done|lia].
Qed.

(** A session check answers by the ring. *)
Lemma fw_check c d id : 0 < id < 2 ^ 32 -> cookie_of c d = Some (show_Z id) ->
  fw_device c session_probe d = (Ok (Response (if decide (id ∈ ids d) then 200 else 401) "" None []), d).
Proof.
  intros Hid Hc. unfold fw_device. cbn [meth url_path session_probe String.eqb Ascii.eqb Bool.eqb]. rewrite Hc.
  rewrite get_cookie by (pose proof (show_Z_length 9 id ltac:(cbn; lia)); unfold COOKIE_MAX_LEN; lia).
  unfold auth_session_check_handler, auth_middleware_check. cbn [cookie_val]. rewrite cookie_value by lia.
  rewrite (proj2 (Z.eqb_neq id 0)) by lia.
  assert (session_id_exists id (store_of d) = bool_decide (id ∈ ids d)) as ->.
  { apply eq_true_iff_eq. by rewrite bool_decide_eq_true, exists_in. }
  by rewrite bool_decide_decide; destruct (decide (id ∈ ids d)).
Qed.

Lemma remove_sane id s : sane (session_buffer s) -> sane (session_buffer (find_and_remove_session_id id s)).
Proof.
  intros Hs. unfold find_and_remove_session_id. destruct (list_find _ _) as [[i x]|]; [|done].
  destruct Hs as [Hl Hi Hw]. cbn [save_session_buf with_buffer session_buffer].
  set (b := SessionBuffer (<[i := 0]> (session_ids (session_buffer s))) (current_index (session_buffer s))).
  assert (sane b) as Hb by (split; cbn; [by rewrite length_insert|done|by apply Forall_insert]).
  rewrite (defrag_spec b Hb). pose proof (live_length (session_ids b)) as Hle. rewrite (sane_length _ Hb) in Hle.
  split; cbn [session_ids current_index]; [rewrite length_app, length_replicate; lia|by apply Nat.mod_upper_bound|].
  apply Forall_app. split; [|apply Forall_replicate; lia]. destruct Hb as [_ _ Hw']. rewrite Forall_forall in Hw' |- *.
  intros x' Hx. apply list_elem_of_filter in Hx as [_ Hx]. by apply Hw'.
Qed.

(** A logout is always acknowledged. *)
Lemma fw_logout c d : ready d ->
  exists d', fw_device c logout_request d = (Ok (Response 200 "" (Some (JObj [("logout", JBool true)])) []), d') /\
    ready d' /\ fixture_jar d' = fixture_jar d.
Proof.
  intros [Hs Hl Hp]. unfold fw_device. cbn [meth url_path logout_request String.eqb Ascii.eqb Bool.eqb].
  unfold auth_logout_handler. set (id := get_session_id_from_cookie _). eexists. split; [reflexivity|].
  split; [|done]. destruct (id =? 0); [by split|]. cbn [store_of].
  split; cbn [store_of]; [by apply remove_sane|..];
    unfold find_and_remove_session_id; by destruct (list_find _ _) as [[i x]|].
Qed.

(** ** The network around the device *)

Lemma bare_fw c q a r d : fw_device c q (dev a).1 = (r, d) ->
  exists a', bare fw_device c q a = (r, a') /\ (dev a').1 = d /\ cost a' = cost a.
Proof. intros E. unfold bare, recorded. rewrite E. by eexists. Qed.

Lemma api_fw q a r d : fw_device Fixture q (dev a).1 = (r, d) ->
  exists a', session_request (recorded fw_device Fixture) q a = (r, a') /\ (dev a').1 = d /\ cost a' = cost a.
Proof.
  intros E. unfold session_request, bind, asleep, modify, recorded. cbn [dev log cookies open_sessions now cost].
  rewrite E. by eexists.
Qed.

(** What a number of logins leaves, and what they handed out. *)
Record logins (d d' : fw_state) (new : list Z) : Prop := {
  lg_ready : ready d';
  lg_buffer : session_buffer (store_of d') = foldl (fun b id => put id b) (session_buffer (store_of d)) new;
  lg_width : Forall (fun id => 0 < id < 2 ^ 32) new;
  lg_fresh : forall k id, new !! k = Some id ->
    id ∉ session_ids (foldl (fun b id => put id b) (session_buffer (store_of d)) (take k new));
  lg_jar : fixture_jar d' = fixture_jar d;
  lg_saved : new <> [] -> store_of d' = save_session_buf (store_of d');
  lg_pending : pending d' = pending d;
  lg_text : uart_text d' = uart_text d
}.

Lemma logins_nil d : ready d -> logins d d [].
Proof. intros H. split; try done. Qed.

Lemma logins_snoc d d1 d2 new id :
  logins d d1 new -> ready d2 -> session_buffer (store_of d2) = put id (session_buffer (store_of d1)) ->
  0 < id < 2 ^ 32 -> id ∉ ids d1 -> fixture_jar d2 = fixture_jar d1 ->
  store_of d2 = save_session_buf (store_of d2) -> pending d2 = pending d1 -> uart_text d2 = uart_text d1 ->
  logins d d2 (new ++ [id]).
Proof.
  intros [H1 H2 H3 H4 H5 H6 H7 H8] Hr Hb Hid Hn Hj Hs Hp Ht. split; [done| | | |congruence|done|congruence|congruence].
  - rewrite foldl_app. cbn. by rewrite Hb, H2.
  - apply Forall_app. split; [done|by constructor].
  - intros k x Hx. destruct (decide (k < length new)%nat) as [Hk|Hk].
    + rewrite lookup_app_l in Hx by done. rewrite take_app_le by lia. by apply H4.
    + rewrite lookup_app_r in Hx by lia. apply list_lookup_singleton_Some in Hx as [Hz ->].
      rewrite take_app_ge by lia. rewrite Hz. cbn [take]. rewrite app_nil_r, <- H2. exact Hn.
Qed.

(** One login of the fill loop. *)
Lemma login_fresh_fw a : ready (dev a).1 ->
  exists id a', login_fresh fw_device a = (Ok (show_Z id), a') /\ 0 < id < 2 ^ 32 /\ id ∉ ids (dev a).1 /\
    ready (dev a').1 /\ session_buffer (store_of (dev a').1) = put id (session_buffer (store_of (dev a).1)) /\
    fixture_jar (dev a').1 = fixture_jar (dev a).1 /\ store_of (dev a').1 = save_session_buf (store_of (dev a').1) /\
    pending (dev a').1 = pending (dev a).1 /\ uart_text (dev a').1 = uart_text (dev a).1 /\ cost a' = cost a.
Proof.
  intros Hr. unfold login_fresh. unfold bind at 1, asleep, modify. set (a0 := AWorld _ _ _ _ _ _).
  destruct (fw_login (Bare None) 20 (dev a).1 Hr) as (id & d & E & Hid & Hn & Hr' & Hb & Hj & Hs & Hp & Ht).
  destruct (bare_fw _ _ a0 _ _ E) as (a1 & E1 & E2 & Hco). exists id, a1. unfold bind at 1. rewrite E1.
  split; [reflexivity|rewrite E2; split_and!; lia || done].
Qed.

Lemma fill_fw n rest fin new a d0 :
  logins d0 (dev a).1 new ->
  exists more a', length more = n /\ logins d0 (dev a').1 (new ++ more) /\ cost a' = cost a /\
    fill fw_device n (show_Z <$> new) rest fin a =
    try_finally (rest (show_Z <$> (new ++ more))) (fin (show_Z <$> (new ++ more))) a'.
Proof.
  revert new a. induction n as [|n IH]; intros new a Hl.
  { exists [], a. rewrite app_nil_r. by split_and!. }
  destruct (login_fresh_fw a (lg_ready _ _ _ Hl)) as (id & a1 & E & Hid & Hn & Hr & Hb & Hj & Hs & Hp & Ht & Hc).
  destruct (IH (new ++ [id]) a1) as (more & a2 & Hm & Hl' & Hc' & E'); [by eapply logins_snoc|].
  exists (id :: more), a2. rewrite <- app_assoc in Hl', E'. cbn [app] in Hl', E'. split_and!; [cbn; lia|done|congruence|].
  cbn [fill]. unfold or_finally. rewrite E. rewrite fmap_app in E'. exact E'.
Qed.

(** The other steps of the tests. *)
Lemma check_fw id status a : 0 < id < 2 ^ 32 ->
  (if decide (id ∈ ids (dev a).1) then 200 else 401) = status ->
  exists a', check_session fw_device (show_Z id) status a = (Ok tt, a') /\ (dev a').1 = (dev a).1 /\ cost a' = cost a.
Proof.
  intros Hid Hs. pose proof (fw_check (Bare (Some (show_Z id))) (dev a).1 id Hid eq_refl) as E. rewrite Hs in E.
  destruct (bare_fw _ _ a _ _ E) as (a' & E1 & E2). exists a'. split; [|done].
  unfold check_session, bind. rewrite E1. unfold assert. cbn [status_code]. by rewrite Z.eqb_refl.
Qed.

Lemma logout_all_fw sids a : ready (dev a).1 ->
  exists a', logout_all fw_device sids a = (Ok tt, a') /\ ready (dev a').1.
Proof.
  revert a. induction sids as [|sid sids IH]; intros a Hr; [by exists a|]. cbn [logout_all].
  unfold bind at 1, asleep, modify. set (a0 := AWorld _ _ _ _ _ _).
  destruct (fw_logout (Bare (Some sid)) (dev a).1 Hr) as (d & E & Hr' & _).
  destruct (bare_fw _ _ a0 _ _ E) as (a1 & E1 & E2 & _). unfold try_except, bind. rewrite E1. cbn [ret].
  apply IH. by rewrite E2.
Qed.

Lemma reauth_fw a : ready (dev a).1 ->
  exists a', reauth fw_device a = (Ok tt, a') /\ ready (dev a').1.
Proof.
  intros Hr. destruct (fw_login Fixture 10 (dev a).1 Hr) as (id & d & E & _ & _ & Hr' & _).
  destruct (api_fw _ a _ _ E) as (a1 & E1 & E2 & _). exists a1. split; [|by rewrite E2].
  unfold reauth, auth, http_post. unfold bind at 1.
  change (Request POST "/auth" (Some (JObj [("login", JStr DEFAULT_LOGIN); ("pass", JStr DEFAULT_PASSWORD)])) (scalar 10))
    with (auth_request credentials 10). rewrite E1. reflexivity.
Qed.

(** Ten logins or more leave exactly the last ten sessions. *)
Lemma last_ten d d' new :
  ready d -> logins d d' new -> (10 <= length new)%nat -> ids d' ≡ₚ drop (length new - 10) new.
Proof.
  intros [Hs _ _] [_ Hb Hw _ _ _ _ _] Hn. unfold ids. rewrite Hb, <- rot_perm.
  destruct (rot_logins new (session_buffer (store_of d)) Hs) as [_ ->]; [eapply Forall_impl; [exact Hw|cbn; lia]|].
  rewrite drop_app_ge by (rewrite length_rot, (sane_length _ Hs); unfold MAX_SESSIONS; lia).
  by rewrite length_rot, (sane_length _ Hs).
Qed.

(** Eleven logins leave the last ten sessions, and not the first. *)
Lemma eleven_logins d d' new :
  ready d -> logins d d' new -> length new = 11%nat ->
  exists id0 id10, new !! 0%nat = Some id0 /\ new !! 10%nat = Some id10 /\ 0 < id0 < 2 ^ 32 /\ 0 < id10 < 2 ^ 32 /\
    id0 ∉ ids d' /\ id10 ∈ ids d'.
Proof.
  intros Hr Hlg Hn. pose proof (last_ten _ _ _ Hr Hlg ltac:(lia)) as Hids. rewrite Hn in Hids. cbn [Nat.sub] in Hids.
  destruct Hr as [Hs _ _], Hlg as [_ _ Hw Hf _ _ _ _].
  destruct new as [|id0 new]; [done|]. cbn in Hn, Hids. injection Hn as Hn. rewrite drop_0 in Hids.
  assert (exists id10, new !! 9%nat = Some id10) as [id10 H10] by (apply lookup_lt_is_Some_2; lia).
  exists id0, id10. apply Forall_cons in Hw as [Hw0 Hw]. pose proof (Forall_lookup_1 _ _ _ _ Hw H10) as Hw10. cbn in Hw10.
  rewrite Hids. split_and!; try done; try lia; [|by eapply list_elem_of_lookup_2].
  intros Hin. apply list_elem_of_lookup in Hin as [k Hk]. apply (Hf (S k) id0 Hk).
  pose proof (lookup_lt_Some _ _ _ Hk) as Hlt. rewrite <- rot_perm.
  destruct (rot_logins (take (S k) (id0 :: new)) (session_buffer (store_of d)) Hs) as [_ ->].
  { apply Forall_take. constructor; [lia|]. eapply Forall_impl; [exact Hw|cbn; lia]. }
  assert (length (rot (session_buffer (store_of d))) = 10%nat) as Hl by (rewrite length_rot; apply Hs).
  rewrite length_take. cbn [length]. rewrite Nat.min_l by lia. rewrite drop_app_le by lia. apply elem_of_app. right. cbn. left.
Qed.

Lemma au02_accepts a : ready (dev a).1 ->
  exists a', test_au02_session_ring_buffer_eviction fw_device a = (Ok tt, a') /\ ready (dev a').1.
Proof.
  intros Hr. unfold test_au02_session_ring_buffer_eviction.
  set (rest := fun session_cookies : list string => _). set (fin := fun session_cookies : list string => _).
  destruct (fill_fw (MAX_SESSIONS + 1) rest fin [] a (dev a).1 (logins_nil _ Hr)) as (new & a1 & Hn & Hl & _ & E).
  cbn [fmap list_fmap app] in E, Hl. rewrite E.
  destruct (eleven_logins _ _ _ Hr Hl Hn) as (id0 & id10 & H0 & H10 & Hw0 & Hw10 & N0 & N10).
  assert (exists a2, rest (show_Z <$> new) a1 = (Ok tt, a2) /\ (dev a2).1 = (dev a1).1) as (a2 & E2 & D2).
  { unfold rest. unfold bind at 1, asleep, modify. set (a0 := AWorld _ _ _ _ _ _).
    destruct (check_fw id0 401 a0 Hw0) as (a2 & E2 & D2 & _); [by rewrite decide_False|].
    destruct (check_fw id10 200 a2 Hw10) as (a3 & E3 & D3 & _); [rewrite decide_True; [done|by rewrite D2]|].
    exists a3. split; [|by rewrite D3, D2]. destruct new as [|x new]; [done|]. injection H0 as ->.
    unfold bind at 1, lift at 1. cbn [first_sid fmap list_fmap]. unfold bind at 1. rewrite E2.
    unfold bind at 1, lift at 1. change (show_Z id0 :: (show_Z <$> new)) with (show_Z <$> id0 :: new).
    rewrite list_lookup_fmap, H10. cbn [fmap option_fmap option_map]. exact E3. }
  unfold try_finally. rewrite E2. unfold fin.
  destruct (logout_all_fw (drop 1 (show_Z <$> new)) a2) as (a3 & E3 & R3); [rewrite D2; apply Hl|].
  unfold bind at 1. rewrite E3. unfold bind at 1, asleep, modify. set (a4 := AWorld _ _ _ _ _ _).
  destruct (reauth_fw a4 R3) as (a5 & E5 & R5). rewrite E5. by exists a5.
Qed.

Lemma au03_accepts a : ready (dev a).1 ->
  exists a', test_au03_logout_without_cookie fw_device a = (Ok tt, a') /\ ready (dev a').1.
Proof.
  intros Hr. destruct (fw_logout (Bare None) (dev a).1 Hr) as (d & E & Hr' & _).
  destruct (bare_fw _ _ a _ _ E) as (a1 & E1 & E2 & _). exists a1. split; [|by rewrite E2].
  unfold test_au03_logout_without_cookie, bind at 1. rewrite E1. reflexivity.
Qed.

(** A login without one of the two fields. *)
Lemma missing_accepts f a :
  Forall (fun kv : string * json => slower kv.1 = kv.1) f -> jget "login" f = None \/ jget "pass" f = None ->
  exists a', missing_fields fw_device (JObj f) a = (Ok tt, a') /\ (dev a').1 = (dev a).1.
Proof.
  intros Hf Hm.
  assert (forall k, slower k = k -> cJSON_GetObjectItem (JObj f) k = jget k f) as Hi.
  { intros k Hk. apply get_item. eapply Forall_impl; [exact Hf|]. intros kv H E. cbn in H. congruence. }
  assert (fw_device (Bare None) (auth_request (JObj f) 10) (dev a).1 =
    (Ok (Response 200 "" (Some (JObj [("error", JStr "No login or password in request"); ("auth", JBool false)])) []), (dev a).1)) as E.
  { unfold fw_device. cbn [meth url_path payload auth_request String.eqb Ascii.eqb Bool.eqb].
    unfold auth_login_handler. cbn [content_len received_json]. rewrite (proj2 (Z.ltb_ge _ _) (Z.lt_le_incl _ _ (small _))).
    rewrite !Hi by reflexivity. destruct (dev a).1 as [s j p t].
    destruct (jget "login" f) as [l|]; [|done]. destruct Hm as [|Hm]; [done|]. rewrite Hm. by destruct l. }
  destruct (bare_fw _ _ a _ _ E) as (a1 & E1 & E2 & _). exists a1. split; [|done].
  unfold missing_fields, bind at 1. rewrite E1. reflexivity.
Qed.

Lemma au04_accepts a :
  exists a', test_au04_login_missing_fields fw_device a = (Ok tt, a') /\ (dev a').1 = (dev a).1.
Proof.
  destruct (missing_accepts [("login", JStr "admin")] a) as (a1 & E1 & D1); [by repeat constructor|by right|].
  destruct (missing_accepts [("pass", JStr "admin")] a1) as (a2 & E2 & D2); [by repeat constructor|by left|].
  destruct (missing_accepts [] a2) as (a3 & E3 & D3); [by repeat constructor|by left|].
  exists a3. split; [|congruence]. unfold test_au04_login_missing_fields, bind at 1. rewrite E1. unfold bind at 1. by rewrite E2.
Qed.

(** H3 needs a fixture that is logged in, and a store without garbage. *)
Record authenticated (d : fw_state) : Prop := {
  auth_ready : ready d;
  auth_ring : ring_ok (session_buffer (store_of d));
  auth_jar : exists id, fixture_jar d = Some (show_Z id) /\ id ∈ ids d /\ 0 < id < 2 ^ 32
}.

Lemma put_in id b : sane b -> id ∈ session_ids (put id b).
Proof. intros Hs. rewrite <- rot_perm, rot_put by done. apply elem_of_app. right. left. Qed.

(** A logout with the cookie of [id] takes it out, and nothing else. *)
Lemma fw_logout_of c id d :
  ready d -> ring_ok (session_buffer (store_of d)) -> cookie_of c d = Some (show_Z id) -> 0 < id < 2 ^ 32 ->
  exists d', fw_device c logout_request d = (Ok (Response 200 "" (Some (JObj [("logout", JBool true)])) []), d') /\
    ready d' /\ fixture_jar d' = fixture_jar d /\ (forall x, x <> 0 -> x ∈ ids d' <-> x ∈ ids d /\ x <> id).
Proof.
  intros Hr Hok Hc Hid. destruct (fw_logout c d Hr) as (d' & E & Hr' & Hj). exists d'. split_and!; [done|done|done|].
  intros x Hx. unfold fw_device in E. cbn [meth url_path logout_request String.eqb Ascii.eqb Bool.eqb] in E.
  rewrite Hc, get_cookie in E by (pose proof (show_Z_length 9 id ltac:(cbn; lia)); unfold COOKIE_MAX_LEN; lia).
  unfold auth_logout_handler in E. cbn [cookie_val] in E. rewrite cookie_value in E by lia.
  rewrite (proj2 (Z.eqb_neq id 0)) in E by lia. injection E as <-. unfold ids. cbn [store_of with_store].
  destruct (remove_spec id (store_of d) Hok ltac:(lia)) as (_ & H & _).
  assert (forall l, x ∈ l <-> x ∈ live l) as Hlive by (intros l; unfold live; rewrite list_elem_of_filter; naive_solver).
  rewrite Hlive, H. unfold without. rewrite list_elem_of_filter, <- Hlive. naive_solver.
Qed.

Lemma h3_accepts a : authenticated (dev a).1 ->
  exists a', test_h3_concurrent_sessions fw_device a = (Ok tt, a') /\ ready (dev a').1.
Proof.
  intros [Hr Hok (idA & Hj & HinA & HA)].
  destruct (fw_login (Bare None) 10 (dev a).1 Hr) as (idB & d1 & E1 & HB & Hn & Hr1 & Hb1 & Hj1 & _).
  destruct (bare_fw _ _ a _ _ E1) as (a1 & X1 & D1 & _).
  assert (idB <> idA) as Hne by (intros ->; done).
  destruct (fw_logout_of Fixture idA (dev a1).1) as (d2 & E2 & Hr2 & Hj2 & Hin2); [by rewrite D1| |by rewrite D1; cbn; rewrite Hj1|done|].
  { rewrite D1, Hb1. by apply put_ok. }
  destruct (api_fw _ a1 _ _ E2) as (a2 & X2 & D2 & _). rewrite D1 in *.
  destruct (api_fw session_probe a2 _ _ (fw_check Fixture (dev a2).1 idA HA ltac:(rewrite D2; cbn; by rewrite Hj2, Hj1))) as (a3 & X3 & D3 & _).
  rewrite decide_False in X3 by (rewrite D2, Hin2 by lia; naive_solver). rewrite D2 in D3.
  destruct (bare_fw _ _ a3 _ _ (fw_check (Bare (Some (show_Z idB))) (dev a3).1 idB HB eq_refl)) as (a4 & X4 & D4 & _).
  rewrite decide_True in X4 by (rewrite D3, Hin2 by lia; split; [|done]; unfold ids; rewrite Hb1; apply put_in, Hr).
  rewrite D3 in D4.
  destruct (fw_logout (Bare (Some (show_Z idB))) (dev a4).1) as (d5 & E5 & Hr5 & _); [by rewrite D4|].
  destruct (bare_fw _ _ a4 _ _ E5) as (a5 & X5 & D5 & _).
  destruct (reauth_fw a5) as (a6 & X6 & R6); [by rewrite D5|]. exists a6. split; [|done].
  unfold test_h3_concurrent_sessions. unfold bind at 1. rewrite X1.
  change (ApiClient.logout (recorded fw_device Fixture)) with (session_request (recorded fw_device Fixture) logout_request).
  change (get_session (recorded fw_device Fixture)) with (session_request (recorded fw_device Fixture) session_probe).
  unfold bind at 1. cbn [status_code Z.eqb Pos.eqb assert ret]. unfold bind at 1.
  change (assert_is "auth" true _ a1) with (@Ok unit tt, a1). cbv iota beta.
  unfold bind at 1. rewrite X2. unfold bind at 1. cbn [status_code Z.eqb Pos.eqb assert ret]. unfold bind at 1.
  change (assert_is "logout" true _ a2) with (@Ok unit tt, a2). cbv iota beta.
  unfold bind at 1. rewrite X3. unfold bind at 1. cbn [status_code Z.eqb Pos.eqb assert ret].
  change (jar_get "session_id" _) with (Some (show_Z idB)).
  unfold bind at 1. rewrite X4. unfold bind at 1. cbn [status_code Z.eqb Pos.eqb assert ret].
  unfold bind at 1. rewrite X5. exact X6.
Qed.

(** ** The reboot tests *)

Lemma universal_newlines_id t : no_char CR t = true -> universal_newlines t = t.
Proof.
  unfold no_char. induction t as [|c t IH]; [done|]. cbn [all_chars universal_newlines]. intros H. bool_to_prop.
  rewrite (Ascii.eqb_sym c CR), H. by rewrite IH.
Qed.

Lemma contains_end p t : contains p (t +:+ p) = true.
Proof.
  induction t as [|c t IH].
  - rewrite sapp_nil. destruct p as [|c p]; [done|]. cbn [contains]. apply orb_true_iff. left.
    pose proof (startswith_app (String c p) "") as H. by rewrite sapp_nil_r in H.
  - rewrite sapp_cons. cbn [contains]. by rewrite IH, orb_true_r.
Qed.

Hypothesis before_clean : contains _MARK_RESET (before +:+ _MARK_LOADED) = false.
Hypothesis after_clean : contains _MARK_LOADED after = false /\ contains _MARK_RESET after = false.
Hypothesis no_cr : no_char CR (before +:+ after) = true.

(** The text of a software reset says that the sessions were loaded. *)
Lemma boot_says : restored_verdict (universal_newlines (line_text SessionsLoaded)) = Some true.
Proof.
  assert (line_text SessionsLoaded = (before +:+ _MARK_LOADED) +:+ String LF after) as E by (unfold line_text; by rewrite sapp_assoc).
  rewrite universal_newlines_id.
  - rewrite E. change (restored_verdict ?x) with (verdict_from x 0). rewrite verdict_line by (done || by rewrite before_clean, andb_false_r).
    destruct after_clean as [A1 A2]. unfold verdict_from. rewrite !rfind_contains, A1, A2 by (done || lia). cbn [negb orb].
    unfold line_mark. by rewrite contains_end.
  - rewrite E. unfold no_char in *. rewrite !all_chars_app in *. bool_to_prop. rewrite H. cbn [all_chars andb]. by rewrite H0.
Qed.

Definition reboot_request : request := Request POST "/cmd" (Some reboot_command) (scalar 30).

Lemma fw_reboot id d : id ∈ ids d -> 0 < id < 2 ^ 32 ->
  exists r, fw_device (Bare (Some (show_Z id))) reboot_request d =
    (Ok r, FwState (store_of d) (fixture_jar d) (Some boot_reads) (uart_text d)) /\ status_code r = 200.
Proof.
  intros Hin Hid. unfold fw_device. cbn [meth url_path payload reboot_request String.eqb Ascii.eqb Bool.eqb cookie_of].
  rewrite get_cookie by (pose proof (show_Z_length 9 id ltac:(cbn; lia)); unfold COOKIE_MAX_LEN; lia).
  unfold cmd_post_handler, auth_middleware_check. cbn [cookie_val received_json]. rewrite cookie_value by lia.
  rewrite (proj2 (Z.eqb_neq id 0)) by lia. rewrite (proj2 (exists_in id (store_of d)) Hin). cbn [negb].
  unfold reboot_command. rewrite get_item by (repeat constructor; by vm_compute). by eexists.
Qed.

(** A software reset of a saved store changes nothing. *)
Lemma reset_saved s : sane (session_buffer s) -> s = save_session_buf s ->
  exists s', reset ESP_RST_SW s = (s', [SessionsLoaded]) /\ session_buffer s' = session_buffer s /\
    stored_login s' = stored_login s /\ stored_pass s' = stored_pass s.
Proof.
  intros Hs E. unfold reset, auth_init. cbn [session_mutex]. eexists. split; [reflexivity|]. split; [|done].
  set (z := AuthState (SessionBuffer (replicate MAX_SESSIONS 0) 0) _ _ _ _ _ _). cbn [session_buffer].
  assert (backup_buffer z = session_buffer s) as Eb.
  { unfold backup_buffer, z. cbn [backup_session_ids backup_current_index]. rewrite E. cbn. rewrite Nat2Z.id.
    by destruct (session_buffer s). }
  rewrite load_backup, Eb; [done|by rewrite Eb|]. cbn [z backup_current_index]. rewrite E. cbn. lia.
Qed.

(** The device after the reboot: the same ring, and the log has grown. *)
Record rebooted (d d' : fw_state) : Prop := {
  rb_buffer : session_buffer (store_of d') = session_buffer (store_of d);
  rb_ready : ready d'
}.

Lemma restored_fw k n d0 a deadline :
  ready (dev a).1 -> store_of (dev a).1 = save_session_buf (store_of (dev a).1) ->
  pending (dev a).1 = Some k -> (k < n)%nat -> (now a + inject_Z (Z.of_nat k) * (1 # 2) <= deadline)%Q ->
  session_buffer (store_of (dev a).1) = session_buffer (store_of d0) ->
  exists a', restored_loop fw_serial n (String.length (uart_text (dev a).1)) deadline a = (Ok (Some true), a') /\
    rebooted d0 (dev a').1 /\ cost a' = cost a.
Proof.
  intros Hr Hs Hp Hn Ht Hb. revert n a Hr Hs Hp Hn Ht Hb. induction k as [|k IH]; intros [|n] a Hr Hs Hp Hn Ht Hb; [lia| |lia|].
  - destruct (reset_saved _ (ready_sane _ Hr) Hs) as (s' & Er & Eb & El & Ep).
    assert (fw_serial (dev a).1 = (Some (uart_text (dev a).1 +:+ line_text SessionsLoaded),
      FwState s' (fixture_jar (dev a).1) None (uart_text (dev a).1 +:+ line_text SessionsLoaded))) as E.
    { unfold fw_serial. rewrite Hp, Er. done. }
    cbn [restored_loop]. unfold bind at 1, read_serial. rewrite E. rewrite sdrop_app, boot_says. eexists.
    split; [reflexivity|]. split; [|done]. destruct Hr as [R1 R2 R3].
    split; cbn [dev store_of fst]; [by rewrite Eb|]. split; cbn [store_of]; congruence.
  - assert (fw_serial (dev a).1 = (Some (uart_text (dev a).1),
      FwState (store_of (dev a).1) (fixture_jar (dev a).1) (Some k) (uart_text (dev a).1))) as E.
    { unfold fw_serial. by rewrite Hp. }
    cbn [restored_loop]. unfold bind at 1, read_serial. rewrite E.
    assert (sdrop (String.length (uart_text (dev a).1)) (uart_text (dev a).1) = "") as ->.
    { pose proof (sdrop_app (uart_text (dev a).1) "") as H. by rewrite sapp_nil_r in H. }
    cbn [universal_newlines]. change (restored_verdict "") with (@None bool). cbv iota. unfold bind at 1, anow. cbn [now].
    rewrite Nat2Z.inj_succ, <- Z.add_1_r, inject_Z_plus in Ht. change (inject_Z 1) with 1%Q in Ht.
    assert (0 <= inject_Z (Z.of_nat k))%Q as Hk by (change 0%Q with (inject_Z 0); rewrite <- Zle_Qle; lia).
    assert (Qle_bool deadline (now a) = false) as ->.
    { apply not_true_iff_false. rewrite Qle_bool_iff. lra. }
    unfold bind, asleep, modify. cbn [dev log cookies open_sessions now cost].
    destruct (IH n (AWorld (FwState (store_of (dev a).1) (fixture_jar (dev a).1) (Some k) (uart_text (dev a).1),
      (dev a).2 ++ [Saw (Some (uart_text (dev a).1))]) (log a) (cookies a) (open_sessions a) (now a + (1 # 2)) (cost a)))
      as (a' & E' & Hrb & Hc); cbn [dev fst store_of pending uart_text now]; try done.
    + by destruct Hr.
    + lia.
    + lra.
    + exists a'. by split_and!.
Qed.

Lemma probe_fw a : exists a', probe_up fw_device a = (Ok true, a') /\ (dev a').1 = (dev a).1 /\ cost a' = cost a /\
  now a' = (now a + cost a (length (log a)))%Q.
Proof.
  unfold probe_up, try_except, bind, bare, recorded.
  change (fw_device (Bare None) favicon (dev a).1) with (@Ok response (Response 200 "" None []), (dev a).1).
  eexists. by split_and!.
Qed.

(** With requests of at most 5 s, three probes end the wait. *)
Lemma up_fw m k n stable deadline a :
  (stable = S (m + k))%nat -> (m < n)%nat -> (forall i, (0 <= cost a i <= 5)%Q) ->
  (now a + 6 * inject_Z (Z.of_nat (S m)) <= deadline)%Q ->
  exists a', up_loop fw_device n k stable deadline a = (Ok true, a') /\ (dev a').1 = (dev a).1.
Proof.
  revert k n a. induction m as [|m IH]; intros k [|n] a Hs Hn Hc Ht; [lia| |lia|];
    (rewrite up_loop_S; [|rewrite ?Nat2Z.inj_succ, <- ?Z.add_1_r, ?inject_Z_plus in Ht;
       change (inject_Z 1) with 1%Q in Ht; change (inject_Z (Z.of_nat 0)) with 0%Q in Ht;
       try (assert (0 <= inject_Z (Z.of_nat m))%Q by (change 0%Q with (inject_Z 0); rewrite <- Zle_Qle; lia)); lra]);
    cbv zeta; destruct (probe_fw (asleep 1 a).2) as (a1 & -> & D & C & N); cbn [fst snd].
  - rewrite (proj2 (Nat.leb_le stable (S k))) by lia. by exists a1.
  - rewrite (proj2 (Nat.leb_gt stable (S k))) by lia.
    destruct (IH (S k) n a1) as (a' & E & D'); [lia|lia|by rewrite C| |exists a'; by rewrite D', D].
    rewrite N. cbn [asleep modify snd now cost log].
    pose proof (Hc (length (log a))). rewrite (Nat2Z.inj_succ (S m)), <- Z.add_1_r, inject_Z_plus in Ht.
    change (inject_Z 1) with 1%Q in Ht. lra.
Qed.

Lemma check_all_fw new a : Forall (fun id => 0 < id < 2 ^ 32 /\ id ∈ ids (dev a).1) new ->
  exists a', check_all fw_device (show_Z <$> new) a = (Ok tt, a') /\ (dev a').1 = (dev a).1.
Proof.
  revert a. induction new as [|id new IH]; intros a Hf; [by exists a|]. apply Forall_cons in Hf as [[Hid Hin] Hf].
  cbn [fmap list_fmap check_all]. destruct (check_fw id 200 a Hid) as (a1 & E & D & _); [by rewrite decide_True|].
  unfold bind. rewrite E. destruct (IH a1) as (a2 & E2 & D2); [by rewrite D|]. exists a2. by rewrite D2, D.
Qed.

(** The fixture is re-armed in the first round. *)
Lemma rearm_fw fuel a : (0 < fuel)%nat -> ready (dev a).1 ->
  exists a', _rearm_api_session fw_device fuel 300 a = (Ok tt, a') /\ ready (dev a').1.
Proof.
  intros Hf Hr. destruct fuel as [|fuel]; [lia|]. unfold _rearm_api_session, wait_for_ready, try_except.
  unfold bind at 1, anow. rewrite ready_loop_S. unfold bind at 1, anow.
  rewrite (proj1 (not_true_iff_false (Qle_bool (now a + 300) (now a)))) by (rewrite Qle_bool_iff; lra).
  unfold bind at 1, asleep, modify, reconnect. unfold bind at 1. set (a0 := AWorld _ _ _ _ _ _). cbn [dev log open_sessions now cost].
  match goal with |- context [bind (ready_probe _) _ ?x] => set (a1 := x) end.
  destruct (fw_login Fixture 10 (dev a).1 Hr) as (id & d & E & Hid & _ & Hr' & Hb & Hj & _).
  destruct (api_fw _ a1 _ _ E) as (a2 & E2 & D2 & _).
  assert (fw_device Fixture info_request (dev a2).1 = (Ok (Response 200 "" None []), (dev a2).1)) as E3.
  { unfold fw_device. cbn [meth url_path info_request String.eqb Ascii.eqb Bool.eqb cookie_of]. rewrite D2, Hj.
    rewrite get_cookie by (pose proof (show_Z_length 9 id ltac:(cbn; lia)); unfold COOKIE_MAX_LEN; lia).
    unfold auth_middleware_check. cbn [cookie_val]. rewrite cookie_value by lia.
    rewrite (proj2 (Z.eqb_neq id 0)) by lia. rewrite (proj2 (exists_in id (store_of d))); [done|].
    rewrite Hb. apply put_in, Hr. }
  destruct (api_fw _ a2 _ _ E3) as (a3 & X3 & D3 & _). exists a3. split; [|by rewrite D3, D2].
  unfold bind, ready_probe, try_except, auth, get_info, http_post, http_get.
  change (Request POST "/auth" (Some (JObj [("login", JStr DEFAULT_LOGIN); ("pass", JStr DEFAULT_PASSWORD)])) (scalar 10))
    with (auth_request credentials 10). change (Request GET "/info" None (scalar 10)) with info_request.
  unfold bind. rewrite E2, X3. reflexivity.
Qed.

(** The device comes back with its sessions, however long the boot takes
    within the ten minutes the test waits. *)
Lemma reboot_fw fuel id a :
  ready (dev a).1 -> store_of (dev a).1 = save_session_buf (store_of (dev a).1) -> id ∈ ids (dev a).1 -> 0 < id < 2 ^ 32 ->
  pending (dev a).1 = None -> (boot_reads < fuel)%nat -> (3 <= fuel)%nat -> (boot_reads <= 1200)%nat ->
  (forall i, (0 <= cost a i <= 5)%Q) ->
  exists a', reboot_and_wait fw_device fw_serial fuel (show_Z id) a = (Ok tt, a') /\ rebooted (dev a).1 (dev a').1.
Proof.
  intros Hr Hs Hin Hid Hp Hf1 Hf2 Hb Hc. unfold reboot_and_wait. unfold bind at 1, _serial_log_offset.
  assert (fw_serial (dev a).1 = (Some (uart_text (dev a).1), (dev a).1)) as Es by (unfold fw_serial; by rewrite Hp).
  unfold bind at 1, read_serial. rewrite Es. cbn [ret fmap option_fmap option_map]. set (a0 := AWorld _ _ _ _ _ _).
  unfold assert at 1. rewrite bool_decide_true by done. unfold bind at 1. cbn [ret].
  destruct (fw_reboot id (dev a).1 Hin Hid) as (r & E & Hst). destruct (bare_fw _ _ a0 _ _ E) as (a1 & E1 & D1 & C1).
  unfold bind at 1, _reboot_with_session, try_except, bind. fold reboot_request. rewrite E1.
  unfold assert at 1. rewrite Hst. cbn [Z.eqb Pos.eqb ret]. unfold _sessions_restored_after_reboot, bind, anow.
  destruct (restored_fw boot_reads fuel (dev a).1 a1 (now a1 + 600)) as (a2 & E2 & Hrb & C2); rewrite ?D1; try done.
  - by destruct Hr.
  - assert (inject_Z (Z.of_nat boot_reads) <= inject_Z 1200)%Q as Hq by (rewrite <- Zle_Qle; lia).
    change (inject_Z 1200) with 1200%Q in Hq. lra.
  - rewrite D1 in E2. cbn [uart_text] in E2. rewrite E2.
    destruct (up_fw 2 0 fuel 3 (now a2 + 1800) a2) as (a3 & E3 & D3); [done|lia|by rewrite C2, C1|..].
    { change (inject_Z (Z.of_nat 3)) with 3%Q. lra. }
    unfold _wait_device_up, bind, anow. rewrite E3. cbn [assert ret]. exists a3. by rewrite D3.
Qed.

Lemma cleanup_fw fuel sids a : (0 < fuel)%nat -> ready (dev a).1 ->
  exists a', (logout_all fw_device sids ;;; _rearm_api_session fw_device fuel 300) a = (Ok tt, a') /\ ready (dev a').1.
Proof.
  intros Hf Hr. destruct (logout_all_fw sids a Hr) as (a1 & E1 & R1). destruct (rearm_fw fuel a1 Hf R1) as (a2 & E2 & R2).
  exists a2. split; [|done]. unfold bind. by rewrite E1.
Qed.

Lemma finally_fw (m : eff net unit) (f : eff net unit) a a1 a2 :
  m a = (Ok tt, a1) -> f a1 = (Ok tt, a2) -> try_finally m f a = (Ok tt, a2).
Proof. intros E1 E2. unfold try_finally. by rewrite E1, E2. Qed.

(** The reboot itself, after logins that are all still in the ring. *)
Lemma reboot_and_check fuel d a new kept :
  ready d -> logins d (dev a).1 new -> pending d = None -> new <> [] ->
  (boot_reads < fuel)%nat -> (3 <= fuel)%nat -> (boot_reads <= 1200)%nat -> (forall i, (0 <= cost a i <= 5)%Q) ->
  (10 <= length new)%nat -> kept = drop (length new - 10) new ->
  exists a', (let* sid := lift (newest (show_Z <$> new)) in
              reboot_and_wait fw_device fw_serial fuel sid ;;; check_all fw_device (show_Z <$> kept)) a = (Ok tt, a') /\
    ready (dev a').1.
Proof.
  intros Hr Hl Hp Hne Hf1 Hf2 Hb Hc Hn ->. pose proof (last_ten _ _ _ Hr Hl Hn) as Hids.
  destruct (last new) as [id|] eqn:El; [|by apply last_None in El].
  assert (id ∈ drop (length new - 10) new) as Hin.
  { apply last_Some in El as [l ->]. rewrite length_app, drop_app_le by (cbn; lia). apply elem_of_app. right. left. }
  assert (0 < id < 2 ^ 32) as Hid.
  { apply (Forall_lookup_1 _ _ (pred (length new)) _ (lg_width _ _ _ Hl)). by rewrite <- last_lookup. }
  destruct (reboot_fw fuel id a) as (a1 & E1 & [Hbuf Hr1]); try done.
  - apply Hl.
  - by apply (lg_saved _ _ _ Hl).
  - by rewrite Hids.
  - by rewrite (lg_pending _ _ _ Hl).
  - destruct (check_all_fw (drop (length new - 10) new) a1) as (a2 & E2 & D2).
    { apply Forall_forall. intros x Hx. split.
      - pose proof (lg_width _ _ _ Hl) as Hw. rewrite Forall_forall in Hw. apply Hw.
        rewrite <- (take_drop (length new - 10) new). apply elem_of_app. by right.
      - unfold ids in *. by rewrite Hbuf, Hids. }
    exists a2. split; [|by rewrite D2]. unfold bind at 1, lift, newest. rewrite fmap_last, El. cbn [fmap option_fmap option_map].
    unfold bind. by rewrite E1.
Qed.

Lemma au05_accepts fuel a :
  ready (dev a).1 -> pending (dev a).1 = None -> (boot_reads < fuel)%nat -> (3 <= fuel)%nat -> (boot_reads <= 1200)%nat ->
  (forall i, (0 <= cost a i <= 5)%Q) ->
  exists a', test_au05_full_buffer_preserved_after_sw_reboot fw_device fw_serial fuel a = (Ok tt, a') /\ ready (dev a').1.
Proof.
  intros Hr Hp Hf1 Hf2 Hb Hc. unfold test_au05_full_buffer_preserved_after_sw_reboot.
  set (rest := fun sids : list string => _). set (fin := fun sids : list string => _).
  destruct (fill_fw MAX_SESSIONS rest fin [] a (dev a).1 (logins_nil _ Hr)) as (new & a1 & Hn & Hl & C1 & E).
  cbn [fmap list_fmap app] in E, Hl. rewrite E. unfold MAX_SESSIONS in Hn.
  destruct (reboot_and_check fuel (dev a).1 a1 new new) as (a2 & E2 & R2); try done.
  - by intros ->.
  - by rewrite C1.
  - lia.
  - by rewrite Hn.
  - destruct (cleanup_fw fuel (show_Z <$> new) a2) as (a3 & E3 & R3); [lia|done|]. exists a3. split; [|done].
    by apply (finally_fw _ _ _ a2).
Qed.

Lemma au06_accepts fuel a :
  ready (dev a).1 -> pending (dev a).1 = None -> (boot_reads < fuel)%nat -> (3 <= fuel)%nat -> (boot_reads <= 1200)%nat ->
  (forall i, (0 <= cost a i <= 5)%Q) ->
  exists a', test_au06_ring_wrap_preserved_after_sw_reboot fw_device fw_serial fuel a = (Ok tt, a') /\ ready (dev a').1.
Proof.
  intros Hr Hp Hf1 Hf2 Hb Hc. unfold test_au06_ring_wrap_preserved_after_sw_reboot.
  set (rest := fun sids : list string => _). set (fin := fun sids : list string => _).
  destruct (fill_fw (MAX_SESSIONS + 1) rest fin [] a (dev a).1 (logins_nil _ Hr)) as (new & a1 & Hn & Hl & C1 & E).
  cbn [fmap list_fmap app] in E, Hl. rewrite E. unfold MAX_SESSIONS in Hn. cbn in Hn.
  destruct (eleven_logins _ _ _ Hr Hl Hn) as (id0 & id10 & H0 & _ & Hw0 & _ & N0 & _).
  set (a2 := (asleep 1 a1).2). destruct (check_fw id0 401 a2 Hw0) as (a3 & E3 & D3 & C3); [by rewrite decide_False|].
  destruct (reboot_and_check fuel (dev a).1 a3 new (drop 1 new)) as (a4 & E4 & R4); try done.
  - by rewrite D3.
  - by intros ->.
  - rewrite C3. change (cost a2) with (cost a1). by rewrite C1.
  - lia.
  - by rewrite Hn.
  - destruct (cleanup_fw fuel (drop 1 (show_Z <$> new)) a4) as (a5 & E5 & R5); [lia|done|]. exists a5. split; [|done].
    apply (finally_fw _ _ _ a4); [|done]. unfold rest. unfold bind at 1. change (asleep 1 a1) with (@Ok unit tt, a2). cbv iota beta.
    destruct new as [|x new]; [done|]. injection H0 as ->. unfold bind at 1, lift at 1. cbn [first_sid fmap list_fmap].
    unfold bind at 1. rewrite E3. exact E4.
Qed.

(** The ring tests accept the firmware: whatever earlier tests or an uninitialised RTC memory left in the ring, AU-02 (the eleventh session evicts the first), AU-03 (logout without a cookie) and AU-04 (missing fields) pass on the session store, and H3 (two sessions, one logged out) passes when the fixture is logged in; each leaves a store on which the tests can run again. *)
Theorem ring_tests_accept_firmware a :
  ready (dev a).1 ->
  (exists a', test_au02_session_ring_buffer_eviction fw_device a = (Ok tt, a') /\ ready (dev a').1) /\
  (exists a', test_au03_logout_without_cookie fw_device a = (Ok tt, a') /\ ready (dev a').1) /\
  (exists a', test_au04_login_missing_fields fw_device a = (Ok tt, a') /\ (dev a').1 = (dev a).1) /\
  (authenticated (dev a).1 -> exists a', test_h3_concurrent_sessions fw_device a = (Ok tt, a') /\ ready (dev a').1).
Proof.
  intros Hr. split_and!; [by apply au02_accepts|by apply au03_accepts|apply au04_accepts|by apply h3_accepts].
Qed.

(** C14. The reboot tests accept the firmware: from every state of the ring, and however long within ten minutes the reset takes to show in the log, AU-05 and AU-06 pass on a device that answers with the session store and resets by software: the sessions saved before the reset are those accepted after it, and the evicted one is not. *)
Theorem reboot_tests_accept_firmware fuel a :
  ready (dev a).1 -> pending (dev a).1 = None -> (boot_reads < fuel)%nat -> (3 <= fuel)%nat -> (boot_reads <= 1200)%nat ->
  (forall i, (0 <= cost a i <= 5)%Q) ->
  (exists a', test_au05_full_buffer_preserved_after_sw_reboot fw_device fw_serial fuel a = (Ok tt, a') /\ ready (dev a').1) /\
  (exists a', test_au06_ring_wrap_preserved_after_sw_reboot fw_device fw_serial fuel a = (Ok tt, a') /\ ready (dev a').1).
Proof. intros. split; [by apply au05_accepts|by apply au06_accepts]. Qed.

End Firmware.

(** ** Witnesses *)

(** A ring of arbitrary contents, as after a read of uninitialised memory. *)
Definition garbage : fw_state :=
  FwState (AuthState (SessionBuffer [7; 7; 0; 9; 3735928559; 0; 1; 2; 3; 4] 3) (replicate MAX_SESSIONS 0) 0 true
             (Some "admin") (Some "admin") 5) None None "boot".

Definition boot_before : string := "I (300) main: start" +:+ String LF "I (352) auth: ".
Definition boot_after : string := "I (360) main: up" +:+ String LF "".

Lemma garbage_ready : ready garbage.
Proof.
  split; [|done|done]. split; [done|cbn; unfold MAX_SESSIONS; lia|]. repeat (constructor; [lia|]). constructor.
Qed.

Lemma ring_tests_accept_firmware_witness :
  let device := fw_device count16 json_item (fun c => c) (fun _ => 64) 11 2 in
  let a := AWorld (garbage, []) [] ∅ 1 0 (fun _ => 1%Q) in
  (exists a', test_au02_session_ring_buffer_eviction device a = (Ok tt, a') /\ ready (dev a').1) /\
  (exists a', test_au03_logout_without_cookie device a = (Ok tt, a') /\ ready (dev a').1) /\
  (exists a', test_au04_login_missing_fields device a = (Ok tt, a') /\ (dev a').1 = (dev a).1) /\
  (authenticated (dev a).1 -> exists a', test_h3_concurrent_sessions device a = (Ok tt, a') /\ ready (dev a').1).
Proof.
  intros device a. apply ring_tests_accept_firmware; try done; [apply count16_lively|apply garbage_ready].
Defined.

Lemma reboot_tests_accept_firmware_witness :
  let device := fw_device count16 json_item (fun c => c) (fun _ => 64) 11 7 in
  let serial := fw_serial boot_before boot_after in
  let a := AWorld (garbage, []) [] ∅ 1 0 (fun _ => 1%Q) in
  (exists a', test_au05_full_buffer_preserved_after_sw_reboot device serial 10 a = (Ok tt, a') /\ ready (dev a').1) /\
  (exists a', test_au06_ring_wrap_preserved_after_sw_reboot device serial 10 a = (Ok tt, a') /\ ready (dev a').1).
Proof.
  intros device serial a. apply reboot_tests_accept_firmware; try done; [apply count16_lively|apply garbage_ready|lia..].
Defined.

(** A run of AU-05 and AU-06 on the firmware, and what its pass shows. *)
Lemma reboot_tests_mean_witness :
  let device := fw_device count16 json_item (fun c => c) (fun _ => 64) 11 7 in
  let serial := fw_serial boot_before boot_after in
  let a := AWorld (garbage, []) [] ∅ 1 0 (fun _ => 1%Q) in
  (exists h sids sid n,
     (dev (test_au05_full_buffer_preserved_after_sw_reboot device serial 10 a).2).2 = (dev a).2 ++ h /\
     length sids = 10%nat /\ last sids = Some sid /\
     in_order ((logged_in <$> sids) ++ reboot_seen sid n ++ (checked 200 <$> sids)) h) /\
  (exists h sids sid0 sid n,
     (dev (test_au06_ring_wrap_preserved_after_sw_reboot device serial 10 a).2).2 = (dev a).2 ++ h /\
     length sids = 11%nat /\ head sids = Some sid0 /\ last sids = Some sid /\
     in_order ((logged_in <$> sids) ++ [checked 401 sid0] ++ reboot_seen sid n ++ (checked 200 <$> drop 1 sids)) h).
Proof.
  intros device serial a. destruct (reboot_tests_mean device serial 10 a) as [H5 H6].
  split; [apply H5|apply H6]; vm_compute; reflexivity.
Defined.
