(* ===== verification/StreamSplitter.v ===== *)
(** * Splitting a gap-less buffer into frames: bridge/stream_splitter.c

    A buffer is a list of bytes; [rem]/[rem_len] of the code are the list
    that is left.  The array of at most 16 frames is a list, its bound the
    number of rounds.  Theorems: the frames cover the buffer, the ones marked
    valid pass the CRC check, only the last can be a remainder, and a buffer
    made of well-formed frames is split into them again. *)

From Stdlib Require Import ZArith Lia.
From stdpp Require Import base list.
From S2P Require Import Prelude PyBytes ModbusCrc RtuFrames.

Open Scope Z_scope.

Definition STREAM_SPLITTER_MAX_FRAMES : nat := 16.
Definition MODBUS_FAST_MAX_FRAME_LEN : Z := 265.

Record stream_frame_t := StreamFrame { fdata : list Z; crc_valid : bool }.

(** [(result == 0 || result > avail) ? 0 : result] *)
Definition fits (result avail : Z) : Z := if (result =? 0) || (avail <? result) then 0 else result.

Definition fm_expected_len (buf : list Z) : Z :=
  let avail := zlen buf in
  if avail <? 3 then 0
  else
    let fc := byte_at buf 1 in
    let subcmd := byte_at buf 2 in
    let result :=
      if fc =? 0x46 then
        if (subcmd =? 0x01) || (subcmd =? 0x02) || (subcmd =? 0x04) || (subcmd =? 0x12) then 5
        else if subcmd =? 0x03 then 10
        else if subcmd =? 0x09 then
          if (9 <=? avail) && (1 <=? byte_at buf 7) && (byte_at buf 7 <=? 4) then 11 + byte_at buf 8 else 0
        else if subcmd =? 0x10 then 9
        else if subcmd =? 0x11 then if 6 <=? avail then 8 + byte_at buf 5 else 0
        else if subcmd =? 0x18 then if 4 <=? avail then 6 + byte_at buf 3 else 0
        else 0
      else if fc =? 0x60 then
        if (subcmd =? 0x01) || (subcmd =? 0x02) || (subcmd =? 0x04) || (subcmd =? 0x12) then 5
        else if subcmd =? 0x03 then 10
        else if subcmd =? 0x10 then 9
        else 0
      else 0 in
    fits result avail.

Definition frame_expected_len (buf : list Z) (is_response : bool) : Z :=
  let avail := zlen buf in
  if avail <? 2 then 0
  else
    let fc := byte_at buf 1 in
    if (fc =? 0x46) || (fc =? 0x60) then fm_expected_len buf
    else if negb (Z.land fc 0x80 =? 0) then fits 5 avail
    else if (1 <=? fc) && (fc <=? 4) then
      if negb is_response then fits 8 avail
      else if avail <? 3 then 0 else fits (3 + byte_at buf 2 + 2) avail
    else if (fc =? 5) || (fc =? 6) || (fc =? 8) then fits 8 avail
    else if (fc =? 0x0F) || (fc =? 0x10) then
      if negb is_response then if avail <? 7 then 0 else fits (7 + byte_at buf 6 + 2) avail
      else fits 8 avail
    else 0.

(** One length guess: kept when it is a length and the CRC agrees. *)
Definition guess (rem : list Z) (is_response : bool) : Z :=
  let n := frame_expected_len rem is_response in
  if negb (n =? 0) && Firmware.frame_crc_ok rem n then n else 0.

(** [for (try_len = 4; try_len <= scan_limit; try_len++)], [n] lengths left. *)
Fixpoint scan (n : nat) (try_len : Z) (rem : list Z) : Z :=
  match n with
  | O => 0
  | S n => if Firmware.frame_crc_ok rem try_len then try_len else scan n (try_len + 1) rem
  end.

Definition scan_limit (rem : list Z) : Z :=
  if zlen rem <? MODBUS_FAST_MAX_FRAME_LEN then zlen rem else MODBUS_FAST_MAX_FRAME_LEN.

(** The three levels; [hint] on the first frame when a request is pending. *)
Definition frame_len (hint : bool) (rem : list Z) : Z :=
  let n := if hint then guess rem true else 0 in
  let n := if n =? 0 then guess rem false else n in
  let n := if n =? 0 then guess rem true else n in
  if n =? 0 then scan (Z.to_nat (scan_limit rem - 3)) 4 rem else n.

(** The length of the run of 0xFF at the front. *)
Fixpoint ff_run (rem : list Z) : nat :=
  match rem with
  | b :: rem => if b =? 0xFF then S (ff_run rem) else O
  | [] => O
  end.

(** The loop: the frames found, and what is left when the slots are used up. *)
Fixpoint split_loop (slots : nat) (hint : bool) (rem : list Z) : list stream_frame_t * list Z :=
  match slots with
  | O => ([], rem)
  | S slots =>
      if decide (rem = []) then ([], [])
      else
        let n := frame_len hint rem in
        if n =? 0 then
          if byte_at rem 0 =? 0xFF then
            let run := ff_run rem in
            let (fs, rest) := split_loop slots false (drop run rem) in
            (StreamFrame (take run rem) false :: fs, rest)
          else ([StreamFrame rem false], [])
        else
          let (fs, rest) := split_loop slots false (drop (Z.to_nat n) rem) in
          (StreamFrame (take (Z.to_nat n) rem) true :: fs, rest)
  end.

Definition stream_split (buf : list Z) (context_slave context_fc : Z) : list stream_frame_t :=
  let (fs, rest) := split_loop (STREAM_SPLITTER_MAX_FRAMES - 1) (negb (context_fc =? 0)) buf in
  let fs := if decide (rest <> [] /\ (length fs < STREAM_SPLITTER_MAX_FRAMES)%nat)
            then fs ++ [StreamFrame rest false] else fs in
  if decide (fs = []) then [StreamFrame buf (Firmware.frame_crc_ok buf (zlen buf))] else fs.

(** ** The length of a frame *)

(** The CRC check reads only the bytes of the frame. *)
Lemma byte_at_take n l i : (i < n)%nat -> byte_at (take n l) i = byte_at l i.
Proof. intros H. unfold byte_at. by rewrite lookup_take_lt by done. Qed.

Lemma byte_at_app l k i : (i < length l)%nat -> byte_at (l ++ k) i = byte_at l i.
Proof. intros H. unfold byte_at. by rewrite lookup_app_l. Qed.

Lemma fw_loop_ext n pos k l crc :
  (pos + n <= length l)%nat -> Firmware.loop n pos (l ++ k) crc = Firmware.loop n pos l crc.
Proof.
  revert pos crc. induction n as [|n IH]; intros pos crc H; cbn [Firmware.loop]; [done|].
  rewrite byte_at_app by lia. apply IH. lia.
Qed.

Lemma frame_crc_ok_app l k n :
  n <= zlen l -> zlen l < 65536 -> Firmware.frame_crc_ok (l ++ k) n = Firmware.frame_crc_ok l n.
Proof.
  intros Hn Hl. unfold Firmware.frame_crc_ok, Firmware.fw_modbus_crc16, zlen in *. destruct (n <? 4) eqn:E; [done|].
  bool_to_prop. unfold Firmware.u16. rewrite !Z.mod_small by lia.
  rewrite fw_loop_ext, !byte_at_app by lia. done.
Qed.

Lemma frame_crc_ok_long l n : Firmware.frame_crc_ok l n = true -> 4 <= n.
Proof. unfold Firmware.frame_crc_ok. destruct (n <? 4) eqn:E; [done|]. bool_to_prop. lia. Qed.

Lemma fits_spec r a : fits r a = 0 \/ (fits r a = r /\ r <> 0 /\ r <= a).
Proof. unfold fits. destruct ((r =? 0) || (a <? r)) eqn:E; bool_to_prop; [by left|right; lia]. Qed.

Lemma frame_expected_len_le buf r : frame_expected_len buf r <= zlen buf.
Proof.
  unfold frame_expected_len, fm_expected_len.
  assert (0 <= zlen buf) by (unfold zlen; lia).
  repeat (match goal with |- context [fits ?x ?y] => destruct (fits_spec x y) as [->|(-> & _ & ?)] end || split_match); lia.
Qed.

Lemma guess_spec rem r :
  guess rem r = 0 \/
  (4 <= guess rem r <= zlen rem /\ Firmware.frame_crc_ok rem (guess rem r) = true).
Proof.
  unfold guess. destruct (negb _ && _) eqn:E; [|by left]. right. apply andb_true_iff in E as [_ E].
  split; [|done]. split; [by eapply frame_crc_ok_long|apply frame_expected_len_le].
Qed.

Lemma scan_spec n t rem :
  scan n t rem = 0 \/ (t <= scan n t rem < t + Z.of_nat n /\ Firmware.frame_crc_ok rem (scan n t rem) = true).
Proof.
  revert t. induction n as [|n IH]; intros t; cbn [scan]; [by left|].
  destruct (Firmware.frame_crc_ok rem t) eqn:E; [right; split; [lia|done]|].
  destruct (IH (t + 1)) as [->|[? ?]]; [by left|right; split; [lia|done]].
Qed.

Lemma frame_len_spec hint rem :
  frame_len hint rem = 0 \/
  (4 <= frame_len hint rem <= zlen rem /\ Firmware.frame_crc_ok rem (frame_len hint rem) = true).
Proof.
  unfold frame_len.
  assert (forall n k : Z, (n = 0 \/ (4 <= n <= zlen rem /\ Firmware.frame_crc_ok rem n = true)) ->
    (k = 0 \/ (4 <= k <= zlen rem /\ Firmware.frame_crc_ok rem k = true)) ->
    let m := if n =? 0 then k else n in
    m = 0 \/ (4 <= m <= zlen rem /\ Firmware.frame_crc_ok rem m = true)) as Hor.
  { intros n k Hn Hk. cbn. destruct (n =? 0); done. }
  repeat apply Hor; try apply guess_spec.
  - destruct hint; [apply guess_spec|by left].
  - destruct (scan_spec (Z.to_nat (scan_limit rem - 3)) 4 rem) as [->|[H ?]]; [by left|right]. split; [|done].
    unfold scan_limit in *. unfold zlen in *. split_match; bool_to_prop; lia.
Qed.

(** ** The frames cover the buffer *)

Lemma ff_run_spec rem :
  (ff_run rem <= length rem)%nat /\ Forall (fun b => b = 0xFF) (take (ff_run rem) rem) /\
  (byte_at rem 0 = 0xFF -> (0 < ff_run rem)%nat).
Proof.
  induction rem as [|b rem (IH1 & IH2 & _)]; cbn [ff_run]; [split_and!; [done..|cbn; lia]|].
  destruct (b =? 0xFF) eqn:E; bool_to_prop.
  - cbn [length take]. split_and!; [lia|by constructor|lia].
  - split_and!; [lia|constructor|cbn; lia].
Qed.

(** A frame of the splitter that is not the last. *)
Definition settled_frame (f : stream_frame_t) : Prop :=
  fdata f <> [] /\
  if crc_valid f then Firmware.frame_crc_ok (fdata f) (zlen (fdata f)) = true
  else Forall (fun b => b = 0xFF) (fdata f).

(** A frame that may be the last. *)
Definition last_frame (f : stream_frame_t) : Prop :=
  fdata f <> [] /\
  (crc_valid f = true -> Firmware.frame_crc_ok (fdata f) (zlen (fdata f)) = true).

Lemma settled_last f : settled_frame f -> last_frame f.
Proof. intros [H1 H2]. split; [done|]. intros E. by rewrite E in H2. Qed.

(** All frames settled, except that the last may be a remainder. *)
Fixpoint frames_ok (fs : list stream_frame_t) : Prop :=
  match fs with
  | [] => True
  | [f] => last_frame f
  | f :: fs => settled_frame f /\ frames_ok fs
  end.

Lemma frames_ok_cons f fs : settled_frame f -> frames_ok fs -> frames_ok (f :: fs).
Proof. destruct fs; [intros H _; by apply settled_last|done]. Qed.

Lemma split_loop_spec slots hint rem :
  zlen rem < 65536 ->
  let '(fs, rest) := split_loop slots hint rem in
  concat (map fdata fs) ++ rest = rem /\ (length fs <= slots)%nat /\ frames_ok fs /\
  (rest <> [] -> Forall settled_frame fs /\ length fs = slots).
Proof.
  revert hint rem. induction slots as [|slots IH]; intros hint rem Hlen; cbn [split_loop].
  { by split_and!. }
  destruct (decide (rem = [])) as [->|Hne]; [split_and!; try done; cbn; lia|].
  assert (forall n c, (0 < n <= length rem)%nat ->
    settled_frame (StreamFrame (take n rem) c) ->
    let '(fs, rest) := (let (fs, rest) := split_loop slots false (drop n rem) in
                        (StreamFrame (take n rem) c :: fs, rest)) in
    concat (map fdata fs) ++ rest = rem /\ (length fs <= S slots)%nat /\ frames_ok fs /\
    (rest <> [] -> Forall settled_frame fs /\ length fs = S slots)) as Hstep.
  { intros n c Hn Hs. assert (zlen (drop n rem) < 65536) as Hd by (unfold zlen in *; rewrite length_drop; lia).
    specialize (IH false (drop n rem) Hd). destruct (split_loop slots false (drop n rem)) as [fs rest].
    destruct IH as (Hc & Hl & Hf & Hr). cbn [map concat fdata length]. split_and!.
    - by rewrite <- app_assoc, Hc, take_drop.
    - lia.
    - by apply frames_ok_cons.
    - intros H. destruct (Hr H) as [H1 H2]. split; [by constructor|lia]. }
  destruct (frame_len_spec hint rem) as [E|[Hn Hcrc]].
  - rewrite E. cbn [Z.eqb]. destruct (byte_at rem 0 =? 0xFF) eqn:Eff.
    + bool_to_prop. destruct (ff_run_spec rem) as (H1 & H2 & H3). specialize (H3 Eff).
      apply Hstep; [lia|]. split; [|done]. cbn. intros H. apply (f_equal length) in H.
      rewrite length_take in H. cbn in H. lia.
    + cbn. rewrite !app_nil_r. split_and!; try done. lia.
  - assert ((frame_len hint rem =? 0) = false) as -> by (apply Z.eqb_neq; lia).
    set (n := frame_len hint rem) in *. unfold zlen in Hn.
    apply Hstep; [lia|]. split; cbn.
    + intros H. apply (f_equal length) in H. rewrite length_take in H. cbn in H. lia.
    + assert (zlen (take (Z.to_nat n) rem) = n) as En by (unfold zlen; rewrite length_take; lia).
      rewrite En. rewrite <- (take_drop (Z.to_nat n) rem), frame_crc_ok_app in Hcrc; [done|lia|]. unfold zlen in *. lia.
Qed.

(** What the header promises of the splitter, for every buffer: the frames
    cover it exactly, there are between one and sixteen of them, none is
    empty, one marked valid passes the CRC check, and any that is not valid
    and not the last is a run of 0xFF. *)
Lemma stream_split_covers buf slave fc :
  buf <> [] -> zlen buf < 65536 ->
  let fs := stream_split buf slave fc in
  concat (map fdata fs) = buf /\ (1 <= length fs <= STREAM_SPLITTER_MAX_FRAMES)%nat /\ frames_ok fs.
Proof.
  intros Hne Hlen. cbn zeta. unfold stream_split.
  pose proof (split_loop_spec (STREAM_SPLITTER_MAX_FRAMES - 1) (negb (fc =? 0)) buf Hlen) as H.
  destruct (split_loop _ _ _) as [fs rest]. destruct H as (Hc & Hl & Hf & Hr).
  change (STREAM_SPLITTER_MAX_FRAMES - 1)%nat with 15%nat in *. change STREAM_SPLITTER_MAX_FRAMES with 16%nat.
  destruct (decide (rest <> [] /\ _)) as [[Hrest _]|Hn].
  - destruct (Hr Hrest) as [Hs Hl2]. rewrite decide_False by (destruct fs; discriminate).
    rewrite map_app, concat_app, length_app. cbn. rewrite app_nil_r. split_and!; [done|lia|lia|].
    clear -Hs Hrest. induction Hs as [|f fs Hf Hs IH]; [by split|]. by apply frames_ok_cons.
  - assert (rest = []) as ->. { destruct rest; [done|]. exfalso. apply Hn. split; [done|lia]. }
    rewrite app_nil_r in Hc. rewrite decide_False by (intros ->; cbn in Hc; congruence).
    destruct fs; [cbn in Hc; congruence|]. cbn [length] in *. split_and!; [done|lia|lia|done].
Qed.

(** ** A buffer of well-formed frames *)

Lemma zlen_app_le (l k : list Z) : zlen l <= zlen (l ++ k).
Proof. unfold zlen. rewrite length_app. lia. Qed.

Lemma fits_more r a b : a <= b -> fits r a <> 0 -> fits r b = fits r a.
Proof. unfold fits. intros H. repeat split_match; bool_to_prop; lia. Qed.

(** A length read off a frame is not changed by what follows the frame. *)
Lemma fm_expected_len_app f k : fm_expected_len f <> 0 -> fm_expected_len (f ++ k) = fm_expected_len f.
Proof.
  unfold fm_expected_len. pose proof (zlen_app_le f k) as Hle. destruct (zlen f <? 3) eqn:E3; [done|].
  bool_to_prop. assert ((zlen (f ++ k) <? 3) = false) as -> by (apply Z.ltb_ge; lia).
  assert (forall i, (i < length f)%nat -> byte_at (f ++ k) i = byte_at f i) as Hb by (intros; by apply byte_at_app).
  assert (3 <= length f)%nat as H3 by (unfold zlen in *; lia). rewrite !(Hb 1%nat), !(Hb 2%nat) by lia.
  assert (forall (n : Z) (t : bool) (x y : Z), (n <= zlen f -> x = y) ->
    fits (if (n <=? zlen f) && t then x else 0) (zlen f) <> 0 ->
    fits (if (n <=? zlen (f ++ k)) && t then y else 0) (zlen (f ++ k))
    = fits (if (n <=? zlen f) && t then x else 0) (zlen f)) as Hc.
  { intros n t x y Hxy. destruct (n <=? zlen f) eqn:En; [|done]. bool_to_prop.
    assert ((n <=? zlen (f ++ k)) = true) as -> by (apply Z.leb_le; lia). rewrite (Hxy En).
    cbn [andb]. by apply fits_more. }
  repeat match goal with |- context [if ?b then _ else _] =>
    lazymatch b with context [@zlen] => fail | _ => destruct b end end; try by apply fits_more.
  - rewrite <- !andb_assoc. intros H. unfold zlen in *.
    destruct (9 <=? Z.of_nat (length f)) eqn:E9; [|done]. bool_to_prop. rewrite !(Hb 7%nat), !(Hb 8%nat) in * by lia.
    assert ((9 <=? Z.of_nat (length (f ++ k))) = true) as -> by (apply Z.leb_le; lia). by apply fits_more.
  - intros H. specialize (Hc 6 true (8 + byte_at f 5) (8 + byte_at (f ++ k) 5)). rewrite !andb_true_r in Hc.
    apply Hc; [|done]. intros. rewrite Hb; [done|unfold zlen in *; lia].
  - intros H. specialize (Hc 4 true (6 + byte_at f 3) (6 + byte_at (f ++ k) 3)). rewrite !andb_true_r in Hc.
    apply Hc; [|done]. intros. rewrite Hb; [done|unfold zlen in *; lia].
Qed.

Lemma frame_expected_len_app f k r :
  frame_expected_len f r <> 0 -> frame_expected_len (f ++ k) r = frame_expected_len f r.
Proof.
  unfold frame_expected_len. pose proof (zlen_app_le f k) as Hle. destruct (zlen f <? 2) eqn:E2; [done|].
  bool_to_prop. assert ((zlen (f ++ k) <? 2) = false) as -> by (apply Z.ltb_ge; lia).
  assert (forall i, (i < length f)%nat -> byte_at (f ++ k) i = byte_at f i) as Hb by (intros; by apply byte_at_app).
  rewrite (Hb 1%nat) by (unfold zlen in *; lia).
  assert (forall (n x y : Z), (n <= zlen f -> x = y) -> (if zlen f <? n then 0 else fits x (zlen f)) <> 0 ->
    (if zlen (f ++ k) <? n then 0 else fits y (zlen (f ++ k))) = (if zlen f <? n then 0 else fits x (zlen f))) as Hc.
  { intros n x y Hxy. destruct (zlen f <? n) eqn:En; [done|]. bool_to_prop.
    assert ((zlen (f ++ k) <? n) = false) as -> by (apply Z.ltb_ge; lia). rewrite <- Hxy by done. by apply fits_more. }
  repeat match goal with |- context [if ?b then _ else _] =>
    lazymatch b with context [@zlen] => fail | _ => destruct b end end;
    try apply fm_expected_len_app; try (by apply fits_more); try done;
    apply Hc; intros; rewrite Hb; try done; unfold zlen in *; lia.
Qed.

(** A list of frames whose boundaries the length table finds: each is sized
    as a request, or as a response at a place where the reading as a request
    fails. *)
Fixpoint sized (fs : list (list Z)) : Prop :=
  match fs with
  | [] => True
  | f :: fs =>
      f <> [] /\ Firmware.frame_crc_ok f (zlen f) = true /\
      (frame_expected_len f false = zlen f \/
       (guess (f ++ concat fs) false = 0 /\ frame_expected_len f true = zlen f)) /\
      sized fs
  end.

Lemma guess_here f k r :
  f <> [] -> zlen f < 65536 -> Firmware.frame_crc_ok f (zlen f) = true -> frame_expected_len f r = zlen f ->
  guess (f ++ k) r = zlen f.
Proof.
  intros Hne Hl Hc Hs. assert (zlen f <> 0) as Hz by (destruct f; [done|unfold zlen; cbn; lia]).
  unfold guess. rewrite frame_expected_len_app, Hs by lia. rewrite frame_crc_ok_app, Hc by lia.
  apply Z.eqb_neq in Hz. by rewrite Hz.
Qed.

(** The hint of a pending request finds nothing at the front, or the first
    frame. *)
Definition hint_agrees (hint : bool) (fs : list (list Z)) : Prop :=
  hint = true ->
  match fs with [] => True | f :: _ => guess (concat fs) true = 0 \/ guess (concat fs) true = zlen f end.

Lemma split_sized slots hint fs :
  sized fs -> hint_agrees hint fs -> zlen (concat fs) < 65536 -> (length fs <= slots)%nat ->
  split_loop slots hint (concat fs) = ((fun f => StreamFrame f true) <$> fs, []).
Proof.
  revert slots hint. induction fs as [|f fs IH]; intros slots hint Hs Hh Hl Hn; [by destruct slots|].
  destruct slots as [|slots]; [cbn in Hn; lia|]. destruct Hs as (Hne & Hc & Hsz & Hs). unfold hint_agrees in Hh.
  cbn [concat] in *. rewrite zlen_app in Hl.
  assert (0 <= zlen (concat fs) /\ 0 <= zlen f) as [? ?] by (unfold zlen; lia).
  assert ((zlen f =? 0) = false) as Hz by (apply Z.eqb_neq; destruct f; [done|unfold zlen; cbn; lia]).
  assert (frame_len hint (f ++ concat fs) = zlen f) as El.
  { unfold frame_len. assert (forall n, n = 0 \/ n = zlen f ->
      (let n1 := if n =? 0 then guess (f ++ concat fs) false else n in
       let n2 := if n1 =? 0 then guess (f ++ concat fs) true else n1 in
       if n2 =? 0 then scan (Z.to_nat (scan_limit (f ++ concat fs) - 3)) 4 (f ++ concat fs) else n2) = zlen f) as Hn0.
    { intros n [->| ->]; [|cbn zeta; by rewrite !Hz]. cbn zeta. cbn [Z.eqb].
      destruct Hsz as [Hsz|[Hg Hsz]]; [|rewrite Hg; cbn [Z.eqb]]; rewrite !(guess_here f) by (done || lia); by rewrite !Hz. }
    apply Hn0. destruct hint; [by apply Hh|by left]. }
  cbn [split_loop]. rewrite decide_False by (destruct f; done). rewrite El, Hz.
  unfold zlen at 1 2. rewrite Nat2Z.id, drop_app_length, take_app_length, IH; [done|done|done|lia|cbn in Hn; lia].
Qed.

(** A buffer of at most 15 well-formed frames is split into them again. *)
Lemma split_roundtrip fs slave fc :
  fs <> [] -> (length fs <= 15)%nat -> sized fs -> hint_agrees (negb (fc =? 0)) fs -> zlen (concat fs) < 65536 ->
  stream_split (concat fs) slave fc = (fun f => StreamFrame f true) <$> fs.
Proof.
  intros Hne Hn Hs Hh Hl. unfold stream_split.
  rewrite split_sized by done. destruct (decide ([] <> [] /\ _)) as [[? _]|_]; [done|]. rewrite decide_False; [done|]. by destruct fs.
Qed.
