(* ===== verification/Sniffer.v ===== *)
(** * The sniffer of the firmware: bridge/sniffer.c

    The direction heuristic and the request/response state machine
    ([classify_direction], [sniffer_decide]), one port of the receive path
    ([sniffer_process], [sniffer_process_frame]) over its response timer and
    the packet queue, and the dispatch of queued packets to the cache and to
    the WebSocket client.

    A port is driven by tasks that run [sniffer_process_frame] or
    [sniffer_disable] in the steps the code takes between its critical
    sections, by the timer service, and by the consumer of the queue; the
    outcome of every post to a FreeRTOS queue is a choice of the step.
    Theorems: labels, the timer that ends every wait, and merged buffers. *)

From Stdlib Require Import ZArith Lia String.
From stdpp Require Import base list strings relations.
From S2P Require Import Prelude PyBytes PyStr ModbusCrc RtuFrames StreamSplitter.

Open Scope Z_scope.

Definition SNIFFER_QUEUE_LEN : nat := 64.
Definition SNIFFER_RESP_TIMEOUT_MS : Z := 200.
Definition SNIFFER_MAX_PACKET_LEN : nat := 272.
Definition SNIFFER_JSON_BUF_SIZE : nat := 1200.
Definition BRIDGES_COUNT : Z := 2.

Inductive pdu_direction_t : Type := DIRECTION_REQUEST | DIRECTION_RESPONSE | DIRECTION_UNKNOWN.
Inductive sniff_state_t : Type := SNIFF_IDLE | SNIFF_RES_WAIT.

#[export] Instance pdu_direction_eq_dec : EqDecision pdu_direction_t.
Proof. solve_decision. Defined.
#[export] Instance sniff_state_eq_dec : EqDecision sniff_state_t.
Proof. solve_decision. Defined.

Definition SNIFF_REASON_DISPLAY : Z := 1.
Definition SNIFF_REASON_CACHE : Z := 2.

(** A sniffed frame on its way to the WebSocket task; [data_len] is the
    length of [pdata]. *)
Record sniff_packet_t := SniffPacket {
  pport : Z;
  timestamp_us : Z;
  is_master : bool;
  pcrc_valid : bool;
  is_timeout : bool;
  pslave_id : Z;
  pfunction : Z;
  pdata : list Z
}.

(** ** One frame *)

Definition crc_check (data : list Z) : bool := Firmware.frame_crc_ok data (zlen data).

Definition FAST_MODBUS_FUNC_1 : Z := 0x46.
Definition FAST_MODBUS_FUNC_2 : Z := 0x60.
Definition fm_function (fc : Z) : bool := (fc =? FAST_MODBUS_FUNC_1) || (fc =? FAST_MODBUS_FUNC_2).

(** The frame without its 0xFF arbitration bytes, when it is a Fast Modbus
    one. *)
Definition strip_arbitration (data : list Z) : list Z :=
  if (zlen data =? 0) || negb (byte_at data 0 =? 0xFF) then data
  else
    let t := drop (ff_run data) data in
    if (4 <=? zlen t) && fm_function (byte_at t 1) then t else data.

Definition fm_is_slave_subcmd (subcmd : Z) : bool :=
  (subcmd =? 0x03) || (subcmd =? 0x04) || (subcmd =? 0x09) || (subcmd =? 0x11) || (subcmd =? 0x12).

Definition classify_direction (data : list Z) : pdu_direction_t :=
  let len := zlen data in
  let fc := byte_at data 1 in
  let b2 := byte_at data 2 in
  if negb (Z.land fc 0x80 =? 0) then (if len =? 5 then DIRECTION_RESPONSE else DIRECTION_UNKNOWN)
  else if (fc =? 0x01) || (fc =? 0x02) then
    if (len =? 8) && negb (b2 =? 3) then DIRECTION_REQUEST
    else if (5 <=? len) && (len =? 5 + b2) && negb (len =? 8) then DIRECTION_RESPONSE
    else DIRECTION_UNKNOWN
  else if (fc =? 0x03) || (fc =? 0x04) then
    if len =? 8 then DIRECTION_REQUEST
    else if (5 <=? len) && (len =? 5 + b2) && (b2 mod 2 =? 0) && (0 <? b2) then DIRECTION_RESPONSE
    else DIRECTION_UNKNOWN
  else if (fc =? 0x05) || (fc =? 0x06) || (fc =? 0x08) then DIRECTION_UNKNOWN
  else if fc =? 0x07 then
    if len =? 4 then DIRECTION_REQUEST else if len =? 5 then DIRECTION_RESPONSE else DIRECTION_UNKNOWN
  else if fc =? 0x0B then
    if len =? 4 then DIRECTION_REQUEST else if len =? 8 then DIRECTION_RESPONSE else DIRECTION_UNKNOWN
  else if (fc =? 0x0F) || (fc =? 0x10) then
    if len =? 8 then DIRECTION_RESPONSE
    else if (9 <=? len) && (len =? 9 + byte_at data 6) then DIRECTION_REQUEST
    else DIRECTION_UNKNOWN
  else if fc =? 0x11 then
    if len =? 4 then DIRECTION_REQUEST
    else if (5 <=? len) && (len =? 5 + b2) then DIRECTION_RESPONSE
    else DIRECTION_UNKNOWN
  else DIRECTION_UNKNOWN.

(** ** The state machine *)

Record sniff_input_t := SniffInput {
  istate : sniff_state_t;
  isynchronized : bool;
  ilast_was_master : bool;
  matches_pending : bool;
  is_fm : bool;
  fm_slave_subcmd : bool;
  icrc_valid : bool;
  short_frame : bool;
  broadcast : bool;
  dir : pdu_direction_t
}.

Record sniff_decision_t := SniffDecision {
  emit : bool;
  dis_master : bool;
  dcrc_valid : bool;
  from_raw : bool;
  latch_request : bool;
  new_state : sniff_state_t;
  start_timer : bool;
  stop_timer : bool
}.

(** Emit without a request to wait for. *)
Definition show_frame (master crc raw : bool) (st : sniff_state_t) (stop : bool) : sniff_decision_t :=
  SniffDecision true master crc raw false st false stop.

(** Emit as a master and wait for its response. *)
Definition latch_frame (stop : bool) : sniff_decision_t :=
  SniffDecision true true true false true SNIFF_RES_WAIT true stop.

Definition sniffer_decide (i : sniff_input_t) : sniff_decision_t :=
  match istate i with
  | SNIFF_IDLE =>
      if is_fm i then show_frame (negb (fm_slave_subcmd i)) (icrc_valid i) false SNIFF_IDLE false
      else if negb (icrc_valid i) then
        if negb (isynchronized i) then SniffDecision false false false false false SNIFF_IDLE false false
        else show_frame (negb (ilast_was_master i)) false false SNIFF_IDLE false
      else if broadcast i then show_frame true true false SNIFF_IDLE false
      else match dir i with
           | DIRECTION_RESPONSE => show_frame false true false SNIFF_IDLE false
           | DIRECTION_REQUEST => latch_frame false
           | DIRECTION_UNKNOWN => latch_frame false
           end
  | SNIFF_RES_WAIT =>
      if short_frame i then show_frame false false true SNIFF_IDLE true
      else if is_fm i then show_frame (negb (fm_slave_subcmd i)) (icrc_valid i) false SNIFF_IDLE true
      else if icrc_valid i && broadcast i then show_frame true true false SNIFF_RES_WAIT false
      else if bool_decide (dir i = DIRECTION_REQUEST)
              || (bool_decide (dir i = DIRECTION_UNKNOWN) && icrc_valid i && negb (matches_pending i))
      then latch_frame true
      else show_frame false (icrc_valid i) false SNIFF_IDLE true
  end.

(** ** A port *)

Record sniff_ctx_t := SniffCtx {
  state : sniff_state_t;
  reasons : Z;
  req_valid : bool;
  req_slave : Z;
  req_fc : Z;
  req_timestamp_us : Z;
  synchronized : bool;
  last_was_master : bool
}.

(** What the first part of [sniffer_process_frame] computes from the frame. *)
Definition frame_input (effective : list Z) (c : sniff_ctx_t) : sniff_input_t :=
  SniffInput (state c) (synchronized c) (last_was_master c)
    (req_valid c && (byte_at effective 0 =? req_slave c) && (byte_at effective 1 =? req_fc c))
    (fm_function (byte_at effective 1))
    (fm_is_slave_subcmd (if 3 <=? zlen effective then byte_at effective 2 else 0))
    (crc_check effective) (zlen effective <? 4) (byte_at effective 0 =? 0)
    (if 4 <=? zlen effective then classify_direction effective else DIRECTION_UNKNOWN).

(** The critical section: the decision applied to the context. *)
Definition apply_decision (d : sniff_decision_t) (effective : list Z) (now_us : Z) (c : sniff_ctx_t) : sniff_ctx_t :=
  let lat := latch_request d in
  SniffCtx (new_state d) (reasons c)
    (if lat then true else req_valid c)
    (if lat then byte_at effective 0 else req_slave c)
    (if lat then byte_at effective 1 else req_fc c)
    (if lat then now_us else req_timestamp_us c)
    (if emit d then true else synchronized c)
    (if emit d then dis_master d else last_was_master c).

Definition make_packet (port_index : Z) (d : sniff_decision_t) (data effective : list Z) (now_us : Z) : sniff_packet_t :=
  let src := if from_raw d then data else effective in
  SniffPacket port_index now_us (dis_master d) (dcrc_valid d) false (byte_at src 0) (byte_at src 1)
    (take SNIFFER_MAX_PACKET_LEN src).

(** Back to idle without a pending request. *)
Definition abandon (c : sniff_ctx_t) : sniff_ctx_t :=
  SniffCtx SNIFF_IDLE (reasons c) false (req_slave c) (req_fc c) (req_timestamp_us c) (synchronized c)
    (last_was_master c).

(** [sniffer_process_frame] up to the end of its critical section; [None]
    when it returns at once. *)
Definition begin_frame (port_index : Z) (data : list Z) (now_us : Z) (c : sniff_ctx_t)
    : option (sniff_ctx_t * sniff_decision_t * sniff_packet_t) :=
  if (reasons c =? 0) || (zlen data <? 4) then None
  else
    let effective := strip_arbitration data in
    let d := sniffer_decide (frame_input effective c) in
    Some (apply_decision d effective now_us c, d, make_packet port_index d data effective now_us).

(** Where a task is between the calls of the firmware and FreeRTOS. *)
Inductive task : Type :=
| AtRest
| Decided (d : sniff_decision_t) (pkt : sniff_packet_t)     (* before xTimerStop *)
| Stopped (d : sniff_decision_t) (pkt : sniff_packet_t)     (* before try_enqueue *)
| Enqueued (d : sniff_decision_t)                           (* before xTimerStart *)
| Abandoning                                                (* before the last critical section *)
| Quiescing.                                                (* sniffer_disable, before xTimerStop *)

(** The response timer: whether it runs, and the accepted commands the timer
    service has not executed yet. *)
Inductive timer_cmd : Type := CmdStart | CmdStop.

Record port := Port {
  ctx : sniff_ctx_t;
  armed : bool;
  commands : list timer_cmd;
  sniff_queue : list sniff_packet_t;
  expiring : option sniff_packet_t;      (* the timeout packet resp_timer_cb is about to send *)
  tasks : list task
}.

Definition set_ctx (c : sniff_ctx_t) (p : port) : port :=
  Port c (armed p) (commands p) (sniff_queue p) (expiring p) (tasks p).
Definition set_task (i : nat) (t : task) (p : port) : port :=
  Port (ctx p) (armed p) (commands p) (sniff_queue p) (expiring p) (<[i := t]> (tasks p)).
Definition post (c : timer_cmd) (ok : bool) (p : port) : port :=
  Port (ctx p) (armed p) (if ok then commands p ++ [c] else commands p) (sniff_queue p) (expiring p) (tasks p).
Definition try_enqueue (pkt : sniff_packet_t) (ok : bool) (p : port) : port :=
  Port (ctx p) (armed p) (commands p) (if ok then sniff_queue p ++ [pkt] else sniff_queue p) (expiring p) (tasks p).

(** [resp_timer_cb], its critical section: the new context and the timeout
    packet to send, if any. *)
Definition resp_timer_cb (port_index : Z) (c : sniff_ctx_t) : sniff_ctx_t * option sniff_packet_t :=
  let fires := req_valid c && negb (reasons c =? 0) in
  (SniffCtx SNIFF_IDLE (reasons c) (req_valid c) (req_slave c) (req_fc c) (req_timestamp_us c)
     (if fires then true else synchronized c) (if fires then true else last_was_master c),
   if fires then Some (SniffPacket port_index (req_timestamp_us c + SNIFFER_RESP_TIMEOUT_MS * 1000) true true true
                         (req_slave c) (req_fc c) [])
   else None).

Definition sniffer_enable (reason : Z) (c : sniff_ctx_t) : sniff_ctx_t :=
  SniffCtx (state c) (Z.lor (reasons c) reason) (req_valid c) (req_slave c) (req_fc c) (req_timestamp_us c)
    (synchronized c) (last_was_master c).

(** The critical section of [sniffer_disable], and whether [xTimerStop]
    follows. *)
Definition sniffer_disable (reason : Z) (c : sniff_ctx_t) : sniff_ctx_t * bool :=
  let left := Z.land (reasons c) (Z.lnot reason) in
  let became_idle := negb (reasons c =? 0) && (left =? 0) in
  (SniffCtx (if became_idle then SNIFF_IDLE else state c) left (if became_idle then false else req_valid c)
     (req_slave c) (req_fc c) (req_timestamp_us c) (synchronized c) (last_was_master c), became_idle).

(** What a task does next, given whether the queue it posts to has room. *)
Definition task_step (i : nat) (ok : bool) (p : port) : option port :=
  match tasks p !! i with
  | Some (Decided d pkt) =>
      let p := if stop_timer d then post CmdStop ok p else p in Some (set_task i (Stopped d pkt) p)
  | Some (Stopped d pkt) =>
      if emit d then
        Some (set_task i (if ok : bool then Enqueued d else Abandoning) (try_enqueue pkt ok p))
      else Some (set_task i (Enqueued d) p)
  | Some (Enqueued d) =>
      if start_timer d then
        Some (set_task i (if ok : bool then AtRest else Abandoning) (post CmdStart ok p))
      else Some (set_task i AtRest p)
  | Some Abandoning => Some (set_task i AtRest (set_ctx (abandon (ctx p)) p))
  | Some Quiescing => Some (set_task i AtRest (post CmdStop ok p))
  | Some AtRest | None => None
  end.

(** A frame handed to an idle task. *)
Definition feed_frame (port_index : Z) (i : nat) (data : list Z) (now_us : Z) (p : port) : option port :=
  match tasks p !! i, begin_frame port_index data now_us (ctx p) with
  | Some AtRest, Some (c, d, pkt) => Some (set_task i (Decided d pkt) (set_ctx c p))
  | _, _ => None
  end.

(** The timer service: the next command, the expiry, the send of a timeout. *)
Definition run_command (p : port) : option port :=
  match expiring p, commands p with
  | None, c :: cs =>
      Some (Port (ctx p) (match c with CmdStart => true | CmdStop => false end) cs (sniff_queue p) None (tasks p))
  | _, _ => None
  end.

Definition expire (port_index : Z) (p : port) : option port :=
  match expiring p, armed p with
  | None, true =>
      let (c, pkt) := resp_timer_cb port_index (ctx p) in
      Some (Port c false (commands p) (sniff_queue p) pkt (tasks p))
  | _, _ => None
  end.

Definition send_timeout (ok : bool) (p : port) : option port :=
  match expiring p with
  | Some pkt =>
      Some (Port (ctx p) (armed p) (commands p) (if ok then sniff_queue p ++ [pkt] else sniff_queue p) None (tasks p))
  | None => None
  end.

(** ** All of it, interleaved *)

Inductive action : Type :=
| Feed (i : nat) (data : list Z) (now_us : Z)
| Advance (i : nat) (ok : bool)
| RunCommand
| Expire
| SendTimeout (ok : bool)
| Consume
| Enable (reason : Z)
| Disable (i : nat) (reason : Z).

Definition perform (port_index : Z) (a : action) (p : port) : option port :=
  match a with
  | Feed i data now_us => feed_frame port_index i data now_us p
  | Advance i ok => task_step i ok p
  | RunCommand => run_command p
  | Expire => expire port_index p
  | SendTimeout ok => send_timeout ok p
  | Consume =>
      match sniff_queue p with
      | _ :: q => Some (Port (ctx p) (armed p) (commands p) q (expiring p) (tasks p))
      | [] => None
      end
  | Enable reason => Some (set_ctx (sniffer_enable reason (ctx p)) p)
  | Disable i reason =>
      match tasks p !! i with
      | Some AtRest =>
          let (c, became_idle) := sniffer_disable reason (ctx p) in
          Some (set_task i (if became_idle then Quiescing else AtRest) (set_ctx c p))
      | _ => None
      end
  end.

Definition sniff_step (port_index : Z) (p p' : port) : Prop := exists a, perform port_index a p = Some p'.

(** The steps of the timer service alone. *)
Definition svc_step (port_index : Z) (p p' : port) : Prop :=
  run_command p = Some p' \/ expire port_index p = Some p' \/ exists ok, send_timeout ok p = Some p'.

(** A port after [sniffer_init], used by [n] tasks. *)
Definition init_ctx : sniff_ctx_t := SniffCtx SNIFF_IDLE 0 false 0 0 0 false false.
Definition init_port (n : nat) : port := Port init_ctx false [] [] None (replicate n AtRest).

Definition reachable (n : nat) (port_index : Z) : port -> Prop := rtc (sniff_step port_index) (init_port n).

Fixpoint perform_all (port_index : Z) (l : list action) (p : port) : option port :=
  match l with
  | [] => Some p
  | a :: l => p ← perform port_index a p; perform_all port_index l p
  end.

Lemma perform_all_reachable n port_index l p p' :
  reachable n port_index p -> perform_all port_index l p = Some p' -> reachable n port_index p'.
Proof.
  revert p. induction l as [|a l IH]; intros p Hp; cbn; [by intros [= <-]|].
  destruct (perform port_index a p) as [p1|] eqn:E; [|done]. cbn. apply IH.
  eapply rtc_r; [exact Hp|]. by exists a.
Qed.

(** ** Every wait has a timer *)

(** Whether the timer runs once the pending commands are executed. *)
Definition will_run (p : port) : bool :=
  match last (commands p) with Some CmdStart => true | Some CmdStop => false | None => armed p end.

Definition covered (p : port) : Prop := state (ctx p) = SNIFF_RES_WAIT -> will_run p = true.

(** What holds while the only task is at [t]. *)
Definition task_ok (t : task) (p : port) : Prop :=
  match t with
  | AtRest => covered p
  | Quiescing => state (ctx p) = SNIFF_IDLE
  | Abandoning => True
  | Decided d _ | Stopped d _ | Enqueued d =>
      start_timer d = true \/
      if stop_timer d then state (ctx p) = SNIFF_IDLE else covered p
  end.

Definition one_task_ok (p : port) : Prop := exists t, tasks p = [t] /\ task_ok t p.

(** A decision starts the timer, or ends the wait, or leaves the wait and
    the timer as they are. *)
Lemma decide_timer i :
  start_timer (sniffer_decide i) = true \/
  if stop_timer (sniffer_decide i) then new_state (sniffer_decide i) = SNIFF_IDLE
  else new_state (sniffer_decide i) = istate i.
Proof. unfold sniffer_decide, show_frame, latch_frame. destruct (istate i); repeat split_match; cbn; auto. Qed.

(** Running the timer service keeps what a task needs. *)
Lemma task_ok_weaken t p p' :
  (state (ctx p') = SNIFF_IDLE \/ (state (ctx p') = state (ctx p) /\ will_run p' = will_run p)) ->
  task_ok t p -> task_ok t p'.
Proof.
  unfold task_ok, covered. intros H. destruct t; try done; try (destruct (stop_timer d)); destruct H as [H|[H1 H2]];
    rewrite ?H, ?H1, ?H2; intuition congruence.
Qed.

Lemma will_run_post c p : will_run (post c true p) = match c with CmdStart => true | CmdStop => false end.
Proof. unfold will_run, post. cbn. by rewrite last_snoc. Qed.

Lemma set_task_one t p t0 : tasks p = [t0] -> tasks (set_task 0 t p) = [t].
Proof. unfold set_task. cbn. by intros ->. Qed.

Lemma one_task_rest p i t0 t : tasks p = [t0] -> tasks p !! i = Some t -> i = 0%nat /\ t = t0.
Proof. intros ->. destruct i as [|i]; cbn; [by intros [= ->]|done]. Qed.

Lemma task_step_ok i ok p p' : one_task_ok p -> task_step i ok p = Some p' -> one_task_ok p'.
Proof.
  intros (t0 & Ht & Hok). unfold task_step. destruct (tasks p !! i) as [t|] eqn:Ei; [|done].
  destruct (one_task_rest _ _ _ _ Ht Ei) as [-> ->].
  destruct t0 as [|d pkt|d pkt|d| |]; try done; cbn [task_ok] in Hok.
  - intros [= <-]. exists (Stopped d pkt). destruct (stop_timer d) eqn:E.
    + split; [by eapply set_task_one|]. cbn [task_ok]. rewrite E. exact Hok.
    + split; [by eapply set_task_one|]. cbn [task_ok]. rewrite E. exact Hok.
  - destruct (emit d); intros [= <-]; [destruct ok|].
    + exists (Enqueued d). split; [by eapply set_task_one|exact Hok].
    + exists Abandoning. split; [by eapply set_task_one|done].
    + exists (Enqueued d). split; [by eapply set_task_one|exact Hok].
  - destruct (start_timer d) eqn:Es; intros [= <-]; [destruct ok|].
    + exists AtRest. split; [by eapply set_task_one|]. intros _. change (will_run (post CmdStart true p) = true).
      by rewrite will_run_post.
    + exists Abandoning. split; [by eapply set_task_one|done].
    + exists AtRest. split; [by eapply set_task_one|]. destruct Hok as [?|Hok]; [done|].
      unfold task_ok, covered. destruct (stop_timer d); [|exact Hok]. cbn. by rewrite Hok.
  - intros [= <-]. exists AtRest. split; [by eapply set_task_one|]. by intros [=].
  - intros [= <-]. exists AtRest. split; [by eapply set_task_one|]. unfold task_ok, covered. cbn. by rewrite Hok.
Qed.

Lemma feed_ok port_index i data now p p' :
  one_task_ok p -> feed_frame port_index i data now p = Some p' -> one_task_ok p'.
Proof.
  intros (t0 & Ht & Hok). unfold feed_frame. destruct (tasks p !! i) as [t|] eqn:Ei; [|done].
  destruct (one_task_rest _ _ _ _ Ht Ei) as [-> ->]. destruct t0; try done.
  unfold begin_frame. destruct (_ || _); [done|]. intros [= <-].
  match goal with |- context [Decided ?d ?pkt] => exists (Decided d pkt) end.
  split; [by eapply set_task_one|]. cbn [task_ok].
  set (inp := frame_input _ _). destruct (decide_timer inp) as [?|H]; [by left|right].
  destruct (stop_timer (sniffer_decide inp)); [exact H|].
  intros Hw. apply Hok. change (new_state (sniffer_decide inp) = SNIFF_RES_WAIT) in Hw. by rewrite H in Hw.
Qed.

Lemma service_ok port_index p p' : one_task_ok p -> svc_step port_index p p' -> one_task_ok p'.
Proof.
  intros (t & Ht & Hok) [H|[H|[ok H]]].
  - unfold run_command in H. destruct (expiring p), (commands p) as [|c cs] eqn:Ec; try done. injection H as <-.
    exists t. split; [done|]. revert Hok. apply task_ok_weaken. right. split; [done|].
    unfold will_run. cbn. rewrite Ec. rewrite last_cons. destruct (last cs); [done|]. by destruct c.
  - unfold expire in H. destruct (expiring p), (armed p); try done.
    destruct (resp_timer_cb port_index (ctx p)) as [c pkt] eqn:Ec. injection H as <-.
    exists t. split; [done|]. revert Hok. apply task_ok_weaken. left. unfold resp_timer_cb in Ec. by injection Ec as <- _.
  - unfold send_timeout in H. destruct (expiring p); [|done]. injection H as <-.
    exists t. split; [done|]. revert Hok. apply task_ok_weaken. by right.
Qed.

Lemma perform_ok port_index a p p' : one_task_ok p -> perform port_index a p = Some p' -> one_task_ok p'.
Proof.
  intros Hp. destruct a as [i data now|i ok| | |ok| |reason|i reason]; cbn [perform]; intros H.
  - by eapply feed_ok.
  - by eapply task_step_ok.
  - eapply (service_ok port_index); [done|by left].
  - eapply (service_ok port_index); [done|by right; left].
  - eapply (service_ok port_index); [done|right; right; by exists ok].
  - destruct Hp as (t & Ht & Hok). destruct (sniff_queue p); [done|]. injection H as <-.
    exists t. split; [done|]. revert Hok. apply task_ok_weaken. by right.
  - destruct Hp as (t & Ht & Hok). injection H as <-. exists t. split; [done|]. revert Hok. apply task_ok_weaken. by right.
  - destruct Hp as (t & Ht & Hok). destruct (tasks p !! i) as [t'|] eqn:Ei; [|done].
    destruct (one_task_rest _ _ _ _ Ht Ei) as [-> ->]. destruct t; try done.
    unfold sniffer_disable in H. destruct (negb _ && _); injection H as <-.
    + exists Quiescing. split; [by eapply set_task_one|done].
    + exists AtRest. split; [by eapply set_task_one|exact Hok].
Qed.

Lemma reachable_one_task port_index p : reachable 1 port_index p -> one_task_ok p.
Proof.
  unfold reachable. assert (one_task_ok (init_port 1)) as H0 by (exists AtRest; split; [done|by intros [=]]).
  generalize dependent (init_port 1). intros p0 H0 H. induction H as [|p1 p2 p3 [a Ha] _ IH]; [done|].
  apply IH. by eapply perform_ok.
Qed.

(** The timer service cannot run for ever on its own. *)
Definition svc_measure (p : port) : nat :=
  3 * length (commands p) + (if armed p then 2 else 0) + (if expiring p then 1 else 0).

Lemma svc_step_measure port_index p p' : svc_step port_index p p' -> (svc_measure p' < svc_measure p)%nat.
Proof.
  intros [H|[H|[ok H]]]; unfold svc_measure.
  - unfold run_command in H. destruct (expiring p), (commands p) as [|c cs]; try done. injection H as <-. cbn.
    destruct c, (armed p); lia.
  - unfold expire in H. destruct (expiring p), (armed p); try done.
    destruct (resp_timer_cb port_index (ctx p)) as [c pkt]. injection H as <-. cbn. destruct pkt; lia.
  - unfold send_timeout in H. destruct (expiring p); [|done]. injection H as <-. cbn. lia.
Qed.

Lemma svc_nsteps port_index n p p' :
  nsteps (svc_step port_index) n p p' -> (n + svc_measure p' <= svc_measure p)%nat.
Proof. induction 1 as [|n p1 p2 p3 H _ IH]; [lia|]. apply svc_step_measure in H. lia. Qed.

Lemma svc_steps_ok port_index n p p' :
  nsteps (svc_step port_index) n p p' -> one_task_ok p -> one_task_ok p' /\ tasks p' = tasks p.
Proof.
  induction 1 as [|n p1 p2 p3 H _ IH]; [done|]. intros Hp. pose proof (service_ok _ _ _ Hp H) as Hp2.
  destruct (IH Hp2) as [? E]. split; [done|]. rewrite E. destruct H as [H|[H|[ok H]]].
  - unfold run_command in H. repeat case_match; simplify_eq; done.
  - unfold expire in H. repeat case_match; simplify_eq; done.
  - unfold send_timeout in H. repeat case_match; simplify_eq; done.
Qed.

(** A timer service with nothing left to do. *)
Lemma svc_stuck port_index p :
  (forall p', ~ svc_step port_index p p') -> expiring p = None /\ commands p = [] /\ armed p = false.
Proof.
  intros H. assert (expiring p = None) as He.
  { destruct (expiring p) eqn:E; [|done]. exfalso. eapply H. right; right. exists true. unfold send_timeout. by rewrite E. }
  assert (commands p = []) as Hc.
  { destruct (commands p) eqn:E; [done|]. exfalso. eapply H. left. unfold run_command. by rewrite He, E. }
  split; [done|]. split; [done|]. destruct (armed p) eqn:E; [|done]. exfalso.
  destruct (resp_timer_cb port_index (ctx p)) as [c pkt] eqn:Er.
  eapply H. right; left. unfold expire. by rewrite He, E, Er.
Qed.

(** C7. No exchange keeps a port waiting for ever.  When the calls on a port come one at a time, then in every reachable state, whatever was received, enabled and disabled and whichever posts to the timer and packet queues failed: the timer service on its own comes to an end, within three steps per pending command and three more, and when it has nothing left to do the port is idle. *)
Theorem wait_always_ends port_index p n p' :
  reachable 1 port_index p -> tasks p = [AtRest] -> nsteps (svc_step port_index) n p p' ->
  (n <= 3 * length (commands p) + 3)%nat /\
  ((forall p2, ~ svc_step port_index p' p2) -> state (ctx p') = SNIFF_IDLE).
Proof.
  intros Hr Ht Hn. pose proof (reachable_one_task _ _ Hr) as Hp. split.
  - pose proof (svc_nsteps _ _ _ _ Hn) as H. unfold svc_measure in H. destruct (armed p), (expiring p); lia.
  - intros Hs. destruct (svc_stuck _ _ Hs) as (_ & Hc & Ha).
    destruct (svc_steps_ok _ _ _ _ Hn Hp) as [(t & Et & Hok) E]. rewrite E, Ht in Et. injection Et as <-.
    destruct (state (ctx p')) eqn:Es; [done|]. specialize (Hok Es). unfold will_run in Hok.
    rewrite Hc in Hok. cbn in Hok. congruence.
Qed.

(** The frames of the examples: an FC03 read of one register and its answer. *)
Definition demo_request : list Z := build_fc03_request 0x15 0 1.
Definition demo_response : list Z := append_crc [0x15; 3; 2; 0x49; 0x88].

(** A request taken by task [i], with every post accepted. *)
Definition whole_frame (i : nat) (data : list Z) (now : Z) : list action :=
  [Feed i data now; Advance i true; Advance i true; Advance i true].

Lemma wait_always_ends_witness :
  exists p n p', perform_all 0 (Enable 1 :: whole_frame 0 demo_request 5) (init_port 1) = Some p /\
    state (ctx p) = SNIFF_RES_WAIT /\ nsteps (svc_step 0) n p p' /\ (n <= 6)%nat /\ state (ctx p') = SNIFF_IDLE.
Proof.
  destruct (perform_all 0 (Enable 1 :: whole_frame 0 demo_request 5) (init_port 1)) as [p|] eqn:E; [|vm_compute in E; discriminate].
  assert (reachable 1 0 p) as Hr by (eapply perform_all_reachable; [apply rtc_refl|exact E]).
  destruct (perform_all 0 [RunCommand; Expire; SendTimeout true] p) as [p'|] eqn:E2;
    [|vm_compute in E; injection E as <-; vm_compute in E2; discriminate].
  assert (nsteps (svc_step 0) 3 p p') as Hn.
  { cbn [perform_all perform] in E2. destruct (run_command p) as [p1|] eqn:E3; [|discriminate]. cbn [mbind option_bind] in E2.
    destruct (expire 0 p1) as [p2|] eqn:E4; [|discriminate]. cbn [mbind option_bind] in E2.
    destruct (send_timeout true p2) as [p3|] eqn:E5; [|discriminate]. cbn in E2. injection E2 as <-.
    econstructor; [by left|]. econstructor; [by right; left|]. econstructor; [right; right; by exists true|constructor]. }
  exists p, 3%nat, p'. split; [done|]. vm_compute in E. injection E as <-. split; [done|]. split; [exact Hn|].
  split; [lia|]. apply (wait_always_ends 0 _ 3 p' Hr); [done|exact Hn|].
  vm_compute in E2. injection E2 as <-. intros p2 [H|[H|[ok H]]]; vm_compute in H; discriminate.
Defined.

(** C28. Two callers can lose the timer.  sniffer_process also runs in the task that transmits (serial_send); when the receiving task has ended an exchange but not yet stopped its timer while the transmitting task latches the next request and starts the timer, the late stop disarms it: the port waits, no call is in progress, and the timer service has nothing left that would end the wait. *)
Theorem two_callers_lose_timer :
  exists p, reachable 2 0 p /\ tasks p = [AtRest; AtRest] /\ state (ctx p) = SNIFF_RES_WAIT /\
    forall p', ~ svc_step 0 p p'.
Proof.
  destruct (perform_all 0
    ([Enable 1] ++ whole_frame 1 demo_request 0 ++ [RunCommand; Feed 0 demo_response 1] ++
     whole_frame 1 demo_request 2 ++ [Advance 0 true; Advance 0 true; Advance 0 true; RunCommand; RunCommand])
    (init_port 2)) as [p|] eqn:E; [|vm_compute in E; discriminate].
  exists p. split; [eapply perform_all_reachable; [apply rtc_refl|exact E]|].
  vm_compute in E. injection E as <-. split_and!; [reflexivity..|].
  intros p' [H|[H|[ok H]]]; vm_compute in H; discriminate.
Qed.

(** ** Labels *)

(** A frame whose direction its shape gives away, from a slave with an
    address of its own. *)
Record plain_frame (data : list Z) : Prop := {
  plain_long : 4 <= zlen data;
  plain_crc : crc_check data = true;
  plain_fc : fm_function (byte_at data 1) = false;
  plain_addr : byte_at data 0 <> 0 /\ byte_at data 0 <> 0xFF;
  plain_dir : classify_direction data <> DIRECTION_UNKNOWN
}.

Lemma plain_unstripped data : plain_frame data -> strip_arbitration data = data.
Proof.
  intros [_ _ _ [_ H] _]. unfold strip_arbitration. apply Z.eqb_neq in H. rewrite H. by rewrite orb_true_r.
Qed.

Lemma make_packet_short port_index d data now :
  zlen data <= 272 ->
  make_packet port_index d data data now =
  SniffPacket port_index now (dis_master d) (dcrc_valid d) false (byte_at data 0) (byte_at data 1) data.
Proof.
  intros Hl. unfold make_packet. replace (if from_raw d then data else data) with data by by destruct (from_raw d).
  rewrite take_ge; [done|]. change SNIFFER_MAX_PACKET_LEN with 272%nat. unfold zlen in Hl. lia.
Qed.

(** Whatever the state of the port, such a frame is emitted as it is, as a
    master exactly when it has the shape of a request, and the port waits
    exactly after a request. *)
Lemma plain_labelled port_index data now c :
  plain_frame data -> zlen data <= 272 -> reasons c <> 0 ->
  exists c' d,
    begin_frame port_index data now c =
      Some (c', d, SniffPacket port_index now (bool_decide (classify_direction data = DIRECTION_REQUEST)) true false
                     (byte_at data 0) (byte_at data 1) data) /\
    emit d = true /\ reasons c' = reasons c /\
    state c' = (if bool_decide (classify_direction data = DIRECTION_REQUEST) then SNIFF_RES_WAIT else SNIFF_IDLE) /\
    start_timer d = bool_decide (classify_direction data = DIRECTION_REQUEST).
Proof.
  intros Hp Hl Hr. pose proof (plain_unstripped _ Hp) as Es. destruct Hp as [Hlong Hcrc Hfc [H0 _] Hdir].
  unfold begin_frame. apply Z.eqb_neq in Hr, H0. rewrite Hr.
  assert ((zlen data <? 4) = false) as El by (apply Z.ltb_ge; lia). rewrite El, Es. cbn [orb].
  set (d := sniffer_decide (frame_input data c)). set (r := bool_decide (classify_direction data = DIRECTION_REQUEST)).
  assert (emit d = true /\ dis_master d = r /\ dcrc_valid d = true /\ start_timer d = r /\
          new_state d = if r then SNIFF_RES_WAIT else SNIFF_IDLE) as (He & Hm & Hv & Hst & Hns).
  { assert ((4 <=? zlen data) = true) as El2 by (apply Z.leb_le; lia). unfold d, r, sniffer_decide, frame_input.
    cbn [istate is_fm icrc_valid broadcast dir short_frame isynchronized ilast_was_master matches_pending].
    rewrite Hfc, Hcrc, H0, El, El2. cbn [negb andb]. by destruct (state c), (classify_direction data). }
  exists (apply_decision d data now c), d. rewrite make_packet_short, Hm, Hv by done. by split_and!.
Qed.

(** The requests and responses the injector builds are such frames. *)
Lemma request_plain fc slave a n :
  fc = 3 \/ fc = 4 \/ ((fc = 1 \/ fc = 2) /\ (a / 256) mod 256 <> 3) -> 1 <= slave <= 247 ->
  plain_frame (read_request fc slave a n) /\ classify_direction (read_request fc slave a n) = DIRECTION_REQUEST /\
  byte_at (read_request fc slave a n) 0 = slave /\ byte_at (read_request fc slave a n) 1 = fc.
Proof.
  intros Hfc Hs. assert (zlen (read_request fc slave a n) = 8) as Hl by (unfold zlen; by rewrite read_request_length).
  assert (is_byte fc) as Hb by (unfold is_byte; lia).
  assert (byte_at (read_request fc slave a n) 0 = slave) as E0 by (change (u8 slave = slave); apply u8_small; unfold is_byte; lia).
  assert (byte_at (read_request fc slave a n) 1 = fc) as E1 by done.
  assert (byte_at (read_request fc slave a n) 2 = (a / 256) mod 256) as E2.
  { change (u8 (Z.shiftr a 8) = (a / 256) mod 256). rewrite u8_mod. by rewrite shiftr_8. }
  assert (classify_direction (read_request fc slave a n) = DIRECTION_REQUEST) as Ed.
  { unfold classify_direction. rewrite Hl, E1, E2. destruct Hfc as [->|[->|[[->| ->] H]]]; try reflexivity;
      apply Z.eqb_neq in H; cbn; by rewrite H. }
  split_and!; try done. split; rewrite ?Hl, ?E0, ?E1, ?Ed; try done; try lia.
  - by apply read_request_accepted.
  - unfold fm_function. destruct Hfc as [->|[->|[[->| ->] H]]]; reflexivity.
Qed.

Lemma response_plain fc slave bc f :
  ((fc = 3 \/ fc = 4) /\ bc mod 2 = 0) \/ ((fc = 1 \/ fc = 2) /\ bc <> 3) -> 0 < bc -> 1 <= slave <= 247 ->
  is_response fc slave bc f ->
  plain_frame f /\ classify_direction f = DIRECTION_RESPONSE /\ byte_at f 0 = slave /\ byte_at f 1 = fc.
Proof.
  intros Hfc Hbc Hs Hr. assert (is_byte fc) as Hb by (unfold is_byte; lia).
  destruct (is_response_accepted _ _ _ _ Hb Hr) as (_ & Hl & Hc). destruct Hr as (d & _ & _ & Hbb & ->).
  set (f := append_crc _) in *.
  assert (byte_at f 0 = slave) as E0 by (change (u8 slave = slave); apply u8_small; unfold is_byte; lia).
  assert (byte_at f 1 = fc) as E1 by done. assert (byte_at f 2 = bc) as E2 by done.
  assert (classify_direction f = DIRECTION_RESPONSE) as Ed.
  { unfold classify_direction. rewrite Hl, E1, E2.
    assert ((5 <=? bc + 5) = true) as H5 by (apply Z.leb_le; lia).
    assert ((bc + 5 =? 5 + bc) = true) as Heq by (apply Z.eqb_eq; lia).
    assert ((0 <? bc) = true) as Hpos by (apply Z.ltb_lt; lia).
    assert ((bc + 5 =? 8) = false) as H8.
    { apply Z.eqb_neq. intros H. assert (bc = 3) as -> by lia. destruct Hfc as [[_ H2]|[_ H2]]; [discriminate H2|done]. }
    rewrite H5, Heq, Hpos, H8. destruct Hfc as [[[->| ->] H]|[[->| ->] H]]; cbn; rewrite ?H; reflexivity. }
  split_and!; try done. split; rewrite ?Hl, ?E0, ?E1, ?Ed; try done; try lia.
  unfold fm_function. destruct Hfc as [[[->| ->] H]|[[->| ->] H]]; reflexivity.
Qed.

(** ** The receive path, one call at a time *)

(** What the outside decides during the processing of one frame. *)
Record frame_io := FrameIo { now_us : Z; stop_ok : bool; send_ok : bool; start_ok : bool }.

Fixpoint run_task (flags : list bool) (p : port) : port :=
  match flags with
  | [] => p
  | ok :: flags => match task_step 0 ok p with Some p => run_task flags p | None => p end
  end.

(** [sniffer_process_frame], run to its end. *)
Definition sniffer_process_frame (port_index : Z) (data : list Z) (io : frame_io) (p : port) : port :=
  match feed_frame port_index 0 data (now_us io) p with
  | Some p => run_task [stop_ok io; send_ok io; start_ok io; true] p
  | None => p
  end.

(** Frames dispatched in order, the [k]-th with [io k]. *)
Fixpoint dispatch (port_index : Z) (io : nat -> frame_io) (frames : list (list Z)) (k : nat) (p : port) : nat * port :=
  match frames with
  | [] => (k, p)
  | f :: frames => dispatch port_index io frames (S k) (sniffer_process_frame port_index f (io k) p)
  end.

(** A blob to split: long enough, not 0xFF noise, no frame as a whole. *)
Definition needs_split (effective : list Z) : bool :=
  (8 <? zlen effective) && negb (crc_check effective) && negb (byte_at effective 0 =? 0xFF).

(** The loop of [sniffer_process]; the result names the frames dispatched. *)
Fixpoint sniffer_loop (fuel : nat) (port_index : Z) (io : nat -> frame_io) (cur : list Z) (k : nat) (p : port)
    : option (list (list Z) * (nat * port)) :=
  match fuel with
  | O => None
  | S fuel =>
      let effective := strip_arbitration cur in
      let c := ctx p in
      let frames := stream_split effective (if req_valid c then req_slave c else 0) (if req_valid c then req_fc c else 0) in
      if negb (needs_split effective) || (length frames <=? 1)%nat then Some ([cur], dispatch port_index io [cur] k p)
      else
        match last frames with
        | Some tail =>
            if negb (crc_valid tail) && needs_split (fdata tail) then
              let fs := map fdata (take (length frames - 1) frames) in
              let (k, p) := dispatch port_index io fs k p in
              '(gs, kp) ← sniffer_loop fuel port_index io (fdata tail) k p;
              Some (fs ++ gs, kp)
            else Some (map fdata frames, dispatch port_index io (map fdata frames) k p)
        | None => None
        end
  end.

Definition sniffer_process (port_index : Z) (io : nat -> frame_io) (data : list Z) (p : port)
    : option (list (list Z) * port) :=
  if (reasons (ctx p) =? 0) || (zlen data <? 4) then Some ([], p)
  else '(fs, kp) ← sniffer_loop (S (length data)) port_index io data 0 p; Some (fs, kp.2).

Lemma strip_arbitration_cases data :
  strip_arbitration data = data \/
  (exists n, strip_arbitration data = drop n data) /\ fm_function (byte_at (strip_arbitration data) 1) = true.
Proof.
  unfold strip_arbitration. destruct (_ || _); [by left|]. destruct (_ && _) eqn:E; [|by left]. right.
  apply andb_true_iff in E as [_ E]. eauto.
Qed.

(** The last of several frames is shorter than the buffer, and the rest
    precedes it. *)
Lemma frames_tail fs tail :
  last fs = Some tail -> (2 <= length fs)%nat -> frames_ok fs ->
  concat (map fdata fs) = concat (map fdata (take (length fs - 1) fs)) ++ fdata tail /\
  (0 < length (concat (map fdata (take (length fs - 1) fs))))%nat.
Proof.
  intros Hl Hn Hok. apply last_Some in Hl as [gs ->]. rewrite length_app in *. cbn [length] in *.
  replace (length gs + 1 - 1)%nat with (length gs) by lia. rewrite take_app_length.
  rewrite map_app, concat_app. cbn. rewrite app_nil_r. split; [done|].
  destruct gs as [|g gs]; [cbn in Hn; lia|]. assert (fdata g <> []) as Hne by (by destruct gs; destruct Hok as [[Hne _] _]).
  cbn. rewrite length_app. destruct (fdata g); [done|cbn; lia].
Qed.

Lemma sniffer_loop_covers fuel port_index io cur k p :
  (length cur < fuel)%nat -> 4 <= zlen cur -> zlen cur < 65536 ->
  exists fs kp, sniffer_loop fuel port_index io cur k p = Some (fs, kp) /\
    (concat fs = cur \/ concat fs = strip_arbitration cur) /\ kp.1 = (k + length fs)%nat.
Proof.
  revert cur k p. induction fuel as [|fuel IH]; intros cur k p Hf Hc Hl; [lia|]. cbn [sniffer_loop].
  destruct (negb _ || _) eqn:E.
  { eexists _, _. split; [done|]. cbn. rewrite app_nil_r. split; [by left|lia]. }
  apply orb_false_iff in E as [En Eone]. apply negb_false_iff in En. bool_to_prop.
  set (eff := strip_arbitration cur) in *. set (frames := stream_split eff _ _) in *.
  assert (eff <> [] /\ zlen eff < 65536 /\ (length eff <= length cur)%nat) as (Hne & Hel & Hle).
  { unfold needs_split in En. rewrite !andb_true_iff in En. destruct En as [[En _] _]. bool_to_prop.
    split; [intros H; rewrite H in En; unfold zlen in En; cbn in En; lia|].
    assert (length eff <= length cur)%nat; [|unfold zlen in *; split; lia].
    unfold eff. destruct (strip_arbitration_cases cur) as [->|[[n ->] _]]; [lia|]. rewrite length_drop. lia. }
  destruct (stream_split_covers eff (if req_valid (ctx p) then req_slave (ctx p) else 0)
              (if req_valid (ctx p) then req_fc (ctx p) else 0) Hne Hel) as (Hcov & _ & Hok). fold frames in Hcov, Hok.
  assert (forall fs k p, (dispatch port_index io fs k p).1 = (k + length fs)%nat) as Hd.
  { clear. induction fs as [|f fs IH]; intros k p; cbn; [lia|]. rewrite IH. lia. }
  destruct (last frames) as [tail|] eqn:El; [|apply last_None in El; rewrite El in Eone; cbn in Eone; lia].
  destruct (negb (crc_valid tail) && needs_split (fdata tail)) eqn:Et.
  - apply andb_true_iff in Et as [_ Et]. destruct (frames_tail _ _ El ltac:(lia) Hok) as [Hcat Hpos].
    specialize (Hd (map fdata (take (length frames - 1) frames)) k p).
    destruct (dispatch _ _ _ k p) as [k1 p1]. cbn in Hd.
    pose proof (f_equal length (eq_trans (eq_sym Hcat) Hcov)) as Hlen. rewrite length_app in Hlen.
    unfold needs_split in Et. rewrite !andb_true_iff in Et. destruct Et as [[E8 _] Eff]. bool_to_prop.
    destruct (IH (fdata tail) k1 p1) as (gs & kp & -> & Hgs & Hkp); [unfold zlen in *; lia..|].
    eexists _, _. split; [done|]. split; [|rewrite Hkp, length_app; lia].
    right. rewrite concat_app. destruct Hgs as [-> | ->]; [by rewrite <- Hcat|].
    assert (strip_arbitration (fdata tail) = fdata tail) as ->; [|by rewrite <- Hcat].
    unfold strip_arbitration. apply Z.eqb_neq in Eff. rewrite Eff. by rewrite orb_true_r.
  - eexists _, _. split; [done|]. split; [by right|]. apply Hd.
Qed.

(** Nothing of a received buffer is lost before the state machine: sniffer_process ends for every buffer, and the frames it hands to sniffer_process_frame, put together, are the buffer itself or the buffer without the arbitration bytes in front of a Fast Modbus frame. *)
Theorem process_covers port_index io data p :
  reasons (ctx p) <> 0 -> 4 <= zlen data -> zlen data < 65536 ->
  exists fs p', sniffer_process port_index io data p = Some (fs, p') /\
    (concat fs = data \/ concat fs = strip_arbitration data).
Proof.
  intros Hr Hl Hu. unfold sniffer_process. apply Z.eqb_neq in Hr. rewrite Hr.
  assert ((zlen data <? 4) = false) as -> by (apply Z.ltb_ge; lia). cbn [orb].
  destruct (sniffer_loop_covers (S (length data)) port_index io data 0 p) as (fs & kp & -> & Hc & _); [lia..|].
  by eexists _, _.
Qed.

Definition easy_io (k : nat) : frame_io := FrameIo (Z.of_nat k) true true true.

Lemma process_covers_witness :
  let p := set_ctx (sniffer_enable 1 init_ctx) (init_port 1) in
  let noise := [0x15; 3; 0; 0; 0; 1; 2; 3; 4; 5; 6; 7] in
  exists fs p', sniffer_process 0 easy_io (demo_request ++ demo_response ++ noise) p = Some (fs, p') /\
    length fs = 3%nat /\ concat fs = demo_request ++ demo_response ++ noise.
Proof.
  intros p noise. destruct (process_covers 0 easy_io (demo_request ++ demo_response ++ noise) p) as (fs & p' & E & H);
    [discriminate|vm_compute; discriminate|vm_compute; reflexivity|].
  assert (length fs = 3%nat) as Hl.
  { assert (option_map (fun x => length x.1) (sniffer_process 0 easy_io (demo_request ++ demo_response ++ noise) p)
            = Some 3%nat) as E2 by (vm_compute; reflexivity).
    rewrite E in E2. by injection E2. }
  exists fs, p'. split; [done|]. split; [done|].
  replace (strip_arbitration (demo_request ++ demo_response ++ noise)) with (demo_request ++ demo_response ++ noise) in H
    by (vm_compute; reflexivity). by destruct H.
Defined.

Lemma map_fmap_frames fs : map fdata ((fun f => StreamFrame f true) <$> fs) = fs.
Proof. induction fs as [|f fs IH]; [done|]. cbn. by rewrite IH. Qed.

(** C25. A gap-less buffer that sniffer_process takes apart is processed as its frames would be one at a time.  The buffer is two to fifteen frames whose boundaries the length table finds (the hint of a pending request not saying otherwise), more than 8 and less than 65536 bytes together, with no valid CRC as a whole and no 0xFF as first byte, on a port that is sniffed: sniffer_process dispatches exactly these frames, in order, with the effect of separate calls.  Buffers of up to 8 bytes (two frames of four, say), with a valid CRC as a whole or with arbitration bytes are not taken apart and outside the statement. *)
Theorem merged_as_separate port_index io fs p :
  (2 <= length fs <= 15)%nat -> sized fs ->
  hint_agrees (req_valid (ctx p) && negb (req_fc (ctx p) =? 0)) fs ->
  crc_check (concat fs) = false -> byte_at (concat fs) 0 <> 0xFF -> 8 < zlen (concat fs) < 65536 ->
  reasons (ctx p) <> 0 ->
  sniffer_process port_index io (concat fs) p = Some (fs, (dispatch port_index io fs 0 p).2).
Proof.
  intros [Hn Hm] Hs Hh Hc Hff Hl Hr. unfold sniffer_process. apply Z.eqb_neq in Hr, Hff. rewrite Hr.
  assert ((zlen (concat fs) <? 4) = false) as -> by (apply Z.ltb_ge; lia). cbn [orb sniffer_loop].
  assert (strip_arbitration (concat fs) = concat fs) as ->.
  { unfold strip_arbitration. rewrite Hff. by rewrite orb_true_r. }
  assert (needs_split (concat fs) = true) as ->.
  { unfold needs_split. rewrite Hc, Hff. assert ((8 <? zlen (concat fs)) = true) as -> by (apply Z.ltb_lt; lia). done. }
  assert (fs <> []) as Hne by (intros ->; cbn in Hn; lia).
  rewrite split_roundtrip; [|done|done|done| |lia].
  2: { destruct (req_valid (ctx p)); [done|]. by intros [=]. }
  rewrite length_fmap. assert ((length fs <=? 1)%nat = false) as -> by (apply Nat.leb_gt; lia). cbn [negb orb].
  destruct (exists_last Hne) as (gs & g & ->).
  rewrite fmap_app, last_app. cbn [fmap list_fmap last crc_valid negb andb from_option].
  rewrite map_app, map_fmap_frames. cbn. by destruct (dispatch port_index io (gs ++ [g]) 0 p).
Qed.

Lemma merged_as_separate_witness :
  let p := set_ctx (sniffer_enable 1 init_ctx) (init_port 1) in
  sniffer_process 0 easy_io (concat [demo_request; demo_response; demo_request]) p =
  Some ([demo_request; demo_response; demo_request], (dispatch 0 easy_io [demo_request; demo_response; demo_request] 0 p).2).
Proof.
  intros p. apply merged_as_separate; [cbn; lia| |by intros [=]|vm_compute; reflexivity|vm_compute; discriminate| |discriminate].
  - cbn [sized concat]. split_and!; try (vm_compute; (reflexivity || discriminate)).
    + left. vm_compute. reflexivity.
    + right. split; vm_compute; reflexivity.
    + left. vm_compute. reflexivity.
  - split; vm_compute; reflexivity.
Defined.

(** ** What a run of frames puts in the queue *)

(** The packet of a plain frame received at [now]. *)
Definition packet_of (port_index : Z) (f : list Z) (now : Z) : sniff_packet_t :=
  SniffPacket port_index now (bool_decide (classify_direction f = DIRECTION_REQUEST)) true false
    (byte_at f 0) (byte_at f 1) f.

(** The packets of plain frames for which the queue had room. *)
Fixpoint packets_of (port_index : Z) (io : nat -> frame_io) (k : nat) (fs : list (list Z)) : list sniff_packet_t :=
  match fs with
  | [] => []
  | f :: fs =>
      (if send_ok (io k) then [packet_of port_index f (now_us (io k))] else []) ++ packets_of port_index io (S k) fs
  end.

(** Whether the port waits for a response once the call has returned: the
    frame was a request, it was queued and the timer could be started. *)
Definition waiting (f : list Z) (io : frame_io) : sniff_state_t :=
  if bool_decide (classify_direction f = DIRECTION_REQUEST) && send_ok io && start_ok io then SNIFF_RES_WAIT else SNIFF_IDLE.

Lemma sniffer_any port_index f io p :
  plain_frame f -> zlen f <= 272 -> tasks p = [AtRest] -> reasons (ctx p) <> 0 ->
  let p' := sniffer_process_frame port_index f io p in
  tasks p' = [AtRest] /\ reasons (ctx p') = reasons (ctx p) /\
  sniff_queue p' = sniff_queue p ++ (if send_ok io then [packet_of port_index f (now_us io)] else []) /\
  state (ctx p') = waiting f io.
Proof.
  intros Hf Hl Ht Hr. cbn zeta. unfold sniffer_process_frame, feed_frame, waiting. rewrite Ht. cbn [lookup list_lookup].
  destruct (plain_labelled port_index f (now_us io) (ctx p) Hf Hl Hr) as (c & d & -> & He & Hrc & Hs & Hst).
  fold (packet_of port_index f (now_us io)). destruct p as [c0 ar cm q ex ts]. cbn [tasks] in Ht. subst ts.
  destruct d as [em ma cv fr lr ns st sp]. cbn [emit start_timer] in He, Hst. subst em st.
  generalize dependent (bool_decide (classify_direction f = DIRECTION_REQUEST)). intros r Hs. destruct io as [t stop send start].
  destruct sp, r, send, start; cbn; rewrite ?app_nil_r; split_and!; done.
Qed.

Lemma sniffer_plain port_index f io p :
  plain_frame f -> zlen f <= 272 -> tasks p = [AtRest] -> reasons (ctx p) <> 0 ->
  send_ok io = true -> start_ok io = true ->
  let p' := sniffer_process_frame port_index f io p in
  tasks p' = [AtRest] /\ reasons (ctx p') = reasons (ctx p) /\
  sniff_queue p' = sniff_queue p ++ [packet_of port_index f (now_us io)] /\
  state (ctx p') = (if bool_decide (classify_direction f = DIRECTION_REQUEST) then SNIFF_RES_WAIT else SNIFF_IDLE).
Proof.
  intros Hf Hl Ht Hr Hsend Hstart. destruct (sniffer_any port_index f io p Hf Hl Ht Hr) as (H1 & H2 & H3 & H4).
  unfold waiting in H4. rewrite Hsend, Hstart in *. by rewrite !andb_true_r in H4.
Qed.

(** C26. Frames are shown as what they are.  Whatever exchange a port believes it is in, of a run of plain frames (unicast, valid CRC, at most 272 bytes, of a shape that gives its direction away) on a sniffed port, received one call at a time, exactly those the queue had room for are queued, in order, each with its bytes and labelled by its own shape whatever happened to the others; and after the run the port waits exactly when its last frame was a request that was queued and whose timer could be started. *)
Theorem frames_labelled port_index io fs k p :
  Forall plain_frame fs -> Forall (fun f => zlen f <= 272) fs -> tasks p = [AtRest] -> reasons (ctx p) <> 0 ->
  let p' := (dispatch port_index io fs k p).2 in
  sniff_queue p' = sniff_queue p ++ packets_of port_index io k fs /\
  (forall gs f, fs = gs ++ [f] -> state (ctx p') = waiting f (io (k + length gs)%nat)).
Proof.
  intros Hp Hl Ht Hr. cbn zeta. revert k p Ht Hr. induction fs as [|f fs IH]; intros k p Ht Hr.
  { cbn. rewrite app_nil_r. split; [done|]. by intros [|g gs] f. }
  apply Forall_cons in Hp as [Hf Hp]. apply Forall_cons in Hl as [Hlf Hl].
  destruct (sniffer_any port_index f (io k) p Hf Hlf Ht Hr) as (Ht' & Hr' & Hq & Hs).
  cbn [dispatch packets_of]. set (p1 := sniffer_process_frame port_index f (io k) p) in *.
  destruct (IH Hp Hl (S k) p1) as [Hq2 Hs2]; [done|congruence|]. rewrite Hq2, Hq, <- app_assoc. split; [done|].
  intros [|g gs] f2 E; injection E as -> E; [subst fs; cbn [dispatch length snd]; by rewrite Nat.add_0_r|].
  rewrite (Hs2 gs f2 E). cbn [length]. by rewrite Nat.add_succ_r.
Qed.

(** The queue has no room for the second frame. *)
Definition full_once (k : nat) : frame_io := FrameIo (Z.of_nat k) true (negb (k =? 1)%nat) true.

Lemma frames_labelled_witness :
  let p := set_ctx (sniffer_enable 1 init_ctx) (init_port 1) in
  let p' := (dispatch 0 full_once [demo_response; demo_request; demo_request] 0 p).2 in
  sniff_queue p' = [packet_of 0 demo_response 0; packet_of 0 demo_request 2] /\ state (ctx p') = SNIFF_RES_WAIT.
Proof.
  intros p p'.
  assert (plain_frame demo_request) as Hq
    by (split; [vm_compute; discriminate|vm_compute; reflexivity|vm_compute; reflexivity|split; vm_compute; discriminate|vm_compute; discriminate]).
  assert (plain_frame demo_response) as Hs
    by (split; [vm_compute; discriminate|vm_compute; reflexivity|vm_compute; reflexivity|split; vm_compute; discriminate|vm_compute; discriminate]).
  destruct (frames_labelled 0 full_once [demo_response; demo_request; demo_request] 0 p) as [H1 H2].
  - exact (Forall_cons_2 _ _ _ Hs (Forall_cons_2 _ _ _ Hq (Forall_cons_2 _ _ _ Hq (Forall_nil_2 _)))).
  - rewrite !Forall_cons. split_and!; [vm_compute; discriminate..|constructor].
  - reflexivity.
  - discriminate.
  - split; [exact H1|]. subst p'. rewrite (H2 [demo_response; demo_request] demo_request eq_refl). vm_compute. reflexivity.
Defined.
