(* ===== verification/JsonText.v ===== *)
(** * JSON texts: json.loads

    The parser of Python's [json] for the texts the firmware sends: objects,
    lists, strings, integers and the literals.  A number with a fraction or
    an exponent (or NaN, Infinity) is a [float] and a [\u] escape a character
    outside the byte strings used here; neither is a value of [json], and the
    parser gives [Blocked] for them.  Theorem: a flat object printed without
    blanks is read back. *)

From Stdlib Require Import ZArith Lia String Ascii.
From stdpp Require Import base list strings.
From S2P Require Import Prelude PyBytes PyStr QemuPorts ApiClient MbDevice.

Open Scope Z_scope.

Definition DQ : ascii := "034"%char.

(** The text with every apostrophe read as a double quote. *)
Definition with_quotes (text : string) : string :=
  string_of_list_ascii (map (fun c => if Ascii.eqb c "'"%char then DQ else c) (list_ascii_of_string text)).
Definition BACKSLASH : ascii := "092"%char.

Definition json_blank (c : ascii) : bool :=
  let n := nat_of_ascii c in ((n =? 32) || (n =? 9) || (n =? 10) || (n =? 13))%nat.
Definition skip_blank (s : string) : string := lstrip_by json_blank s.

Definition malformed {A} : outcome A := Raise JSONDecodeError.

(** The character after a backslash. *)
Definition unescape (c : ascii) : outcome ascii :=
  if Ascii.eqb c DQ || Ascii.eqb c BACKSLASH || Ascii.eqb c "/" then Ok c
  else if Ascii.eqb c "b" then Ok "008"%char
  else if Ascii.eqb c "f" then Ok "012"%char
  else if Ascii.eqb c "n" then Ok "010"%char
  else if Ascii.eqb c "r" then Ok "013"%char
  else if Ascii.eqb c "t" then Ok "009"%char
  else if Ascii.eqb c "u" then Blocked
  else malformed.

(** A string after its opening quote: its characters and what follows. *)
Fixpoint json_string (s : string) : outcome (string * string) :=
  match s with
  | EmptyString => malformed
  | String c s =>
      if Ascii.eqb c DQ then Ok (""%string, s)
      else if Ascii.eqb c BACKSLASH then
        match s with
        | EmptyString => malformed
        | String e s => let? x := unescape e in let? (t, rest) := json_string s in Ok (String x t, rest)
        end
      else if (nat_of_ascii c <? 32)%nat then malformed
      else let? (t, rest) := json_string s in Ok (String c t, rest)
  end.

(** What follows the digits of a [float]. *)
Definition float_tail (s : string) : bool :=
  match s with
  | String c s1 =>
      if Ascii.eqb c "." then starts_with_digit s1
      else if Ascii.eqb c "e" || Ascii.eqb c "E" then
        match s1 with
        | String d s2 => is_digit d || ((Ascii.eqb d "+" || Ascii.eqb d "-") && starts_with_digit s2)
        | EmptyString => false
        end
      else false
  | EmptyString => false
  end.

(** An unsigned number: no leading zeros. *)
Definition json_number (s : string) : outcome (Z * string) :=
  match s with
  | String c s1 =>
      if negb (is_digit c) then malformed
      else
        let (v, rest) := if Ascii.eqb c "0" then (0, s1) else c_digits 0 s in
        if float_tail rest then Blocked else Ok (v, rest)
  | EmptyString => malformed
  end.

Definition literal (s : string) : outcome (json * string) :=
  if startswith "null" s then Ok (JNull, sdrop 4 s)
  else if startswith "true" s then Ok (JBool true, sdrop 4 s)
  else if startswith "false" s then Ok (JBool false, sdrop 5 s)
  else if startswith "NaN" s || startswith "Infinity" s || startswith "-Infinity" s then Blocked
  else malformed.

(** A value, and the members of an object and the items of a list after the
    first delimiter; [fuel] bounds the values nested or in a row. *)
Fixpoint json_value (fuel : nat) (s : string) : outcome (json * string) :=
  match fuel with
  | O => Blocked
  | S fuel =>
      match s with
      | EmptyString => malformed
      | String c s1 =>
          if Ascii.eqb c DQ then let? (t, rest) := json_string s1 in Ok (JStr t, rest)
          else if Ascii.eqb c "{" then
            match skip_blank s1 with
            | String d s2 => if Ascii.eqb d "}" then Ok (JObj [], s2) else json_members fuel [] (String d s2)
            | EmptyString => malformed
            end
          else if Ascii.eqb c "[" then
            match skip_blank s1 with
            | String d s2 => if Ascii.eqb d "]" then Ok (JList [], s2) else json_items fuel [] (String d s2)
            | EmptyString => malformed
            end
          else if is_digit c then let? (n, rest) := json_number s in Ok (JNum n, rest)
          else if Ascii.eqb c "-" && starts_with_digit s1 then
            let? (n, rest) := json_number s1 in Ok (JNum (- n), rest)
          else literal s
      end
  end
with json_members (fuel : nat) (done : list (string * json)) (s : string) : outcome (json * string) :=
  match fuel with
  | O => Blocked
  | S fuel =>
      match s with
      | String c s =>
          if negb (Ascii.eqb c DQ) then malformed
          else
            let? (k, s) := json_string s in
            match skip_blank s with
            | String c s =>
                if negb (Ascii.eqb c ":") then malformed
                else
                  let? (v, s) := json_value fuel (skip_blank s) in
                  let done := jset k v done in
                  match skip_blank s with
                  | String c s =>
                      if Ascii.eqb c "}" then Ok (JObj done, s)
                      else if Ascii.eqb c "," then json_members fuel done (skip_blank s)
                      else malformed
                  | EmptyString => malformed
                  end
            | EmptyString => malformed
            end
      | EmptyString => malformed
      end
  end
with json_items (fuel : nat) (done : list json) (s : string) : outcome (json * string) :=
  match fuel with
  | O => Blocked
  | S fuel =>
      let? (v, s) := json_value fuel s in
      match skip_blank s with
      | String c s =>
          if Ascii.eqb c "]" then Ok (JList (done ++ [v]), s)
          else if Ascii.eqb c "," then json_items fuel (done ++ [v]) (skip_blank s)
          else malformed
      | EmptyString => malformed
      end
  end.

(** [json.loads(s)]: one value and nothing else. *)
Definition loads (s : string) : outcome json :=
  let? (v, rest) := json_value (S (String.length s)) (skip_blank s) in
  if String.eqb (skip_blank rest) "" then Ok v else malformed.

(** ** Printed objects *)

Definition quoted (s : string) : string := String DQ (s +:+ String DQ "").

(** The values of a flat object, printed. *)
Definition print_scalar (v : json) : string :=
  match v with
  | JNum n => show_Z n
  | JStr s => quoted s
  | JBool b => if b then "true" else "false"
  | _ => "null"
  end.

Definition print_member (kv : string * json) : string := quoted kv.1 +:+ ":" +:+ print_scalar kv.2.

Fixpoint print_members (fields : list (string * json)) : string :=
  match fields with
  | [] => "}"
  | [kv] => print_member kv +:+ "}"
  | kv :: fields => print_member kv +:+ "," +:+ print_members fields
  end.

Definition print_object (fields : list (string * json)) : string := "{" +:+ print_members fields.

(** Texts that need no escape. *)
Definition clean_char (c : ascii) : bool :=
  negb (Ascii.eqb c DQ) && negb (Ascii.eqb c BACKSLASH) && (32 <=? nat_of_ascii c)%nat.
Definition clean (s : string) : bool := all_chars clean_char s.

Definition flat_value (v : json) : Prop :=
  match v with JNum n => 0 <= n | JStr s => clean s = true | JBool _ => True | _ => False end.

Lemma json_string_clean s rest : clean s = true -> json_string (s +:+ String DQ rest) = Ok (s, rest).
Proof.
  induction s as [|c s IH]; [done|]. unfold clean. cbn [all_chars]. rewrite andb_true_iff. intros [Hc Hs].
  rewrite sapp_cons. unfold clean_char in Hc. rewrite !andb_true_iff, !negb_true_iff in Hc. destruct Hc as [[H1 H2] H3].
  cbn [json_string]. rewrite H1, H2. apply Nat.leb_le in H3.
  assert ((nat_of_ascii c <? 32)%nat = false) as -> by (apply Nat.ltb_ge; lia). by rewrite IH.
Qed.

(** The first digit of a positive number is not zero. *)
Lemma show_digits_head fuel n tail :
  0 < n < 2 ^ Z.of_nat fuel -> exists d s, show_digits fuel n tail = String (digit_char d) s /\ 0 < d < 10.
Proof.
  revert n tail. induction fuel as [|fuel IH]; intros n tail Hn; [change (2 ^ Z.of_nat 0) with 1 in Hn; lia|].
  cbn [show_digits]. destruct (n <? 10) eqn:E; bool_to_prop; [eexists _, _; split; [done|lia]|].
  apply IH. rewrite Nat2Z.inj_succ, Z.pow_succ_r in Hn by lia. split; [apply Z.div_str_pos; lia|].
  apply Z.div_lt_upper_bound; lia.
Qed.

Lemma digit_char_zero d : 0 < d < 10 -> Ascii.eqb (digit_char d) "0" = false.
Proof.
  intros Hd. assert (d = 1 \/ d = 2 \/ d = 3 \/ d = 4 \/ d = 5 \/ d = 6 \/ d = 7 \/ d = 8 \/ d = 9) as H by lia.
  destruct H as [->|[->|[->|[->|[->|[->|[->|[->| ->]]]]]]]]; reflexivity.
Qed.

Lemma c_digits_before acc s rest :
  all_chars is_digit s = true -> starts_with_digit rest = false -> c_digits acc (s +:+ rest) = ((c_digits acc s).1, rest).
Proof.
  intros Hs Hr. revert acc Hs. induction s as [|c s IH]; intros acc; cbn [all_chars].
  - intros _. rewrite sapp_nil. destruct rest as [|c rest]; [done|]. cbn [c_digits]. cbn in Hr. unfold is_digit in Hr.
    apply bool_decide_eq_false in Hr. destruct (digit_val c); [|done]. exfalso. apply Hr. eauto.
  - rewrite andb_true_iff. intros [Hc Hs]. rewrite sapp_cons. cbn [c_digits].
    unfold is_digit in Hc. apply bool_decide_eq_true in Hc as [d ->]. by apply IH.
Qed.

(** What may follow a number. *)
Definition ends_number (s : string) : bool :=
  match s with String c _ => Ascii.eqb c "," || Ascii.eqb c "}" || Ascii.eqb c "]" | EmptyString => true end.

Lemma ends_number_spec s : ends_number s = true -> starts_with_digit s = false /\ float_tail s = false.
Proof.
  destruct s as [|c s]; [done|]. cbn [ends_number]. rewrite !orb_true_iff. intros [[H|H]|H]; apply Ascii.eqb_eq in H; by subst c.
Qed.

Lemma json_number_show n rest : 0 <= n -> ends_number rest = true -> json_number (show_Z n +:+ rest) = Ok (n, rest).
Proof.
  intros Hn Hr. destruct (ends_number_spec _ Hr) as [Hd Hf].
  assert (c_digits 0 (show_Z n +:+ rest) = (n, rest)) as Hc.
  { rewrite c_digits_before; [|by apply show_Z_nonneg_digits|done]. by rewrite c_digits_show. }
  destruct (decide (n = 0)) as [->|Hne].
  { change (show_Z 0) with "0"%string. rewrite sapp_cons, sapp_nil. cbn. by rewrite Hf. }
  unfold show_Z in *. destruct (n <? 0) eqn:E; bool_to_prop; [lia|]. unfold show_nonneg in *.
  destruct (show_digits_head (S (Z.to_nat (Z.log2 n))) n "") as (d & s & Es & Hdd).
  { rewrite Nat2Z.inj_succ, Z2Nat.id by apply Z.log2_nonneg. split; [lia|]. apply Z.log2_spec. lia. }
  rewrite Es in *. rewrite sapp_cons in *. unfold json_number. unfold is_digit.
  rewrite digit_val_char, digit_char_zero by lia. rewrite bool_decide_true by eauto. cbn [negb].
  rewrite Hc. by rewrite Hf.
Qed.

Lemma show_Z_head n rest : 0 <= n -> exists c s, show_Z n +:+ rest = String c s /\ is_digit c = true.
Proof.
  intros Hn. pose proof (show_Z_nonneg_digits n Hn) as Hd. destruct (show_Z n) as [|c s] eqn:E; [by apply show_Z_nonempty in E|].
  cbn [all_chars] in Hd. apply andb_true_iff in Hd as [Hd _]. rewrite sapp_cons. eauto.
Qed.

Lemma is_digit_not c d : is_digit c = true -> is_digit d = false -> Ascii.eqb c d = false.
Proof. intros Hc Hd. apply Ascii.eqb_neq. intros ->. congruence. Qed.

Lemma json_value_scalar fuel v rest :
  flat_value v -> ends_number rest = true -> json_value (S fuel) (print_scalar v +:+ rest) = Ok (v, rest).
Proof.
  intros Hv Hr. destruct v as [|b|n|s| |]; try done; cbn [flat_value print_scalar] in *.
  - destruct b; [change (literal ("true" +:+ rest) = Ok (JBool true, rest))|change (literal ("false" +:+ rest) = Ok (JBool false, rest))];
      unfold literal; [change (startswith "null" ("true" +:+ rest)) with false|
        change (startswith "null" ("false" +:+ rest)) with false; change (startswith "true" ("false" +:+ rest)) with false];
      by rewrite startswith_app.
  - destruct (show_Z_head n rest Hv) as (c & s & E & Hc). cbn [json_value]. rewrite E.
    rewrite !(is_digit_not c) by (done || reflexivity). rewrite Hc. rewrite <- E. by rewrite json_number_show.
  - unfold quoted. rewrite sapp_cons, sapp_assoc, sapp_cons, sapp_nil. cbn [json_value].
    change (Ascii.eqb DQ DQ) with true. cbn match. by rewrite json_string_clean.
Qed.

Lemma scalar_head v rest : flat_value v -> skip_blank (print_scalar v +:+ rest) = print_scalar v +:+ rest.
Proof.
  intros Hv. destruct v as [|b|n|s| |]; try done; cbn [flat_value print_scalar] in *.
  - by destruct b.
  - destruct (show_Z_head n rest Hv) as (c & s & -> & Hc). unfold skip_blank. cbn [lstrip_by].
    assert (json_blank c = false) as ->; [|done]. destruct (json_blank c) eqn:E; [|done]. exfalso.
    destruct c as [[] [] [] [] [] [] [] []]; vm_compute in E; vm_compute in Hc; congruence.
Qed.

Lemma jset_fresh k v fields : k ∉ fields.*1 -> jset k v fields = fields ++ [(k, v)].
Proof. intros H. unfold jset. by rewrite bool_decide_false. Qed.

Lemma json_members_flat fuel acc fields rest :
  fields <> [] -> (length fields < fuel)%nat ->
  Forall (fun kv => clean kv.1 = true /\ flat_value kv.2) fields -> NoDup (acc.*1 ++ fields.*1) ->
  json_members fuel acc (print_members fields +:+ rest) = Ok (JObj (acc ++ fields), rest).
Proof.
  revert fuel acc. induction fields as [|[k v] fields IH]; intros fuel acc Hne Hf Hall Hnd; [done|].
  apply Forall_cons in Hall as [[Hk Hv] Hall]. cbn [fst snd] in Hk, Hv.
  destruct fuel as [|[|fuel]]; [cbn in Hf; lia..|].
  assert (k ∉ acc.*1) as Hfresh.
  { intros Hin. apply NoDup_app in Hnd as (_ & Hnd & _). apply (Hnd k Hin). cbn. left. }
  assert (forall tail, json_members (S (S fuel)) acc ((print_member (k, v) +:+ tail) +:+ rest) =
    match skip_blank (tail +:+ rest) with
    | String c s =>
        if Ascii.eqb c "}" then Ok (JObj (acc ++ [(k, v)]), s)
        else if Ascii.eqb c "," then json_members (S fuel) (acc ++ [(k, v)]) (skip_blank s)
        else malformed
    | EmptyString => malformed
    end \/ ends_number (tail +:+ rest) = false) as Hone.
  { intros tail. destruct (ends_number (tail +:+ rest)) eqn:Et; [left|by right].
    unfold print_member, quoted. cbn [fst snd]. rewrite !sapp_cons, !sapp_assoc, !sapp_cons, !sapp_nil. cbn [json_members].
    change (Ascii.eqb DQ DQ) with true. cbn [negb]. rewrite json_string_clean by done. cbn [obind].
    change (skip_blank (String ":" (print_scalar v +:+ tail +:+ rest))) with (String ":" (print_scalar v +:+ tail +:+ rest)).
    change (Ascii.eqb ":" ":") with true. cbn [negb]. rewrite scalar_head by done.
    rewrite json_value_scalar by done. cbn [obind]. by rewrite jset_fresh. }
  destruct fields as [|kv fields].
  - cbn [print_members]. destruct (Hone "}"%string) as [->|[=]]. done.
  - change (print_members ((k, v) :: kv :: fields)) with (print_member (k, v) +:+ "," +:+ print_members (kv :: fields)).
    destruct (Hone ("," +:+ print_members (kv :: fields))%string) as [->|[=]].
    rewrite sapp_assoc, sapp_cons, sapp_nil. change (skip_blank (String "," ?s)) with (String "," s).
    change (Ascii.eqb "," "}") with false. change (Ascii.eqb "," ",") with true. cbn match.
    assert (skip_blank (print_members (kv :: fields) +:+ rest) = print_members (kv :: fields) +:+ rest) as ->.
    { destruct fields; reflexivity. }
    rewrite IH; [by rewrite <- app_assoc|done|cbn in *; lia|done|].
    rewrite fmap_app, <- app_assoc. exact Hnd.
Qed.

(** A flat object with distinct keys is read back from its text. *)
Lemma loads_print fields :
  fields <> [] -> Forall (fun kv => clean kv.1 = true /\ flat_value kv.2) fields -> NoDup fields.*1 ->
  loads (print_object fields) = Ok (JObj fields).
Proof.
  intros Hne Hall Hnd. unfold loads, print_object. rewrite sapp_cons, sapp_nil.
  change (skip_blank (String "{" ?s)) with (String "{" s).
  assert (length fields <= String.length (print_members fields))%nat as Hl.
  { clear. induction fields as [|kv fields IH]; [cbn; lia|]. destruct fields as [|kv2 fields].
    - cbn [print_members]. rewrite sapp_length. cbn. lia.
    - change (print_members (kv :: kv2 :: fields)) with (print_member kv +:+ "," +:+ print_members (kv2 :: fields)).
      rewrite !sapp_length. cbn [length String.length] in *. lia. }
  cbn [String.length]. revert Hl. generalize (String.length (print_members fields)). intros n Hl.
  cbn [json_value]. change (Ascii.eqb "{" DQ) with false. change (Ascii.eqb "{" "{") with true. cbn match.
  destruct fields as [|kv fields]; [done|].
  assert (exists s, print_members (kv :: fields) = String DQ s) as [s Es] by (destruct fields; eexists; reflexivity).
  rewrite Es. change (skip_blank (String DQ s)) with (String DQ s). change (Ascii.eqb DQ "}") with false. cbn match.
  replace (String DQ s) with (print_members (kv :: fields) +:+ "") by (rewrite Es; apply sapp_nil_r).
  rewrite json_members_flat; [done|done|lia|done|done].
Qed.
