(* ===== verification/SnifferWire.v ===== *)
(** * From the queue to the WebSocket: format_packet_json and
    sniffer_ws_dispatch (bridge/sniffer.c)

    Theorem: the text of a packet fits its buffer and [json.loads] reads
    every field of the packet back from it. *)

From Stdlib Require Import ZArith Lia String Ascii.
From stdpp Require Import base list strings.
From S2P Require Import Prelude PyBytes PyStr QemuPorts ApiClient MbDevice ModbusCrc RtuFrames StreamSplitter Sniffer JsonText.

Open Scope Z_scope.

Definition port_index_to_name (index : Z) : Z := index + 1.
Definition port_name_to_index (name : Z) : Z :=
  if (name <? 1) || (BRIDGES_COUNT <? name) then BRIDGES_COUNT else name - 1.

(** [hx[n]] *)
Definition hx (n : Z) : ascii := ascii_of_nat (Z.to_nat (if n <? 10 then 48 + n else 55 + n)).

(** The loop over the bytes at output position [pos]. *)
Fixpoint hex_loop (data : list Z) (pos out_size : nat) : string :=
  match data with
  | [] => ""
  | b :: data =>
      if (pos + 2 <? out_size)%nat
      then String (hx (Z.shiftr b 4)) (String (hx (Z.land b 0x0F)) (hex_loop data (pos + 2) out_size))
      else ""
  end.

Definition bytes_to_hex (data : list Z) (out_size : nat) : string := hex_loop data 0 out_size.

(** [snprintf] into the buffer of the task. *)
Definition format_packet_json (id : Z) (pkt : sniff_packet_t) : string :=
  let hex_str := bytes_to_hex (pdata pkt) (SNIFFER_MAX_PACKET_LEN * 2 + 1) in
  stake (SNIFFER_JSON_BUF_SIZE - 1)
    ("{" +:+ quoted "type" +:+ ":" +:+ quoted "packet"
     +:+ "," +:+ quoted "id" +:+ ":" +:+ show_Z id
     +:+ "," +:+ quoted "port" +:+ ":" +:+ show_Z (port_index_to_name (pport pkt))
     +:+ "," +:+ quoted "timestamp_us" +:+ ":" +:+ show_Z (timestamp_us pkt)
     +:+ "," +:+ quoted "sender" +:+ ":" +:+ quoted (if is_master pkt then "master" else "slave")
     +:+ "," +:+ quoted "slave_id" +:+ ":" +:+ show_Z (pslave_id pkt)
     +:+ "," +:+ quoted "function" +:+ ":" +:+ show_Z (pfunction pkt)
     +:+ "," +:+ quoted "crc_valid" +:+ ":" +:+ (if pcrc_valid pkt then "true" else "false")
     +:+ "," +:+ quoted "raw" +:+ ":" +:+ quoted hex_str
     +:+ "," +:+ quoted "size" +:+ ":" +:+ show_Z (zlen (pdata pkt)) +:+ "}").

(** ** sniffer_ws_dispatch *)

(** What the cache is told. *)
Inductive cache_event : Type :=
| OnRequest (port slave_id function start_reg count : Z)
| OnResponse (port slave_id function : Z) (data : list Z) (timestamp_us : Z)
| ClearPending (port : Z).

Definition cacheable_fc (fc : Z) : bool := (fc =? 1) || (fc =? 2) || (fc =? 3) || (fc =? 4).

Definition cache_feed (pkt : sniff_packet_t) : cache_event :=
  let d := pdata pkt in
  let readable := negb (is_timeout pkt) && cacheable_fc (pfunction pkt) && pcrc_valid pkt in
  if is_master pkt && readable && (8 <=? zlen d) then
    OnRequest (pport pkt) (pslave_id pkt) (pfunction pkt)
      (Z.lor (Z.shiftl (byte_at d 2) 8) (byte_at d 3)) (Z.lor (Z.shiftl (byte_at d 4) 8) (byte_at d 5))
  else if negb (is_master pkt) && readable && (5 <=? zlen d) then
    OnResponse (pport pkt) (pslave_id pkt) (pfunction pkt) d (timestamp_us pkt)
  else ClearPending (pport pkt).

Record ws_state := WsState {
  ws_client_fd : option Z;
  packet_counter : Z;
  ws_sent : list (Z * string)
}.

(** [cache_on]: the cache is enabled and the port has the cache reason;
    [is_ws fd]: the descriptor still backs a WebSocket; [sent]: the send
    succeeds. *)
Definition sniffer_ws_dispatch (cache_on : bool) (is_ws : Z -> bool) (sent : bool) (pkt : sniff_packet_t) (w : ws_state)
    : list cache_event * ws_state :=
  (if cache_on then [cache_feed pkt] else [],
   match ws_client_fd w with
   | None => w
   | Some fd =>
       if negb (is_ws fd) then WsState None (packet_counter w) (ws_sent w)
       else
         let id := (packet_counter w + 1) mod 2 ^ 32 in
         if is_timeout pkt then WsState (Some fd) id (ws_sent w)
         else if sent then WsState (Some fd) id (ws_sent w ++ [(fd, format_packet_json id pkt)])
         else WsState None id (ws_sent w)
   end).

(** The WebSocket task: the queue in order, every send succeeding. *)
Fixpoint ws_drain (cache_on : bool) (is_ws : Z -> bool) (q : list sniff_packet_t) (w : ws_state) : ws_state :=
  match q with
  | [] => w
  | pkt :: q => ws_drain cache_on is_ws q (sniffer_ws_dispatch cache_on is_ws true pkt w).2
  end.

(** ** The text of a packet *)

(** Two digits per byte. *)
Fixpoint hex_text (data : list Z) : string :=
  match data with
  | [] => ""
  | b :: data => String (hx (b / 16)) (String (hx (b mod 16)) (hex_text data))
  end.

(** The object a client reads. *)
Definition packet_json (id : Z) (pkt : sniff_packet_t) : json :=
  JObj [("type", JStr "packet"); ("id", JNum id); ("port", JNum (pport pkt + 1)); ("timestamp_us", JNum (timestamp_us pkt));
        ("sender", JStr (if is_master pkt then "master" else "slave")); ("slave_id", JNum (pslave_id pkt));
        ("function", JNum (pfunction pkt)); ("crc_valid", JBool (pcrc_valid pkt)); ("raw", JStr (hex_text (pdata pkt)));
        ("size", JNum (zlen (pdata pkt)))].

(** A packet with fields of their C types. *)
Record wire_packet (pkt : sniff_packet_t) : Prop := {
  wire_port : 0 <= pport pkt < BRIDGES_COUNT;
  wire_time : 0 <= timestamp_us pkt < 2 ^ 64;
  wire_slave : is_byte (pslave_id pkt);
  wire_function : is_byte (pfunction pkt);
  wire_data : bytes_ok (pdata pkt);
  wire_len : (length (pdata pkt) <= SNIFFER_MAX_PACKET_LEN)%nat
}.

Lemma hex_loop_text data pos n :
  bytes_ok data -> (pos + 2 * length data < n)%nat -> hex_loop data pos n = hex_text data.
Proof.
  revert pos. induction data as [|b data IH]; intros pos Hb Hn; [done|]. apply Forall_cons in Hb as [Hb Hd].
  cbn [length] in Hn. cbn [hex_loop hex_text]. assert ((pos + 2 <? n)%nat = true) as -> by (apply Nat.ltb_lt; lia).
  rewrite IH by (done || lia). rewrite Z.shiftr_div_pow2 by lia. change (Z.land b 0x0F) with (Z.land b (Z.ones 4)).
  rewrite Z.land_ones by lia. done.
Qed.

Lemma hex_text_length data : String.length (hex_text data) = (2 * length data)%nat.
Proof. induction data as [|b data IH]; [done|]. cbn [hex_text String.length length]. rewrite IH. lia. Qed.

Lemma hx_clean n : 0 <= n < 16 -> clean_char (hx n) = true.
Proof. by apply (all_below (fun n => clean_char (hx n)) 16). Qed.

Lemma hex_text_clean data : bytes_ok data -> clean (hex_text data) = true.
Proof.
  induction data as [|b data IH]; [done|]. intros H. apply Forall_cons in H as [Hb Hd]. unfold clean, is_byte in *.
  cbn [hex_text all_chars]. rewrite !hx_clean; [by apply IH|apply Z.mod_pos_bound; lia|].
  split; [apply Z.div_pos; lia|apply Z.div_lt_upper_bound; lia].
Qed.

Definition packet_fields (id : Z) (pkt : sniff_packet_t) : list (string * json) :=
  match packet_json id pkt with JObj fields => fields | _ => [] end.

Lemma packet_fields_flat id pkt :
  0 <= id -> wire_packet pkt -> Forall (fun kv => clean kv.1 = true /\ flat_value kv.2) (packet_fields id pkt).
Proof.
  intros Hid [Hp Ht Hs Hf Hd _]. unfold packet_fields, packet_json, is_byte in *.
  rewrite !Forall_cons. cbn [fst snd flat_value]. split_and!; try done; try lia.
  - by destruct (is_master pkt).
  - by apply hex_text_clean.
  - unfold zlen. lia.
Qed.

(** Unless the buffer is too small, the text is that of the object. *)
Lemma format_print id pkt :
  wire_packet pkt ->
  format_packet_json id pkt = stake (SNIFFER_JSON_BUF_SIZE - 1) (print_object (packet_fields id pkt)).
Proof.
  intros [Hp Ht Hs Hf Hd Hl]. unfold format_packet_json, bytes_to_hex.
  rewrite hex_loop_text; [|done|change SNIFFER_MAX_PACKET_LEN with 272%nat in *; lia].
  reflexivity.
Qed.

Lemma print_fits id pkt :
  0 <= id < 2 ^ 32 -> wire_packet pkt ->
  (String.length (print_object (packet_fields id pkt)) <= SNIFFER_JSON_BUF_SIZE - 1)%nat.
Proof.
  intros Hid [Hp Ht Hs Hf Hd Hl]. unfold is_byte in *. change SNIFFER_MAX_PACKET_LEN with 272%nat in Hl.
  change BRIDGES_COUNT with 2 in Hp.
  pose proof (show_Z_length 9 id ltac:(cbn; lia)). pose proof (show_Z_length 0 (pport pkt + 1) ltac:(cbn; lia)).
  pose proof (show_Z_length 19 (timestamp_us pkt) ltac:(cbn; lia)). pose proof (show_Z_length 2 (pslave_id pkt) ltac:(cbn; lia)).
  pose proof (show_Z_length 2 (pfunction pkt) ltac:(cbn; lia)).
  pose proof (show_Z_length 2 (zlen (pdata pkt)) ltac:(unfold zlen; cbn; lia)).
  unfold packet_fields, packet_json, print_object, print_members, print_member. cbn [fst snd print_scalar].
  unfold quoted. repeat (rewrite sapp_length || cbn [String.length]). rewrite hex_text_length.
  change (SNIFFER_JSON_BUF_SIZE - 1)%nat with 1199%nat. destruct (is_master pkt), (pcrc_valid pkt); cbn [String.length]; lia.
Qed.

(** The text is complete and [json.loads] reads the object back. *)
Lemma loads_format id pkt :
  0 <= id < 2 ^ 32 -> wire_packet pkt -> loads (format_packet_json id pkt) = Ok (packet_json id pkt).
Proof.
  intros Hid Hw. rewrite format_print by done. rewrite stake_all by (by apply print_fits).
  rewrite loads_print; [done|done|apply packet_fields_flat; [lia|done]|].
  unfold packet_fields, packet_json. cbn [fmap list_fmap fst]. apply (bool_decide_unpack _). vm_compute. exact I.
Qed.

(** C27. A client reads back the packet that was sniffed: for every packet with fields of their C types and every 32-bit id, the JSON text the firmware formats is complete (it fits the buffer of the task) and json.loads gives an object with exactly the fields of the packet, the bytes in hexadecimal. *)
Theorem packet_json_roundtrip id pkt :
  0 <= id < 2 ^ 32 -> wire_packet pkt -> loads (format_packet_json id pkt) = Ok (packet_json id pkt).
Proof. apply loads_format. Qed.

Lemma packet_json_roundtrip_witness :
  loads (format_packet_json 41 (packet_of 0 demo_request 1000)) = Ok (packet_json 41 (packet_of 0 demo_request 1000)) /\
  jget "raw" (packet_fields 41 (packet_of 0 demo_request 1000)) = Some (JStr "150300000001871E").
Proof.
  split; [|vm_compute; reflexivity]. apply packet_json_roundtrip; [lia|].
  split; try (vm_compute; split; (reflexivity || discriminate)).
  - apply (bool_decide_unpack _). vm_compute. exact I.
  - vm_compute. lia.
Defined.
