(* ===== verification/SlowResponse.v ===== *)
(** * The sniffer timing tests: api_tests/38_test_sniffer_slow_response.py

    A bench is the HTTP session, the WebSocket connections, the UART sockets
    and the ping threads of the test process, with a record of the frames it
    injected and the packets it read; the device behind it answers HTTP
    requests, takes the injected bytes and holds the messages the WebSocket
    will deliver, each with the time [ws.recv()] has to wait for it.  Whether
    the --ip option names this machine is an input.  Theorems: every test
    gives back what it took, and what the early stop of [_collect_packets]
    hides from the tests. *)

From Stdlib Require Import ZArith QArith Qround Lia Lqa Ascii String.
From stdpp Require Import base list gmap sets strings.
From S2P Require Import Prelude PyBytes PyStr QemuPorts ApiClient Gateway ModbusCrc RtuFrames Injector SnifferWs.
From S2P Require Import JsonText NetLog.

Open Scope Z_scope.

Definition SNIFFER_RESP_TIMEOUT_MS : Z := 200.
Definition TEST_SLAVE_ID : Z := 0x15.

(** What the tests did: the frames injected, the packets each
    [_collect_packets] returned, and the sockets that [open_uart_socket] made
    and, the connect having failed, nobody closes. *)
Record bench_trace := Trace {
  injected : list (list Z);
  collected : list (list json);
  unconnected : nat
}.

Record bench (D : Type) := Bench {
  net : aworld D;
  wsw : ws_world;
  pinging : gset nat;            (* ping threads not told to stop, by connection *)
  uarts : gset nat;              (* open UART sockets *)
  next_uart : nat;
  trace : bench_trace
}.
Arguments Bench {D} net wsw pinging uarts next_uart trace.
Arguments net {D} b.
Arguments wsw {D} b.
Arguments pinging {D} b.
Arguments uarts {D} b.
Arguments next_uart {D} b.
Arguments trace {D} b.

(** The outside of a bench. *)
Record outside (D : Type) := Outside {
  http : request -> D -> outcome response * D;
  uart_connect : D -> option exn * D;
  uart_send : list Z -> D -> option exn * D;
  uart_close : nat -> option exn;
  ws_opened : nat -> D -> D;                       (* the device once the connection is up and its start command is in *)
  ws_stop : nat -> option exn;                     (* ws.send of the stop command *)
  ws_inbox : D -> list (Q * outcome string);       (* what ws.recv() meets next, and how long it waits for it *)
  ws_left : nat -> D -> D;                         (* the device after so many of them were received *)
  ws_lapse : D -> nat -> Q;                        (* time spent outside ws.recv() by each look at the clock *)
  local_endpoint : bool                            (* --qemu is set or --ip names this machine *)
}.
Arguments Outside {D}.
Arguments http {D} o.
Arguments uart_connect {D} o.
Arguments uart_send {D} o.
Arguments uart_close {D} o.
Arguments ws_opened {D} o.
Arguments ws_stop {D} o.
Arguments ws_inbox {D} o.
Arguments ws_left {D} o.
Arguments ws_lapse {D} o.
Arguments local_endpoint {D} o.

(** ** The packets of interest *)

(** [p.get(k) == v], one after the other, joined by [and]. *)
Fixpoint matches (tests : list (string * json)) (p : json) : outcome bool :=
  match tests with
  | [] => Ok true
  | (k, v) :: tests =>
      let? x := py_get k p in
      if match x with Some y => jeq y v | None => false end then matches tests p else Ok false
  end.

(** [[p for p in packets if ...]] *)
Fixpoint pick (tests : list (string * json)) (packets : list json) : outcome (list json) :=
  match packets with
  | [] => Ok []
  | p :: packets =>
      let? b := matches tests p in
      let? ps := pick tests packets in
      Ok (if b : bool then p :: ps else ps)
  end.

Definition OURS : list (string * json) := [("slave_id", JNum TEST_SLAVE_ID)].
Definition MASTER : list (string * json) := [("type", JStr "packet"); ("sender", JStr "master")].
Definition MASTER3 : list (string * json) := MASTER ++ [("function", JNum 3)].
Definition SLAVE : list (string * json) := [("type", JStr "packet"); ("sender", JStr "slave")].
Definition SLAVE3 : list (string * json) := SLAVE ++ [("function", JNum 3)].
Definition TIMEOUT : list (string * json) := [("type", JStr "timeout")].

(** How many of the packets for our slave match, and how many should. *)
Definition at_least (n k : Z) : bool := n <=? k.
Definition none (k : Z) : bool := k =? 0.

Fixpoint judge_all (checks : list (list (string * json) * (Z -> bool))) (our : list json) : outcome unit :=
  match checks with
  | [] => Ok tt
  | (tests, good) :: checks =>
      let? ps := pick tests our in
      if good (zlen ps) then judge_all checks our else Raise AssertionError
  end.

Definition judge_packets (checks : list (list (string * json) * (Z -> bool))) (packets : list json) : outcome unit :=
  let? our := pick OURS packets in judge_all checks our.

(** What the module fixture sets: the line parameters and a known mode. *)
Definition sniffer_baseline {D} (device : request -> D -> outcome response * D) : eff (aworld D) unit :=
  let* resp := ApiClient.update_settings device (JObj [("rs485_1", JObj [("tx_disabled", JBool true); ("baudrate", JNum 9600);
      ("stopbits", JStr "1"); ("parity", JStr "none"); ("databits", JStr "8")])]) in
  assert (status_code resp =? 200) ;;;
  let* resp := set_port_mode_default device 1 (JStr "tcp_bridge") in
  assert (status_code resp =? 200).

(** ** Receiving with a timeout *)

Definition RECV_TIMEOUT_S : Q := 5.

(** The [ws.recv()] calls until a message that takes [wait]: how long each
    takes and what it gives.  A call gives up after [ws.settimeout(5)]. *)
Definition recv_calls_for (wait : Q) (m : outcome string) : list (Q * outcome string) :=
  let timeouts := Z.to_nat (Qceiling (wait / RECV_TIMEOUT_S) - 1) in
  replicate timeouts (RECV_TIMEOUT_S, Raise WebSocketTimeoutException) ++
  [((wait - inject_Z (Z.of_nat timeouts) * RECV_TIMEOUT_S)%Q, m)].

Definition recv_calls (messages : list (Q * outcome string)) : list (Q * outcome string) :=
  messages ≫= fun '(wait, m) => recv_calls_for wait m.

(** How long the first [n] calls took together. *)
Definition waited (n : nat) (calls : list (Q * outcome string)) : Q :=
  (foldr Qplus 0 (take n calls).*1 + inject_Z (Z.of_nat (n - length calls)) * RECV_TIMEOUT_S)%Q.

(** How many of the first [n] calls did not time out. *)
Definition received (n : nat) (calls : list (Q * outcome string)) : nat :=
  length (List.filter (fun c => match c.2 with Raise WebSocketTimeoutException => false | _ => true end) (take n calls)).

Section Bench.
Context {D : Type} (o : outside D) (fuel : nat).
Notation B := (bench D).

Definition on_net {A} (m : eff (aworld D) A) : eff B A := fun b =>
  let (r, a) := m (net b) in (r, Bench a (wsw b) (pinging b) (uarts b) (next_uart b) (trace b)).
Definition on_ws {A} (m : eff ws_world A) : eff B A := fun b =>
  let (r, w) := m (wsw b) in (r, Bench (net b) w (pinging b) (uarts b) (next_uart b) (trace b)).
Definition set_device (d : D) (a : aworld D) : aworld D :=
  AWorld d (log a) (cookies a) (open_sessions a) (now a) (cost a).

(** [ws, stop_ping, _ = _ws_connect(api, 1)] *)
Definition ws_start : eff B nat :=
  let* ws := on_ws _ws_connect in
  modify (fun b => Bench (set_device (ws_opened o ws (dev (net b))) (net b)) (wsw b) ({[ ws ]} ∪ pinging b) (uarts b) (next_uart b) (trace b)) ;;;
  ret ws.

(** [open_uart_socket(port=1)]: the socket is made before the connect, and not
    closed when that raises. *)
Definition open_uart : eff B nat := fun b =>
  let id := next_uart b in
  let (e, d) := uart_connect o (dev (net b)) in
  match e with
  | None => (Ok id, Bench (set_device d (net b)) (wsw b) (pinging b) ({[ id ]} ∪ uarts b) (S id) (trace b))
  | Some e => (Raise e, Bench (set_device d (net b)) (wsw b) (pinging b) (uarts b) (S id)
                          (Trace (injected (trace b)) (collected (trace b)) (S (unconnected (trace b)))))
  end.

(** [uart_chardev_unreachable]: fail when the chardev is ours, else skip. *)
Definition uart_chardev_unreachable (is_qemu : bool) : exn :=
  if is_qemu || local_endpoint o then PytestFail else PytestSkip.

Definition open_chardev (is_qemu : bool) : eff B nat :=
  try_except open_uart (catches OSError) (fun _ => raise (uart_chardev_unreachable is_qemu)).

(** [inject_bytes(port=1, data=data, sock=sock)] *)
Definition inject (data : list Z) (sock : nat) : eff B unit := fun b =>
  if decide (sock ∈ uarts b) then
    let (e, d) := uart_send o data (dev (net b)) in
    (match e with None => Ok tt | Some e => Raise e end,
     Bench (set_device d (net b)) (wsw b) (pinging b) (uarts b) (next_uart b)
       (Trace (injected (trace b) ++ [data]) (collected (trace b)) (unconnected (trace b))))
  else (Raise OSError, b).

Definition sleep (t : Q) : eff B unit := on_net (asleep t).

(** [_collect_packets(ws, min_count, timeout_sec, filter_fn=None)].  The n-th
    look at the clock inside its loop comes after n [ws.recv()] calls, each of
    which took its wait, or the whole timeout when nothing was left. *)
Definition collect (min_count : Z) (timeout_sec : Q) : eff B (list json) := fun b =>
  let a := net b in
  let calls := recv_calls (ws_inbox o (dev a)) in
  let clock := fun i => (now a + ws_lapse o (dev a) i + waited (pred i) calls)%Q in
  let (r, w) := _collect_packets loads (fun _ => true) fuel min_count timeout_sec (InboxWorld (snd <$> calls) clock 0) in
  let taken := received (length calls - length (inbox w)) calls in
  (r, Bench (AWorld (ws_left o taken (dev a)) (log a) (cookies a) (open_sessions a) (clock (ireadings w)) (cost a))
        (wsw b) (pinging b) (uarts b) (next_uart b)
        (Trace (injected (trace b))
           (collected (trace b) ++ match r with Ok packets => [packets] | _ => [] end) (unconnected (trace b)))).

(** [resp.json().get("rs485_1", {}).get("port_mode", "disabled")] *)
Definition port_mode_of_info (j : json) : outcome json :=
  let? port := py_get "rs485_1" j in
  let? mode := py_get "port_mode" (default (JObj []) port) in
  Ok (default (JStr "disabled") mode).

(** The [finally] block, for what was opened so far. *)
Definition close_uart (sock : option nat) : eff B unit := fun b =>
  match sock with
  | None => (Ok tt, b)
  | Some id =>
      let b' := Bench (net b) (wsw b) (pinging b) (uarts b ∖ {[ id ]}) (next_uart b) (trace b) in
      match uart_close o id with
      | Some e => if catches OSError e then (Ok tt, b') else (Raise e, b')
      | None => (Ok tt, b')
      end
  end.

Definition close_ws (ws : option nat) : eff B unit :=
  match ws with
  | None => ret tt
  | Some id =>
      modify (fun b => Bench (net b) (wsw b) (pinging b ∖ {[ id ]}) (uarts b) (next_uart b) (trace b)) ;;;
      try_except (match ws_stop o id with Some e => raise e | None => ret tt end) (catches Exception_) (fun _ => ret tt) ;;;
      on_ws (close_quietly id)
  end.

Definition restore_mode (original_mode : json) : eff B unit :=
  let* resp := on_net (set_port_mode_default (http o) 1 original_mode) in
  assert (status_code resp =? 200).

Definition clean_up (ws sock : option nat) (original_mode : json) : eff B unit :=
  close_uart sock ;;; close_ws ws ;;; restore_mode original_mode.

(** The port in passive mode, and the WebSocket on it. *)
Definition open_passive : eff B nat :=
  let* resp := on_net (set_port_mode_default (http o) 1 (JStr "passive")) in
  assert (status_code resp =? 200) ;;;
  sleep (1 # 2) ;;;
  ws_start.

(** What all seven tests share: the saved mode, the passive port, the
    WebSocket, the UART socket, and the [finally] block. *)
Definition with_sniffer {A} (is_qemu : bool) (body : nat -> eff B A) : eff B A :=
  let* resp := on_net (get_info (http o)) in
  assert (status_code resp =? 200) ;;;
  let* j := lift (resp_json resp) in
  let* original_mode := lift (port_mode_of_info j) in
  or_finally open_passive (clean_up None None original_mode) (fun ws =>
    or_finally (sleep (1 # 5) ;;; open_chardev is_qemu) (clean_up (Some ws) None original_mode) (fun sock =>
      try_finally (body sock) (clean_up (Some ws) (Some sock) original_mode))).

Definition req : list Z := build_fc03_request TEST_SLAVE_ID 0 1.
Definition resp_frame : outcome (list Z) := build_fc03_response TEST_SLAVE_ID 1 0x4988.

Definition _run_sniffer_timing_test (is_qemu : bool) (delay_ms : option Z) (collect_timeout_sec : Q) (min_count : Z)
    : eff B (list json) :=
  with_sniffer is_qemu (fun uart_sock =>
    let* frame := lift resp_frame in
    inject req uart_sock ;;;
    match delay_ms with
    | None => ret tt
    | Some ms => sleep (inject_Z ms / 1000) ;;; inject frame uart_sock
    end ;;;
    collect min_count collect_timeout_sec).

(** ** The fixture and the tests *)

Definition _baseline : eff B unit := on_net (sniffer_baseline (http o)).

Definition test_sniffer_fast_response_master_slave_pair (is_qemu : bool) : eff B unit :=
  let* packets := _run_sniffer_timing_test is_qemu (Some 10) 3 2 in
  lift (judge_packets [(MASTER3, at_least 1); (SLAVE3, at_least 1); (TIMEOUT, none)] packets).

Definition test_sniffer_slow_response_timeout_then_orphan_slave (is_qemu : bool) : eff B unit :=
  let* packets := _run_sniffer_timing_test is_qemu (Some 400) 5 2 in
  lift (judge_packets [(MASTER, at_least 1); (SLAVE3, at_least 1)] packets).

Definition test_sniffer_no_response_only_timeout (is_qemu : bool) : eff B unit :=
  let collect_sec := (inject_Z SNIFFER_RESP_TIMEOUT_MS / 1000 + 1)%Q in
  let* packets := _run_sniffer_timing_test is_qemu None collect_sec 1 in
  lift (judge_packets [(MASTER3, at_least 1); (TIMEOUT, none); (SLAVE, none)] packets).

Definition test_sniffer_master_emitted_immediately (is_qemu : bool) : eff B unit :=
  with_sniffer is_qemu (fun uart_sock =>
    inject req uart_sock ;;;
    let* packets := collect 1 (15 # 100) in
    lift (judge_packets [(MASTER3, at_least 1)] packets)).

Definition test_sniffer_no_response_master_then_timeout (is_qemu : bool) : eff B unit :=
  with_sniffer is_qemu (fun uart_sock =>
    inject req uart_sock ;;;
    let* packets := collect 1 2 in
    lift (judge_packets [(MASTER3, at_least 1); (TIMEOUT, none); (SLAVE, none)] packets)).

Definition test_sniffer_slow_response_three_events (is_qemu : bool) : eff B unit :=
  with_sniffer is_qemu (fun uart_sock =>
    let* frame := lift resp_frame in
    inject req uart_sock ;;;
    sleep (2 # 5) ;;;
    inject frame uart_sock ;;;
    let* packets := collect 2 3 in
    lift (judge_packets [(MASTER3, at_least 1); (TIMEOUT, none); (SLAVE3, at_least 1)] packets)).

Definition test_sniffer_dead_slave_polled_twice (is_qemu : bool) : eff B unit :=
  with_sniffer is_qemu (fun uart_sock =>
    inject req uart_sock ;;;
    sleep (3 # 5) ;;;
    inject req uart_sock ;;;
    sleep (3 # 10) ;;;
    let* packets := collect 2 4 in
    lift (judge_packets [(MASTER3, at_least 2); (TIMEOUT, none); (SLAVE, none)] packets)).

End Bench.

(** ** Every test gives back what it took *)

(** The waits of the calls are never negative, and past the last message every
    call takes the whole timeout. *)
Lemma recv_calls_for_nonneg wait m : (0 <= wait)%Q -> Forall (fun c => (0 <= c.1)%Q) (recv_calls_for wait m).
Proof.
  intros Hw. unfold recv_calls_for. set (n := Z.to_nat _). apply Forall_app. split; [by apply Forall_replicate|].
  constructor; [|done]. cbn [fst]. destruct (decide (n = 0)%nat) as [->|Hn];
    [unfold RECV_TIMEOUT_S; change (inject_Z (Z.of_nat 0)) with 0%Q; lra|].
  assert (Z.of_nat n = Qceiling (wait / RECV_TIMEOUT_S) - 1) as -> by (unfold n in *; lia).
  pose proof (Qceiling_lt (wait / RECV_TIMEOUT_S)) as H. unfold RECV_TIMEOUT_S in *.
  set (q := inject_Z _) in *. assert (wait == 5 * (wait / 5))%Q by field. lra.
Qed.

Lemma recv_calls_nonneg l : Forall (fun c => (0 <= c.1)%Q) l -> Forall (fun c => (0 <= c.1)%Q) (recv_calls l).
Proof.
  induction 1 as [|[wait m] l Hw _ IH]; [done|]. apply Forall_app. split; [by apply recv_calls_for_nonneg|done].
Qed.

Lemma recv_calls_readable l : Forall (readable loads) l.*2 -> Forall (readable loads) (recv_calls l).*2.
Proof.
  induction l as [|[wait m] l IH]; [done|]. intros H. apply Forall_cons in H as [Hm Hl].
  change (recv_calls ((wait, m) :: l)) with (recv_calls_for wait m ++ recv_calls l). rewrite fmap_app.
  apply Forall_app. split; [|by apply IH]. unfold recv_calls_for. rewrite fmap_app. apply Forall_app.
  split; [|by repeat constructor]. apply Forall_fmap, Forall_replicate. done.
Qed.

Lemma waited_nonneg n calls : Forall (fun c => (0 <= c.1)%Q) calls -> (0 <= waited n calls)%Q.
Proof.
  intros H. unfold waited, RECV_TIMEOUT_S. assert (0 <= foldr Qplus 0 (take n calls).*1)%Q as Hf.
  { apply (Forall_take _ n) in H. induction H as [|c l Hc _ IH]; cbn; [done|]. lra. }
  assert (inject_Z 0 <= inject_Z (Z.of_nat (n - length calls)))%Q as Hz by (rewrite <- Zle_Qle; lia).
  change (inject_Z 0) with 0%Q in Hz. lra.
Qed.

Lemma waited_past n calls :
  Forall (fun c => (0 <= c.1)%Q) calls -> (length calls < n)%nat -> (RECV_TIMEOUT_S <= waited n calls)%Q.
Proof.
  intros H Hn. unfold waited. assert (0 <= foldr Qplus 0 (take n calls).*1)%Q as Hf.
  { apply (Forall_take _ n) in H. induction H as [|c l Hc _ IH]; cbn; [done|]. lra. }
  assert (inject_Z 1 <= inject_Z (Z.of_nat (n - length calls)))%Q as Hz by (rewrite <- Zle_Qle; lia).
  change (inject_Z 1) with 1%Q in Hz. unfold RECV_TIMEOUT_S in *. lra.
Qed.

(** Failures of the kinds the code expects, waits and a clock that do not run
    backwards, and fuel for every receive. *)
Record fair {D} (o : outside D) (fuel : nat) : Prop := {
  fair_http : forall q d, settled (http o q d).1;
  fair_connect : forall d e, (uart_connect o d).1 = Some e -> catches OSError e = true;
  fair_close : forall n e, uart_close o n = Some e -> catches OSError e = true;
  fair_stop : forall n e, ws_stop o n = Some e -> catches Exception_ e = true;
  fair_inbox : forall d, Forall (readable loads) (ws_inbox o d).*2;
  fair_waits : forall d, Forall (fun c => (0 <= c.1)%Q) (ws_inbox o d);
  fair_clock : forall d i, (ws_lapse o d 0 <= ws_lapse o d i)%Q;
  fair_fuel : forall d, (length (recv_calls (ws_inbox o d)) + 2 <= fuel)%nat
}.

(** Ping threads belong to open connections; socket ids are fresh. *)
Record bench_ok {D} (b : bench D) : Prop := {
  ok_ws : ws_sane (wsw b);
  ok_ping : pinging b ⊆ open_ws (wsw b);
  ok_uart : forall i, i ∈ uarts b -> (i < next_uart b)%nat
}.

Record kept {D} (b b' : bench D) : Prop := {
  kept_uarts : uarts b' = uarts b;
  kept_ping : pinging b' = pinging b;
  kept_ws : wsw b' = wsw b;
  kept_next : (next_uart b <= next_uart b')%nat
}.

Lemma kept_refl {D} (b : bench D) : kept b b.
Proof. by split. Qed.

Lemma kept_trans {D} (b1 b2 b3 : bench D) : kept b1 b2 -> kept b2 b3 -> kept b1 b3.
Proof. intros [H1 H2 H3 H4] [K1 K2 K3 K4]. split; (congruence || lia). Qed.

Lemma kept_ok {D} (b b' : bench D) : kept b b' -> bench_ok b -> bench_ok b'.
Proof.
  intros [H1 H2 H3 H4] [K1 K2 K3]. split; rewrite ?H1, ?H2, ?H3; [done|done|]. intros i Hi%K3. lia.
Qed.

(** A computation that ends and holds on to nothing. *)
Definition tidy {D A} (m : eff (bench D) A) : Prop := forall b, settled (m b).1 /\ kept b (m b).2.

Lemma tidy_bind {D A C} (m : eff (bench D) A) (k : A -> eff (bench D) C) :
  tidy m -> (forall a, tidy (k a)) -> tidy (bind m k).
Proof.
  intros Hm Hk b. unfold bind. destruct (Hm b) as [Hs Hb]. destruct (m b) as [[a|e|] b1]; cbn in *; [|by split|done].
  destruct (Hk a b1) as [Hs2 Hb2]. split; [done|]. by eapply kept_trans.
Qed.

Lemma tidy_ret {D A} (a : A) : tidy (D := D) (ret a).
Proof. intros b. split; [done|apply kept_refl]. Qed.

Lemma tidy_lift {D A} (r : outcome A) : settled r -> tidy (D := D) (lift r).
Proof. intros H b. split; [done|apply kept_refl]. Qed.

Lemma tidy_assert {D} (c : bool) : tidy (D := D) (assert c).
Proof. intros b. destruct c; split; done || apply kept_refl. Qed.

Lemma tidy_net {D A} (m : eff (aworld D) A) : (forall a, settled (m a).1) -> tidy (on_net m).
Proof. intros H b. unfold on_net. specialize (H (net b)). destruct (m (net b)) as [r a]. by split. Qed.

Lemma matches_settled tests p : settled (matches tests p).
Proof.
  induction tests as [|[k v] tests IH]; [done|]. cbn [matches]. apply obind_settled; [by destruct p|].
  intros [y|]; [|done]. by destruct (jeq y v).
Qed.

Lemma pick_settled tests ps : settled (pick tests ps).
Proof.
  induction ps as [|p ps IH]; [done|]. cbn [pick]. apply obind_settled; [apply matches_settled|].
  intros b. by apply obind_settled.
Qed.

Lemma judge_settled checks ps : settled (judge_packets checks ps).
Proof.
  apply obind_settled; [apply pick_settled|]. intros our. induction checks as [|[t g] checks IH]; [done|].
  cbn [judge_all]. apply obind_settled; [apply pick_settled|]. intros qs. by destruct (g (zlen qs)).
Qed.

#[export] Hint Resolve tidy_ret tidy_assert pick_settled judge_settled : wbmge.

Section Tidy.
Context {D : Type} (o : outside D) (fuel : nat) (Hfair : fair o fuel).
Notation B := (bench D).

Lemma set_mode_settled mode a : settled (set_port_mode_default (http o) 1 mode a).1.
Proof. apply mode_attempts_settled, (fair_http _ _ Hfair). Qed.

Lemma tidy_inject data sock : tidy (inject o data sock).
Proof.
  intros b. unfold inject. destruct (decide _); [|by split; [|apply kept_refl]].
  destruct (uart_send o data (dev (net b))) as [[ex|] d]; by split.
Qed.

Lemma tidy_collect n t : (t <= 5)%Q -> tidy (collect o fuel n t).
Proof.
  intros Ht b. unfold collect. set (d := dev (net b)). set (calls := recv_calls (ws_inbox o d)).
  set (clock := fun i => (now (net b) + ws_lapse o d i + waited (pred i) calls)%Q).
  pose proof (collect_packets_prefix loads (fun _ => true) fuel n t (InboxWorld calls.*2 clock 0) (length calls + 2)) as H.
  cbn [inbox iclock ireadings] in H.
  destruct (_collect_packets loads (fun _ => true) fuel n t (InboxWorld calls.*2 clock 0)) as [r w].
  pose proof (recv_calls_nonneg _ (fair_waits _ _ Hfair d)) as Hn. fold calls in Hn.
  destruct H as [H _].
  - intros i Hi. pose proof (fair_clock _ _ Hfair d i) as Hc. unfold clock. cbn [pred].
    pose proof (waited_past (pred i) calls Hn ltac:(lia)) as Hw. unfold RECV_TIMEOUT_S in Hw.
    assert (waited 0 calls == 0)%Q as H0 by reflexivity. lra.
  - pose proof (fair_fuel _ _ Hfair d) as Hf. fold calls in Hf. lia.
  - apply recv_calls_readable, (fair_inbox _ _ Hfair).
  - split; [done|]. by split.
Qed.

Lemma tidy_sleep t : tidy (D := D) (sleep t).
Proof. by apply tidy_net. Qed.

Definition one_of (x : option nat) : gset nat := match x with Some i => {[ i ]} | None => ∅ end.

Lemma close_uart_spec sock b :
  exists b', close_uart o sock b = (Ok tt, b') /\ net b' = net b /\ wsw b' = wsw b /\ pinging b' = pinging b /\
    next_uart b' = next_uart b /\ uarts b' = uarts b ∖ one_of sock.
Proof.
  destruct sock as [i|]; cbn; [|eexists; split; [done|]; split_and!; try done; set_solver].
  destruct (uart_close o i) as [e|] eqn:E; [rewrite (fair_close _ _ Hfair i e E)|]; eexists; by split_and!.
Qed.

Lemma close_ws_spec ws b :
  ws_sane (wsw b) ->
  exists b', close_ws o ws b = (Ok tt, b') /\ net b' = net b /\ ws_sane (wsw b') /\ next_uart b' = next_uart b /\
    uarts b' = uarts b /\ pinging b' = pinging b ∖ one_of ws /\ open_ws (wsw b') = open_ws (wsw b) ∖ one_of ws.
Proof.
  intros Hw. destruct ws as [i|]; cbn; [|eexists; split; [done|]; split_and!; try done; set_solver].
  unfold bind, modify, try_except.
  assert (forall b, (match ws_stop o i with Some e => raise e | None => ret tt end : eff B unit) b =
    (match ws_stop o i with Some e => Raise e | None => Ok tt end, b)) as Hs by (intros; by destruct (ws_stop o i)).
  rewrite Hs. set (b1 := Bench (net b) (wsw b) (pinging b ∖ {[i]}) (uarts b) (next_uart b) (trace b)).
  assert (exists b2, on_ws (close_quietly i) b1 = (Ok tt, b2) /\ net b2 = net b /\ ws_sane (wsw b2) /\
    next_uart b2 = next_uart b /\ uarts b2 = uarts b /\ pinging b2 = pinging b ∖ {[ i ]} /\
    open_ws (wsw b2) = open_ws (wsw b) ∖ {[ i ]}) as (b2 & E & H).
  { unfold on_ws, b1. cbn [wsw]. rewrite close_quietly_spec by done. eexists. split; [done|]. cbn. split_and!; try done.
    apply set_open_sane; [done|]. destruct Hw as (_ & _ & _ & Hlt). set_solver. }
  exists b2. split; [|exact H]. destruct (ws_stop o i) as [e|] eqn:Es; [rewrite (fair_stop _ _ Hfair i e Es)|]; exact E.
Qed.

Lemma restore_mode_spec mode b :
  exists r a, restore_mode o mode b = (r, Bench a (wsw b) (pinging b) (uarts b) (next_uart b) (trace b)) /\ settled r /\
    last (log a) = Some (mode_request 1 mode).
Proof.
  unfold restore_mode, bind at 1, on_net.
  destruct (mode_attempts_spec (http o) 2 (mode_request 1 mode) (1 # 2) (net b)) as (n & r & a & E & Hn & Hl & _ & _).
  pose proof (set_mode_settled mode (net b)) as Hr. unfold set_port_mode_default, set_port_mode in *. rewrite E in *.
  cbn [fst] in Hr.
  assert (last (log a) = Some (mode_request 1 mode)) as Hlast.
  { rewrite Hl, last_app. destruct n as [|n]; [lia|]. by rewrite replicate_S_end, last_snoc. }
  destruct r as [resp|e|]; [destruct (status_code resp =? 200)| |done]; eexists _, _; by split_and!.
Qed.

(** What the [finally] block leaves: what it was given is closed, and the
    last request restores the mode. *)
Record cleaned (ws sock : option nat) (mode : json) (b b' : B) : Prop := {
  cl_sane : ws_sane (wsw b');
  cl_uarts : uarts b' = uarts b ∖ one_of sock;
  cl_ping : pinging b' = pinging b ∖ one_of ws;
  cl_ws : open_ws (wsw b') = open_ws (wsw b) ∖ one_of ws;
  cl_next : next_uart b' = next_uart b;
  cl_last : last (log (net b')) = Some (mode_request 1 mode)
}.

Lemma clean_up_spec ws sock mode b :
  ws_sane (wsw b) -> settled (clean_up o ws sock mode b).1 /\ cleaned ws sock mode b (clean_up o ws sock mode b).2.
Proof.
  intros Hw. unfold clean_up, bind.
  destruct (close_uart_spec sock b) as (b1 & -> & N1 & W1 & P1 & X1 & U1).
  destruct (close_ws_spec ws b1) as (b2 & -> & N2 & S2 & X2 & U2 & P2 & O2); [by rewrite W1|].
  destruct (restore_mode_spec mode b2) as (r & a & -> & Hr & Hl). split; [done|].
  split; cbn; congruence || done.
Qed.

(** A bench that holds [ws] and [sock] beyond what [b] holds. *)
Record holds (b : B) (ws sock : option nat) (b1 : B) : Prop := {
  h_sane : ws_sane (wsw b1);
  h_uarts : uarts b1 = one_of sock ∪ uarts b;
  h_ping : pinging b1 = one_of ws ∪ pinging b;
  h_ws : open_ws (wsw b1) = one_of ws ∪ open_ws (wsw b);
  h_new_sock : one_of sock ## uarts b;
  h_new_ws : one_of ws ## open_ws (wsw b);
  h_ping_open : pinging b ⊆ open_ws (wsw b);
  h_next : forall i, i ∈ uarts b1 -> (i < next_uart b1)%nat
}.

Lemma holds_kept b ws sock b1 b2 : kept b1 b2 -> holds b ws sock b1 -> holds b ws sock b2.
Proof.
  intros [K1 K2 K3 K4] [H1 H2 H3 H4 H5 H6 H7 H8]. split; rewrite ?K1, ?K2, ?K3; try done. intros i Hi%H8. lia.
Qed.

(** The bench as it was, its last request the restore of [mode]. *)
Record returned (mode : json) (b b' : B) : Prop := {
  r_uarts : uarts b' = uarts b;
  r_ping : pinging b' = pinging b;
  r_ws : open_ws (wsw b') = open_ws (wsw b);
  r_last : last (log (net b')) = Some (mode_request 1 mode)
}.

Lemma cleaned_returned b ws sock mode b1 b2 :
  holds b ws sock b1 -> cleaned ws sock mode b1 b2 -> returned mode b b2.
Proof.
  intros [H1 H2 H3 H4 H5 H6 H7 _] [C1 C2 C3 C4 _ C6]. split; [| | |done].
  - rewrite C2, H2. clear -H5. apply set_eq. set_solver.
  - rewrite C3, H3. clear -H6 H7. apply set_eq. set_solver.
  - rewrite C4, H4. clear -H6. apply set_eq. set_solver.
Qed.

(** Leaving the [try] by an exception or a return. *)
Lemma leave_try {A} b ws sock mode (r : outcome A) b1 :
  settled r -> holds b ws sock b1 ->
  settled (try_finally (lift r) (clean_up o ws sock mode) b1).1 /\
  returned mode b (try_finally (lift r) (clean_up o ws sock mode) b1).2.
Proof.
  intros Hr Hh. destruct (clean_up_spec ws sock mode b1 (h_sane _ _ _ _ Hh)) as [Hs Hc].
  pose proof (cleaned_returned _ _ _ _ _ _ Hh Hc) as Hb. unfold try_finally, lift.
  destruct r as [x|e|]; [| |done]; destruct (clean_up o ws sock mode b1) as [[[]|e2|] b2]; by split.
Qed.

(** The [try] block with [ws] and [sock] held on failure, [held x] on success. *)
Definition then_holds (b : B) (ws sock : option nat) (held : nat -> option nat * option nat) (p : outcome nat * B) : Prop :=
  match p with
  | (Ok x, b2) => holds b (held x).1 (held x).2 b2
  | (Raise _, b2) => holds b ws sock b2
  | (Blocked, _) => False
  end.

Lemma or_finally_spec {C} b ws sock held mode (m : eff B nat) (k : nat -> eff B C) b1 :
  then_holds b ws sock held (m b1) ->
  (forall x b2, holds b (held x).1 (held x).2 b2 -> settled (k x b2).1 /\ returned mode b (k x b2).2) ->
  settled (or_finally m (clean_up o ws sock mode) k b1).1 /\ returned mode b (or_finally m (clean_up o ws sock mode) k b1).2.
Proof.
  intros Hm Hk. unfold or_finally. destruct (m b1) as [[x|ex|] b2]; [by apply Hk| |done].
  by apply (leave_try b ws sock mode (Raise ex)).
Qed.

Lemma then_holds_bind {A} b ws sock held (m : eff B A) (k : A -> eff B nat) b1 :
  tidy m -> holds b ws sock b1 -> (forall x b2, holds b ws sock b2 -> then_holds b ws sock held (k x b2)) ->
  then_holds b ws sock held (bind m k b1).
Proof.
  intros Hm Hh Hk. destruct (Hm b1) as [Hs Hkept]. unfold bind. destruct (m b1) as [[x|ex|] b2]; cbn [fst snd] in *.
  - apply Hk. by eapply holds_kept.
  - by eapply holds_kept.
  - done.
Qed.

Lemma ws_start_spec b b1 : holds b None None b1 -> then_holds b None None (fun ws => (Some ws, None)) (ws_start o b1).
Proof.
  intros [H1 H2 H3 H4 H5 H6 H7 H8]. unfold ws_start, bind, on_ws, modify, ret. cbn [one_of] in *.
  destruct (ws_connect_spec (wsw b1) H1) as (r & w & -> & Hw & Hr). destruct r as [id|ex|]; [| |done]; cbn.
  - destruct Hr as [Hf Ho]. rewrite H4, union_empty_l_L in Hf. split; cbn; try done.
    + by rewrite H3, union_empty_l_L.
    + by rewrite Ho, H4, union_empty_l_L.
    + set_solver.
  - destruct Hr as [Ho _]. split; cbn; try done. by rewrite Ho.
Qed.

Lemma open_passive_spec b b1 : holds b None None b1 -> then_holds b None None (fun ws => (Some ws, None)) (open_passive o b1).
Proof.
  intros Hh. apply then_holds_bind; [apply tidy_net, set_mode_settled|done|]. intros resp b2 H2.
  apply then_holds_bind; [apply tidy_assert|done|]. intros _ b3 H3.
  apply then_holds_bind; [apply tidy_sleep|done|]. intros _ b4 H4. by apply ws_start_spec.
Qed.

Lemma open_chardev_spec is_qemu b ws b1 :
  holds b (Some ws) None b1 -> then_holds b (Some ws) None (fun sock => (Some ws, Some sock)) (open_chardev o is_qemu b1).
Proof.
  intros [H1 H2 H3 H4 H5 H6 H7 H8]. unfold open_chardev, try_except, open_uart, raise. cbn [one_of] in *.
  destruct (uart_connect o (dev (net b1))) as [[ex|] d] eqn:E.
  - rewrite (fair_connect _ _ Hfair (dev (net b1)) ex) by (by rewrite E). split; cbn; try done. intros i Hi%H8. lia.
  - split; cbn; try done.
    + rewrite H2. set_solver.
    + assert (next_uart b1 ∉ uarts b1) as Hn by (intros Hi%H8; lia). rewrite H2 in Hn. set_solver.
    + intros i. rewrite elem_of_union, elem_of_singleton. intros [->|Hi%H8]; lia.
Qed.

Lemma holds_start b : bench_ok b -> holds b None None b.
Proof. intros [H1 H2 H3]. split; cbn; try done; set_solver. Qed.

(** What [with_sniffer] does once it has read the mode. *)
Lemma with_sniffer_try {A} is_qemu (body : nat -> eff B A) mode b b1 :
  holds b None None b1 -> (forall sock, tidy (body sock)) ->
  let t := or_finally (open_passive o) (clean_up o None None mode) (fun ws =>
    or_finally (sleep (1 # 5) ;;; open_chardev o is_qemu) (clean_up o (Some ws) None mode) (fun sock =>
      try_finally (body sock) (clean_up o (Some ws) (Some sock) mode))) in
  settled (t b1).1 /\ returned mode b (t b1).2.
Proof.
  intros Hh Hbody. cbn zeta. apply or_finally_spec with (held := fun ws => (Some ws, None)).
  { by apply open_passive_spec. }
  intros ws b2 H2. cbn [fst snd] in H2. apply or_finally_spec with (held := fun sock => (Some ws, Some sock)).
  { apply then_holds_bind; [apply tidy_sleep|done|]. intros _ b3 H3. by apply open_chardev_spec. }
  intros sock b4 H4. cbn [fst snd] in H4. destruct (Hbody sock b4) as [Hs4 Hk4].
  destruct (leave_try b (Some ws) (Some sock) mode _ _ Hs4 (holds_kept _ _ _ _ _ Hk4 H4)) as [R1 R2].
  unfold try_finally, lift in *. by destruct (body sock b4) as [[x|ex|] b5].
Qed.

Lemma with_sniffer_spec {A} is_qemu (body : nat -> eff B A) b :
  bench_ok b -> (forall sock, tidy (body sock)) ->
  let '(r, b') := with_sniffer o is_qemu body b in
  settled r /\ uarts b' = uarts b /\ pinging b' = pinging b /\ open_ws (wsw b') = open_ws (wsw b) /\
  (forall resp j mode, (http o info_request (dev (net b))).1 = Ok resp -> status_code resp = 200 ->
     resp_json resp = Ok j -> port_mode_of_info j = Ok mode -> last (log (net b')) = Some (mode_request 1 mode)).
Proof.
  intros Hb Hbody. unfold with_sniffer, get_info, http_get, bind at 1, on_net.
  destruct (session_request_spec (http o) info_request (net b)) as (r & d & t & c & E & Hd & _).
  change (session_request (http o) (Request GET "/info" None (scalar 10)) (net b)) with (session_request (http o) info_request (net b)).
  rewrite E, Hd. cbn [fst]. set (b1 := Bench _ (wsw b) (pinging b) (uarts b) (next_uart b) (trace b)).
  assert (kept b b1) as Hk by by split.
  assert (settled r) as Hr by (pose proof (fair_http _ _ Hfair info_request (dev (net b))) as H; by rewrite Hd in H).
  destruct r as [resp|ex|]; [| |done]; [|by split_and!].
  unfold bind at 1. destruct (status_code resp =? 200) eqn:E2; [|split_and!; try done; intros ? ? ? [= <-] ?; bool_to_prop; congruence].
  unfold assert, ret. unfold bind at 1, lift.
  destruct (resp_json resp) as [j|ex|] eqn:Ej; [|by split_and!; try done; intros ? ? ? [= <-] ?; congruence|].
  2: { unfold resp_json in Ej. destruct (body_json resp); done. }
  unfold bind at 1. destruct (port_mode_of_info j) as [mode|ex|] eqn:Em.
  - destruct (with_sniffer_try is_qemu body mode b b1 (holds_kept _ _ _ _ _ Hk (holds_start _ Hb)) Hbody) as [Hs [R1 R2 R3 R4]].
    destruct (or_finally _ _ _ b1) as [r2 b2]. cbn [fst snd] in *. split_and!; try done. intros ? ? ? [= <-] ? ? ?. congruence.
  - split_and!; try done. intros ? ? ? [= <-] ? ? ?. congruence.
  - unfold port_mode_of_info in Em. destruct j; try done. cbn in Em. destruct (jget "rs485_1" fields) as [v|]; [|done]. by destruct v.
Qed.

End Tidy.

(** The seven tests of the file. *)
Definition timing_tests {D} (o : outside D) (fuel : nat) (is_qemu : bool) : list (eff (bench D) unit) :=
  [test_sniffer_fast_response_master_slave_pair o fuel is_qemu;
   test_sniffer_slow_response_timeout_then_orphan_slave o fuel is_qemu;
   test_sniffer_no_response_only_timeout o fuel is_qemu;
   test_sniffer_master_emitted_immediately o fuel is_qemu;
   test_sniffer_no_response_master_then_timeout o fuel is_qemu;
   test_sniffer_slow_response_three_events o fuel is_qemu;
   test_sniffer_dead_slave_polled_twice o fuel is_qemu].

(** Each of them is the shared scaffolding around a body that holds on to
    nothing, and a verdict after it. *)
Definition shaped {D} (o : outside D) (is_qemu : bool) (test : eff (bench D) unit) : Prop :=
  exists (A : Type) (body : nat -> eff (bench D) A) (k : A -> outcome unit),
    (forall sock, tidy (body sock)) /\ (forall x, settled (k x)) /\
    forall b, test b = bind (with_sniffer o is_qemu body) (fun x => lift (k x)) b.

Lemma shaped_whole {D} (o : outside D) is_qemu body :
  (forall sock, tidy (body sock)) -> shaped o is_qemu (with_sniffer o is_qemu body).
Proof.
  intros H. exists unit, body, (fun _ => Ok tt). split; [done|]. split; [done|]. intros b. unfold bind, lift.
  by destruct (with_sniffer o is_qemu body b) as [[[]|ex|] b1].
Qed.

Lemma tidy_verdict {D} (o : outside D) fuel n t checks :
  fair o fuel -> (t <= 5)%Q -> tidy (let* packets := collect o fuel n t in lift (judge_packets checks packets)).
Proof.
  intros Hf Ht. apply tidy_bind; [by apply tidy_collect|]. intros. apply tidy_lift, judge_settled.
Qed.

Lemma shaped_timing {D} (o : outside D) fuel is_qemu delay t n checks :
  fair o fuel -> (t <= 5)%Q ->
  shaped o is_qemu (let* packets := _run_sniffer_timing_test o fuel is_qemu delay t n in lift (judge_packets checks packets)).
Proof.
  intros Hf Ht. eexists (list json), _, (fun ps => judge_packets checks ps).
  split; [|split; [intros; apply judge_settled|intros b; reflexivity]]. intros sock.
  apply tidy_bind; [by apply tidy_lift|intros f]. apply tidy_bind; [apply tidy_inject|intros _]. apply tidy_bind.
  - destruct delay; [|apply tidy_ret]. apply tidy_bind; [apply tidy_sleep|intros; apply tidy_inject].
  - intros _. by apply tidy_collect.
Qed.

Lemma timing_tests_shaped {D} (o : outside D) fuel is_qemu test :
  fair o fuel -> test ∈ timing_tests o fuel is_qemu -> shaped o is_qemu test.
Proof.
  intros Hf. unfold timing_tests. rewrite !elem_of_cons, elem_of_nil.
  intros [->|[->|[->|[->|[->|[->|[->|[]]]]]]]].
  - by apply shaped_timing.
  - by apply shaped_timing.
  - apply shaped_timing; [done|]. vm_compute. discriminate.
  - apply shaped_whole. intros sock. apply tidy_bind; [apply tidy_inject|intros _]. by apply tidy_verdict.
  - apply shaped_whole. intros sock. apply tidy_bind; [apply tidy_inject|intros _]. by apply tidy_verdict.
  - apply shaped_whole. intros sock. apply tidy_bind; [by apply tidy_lift|intros f].
    apply tidy_bind; [apply tidy_inject|intros _]. apply tidy_bind; [apply tidy_sleep|intros _].
    apply tidy_bind; [apply tidy_inject|intros _]. by apply tidy_verdict.
  - apply shaped_whole. intros sock. apply tidy_bind; [apply tidy_inject|intros _].
    apply tidy_bind; [apply tidy_sleep|intros _]. apply tidy_bind; [apply tidy_inject|intros _].
    apply tidy_bind; [apply tidy_sleep|intros _]. by apply tidy_verdict.
Qed.

(** The computation leaves at most [n] unconnected sockets behind. *)
Definition leaves {D A} (n : nat) (m : eff (bench D) A) : Prop := forall b,
  (unconnected (trace b) <= unconnected (trace (m b).2) <= n + unconnected (trace b))%nat.

Lemma leaves_kept {D A} (m : eff (bench D) A) :
  (forall b, unconnected (trace (m b).2) = unconnected (trace b)) -> leaves 0 m.
Proof. intros H b. rewrite H. lia. Qed.

Lemma leaves_bind {D A C} n1 n2 (m : eff (bench D) A) (k : A -> eff (bench D) C) :
  leaves n1 m -> (forall a, leaves n2 (k a)) -> leaves (n1 + n2) (bind m k).
Proof.
  intros Hm Hk b. unfold bind. specialize (Hm b). destruct (m b) as [[a|e|] b1]; cbn in *; [|lia|lia].
  specialize (Hk a b1). lia.
Qed.

Lemma leaves_try {D A} n1 n2 (m : eff (bench D) A) f : leaves n1 m -> leaves n2 f -> leaves (n1 + n2) (try_finally m f).
Proof.
  intros Hm Hf b. unfold try_finally. specialize (Hm b). destruct (m b) as [[a|e|] b1]; cbn in *; [| |lia];
    specialize (Hf b1); destruct (f b1) as [[[]|e2|] b2]; cbn in *; lia.
Qed.

Lemma leaves_or {D A C} n1 n2 (m : eff (bench D) A) f (k : A -> eff (bench D) C) :
  leaves n1 m -> leaves 0 f -> (forall a, leaves n2 (k a)) -> leaves (n1 + n2) (or_finally m f k).
Proof.
  intros Hm Hf Hk b. unfold or_finally. specialize (Hm b). destruct (m b) as [[a|e|] b1]; cbn in *; [| |lia].
  - specialize (Hk a b1). lia.
  - specialize (Hf b1). unfold try_finally, lift. destruct (f b1) as [[[]|e2|] b2]; cbn in *; lia.
Qed.

Lemma leaves_net {D A} (m : eff (aworld D) A) : leaves 0 (on_net m).
Proof. apply leaves_kept. intros b. unfold on_net. by destruct (m (net b)). Qed.
Lemma leaves_lift {D A} (r : outcome A) : leaves (D := D) 0 (lift r).
Proof. by apply leaves_kept. Qed.
Lemma leaves_assert {D} c : leaves (D := D) 0 (assert c).
Proof. apply leaves_kept. intros b. by destruct c. Qed.
Lemma leaves_ws {D A} (m : eff ws_world A) : leaves (D := D) 0 (on_ws m).
Proof. apply leaves_kept. intros b. unfold on_ws. by destruct (m (wsw b)). Qed.

Section Leaves.
Context {D : Type} (o : outside D) (fuel : nat).

Lemma leaves_inject data sock : leaves 0 (inject o data sock).
Proof.
  apply leaves_kept. intros b. unfold inject. destruct (decide _); [|done].
  by destruct (uart_send o data (dev (net b))).
Qed.

Lemma leaves_collect n t : leaves 0 (collect o fuel n t).
Proof. apply leaves_kept. intros b. unfold collect. by destruct (_collect_packets _ _ _ _ _ _). Qed.

Lemma leaves_clean_up ws sock mode : leaves 0 (clean_up o ws sock mode).
Proof.
  apply (leaves_bind 0 0); [|intros _; apply (leaves_bind 0 0); [|intros _]].
  - apply leaves_kept. intros b. unfold close_uart. repeat case_match; done.
  - destruct ws as [i|]; [|by apply leaves_kept]. apply (leaves_bind 0 0); [by apply leaves_kept|intros _].
    apply (leaves_bind 0 0); [|intros _; apply leaves_ws]. apply leaves_kept. intros b. unfold try_except.
    destruct (ws_stop o i) as [e|]; [cbn; by destruct (catches Exception_ e)|done].
  - apply (leaves_bind 0 0); [apply leaves_net|intros resp; apply leaves_assert].
Qed.

(** Only a failed connect does. *)
Lemma leaves_chardev is_qemu (k : nat) :
  (k = 1%nat \/ forall d, (uart_connect o d).1 = None) -> leaves k (open_chardev o is_qemu).
Proof.
  intros Hk b. unfold open_chardev, try_except, open_uart.
  destruct (uart_connect o (dev (net b))) as [[e|] d] eqn:E; [|cbn; lia].
  destruct Hk as [->|H]; [|specialize (H (dev (net b))); by rewrite E in H].
  destruct (catches OSError e); cbn; lia.
Qed.

Lemma leaves_with_sniffer {A} is_qemu (body : nat -> eff (bench D) A) (k : nat) :
  (k = 1%nat \/ forall d, (uart_connect o d).1 = None) -> (forall sock, leaves 0 (body sock)) ->
  leaves k (with_sniffer o is_qemu body).
Proof.
  intros Hk Hb. unfold with_sniffer.
  apply (leaves_bind 0 k); [apply leaves_net|intros resp]. apply (leaves_bind 0 k); [apply leaves_assert|intros _].
  apply (leaves_bind 0 k); [apply leaves_lift|intros j]. apply (leaves_bind 0 k); [apply leaves_lift|intros mode].
  apply (leaves_or 0 k); [|apply leaves_clean_up|intros ws].
  { apply (leaves_bind 0 0); [apply leaves_net|intros r]. apply (leaves_bind 0 0); [apply leaves_assert|intros _].
    apply (leaves_bind 0 0); [apply leaves_net|intros _]. apply (leaves_bind 0 0); [apply leaves_ws|intros i].
    apply (leaves_bind 0 0); [by apply leaves_kept|intros _; by apply leaves_kept]. }
  replace k with (k + 0)%nat by lia. apply leaves_or; [|apply leaves_clean_up|intros sock].
  { apply (leaves_bind 0 k); [apply leaves_net|intros _]. by apply leaves_chardev. }
  apply (leaves_try 0 0); [apply Hb|apply leaves_clean_up].
Qed.

Lemma leaves_timing is_qemu k test :
  (k = 1%nat \/ forall d, (uart_connect o d).1 = None) -> test ∈ timing_tests o fuel is_qemu -> leaves k test.
Proof.
  intros Hk. unfold timing_tests. rewrite !elem_of_cons, elem_of_nil.
  assert (forall delay t n checks,
    leaves k (let* packets := _run_sniffer_timing_test o fuel is_qemu delay t n in lift (judge_packets checks packets))) as Ht.
  { intros delay t n checks. replace k with (k + 0)%nat by lia. apply leaves_bind; [|intros; apply leaves_lift].
    apply leaves_with_sniffer; [done|]. intros sock. apply (leaves_bind 0 0); [apply leaves_lift|intros f].
    apply (leaves_bind 0 0); [apply leaves_inject|intros _]. apply (leaves_bind 0 0); [|intros; apply leaves_collect].
    destruct delay; [|by apply leaves_kept]. apply (leaves_bind 0 0); [apply leaves_net|intros; apply leaves_inject]. }
  intros [->|[->|[->|[->|[->|[->|[->|[]]]]]]]]; try apply Ht;
    (apply leaves_with_sniffer; [done|]; intros sock;
     repeat first [apply leaves_inject | apply leaves_collect | apply leaves_lift | apply leaves_net
       | apply (leaves_bind 0 0); [|intros ?]]).
Qed.

End Leaves.

(** Whatever the device does, each timing test ends, and leaves no connected UART socket, no WebSocket connection and no ping thread of its own behind; once it has read the port mode, its last request writes exactly that mode back.  The one thing it can leave is the socket of a UART connect that failed. *)
Theorem timing_tests_clean_up {D} (o : outside D) fuel is_qemu test b :
  fair o fuel -> bench_ok b -> test ∈ timing_tests o fuel is_qemu ->
  let '(r, b') := test b in
  settled r /\ uarts b' = uarts b /\ pinging b' = pinging b /\ open_ws (wsw b') = open_ws (wsw b) /\
  (unconnected (trace b') <= S (unconnected (trace b)))%nat /\
  ((forall d, (uart_connect o d).1 = None) -> unconnected (trace b') = unconnected (trace b)) /\
  (forall resp j mode, (http o info_request (dev (net b))).1 = Ok resp -> status_code resp = 200 ->
     resp_json resp = Ok j -> port_mode_of_info j = Ok mode -> last (log (net b')) = Some (mode_request 1 mode)).
Proof.
  intros Hfair Hb Hin. pose proof (fun k Hk => leaves_timing o fuel is_qemu k test Hk Hin b) as Hl.
  destruct (timing_tests_shaped o fuel is_qemu test Hfair Hin) as (A & body & k & Hbody & Hk & E).
  rewrite E in *. pose proof (with_sniffer_spec o fuel Hfair is_qemu body b Hb Hbody) as H. unfold bind, lift in *.
  destruct (with_sniffer o is_qemu body b) as [r b']. destruct H as (Hs & H1 & H2 & H3 & H4).
  assert (unconnected (trace b') <= S (unconnected (trace b)))%nat as Hle.
  { specialize (Hl 1%nat (or_introl eq_refl)). destruct r; cbn in Hl; lia. }
  assert ((forall d, (uart_connect o d).1 = None) -> unconnected (trace b') = unconnected (trace b)) as Heq.
  { intros Hc. specialize (Hl 0%nat (or_intror Hc)). destruct r; cbn in Hl; lia. }
  destruct r as [x|ex|]; [|by split_and!|done]. by split_and!.
Qed.

(** ** A device that cooperates *)

(** It accepts every request and connection; requests keep [I], and from the
    WebSocket on it is in [J]. *)
Record cooperative {D} (o : outside D) (I J : D -> Prop) : Prop := {
  co_http : forall q d, exists resp d', http o q d = (Ok resp, d') /\ status_code resp = 200 /\ (I d -> I d');
  co_ws : forall ws d, I d -> J (ws_opened o ws d);
  co_info : forall d resp, (http o info_request d).1 = Ok resp ->
    exists j mode, resp_json resp = Ok j /\ port_mode_of_info j = Ok mode;
  co_connect : forall d, J d -> exists d', uart_connect o d = (None, d') /\ J d';
  co_close : forall n e, uart_close o n = Some e -> catches OSError e = true;
  co_stop : forall n e, ws_stop o n = Some e -> catches Exception_ e = true
}.

(** A bench on which the WebSocket connects. *)
Definition ws_plain (w : ws_world) : Prop :=
  ws_sane w /\ (forall n, ws_connect_err w n = None) /\ ws_send_err w = None.

Lemma ws_connect_plain w : ws_plain w -> exists id w', _ws_connect w = (Ok id, w') /\ ws_sane w'.
Proof.
  intros (Hs & Hc & Hse). destruct (ws_connect_spec w Hs) as (r & w' & E & Hs' & _).
  assert (is_ok r = true) as Hr.
  { unfold _ws_connect, bind, attempts, try_except, bind, handshake in E. rewrite Hc in E. cbn in E. rewrite Hse in E.
    by injection E as <- _. }
  destruct r as [id|ex|]; try done. eauto.
Qed.

Section Run.
Context {D : Type} (o : outside D) (I J : D -> Prop) (Hco : cooperative o I J).
Notation B := (bench D).

Lemma request_accepted q a :
  exists resp a', session_request (http o) q a = (Ok resp, a') /\ status_code resp = 200 /\
    (http o q (dev a)).1 = Ok resp /\ (I (dev a) -> I (dev a')).
Proof.
  destruct (session_request_spec (http o) q a) as (r & d & t & c & -> & Hd & _).
  destruct (co_http _ _ _ Hco q (dev a)) as (resp & d' & E & Hst & HI). rewrite E in Hd. injection Hd as <- <-.
  eexists _, _. split; [done|]. by rewrite E.
Qed.

Lemma set_mode_accepted mode a :
  exists resp a', set_port_mode_default (http o) 1 mode a = (Ok resp, a') /\ status_code resp = 200 /\ (I (dev a) -> I (dev a')).
Proof.
  unfold set_port_mode_default, set_port_mode. cbn [mode_attempts]. unfold bind at 1.
  destruct (request_accepted (mode_request 1 mode) a) as (resp & a' & -> & Hs & _ & HI).
  assert (transient resp = false) as -> by (unfold transient; by rewrite Hs). eexists _, _. by split_and!.
Qed.

Lemma clean_up_ok ws sock mode b : ws_sane (wsw b) -> exists b', clean_up o ws sock mode b = (Ok tt, b') /\ trace b' = trace b.
Proof.
  intros Hw. unfold clean_up, bind.
  assert (exists b1, close_uart o sock b = (Ok tt, b1) /\ wsw b1 = wsw b /\ trace b1 = trace b) as (b1 & -> & W1 & T1).
  { destruct sock as [i|]; cbn; [|by eexists].
    destruct (uart_close o i) as [ex|] eqn:E; [rewrite (co_close _ _ _ Hco i ex E)|]; by eexists. }
  assert (exists b2, close_ws o ws b1 = (Ok tt, b2) /\ trace b2 = trace b1) as (b2 & -> & T2).
  { rewrite <- W1 in Hw. destruct ws as [i|]; cbn; [|by eexists]. unfold bind, modify, try_except, on_ws.
    destruct (ws_stop o i) as [ex|] eqn:E; [cbn [raise]; rewrite (co_stop _ _ _ Hco i ex E)|]; cbn;
      rewrite close_quietly_spec by done; by eexists. }
  unfold restore_mode, bind, on_net. destruct (set_mode_accepted mode (net b2)) as (resp & a & -> & -> & _).
  eexists. split; [done|]. cbn. congruence.
Qed.

Lemma open_passive_runs b :
  ws_plain (wsw b) -> I (dev (net b)) ->
  exists id b1, open_passive o b = (Ok id, b1) /\ ws_sane (wsw b1) /\ J (dev (net b1)) /\ trace b1 = trace b.
Proof.
  intros Hw HI. unfold open_passive, bind at 1, on_net.
  destruct (set_mode_accepted (JStr "passive") (net b)) as (resp & a & -> & Hs & HIa). specialize (HIa HI). rewrite Hs.
  unfold assert, ret, bind, sleep, on_net, asleep, modify, ws_start, on_ws, bind, modify. cbn [Z.eqb Pos.eqb net wsw pinging uarts next_uart].
  destruct (ws_connect_plain _ Hw) as (id & w' & -> & Hw'). eexists _, _. split; [reflexivity|]. split; [done|].
  split; [by apply (co_ws _ _ _ Hco)|done].
Qed.

Lemma open_chardev_runs is_qemu b :
  J (dev (net b)) ->
  exists sock b1, (sleep (1 # 5) ;;; open_chardev o is_qemu) b = (Ok sock, b1) /\ sock ∈ uarts b1 /\ wsw b1 = wsw b /\
    J (dev (net b1)) /\ trace b1 = trace b.
Proof.
  intros HI. unfold bind, sleep, on_net, asleep, modify, open_chardev, try_except, open_uart. cbn [net dev wsw pinging uarts next_uart].
  destruct (co_connect _ _ _ Hco _ HI) as (d & -> & HId). eexists _, _. split; [reflexivity|]. cbn. split; [set_solver|]. by split_and!.
Qed.

(** Then the scaffolding runs the body and ends as it does. *)
Lemma with_sniffer_ends {A} is_qemu (body : nat -> eff B A) (P : outcome A -> bench_trace -> Prop) b :
  ws_plain (wsw b) -> I (dev (net b)) ->
  (forall sock b1, sock ∈ uarts b1 -> J (dev (net b1)) -> trace b1 = trace b ->
     exists r b2, body sock b1 = (r, b2) /\ settled r /\ P r (trace b2) /\ wsw b2 = wsw b1) ->
  exists r b', with_sniffer o is_qemu body b = (r, b') /\ P r (trace b').
Proof.
  intros Hw HI Hbody. unfold with_sniffer, get_info, http_get, bind at 1, on_net.
  change (Request GET "/info" None (scalar 10)) with info_request.
  destruct (request_accepted info_request (net b)) as (resp & a & -> & Hs & Hr & HIa). specialize (HIa HI).
  destruct (co_info _ _ _ Hco _ _ Hr) as (j & mode & Ej & Em). rewrite Hs. unfold assert, ret, lift, bind at 1 2 3. cbn [Z.eqb Pos.eqb].
  rewrite Ej, Em. set (b0 := Bench a (wsw b) (pinging b) (uarts b) (next_uart b) (trace b)).
  destruct (open_passive_runs b0 Hw HIa) as (ws & b1 & E1 & Hw1 & HI1 & T1).
  destruct (open_chardev_runs is_qemu b1 HI1) as (sock & b2 & E2 & Hin & Hw2 & HI2 & T2).
  destruct (Hbody sock b2 Hin HI2) as (r & b3 & E3 & Hset & HP & Hw3); [by rewrite T2, T1|].
  unfold or_finally at 1. rewrite E1. unfold or_finally. rewrite E2. unfold try_finally. rewrite E3.
  destruct (clean_up_ok (Some ws) (Some sock) mode b3) as (b4 & -> & T4); [by rewrite Hw3, Hw2|].
  destruct r as [x|e|]; [| |done]; eexists _, _; (split; [reflexivity|]); by rewrite T4.
Qed.

End Run.

(** [_collect_packets] stops as soon as it has the number asked for: the
    messages behind those are not read. *)
Definition parsed (m : string) (p : json) : Prop := m <> "" /\ loads m = Ok p.

Lemma collect_loop_takes (clock : nat -> Q) deadline rest n k fuel read ms qs :
  (k < fuel)%nat -> length read = (n - k)%nat -> (k <= n)%nat -> length ms = k -> Forall2 parsed ms qs ->
  (forall i, (1 <= i <= n)%nat -> (clock i < deadline)%Q) ->
  exists w', collect_loop loads (fun _ => true) fuel (Z.of_nat n) deadline read
    (InboxWorld ((Ok <$> ms) ++ rest) clock (n - k + 1)) = (Ok (read ++ qs), w').
Proof.
  revert fuel read ms qs. induction k as [|k IH]; intros fuel read ms qs Hfuel Hd Hk Hms Hqs Hc;
    (destruct fuel as [|fuel]; [lia|]).
  - destruct ms; [|done]. apply Forall2_nil_inv_l in Hqs as ->.
    cbn [collect_loop]. unfold bind, imonotonic, ret. rewrite app_nil_r.
    destruct (Qle_bool _ _); [by eexists|]. assert ((Z.of_nat n <=? zlen read) = true) as ->; [|by eexists].
    apply Z.leb_le. unfold zlen. lia.
  - destruct ms as [|m ms]; [done|]. apply Forall2_cons_inv_l in Hqs as (q & qs' & [Hm Hl] & Hqs & ->).
    rewrite fmap_cons. change ((Ok m :: (Ok <$> ms)) ++ rest) with (Ok m :: ((Ok <$> ms) ++ rest)).
    cbn [collect_loop]. unfold bind at 1, imonotonic. cbn [iclock inbox ireadings].
    assert (Qle_bool deadline (clock (n - S k + 1)%nat) = false) as ->.
    { apply not_true_is_false. rewrite Qle_bool_iff. specialize (Hc (n - S k + 1)%nat ltac:(lia)). lra. }
    assert ((Z.of_nat n <=? zlen read) = false) as -> by (apply Z.leb_gt; unfold zlen; lia).
    unfold bind at 1, take_packet, try_except, bind at 1, ws_recv. cbn [inbox].
    assert (String.eqb m "" = false) as -> by (by apply String.eqb_neq). unfold bind, lift. rewrite Hl. unfold ret.
    destruct (IH fuel (read ++ [q]) ms qs') as [w' E]; try done; try lia; [rewrite length_app; cbn; lia|cbn in Hms; lia|].
    replace (n - k + 1)%nat with (S (n - S k + 1)) in E by lia. rewrite <- app_assoc in E. eexists. exact E.
Qed.

(** A message that comes within the timeout takes one call; a later one, a
    call that times out first. *)
Lemma recv_calls_prompt wait m rest : (0 <= wait <= 5)%Q ->
  exists w, recv_calls ((wait, m) :: rest) = (w, m) :: recv_calls rest /\ (w == wait)%Q.
Proof.
  intros [H0 H5]. change (recv_calls ((wait, m) :: rest)) with (recv_calls_for wait m ++ recv_calls rest).
  unfold recv_calls_for. assert (Z.to_nat (Qceiling (wait / RECV_TIMEOUT_S) - 1) = 0%nat) as ->.
  { pose proof (Qceiling_lt (wait / RECV_TIMEOUT_S)) as H. unfold RECV_TIMEOUT_S in *.
    assert (wait / 5 <= 1)%Q as H1 by (apply Qle_shift_div_r; lra).
    assert (inject_Z (Qceiling (wait / 5) - 1) < inject_Z 1)%Q as H2 by (eapply Qlt_le_trans; [exact H|exact H1]).
    rewrite <- Zlt_Qlt in H2. lia. }
  eexists. split; [reflexivity|]. unfold RECV_TIMEOUT_S. change (inject_Z (Z.of_nat 0)) with 0%Q. lra.
Qed.

Lemma recv_calls_late wait m rest : (5 < wait)%Q ->
  exists calls, recv_calls ((wait, m) :: rest) = (RECV_TIMEOUT_S, Raise WebSocketTimeoutException) :: calls.
Proof.
  intros H5. change (recv_calls ((wait, m) :: rest)) with (recv_calls_for wait m ++ recv_calls rest).
  unfold recv_calls_for. destruct (Z.to_nat (Qceiling (wait / RECV_TIMEOUT_S) - 1)) as [|n] eqn:En; [|by eexists].
  exfalso. pose proof (Qle_ceiling (wait / RECV_TIMEOUT_S)) as H. unfold RECV_TIMEOUT_S in *.
  assert (1 < wait / 5)%Q as H1 by (apply Qlt_shift_div_l; lra).
  assert (inject_Z 1 < inject_Z (Qceiling (wait / 5)))%Q as H2 by (eapply Qlt_le_trans; [exact H1|exact H]).
  rewrite <- Zlt_Qlt in H2. lia.
Qed.

Lemma recv_calls_app l l' : recv_calls (l ++ l') = recv_calls l ++ recv_calls l'.
Proof. apply bind_app. Qed.

Lemma recv_calls_all_prompt (msgs : list (Q * string)) :
  Forall (fun x => (0 <= x.1 <= 5)%Q) msgs ->
  (recv_calls ((fun x => (x.1, Ok x.2)) <$> msgs)).*2 = Ok <$> msgs.*2.
Proof.
  induction 1 as [|[w m] msgs Hw _ IH]; [done|]. rewrite fmap_cons. cbn [fst snd].
  destruct (recv_calls_prompt w (Ok m) ((fun x => (x.1, Ok x.2)) <$> msgs) Hw) as (w' & -> & _).
  rewrite !fmap_cons. cbn [snd]. by rewrite IH.
Qed.

(** What [collect] leaves of the record when it returns [ps]. *)
Definition has_collected {D} (b : bench D) (ps : list json) (b' : bench D) : Prop :=
  trace b' = Trace (injected (trace b)) (collected (trace b) ++ [ps]) (unconnected (trace b)).

Lemma collect_takes {D} (o : outside D) fuel n t b (msgs : list (Q * string)) ps rest :
  let d := dev (net b) in
  ws_inbox o d = ((fun x => (x.1, Ok x.2)) <$> msgs) ++ rest ->
  length msgs = n -> (n < fuel)%nat -> Forall2 parsed msgs.*2 ps -> Forall (fun x => (0 <= x.1 <= 5)%Q) msgs ->
  (forall i, (1 <= i <= n)%nat ->
     (ws_lapse o d i + waited (pred i) (recv_calls (ws_inbox o d)) < ws_lapse o d 0 + t)%Q) ->
  exists b', collect o fuel (Z.of_nat n) t b = (Ok ps, b') /\ wsw b' = wsw b /\ has_collected b ps b'.
Proof.
  intros d Hin Hn Hf Hps Hwt Hc. unfold collect. fold d. set (calls := recv_calls (ws_inbox o d)) in *.
  set (clock := fun i => (now (net b) + ws_lapse o d i + waited (pred i) calls)%Q).
  assert (calls.*2 = (Ok <$> msgs.*2) ++ (recv_calls rest).*2) as Hcalls.
  { unfold calls. by rewrite Hin, recv_calls_app, fmap_app, recv_calls_all_prompt. }
  destruct (collect_loop_takes clock (clock 0%nat + t)%Q (recv_calls rest).*2 n n fuel [] msgs.*2 ps) as [w' E];
    try done; try lia; [cbn; lia|by rewrite length_fmap| |].
  { intros i Hi. specialize (Hc i Hi). unfold clock. cbn [pred].
    assert (waited 0 calls == 0)%Q as H0 by reflexivity. lra. }
  unfold _collect_packets, bind, imonotonic. cbn [iclock ireadings inbox]. rewrite Hcalls.
  replace (n - n + 1)%nat with 1%nat in E by lia. rewrite E. by eexists.
Qed.

(** Nothing within the timeout, and the window over by then. *)
Lemma collect_misses {D} (o : outside D) fuel t b wait m rest :
  let d := dev (net b) in
  ws_inbox o d = (wait, m) :: rest -> (5 < wait)%Q -> (2 < fuel)%nat -> (t <= 5)%Q ->
  (ws_lapse o d 1 < ws_lapse o d 0 + t)%Q -> (ws_lapse o d 0 <= ws_lapse o d 2)%Q ->
  exists b', collect o fuel 1 t b = (Ok [], b') /\ wsw b' = wsw b.
Proof.
  intros d Hin Hw Hf Ht H1 H2. unfold collect. fold d. rewrite Hin.
  destruct (recv_calls_late wait m rest Hw) as (calls & ->). rewrite fmap_cons. cbn [snd].
  set (all := (RECV_TIMEOUT_S, _) :: calls).
  set (clock := fun i => (now (net b) + ws_lapse o d i + waited (pred i) all)%Q).
  assert (waited 0 all == 0 /\ waited 1 all == 5)%Q as [Ha Hb].
  { split; [reflexivity|]. unfold waited, all. rewrite firstn_cons, firstn_O. cbn [fmap list_fmap fst foldr length].
    replace (1 - S (length calls))%nat with 0%nat by lia. reflexivity. }
  assert (Qle_bool (clock 0%nat + t) (clock 1%nat) = false) as E1.
  { apply not_true_is_false. rewrite Qle_bool_iff. unfold clock. cbn [pred]. lra. }
  assert (Qle_bool (clock 0%nat + t) (clock 2%nat) = true) as E2.
  { apply Qle_bool_iff. unfold clock. cbn [pred]. lra. }
  do 2 (destruct fuel as [|fuel]; [lia|]). unfold _collect_packets, bind, imonotonic. cbn [iclock ireadings inbox].
  cbn [collect_loop]. unfold bind, imonotonic. cbn [iclock ireadings inbox]. rewrite E1.
  change (1 <=? zlen []) with false. unfold take_packet, try_except, bind, ws_recv. cbn [inbox iclock ireadings].
  assert (ignored WebSocketTimeoutException = true) as -> by reflexivity. unfold ret. cbn [app iclock ireadings inbox].
  rewrite E2. by eexists.
Qed.

(** ** What the early stop hides *)

(** The text of a MASTER packet for our slave. *)
Definition master_text (m : string) : Prop :=
  exists p, parsed m p /\ matches OURS p = Ok true /\ matches MASTER3 p = Ok true.

Lemma jeq_str y s : jeq y (JStr s) = true -> y = JStr s.
Proof. destruct y; cbn; try done. intros H%String.eqb_eq. by subst. Qed.

Lemma matches_first k v tests p :
  matches ((k, JStr v) :: tests) p = Ok true ->
  (forall s rest, s <> v -> matches ((k, JStr s) :: rest) p = Ok false) /\
  (forall rest, matches ((k, JStr v) :: rest) p = matches rest p) /\ matches tests p = Ok true.
Proof.
  cbn [matches]. destruct (py_get k p) as [[y|]|ex|]; try done. cbn [obind]. destruct (jeq y (JStr v)) eqn:E; [|done].
  intros H. split_and!; [|done|done]. intros s rest Hs. apply jeq_str in E as ->. cbn.
  assert (String.eqb v s = false) as -> by (apply String.eqb_neq; congruence). done.
Qed.

Lemma master_not_other p : matches MASTER3 p = Ok true -> matches TIMEOUT p = Ok false /\ matches SLAVE p = Ok false.
Proof.
  intros H. destruct (matches_first _ _ _ _ H) as (H1 & H2 & H3). destruct (matches_first _ _ _ _ H3) as (H4 & _ & _).
  split; [by apply H1|]. unfold SLAVE. rewrite H2. by apply H4.
Qed.

Lemma judge_master p :
  matches OURS p = Ok true -> matches MASTER3 p = Ok true ->
  judge_packets [(MASTER3, at_least 1); (TIMEOUT, none); (SLAVE, none)] [p] = Ok tt /\ judge_packets [(MASTER3, at_least 1)] [p] = Ok tt.
Proof.
  intros Ho Hm. destruct (master_not_other _ Hm) as [Ht Hs]. unfold judge_packets. cbn [pick]. rewrite Ho. cbn [obind].
  cbn [judge_all pick]. rewrite Hm, Ht, Hs. by split.
Qed.

Lemma judge_nothing checks : judge_packets ((MASTER3, at_least 1) :: checks) [] = Raise AssertionError.
Proof. reflexivity. Qed.

(** The three tests around one receive: [verdict] of what [collect] returns. *)
Lemma one_packet_tests {D} (o : outside D) fuel is_qemu b (result : outcome unit) :
  cooperative o (fun _ => True) (fun _ => True) -> (forall data d, (uart_send o data d).1 = None) -> ws_plain (wsw b) ->
  (forall t b1, t ∈ [inject_Z SNIFFER_RESP_TIMEOUT_MS / 1000 + 1; 2; 15 # 100]%Q ->
     exists ps b2, collect o fuel 1 t b1 = (Ok ps, b2) /\ wsw b2 = wsw b1 /\
       judge_packets [(MASTER3, at_least 1); (TIMEOUT, none); (SLAVE, none)] ps = result /\
       judge_packets [(MASTER3, at_least 1)] ps = result) ->
  settled result ->
  forall test, test ∈ [test_sniffer_no_response_only_timeout o fuel is_qemu;
          test_sniffer_no_response_master_then_timeout o fuel is_qemu;
          test_sniffer_master_emitted_immediately o fuel is_qemu] -> (test b).1 = result.
Proof.
  intros Hco Hsend Hw Hcol Hset.
  assert (forall sock b1, sock ∈ uarts b1 -> exists b2, inject o req sock b1 = (Ok tt, b2) /\ wsw b2 = wsw b1) as Hinj.
  { intros sock b1 Hs. unfold inject. rewrite decide_True by done. specialize (Hsend req (dev (net b1))).
    destruct (uart_send o req (dev (net b1))) as [x d]. cbn in Hsend. subst x. by eexists. }
  intros test. rewrite !elem_of_cons, elem_of_nil. intros [->|[->|[->|[]]]].
  - unfold test_sniffer_no_response_only_timeout, _run_sniffer_timing_test, bind at 1.
    match goal with |- context [with_sniffer o is_qemu ?body b] =>
      destruct (with_sniffer_ends o _ _ Hco is_qemu body (fun r _ => exists ps, r = Ok ps /\
        judge_packets [(MASTER3, at_least 1); (TIMEOUT, none); (SLAVE, none)] ps = result) b Hw Logic.I)
        as (r & b' & -> & ps & -> & Hj) end; [|unfold lift; by rewrite Hj].
    intros sock b1 Hs _ _. unfold bind, lift. change resp_frame with (Ok (append_crc [0x15; 3; 2; 0x49; 0x88])).
    destruct (Hinj sock b1 Hs) as (b2 & -> & E2). unfold ret.
    destruct (Hcol (inject_Z SNIFFER_RESP_TIMEOUT_MS / 1000 + 1)%Q b2) as (ps & b3 & E & E3 & Hj & _); [by left|].
    rewrite E. exists (Ok ps), b3. split_and!; [done|done|by exists ps|congruence].
  - unfold test_sniffer_no_response_master_then_timeout.
    match goal with |- context [with_sniffer o is_qemu ?body b] =>
      destruct (with_sniffer_ends o _ _ Hco is_qemu body (fun r _ => r = result) b Hw Logic.I) as (r & b' & -> & Hr); [|done] end.
    intros sock b1 Hs _ _. unfold bind, lift. destruct (Hinj sock b1 Hs) as (b2 & -> & E2).
    destruct (Hcol 2%Q b2) as (ps & b3 & -> & E3 & Hj & _); [right; by left|].
    rewrite Hj. eexists _, _. split_and!; [done|done|done|congruence].
  - unfold test_sniffer_master_emitted_immediately.
    match goal with |- context [with_sniffer o is_qemu ?body b] =>
      destruct (with_sniffer_ends o _ _ Hco is_qemu body (fun r _ => r = result) b Hw Logic.I) as (r & b' & -> & Hr); [|done] end.
    intros sock b1 Hs _ _. unfold bind, lift. destruct (Hinj sock b1 Hs) as (b2 & -> & E2).
    destruct (Hcol (15 # 100)%Q b2) as (ps & b3 & -> & E3 & _ & Hj); [right; right; by left|].
    rewrite Hj. eexists _, _. split_and!; [done|done|done|congruence].
Qed.

(** C29. The tests for an unanswered request see one message only.  On a device that accepts the requests and whose next message is a MASTER packet for our slave, SN-SR-03, SN-SR-05 and SN-SR-04 pass whatever messages follow it (a TIMEOUT, a SLAVE packet), and even when the packet comes up to five seconds after they began to wait, far outside the windows of 1.2 s, 2 s and 0.15 s they ask for: they ask for one packet, stop at it, and look at the clock only before they wait.  The five seconds are those of [ws.settimeout(5)]: a packet that comes later makes all three fail. *)
Theorem no_response_tests_blind {D} (o : outside D) fuel is_qemu test b wait :
  cooperative o (fun _ => True) (fun _ => True) -> (forall data d, (uart_send o data d).1 = None) -> ws_plain (wsw b) ->
  (0 <= wait)%Q -> (forall d, exists m rest, ws_inbox o d = (wait, Ok m) :: rest /\ master_text m) ->
  (forall d, (ws_lapse o d 1 < ws_lapse o d 0 + (15 # 100))%Q /\ (ws_lapse o d 0 <= ws_lapse o d 2)%Q) -> (2 < fuel)%nat ->
  test ∈ [test_sniffer_no_response_only_timeout o fuel is_qemu;
          test_sniffer_no_response_master_then_timeout o fuel is_qemu;
          test_sniffer_master_emitted_immediately o fuel is_qemu] ->
  ((wait <= 5)%Q -> (test b).1 = Ok tt) /\ ((5 < wait)%Q -> (test b).1 = Raise AssertionError).
Proof.
  intros Hco Hsend Hw Hpos Hin Hclk Hfuel Htest.
  assert (forall t, t ∈ [inject_Z SNIFFER_RESP_TIMEOUT_MS / 1000 + 1; 2; 15 # 100]%Q -> (15 # 100 <= t <= 5)%Q) as Hts.
  { intros t. rewrite !elem_of_cons, elem_of_nil. intros [->|[->|[->|[]]]]; split; vm_compute; discriminate. }
  split; intros Hwait.
  - eapply (one_packet_tests o fuel is_qemu b); try done. intros t b1 [Ht _]%Hts.
    destruct (Hin (dev (net b1))) as (m & rest & Ein & p & Hp & Ho & Hm).
    destruct (collect_takes o fuel 1 t b1 [(wait, m)] [p] rest) as (b2 & E & Hw2 & _);
      [done|done|lia|by constructor|by repeat constructor| |].
    { intros i Hi. assert (i = 1%nat) as -> by lia. destruct (Hclk (dev (net b1))) as [Hc _]. cbn [pred].
      assert (waited 0 (recv_calls (ws_inbox o (dev (net b1)))) == 0)%Q as H0 by reflexivity. lra. }
    destruct (judge_master p Ho Hm). by exists [p], b2.
  - eapply (one_packet_tests o fuel is_qemu b); try done. intros t b1 Ht%Hts.
    destruct (Hin (dev (net b1))) as (m & rest & Ein & _). destruct (Hclk (dev (net b1))) as [Hc1 Hc2].
    destruct (collect_misses o fuel t b1 wait (Ok m) rest) as (b2 & E & Hw2); try done; try lra.
    exists [], b2. by split_and!.
Qed.

(** ** A bench to run them on *)

Definition demo_reply : response :=
  Response 200 "" (Some (JObj [("rs485_1", JObj [("port_mode", JStr "tcp_bridge")])])) [].

(** A gateway in bridge mode; every look at its WebSocket finds a MASTER
    packet and a TIMEOUT. *)
Definition demo_outside (wait : Q) (lapse : nat -> Q) : outside unit := {|
  http := fun _ d => (Ok demo_reply, d);
  uart_connect := fun d => (None, d);
  uart_send := fun _ d => (None, d);
  uart_close := fun _ => None;
  ws_opened := fun _ d => d;
  ws_stop := fun _ => Some OSError;
  ws_inbox := fun _ =>
    [(wait, Ok (with_quotes "{'type':'packet','slave_id':21,'function':3,'sender':'master'}"));
     (0%Q, Ok (with_quotes "{'type':'timeout','slave_id':21}"))];
  ws_left := fun _ d => d;
  ws_lapse := fun _ => lapse;
  local_endpoint := true
|}.

Definition demo_bench : bench unit :=
  Bench (AWorld tt [] ∅ 1 0 (fun _ => 0%Q)) (WsWorld {[ 4%nat ]} 5 (fun _ => None) (fun _ => None) None) {[ 4%nat ]} {[ 0%nat ]} 1
    (Trace [] [] 0).

Lemma demo_ws_plain : ws_plain (wsw demo_bench).
Proof. split; [|done]. split_and!; try done. cbn. intros i. rewrite elem_of_singleton. lia. Qed.

Lemma demo_fair : fair (demo_outside 0 (fun i => inject_Z (Z.of_nat i))) 7.
Proof.
  split; try done.
  - cbn. intros _ e [= <-]. reflexivity.
  - intros d. repeat constructor; vm_compute; discriminate.
  - intros d. repeat apply Forall_cons_2; [vm_compute; discriminate..|apply Forall_nil_2].
  - intros d i. cbn [ws_lapse demo_outside]. rewrite <- Zle_Qle. lia.
  - intros d. vm_compute. lia.
Qed.

Lemma demo_cooperative wait lapse : cooperative (demo_outside wait lapse) (fun _ => True) (fun _ => True).
Proof.
  split; try done.
  - intros q d. exists demo_reply, d. by split.
  - cbn. intros d resp [= <-]. by eexists _, (JStr "tcp_bridge").
  - intros d _. by exists d.
  - cbn. intros _ e [= <-]. reflexivity.
Qed.

(** On that bench, with a connection and a socket of another user open, the
    dead-slave test fails its count of MASTER packets and leaves only what was
    open before. *)
Lemma timing_tests_clean_up_witness :
  let o := demo_outside 0 (fun i => inject_Z (Z.of_nat i)) in
  let '(r, b') := test_sniffer_dead_slave_polled_twice o 7 true demo_bench in
  r = Raise AssertionError /\ uarts b' = {[ 0%nat ]} /\ pinging b' = {[ 4%nat ]} /\
  last (log (net b')) = Some (mode_request 1 (JStr "tcp_bridge")).
Proof.
  intros o. set (test := test_sniffer_dead_slave_polled_twice o 7 true).
  assert (bench_ok demo_bench) as Hb.
  { split; [apply demo_ws_plain|done|]. cbn. intros i. rewrite elem_of_singleton. lia. }
  pose proof (timing_tests_clean_up o 7 true test demo_bench demo_fair Hb) as H.
  assert (test ∈ timing_tests o 7 true) as Hin by (unfold timing_tests; rewrite !elem_of_cons; tauto).
  specialize (H Hin). assert ((test demo_bench).1 = Raise AssertionError) as Hr by (vm_compute; reflexivity).
  destruct (test demo_bench) as [r b']. cbn [fst] in Hr. subst r. destruct H as (_ & Hu & Hp & _ & _ & _ & Hl).
  split_and!; [done|exact Hu|exact Hp|]. eapply Hl; reflexivity.
Defined.

(** The MASTER packet with a TIMEOUT behind it: 4.9 s after the test began to
    wait for it the three tests pass, after 6 s the strictest fails. *)
Lemma no_response_tests_blind_witness :
  let o wait := demo_outside wait (fun i => match i with O => 0 | _ => 1 # 10 end)%Q in
  (test_sniffer_no_response_only_timeout (o (49 # 10)%Q) 3 true demo_bench).1 = Ok tt /\
  (test_sniffer_no_response_master_then_timeout (o (49 # 10)%Q) 3 true demo_bench).1 = Ok tt /\
  (test_sniffer_master_emitted_immediately (o (49 # 10)%Q) 3 true demo_bench).1 = Ok tt /\
  (test_sniffer_master_emitted_immediately (o 6%Q) 3 true demo_bench).1 = Raise AssertionError.
Proof.
  intros o.
  assert (forall wait (d : unit), exists m rest, ws_inbox (o wait) d = (wait, Ok m) :: rest /\ master_text m) as Hm.
  { intros wait d. eexists _, _. split; [reflexivity|].
    exists (JObj [("type", JStr "packet"); ("slave_id", JNum 21); ("function", JNum 3); ("sender", JStr "master")]).
    split; [split; [discriminate|]|]; repeat split; vm_compute; reflexivity. }
  assert (forall wait (d : unit), (ws_lapse (o wait) d 1 < ws_lapse (o wait) d 0 + (15 # 100))%Q /\
    (ws_lapse (o wait) d 0 <= ws_lapse (o wait) d 2)%Q) as Hc by (intros wait d; split; vm_compute; [reflexivity|discriminate]).
  pose proof (fun wait Hpos test => no_response_tests_blind (o wait) 3 true test demo_bench wait (demo_cooperative _ _)
    (fun _ _ => eq_refl) demo_ws_plain Hpos (Hm wait) (Hc wait) ltac:(lia)) as H.
  assert ((0 <= 49 # 10)%Q /\ (49 # 10 <= 5)%Q /\ (0 <= 6)%Q) as (W1 & W2 & W3) by (split_and!; vm_compute; discriminate).
  split_and!.
  - refine (proj1 (H (49 # 10)%Q W1 _ _) W2). rewrite !elem_of_cons. tauto.
  - refine (proj1 (H (49 # 10)%Q W1 _ _) W2). rewrite !elem_of_cons. tauto.
  - refine (proj1 (H (49 # 10)%Q W1 _ _) W2). rewrite !elem_of_cons. tauto.
  - refine (proj2 (H 6%Q W3 _ _) eq_refl). rewrite !elem_of_cons. tauto.
Defined.
