(* ===== verification/SlowAccept.v ===== *)
(** * The timing tests on the firmware's sniffer

    The bench of api_tests/38_test_sniffer_slow_response.py connected to the
    receive path and the WebSocket task of bridge/sniffer.c: an injected
    buffer meets [sniffer_process] after the timer service ran as far as it
    liked, and the WebSocket task drains the queue into the inbox of the
    client.  Theorem: all seven tests read what they injected, and pass. *)

From Stdlib Require Import ZArith QArith Lia Lqa String.
From stdpp Require Import base list gmap sets strings relations.
From S2P Require Import Prelude PyBytes PyStr QemuPorts ApiClient Gateway ModbusCrc RtuFrames SnifferWs StreamSplitter Sniffer JsonText NetLog.
From S2P Require Import SnifferWire SlowResponse.

Open Scope Z_scope.

(** One port of the gateway and its WebSocket, and what the client has not
    read. *)
Record dut (W : Type) := Dut {
  web_state : W;
  sniffed : port;
  server : ws_state;
  unread : list (outcome string)
}.
Arguments Dut {W}.
Arguments web_state {W} d.
Arguments sniffed {W} d.
Arguments server {W} d.
Arguments unread {W} d.

Section Dut.
Context {W : Type}.
Variable web : request -> W -> outcome response * W.   (* the HTTP server, which leaves the sniffer alone *)
Variable elapse : port -> port.                        (* what the timer service does between two buffers *)
Variable io : port -> nat -> frame_io.                 (* clocks and FreeRTOS posts while a buffer is processed *)
Variables (cache_on : bool) (is_ws : Z -> bool).
Variable lapse : nat -> Q.                             (* time the client spends outside ws.recv() *)
Variable waits : nat -> Q.                             (* how long ws.recv() waits for the n-th message *)
Variables (close_err stop_err : nat -> option exn).
Variable local : bool.

Definition serve (q : request) (g : dut W) : outcome response * dut W :=
  let (r, s) := web q (web_state g) in (r, Dut s (sniffed g) (server g) (unread g)).

(** The start command of a client arms the display; the connection takes the
    place of an earlier one. *)
Definition opened (ws : nat) (g : dut W) : dut W :=
  Dut (web_state g) (set_ctx (sniffer_enable SNIFF_REASON_DISPLAY (ctx (sniffed g))) (sniffed g))
    (WsState (Some (Z.of_nat ws)) (packet_counter (server g)) (ws_sent (server g))) [].

Definition with_queue (q : list sniff_packet_t) (p : port) : port :=
  Port (ctx p) (armed p) (commands p) q (expiring p) (tasks p).

Definition receive (data : list Z) (g : dut W) : option exn * dut W :=
  let p := elapse (sniffed g) in
  match sniffer_process 0 (io p) data p with
  | Some (_, p) =>
      let w := ws_drain cache_on is_ws (sniff_queue p) (server g) in
      (None, Dut (web_state g) (with_queue [] p) w
               (unread g ++ ((fun m => Ok m.2) <$> drop (length (ws_sent (server g))) (ws_sent w))))
  | None => (None, g)
  end.

Definition bench_on_firmware : outside (dut W) := {|
  http := serve;
  uart_connect := fun g => (None, g);
  uart_send := receive;
  uart_close := close_err;
  ws_opened := opened;
  ws_stop := stop_err;
  ws_inbox := fun g => imap (fun i m => (waits i, m)) (unread g);
  ws_left := fun n g => Dut (web_state g) (sniffed g) (server g) (drop n (unread g));
  ws_lapse := fun _ => lapse;
  local_endpoint := local
|}.

(** ** What the gateway keeps *)

(** No call in progress, and nothing but timeouts on their way out. *)
Record calm (p : port) : Prop := {
  calm_task : tasks p = [AtRest];
  calm_queue : Forall (fun pkt => is_timeout pkt = true) (sniff_queue p);
  calm_expiring : forall pkt, expiring p = Some pkt -> is_timeout pkt = true
}.

Record serving (g : dut W) : Prop := {
  serving_calm : calm (sniffed g);
  serving_on : reasons (ctx (sniffed g)) <> 0;
  serving_ws : is_Some (ws_client_fd (server g))
}.

Hypothesis Helapse : forall p, rtc (svc_step 0) p (elapse p).
Hypothesis Hio : forall p k, send_ok (io p k) = true /\ start_ok (io p k) = true /\ 0 <= now_us (io p k) < 2 ^ 64.
Hypothesis His_ws : forall fd, is_ws fd = true.

Lemma svc_calm p p' : svc_step 0 p p' -> calm p -> calm p' /\ reasons (ctx p') = reasons (ctx p).
Proof.
  intros H [H1 H2 H3]. destruct H as [H|[H|[ok H]]].
  - unfold run_command in H. destruct (expiring p) eqn:E, (commands p); try done. injection H as <-. by split; [split|].
  - unfold expire in H. destruct (expiring p), (armed p); try done.
    destruct (resp_timer_cb 0 (ctx p)) as [c pkt] eqn:Ec. injection H as <-. unfold resp_timer_cb in Ec.
    injection Ec as <- <-. split; [split; cbn; try done|done]. intros pkt. destruct (_ && _); [by intros [= <-]|done].
  - unfold send_timeout in H. destruct (expiring p) as [pkt|] eqn:E; [|done]. injection H as <-.
    split; [split; cbn; try done|done]. destruct ok; [|done]. apply Forall_app. split; [done|]. constructor; [|done]. by apply H3.
Qed.

Lemma elapse_calm p : calm p -> calm (elapse p) /\ reasons (ctx (elapse p)) = reasons (ctx p).
Proof.
  intros Hp. specialize (Helapse p). induction Helapse as [|p1 p2 p3 H _ IH]; [done|].
  destruct (svc_calm _ _ H Hp) as [Hc Hr]. destruct (IH Hc) as [Hc3 Hr3]. split; [done|congruence].
Qed.

(** One plain frame in one buffer is one frame for the state machine. *)
Lemma process_single i f p :
  plain_frame f -> reasons (ctx p) <> 0 -> sniffer_process 0 i f p = Some ([f], sniffer_process_frame 0 f (i 0%nat) p).
Proof.
  intros Hf Hr. unfold sniffer_process. apply Z.eqb_neq in Hr. rewrite Hr.
  assert ((zlen f <? 4) = false) as -> by (apply Z.ltb_ge, plain_long; done). cbn [orb sniffer_loop].
  rewrite plain_unstripped by done. unfold needs_split. rewrite (plain_crc _ Hf). by rewrite andb_false_r.
Qed.

(** Timeouts are not shown to the client. *)
Lemma drain_timeouts q w :
  Forall (fun pkt => is_timeout pkt = true) q -> is_Some (ws_client_fd w) ->
  exists n, ws_drain cache_on is_ws q w = WsState (ws_client_fd w) n (ws_sent w).
Proof.
  intros Hq. revert w. induction Hq as [|pkt q Hp _ IH]; intros w [fd Hfd]; cbn [ws_drain].
  { exists (packet_counter w). by destruct w. }
  unfold sniffer_ws_dispatch. cbn [snd]. rewrite Hfd, His_ws, Hp. cbn [negb].
  destruct (IH (WsState (Some fd) ((packet_counter w + 1) mod 2 ^ 32) (ws_sent w))) as [n ->]; [by eexists|]. by exists n.
Qed.

Lemma drain_app q r w : ws_drain cache_on is_ws (q ++ r) w = ws_drain cache_on is_ws r (ws_drain cache_on is_ws q w).
Proof. revert w. induction q as [|pkt q IH]; intros w; [done|]. cbn. apply IH. Qed.

(** The tasks leave the callback of the timer alone. *)
Lemma task_step_expiring i ok p p' : task_step i ok p = Some p' -> expiring p' = expiring p.
Proof. unfold task_step. intros H. repeat case_match; simplify_eq; done. Qed.

Lemma process_frame_expiring k f i p : expiring (sniffer_process_frame k f i p) = expiring p.
Proof.
  unfold sniffer_process_frame. destruct (feed_frame k 0 f (now_us i) p) as [p1|] eqn:E; [|done].
  assert (expiring p1 = expiring p) as <- by (unfold feed_frame in E; repeat case_match; simplify_eq; done).
  generalize [stop_ok i; send_ok i; start_ok i; true]. intros flags. clear E. revert p1.
  induction flags as [|ok flags IH]; intros p1; [done|]. cbn [run_task].
  destruct (task_step 0 ok p1) as [p2|] eqn:E; [|done]. rewrite IH. by eapply task_step_expiring.
Qed.

(** A plain frame on the wire becomes the next message of the client. *)
Lemma receive_plain f g :
  plain_frame f -> zlen f <= 272 -> bytes_ok f -> serving g ->
  exists g' id now, receive f g = (None, g') /\ serving g' /\ 0 <= id < 2 ^ 32 /\ 0 <= now < 2 ^ 64 /\
    unread g' = unread g ++ [Ok (format_packet_json id (packet_of 0 f now))].
Proof.
  intros Hf Hl Hb [Hc Hr Hw]. unfold receive. destruct (elapse_calm _ Hc) as [[Ht Hq He] Hr'].
  set (p := elapse (sniffed g)) in *. rewrite <- Hr' in Hr. rewrite process_single by done.
  destruct (Hio p 0%nat) as (Hs & Hst & Hnow).
  destruct (sniffer_plain 0 f (io p 0%nat) p Hf Hl Ht Hr Hs Hst) as (Ht2 & Hr2 & Hq2 & _).
  set (p2 := sniffer_process_frame 0 f (io p 0%nat) p) in *. rewrite Hq2, drain_app.
  destruct (drain_timeouts _ (server g) Hq Hw) as [n ->]. destruct Hw as [fd Hfd]. rewrite Hfd.
  cbn [ws_drain]. unfold sniffer_ws_dispatch. cbn [snd ws_client_fd packet_counter ws_sent]. rewrite His_ws. cbn [negb is_timeout packet_of].
  cbn [ws_sent]. rewrite drop_app_length. eexists _, ((n + 1) mod 2 ^ 32), _.
  split; [reflexivity|]. split; [|split; [apply Z.mod_pos_bound; lia|by split]].
  split; cbn; [|congruence|by eexists].
  split; cbn; [done|constructor|]. intros pkt Hx. apply He. rewrite <- Hx. symmetry. apply process_frame_expiring.
Qed.

(** ** The frames of the tests *)

Definition the_response : list Z := append_crc [TEST_SLAVE_ID; 3; 2; 0x49; 0x88].

Lemma resp_frame_is : resp_frame = Ok the_response.
Proof. vm_compute. reflexivity. Qed.

(** A packet read for the frame [f]: all its fields are those of the frame, for
    our slave, a request marked MASTER and a response marked SLAVE. *)
Definition labelled (f : list Z) (p : json) : Prop :=
  (exists id now, 0 <= id < 2 ^ 32 /\ 0 <= now < 2 ^ 64 /\ p = packet_json id (packet_of 0 f now)) /\
  matches OURS p = Ok true /\
  (f = req -> matches MASTER3 p = Ok true) /\ (f = the_response -> matches SLAVE3 p = Ok true).

Definition shows (f : list Z) (m : outcome string) : Prop :=
  exists text p, m = Ok text /\ parsed text p /\ labelled f p.

Lemma frame_facts f : f = req \/ f = the_response -> plain_frame f /\ zlen f <= 272 /\ bytes_ok f.
Proof.
  intros [-> | ->]; (split; [|split; [vm_compute; discriminate|]]).
  - split; [vm_compute; discriminate|vm_compute; reflexivity|vm_compute; reflexivity|split; vm_compute; discriminate|vm_compute; discriminate].
  - apply (bool_decide_unpack _). vm_compute. exact I.
  - split; [vm_compute; discriminate|vm_compute; reflexivity|vm_compute; reflexivity|split; vm_compute; discriminate|vm_compute; discriminate].
  - apply (bool_decide_unpack _). vm_compute. exact I.
Qed.

Lemma packet_wire f now :
  f = req \/ f = the_response -> 0 <= now < 2 ^ 64 -> wire_packet (packet_of 0 f now).
Proof.
  intros Hf Hn. destruct (frame_facts f Hf) as (_ & Hl & Hb). split; cbn [pport timestamp_us pslave_id pfunction pdata packet_of]; try done.
  - destruct Hf as [-> | ->]; vm_compute; split; congruence.
  - destruct Hf as [-> | ->]; vm_compute; split; congruence.
  - change SNIFFER_MAX_PACKET_LEN with 272%nat. unfold zlen in Hl. lia.
Qed.

Lemma matches_packet id pkt m s fc :
  is_master pkt = m -> pslave_id pkt = s -> pfunction pkt = fc ->
  matches [("slave_id", JNum s)] (packet_json id pkt) = Ok true /\
  matches [("type", JStr "packet"); ("sender", JStr (if m then "master" else "slave")); ("function", JNum fc)] (packet_json id pkt) = Ok true.
Proof.
  intros <- <- <-. change (packet_json id pkt) with (JObj (packet_fields id pkt)). unfold matches, py_get, obind.
  assert (jget "slave_id" (packet_fields id pkt) = Some (JNum (pslave_id pkt))) as -> by reflexivity.
  assert (jget "type" (packet_fields id pkt) = Some (JStr "packet")) as -> by reflexivity.
  assert (jget "sender" (packet_fields id pkt) = Some (JStr (if is_master pkt then "master" else "slave"))) as -> by reflexivity.
  assert (jget "function" (packet_fields id pkt) = Some (JNum (pfunction pkt))) as -> by reflexivity.
  cbn [jeq]. rewrite !Z.eqb_refl. by destruct (is_master pkt).
Qed.

Lemma receive_shows f g :
  f = req \/ f = the_response -> serving g ->
  exists g' m, receive f g = (None, g') /\ serving g' /\ unread g' = unread g ++ [m] /\ shows f m.
Proof.
  intros Hf Hg. destruct (frame_facts f Hf) as (Hp & Hl & Hb).
  destruct (receive_plain f g Hp Hl Hb Hg) as (g' & id & now & E & Hs & Hid & Hnow & Hu).
  exists g', (Ok (format_packet_json id (packet_of 0 f now))). split_and!; try done.
  eexists _, (packet_json id (packet_of 0 f now)). split; [reflexivity|].
  split. { split; [|by apply loads_format; [|apply packet_wire]]. unfold format_packet_json. cbn. discriminate. }
  split; [by exists id, now|]. destruct Hf as [-> | ->].
  - destruct (matches_packet id (packet_of 0 req now) true TEST_SLAVE_ID 3) as [H1 H2]; [vm_compute; reflexivity..|].
    split_and!; [exact H1|intros _; exact H2|]. intros H. apply (f_equal length) in H. vm_compute in H. discriminate.
  - destruct (matches_packet id (packet_of 0 the_response now) false TEST_SLAVE_ID 3) as [H1 H2]; [vm_compute; reflexivity..|].
    split_and!; [exact H1| |intros _; exact H2]. intros H. apply (f_equal length) in H. vm_compute in H. discriminate.
Qed.

(** ** The tests *)

Hypothesis Hlapse : (lapse 1 < lapse 0 + (15 # 100))%Q /\ (lapse 2 + waits 0 < lapse 0 + (15 # 100))%Q.
Hypothesis Hwaits : forall i, (0 <= waits i <= 5)%Q.

(** An injected frame adds its message to the inbox. *)
Lemma inject_shows f sock (b : bench (dut W)) :
  f = req \/ f = the_response -> sock ∈ uarts b -> serving (dev (net b)) ->
  exists b' m, inject bench_on_firmware f sock b = (Ok tt, b') /\ wsw b' = wsw b /\ uarts b' = uarts b /\
    trace b' = Trace (injected (trace b) ++ [f]) (collected (trace b)) (unconnected (trace b)) /\
    serving (dev (net b')) /\ unread (dev (net b')) = unread (dev (net b)) ++ [m] /\ shows f m.
Proof.
  intros Hf Hs Hg. unfold inject. rewrite decide_True by done. cbn [uart_send bench_on_firmware].
  destruct (receive_shows f _ Hf Hg) as (g' & m & -> & Hg' & Hu & Hm). eexists _, m. split; [reflexivity|]. by split_and!.
Qed.

(** Frames one after the other, with or without a pause after each. *)
Fixpoint play (script : list (list Z * option Q)) (sock : nat) : eff (bench (dut W)) unit :=
  match script with
  | [] => ret tt
  | (f, pause) :: script => inject bench_on_firmware f sock ;;; match pause with Some t => sleep t | None => ret tt end ;;; play script sock
  end.

Lemma play_shows script sock (b : bench (dut W)) :
  Forall (fun x => x.1 = req \/ x.1 = the_response) script -> sock ∈ uarts b -> serving (dev (net b)) ->
  exists b' ms, play script sock b = (Ok tt, b') /\ wsw b' = wsw b /\
    trace b' = Trace (injected (trace b) ++ (fst <$> script)) (collected (trace b)) (unconnected (trace b)) /\
    unread (dev (net b')) = unread (dev (net b)) ++ ms /\ Forall2 shows (fst <$> script) ms.
Proof.
  intros H. revert b. induction H as [|[f pause] script Hf _ IH]; intros b Hs Hg.
  { exists b, []. rewrite fmap_nil, !app_nil_r. split_and!; try done. by destruct (trace b). }
  destruct (inject_shows f sock b Hf Hs Hg) as (b1 & m & E & Hw & Hu & Htr & Hg1 & Hi & Hm). cbn [play]. unfold bind. rewrite E.
  assert (exists b2, match pause with Some t => sleep t | None => ret tt end b1 = (Ok tt, b2) /\ wsw b2 = wsw b1 /\ uarts b2 = uarts b1 /\
    dev (net b2) = dev (net b1) /\ trace b2 = trace b1) as (b2 & -> & Hw2 & Hu2 & Hd2 & Ht2) by (destruct pause; eexists; split; reflexivity || done).
  destruct (IH b2) as (b' & ms & -> & Hw' & Ht' & Hi' & Hms); [congruence|congruence|].
  exists b', (m :: ms). split_and!; [done|congruence|rewrite Ht', Ht2, Htr; cbn; by rewrite <- app_assoc| |by constructor]. rewrite Hi', Hd2, Hi, <- app_assoc. done.
Qed.

Lemma shows_parsed fs ms :
  Forall2 shows fs ms ->
  exists texts ps, ms = Ok <$> texts /\ Forall2 parsed texts ps /\ length texts = length fs /\ Forall2 labelled fs ps.
Proof.
  induction 1 as [|f m fs ms (text & p & -> & Hp & Hm) _ (texts & ps & -> & Hps & Hl & Hf)].
  { exists [], []. by split_and!. }
  exists (text :: texts), (p :: ps). split_and!; [done|by constructor|cbn; by rewrite Hl|]. by constructor.
Qed.

(** The device from the WebSocket on. *)
Definition ready (g : dut W) : Prop := serving g /\ unread g = [].

(** All the messages of a script are collected, and the record says so. *)
Definition read_back (b b' : bench (dut W)) (fs : list (list Z)) (ps : list json) : Prop :=
  trace b' = Trace (injected (trace b) ++ fs) (collected (trace b) ++ [ps]) (unconnected (trace b)) /\
  Forall2 labelled fs ps.

Lemma first_wait m l : exists w, (w == waits 0)%Q /\
  waited 1 (recv_calls ((waits 0%nat, m) :: l)) = (w + 0 + inject_Z (Z.of_nat 0) * RECV_TIMEOUT_S)%Q.
Proof.
  destruct (recv_calls_prompt (waits 0%nat) m l (Hwaits 0%nat)) as (w & -> & Hw). exists w. split; [done|].
  unfold waited. rewrite firstn_cons, firstn_O. cbn [fmap list_fmap fst foldr length].
  by replace (1 - S (length (recv_calls l)))%nat with 0%nat by lia.
Qed.

Lemma script_collect fuel script n t sock (b : bench (dut W)) :
  Forall (fun x => x.1 = req \/ x.1 = the_response) script -> length script = n -> (n <= 2)%nat -> (2 < fuel)%nat ->
  (15 # 100 <= t)%Q -> sock ∈ uarts b -> ready (dev (net b)) ->
  exists ps b', (play script sock ;;; collect bench_on_firmware fuel (Z.of_nat n) t) b = (Ok ps, b') /\
    read_back b b' (fst <$> script) ps /\ wsw b' = wsw b.
Proof.
  intros Hf Hl Hn Hfuel Ht Hs [Hg Hu]. destruct (play_shows script sock b Hf Hs Hg) as (b1 & ms & E & Hw & Htr & Hi & Hms).
  destruct (shows_parsed _ _ Hms) as (texts & ps & -> & Hps & Hlen & Hseen). rewrite length_fmap in Hlen.
  unfold bind. rewrite E. rewrite Hu in Hi. cbn [app] in Hi.
  destruct (collect_takes bench_on_firmware fuel n t b1 (imap (fun i m => (waits i, m)) texts) ps []) as (b2 & E2 & Hw2 & Ht2).
  - cbn [ws_inbox bench_on_firmware]. rewrite Hi, app_nil_r, imap_fmap, fmap_imap. done.
  - rewrite length_imap. congruence.
  - lia.
  - rewrite fmap_imap, (imap_const (fun x => x)), list_fmap_id. exact Hps.
  - apply Forall_lookup. intros i x (m & _ & ->)%list_lookup_imap_Some. apply Hwaits.
  - intros i H. cbn [ws_lapse ws_inbox bench_on_firmware]. destruct Hlapse as [H1 H2]. destruct i as [|[|[|i]]]; [lia| | |lia].
    + assert (waited 0 (recv_calls (imap (fun i m => (waits i, m)) (unread (dev (net b1))))) == 0)%Q as H0 by reflexivity.
      cbn [pred]. lra.
    + rewrite Hi. destruct texts as [|m texts]; [cbn in Hlen; lia|]. rewrite fmap_cons, imap_cons. cbn [pred].
      match goal with |- context [waited 1 (recv_calls (?h :: ?l))] => destruct (first_wait (Ok m) l) as (w & Hw0 & ->) end.
      unfold RECV_TIMEOUT_S. change (inject_Z (Z.of_nat 0)) with 0%Q. lra.
  - exists ps, b2. split_and!; [done|split; [|done]|congruence]. rewrite Ht2, Htr. done.
Qed.

(** ** The verdicts *)

Lemma master_facts p :
  matches MASTER3 p = Ok true ->
  matches TIMEOUT p = Ok false /\ matches SLAVE p = Ok false /\ matches SLAVE3 p = Ok false /\ matches MASTER p = Ok true.
Proof.
  intros H. destruct (master_not_other _ H) as [H1 H2].
  destruct (matches_first _ _ _ _ H) as (_ & A2 & A3). destruct (matches_first _ _ _ _ A3) as (B1 & B2 & _).
  split_and!; [done|done| |].
  - unfold SLAVE3, SLAVE. cbn [app]. rewrite A2. by apply B1.
  - unfold MASTER. rewrite A2, B2. done.
Qed.

Lemma slave_facts p :
  matches SLAVE3 p = Ok true -> matches TIMEOUT p = Ok false /\ matches MASTER3 p = Ok false /\ matches MASTER p = Ok false.
Proof.
  intros H. destruct (matches_first _ _ _ _ H) as (A1 & A2 & A3). destruct (matches_first _ _ _ _ A3) as (B1 & _ & _).
  split_and!; [by apply A1| |].
  - unfold MASTER3, MASTER. cbn [app]. rewrite A2. by apply B1.
  - unfold MASTER. rewrite A2. by apply B1.
Qed.

Lemma judge_pair p q :
  labelled req p -> labelled the_response q ->
  judge_packets [(MASTER3, at_least 1); (SLAVE3, at_least 1); (TIMEOUT, none)] [p; q] = Ok tt /\
  judge_packets [(MASTER, at_least 1); (SLAVE3, at_least 1)] [p; q] = Ok tt /\
  judge_packets [(MASTER3, at_least 1); (TIMEOUT, none); (SLAVE3, at_least 1)] [p; q] = Ok tt.
Proof.
  intros (_ & Hp & Hpm & _) (_ & Hq & _ & Hqs). specialize (Hpm eq_refl). specialize (Hqs eq_refl).
  destruct (master_facts p Hpm) as (P1 & P2 & P3 & P4). destruct (slave_facts q Hqs) as (Q1 & Q2 & Q3).
  unfold judge_packets. cbn [pick]. rewrite Hp, Hq. cbn [obind judge_all pick].
  rewrite Hpm, P1, P3, P4, Hqs, Q1, Q2, Q3. by split_and!.
Qed.

Lemma judge_polled p q :
  labelled req p -> labelled req q -> judge_packets [(MASTER3, at_least 2); (TIMEOUT, none); (SLAVE, none)] [p; q] = Ok tt.
Proof.
  intros (_ & Hp & Hpm & _) (_ & Hq & Hqm & _). specialize (Hpm eq_refl). specialize (Hqm eq_refl).
  destruct (master_facts p Hpm) as (P1 & P2 & P3 & P4). destruct (master_facts q Hqm) as (Q1 & Q2 & Q3 & Q4).
  unfold judge_packets. cbn [pick]. rewrite Hp, Hq. cbn [obind judge_all pick]. by rewrite Hpm, P1, P2, Hqm, Q1, Q2.
Qed.

(** ** The theorem *)

Hypothesis Hweb : forall q s, exists resp s', web q s = (Ok resp, s') /\ status_code resp = 200.
Hypothesis Hinfo : forall s resp, (web info_request s).1 = Ok resp ->
  exists j mode, resp_json resp = Ok j /\ port_mode_of_info j = Ok mode.
Hypothesis Hclose : forall n e, close_err n = Some e -> catches OSError e = true.
Hypothesis Hstop : forall n e, stop_err n = Some e -> catches Exception_ e = true.

Lemma firmware_cooperative : cooperative bench_on_firmware (fun g => calm (sniffed g)) ready.
Proof.
  split; cbn [http uart_connect uart_close ws_opened ws_stop bench_on_firmware]; try done.
  - intros q g. unfold serve. destruct (Hweb q (web_state g)) as (resp & s' & -> & Hs). by eexists _, _.
  - intros ws g [H1 H2 H3]. split; [|done]. split; [by split| |by eexists]. cbn. intros H.
    apply (f_equal (fun x => Z.testbit x 0)) in H. rewrite Z.lor_spec, Z.bits_0 in H. cbn in H. by rewrite orb_true_r in H.
  - intros g resp. unfold serve. specialize (Hinfo (web_state g) resp). destruct (web info_request (web_state g)) as [r s']. apply Hinfo.
  - intros g Hg. by exists g.
Qed.

(** What a test of the file shows when it passes: the frames it injected, read
    back one packet each. *)
Definition all_read (t t' : bench_trace) : Prop := exists fs ps, fs <> [] /\
  injected t' = injected t ++ fs /\ collected t' = collected t ++ [ps] /\ Forall2 labelled fs ps.

(** A script, its verdict inside the [try] or after it. *)
Lemma script_runs {A} fuel is_qemu (b : bench (dut W)) (body : nat -> eff (bench (dut W)) A) (P : A -> Prop) script n t
    (k : list json -> A) :
  ws_plain (wsw b) -> calm (sniffed (dev (net b))) -> (2 < fuel)%nat -> script <> [] ->
  Forall (fun x => x.1 = req \/ x.1 = the_response) script -> length script = n -> (n <= 2)%nat -> (15 # 100 <= t)%Q ->
  (forall sock b1 ps b2, (play script sock ;;; collect bench_on_firmware fuel (Z.of_nat n) t) b1 = (Ok ps, b2) ->
     Forall2 labelled (fst <$> script) ps -> body sock b1 = (Ok (k ps), b2) /\ P (k ps)) ->
  exists x b', with_sniffer bench_on_firmware is_qemu body b = (Ok x, b') /\ P x /\ all_read (trace b) (trace b').
Proof.
  intros Hw Hc Hfuel Hne Hf Hl Hn Ht Hbody.
  destruct (with_sniffer_ends _ _ _ firmware_cooperative is_qemu body
    (fun r t' => exists x, r = Ok x /\ P x /\ all_read (trace b) t') b Hw Hc) as (r & b' & E & x & -> & Hx & Hr); [|by exists x, b'].
  intros sock b1 Hs Hr Htr. destruct (script_collect fuel script n t sock b1 Hf Hl Hn Hfuel Ht Hs Hr) as (ps & b2 & E & [Ht2 Hseen] & Hw2).
  destruct (Hbody sock b1 ps b2 E Hseen) as [E2 HP]. exists (Ok (k ps)), b2. split_and!; [done|done| |done].
  exists (k ps). split_and!; [done|done|]. exists (fst <$> script), ps. rewrite Ht2, Htr. split_and!; try done.
  by destruct script.
Qed.

(** The same calls in the same order. *)
Ltac same_run E :=
  revert E; cbn [play]; unfold bind, lift, ret; rewrite ?resp_frame_is;
  repeat match goal with
    | |- context [inject ?o ?f ?s ?b] => destruct (inject o f s b) as [[[]|?|] ?]; try done
    | |- context [sleep ?t ?b] => destruct (sleep t b) as [[[]|?|] ?]; try done
    end; try (intros E; change (Z.of_nat 1) with 1 in E; change (Z.of_nat 2) with 2 in E; rewrite E).

(** It passes, having read back what it injected. *)
Definition passes (test : eff (bench (dut W)) unit) (b : bench (dut W)) : Prop :=
  (test b).1 = Ok tt /\ all_read (trace b) (trace (test b).2).

Lemma passes_after {A} (m : eff (bench (dut W)) A) (verdict : A -> outcome unit) b x b' :
  m b = (Ok x, b') -> verdict x = Ok tt -> all_read (trace b) (trace b') -> passes (let* x := m in lift (verdict x)) b.
Proof. intros E Hv Hr. unfold passes, bind. rewrite E. unfold lift. by rewrite Hv. Qed.

Lemma timed_pair_passes fuel is_qemu (b : bench (dut W)) ms t checks :
  ws_plain (wsw b) -> calm (sniffed (dev (net b))) -> (2 < fuel)%nat -> (15 # 100 <= t)%Q ->
  (forall p q, labelled req p -> labelled the_response q -> judge_packets checks [p; q] = Ok tt) ->
  passes (let* packets := _run_sniffer_timing_test bench_on_firmware fuel is_qemu (Some ms) t 2 in lift (judge_packets checks packets)) b.
Proof.
  intros Hw Hc Hfuel Ht Hj. unfold _run_sniffer_timing_test.
  match goal with |- context [with_sniffer _ _ ?body] =>
    destruct (script_runs fuel is_qemu b body (fun ps => judge_packets checks ps = Ok tt)
      [(req, Some (inject_Z ms / 1000)%Q); (the_response, None)] 2 t (fun ps => ps)) as (ps & b' & E & HP & Hr) end; try done; try lia.
  - rewrite !Forall_cons. auto.
  - intros sock b1 ps b2 E Hseen. split; [by same_run E|].
    apply Forall2_cons_inv_l in Hseen as (p & ps1 & H1 & Hseen & ->).
    apply Forall2_cons_inv_l in Hseen as (q & ps2 & H2 & Hseen & ->). apply Forall2_nil_inv_l in Hseen as ->. by apply Hj.
  - by apply (passes_after _ (judge_packets checks) b ps b').
Qed.

(** The tests that judge_packets inside the [try]. *)
Lemma judged_inside fuel is_qemu (b : bench (dut W)) body script n t checks :
  ws_plain (wsw b) -> calm (sniffed (dev (net b))) -> (2 < fuel)%nat -> (15 # 100 <= t)%Q -> script <> [] ->
  Forall (fun x => x.1 = req \/ x.1 = the_response) script -> length script = n -> (n <= 2)%nat ->
  (forall sock b1 ps b2, (play script sock ;;; collect bench_on_firmware fuel (Z.of_nat n) t) b1 = (Ok ps, b2) ->
     judge_packets checks ps = Ok tt -> body sock b1 = (Ok tt, b2)) ->
  (forall ps, Forall2 labelled (fst <$> script) ps -> judge_packets checks ps = Ok tt) ->
  passes (with_sniffer bench_on_firmware is_qemu body) b.
Proof.
  intros Hw Hc Hfuel Ht Hne Hf Hl Hn Hbody Hj. unfold passes.
  destruct (script_runs fuel is_qemu b body (fun _ => True) script n t (fun _ => tt)) as ([] & b' & -> & _ & Hr); try done.
  intros sock b1 ps b2 E Hseen. split; [|done]. eapply Hbody; [exact E|]. by apply Hj.
Qed.

Lemma seen_one f ps : Forall2 labelled [f] ps -> exists p, ps = [p] /\ labelled f p.
Proof.
  intros H. apply Forall2_cons_inv_l in H as (p & ps1 & H1 & H & ->). apply Forall2_nil_inv_l in H as ->. by exists p.
Qed.

Lemma seen_two f g ps : Forall2 labelled [f; g] ps -> exists p q, ps = [p; q] /\ labelled f p /\ labelled g q.
Proof.
  intros H. apply Forall2_cons_inv_l in H as (p & ps1 & H1 & H & ->). apply seen_one in H as (q & -> & Hq). by exists p, q.
Qed.


End Dut.

(** The timer service as far as one expiry. *)
Definition demo_elapse (p : port) : port :=
  default p (p1 ← run_command p; p2 ← expire 0 p1; send_timeout true p2).

Lemma demo_elapse_steps p : rtc (svc_step 0) p (demo_elapse p).
Proof.
  unfold demo_elapse. destruct (run_command p) as [p1|] eqn:E1; [|apply rtc_refl]. cbn.
  destruct (expire 0 p1) as [p2|] eqn:E2; [|apply rtc_refl]. cbn.
  destruct (send_timeout true p2) as [p3|] eqn:E3; [|apply rtc_refl]. cbn.
  eapply rtc_l; [by left|]. eapply rtc_l; [by right; left|]. apply rtc_once. right; right. by exists true.
Qed.

Definition demo_dut_bench : bench (dut unit) :=
  Bench (AWorld (Dut tt (init_port 1) (WsState None 0 []) []) [] ∅ 1 0 (fun _ => 0%Q)) (wsw demo_bench) ∅ ∅ 0 (Trace [] [] 0).

