(* ===== verification/WsTests.v ===== *)
(** * The sniffer WebSocket tests: api_tests/12_test_sniffer_ws.py

    A station is the HTTP session, the WebSocket connections and ping threads,
    the packet injector of the running test, and the locals its [finally]
    block reads ([ws], [stop_ping], [original_port_mode]).  What the server
    sends is the inbox of the connection; when it is exhausted a receive times
    out.  The second part has the verdicts of the tests on the packets they
    collected. *)

From Stdlib Require Import ZArith QArith Lia Lqa Ascii String.
From stdpp Require Import base list gmap sets strings sorting.
From S2P Require Import Prelude PyBytes PyStr QemuPorts ApiClient Gateway ModbusCrc RtuFrames SnifferWs JsonText NetLog.
From S2P Require Injector SlowResponse.
From S2P Require Import StreamSplitter Sniffer SnifferWire.

Open Scope Z_scope.

(** ** Verdicts *)

(** A loop or comprehension over the packets that may raise. *)
Fixpoint each {A B} (f : A -> outcome B) (l : list A) : outcome (list B) :=
  match l with
  | [] => Ok []
  | x :: l => let? y := f x in let? ys := each f l in Ok (y :: ys)
  end.

Definition expect (b : bool) : outcome unit := if b then Ok tt else Raise AssertionError.

(** [a >= b] on values read from JSON; [a <= b] is [b >= a]. *)
Fixpoint py_ge (a b : json) {struct a} : outcome bool :=
  match a, b with
  | JNum m, JNum n => Ok (n <=? m)
  | JNum m, JBool c => Ok (Z.b2z c <=? m)
  | JBool c, JNum n => Ok (n <=? Z.b2z c)
  | JBool c, JBool d => Ok (Z.b2z d <=? Z.b2z c)
  | JStr s, JStr t => Ok (String.leb t s)
  | JList l, JList m =>
      (fix go l m := match l, m with
       | _, [] => Ok true
       | [], _ :: _ => Ok false
       | x :: l, y :: m => if jeq x y then go l m else py_ge x y
       end) l m
  | _, _ => Raise TypeError
  end.

(** Neighbours, in order. *)
Fixpoint neighbours {A} (l : list A) : list (A * A) :=
  match l with
  | x :: ((y :: _) as l') => (x, y) :: neighbours l'
  | _ => []
  end.

Definition enough (n : Z) (packets : list json) : outcome unit := expect (n <=? zlen packets).

(** [all(p["port"] == 1 for p in packets)]: stops at the first that differs. *)
Fixpoint all_port_1 (packets : list json) : outcome bool :=
  match packets with
  | [] => Ok true
  | p :: packets => let? v := jindex "port" p in if jeq v (JNum 1) then all_port_1 packets else Ok false
  end.

Definition port_verdict (packets : list json) : outcome unit :=
  let? _ := enough 5 packets in
  let? b := all_port_1 packets in expect b.

Definition id_verdict (packets : list json) : outcome unit :=
  let? _ := enough 10 packets in
  let? ids := each (jindex "id") packets in
  let? viol := each (fun ab => py_ge ab.1 ab.2) (neighbours ids) in
  expect (forallb negb viol).

(** [isinstance(ts, int)], which holds of booleans too. *)
Definition as_int (j : option json) : option Z :=
  match j with Some (JNum n) => Some n | Some (JBool b) => Some (Z.b2z b) | _ => None end.

Definition timestamp_ok (p : json) : outcome unit :=
  let? ts := py_get "timestamp_us" p in
  match as_int ts with Some n => expect (0 <? n) | None => Raise AssertionError end.

Definition timestamp_verdict (packets : list json) : outcome unit :=
  let? _ := enough 5 packets in
  let? _ := each timestamp_ok packets in
  let? timestamps := each (jindex "timestamp_us") packets in
  let? _ := each (fun ab => let? b := py_ge ab.2 ab.1 in expect b) (neighbours timestamps) in
  Ok tt.

Definition py_len (j : json) : outcome Z :=
  match j with
  | JStr s => Ok (Z.of_nat (String.length s))
  | JList l => Ok (zlen l)
  | JObj f => Ok (zlen f)
  | _ => Raise TypeError
  end.

(** [size * 2] as far as it can equal a length: a repeated string or list
    cannot. *)
Definition twice (j : json) : outcome (option Z) :=
  match j with
  | JNum n => Ok (Some (2 * n))
  | JBool b => Ok (Some (2 * Z.b2z b))
  | JStr _ | JList _ => Ok None
  | _ => Raise TypeError
  end.

Definition upper_hex (c : ascii) : bool :=
  is_digit c || match c with "A" | "B" | "C" | "D" | "E" | "F" => true | _ => false end%char.

(** [re.fullmatch(r"[0-9A-F]+", raw)] *)
Definition fullmatch_hex (raw : json) : outcome bool :=
  match raw with JStr s => Ok (negb (String.eqb s "") && all_chars upper_hex s) | _ => Raise TypeError end.

Definition raw_ok (p : json) : outcome unit :=
  let? raw := py_get "raw" p in
  let? size := py_get "size" p in
  let raw := default (JStr "") raw in
  let size := default (JNum (-1)) size in
  let? n := py_len raw in
  let? m := twice size in
  let? _ := expect (bool_decide (Some n = m)) in
  let? b := fullmatch_hex raw in expect b.

Definition raw_verdict (packets : list json) : outcome unit :=
  let? _ := enough 5 packets in
  let? _ := each raw_ok packets in Ok tt.

(** [x.get(k) == y.get(k)]; a missing field reads as [None]. *)
Definition same_field (k : string) (x y : json) : outcome bool :=
  let? v := py_get k x in
  let? w := py_get k y in
  Ok (jeq (default JNull v) (default JNull w)).

Definition field_is (k : string) (v : json) (p : json) : outcome bool :=
  let? x := py_get k p in Ok (jeq (default JNull x) v).

(** The condition on a master and the packet after it. *)
Definition is_pair (ms : json * json) : outcome bool :=
  let '(m, s) := ms in
  let? a := field_is "sender" (JStr "master") m in
  if negb a then Ok false
  else
    let? b := field_is "sender" (JStr "slave") s in
    if negb b then Ok false
    else
      let? c := same_field "slave_id" m s in
      if negb c then Ok false else same_field "function" m s.

Fixpoint first_pair (l : list (json * json)) : outcome (option (json * json)) :=
  match l with
  | [] => Ok None
  | ms :: l => let? b := is_pair ms in if b : bool then Ok (Some ms) else first_pair l
  end.

Definition master_fc3 (p : json) : outcome bool :=
  let? a := field_is "sender" (JStr "master") p in
  if negb a then Ok false else field_is "function" (JNum 3) p.

Definition count (bs : list bool) : Z := zlen (List.filter (fun b => b) bs).

Definition splitter_verdict (packets : list json) : outcome unit :=
  let? _ := enough 10 packets in
  let? ms := each master_fc3 packets in
  let? ss := each (field_is "sender" (JStr "slave")) packets in
  let? _ := expect (0 <? count ms) in
  let? _ := expect (0 <? count ss) in
  let? found := first_pair (neighbours packets) in
  match found with
  | None => Ok tt
  | Some (m, s) =>
      let? t := jindex "timestamp_us" s in
      let? u := jindex "timestamp_us" m in
      let? b := py_ge t u in expect b
  end.

Definition pairs_verdict (packets : list json) : outcome unit :=
  let? _ := enough 10 packets in
  let? bs := each is_pair (neighbours packets) in
  expect (2 <=? count bs).

Definition has_fields (ks : list string) (p : json) : outcome unit :=
  let? _ := each (fun k => let? b := py_in k p in expect b) ks in Ok tt.

(** The field checks on a packet of the first phase: its [crc_valid], unless
    it is of another type. *)
Definition packet_checked (p : json) : outcome (option bool) :=
  let? _ := has_fields ["type"; "id"; "port"; "timestamp_us"] p in
  let? t := jindex "type" p in
  if negb (jeq t (JStr "packet")) then Ok None
  else
    let? _ := has_fields ["sender"; "slave_id"; "function"; "crc_valid"; "raw"; "size"] p in
    let? sender := jindex "sender" p in
    let? _ := expect (jeq sender (JStr "master") || jeq sender (JStr "slave")) in
    let? crc := jindex "crc_valid" p in
    match crc with JBool b => Ok (Some b) | _ => Raise AssertionError end.

(** ** The station *)

Record station (D : Type) := Station {
  net : aworld D;
  wsw : ws_world;
  pinging : gset nat;                  (* ping threads not told to stop, by connection *)
  inj : Injector.world;                (* the injector of the running test *)
  my_ws : option nat;                  (* the locals of the test *)
  my_ping : option nat;
  my_mode : option json
}.
Arguments Station {D}.
Arguments net {D} s.
Arguments wsw {D} s.
Arguments pinging {D} s.
Arguments inj {D} s.
Arguments my_ws {D} s.
Arguments my_ping {D} s.
Arguments my_mode {D} s.

(** What a WebSocket handshake presents. *)
Inductive ws_auth : Type := NoCookie | Cookie (text : string) | Jar (c : gmap string string).

(** The outside of a station. *)
Record bench (D : Type) := Bench {
  http : request -> D -> outcome response * D;
  ws_opened : nat -> D -> D;                       (* after the handshake and start of [_ws_connect] *)
  ws_up : nat -> ws_auth -> D -> D;            (* after a handshake alone *)
  ws_say : nat -> string -> D -> option exn * D;   (* [ws.send] *)
  ws_inbox : D -> list (outcome string);           (* what the next [ws.recv()] calls meet *)
  ws_left : list (outcome string) -> D -> D;
  ws_lapse : D -> nat -> Q;                        (* the clock while receiving *)
  injector : D -> Injector.world;                  (* a new PacketInjector(port=1) *)
  meanwhile : D -> list (nat * bool);              (* its thread while the test ran *)
  while_joined : D -> list (nat * bool) * list (nat * bool)
}.
Arguments Bench {D}.
Arguments http {D} b.
Arguments ws_opened {D} b.
Arguments ws_up {D} b.
Arguments ws_say {D} b.
Arguments ws_inbox {D} b.
Arguments ws_left {D} b.
Arguments ws_lapse {D} b.
Arguments injector {D} b.
Arguments meanwhile {D} b.
Arguments while_joined {D} b.

Section Tests.
Context {D : Type} (o : bench D) (fuel : nat).
Notation St := (station D).

Definition set_net (a : aworld D) (s : St) : St := Station a (wsw s) (pinging s) (inj s) (my_ws s) (my_ping s) (my_mode s).
Definition set_wsw (w : ws_world) (s : St) : St := Station (net s) w (pinging s) (inj s) (my_ws s) (my_ping s) (my_mode s).
Definition set_pinging (p : gset nat) (s : St) : St := Station (net s) (wsw s) p (inj s) (my_ws s) (my_ping s) (my_mode s).
Definition set_inj (i : Injector.world) (s : St) : St := Station (net s) (wsw s) (pinging s) i (my_ws s) (my_ping s) (my_mode s).
Definition set_my_ws (x : option nat) (s : St) : St := Station (net s) (wsw s) (pinging s) (inj s) x (my_ping s) (my_mode s).
Definition set_my_ping (x : option nat) (s : St) : St := Station (net s) (wsw s) (pinging s) (inj s) (my_ws s) x (my_mode s).
Definition set_my_mode (x : option json) (s : St) : St := Station (net s) (wsw s) (pinging s) (inj s) (my_ws s) (my_ping s) x.
Definition set_device (d : D) (a : aworld D) : aworld D :=
  AWorld d (log a) (cookies a) (open_sessions a) (now a) (cost a).

Definition on_net {A} (m : eff (aworld D) A) : eff St A := fun s =>
  let (r, a) := m (net s) in (r, set_net a s).
Definition on_ws {A} (m : eff ws_world A) : eff St A := fun s =>
  let (r, w) := m (wsw s) in (r, set_wsw w s).
Definition on_inj {A} (m : eff Injector.world A) : eff St A := fun s =>
  let (r, i) := m (inj s) in (r, set_inj i s).
Definition sleep (t : Q) : eff St unit := on_net (asleep t).

(** Receiving: the inbox of the connection and the clock. *)
Definition receiving {A} (m : eff inbox_world A) : eff St A := fun s =>
  let a := net s in
  let clock := fun i => (now a + ws_lapse o (dev a) i)%Q in
  let (r, w) := m (InboxWorld (ws_inbox o (dev a)) clock 0) in
  (r, set_net (AWorld (ws_left o (inbox w) (dev a)) (log a) (cookies a) (open_sessions a) (clock (ireadings w)) (cost a)) s).

(** *** The calls of the tests *)

(** [ws, stop_ping, _ = _ws_connect(api, 1)] *)
Definition ws_connect : eff St unit :=
  let* ws := on_ws _ws_connect in
  modify (fun s => set_my_ping (Some ws) (set_my_ws (Some ws) (set_pinging ({[ ws ]} ∪ pinging s)
    (set_net (set_device (ws_opened o ws (dev (net s))) (net s)) s)))).

(** [ws = websocket.WebSocket(); ws.connect(...)] *)
Definition ws_direct (c : ws_auth) : eff St unit := fun s =>
  (let* id := on_ws handshake in
   modify (fun s => set_net (set_device (ws_up o id c (dev (net s))) (net s)) s)) (set_my_ws (Some (next_ws (wsw s))) s).

(** The same with the cookies of the session. *)
Definition ws_with_cookies : eff St unit := fun s => ws_direct (Jar (cookies (net s))) s.

(** [ws.send(text)] *)
Definition ws_send (text : string) : eff St unit := fun s =>
  match my_ws s with
  | None => (Raise AttributeError, s)
  | Some id =>
      let (e, d) := ws_say o id text (dev (net s)) in
      (match e with None => Ok tt | Some e => Raise e end, set_net (set_device d (net s)) s)
  end.

(** A new stop event and the ping thread that looks at it. *)
Definition start_ping : eff St unit :=
  modify (fun s => match my_ws s with Some id => set_my_ping (Some id) (set_pinging ({[ id ]} ∪ pinging s) s) | None => s end).

(** [stop_ping.set()], if there is one. *)
Definition stop_ping : eff St unit :=
  modify (fun s => match my_ping s with Some id => set_pinging (pinging s ∖ {[ id ]}) s | None => s end).

(** [try: ws.close() except Exception: pass] *)
Definition ws_close : eff St unit := fun s =>
  match my_ws s with Some id => on_ws (close_quietly id) s | None => (Ok tt, s) end.

Definition START : string := with_quotes "{'cmd': 'start', 'port': 1}".
Definition STOP : string := with_quotes "{'cmd': 'stop', 'port': 1}".

Definition quietly (m : eff St unit) : eff St unit := try_except m (catches Exception_) (fun _ => ret tt).

(** [with PacketInjector(port=1): body] *)
Definition with_injector {A} (body : eff St A) : eff St A :=
  modify (fun s => set_inj (injector o (dev (net s))) s) ;;;
  on_inj Injector.start ;;;
  try_finally body
    (fun s => let (s1, s2) := while_joined o (dev (net s)) in
              (modify (fun s => set_inj (Injector.bg_steps (meanwhile o (dev (net s))) (inj s)) s) ;;; on_inj (Injector.stop s1 s2)) s).

(** *** The frame of the tests *)

(** The mode of port 1 in the answer to [/info]. *)
Definition mode_of (j : json) : outcome json :=
  let? port := py_get "rs485_1" j in
  let? mode := py_get "port_mode" (default (JObj []) port) in
  Ok (default (JStr "tcp_bridge") mode).

Definition enter_passive : eff St unit :=
  let* info := on_net (get_info (http o)) in
  assert (status_code info =? 200) ;;;
  let* j := lift (resp_json info) in
  let* mode := lift (mode_of j) in
  modify (set_my_mode (Some mode)) ;;;
  let* r := on_net (set_port_mode_default (http o) 1 (JStr "passive")) in
  assert (status_code r =? 200) ;;;
  sleep (1 # 2).

Definition _baseline : eff St unit := on_net (SlowResponse.sniffer_baseline (http o)).

(** [finally]: the ping thread, the connection, the port mode. *)
Definition restore_mode (mode : json) : eff St unit :=
  let* r := on_net (set_port_mode_default (http o) 1 mode) in
  assert (status_code r =? 200).

(** [if original_port_mode is not None]: nothing was read, or a null. *)
Definition restoring (restore : json -> eff St unit) : eff St unit := fun s =>
  match my_mode s with
  | Some JNull | None => (Ok tt, s)
  | Some mode => restore mode s
  end.

Definition with_stop : eff St unit := fun s =>
  match my_ws s with Some _ => (quietly (ws_send STOP) ;;; ws_close) s | None => (Ok tt, s) end.

Definition clean_up : eff St unit := stop_ping ;;; with_stop ;;; restoring restore_mode.

(** A test starts with [ws = stop_ping = original_port_mode = None]. *)
Definition fresh_locals : eff St unit := modify (fun s => set_my_ws None (set_my_ping None (set_my_mode None s))).

Definition framed (body : eff St unit) : eff St unit :=
  fresh_locals ;;; try_finally (enter_passive ;;; body) clean_up.

(** *** Receive loops *)

Fixpoint receive_loop {A} (fuel : nat) (deadline : Q) (full : A -> bool) (turn : A -> eff inbox_world (A * bool)) (acc : A)
    : eff inbox_world A :=
  match fuel with
  | O => block
  | Datatypes.S fuel =>
      let* now := imonotonic in
      if Qle_bool deadline now then ret acc
      else if full acc then ret acc
      else
        let* r := turn acc in
        if r.2 : bool then ret r.1 else receive_loop fuel deadline full turn r.1
  end.

(** [time.monotonic() + window], then the loop. *)
Definition recv_for {A} (window : Q) (full : A -> bool) (turn : A -> eff inbox_world (A * bool)) (acc : A) : eff St A :=
  receiving (let* now := imonotonic in receive_loop fuel (now + window)%Q full turn acc).

(** One turn: receive, parse, look at the packet; [true] is [break]. *)
Definition turn_of {A} (look : json -> A -> outcome (A * bool)) (acc : A) : eff inbox_world (A * bool) :=
  try_except
    (let* msg := ws_recv in
     if String.eqb msg "" then ret (acc, false)
     else let* pkt := lift (loads msg) in lift (look pkt acc))
    ignored (fun _ => ret (acc, false)).

(** [pkt.get("type") == "packet" and pkt.get("crc_valid") is crc] *)
Definition packet_with_crc (crc : bool) (pkt : json) : outcome bool :=
  let? t := field_is "type" (JStr "packet") pkt in
  if negb t then Ok false
  else let? c := py_get "crc_valid" pkt in Ok (match c with Some (JBool b) => Bool.eqb b crc | _ => false end).

Definition look_all (pkt : json) (acc : list json) : outcome (list json * bool) :=
  let? _ := py_get "crc_valid" pkt in Ok (acc ++ [pkt], false).

Definition look_crc (crc : bool) (pkt : json) (acc : list json) : outcome (list json * bool) :=
  let? b := packet_with_crc crc pkt in Ok (if b : bool then (acc ++ [pkt], true) else (acc, false)).

Definition never {A} (_ : A) : bool := false.

(** [_collect_packets(ws, n, t, filter_fn)]; a filter that uses [get] raises
    on what is not an object. *)
Definition collect (n : Z) (t : Q) : eff St (list json) :=
  receiving (_collect_packets loads (fun _ => true) fuel n t).

Definition object_of (m : string) : outcome json :=
  let? j := loads m in let? _ := py_get "type" j in Ok j.

Definition is_packet (j : json) : bool :=
  match field_is "type" (JStr "packet") j with Ok b => b | _ => false end.
Definition is_valid_packet (j : json) : bool :=
  match packet_with_crc true j with Ok b => b | _ => false end.

Definition collect_if (keep : json -> bool) (n : Z) (t : Q) : eff St (list json) :=
  receiving (_collect_packets object_of keep fuel n t).

(** *** The tests *)

Definition wanted (crc : bool) (crcs : list (option bool)) : Z :=
  zlen (List.filter (fun c => match c with Some b => Bool.eqb b crc | None => false end) crcs).

(** The three phases of the first test. *)
Definition phases : eff St unit :=
  let* packets := recv_for 15 (fun acc => 20 <=? zlen acc) (turn_of look_all) [] in
  assert (0 <? zlen packets) ;;;
  let* crcs := lift (each packet_checked packets) in
  assert (1 <=? wanted true crcs) ;;;
  (if wanted false crcs =? 0 then
     let* invalid := recv_for 30 never (turn_of (look_crc false)) [] in
     assert (1 <=? zlen invalid)
   else assert (1 <=? wanted false crcs)) ;;;
  let* post_bad_crc := recv_for 5 never (turn_of (look_crc true)) [] in
  assert (1 <=? zlen post_bad_crc).

(** Here the [finally] sends no stop and turns only an exception of the
    restore into a failure. *)
Definition restore_unchecked (mode : json) : eff St unit :=
  try_except (let* _ := on_net (set_port_mode_default (http o) 1 mode) in ret tt) (catches Exception_)
    (fun _ => raise AssertionError).

Definition test_sniffer_websocket : eff St unit :=
  fresh_locals ;;;
  try_finally
    (enter_passive ;;;
     with_injector (ws_with_cookies ;;; ws_send START ;;; start_ping ;;; phases))
    (stop_ping ;;; ws_close ;;; restoring restore_unchecked).

(** The two tests without a valid session: whether the server closed. *)
Definition closing (e : exn) : bool :=
  catches WebSocketConnectionClosed e || catches ConnectionResetError e || catches OSError e.

Definition closed_after_upgrade : eff St bool :=
  receiving (try_except (let* _ := ws_recv in ret false)
    (fun e => closing e || catches WebSocketTimeoutException e) (fun e => ret (closing e))).

Definition ws_refused (c : ws_auth) : eff St unit :=
  fresh_locals ;;;
  let* closed :=
    try_finally
      (try_except (ws_direct c ;;; closed_after_upgrade)
         (fun e => closing e || catches WebSocketBadStatusException e) (fun _ => ret true))
      ws_close in
  assert closed.

Definition test_sniffer_ws_no_auth : eff St unit := ws_refused NoCookie.
Definition test_sniffer_ws_invalid_cookie : eff St unit := ws_refused (Cookie "session_id=9999999999").

Definition test_sniffer_ws_packet_port_field_matches_started_port : eff St unit :=
  framed (with_injector (ws_connect ;;; let* packets := collect_if is_packet 5 15 in lift (port_verdict packets))).

Definition test_sniffer_ws_id_monotonically_increasing : eff St unit :=
  framed (with_injector (ws_connect ;;; let* packets := collect 10 15 in lift (id_verdict packets))).

Definition test_sniffer_ws_timestamp_positive_and_plausible : eff St unit :=
  framed (with_injector (ws_connect ;;; let* packets := collect 5 15 in lift (timestamp_verdict packets))).

Definition test_sniffer_ws_raw_field_is_hex_and_matches_size : eff St unit :=
  framed (with_injector (ws_connect ;;; let* packets := collect_if is_packet 5 15 in lift (raw_verdict packets))).

Definition test_sniffer_ws_stream_splitter_produces_separate_request_and_response : eff St unit :=
  framed (with_injector (ws_connect ;;; let* packets := collect_if is_valid_packet 10 15 in lift (splitter_verdict packets))).

Definition test_sniffer_ws_sender_alternates_master_slave : eff St unit :=
  framed (with_injector (ws_connect ;;; let* packets := collect_if is_valid_packet 10 15 in lift (pairs_verdict packets))).

(** [body.get("port_1") is False] in [/sniffer/status] *)
Definition status_stopped : eff St unit :=
  let* r := on_net (get_sniffer_status (http o)) in
  assert (status_code r =? 200) ;;;
  let* j := lift (resp_json r) in
  let* v := lift (py_get "port_1" j) in
  assert (match v with Some (JBool false) => true | _ => false end).

Definition garbled (e : exn) : bool :=
  catches WebSocketPayloadException e || catches WebSocketProtocolException e || catches JSONDecodeError e.

(** Draining: one receive that times out ends it. *)
Definition drain_turn (silent : Z) : eff inbox_world (Z * bool) :=
  try_except (let* msg := ws_recv in ret (if String.eqb msg "" then silent else 0, false))
    (fun e => catches WebSocketTimeoutException e || garbled e)
    (fun e => ret (if catches WebSocketTimeoutException e then (silent + 1, 1 <=? silent + 1) else (silent, false))).

Definition silence_turn : list json -> eff inbox_world (list json * bool) :=
  turn_of (fun pkt acc => Ok (acc ++ [pkt], false)).

Definition test_sniffer_ws_stop_command_stops_stream : eff St unit :=
  fresh_locals ;;;
  try_finally
    (enter_passive ;;;
     with_injector (ws_connect ;;; let* pre_stop := collect 1 10 in assert (1 <=? zlen pre_stop)) ;;;
     stop_ping ;;; ws_send STOP ;;;
     (let* _ := recv_for 10 never drain_turn 0 in ret tt) ;;;
     (let* post_stop_packets := recv_for 3 never silence_turn [] in assert (zlen post_stop_packets =? 0)) ;;;
     status_stopped)
    (stop_ping ;;; ws_close ;;; restoring restore_mode).

Definition malformed_messages : list string :=
  ["not json"; "{}"; with_quotes "{'cmd':'start'}"; with_quotes "{'cmd':'start','port':'x'}"].

Definition probe (bad_msg : string) : eff St unit :=
  ws_send bad_msg ;;;
  receiving (try_except (let* _ := ws_recv in ret tt)
    (fun e => catches WebSocketTimeoutException e || catches WebSocketConnectionClosed e || garbled e)
    (fun e => if catches WebSocketTimeoutException e then ret tt
              else if catches WebSocketConnectionClosed e then raise PytestFail else ret tt)).

Fixpoint probe_all (msgs : list string) : eff St unit :=
  match msgs with [] => ret tt | m :: msgs => probe m ;;; probe_all msgs end.

(** A second connection with a ping thread of its own, and packets on it. *)
Definition start_again : eff St unit :=
  ws_close ;;; sleep 1 ;;;
  ws_with_cookies ;;; start_ping ;;; ws_send START ;;;
  let* packets := collect 3 10 in assert (3 <=? zlen packets).

Definition test_sniffer_ws_malformed_json_does_not_crash : eff St unit :=
  framed (with_injector (ws_with_cookies ;;; probe_all malformed_messages ;;; start_again)).

Definition test_sniffer_ws_stop_before_start_does_not_crash : eff St unit :=
  framed (with_injector
    (ws_with_cookies ;;; start_ping ;;; ws_send STOP ;;; sleep (3 # 10) ;;; status_stopped ;;; stop_ping ;;; start_again)).

(** After the [finally] the restored mode is read back. *)
Definition mode_restored : eff St unit :=
  let* info := on_net (get_info (http o)) in
  assert (status_code info =? 200) ;;;
  let* j := lift (resp_json info) in
  let* port := lift (py_get "rs485_1" j) in
  let* mode := lift (py_get "port_mode" (default (JObj []) port)) in
  fun s => assert (jeq (default JNull mode) (default JNull (my_mode s))) s.

Definition test_sniffer_ws_cleanup_restores_port_mode : eff St unit :=
  on_net reconnect ;;;
  framed (with_injector (ws_connect ;;; let* packets := collect 1 10 in assert (1 <=? zlen packets))) ;;;
  mode_restored.

End Tests.

(** ** Every test gives back what it took *)

(** What a call may leave when it returns and when it raises. *)
Definition triple {W A} (P : W -> Prop) (m : eff W A) (Q : A -> W -> Prop) (X : W -> Prop) : Prop := forall w, P w ->
  match m w with
  | (Ok a, w') => Q a w'
  | (Raise _, w') => X w'
  | (Blocked, _) => False
  end.

Section Triples.
Context {W : Type}.

Lemma spec_bind {A B} (P : W -> Prop) (m : eff W A) (k : A -> eff W B) Q R X :
  triple P m Q X -> (forall a, triple (Q a) (k a) R X) -> triple P (bind m k) R X.
Proof.
  intros Hm Hk w Hw. specialize (Hm w Hw). unfold bind. destruct (m w) as [[a|e|] w']; try done. by apply Hk.
Qed.

Lemma triple_seq {A B} (P Q : W -> Prop) (m : eff W A) (k : eff W B) R X :
  triple P m (fun _ => Q) X -> triple Q k R X -> triple P (m ;;; k) R X.
Proof. intros Hm Hk. eapply spec_bind; [exact Hm|]. intros a. exact Hk. Qed.

Lemma spec_weaken {A} (P P' : W -> Prop) (m : eff W A) (Q Q' : A -> W -> Prop) (X X' : W -> Prop) :
  triple P m Q X -> (forall w, P' w -> P w) -> (forall a w, Q a w -> Q' a w) -> (forall w, X w -> X' w) -> triple P' m Q' X'.
Proof.
  intros Hm HP HQ HX w Hw. specialize (Hm w (HP w Hw)). destruct (m w) as [[a|e|] w']; auto.
Qed.

Lemma triple_finally {A} (P : W -> Prop) (m : eff W A) f (Q : A -> W -> Prop) X R :
  triple P m Q X -> (forall a, triple (Q a) f (fun _ => R) R) -> triple X f (fun _ => R) R ->
  triple P (try_finally m f) (fun _ => R) R.
Proof.
  intros Hm Hf HX w Hw. specialize (Hm w Hw). unfold try_finally. destruct (m w) as [[a|e|] w']; [| |done].
  - specialize (Hf a w' Hm). by destruct (f w') as [[?|?|] ?].
  - specialize (HX w' Hm). by destruct (f w') as [[?|?|] ?].
Qed.

Lemma triple_ret {A} (P : W -> Prop) (a : A) X : triple P (ret a) (fun _ => P) X.
Proof. by intros w Hw. Qed.

Lemma triple_lift {A} (P : W -> Prop) (r : outcome A) : settled r -> triple P (lift r) (fun _ => P) P.
Proof. intros Hr w Hw. unfold lift. by destruct r. Qed.

Lemma triple_assert (P : W -> Prop) b : triple P (assert b) (fun _ => P) P.
Proof. intros w Hw. by destruct b. Qed.

Lemma triple_modify (P Q : W -> Prop) f X : (forall w, P w -> Q (f w)) -> triple P (modify f) (fun _ => Q) X.
Proof. intros H w Hw. by apply H. Qed.

Lemma triple_ex {A I} (P : I -> W -> Prop) (m : eff W A) Q X :
  (forall i, triple (P i) m Q X) -> triple (fun w => exists i, P i w) m Q X.
Proof. intros H w [i Hw]. exact (H i w Hw). Qed.

End Triples.

(** Failures of the kinds the code expects, messages the parser decides, and
    a clock that passes the longest window within [fuel] looks. *)
Record fair {D} (o : bench D) (fuel : nat) : Prop := {
  fair_http : forall q d, settled (http o q d).1;
  fair_say : forall n m d e, (ws_say o n m d).1 = Some e -> catches Exception_ e = true;
  fair_inbox : forall d, Forall (readable loads) (ws_inbox o d);
  fair_clock : forall d, exists m, (m < fuel)%nat /\ forall i, (m <= i)%nat -> (ws_lapse o d 0 + 30 <= ws_lapse o d i)%Q;
  fair_injector : forall d, exists ce se cle spe, injector o d = Injector.injector_init (Injector.default_config 1) ce se cle spe
}.

Definition one_of (x : option nat) : gset nat := match x with Some i => {[ i ]} | None => ∅ end.

Section Held.
Context {D : Type} (o : bench D) (fuel : nat) (Hfair : fair o fuel).
Notation St := (station D).
Context (n0 : nat) (O P : gset nat).
Hypothesis HO : forall x, x ∈ O -> (x < n0)%nat.
Hypothesis HP : forall x, x ∈ P -> (x < n0)%nat.

(** Beyond [O] and [P] only the test's own connection and ping thread may be
    there, with ids from [n0] on. *)
Record held (i : Injector.world) (mm : option json) (s : St) : Prop := {
  hd_sane : ws_sane (wsw s);
  hd_ws : open_ws (wsw s) ∖ one_of (my_ws s) = O;
  hd_ping : pinging s ∖ one_of (my_ping s) = P;
  hd_next : (n0 <= next_ws (wsw s))%nat;
  hd_new_ws : forall x, my_ws s = Some x -> (n0 <= x < next_ws (wsw s))%nat;
  hd_new_ping : forall x, my_ping s = Some x -> (n0 <= x < next_ws (wsw s))%nat;
  hd_inj : inj s = i;
  hd_mode : my_mode s = mm
}.

Definition no_ws (s : St) : Prop := open_ws (wsw s) = O.
Definition no_ping (s : St) : Prop := pinging s = P.
Definition bare i mm (s : St) : Prop := held i mm s /\ no_ws s /\ no_ping s.

Lemma not_old (A : gset nat) x : (forall y, y ∈ A -> (y < n0)%nat) -> (n0 <= x)%nat -> A ∖ {[ x ]} = A.
Proof. intros H Hx. apply difference_fresh. intros Hi%H. lia. Qed.

Lemma union_not_old (A : gset nat) x : (forall y, y ∈ A -> (y < n0)%nat) -> (n0 <= x)%nat -> ({[ x ]} ∪ A) ∖ {[ x ]} = A.
Proof.
  intros H Hx. assert (x ∉ A) by (intros Hi%H; lia). apply set_eq. intros j.
  rewrite elem_of_difference, elem_of_union, elem_of_singleton. destruct (decide (j = x)) as [->|]; naive_solver.
Qed.

(** *** Calls that only move the network *)

Definition netonly {A} (m : eff St A) : Prop := forall s, settled (m s).1 /\ exists a, (m s).2 = set_net a s.

Lemma triple_net {A} (Q : St -> Prop) (m : eff St A) :
  netonly m -> (forall a s, Q s -> Q (set_net a s)) -> triple Q m (fun _ => Q) Q.
Proof.
  intros Hm HQ s Hs. destruct (Hm s) as [Hr [a Ha]]. destruct (m s) as [[x|e|] s']; cbn in Ha; subst; auto.
Qed.

Lemma net_on_net {A} (m : eff (aworld D) A) : (forall a, settled (m a).1) -> netonly (on_net m).
Proof. intros H s. unfold on_net. specialize (H (net s)). destruct (m (net s)) as [r a]. split; [done|]. by exists a. Qed.

Lemma set_net_net a s : set_net a (set_net (D := D) (net s) s) = set_net a s.
Proof. by destruct s. Qed.

Lemma net_bind {A B} (m : eff St A) (k : A -> eff St B) : netonly m -> (forall a, netonly (k a)) -> netonly (bind m k).
Proof.
  intros Hm Hk s. unfold bind. destruct (Hm s) as [Hr [a Ha]]. destruct (m s) as [[x|e|] s']; cbn in *; subst.
  - destruct (Hk x (set_net a s)) as [Hr2 [a2 Ha2]]. split; [done|]. by exists a2.
  - split; [done|]. by exists a.
  - done.
Qed.

Lemma net_pure {A} (r : outcome A) : settled r -> netonly (lift r).
Proof. intros H s. split; [done|]. exists (net s). by destruct s. Qed.

Lemma net_assert b : netonly (assert b).
Proof. intros s. unfold assert. destruct b; (split; [done|]; exists (net s); by destruct s). Qed.

Lemma net_ret {A} (a : A) : netonly (ret a).
Proof. by apply (net_pure (Ok a)). Qed.

Lemma net_sleep t : netonly (sleep t).
Proof. by apply net_on_net. Qed.

Lemma net_send text : netonly (ws_send o text).
Proof.
  intros s. unfold ws_send. destruct (my_ws s) as [id|]; [|split; [done|]; exists (net s); by destruct s].
  destruct (ws_say o id text (dev (net s))) as [[e|] d]; (split; [done|]; by eexists).
Qed.

Lemma request_settled q a : settled (session_request (http o) q a).1.
Proof. apply session_request_settled, (fair_http _ _ Hfair). Qed.

Lemma station_mode_settled mode a : settled (set_port_mode_default (http o) 1 mode a).1.
Proof. apply mode_attempts_settled, (fair_http _ _ Hfair). Qed.

(** *** Receiving ends *)

Definition good_inbox (w : inbox_world) : Prop := Forall (readable loads) (inbox w).

(** A turn of a receive loop: it ends, reads no clock and only takes from the
    inbox. *)
Definition good_turn {A} (turn : A -> eff inbox_world (A * bool)) : Prop := forall acc w, good_inbox w ->
  settled (turn acc w).1 /\ iclock (turn acc w).2 = iclock w /\ ireadings (turn acc w).2 = ireadings w /\ good_inbox (turn acc w).2.

(** A receive and what is done with it. *)
Lemma recv_good {A} (k : string -> outcome A) c (h : exn -> eff inbox_world A) w :
  (forall m, loads m <> Blocked -> settled (k m)) -> (forall e w, settled (h e w).1 /\ (h e w).2 = w) -> good_inbox w ->
  let p := try_except (let* m := ws_recv in lift (k m)) c h w in
  settled p.1 /\ iclock p.2 = iclock w /\ ireadings p.2 = ireadings w /\ good_inbox p.2.
Proof.
  intros Hk Hh Hw. unfold good_inbox in *. cbn zeta. unfold try_except, bind, lift, ws_recv.
  destruct (inbox w) as [|m q] eqn:E.
  - destruct (c WebSocketTimeoutException).
    + destruct (Hh WebSocketTimeoutException w) as [H1 H2]. rewrite H2. split_and!; try done. by rewrite E.
    + split_and!; try done. cbn. by rewrite E.
  - inversion Hw as [|? ? Hm Hq]; subst. set (w1 := InboxWorld q (iclock w) (ireadings w)).
    assert (forall e, let p := (if c e then h e w1 else (Raise e, w1)) in
      settled p.1 /\ iclock p.2 = iclock w /\ ireadings p.2 = ireadings w /\ Forall (readable loads) (inbox p.2)) as Hex.
    { intros e. cbn zeta. destruct (c e); [|done]. by destruct (Hh e w1) as [H1 ->]. }
    destruct m as [m|e|]; [|apply Hex|done]. specialize (Hk m Hm). destruct (k m) as [a|e|]; [done|apply Hex|done].
Qed.

Lemma receive_loop_settled {A} (turn : A -> eff inbox_world (A * bool)) full deadline fl acc w m :
  good_turn turn -> (forall i, (m <= i)%nat -> (deadline <= iclock w i)%Q) -> (m - ireadings w < fl)%nat -> good_inbox w ->
  settled (receive_loop fl deadline full turn acc w).1.
Proof.
  intros Ht. revert acc w. induction fl as [|fl IH]; intros acc w Hm Hf Hw; [lia|]. cbn [receive_loop]. unfold bind, imonotonic.
  destruct (Qle_bool deadline (iclock w (ireadings w))) eqn:E; [done|]. destruct (full acc); [done|].
  set (w1 := InboxWorld (inbox w) (iclock w) (Datatypes.S (ireadings w))).
  destruct (Ht acc w1 Hw) as (H1 & H2 & H3 & H4). destruct (turn acc w1) as [[[acc' b]|e|] w2]; cbn [fst snd] in *; [|done|done].
  destruct b; [done|].
  assert (ireadings w < m)%nat as Hlt.
  { destruct (decide (ireadings w < m)%nat); [done|].
    assert (deadline <= iclock w (ireadings w))%Q as H%Qle_bool_iff by (apply Hm; lia). congruence. }
  apply IH; [|rewrite H3; cbn; lia|done]. intros i Hi. rewrite H2. by apply Hm.
Qed.

Lemma net_receiving {A} (m : eff inbox_world A) :
  (forall w, good_inbox w -> ireadings w = 0%nat ->
     (exists k, (k < fuel)%nat /\ forall i, (k <= i)%nat -> (iclock w 0%nat + 30 <= iclock w i)%Q) -> settled (m w).1) ->
  netonly (receiving o m).
Proof.
  intros H s. unfold receiving. set (w := InboxWorld _ _ 0).
  specialize (H w (fair_inbox _ _ Hfair _) eq_refl). destruct (m w) as [r w']. split; [|by eexists]. apply H.
  destruct (fair_clock _ _ Hfair (dev (net s))) as (k & Hk & Hc). exists k. split; [done|]. intros i Hi. cbn.
  specialize (Hc i Hi). lra.
Qed.

Lemma net_recv_for {A} window full (turn : A -> eff inbox_world (A * bool)) acc :
  (window <= 30)%Q -> good_turn turn -> netonly (recv_for o fuel window full turn acc).
Proof.
  intros Hw Ht. apply net_receiving. intros w Hin H0 (k & Hk & Hc). unfold bind, imonotonic. rewrite H0.
  apply (receive_loop_settled _ _ _ _ _ _ k); [done| |cbn; lia|done]. cbn. intros i Hi. specialize (Hc i Hi). lra.
Qed.

Lemma net_collecting parse keep n t :
  (t <= 30)%Q -> (forall m, loads m <> Blocked -> parse m <> Blocked) ->
  netonly (receiving o (_collect_packets (P := json) parse keep fuel n t)).
Proof.
  intros Ht Hp. apply net_receiving. intros w Hin H0 (k & Hk & Hc).
  pose proof (collect_packets_prefix parse keep fuel n t w k) as H. rewrite H0 in H.
  destruct (_collect_packets parse keep fuel n t w) as [r w']. apply H.
  - intros i Hi. specialize (Hc i Hi). lra.
  - lia.
  - eapply Forall_impl; [exact Hin|]. intros [m|e|]; [apply Hp|done|done].
Qed.

Lemma turn_of_good {A} (look : json -> A -> outcome (A * bool)) : (forall p acc, settled (look p acc)) -> good_turn (turn_of look).
Proof.
  intros Hl acc w Hw. unfold turn_of.
  pose proof (recv_good (fun msg => if String.eqb msg "" then Ok (acc, false) else let? pkt := loads msg in look pkt acc)
    ignored (fun _ => ret (acc, false)) w) as H.
  assert (forall w, try_except (let* msg := ws_recv in if String.eqb msg "" then ret (acc, false)
       else let* pkt := lift (loads msg) in lift (look pkt acc)) ignored (fun _ => ret (acc, false)) w =
     try_except (let* m := ws_recv in lift (if String.eqb m "" then Ok (acc, false) else let? pkt := loads m in look pkt acc))
       ignored (fun _ => ret (acc, false)) w) as E.
  { intros w0. unfold try_except, bind, lift, ret. destruct (ws_recv w0) as [[m|e|] w1]; try done.
    destruct (String.eqb m ""); [done|]. by destruct (loads m). }
  rewrite E. apply H; [|done|done]. intros m Hm. destruct (String.eqb m ""); [done|]. by apply obind_settled.
Qed.

(** *** Connections, ping threads and the injector *)

Lemma held_set_net i mm a s : held i mm s -> held i mm (set_net a s).
Proof. by intros [H1 H2 H3 H4 H5 H6 H7 H8]; split. Qed.

Lemma bare_set_net i mm a s : bare i mm s -> bare i mm (set_net a s).
Proof. intros (H1 & H2 & H3). split; [by apply held_set_net|done]. Qed.

(** What is held when a call raises. *)
Notation Held i mm := (held i mm).

Lemma triple_connect i mm : triple (bare i mm) (ws_connect o) (fun _ => held i mm) (held i mm).
Proof.
  intros s ([H1 H2 H3 H4 H5 H6 H7 H8] & Hw & Hp). unfold ws_connect, bind, on_ws, modify.
  destruct (ws_connect_spec (wsw s) H1) as (r & w & E & Hs & Hr). pose proof (ws_connect_new _ _ _ H1 E) as Hnew. rewrite E. unfold no_ws, no_ping in *.
  destruct r as [id|ex|]; [| |done].
  - destruct Hr as [Hf Ho]. destruct Hnew as [Hn1 Hn2]. specialize (Hn2 id eq_refl).
    split; cbn; try done; try lia.
    + rewrite Ho, Hw. apply union_not_old; [done|lia].
    + rewrite Hp. apply union_not_old; [done|lia].
    + intros x [= <-]. lia.
    + intros x [= <-]. lia.
  - destruct Hr as [Ho _]. destruct Hnew as [Hn1 _]. split; cbn; try done; try lia.
    + by rewrite Ho.
    + intros x Hx. specialize (H5 x Hx). lia.
    + intros x Hx. specialize (H6 x Hx). lia.
Qed.

(** A second handshake needs the first connection closed. *)
Lemma triple_direct i mm c (Q : St -> Prop) :
  (forall s s', pinging s = pinging s' -> Q s -> Q s') ->
  triple (fun s => held i mm s /\ no_ws s /\ Q s) (ws_direct o c)
    (fun _ s => held i mm s /\ is_Some (my_ws s) /\ Q s) (fun s => held i mm s /\ Q s).
Proof.
  intros HQ s ([H1 H2 H3 H4 H5 H6 H7 H8] & Hw & Hq). unfold ws_direct, bind, on_ws, modify, handshake. unfold no_ws in Hw.
  cbn [wsw set_my_ws]. pose proof H1 as (_ & _ & _ & Hlt).
  assert (forall e, ws_sane (set_open (e ∪ open_ws (wsw s)) (Datatypes.S (next_ws (wsw s))) (wsw s)) \/
     ~ (forall x, x ∈ e -> (x < Datatypes.S (next_ws (wsw s)))%nat)) as Hsane.
  { intros e. destruct (decide (set_Forall (fun x => (x < Datatypes.S (next_ws (wsw s)))%nat) e)) as [He|He]; [left|right; exact He].
    apply set_open_sane; [done|]. intros x [Hx|Hx]%elem_of_union; [by apply He|]. apply Hlt in Hx. lia. }
  destruct (ws_connect_err (wsw s) (next_ws (wsw s))) as [e|]; cbn.
  - split; [|by eapply HQ; [|exact Hq]]. split; cbn; try done; try lia.
    + destruct (Hsane ∅) as [H|H]; [by rewrite union_empty_l_L in H|]. exfalso. apply H. set_solver.
    + rewrite Hw. apply not_old; [done|lia].
    + intros x [= <-]. lia.
    + intros x Hx. specialize (H6 x Hx). lia.
  - split; [|split; [by eexists|by eapply HQ; [|exact Hq]]]. split; cbn; try done; try lia.
    + destruct (Hsane {[ next_ws (wsw s) ]}) as [H|H]; [done|]. exfalso. apply H. intros x ->%elem_of_singleton. lia.
    + rewrite Hw. apply union_not_old; [done|lia].
    + intros x [= <-]. lia.
    + intros x Hx. specialize (H6 x Hx). lia.
Qed.

Lemma triple_start_ping i mm :
  triple (fun s => held i mm s /\ is_Some (my_ws s) /\ no_ping s) start_ping (fun _ => held i mm) (held i mm).
Proof.
  intros s ([H1 H2 H3 H4 H5 H6 H7 H8] & [id Hid] & Hp). unfold start_ping, modify. rewrite Hid. unfold no_ping in Hp.
  specialize (H5 id Hid). split; cbn; try done; try lia.
  - rewrite Hp. apply union_not_old; [done|lia].
  - intros x Hx. rewrite Hid in Hx. injection Hx as <-. lia.
  - intros x [= <-]. lia.
Qed.

Lemma triple_stop_ping i mm (Q : St -> Prop) :
  (forall s p, Q s -> Q (set_pinging p s)) ->
  triple (fun s => held i mm s /\ Q s) stop_ping (fun _ s => held i mm s /\ no_ping s /\ Q s) (fun _ => False).
Proof.
  intros HQ s [[H1 H2 H3 H4 H5 H6 H7 H8] Hq]. unfold stop_ping, modify. destruct (my_ping s) as [id|] eqn:E; cbn in H3.
  - split; [|split; [exact H3|by apply HQ]]. split; cbn; try done. rewrite E. cbn. rewrite H3. specialize (H6 id eq_refl).
    apply not_old; [done|lia]. intros x Hx. apply H6. congruence.
  - split; [by split; rewrite ?E|]. split; [|done]. unfold no_ping. set_solver.
Qed.

Lemma triple_close i mm (Q : St -> Prop) :
  (forall s w, Q s -> Q (set_wsw w s)) ->
  triple (fun s => held i mm s /\ Q s) ws_close (fun _ s => held i mm s /\ no_ws s /\ Q s) (fun _ => False).
Proof.
  intros HQ s [[H1 H2 H3 H4 H5 H6 H7 H8] Hq]. unfold ws_close. destruct (my_ws s) as [id|] eqn:E; cbn in H2.
  - unfold on_ws. rewrite close_quietly_spec by done. split; [|split; [exact H2|by apply HQ]].
    specialize (H5 id eq_refl). pose proof H1 as (_ & _ & _ & Hlt). split; cbn; try done; try lia.
    + apply set_open_sane; [done|]. intros x Hx. apply Hlt. set_solver.
    + rewrite E. cbn. rewrite H2. apply not_old; [done|lia].
    + intros x Hx. rewrite E in Hx. injection Hx as <-. lia.
  - split; [by split; rewrite ?E|]. split; [|done]. unfold no_ws. set_solver.
Qed.

Lemma triple_with_stop i mm (Q : St -> Prop) :
  (forall s a, Q s -> Q (set_net a s)) -> (forall s w, Q s -> Q (set_wsw w s)) ->
  triple (fun s => held i mm s /\ Q s) (with_stop o) (fun _ s => held i mm s /\ no_ws s /\ Q s) (fun _ => False).
Proof.
  intros HQn HQ s [Hh Hq]. unfold with_stop. destruct (my_ws s) as [id|] eqn:E.
  - assert (exists a, quietly (ws_send o STOP) s = (Ok tt, set_net a s)) as [a Ha].
    { unfold quietly, try_except, ws_send. rewrite E. pose proof (fair_say _ _ Hfair id STOP (dev (net s))) as Hs.
      destruct (ws_say o id STOP (dev (net s))) as [[e|] d]; [rewrite (Hs e eq_refl)|]; by eexists. }
    unfold bind. rewrite Ha. apply (triple_close i mm Q HQ). split; [by apply held_set_net|by apply HQn].
  - split; [done|]. split; [|done]. unfold no_ws. destruct Hh as [_ H2 _ _ _ _ _ _]. rewrite E in H2. cbn in H2. set_solver.
Qed.

Definition idle (i : Injector.world) : Prop := Injector.open_socks i = ∅.

Lemma held_set_inj i j mm s : held i mm s -> held j mm (set_inj j s).
Proof. by intros [H1 H2 H3 H4 H5 H6 H7 H8]; split. Qed.

Lemma triple_with_injector mm (body : eff St unit) :
  (forall i, triple (bare i mm) body (fun _ => held i mm) (held i mm)) ->
  triple (fun s => exists i, idle i /\ bare i mm s) (with_injector o body)
    (fun _ s => exists i, idle i /\ held i mm s) (fun s => exists i, idle i /\ held i mm s).
Proof.
  intros Hbody s (i & Hi & Hs & Hw & Hp). unfold with_injector, bind at 1, modify. set (s0 := set_inj _ s).
  destruct (fair_injector _ _ Hfair (dev (net s))) as (ce & se & cle & spe & Einj).
  assert (held (injector o (dev (net s))) mm s0) as Hs0 by (by eapply held_set_inj).
  assert (Injector.owned (inj s0)) as Ho by (unfold s0; cbn; rewrite Einj; by split).
  pose proof (Injector.owned_start _ Ho) as Ho1. pose proof (Injector.total_start (inj s0)) as Ht.
  assert (Injector.thread (inj s0) = None) as Hth by (unfold s0; cbn; by rewrite Einj).
  unfold bind at 1, on_inj at 1.
  destruct (Injector.start (inj s0)) as [[[]|e|] i1] eqn:Estart; cbn [fst snd] in *; [| |done].
  - assert (bare i1 mm (set_inj i1 s0)) as Hb by (split; [by eapply held_set_inj|done]).
    revert Hb. generalize (set_inj i1 s0). clear -Hbody Ho1. intros s1 Hs1.
    refine (triple_finally (bare i1 mm) body _ (fun _ => held i1 mm) (held i1 mm) _ (Hbody i1) _ _ s1 Hs1);
      [intros _|]; clear -Ho1; intros s Hs; destruct (while_joined o (dev (net s))) as [j1 j2];
      unfold bind, modify, on_inj; cbn [inj set_inj]; rewrite (hd_inj _ _ _ Hs);
      set (i2 := Injector.bg_steps _ i1);
      (assert (Injector.owned i2) as Ho2 by (eapply Injector.quiet_owned; [apply Injector.quiet_bg_steps, Ho1|done]));
      destruct (Injector.owned_stop j1 j2 i2 Ho2) as [[Ho3 _ _ _] Hn]; pose proof (Injector.total_stop j1 j2 i2) as Ht;
      destruct (Injector.stop j1 j2 i2) as [[[]|e|] i3]; cbn [fst snd] in *; try done;
      (exists i3; split; [unfold idle; by rewrite Hn in Ho3|]); by eapply held_set_inj, held_set_inj.
  - exists i1. split; [|by eapply held_set_inj]. unfold idle. destruct Ho1 as [Ho1 _ _ _]. by rewrite (Injector.start_raises _ _ _ Ho Hth Estart) in Ho1.
Qed.

(** *** The frame *)

(** The mode the test reads before it changes it, if it gets that far. *)
Definition info_mode (d : D) : option json :=
  match (http o info_request d).1 with
  | Ok resp =>
      if status_code resp =? 200 then
        match body_json resp with
        | Some j => match mode_of j with Ok mode => Some mode | _ => None end
        | None => None
        end
      else None
  | _ => None
  end.

Definition resting mm (s : St) : Prop := exists i, idle i /\ bare i mm s.
Definition holding mm (s : St) : Prop := exists i, idle i /\ held i mm s.

Lemma resting_set_net mm a s : resting mm s -> resting mm (set_net a s).
Proof. intros (i & Hi & Hb). exists i. split; [done|]. by apply bare_set_net. Qed.

Lemma holding_set_net mm a s : holding mm s -> holding mm (set_net a s).
Proof. intros (i & Hi & Hb). exists i. split; [done|]. by apply held_set_net. Qed.

Lemma resting_holding mm s : resting mm s -> holding mm s.
Proof. intros (i & Hi & Hb & _). by exists i. Qed.

Lemma resting_mode mm mm' s : resting mm s -> resting mm' (set_my_mode mm' s).
Proof. intros (i & Hi & [H1 H2 H3 H4 H5 H6 H7 H8] & Hw & Hp). exists i. split; [done|]. split; [by split|by split]. Qed.

Lemma mode_of_settled j : settled (mode_of j).
Proof. unfold mode_of. apply obind_settled; [by destruct j|]. intros p. apply obind_settled; [by destruct (default _ p)|done]. Qed.

Lemma net_passive : netonly (let* r := on_net (set_port_mode_default (http o) 1 (JStr "passive")) in assert (status_code r =? 200) ;;; sleep (1 # 2)).
Proof.
  apply net_bind; [apply net_on_net, station_mode_settled|]. intros r. apply net_bind; [apply net_assert|]. intros _. apply net_sleep.
Qed.

Lemma triple_enter d :
  triple (fun s => resting None s /\ dev (net s) = d) (enter_passive o) (fun _ => resting (info_mode d)) (resting (info_mode d)).
Proof.
  intros s [Hs Hd]. unfold enter_passive, get_info, http_get, bind at 1, on_net.
  change (Request GET "/info" None (scalar 10)) with info_request.
  destruct (session_request_spec (http o) info_request (net s)) as (r & d' & t & c & -> & Hd' & _).
  assert (settled r) as Hr by (pose proof (fair_http _ _ Hfair info_request (dev (net s))) as H; by rewrite Hd' in H).
  unfold info_mode. rewrite <- Hd, Hd'. cbn [fst]. set (a := AWorld _ _ _ _ _ _).
  pose proof (resting_set_net None a s Hs) as Ha. destruct r as [resp|e|]; [|exact Ha|done].
  unfold bind at 1. unfold assert. destruct (status_code resp =? 200); [|exact Ha]. unfold ret, bind at 1, lift, resp_json.
  destruct (body_json resp) as [j|]; [|exact Ha]. unfold bind at 1. pose proof (mode_of_settled j) as Hm.
  destruct (mode_of j) as [mode|e|]; [|exact Ha|done]. unfold bind at 1, modify.
  apply (triple_net (resting (Some mode)) _ net_passive); [intros; by apply resting_set_net|]. by eapply resting_mode.
Qed.

#[local] Instance meth_post_dec (q : request) : Decision (meth q = POST).
Proof. destruct (meth q); [right; discriminate|left; reflexivity]. Defined.

(** The last request that writes. *)
Definition last_write (a : aworld D) : option request := last (filter (fun q => meth q = POST) (log a)).

(** Nothing of the test is left, and what it wrote last is [mm]. *)
Record finished (mm : option json) (s : St) : Prop := {
  fin_ws : no_ws s;
  fin_ping : no_ping s;
  fin_inj : idle (inj s);
  fin_mode : my_mode s = mm;
  fin_write : forall mode, mm = Some mode -> mode <> JNull -> last_write (net s) = Some (mode_request 1 mode)
}.

Lemma mode_writes mode s :
  exists r a, on_net (set_port_mode_default (http o) 1 mode) s = (r, set_net a s) /\ settled r /\
    last_write a = Some (mode_request 1 mode).
Proof.
  unfold on_net. pose proof (station_mode_settled mode (net s)) as Hr. unfold set_port_mode_default, set_port_mode in *.
  destruct (mode_attempts_spec (http o) 2 (mode_request 1 mode) (1 # 2) (net s)) as (n & r & a & E & Hn & Hl & _ & _).
  rewrite E in *. eexists _, _. split; [done|]. split; [done|]. unfold last_write. rewrite Hl, filter_app, last_app.
  destruct n as [|n]; [lia|]. rewrite replicate_S_end, filter_app, filter_cons_True, filter_nil, last_snoc by done. done.
Qed.

(** What was read is restored, unless it is a null. *)
Lemma triple_restoring_with restore mm :
  (forall mode s r a, on_net (set_port_mode_default (http o) 1 mode) s = (r, set_net a s) -> settled r ->
    settled (restore mode s).1 /\ (restore mode s).2 = set_net a s) ->
  triple (resting mm) (restoring restore) (fun _ => finished mm) (finished mm).
Proof.
  intros Hrestore s (i & Hi & [_ _ _ _ _ _ H7 H8] & Hw & Hp). unfold restoring. rewrite H8.
  assert (mm = None \/ mm = Some JNull -> finished mm s) as Hskip.
  { intros [-> | ->]; split; try done; congruence. }
  destruct mm as [mode|]; [|by apply Hskip; left].
  assert (mode = JNull \/ mode <> JNull) as [->|Hmode]; [by destruct mode; [left|right..]|by apply Hskip; right|].
  destruct (mode_writes mode s) as (r & a & E & Hr & Hl). destruct (Hrestore mode s r a E Hr) as [K1 K2].
  assert (finished (Some mode) (set_net a s)) as Hf by (split; cbn; try done; [congruence|by intros m [= <-] _]).
  assert (match restore mode s with (Ok _, s') | (Raise _, s') => finished (Some mode) s' | (Blocked, _) => False end) as H.
  { destruct (restore mode s) as [[[]|e|] s']; cbn [fst snd] in *; subst; done. }
  destruct mode; done.
Qed.

Lemma triple_restoring mm : triple (resting mm) (restoring (restore_mode o)) (fun _ => finished mm) (finished mm).
Proof.
  apply triple_restoring_with. intros mode s r a E Hr. unfold restore_mode, bind. rewrite E.
  destruct r as [resp|e|]; [|done|done]. unfold assert. by destruct (status_code resp =? 200).
Qed.

Lemma triple_restoring_unchecked mm : triple (resting mm) (restoring (restore_unchecked o)) (fun _ => finished mm) (finished mm).
Proof.
  apply triple_restoring_with. intros mode s r a E Hr. unfold restore_unchecked, try_except, bind. rewrite E.
  destruct r as [resp|e|]; [done| |done]. by destruct (catches Exception_ e).
Qed.

(** A step that cannot raise, then the restore. *)
Lemma triple_sure {A} (P0 Q0 : St -> Prop) (m : eff St A) (k : eff St unit) R :
  triple P0 m (fun _ => Q0) (fun _ => False) -> triple Q0 k (fun _ => R) R -> triple P0 (m ;;; k) (fun _ => R) R.
Proof.
  intros Hm Hk. eapply triple_seq; [|exact Hk]. eapply spec_weaken; [exact Hm|done|done|]. by intros w [].
Qed.

(** The three [finally] blocks. *)
Lemma stop_then_close mm : triple (holding mm) (stop_ping ;;; ws_close) (fun _ => resting mm) (fun _ => False).
Proof.
  apply triple_ex. intros i. apply (triple_seq _ (fun s => held i mm s /\ no_ping s /\ idle i)).
  - eapply spec_weaken; [apply (triple_stop_ping i mm (fun _ => idle i)); done| |done|done]. by intros w [Hi Hw].
  - eapply spec_weaken; [apply (triple_close i mm (fun s => no_ping s /\ idle i)); done|done| |done].
    intros _ w (Hh & Hw & Hp & Hi). by exists i.
Qed.

Lemma triple_clean_up mm : triple (holding mm) (clean_up o) (fun _ => finished mm) (finished mm).
Proof.
  unfold clean_up. apply triple_ex. intros i. apply (triple_sure _ (fun s => held i mm s /\ no_ping s /\ idle i)).
  { eapply spec_weaken; [apply (triple_stop_ping i mm (fun _ => idle i)); done| |done|done]. by intros w [Hi Hw]. }
  apply (triple_sure _ (resting mm)); [|apply triple_restoring].
  eapply spec_weaken; [apply (triple_with_stop i mm (fun s => no_ping s /\ idle i)); done|done| |done].
  intros _ w (Hh & Hw & Hp & Hi). by exists i.
Qed.

Lemma triple_clean_close mm (k : eff St unit) :
  triple (resting mm) k (fun _ => finished mm) (finished mm) ->
  triple (holding mm) (stop_ping ;;; ws_close ;;; k) (fun _ => finished mm) (finished mm).
Proof.
  intros Hk. pose proof (triple_sure _ _ _ k _ (stop_then_close mm) Hk) as H. intros w Hw. specialize (H w Hw).
  unfold bind in *. destruct (stop_ping w) as [[[]|?|] w1]; [by destruct (ws_close w1) as [[[]|?|] w2]|done|done].
Qed.

(** A test between [fresh_locals] and its [finally]. *)
Definition start_ok (s : St) : Prop :=
  ws_sane (wsw s) /\ no_ws s /\ no_ping s /\ next_ws (wsw s) = n0 /\ idle (inj s).

Lemma fresh_resting d :
  triple (fun s => start_ok s /\ dev (net s) = d) fresh_locals (fun _ s => resting None s /\ dev (net s) = d) (fun _ => False).
Proof.
  intros s ((H1 & H2 & H3 & H4 & H5) & Hd). unfold fresh_locals, modify. split; [|done]. exists (inj s).
  split; [done|]. split; [|done]. unfold no_ws, no_ping in *. split; cbn; try done; [set_solver..|lia].
Qed.

Lemma triple_framed d (body final : eff St unit) :
  triple (resting (info_mode d)) body (fun _ => holding (info_mode d)) (holding (info_mode d)) ->
  triple (holding (info_mode d)) final (fun _ => finished (info_mode d)) (finished (info_mode d)) ->
  triple (fun s => start_ok s /\ dev (net s) = d) (fresh_locals ;;; try_finally (enter_passive o ;;; body) final)
    (fun _ => finished (info_mode d)) (finished (info_mode d)).
Proof.
  intros Hbody Hfinal. eapply triple_sure; [apply fresh_resting|].
  eapply (triple_finally _ _ _ (fun _ => holding (info_mode d)) (holding (info_mode d))); [|intros _; exact Hfinal|exact Hfinal].
  eapply triple_seq; [|exact Hbody]. eapply spec_weaken; [apply (triple_enter d)|done|done|apply resting_holding].
Qed.

(** *** The bodies *)

Lemma each_settled {A B} (f : A -> outcome B) l : (forall x, settled (f x)) -> settled (each f l).
Proof.
  intros Hf. induction l as [|x l IH]; [done|]. cbn [each]. apply obind_settled; [apply Hf|]. intros y. by apply obind_settled.
Qed.

Lemma py_ge_settled a b : settled (py_ge a b).
Proof.
  unfold settled. revert a b. fix IH 1. intros a b. destruct a as [|c|m|s|l|f], b as [|d|n|t|l2|g]; cbn [py_ge]; try discriminate.
  revert l2. induction l as [|x l IHl]; intros [|y m]; try discriminate. destruct (jeq x y); [apply IHl|apply IH].
Qed.

Lemma expect_settled b : settled (expect b).
Proof. by destruct b. Qed.
Lemma field_is_settled k v p : settled (field_is k v p).
Proof. unfold field_is. apply obind_settled; [apply py_get_settled|done]. Qed.

Ltac settle :=
  repeat first
    [ done
    | apply expect_settled | apply py_get_settled | apply jindex_settled | apply py_in_settled | apply field_is_settled
    | apply py_ge_settled
    | apply each_settled; intros ?
    | apply obind_settled; [|intros ?]
    | match goal with |- settled (if ?b then _ else _) => destruct b end
    | match goal with |- settled (match ?x with _ => _ end) => destruct x end ].

Lemma is_pair_settled ms : settled (is_pair ms).
Proof. destruct ms as [m s]. unfold is_pair, same_field. settle. Qed.

Lemma verdicts_settled ps :
  settled (port_verdict ps) /\ settled (id_verdict ps) /\ settled (timestamp_verdict ps) /\ settled (raw_verdict ps) /\
  settled (splitter_verdict ps) /\ settled (pairs_verdict ps) /\ settled (each packet_checked ps).
Proof.
  split_and!.
  - unfold port_verdict, enough. apply obind_settled; [settle|]. intros _. apply obind_settled; [|settle].
    induction ps as [|p ps IH]; [done|]. cbn [all_port_1]. apply obind_settled; [settle|]. intros v. by destruct (jeq v (JNum 1)).
  - unfold id_verdict, enough. settle.
  - unfold timestamp_verdict, enough, timestamp_ok. settle.
  - unfold raw_verdict, enough, raw_ok, py_len, twice, fullmatch_hex. settle.
  - unfold splitter_verdict, enough, master_fc3. do 5 (apply obind_settled; [settle|intros ?]). apply obind_settled; [|intros [[m s]|]; settle].
    induction (neighbours ps) as [|ms l IH]; [done|]. cbn [first_pair]. apply obind_settled; [apply is_pair_settled|]. by intros [].
  - unfold pairs_verdict, enough. apply obind_settled; [settle|intros _]. apply obind_settled; [|intros bs; settle].
    apply each_settled. apply is_pair_settled.
  - apply each_settled. intros p. unfold packet_checked, has_fields. settle.
Qed.

Lemma held_net {A} i mm (m : eff St A) : netonly m -> triple (held i mm) m (fun _ => held i mm) (held i mm).
Proof. intros H. apply triple_net; [done|]. intros. by apply held_set_net. Qed.

Lemma net_verdict parse keep n t (verdict : list json -> outcome unit) :
  (t <= 30)%Q -> (forall m, loads m <> Blocked -> parse m <> Blocked) -> (forall ps, settled (verdict ps)) ->
  netonly (let* packets := receiving o (_collect_packets parse keep fuel n t) in lift (verdict packets)).
Proof. intros Ht Hp Hv. apply net_bind; [by apply net_collecting|]. intros ps. by apply net_pure. Qed.

Lemma object_of_settled m : loads m <> Blocked -> object_of m <> Blocked.
Proof. intros H. unfold object_of. change (settled (let? j := loads m in let? _ := py_get "type" j in Ok j)). settle. Qed.

Lemma count_verdict n (ps : list json) : settled (if n <=? zlen ps then Ok tt else Raise AssertionError).
Proof. by destruct (n <=? zlen ps). Qed.

(** A test that connects and then only receives and judges. *)
Lemma connect_body mm (m : eff St unit) :
  netonly m -> triple (resting mm) (with_injector o (ws_connect o ;;; m)) (fun _ => holding mm) (holding mm).
Proof.
  intros Hm. apply triple_with_injector. intros i. eapply triple_seq; [apply triple_connect|]. by apply held_net.
Qed.

Lemma net_receive_asserted n t k : (t <= 30)%Q -> netonly (let* packets := collect o fuel n t in assert (k <=? zlen packets)).
Proof. intros Ht. apply net_bind; [by apply net_collecting|]. intros ps. apply net_assert. Qed.

Lemma look_crc_settled crc p acc : settled (look_crc crc p acc).
Proof. unfold look_crc, packet_with_crc. settle. Qed.

Lemma net_phases : netonly (phases o fuel).
Proof.
  unfold phases. apply net_bind.
  { apply net_recv_for; [done|]. apply turn_of_good. intros p acc. unfold look_all. settle. }
  intros ps. apply net_bind; [apply net_assert|]. intros _. apply net_bind; [apply net_pure; apply (verdicts_settled ps)|].
  intros crcs. apply net_bind; [apply net_assert|]. intros _. apply net_bind.
  - destruct (wanted false crcs =? 0); [|apply net_assert].
    apply net_bind; [|intros; apply net_assert]. apply net_recv_for; [done|]. apply turn_of_good, look_crc_settled.
  - intros _. apply net_bind; [|intros; apply net_assert]. apply net_recv_for; [done|]. apply turn_of_good, look_crc_settled.
Qed.

Lemma net_status : netonly (status_stopped o).
Proof.
  unfold status_stopped. apply net_bind; [apply net_on_net; intros a; apply request_settled|]. intros r.
  apply net_bind; [apply net_assert|]. intros _. apply net_bind; [apply net_pure; unfold resp_json; by destruct (body_json r)|].
  intros j. apply net_bind; [apply net_pure, py_get_settled|]. intros v. apply net_assert.
Qed.

Lemma drain_turn_good : good_turn drain_turn.
Proof.
  intros silent w Hw. unfold drain_turn.
  apply (recv_good (fun msg => Ok (if String.eqb msg "" then silent else 0, false))); [done| |done]. by intros e w'.
Qed.

Lemma net_probe_all msgs : netonly (probe_all o msgs).
Proof.
  induction msgs as [|m msgs IH]; [apply net_ret|]. cbn [probe_all]. apply net_bind; [|by intros _].
  unfold probe. apply net_bind; [apply net_send|]. intros _. apply net_receiving. intros w Hw _ _.
  apply (recv_good (fun _ => Ok tt)); [done| |done]. intros e w'. by destruct (catches WebSocketTimeoutException e), (catches WebSocketConnectionClosed e).
Qed.

(** A state the network does not matter to. *)
Lemma net_keeps {A} (Q : St -> Prop) (m : eff St A) (X : St -> Prop) :
  netonly m -> (forall a s, Q s -> Q (set_net a s)) -> (forall s, Q s -> X s) -> triple Q m (fun _ => Q) X.
Proof. intros Hm HQ HX. eapply spec_weaken; [by apply (triple_net Q)|done|done|done]. Qed.

Definition alone i mm (s : St) : Prop := held i mm s /\ no_ping s.
Definition linked i mm (s : St) : Prop := held i mm s /\ is_Some (my_ws s) /\ no_ping s.

Lemma linked_set_net i mm a s : linked i mm s -> linked i mm (set_net a s).
Proof. intros (H & Hs). split; [by apply held_set_net|done]. Qed.

Lemma alone_set_net i mm a s : alone i mm s -> alone i mm (set_net a s).
Proof. intros (H & Hs). split; [by apply held_set_net|done]. Qed.

Lemma triple_cookies i mm : triple (bare i mm) (ws_with_cookies o) (fun _ => linked i mm) (held i mm).
Proof.
  intros s Hs. unfold ws_with_cookies. assert (forall s s' : St, pinging s = pinging s' -> no_ping s -> no_ping s') as Hq.
  { unfold no_ping. by intros ? ? <-. }
  pose proof (triple_direct i mm (Jar (cookies (net s))) no_ping Hq s Hs) as H.
  destruct (ws_direct o (Jar (cookies (net s))) s) as [[[]|e|] s']; [exact H|apply H|done].
Qed.

Lemma triple_again i mm : triple (alone i mm) (start_again o fuel) (fun _ => held i mm) (held i mm).
Proof.
  unfold start_again. apply (triple_seq _ (bare i mm)).
  { eapply spec_weaken; [apply (triple_close i mm no_ping); done|done| |by intros w []]. intros a w H. exact H. }
  apply (triple_seq _ (bare i mm)).
  { apply net_keeps; [apply net_sleep|intros; by apply bare_set_net|by intros s []]. }
  apply (triple_seq _ (linked i mm)); [apply triple_cookies|].
  apply (triple_seq _ (held i mm)); [apply triple_start_ping|].
  apply (triple_seq _ (held i mm)); [apply held_net, net_send|]. by apply held_net, net_receive_asserted.
Qed.

Lemma triple_websocket i mm :
  triple (bare i mm) (ws_with_cookies o ;;; ws_send o START ;;; start_ping ;;; phases o fuel) (fun _ => held i mm) (held i mm).
Proof.
  apply (triple_seq _ (linked i mm)); [apply triple_cookies|].
  apply (triple_seq _ (linked i mm)); [apply net_keeps; [apply net_send|intros; by apply linked_set_net|by intros s []]|].
  apply (triple_seq _ (held i mm)); [apply triple_start_ping|]. apply held_net, net_phases.
Qed.

Lemma triple_malformed i mm :
  triple (bare i mm) (ws_with_cookies o ;;; probe_all o malformed_messages ;;; start_again o fuel) (fun _ => held i mm) (held i mm).
Proof.
  apply (triple_seq _ (linked i mm)); [apply triple_cookies|].
  apply (triple_seq _ (alone i mm)); [|apply triple_again].
  apply (spec_weaken (alone i mm) (linked i mm) _ (fun _ => alone i mm) _ (held i mm) _).
  - apply net_keeps; [apply net_probe_all|intros; by apply alone_set_net|]. by intros s [].
  - by intros s (H & _ & Hp).
  - done.
  - done.
Qed.

Lemma triple_stop_first i mm :
  triple (bare i mm)
    (ws_with_cookies o ;;; start_ping ;;; ws_send o STOP ;;; sleep (3 # 10) ;;; status_stopped o ;;; stop_ping ;;; start_again o fuel)
    (fun _ => held i mm) (held i mm).
Proof.
  apply (triple_seq _ (linked i mm)); [apply triple_cookies|].
  apply (triple_seq _ (held i mm)); [apply triple_start_ping|].
  apply (triple_seq _ (held i mm)); [apply held_net, net_send|].
  apply (triple_seq _ (held i mm)); [apply held_net, net_sleep|].
  apply (triple_seq _ (held i mm)); [apply held_net, net_status|].
  apply (triple_seq _ (alone i mm)); [|apply triple_again].
  eapply spec_weaken; [apply (triple_stop_ping i mm (fun _ => True)); done|done| |by intros w []]. by intros _ w (H & Hp & _).
Qed.

Lemma triple_stop_stream mm :
  triple (resting mm)
    (with_injector o (ws_connect o ;;; let* pre_stop := collect o fuel 1 10 in assert (1 <=? zlen pre_stop)) ;;;
     stop_ping ;;; ws_send o STOP ;;;
     (let* _ := recv_for o fuel 10 never drain_turn 0 in ret tt) ;;;
     (let* post_stop_packets := recv_for o fuel 3 never silence_turn [] in assert (zlen post_stop_packets =? 0)) ;;;
     status_stopped o)
    (fun _ => holding mm) (holding mm).
Proof.
  apply (triple_seq _ (holding mm)); [by apply connect_body, net_receive_asserted|].
  apply (triple_seq _ (holding mm)).
  { apply triple_ex. intros i. eapply spec_weaken; [apply (triple_stop_ping i mm (fun _ => idle i)); done| | |by intros w []].
    - by intros w [Hi Hw].
    - intros _ w (H & _ & Hi). by exists i. }
  apply net_keeps; [|intros; by apply holding_set_net|done].
  apply net_bind; [apply net_send|]. intros _. apply net_bind.
  { apply net_bind; [apply net_recv_for; [done|apply drain_turn_good]|]. intros _. apply net_ret. }
  intros _. apply net_bind; [|intros _; apply net_status].
  apply net_bind; [|intros; apply net_assert]. apply net_recv_for; [done|]. by apply turn_of_good.
Qed.

Lemma triple_try {W A} (P0 : W -> Prop) (m : eff W A) c h (Q : A -> W -> Prop) X :
  triple P0 m Q X -> (forall e, triple X (h e) Q X) -> triple P0 (try_except m c h) Q X.
Proof.
  intros Hm Hh w Hw. specialize (Hm w Hw). unfold try_except. destruct (m w) as [[a|e|] w']; [done| |done].
  destruct (c e); [|done]. exact (Hh e w' Hm).
Qed.

Lemma triple_ws_refused c :
  triple start_ok (ws_refused o c) (fun _ => finished None) (finished None).
Proof.
  intros s Hs. unfold ws_refused.
  refine (triple_sure (fun s' => start_ok s' /\ dev (net s') = dev (net s)) (resting None) fresh_locals _ _ _ _ s (conj Hs eq_refl)).
  { eapply spec_weaken; [apply (fresh_resting (dev (net s)))|done|by intros a w []|done]. }
  assert (forall w, resting None w -> finished None w) as Hfin.
  { intros w (i & Hi & [_ _ _ _ _ _ H7 H8] & Hw & Hp). split; try done. congruence. }
  apply (spec_bind _ _ _ (fun _ => resting None)).
  2: { intros b. eapply spec_weaken; [apply (triple_assert (resting None))|done|intros ? w; apply Hfin|apply Hfin]. }
  eapply (spec_weaken (resting None) _ _ (fun _ => resting None) _ (resting None)); [|done|done|apply Hfin].
  apply triple_ex. intros i.
  set (Q0 := fun s : St => no_ping s /\ idle i).
  assert (triple (fun s => held i None s /\ Q0 s) ws_close (fun _ => resting None) (resting None)) as Hc.
  { eapply spec_weaken; [apply (triple_close i None Q0); done|done| |by intros w []].
    intros _ w (Hh & Hw & Hp & Hi). by exists i. }
  apply (triple_finally _ _ _ (fun _ s => held i None s /\ Q0 s) (fun s => held i None s /\ Q0 s)); [|intros _; exact Hc|exact Hc].
  assert (forall a s, held i None s /\ Q0 s -> held i None (set_net a s) /\ Q0 (set_net a s)) as Hn.
  { intros a w (H & Hq). split; [by apply held_set_net|done]. }
  apply triple_try; [|intros e; apply triple_ret].
  apply (triple_seq _ (fun s => held i None s /\ Q0 s)).
  - eapply spec_weaken; [apply (triple_direct i None c Q0)| | |]; try done.
    + unfold Q0, no_ping. by intros w w' <-.
    + intros w (Hi & Hh & Hw & Hp). by split_and!.
    + by intros _ w (Hh & _ & Hq).
  - apply triple_net; [|done]. apply net_receiving. intros w Hw _ _.
    apply (recv_good (fun _ => Ok false)); [done| |done]. by intros e w'.
Qed.

Lemma triple_restored mm : triple (finished mm) (mode_restored o) (fun _ => finished mm) (finished mm).
Proof.
  intros s Hs. unfold mode_restored, get_info, http_get, bind at 1, on_net.
  destruct (session_request_spec (http o) (Request GET "/info" None (scalar 10)) (net s)) as (r & d' & t & c & E & Hd' & _).
  assert (settled r) as Hr by (pose proof (request_settled (Request GET "/info" None (scalar 10)) (net s)) as H; by rewrite E in H).
  rewrite E. set (a := AWorld _ _ _ _ _ _).
  assert (finished mm (set_net a s)) as Ha.
  { destruct Hs as [H1 H2 H3 H4 H5]. split; try done. intros mode Hm. specialize (H5 mode Hm). unfold last_write, a in *. cbn.
    rewrite filter_app, filter_cons_False, filter_nil, app_nil_r by done. exact H5. }
  revert Ha. generalize (set_net a s). clear -Hr. intros s Hs. destruct r as [resp|e|]; [|done|done].
  unfold assert, bind, lift, ret, raise. destruct (status_code resp =? 200); [|done]. unfold resp_json. destruct (body_json resp) as [j|]; [|done].
  pose proof (py_get_settled "rs485_1" j) as H1. destruct (py_get "rs485_1" j) as [port|e|]; [|done|done].
  pose proof (py_get_settled "port_mode" (default (JObj []) port)) as H2.
  destruct (py_get "port_mode" (default (JObj []) port)) as [mode|e|]; [|done|done]. by destruct (jeq _ _).
Qed.

End Held.

(** The tests of the file; [true] for those that change the mode of the port. *)
Definition ws_tests {D} (o : bench D) (fuel : nat) : list (bool * eff (station D) unit) :=
  [(true, test_sniffer_websocket o fuel);
   (false, test_sniffer_ws_no_auth o);
   (false, test_sniffer_ws_invalid_cookie o);
   (true, test_sniffer_ws_packet_port_field_matches_started_port o fuel);
   (true, test_sniffer_ws_id_monotonically_increasing o fuel);
   (true, test_sniffer_ws_timestamp_positive_and_plausible o fuel);
   (true, test_sniffer_ws_raw_field_is_hex_and_matches_size o fuel);
   (true, test_sniffer_ws_stream_splitter_produces_separate_request_and_response o fuel);
   (true, test_sniffer_ws_sender_alternates_master_slave o fuel);
   (true, test_sniffer_ws_stop_command_stops_stream o fuel);
   (true, test_sniffer_ws_malformed_json_does_not_crash o fuel);
   (true, test_sniffer_ws_stop_before_start_does_not_crash o fuel);
   (true, test_sniffer_ws_cleanup_restores_port_mode o fuel)].

Section Each.
Context {D : Type} (o : bench D) (fuel : nat) (Hfair : fair o fuel) (n0 : nat) (O P : gset nat).
Hypothesis HO : forall x, x ∈ O -> (x < n0)%nat.
Hypothesis HP : forall x, x ∈ P -> (x < n0)%nat.
Context (d : D).
Notation begun := (fun s : station D => start_ok n0 O P s /\ dev (net s) = d).
Notation ended := (finished O P (info_mode o d)).

Lemma framed_ends body :
  (forall mm, triple (resting n0 O P mm) body (fun _ => holding n0 O P mm) (holding n0 O P mm)) ->
  triple begun (framed o body) (fun _ => ended) ended.
Proof. intros Hb. by apply (triple_framed o fuel), (triple_clean_up o fuel). Qed.

(** The tests that connect, collect and judge. *)
Lemma judging_ends (parse : string -> outcome json) keep n t verdict :
  (t <= 30)%Q -> (forall m, loads m <> Blocked -> parse m <> Blocked) -> (forall ps, settled (verdict ps)) ->
  triple begun (framed o (with_injector o (ws_connect o ;;;
      let* packets := receiving o (_collect_packets parse keep fuel n t) in lift (verdict packets)))) (fun _ => ended) ended.
Proof.
  intros Ht Hp Hv. apply framed_ends. intros mm. by apply (connect_body o fuel), (net_verdict o fuel).
Qed.

Lemma changing_ends test : (true, test) ∈ ws_tests o fuel -> triple begun test (fun _ => ended) ended.
Proof.
  pose proof (fun ps => verdicts_settled ps) as Hv. pose proof object_of_settled as Ho.
  unfold ws_tests. rewrite !elem_of_cons, elem_of_nil.
  intros [[= ->]|[[=]|[[=]|[[= ->]|[[= ->]|[[= ->]|[[= ->]|[[= ->]|[[= ->]|[[= ->]|[[= ->]|[[= ->]|[[= ->]|[]]]]]]]]]]]]]].
  - unfold test_sniffer_websocket. apply (triple_framed o fuel); [done|done|done| |].
    + apply (triple_with_injector o fuel); [done|]. intros i. by apply (triple_websocket o fuel).
    + by apply (triple_clean_close o fuel), (triple_restoring_unchecked o fuel).
  - apply judging_ends; [done|done|apply Hv].
  - apply judging_ends; [done|done|apply Hv].
  - apply judging_ends; [done|done|apply Hv].
  - apply judging_ends; [done|done|apply Hv].
  - apply judging_ends; [done|done|apply Hv].
  - apply judging_ends; [done|done|apply Hv].
  - unfold test_sniffer_ws_stop_command_stops_stream. apply (triple_framed o fuel); [done|done|done| |].
    + by apply (triple_stop_stream o fuel).
    + by apply (triple_clean_close o fuel), (triple_restoring o fuel).
  - apply framed_ends. intros mm. apply (triple_with_injector o fuel); [done|]. intros i. by apply (triple_malformed o fuel).
  - apply framed_ends. intros mm. apply (triple_with_injector o fuel); [done|]. intros i. by apply (triple_stop_first o fuel).
  - unfold test_sniffer_ws_cleanup_restores_port_mode. apply (triple_seq _ begun); [by intros s|].
    apply (triple_seq _ ended); [|by apply (triple_restored o fuel)].
    apply framed_ends. intros mm. by apply (connect_body o fuel), (net_receive_asserted o fuel).
Qed.

Lemma refusing_ends test : (false, test) ∈ ws_tests o fuel -> triple begun test (fun _ => finished O P None) (finished O P None).
Proof.
  unfold ws_tests. rewrite !elem_of_cons, elem_of_nil. intros H.
  assert (exists c, test = ws_refused o c) as [c ->] by (repeat destruct H as [[= ->]|H]; try done; by eexists).
  intros s [Hs _]. by apply (triple_ws_refused o fuel Hfair n0 O P).
Qed.

End Each.

(** C23. Every test gives back what it took.  Whatever the server answers, sends or refuses, and however the injector and the calls of the websocket package fail, each test of the file ends, has closed its WebSocket connection and every UART socket it connected (one whose connect was refused is not closed by the code, see [Injector.unconnected]) and has told its ping thread to stop (a daemon thread, which nothing joins); and once a test has read a mode of the port that is not null, the last request that writes restores it. *)
Theorem ws_tests_clean_up {D} (o : bench D) fuel changes test s :
  fair o fuel -> ws_sane (wsw s) -> (forall x, x ∈ pinging s -> (x < next_ws (wsw s))%nat) -> idle (inj s) ->
  (changes, test) ∈ ws_tests o fuel ->
  let '(r, s') := test s in
  settled r /\ open_ws (wsw s') = open_ws (wsw s) /\ pinging s' = pinging s /\ Injector.open_socks (inj s') = ∅ /\
  (changes = true -> forall mode, info_mode o (dev (net s)) = Some mode -> mode <> JNull -> last_write (net s') = Some (mode_request 1 mode)).
Proof.
  intros Hfair Hsane HP Hinj Hin. set (n0 := next_ws (wsw s)) in *. set (O := open_ws (wsw s)). set (P := pinging s) in *.
  assert (forall x, x ∈ O -> (x < n0)%nat) as HO by (by apply Hsane).
  set (mm := info_mode o (dev (net s))).
  assert (start_ok n0 O P s /\ dev (net s) = dev (net s)) as Hstart by (by split_and!).
  assert (triple (fun s' => start_ok n0 O P s' /\ dev (net s') = dev (net s)) test
         (fun _ => finished O P (if changes then mm else None)) (finished O P (if changes then mm else None))) as H.
  { destruct changes; [by apply (changing_ends o fuel)|by apply (refusing_ends o fuel)]. }
  specialize (H s Hstart). destruct (test s) as [[[]|e|] s']; [| |done];
    destruct H as [H1 H2 H3 H4 H5]; split_and!; try done; intros ->; exact H5.
Qed.

(** A gateway that answers every request, sends one packet and no more; the
    injector works until it is stopped. *)
Definition demo_ws_bench : bench unit := {|
  http := fun _ d => (Ok SlowResponse.demo_reply, d);
  ws_opened := fun _ d => d;
  ws_up := fun _ _ d => d;
  ws_say := fun _ _ d => (None, d);
  ws_inbox := fun _ => [Ok (with_quotes "{'type':'packet','slave_id':1}"); Raise WebSocketConnectionClosed];
  ws_left := fun _ d => d;
  ws_lapse := fun _ i => inject_Z (Z.of_nat i);
  injector := fun _ => Injector.injector_init (Injector.default_config 1) (fun _ => None) (fun _ => None) (fun _ => None) (fun _ => None);
  meanwhile := fun _ => [(0, false); (0, false); (0, false)]%nat;
  while_joined := fun _ => ([(0, true); (0, true); (0, true)]%nat, [])
|}.

Definition demo_station : station unit :=
  Station (AWorld tt [] ∅ 1 0 (fun _ => 0%Q)) (WsWorld {[ 4%nat ]} 5 (fun _ => None) (fun _ => None) None) {[ 4%nat ]}
    (Injector.injector_init (Injector.default_config 1) (fun _ => None) (fun _ => None) (fun _ => None) (fun _ => None)) None None None.

Lemma demo_ws_fair : fair demo_ws_bench 40.
Proof.
  split; try done.
  - intros d. repeat constructor; vm_compute; discriminate.
  - intros d. exists 30%nat. split; [lia|]. intros i Hi. cbn [ws_lapse demo_ws_bench].
    assert (inject_Z 30 <= inject_Z (Z.of_nat i))%Q as H by (rewrite <- Zle_Qle; lia).
    change (inject_Z (Z.of_nat 0)) with 0%Q. change (inject_Z 30) with 30%Q in H. lra.
  - intros d. by eexists _, _, _, _.
Qed.

(** The last test passes there, next to a connection of another user. *)
Lemma ws_tests_clean_up_witness :
  let '(r, s') := test_sniffer_ws_cleanup_restores_port_mode demo_ws_bench 40 demo_station in
  r = Ok tt /\ open_ws (wsw s') = {[ 4%nat ]} /\ pinging s' = {[ 4%nat ]} /\ Injector.open_socks (inj s') = ∅ /\
  last_write (net s') = Some (mode_request 1 (JStr "tcp_bridge")).
Proof.
  set (test := test_sniffer_ws_cleanup_restores_port_mode demo_ws_bench 40).
  assert (ws_sane (wsw demo_station)) as Hs by (split_and!; try done; cbn; intros i; rewrite elem_of_singleton; lia).
  pose proof (ws_tests_clean_up demo_ws_bench 40 true test demo_station demo_ws_fair Hs) as H.
  assert ((test demo_station).1 = Ok tt) as Hr by (vm_compute; reflexivity).
  assert ((true, test) ∈ ws_tests demo_ws_bench 40) as Hin by (unfold ws_tests; rewrite !elem_of_cons; tauto).
  specialize (fun Hp => H Hp eq_refl Hin). destruct (test demo_station) as [r s']. cbn [fst] in Hr. subst r.
  destruct H as (_ & H1 & H2 & H3 & H4); [cbn; intros i; rewrite elem_of_singleton; lia|].
  split_and!; [done|exact H1|exact H2|exact H3|]. by apply (H4 eq_refl).
Defined.
