(* ===== verification/WsVerdicts.v ===== *)
(** * What the verdicts of the sniffer WebSocket tests mean

    The checks of api_tests/12_test_sniffer_ws.py on collected packets: the
    id check decides strict order, the raw check decides that the text is the
    hexadecimal of as many bytes as announced, and both, with the checks of
    port, fields and timestamps, accept what the WebSocket task of the
    firmware sends in any run of the sniffer of port 1. *)

From Stdlib Require Import ZArith Lia String Ascii Sorted.
From stdpp Require Import base list strings sorting.
From S2P Require Import Prelude PyBytes PyStr QemuPorts ApiClient Gateway MbDevice ModbusCrc RtuFrames StreamSplitter Sniffer.
From S2P Require Import JsonText NetLog SnifferWire WsTests.

Open Scope Z_scope.

(** ** Order *)

Lemma each_ok {A B} (f : A -> outcome B) l ys : each f l = Ok ys <-> Forall2 (fun x y => f x = Ok y) l ys.
Proof.
  split.
  - revert ys. induction l as [|x l IH]; intros ys; cbn [each]; [by intros [= <-]|].
    destruct (f x) as [y|e|] eqn:E; try done. cbn [obind]. destruct (each f l) as [zs|e|]; try done. cbn.
    intros [= <-]. constructor; [done|]. by apply IH.
  - induction 1 as [|x y l ys Hx _ IH]; [done|]. cbn [each]. by rewrite Hx, IH.
Qed.

Lemma neighbours_fmap {A B} (f : A -> B) l : neighbours (f <$> l) = (fun ab => (f ab.1, f ab.2)) <$> neighbours l.
Proof. induction l as [|x [|y l] IH]; [done|done|]. cbn in *. by rewrite IH. Qed.

(** Every pair of neighbours in a transitive relation: the list is sorted. *)
Lemma neighbours_sorted (R : Z -> Z -> Prop) l : Transitive R ->
  Forall (fun ab => R ab.1 ab.2) (neighbours l) <-> StronglySorted R l.
Proof.
  intros HR. split.
  - intros H. apply Sorted_StronglySorted; [done|]. induction l as [|x [|y l] IH]; [constructor|constructor; constructor|].
    apply Forall_cons in H as [Hxy H]. constructor; [by apply IH|by constructor].
  - intros H%StronglySorted_Sorted. induction H as [|x l _ IH Hd]; [constructor|]. destruct Hd; [constructor|]. by constructor.
Qed.

Lemma each_numbers ps k ns : Forall2 (fun p n => jindex k p = Ok (JNum n)) ps ns -> each (jindex k) ps = Ok (JNum <$> ns).
Proof. intros H. apply each_ok. induction H; by constructor. Qed.

Lemma ge_numbers l : each (fun ab => py_ge ab.1 ab.2) (neighbours (JNum <$> l)) = Ok ((fun ab => ab.2 <=? ab.1) <$> neighbours l).
Proof.
  rewrite neighbours_fmap. apply each_ok. induction (neighbours l) as [|[x y] nb IH]; [constructor|]. by constructor.
Qed.

Lemma viol_sorted l : forallb negb ((fun ab : Z * Z => ab.2 <=? ab.1) <$> neighbours l) = true <-> StronglySorted Z.lt l.
Proof.
  rewrite <- neighbours_sorted by apply _. induction (neighbours l) as [|[x y] nb IH]; [by split; [constructor|]|].
  rewrite fmap_cons. cbn [forallb fst snd]. rewrite andb_true_iff, IH, Forall_cons, negb_true_iff, Z.leb_gt. done.
Qed.

Lemma id_verdict_iff ps ids :
  Forall2 (fun p n => jindex "id" p = Ok (JNum n)) ps ids ->
  id_verdict ps = Ok tt <-> 10 <= zlen ps /\ StronglySorted Z.lt ids.
Proof.
  intros H. unfold id_verdict, enough, expect. rewrite (each_numbers _ _ _ H). cbn [obind]. rewrite ge_numbers. cbn [obind].
  rewrite <- viol_sorted, <- Z.leb_le. destruct (10 <=? zlen ps); [|split; [done|by intros [? _]]].
  cbn [obind]. destruct (forallb _ _); split; try done. by intros [_ ?].
Qed.

(** The id check is exact: on packets whose ids are numbers, test_sniffer_ws_id_monotonically_increasing accepts the collected packets exactly when there are ten of them and every id is smaller than every later one. *)
Theorem id_verdict_exact ps ids :
  Forall2 (fun p n => jindex "id" p = Ok (JNum n)) ps ids ->
  id_verdict ps = Ok tt <-> 10 <= zlen ps /\ StronglySorted Z.lt ids.
Proof. apply id_verdict_iff. Qed.

Definition demo_ids (ids : list Z) : list json := (fun n => JObj [("id", JNum n)]) <$> ids.

Lemma id_verdict_exact_witness :
  id_verdict (demo_ids [1; 2; 5; 6; 7; 8; 9; 10; 11; 40]) = Ok tt /\ StronglySorted Z.lt [1; 2; 5; 6; 7; 8; 9; 10; 11; 40] /\
  ~ StronglySorted Z.lt [4294967290; 1; 5; 6; 7; 8; 9; 10; 11; 40].
Proof.
  assert (forall ids, Forall2 (fun p n => jindex "id" p = Ok (JNum n)) (demo_ids ids) ids) as Hd.
  { induction ids; by constructor. }
  pose proof (id_verdict_exact _ _ (Hd [1; 2; 5; 6; 7; 8; 9; 10; 11; 40])) as H1.
  pose proof (id_verdict_exact _ _ (Hd [4294967290; 1; 5; 6; 7; 8; 9; 10; 11; 40])) as H2.
  split; [vm_compute; reflexivity|]. split; [apply H1; vm_compute; reflexivity|]. intros Hs.
  assert (id_verdict (demo_ids [4294967290; 1; 5; 6; 7; 8; 9; 10; 11; 40]) = Ok tt) as E by (apply H2; split; [vm_compute; discriminate|exact Hs]).
  vm_compute in E. discriminate.
Defined.

(** ** The raw text *)

Lemma upper_hex_hx c : upper_hex c = true -> exists n, 0 <= n < 16 /\ c = hx n.
Proof.
  destruct c as [b0 b1 b2 b3 b4 b5 b6 b7]. intros H.
  exists (let v := Z.of_nat (nat_of_ascii (Ascii b0 b1 b2 b3 b4 b5 b6 b7)) in if v <? 58 then v - 48 else v - 55).
  destruct b0, b1, b2, b3, b4, b5, b6, b7; vm_compute in H; try discriminate H; (split; [vm_compute; split; congruence|reflexivity]).
Qed.

Lemma hx_upper n : 0 <= n < 16 -> upper_hex (hx n) = true.
Proof. by apply (all_below (fun n => upper_hex (hx n)) 16). Qed.

Lemma hex_text_upper data : bytes_ok data -> all_chars upper_hex (hex_text data) = true.
Proof.
  induction data as [|b data IH]; [done|]. intros H. apply Forall_cons in H as [Hb Hd]. unfold is_byte in Hb.
  cbn [hex_text all_chars]. rewrite !hx_upper; [by apply IH|apply Z.mod_pos_bound; lia|].
  split; [apply Z.div_pos; lia|apply Z.div_lt_upper_bound; lia].
Qed.

(** Any even run of such digits is the text of some bytes. *)
Lemma hex_text_onto n s :
  String.length s = (2 * n)%nat -> all_chars upper_hex s = true -> exists data, bytes_ok data /\ length data = n /\ s = hex_text data.
Proof.
  revert s. induction n as [|n IH]; intros s Hl Hs.
  { destruct s; [|done]. exists []. split; [constructor|done]. }
  destruct s as [|c [|d s]]; cbn in Hl; try lia. cbn [all_chars] in Hs. rewrite !andb_true_iff in Hs. destruct Hs as (Hc & Hd & Hs).
  destruct (upper_hex_hx c Hc) as (x & Hx & ->). destruct (upper_hex_hx d Hd) as (y & Hy & ->).
  destruct (IH s ltac:(lia) Hs) as (data & Hb & Hlen & ->). exists (16 * x + y :: data).
  split; [constructor; [unfold is_byte; lia|done]|]. split; [cbn; lia|]. cbn [hex_text].
  assert ((16 * x + y) / 16 = x) as -> by (symmetry; apply (Z.div_unique_pos _ 16 x y); lia).
  assert ((16 * x + y) mod 16 = y) as -> by (symmetry; apply (Z.mod_unique_pos _ 16 x y); lia). done.
Qed.

(** The text of some bytes with their number is accepted. *)
Lemma raw_ok_hex fields data :
  data <> [] -> bytes_ok data -> jget "raw" fields = Some (JStr (hex_text data)) -> as_int (jget "size" fields) = Some (zlen data) ->
  raw_ok (JObj fields) = Ok tt.
Proof.
  intros Hne Hb Hr Hs. unfold raw_ok. cbn [py_get obind]. rewrite Hr. cbn [default from_option id py_len obind].
  assert (twice (default (JNum (-1)) (jget "size" fields)) = Ok (Some (2 * zlen data))) as ->.
  { destruct (jget "size" fields) as [[| b | z | | | ]|]; cbn in Hs |- *; try done; injection Hs as ->; done. }
  cbn [obind]. rewrite hex_text_length. rewrite bool_decide_true by (unfold zlen; f_equal; lia). cbn [expect obind fullmatch_hex].
  rewrite hex_text_upper by done. destruct data; [done|]. done.
Qed.

(** The raw check is exact: test_sniffer_ws_raw_field_is_hex_and_matches_size accepts a packet exactly when its raw field is the upper-case hexadecimal text of at least one byte and its size field is the number of these bytes. *)
Theorem raw_check_exact fields :
  raw_ok (JObj fields) = Ok tt <->
  exists data, data <> [] /\ bytes_ok data /\ jget "raw" fields = Some (JStr (hex_text data)) /\
    as_int (jget "size" fields) = Some (zlen data).
Proof.
  unfold raw_ok. cbn [py_get obind]. split.
  - destruct (jget "raw" fields) as [r|]; cbn [default from_option id].
    2: { cbn [py_len String.length obind]. destruct (twice _) as [m|e|]; try done. cbn [obind]. unfold expect.
         by destruct (bool_decide _). }
    destruct (py_len r) as [n|e|] eqn:En; try done. cbn [obind].
    destruct (twice _) as [[m|]|e|] eqn:Em; cbn [obind]; try done; destruct (decide (Some n = Some m)) as [Heq|Hne];
      [rewrite bool_decide_true by done|by rewrite bool_decide_false by done]. injection Heq as ->.
    cbn [obind expect]. destruct r as [| | |s| |]; try done. cbn [fullmatch_hex obind]. cbn in En. injection En as <-.
    destruct (negb (String.eqb s "") && all_chars upper_hex s) eqn:Eh; [|done]. intros _. apply andb_true_iff in Eh as [Hne Hh].
    apply negb_true_iff, String.eqb_neq in Hne.
    assert (exists k, as_int (jget "size" fields) = Some k /\ 2 * k = Z.of_nat (String.length s)) as (k & Hk & H2).
    { destruct (jget "size" fields) as [[| b | z | | | ]|]; cbn in Em; try done; injection Em as Em.
      - exists (Z.b2z b). split; [done|lia].
      - exists z. split; [done|lia].
      - lia. }
    destruct (hex_text_onto (Z.to_nat k) s) as (data & Hb & Hlen & ->); [lia|done|]. exists data.
    split_and!; [by intros ->|done|done|]. rewrite Hk. unfold zlen. f_equal. lia.
  - intros (data & Hne & Hb & Hr & Hs). by eapply raw_ok_hex.
Qed.

Lemma raw_check_exact_witness :
  raw_ok (JObj [("raw", JStr "150300000001871E"); ("size", JNum 8)]) = Ok tt /\
  exists data, bytes_ok data /\ hex_text data = "150300000001871E"%string.
Proof.
  pose proof (raw_check_exact [("raw", JStr "150300000001871E"); ("size", JNum 8)]) as H.
  split; [vm_compute; reflexivity|]. destruct H as [H _]. destruct H as (data & _ & Hb & Hr & _); [vm_compute; reflexivity|].
  exists data. split; [done|]. by injection Hr as Hr.
Defined.

(** ** What the firmware sends *)

(** The packets the WebSocket task shows. *)
Definition shown (q : list sniff_packet_t) : list sniff_packet_t := List.filter (fun pkt => negb (is_timeout pkt)) q.

(** ** What a port hands over *)

(** The packets the WebSocket task takes off the queue of port 1 in a run. *)
Fixpoint taken (l : list action) (p : port) : list sniff_packet_t :=
  match l with
  | [] => []
  | a :: l =>
      match perform 0 a p with
      | Some p' => (match a with Consume => take 1 (sniff_queue p) | _ => [] end) ++ taken l p'
      | None => []
      end
  end.

(** The frames fed are bytes and the clock of the firmware does not go back. *)
Fixpoint clocked (t : Z) (l : list action) : Prop :=
  match l with
  | [] => True
  | Feed _ data now :: l => bytes_ok data /\ t <= now < 2 ^ 64 /\ clocked now l
  | _ :: l => clocked t l
  end.

(** A packet made from a frame on port 1. *)
Record sniffed (pkt : sniff_packet_t) : Prop := {
  sn_wire : wire_packet pkt;
  sn_port : pport pkt = 0;
  sn_data : pdata pkt <> [];
  sn_time : 0 < timestamp_us pkt
}.

Definition earlier (a b : sniff_packet_t) : Prop := timestamp_us a <= timestamp_us b.

Definition orderly (t : Z) (ps : list sniff_packet_t) : Prop :=
  StronglySorted earlier ps /\ Forall (fun pkt => sniffed pkt /\ timestamp_us pkt <= t) ps.

Lemma sublist_Forall {A} (P : A -> Prop) (l l' : list A) : l `sublist_of` l' -> Forall P l' -> Forall P l.
Proof. induction 1 as [|x l l2 _ IH|x l l2 _ IH]; intros HF; [constructor| |]; apply Forall_cons in HF as [Hx HF]; auto. Qed.

Lemma orderly_sublist t ps ps' : ps' `sublist_of` ps -> orderly t ps -> orderly t ps'.
Proof.
  intros H [Hs Hf]. split; [|by eapply sublist_Forall]. clear Hf. induction H as [|x l1 l2 Hl IH|x l1 l2 _ IH]; [constructor| |].
  - apply StronglySorted_cons in Hs as [Hx Hs]. apply StronglySorted_cons. split; [by eapply sublist_Forall|by apply IH].
  - apply IH. by apply StronglySorted_cons in Hs as [_ Hs].
Qed.

Lemma orderly_snoc t now ps pkt : orderly t ps -> t <= now -> timestamp_us pkt = now -> sniffed pkt -> orderly now (ps ++ [pkt]).
Proof.
  intros [Hs Hf] Ht En Hp. split.
  - clear Hp. induction Hs as [|x ps Hs IH Hx]; [repeat constructor|]. apply Forall_cons in Hf as [[_ Hxt] Hf]. cbn.
    apply StronglySorted_cons. split; [|by apply IH]. apply Forall_app_2; [exact Hx|]. apply Forall_singleton. unfold earlier. lia.
  - apply Forall_app_2; [|apply Forall_singleton; split; [done|lia]]. eapply Forall_impl; [exact Hf|]. cbn. intros x [? ?]. split; [done|lia].
Qed.

(** What a frame becomes. *)
Lemma made_sniffed d data now : 4 <= zlen data -> bytes_ok data -> 0 < now < 2 ^ 64 ->
  sniffed (make_packet 0 d data (strip_arbitration data) now) /\
  is_timeout (make_packet 0 d data (strip_arbitration data) now) = false.
Proof.
  intros Hl Hb Hn. split; [|done]. unfold make_packet. set (src := if from_raw d then data else strip_arbitration data).
  assert (4 <= zlen src /\ bytes_ok src) as [Hl' Hb'].
  { unfold src. destruct (from_raw d); [done|]. unfold strip_arbitration. destruct (_ || _); [done|].
    destruct (_ && _) eqn:E; [|done]. apply andb_true_iff in E as [E%Z.leb_le _]. split; [exact E|]. by apply Forall_drop. }
  assert (forall i, is_byte (byte_at src i)) as Hi.
  { intros i. unfold byte_at. destruct (src !! i) as [b|] eqn:E; [|cbn; unfold is_byte; lia]. by apply (Forall_lookup_1 _ _ _ _ Hb' E). }
  split; cbn [pport timestamp_us pslave_id pfunction pdata]; [|done| |lia].
  - split; cbn [pport timestamp_us pslave_id pfunction pdata]; [done|lia|apply Hi|apply Hi|by apply Forall_take|]. rewrite length_take. lia.
  - destruct src; [done|]. by destruct SNIFFER_MAX_PACKET_LEN eqn:E.
Qed.

(** The packet a task is about to send. *)
Definition held_packet (t : task) : list sniff_packet_t :=
  match t with Decided _ pkt | Stopped _ pkt => [pkt] | _ => [] end.

Record line (p : port) (tk : task) (ps : list sniff_packet_t) : Prop := {
  ln_task : tasks p = [tk];
  ln_packets : ps = shown (sniff_queue p) ++ held_packet tk;
  ln_held : Forall (fun pkt => is_timeout pkt = false) (held_packet tk);
  ln_expiring : forall pkt, expiring p = Some pkt -> is_timeout pkt = true
}.

Lemma shown_app q q' : shown (q ++ q') = shown q ++ shown q'.
Proof. apply List.filter_app. Qed.

Lemma task_at p tk i t : tasks p = [tk] -> tasks p !! i = Some t -> i = 0%nat /\ t = tk.
Proof. intros ->. destruct i; [|done]. by intros [= <-]. Qed.

Definition handed_on (a : action) (p : port) (ps ps' : list sniff_packet_t) : Prop :=
  match a with
  | Feed _ data now => 4 <= zlen data /\ exists d, ps' = ps ++ [make_packet 0 d data (strip_arbitration data) now]
  | Consume => shown (take 1 (sniff_queue p)) ++ ps' = ps
  | _ => ps' `sublist_of` ps
  end.

Lemma shown_packet pkt : is_timeout pkt = false -> shown [pkt] = [pkt].
Proof. intros E. cbn. by rewrite E. Qed.

(** A step of the task keeps the line, or drops the packet it held. *)
Lemma task_line i ok p p' tk ps : line p tk ps -> task_step i ok p = Some p' ->
  exists tk' ps', line p' tk' ps' /\ ps' `sublist_of` ps.
Proof.
  intros [H1 -> H3 H4]. unfold task_step. destruct (tasks p !! i) as [t|] eqn:Et; [|done].
  destruct (task_at p tk i t H1 Et) as [-> ->]. clear Et.
  assert (forall q x, tasks q = [tk] -> tasks (set_task 0 x q) = [x]) as Hset by (intros q x; unfold set_task; by cbn; intros ->).
  destruct tk as [|d pkt|d pkt|d| |]; cbn [held_packet] in *; try done.
  - intros [= <-]. exists (Stopped d pkt). eexists. split; [|reflexivity].
    split; [apply Hset; by destruct (stop_timer d)|by destruct (stop_timer d)|done|by destruct (stop_timer d)].
  - apply Forall_cons in H3 as [H3 _]. destruct (emit d); intros [= <-]; [destruct ok|].
    + exists (Enqueued d). eexists. split; [split; [by apply Hset|reflexivity|constructor|done]|]. cbn.
      rewrite shown_app, shown_packet, app_nil_r by done. reflexivity.
    + exists Abandoning. eexists. split; [split; [by apply Hset|reflexivity|constructor|done]|]. cbn.
      apply sublist_app; [reflexivity|apply sublist_nil_l].
    + exists (Enqueued d). eexists. split; [split; [by apply Hset|reflexivity|constructor|done]|]. cbn.
      apply sublist_app; [reflexivity|apply sublist_nil_l].
  - destruct (start_timer d); intros [= <-]; [destruct ok|]; eexists _, _;
      (split; [split; [by apply Hset|reflexivity|constructor|done]|reflexivity]).
  - intros [= <-]. eexists _, _. split; [split; [by apply Hset|reflexivity|constructor|done]|reflexivity].
  - intros [= <-]. eexists _, _. split; [split; [by apply Hset|reflexivity|constructor|done]|reflexivity].
Qed.

Lemma timeout_hidden p ok q : expiring p = Some q -> is_timeout q = true ->
  shown (if ok : bool then sniff_queue p ++ [q] else sniff_queue p) = shown (sniff_queue p).
Proof. intros _ E. destruct ok; [|done]. rewrite shown_app. cbn. by rewrite E, app_nil_r. Qed.

Lemma feed_line i data now p p' tk ps : line p tk ps -> feed_frame 0 i data now p = Some p' ->
  exists tk' ps', line p' tk' ps' /\ 4 <= zlen data /\ exists d, ps' = ps ++ [make_packet 0 d data (strip_arbitration data) now].
Proof.
  intros [H1 -> H3 H4]. unfold feed_frame. destruct (tasks p !! i) as [t|] eqn:Et; [|done].
  destruct (task_at p tk i t H1 Et) as [-> ->]. destruct tk; try done. unfold begin_frame.
  destruct (_ || _) eqn:E; [done|]. apply orb_false_iff in E as [_ E%Z.ltb_ge]. intros [= <-].
  eexists _, _. split; [split; [cbn; by rewrite H1|reflexivity|by apply Forall_singleton|done]|]. split; [done|]. eexists.
  cbn. by rewrite app_nil_r.
Qed.

Lemma perform_line a p p' tk ps : line p tk ps -> perform 0 a p = Some p' ->
  exists tk' ps', line p' tk' ps' /\ handed_on a p ps ps'.
Proof.
  intros HL. destruct a as [i data now|i ok| | |ok| |reason|i reason]; cbn [perform handed_on];
    [by apply (feed_line _ _ _ p p' tk ps)|by apply (task_line _ _ p p' tk ps)|destruct HL as [H1 -> H3 H4]..].
  - unfold run_command. destruct (expiring p), (commands p); try done. intros [= <-]. exists tk. eexists. by split; [split|reflexivity].
  - unfold expire. destruct (expiring p), (armed p); try done. unfold resp_timer_cb. intros [= <-]. exists tk. eexists.
    split; [split; [done|reflexivity|done|]|reflexivity]. cbn. destruct (_ && _); [|done]. by intros pkt [= <-].
  - unfold send_timeout. destruct (expiring p) as [q|] eqn:E; [|done]. intros [= <-]. exists tk. eexists.
    split; [by split|]. cbn [sniff_queue]. rewrite (timeout_hidden p ok q E (H4 q eq_refl)). reflexivity.
  - destruct (sniff_queue p) as [|pkt q] eqn:E; [done|]. intros [= <-]. exists tk. eexists. split; [by split|]. cbn [sniff_queue take].
    by rewrite app_assoc, <- shown_app.
  - intros [= <-]. exists tk. eexists. by split; [split|reflexivity].
  - destruct (tasks p !! i) as [t|] eqn:Et; [|done]. destruct (task_at p tk i t H1 Et) as [-> ->]. destruct tk; try done.
    unfold sniffer_disable. intros [= <-]. eexists _, _. split; [split; [cbn; by rewrite H1|reflexivity|by destruct (_ && _)|done]|].
    cbn. destruct (_ && _); reflexivity.
Qed.

(** The packets handed over are those of the frames, in the order of time. *)
Lemma taken_orderly l : forall t p p' tk ps out,
  perform_all 0 l p = Some p' -> clocked t l -> 0 < t -> line p tk ps -> orderly t (out ++ ps) ->
  exists t', orderly t' (out ++ shown (taken l p)).
Proof.
  induction l as [|a l IH]; intros t p p' tk ps out E Hc Ht HL Ho; cbn [perform_all taken] in *.
  { exists t. eapply orderly_sublist; [|exact Ho]. apply sublist_app; [reflexivity|apply sublist_nil_l]. }
  destruct (perform 0 a p) as [p1|] eqn:Ea; [|done]. cbn in E. destruct (perform_line a p p1 tk ps HL Ea) as (tk1 & ps1 & HL1 & Hh).
  assert (exists t1, clocked t1 l /\ 0 < t1 /\ orderly t1 ((out ++ shown (match a with Consume => take 1 (sniff_queue p) | _ => [] end)) ++ ps1))
    as (t1 & Hc1 & Ht1 & Ho1).
  { destruct a as [i data now|i ok| | |ok| |reason|i reason]; cbn [handed_on clocked] in *;
      try (exists t; split; [done|]; split; [done|]; rewrite app_nil_r; eapply orderly_sublist; [|exact Ho];
           apply sublist_app; [reflexivity|exact Hh]); [|exists t; split; [done|]; split; [done|]; by rewrite <- app_assoc, Hh].
    destruct Hc as (Hb & Hn & Hc). destruct Hh as (Hl & d & ->). exists now. split; [done|]. split; [lia|]. rewrite app_nil_r, app_assoc.
    destruct (made_sniffed d data now Hl Hb) as [Hs _]; [lia|]. apply (orderly_snoc t); try done. lia. }
  destruct (IH _ _ _ _ _ _ E Hc1 Ht1 HL1 Ho1) as [t' Ht']. exists t'. rewrite shown_app, app_assoc. exact Ht'.
Qed.

Section Stream.
Context (cache_on : bool) (is_ws : Z -> bool) (His_ws : forall fd, is_ws fd = true).

(** Draining numbers the shown packets in increasing order. *)
Lemma drain_sends q w fd :
  ws_client_fd w = Some fd -> 0 <= packet_counter w -> packet_counter w + zlen q < 2 ^ 32 ->
  exists ids, length ids = length (shown q) /\ StronglySorted Z.lt ids /\
    Forall (fun n => packet_counter w < n <= packet_counter w + zlen q) ids /\
    ws_sent (ws_drain cache_on is_ws q w) = ws_sent w ++ zip_with (fun n pkt => (fd, format_packet_json n pkt)) ids (shown q).
Proof.
  revert w. induction q as [|pkt q IH]; intros w Hfd H0 Hc.
  { exists []. cbn. rewrite app_nil_r. split_and!; done || constructor. }
  assert (zlen (pkt :: q) = 1 + zlen q) as Hz by (unfold zlen; cbn [length]; lia). rewrite Hz in *.
  assert (0 <= zlen q) as Hq by (unfold zlen; lia). cbn [ws_drain]. unfold sniffer_ws_dispatch. cbn [snd]. rewrite Hfd, His_ws. cbn [negb].
  rewrite Z.mod_small by lia. set (n := packet_counter w + 1). cbn [shown List.filter]. destruct (is_timeout pkt); cbn [negb].
  - destruct (IH (WsState (Some fd) n (ws_sent w))) as (ids & Hl & Hs & Hb & E); [done|cbn; lia|cbn; lia|].
    exists ids. split_and!; try done. eapply Forall_impl; [exact Hb|]. cbn. lia.
  - destruct (IH (WsState (Some fd) n (ws_sent w ++ [(fd, format_packet_json n pkt)]))) as (ids & Hl & Hs & Hb & E); [done|cbn; lia|cbn; lia|].
    exists (n :: ids). cbn [packet_counter] in *. split_and!.
    + cbn. by rewrite Hl.
    + constructor; [done|]. eapply Forall_impl; [exact Hb|]. cbn. lia.
    + constructor; [lia|]. eapply Forall_impl; [exact Hb|]. cbn. lia.
    + rewrite E. cbn [ws_sent zip_with]. by rewrite <- app_assoc.
Qed.

(** What a client makes of the texts. *)
Lemma drained_packets ids ps fd :
  length ids = length ps -> Forall (fun n => 0 <= n < 2 ^ 32) ids -> Forall wire_packet ps ->
  each loads (snd <$> zip_with (fun n pkt => (fd : Z, format_packet_json n pkt)) ids ps) = Ok (zip_with packet_json ids ps).
Proof.
  intros Hl Hi Hp. apply each_ok. revert ps Hl Hp. induction Hi as [|n ids Hn _ IH]; intros [|p ps] Hl Hp; try done.
  apply Forall_cons in Hp as [Hp Hps]. cbn [zip_with fmap list_fmap]. constructor; [by apply loads_format|]. apply IH; [cbn in Hl; lia|done].
Qed.

Lemma zip_each {B} (f : json -> outcome B) (g : Z -> sniff_packet_t -> B) ids ps :
  length ids = length ps -> (forall n pkt, pkt ∈ ps -> f (packet_json n pkt) = Ok (g n pkt)) ->
  each f (zip_with packet_json ids ps) = Ok (zip_with g ids ps).
Proof.
  revert ps. induction ids as [|n ids IH]; intros [|p ps] Hl Hf; try done. cbn [zip_with each].
  rewrite Hf by (left). cbn [obind]. rewrite IH; [done|cbn in Hl; lia|]. intros m pkt H. apply Hf. by right.
Qed.

Lemma zip_first {A B} (l : list A) (m : list B) : length l = length m -> zip_with (fun x _ => x) l m = l.
Proof. revert m. induction l as [|x l IH]; intros [|y m] H; try done. cbn. f_equal. apply IH. cbn in H. lia. Qed.

Lemma zip_second {A B C} (f : B -> C) (l : list A) (m : list B) : length l = length m -> zip_with (fun _ y => f y) l m = f <$> m.
Proof. revert m. induction l as [|x l IH]; intros [|y m] H; try done. cbn. f_equal. apply IH. cbn in H. lia. Qed.

(** What the checks need of the packets: at least ten packets of port 1 with fields of their
    C types, none empty, at positive times that do not decrease. *)
Record steady (ps : list sniff_packet_t) : Prop := {
  steady_many : 10 <= zlen ps;
  steady_wire : Forall wire_packet ps;
  steady_port : Forall (fun pkt => pport pkt = 0) ps;
  steady_data : Forall (fun pkt => pdata pkt <> []) ps;
  steady_time : Forall (fun pkt => 0 < timestamp_us pkt) ps;
  steady_order : StronglySorted Z.le (timestamp_us <$> ps)
}.

Lemma fields_index k n pkt v : jget k (packet_fields n pkt) = Some v -> jindex k (JObj (packet_fields n pkt)) = Ok v.
Proof. intros H. cbn [jindex]. by rewrite H. Qed.

Lemma packet_index k n pkt v : jget k (packet_fields n pkt) = Some v -> jindex k (packet_json n pkt) = Ok v.
Proof. apply fields_index. Qed.

Lemma port_accepted ids ps : length ids = length ps -> steady ps -> port_verdict (zip_with packet_json ids ps) = Ok tt.
Proof.
  intros Hl [Hm _ Hp _ _ _]. unfold port_verdict, enough.
  assert (zlen (zip_with packet_json ids ps) = zlen ps) as -> by (unfold zlen; rewrite length_zip_with; lia).
  assert ((5 <=? zlen ps) = true) as -> by (apply Z.leb_le; lia). cbn [expect obind].
  assert (all_port_1 (zip_with packet_json ids ps) = Ok true) as ->; [|done].
  clear Hm. revert ids Hl. induction Hp as [|pkt ps Hp _ IH]; intros [|n ids] Hl; try done. cbn [zip_with all_port_1].
  rewrite (packet_index "port" n pkt (JNum (pport pkt + 1))) by reflexivity. cbn [obind jeq]. rewrite Hp. cbn. apply IH. cbn in Hl. lia.
Qed.

Lemma timestamps_accepted ids ps : length ids = length ps -> steady ps -> timestamp_verdict (zip_with packet_json ids ps) = Ok tt.
Proof.
  intros Hl [Hm _ _ _ Ht Ho]. unfold timestamp_verdict, enough.
  assert (zlen (zip_with packet_json ids ps) = zlen ps) as -> by (unfold zlen; rewrite length_zip_with; lia).
  assert ((5 <=? zlen ps) = true) as -> by (apply Z.leb_le; lia). cbn [expect obind].
  rewrite Forall_forall in Ht.
  rewrite (zip_each timestamp_ok (fun _ _ => tt)); [|done|].
  2: { intros n pkt H%Ht. change (packet_json n pkt) with (JObj (packet_fields n pkt)). unfold timestamp_ok. cbn [py_get obind].
       assert (jget "timestamp_us" (packet_fields n pkt) = Some (JNum (timestamp_us pkt))) as -> by reflexivity. cbn [as_int].
       apply Z.ltb_lt in H. by rewrite H. }
  cbn [obind]. rewrite (zip_each (jindex "timestamp_us") (fun _ pkt => JNum (timestamp_us pkt))); [|done|intros; by apply packet_index].
  cbn [obind]. rewrite (zip_second (fun pkt => JNum (timestamp_us pkt))) by done.
  change ((fun pkt => JNum (timestamp_us pkt)) <$> ps) with ((JNum ∘ timestamp_us) <$> ps). rewrite list_fmap_compose, neighbours_fmap.
  apply (neighbours_sorted Z.le _ _) in Ho.
  assert (each (fun ab => let? b := py_ge ab.2 ab.1 in expect b) ((fun ab => (JNum ab.1, JNum ab.2)) <$> neighbours (timestamp_us <$> ps)) =
    Ok ((fun _ => tt) <$> neighbours (timestamp_us <$> ps))) as ->; [|done].
  apply each_ok. induction Ho as [|[x y] l Hxy _ IH]; [constructor|]. constructor; [|done]. cbn in *. apply Z.leb_le in Hxy. by rewrite Hxy.
Qed.

Lemma raw_accepted ids ps : length ids = length ps -> steady ps -> raw_verdict (zip_with packet_json ids ps) = Ok tt.
Proof.
  intros Hl [Hm Hw _ Hd _ _]. unfold raw_verdict, enough.
  assert (zlen (zip_with packet_json ids ps) = zlen ps) as -> by (unfold zlen; rewrite length_zip_with; lia).
  assert ((5 <=? zlen ps) = true) as -> by (apply Z.leb_le; lia). cbn [expect obind].
  rewrite Forall_forall in Hw, Hd. rewrite (zip_each raw_ok (fun _ _ => tt)); [done|done|]. intros n pkt H.
  change (packet_json n pkt) with (JObj (packet_fields n pkt)). eapply raw_ok_hex; [by apply Hd|apply (wire_data _ (Hw _ H))|reflexivity|reflexivity].
Qed.

Lemma fields_accepted ids ps :
  length ids = length ps -> each packet_checked (zip_with packet_json ids ps) = Ok ((fun pkt => Some (pcrc_valid pkt)) <$> ps).
Proof.
  intros Hl. rewrite <- (zip_second (fun pkt => Some (pcrc_valid pkt)) ids ps) by done. apply zip_each; [done|]. intros n pkt _.
  unfold packet_checked, has_fields. change (packet_json n pkt) with (JObj (packet_fields n pkt)).
  assert (forall k, k ∈ (packet_fields n pkt).*1 -> py_in k (JObj (packet_fields n pkt)) = Ok true) as Hin.
  { intros k Hk. cbn. by rewrite bool_decide_true. }
  cbn [each]. rewrite !Hin by (cbn [packet_fields packet_json fmap list_fmap fst]; rewrite !elem_of_cons; tauto). cbn [obind expect].
  rewrite (fields_index "type" n pkt (JStr "packet")) by reflexivity. cbn [obind].
  change (jeq (JStr "packet") (JStr "packet")) with true. cbn [negb obind].
  rewrite (fields_index "sender" n pkt (JStr (if is_master pkt then "master" else "slave"))) by reflexivity. cbn [obind].
  rewrite (fields_index "crc_valid" n pkt (JBool (pcrc_valid pkt))) by reflexivity. by destruct (is_master pkt).
Qed.

(** What a run of the firmware hands over is such traffic. *)
Lemma run_steady l p : perform_all 0 l (init_port 1) = Some p -> clocked 1 l -> 10 <= zlen (shown (taken l (init_port 1))) ->
  steady (shown (taken l (init_port 1))).
Proof.
  intros E Hc Hm. destruct (taken_orderly l 1 (init_port 1) p AtRest [] [] E Hc) as [t [Hs Hf]]; [done|by split|split; constructor|].
  cbn [app] in *. split; [done|..].
  1-4: eapply Forall_impl; [exact Hf|]; by intros pkt [[? ? ? ?] _].
  by apply (StronglySorted_fmap timestamp_us earlier Z.le).
Qed.

(** C24. The field checks accept the firmware.  Take any run of the sniffer of port 1 from its start: frames of any bytes fed by one task at times of a clock that does not go back, timer commands, timeouts, packets lost to a full queue, enables and disables in any order; and let the WebSocket task take the packets it takes from the queue in that run (nothing sniffs port 2).  With a client that stays connected, a packet counter that does not wrap and at least ten packets that are not timeouts: json.loads reads every message the task sends, and the checks of the tests on port, ids, timestamps, raw text and fields all pass, crc_valid as the firmware judged it. *)
Theorem firmware_stream_accepted l final w fd :
  perform_all 0 l (init_port 1) = Some final -> clocked 1 l ->
  let q := taken l (init_port 1) in
  ws_client_fd w = Some fd -> 0 <= packet_counter w -> packet_counter w + zlen q < 2 ^ 32 -> 10 <= zlen (shown q) ->
  exists packets,
    each loads (snd <$> drop (length (ws_sent w)) (ws_sent (ws_drain cache_on is_ws q w))) = Ok packets /\
    port_verdict packets = Ok tt /\ id_verdict packets = Ok tt /\ timestamp_verdict packets = Ok tt /\
    raw_verdict packets = Ok tt /\ each packet_checked packets = Ok ((fun pkt => Some (pcrc_valid pkt)) <$> shown q).
Proof.
  intros Hrun Hclock q Hfd H0 Hc Hm. pose proof (run_steady l final Hrun Hclock Hm) as Hs. fold q in Hs. destruct (drain_sends q w fd Hfd H0 Hc) as (ids & Hl & Hsort & Hb & ->). rewrite drop_app_length.
  exists (zip_with packet_json ids (shown q)). split_and!.
  - apply drained_packets; [done| |apply Hs]. eapply Forall_impl; [exact Hb|]. cbn. lia.
  - by apply port_accepted.
  - apply (id_verdict_iff _ ids).
    + clear Hsort Hb Hm Hs. generalize dependent (shown q). intros ps Hl. revert ps Hl.
      induction ids as [|n ids IH]; intros [|p ps] Hl; try done. constructor; [by apply packet_index|].
      apply IH. cbn in Hl. lia.
    + split; [|done]. unfold zlen. rewrite length_zip_with. unfold zlen in Hm. lia.
  - by apply timestamps_accepted.
  - by apply raw_accepted.
  - by apply fields_accepted.
Qed.

End Stream.

(** A request and its response, six times, then a request that stays without
    a response until its timer expires. *)
Definition demo_exchange : list action :=
  whole_frame 0 demo_request 1000 ++ [RunCommand; Consume] ++ whole_frame 0 demo_response 1000 ++ [RunCommand; Consume].
Definition demo_run : list action :=
  [Enable SNIFF_REASON_DISPLAY] ++ concat (replicate 6 demo_exchange) ++
  whole_frame 0 demo_request 2000 ++ [RunCommand; Expire; SendTimeout true; Consume; Consume].

Lemma firmware_stream_accepted_witness :
  exists packets,
    each loads (snd <$> ws_sent (ws_drain true (fun _ => true) (taken demo_run (init_port 1)) (WsState (Some 57) 4000 []))) = Ok packets /\
    length packets = 13%nat /\ id_verdict packets = Ok tt /\ raw_verdict packets = Ok tt.
Proof.
  destruct (perform_all 0 demo_run (init_port 1)) as [p|] eqn:E; [|vm_compute in E; discriminate].
  assert (bytes_ok demo_request /\ bytes_ok demo_response) as [B1 B2].
  { split; apply (bool_decide_unpack _); vm_compute; exact I. }
  destruct (firmware_stream_accepted true (fun _ => true) (fun _ => eq_refl) demo_run p (WsState (Some 57) 4000 []) 57 E)
    as (packets & Hl & _ & Hid & _ & Hraw & Hf); [|done|cbn; lia|vm_compute; reflexivity|vm_compute; discriminate|].
  - cbn -[bytes_ok demo_request demo_response Z.pow]. split_and!; done || lia.
  - change (length (ws_sent (WsState (Some 57) 4000 []))) with 0%nat in Hl. rewrite drop_0 in Hl.
    exists packets. split; [exact Hl|]. split; [|by split].
    apply each_ok in Hf. apply Forall2_length in Hf. rewrite Hf. vm_compute. reflexivity.
Defined.
