(* ===== verification/SettingsTests.v ===== *)
(** * The settings tests: api_tests/03_test_settings.py

    Every test of the file over the HTTP client and a device parameter.  A
    body that is posted as text (not as JSON) has its own parameter.
    Theorems: each test ends and writes the settings it read back; what a pass
    of the structure check says; and what the per-field test does not see. *)

From Stdlib Require Import ZArith QArith Lia Lqa String.
From stdpp Require Import base list gmap strings.
From S2P Require Import Prelude PyBytes PyStr QemuPorts Gateway NetLog AuthTests JsonText ApiClient.

Open Scope Z_scope.

(** ** Checks *)

Definition check (b : bool) : outcome unit := if b then Ok tt else Raise AssertionError.

(** [for x in l: f(x)] *)
Fixpoint for_each {A} (f : A -> outcome unit) (l : list A) : outcome unit :=
  match l with [] => Ok tt | x :: l => let? _ := f x in for_each f l end.

Definition has_all (ks : list string) (j : json) : outcome unit :=
  for_each (fun k => let? b := py_in k j in check b) ks.

Definition is_bool (j : json) : bool := match j with JBool _ => true | _ => false end.

(** [isinstance(v, int)]: a boolean is one. *)
Definition int_value (j : json) : option Z :=
  match j with JNum n => Some n | JBool b => Some (Z.b2z b) | _ => None end.

Definition check_bool (k : string) (j : json) : outcome unit := let? v := jindex k j in check (is_bool v).
Definition check_int (k : string) (j : json) : outcome unit :=
  let? v := jindex k j in check (match int_value v with Some _ => true | None => false end).
Definition check_in (k : string) (vs : list json) (j : json) : outcome unit :=
  let? v := jindex k j in check (existsb (jeq v) vs).

(** [isinstance(v, int)] and a range for it. *)
Definition check_range (k : string) (good : Z -> bool) (j : json) : outcome unit :=
  let? v := jindex k j in check (match int_value v with Some n => good n | None => false end).

Definition port_range (n : Z) : bool := (1 <=? n) && (n <=? 65535).

Definition strs (l : list string) : list json := JStr <$> l.

Definition required_sections : list string := ["wifi"; "ethernet"; "rs485_1"; "rs485_2"].
Definition wifi_fields : list string :=
  ["mode"; "ap_auth"; "sta_auth"; "ap_ssid"; "ap_pass"; "sta_ssid"; "sta_pass"; "ap_ip_static"; "ap_mask_static"; "ap_gw_static";
   "sta_dhcpc"; "sta_ip_static"; "sta_mask_static"; "sta_gw_static"].
Definition eth_fields : list string := ["ip_static"; "mask_static"; "gw_static"; "dhcpc"].
Definition rs485_fields : list string :=
  ["term"; "fail_safe"; "tx_disabled"; "baudrate"; "stopbits"; "parity"; "databits"; "port_mode"; "cache_en"; "bridge"].
Definition bridge_fields : list string := ["mode"; "port"; "ip"; "modbus"].
Definition baudrate_options : list Z := [1200; 2400; 4800; 9600; 19200; 38400; 57600; 115200].

(** The blocks of the structure check. *)
Definition check_main (j : json) : outcome unit :=
  let? _ := has_all required_sections j in
  let? _ := has_all ["hostname"; "login"; "pass"; "vout"; "web_port"; "io_bus"] j in
  let? _ := check_bool "vout" j in
  let? _ := check_int "web_port" j in
  let? _ := check_range "web_port" port_range j in
  let? _ := check_bool "io_bus" j in
  let? _ := has_all ["cache_modbus_port"] j in
  let? _ := check_range "cache_modbus_port" port_range j in
  let? _ := has_all ["cache_modbus_server_enabled"] j in
  let? _ := check_bool "cache_modbus_server_enabled" j in
  let? _ := has_all ["cache_value_timeout_s"] j in
  let? _ := check_range "cache_value_timeout_s" (Z.leb 0) j in
  let? _ := has_all ["update_channel"] j in
  check_in "update_channel" (strs ["stable"; "testing"]) j.

Definition check_wifi (wifi : json) : outcome unit :=
  let? _ := has_all wifi_fields wifi in
  let? _ := check_bool "sta_dhcpc" wifi in
  let? _ := check_in "mode" (strs ["ap"; "sta"; "apsta"; "none"]) wifi in
  let? _ := check_in "ap_auth" (strs ["open"; "wpa2_psk"; "wpa3_psk"]) wifi in
  check_in "sta_auth" (strs ["open"; "wpa2_psk"; "wpa3_psk"]) wifi.

Definition check_eth (eth : json) : outcome unit :=
  let? _ := has_all eth_fields eth in check_bool "dhcpc" eth.

Definition check_rs485 (original : json) (port : string) : outcome unit :=
  let? rs485 := jindex port original in
  let? _ := has_all rs485_fields rs485 in
  let? _ := check_bool "term" rs485 in
  let? _ := check_bool "fail_safe" rs485 in
  let? _ := check_bool "tx_disabled" rs485 in
  let? _ := check_int "baudrate" rs485 in
  let? _ := check_in "baudrate" (JNum <$> baudrate_options) rs485 in
  let? _ := check_in "stopbits" (strs ["1"; "1.5"; "2"]) rs485 in
  let? _ := check_in "parity" (strs ["none"; "even"; "odd"]) rs485 in
  let? _ := check_in "databits" (strs ["5"; "6"; "7"; "8"]) rs485 in
  let? _ := check_in "port_mode" (strs ["disabled"; "tcp_bridge"; "passive"; "repeater"]) rs485 in
  let? _ := check_bool "cache_en" rs485 in
  let? bridge := jindex "bridge" rs485 in
  let? _ := has_all bridge_fields bridge in
  let? _ := check_in "mode" (strs ["server"; "client"]) bridge in
  let? _ := check_int "port" bridge in
  let? _ := check_range "port" port_range bridge in
  check_bool "modbus" bridge.

Definition structure (j : json) : outcome unit :=
  let? _ := check_main j in
  let? wifi := jindex "wifi" j in
  let? _ := check_wifi wifi in
  let? eth := jindex "ethernet" j in
  let? _ := check_eth eth in
  for_each (check_rs485 j) ["rs485_1"; "rs485_2"].

(** ** The documents *)

(** [not j[k]] *)
Definition negated (k : string) (j : json) : outcome json := let? v := jindex k j in Ok (JBool (negb (truthy v))).

Definition bridge_doc (mode : string) (port : Z) (ip : string) (modbus : bool) : json :=
  JObj [("mode", JStr mode); ("port", JNum port); ("ip", JStr ip); ("modbus", JBool modbus)].

Definition rs485_doc (original : json) (key : string) (baudrate : Z) (stopbits parity databits : string) (bridge : json)
    : outcome json :=
  let? o := jindex key original in
  let? term := negated "term" o in
  let? fail_safe := negated "fail_safe" o in
  let? tx_disabled := negated "tx_disabled" o in
  Ok (JObj [("term", term); ("fail_safe", fail_safe); ("tx_disabled", tx_disabled); ("baudrate", JNum baudrate);
    ("stopbits", JStr stopbits); ("parity", JStr parity); ("databits", JStr databits); ("bridge", bridge)]).

(** [test_settings] of the first test. *)
Definition valid_document (original : json) : outcome json :=
  let? web_port := jindex "web_port" original in
  let? vout := negated "vout" original in
  let? io_bus := negated "io_bus" original in
  let? wifi := jindex "wifi" original in
  let? sta_dhcpc := negated "sta_dhcpc" wifi in
  let? eth := jindex "ethernet" original in
  let? dhcpc := negated "dhcpc" eth in
  let? p1 := rs485_doc original "rs485_1" 115200 "1.5" "even" "7" (bridge_doc "server" 5020 "192.168.1.49" true) in
  let? p2 := rs485_doc original "rs485_2" 38400 "1" "odd" "6" (bridge_doc "client" 5021 "192.168.1.50" false) in
  Ok (JObj [("hostname", JStr "test-device-123"); ("web_port", web_port); ("vout", vout); ("io_bus", io_bus);
    ("wifi", JObj [("mode", JStr "sta"); ("ap_auth", JStr "wpa2_psk"); ("sta_auth", JStr "wpa3_psk"); ("ap_ssid", JStr "Test-SSID#123.");
       ("ap_pass", JStr "testpass123#*~"); ("sta_ssid", JStr "Station-SSID"); ("sta_pass", JStr "#stapass.456");
       ("ap_ip_static", JStr "192.168.4.1"); ("ap_mask_static", JStr "255.255.255.0"); ("ap_gw_static", JStr "192.168.4.1");
       ("sta_dhcpc", sta_dhcpc); ("sta_ip_static", JStr "192.168.2.7"); ("sta_mask_static", JStr "255.255.255.0");
       ("sta_gw_static", JStr "192.168.2.1")]);
    ("ethernet", JObj [("dhcpc", dhcpc); ("ip_static", JStr "192.168.1.100"); ("mask_static", JStr "255.255.255.0"); ("gw_static", JStr "192.168.1.1")]);
    ("rs485_1", p1); ("rs485_2", p2)]).

(** [s * n] *)
Fixpoint repeated (n : nat) (s : string) : string := match n with O => "" | S n => s +:+ repeated n s end.

Definition invalid_document : json :=
  JObj [("hostname", JStr "invalid_hostname!"); ("web_port", JNum 70000);
    ("wifi", JObj [("mode", JStr "disabled"); ("ap_auth", JStr "close"); ("sta_auth", JStr "wep"); ("ap_ssid", JStr (repeated 50 "a"));
       ("sta_ssid", JStr "фыва123"); ("ap_ip_static", JStr "123.456.789.101"); ("ap_mask_static", JStr "abc.def.ghi.jkl"); ("ap_gw_static", JBool true);
       ("sta_ip_static", JStr "192.168.1.1.1"); ("sta_mask_static", JStr "123.aaa.1.1"); ("sta_gw_static", JNum 192)]);
    ("ethernet", JObj [("ip_static", JStr "123.456.789.101"); ("mask_static", JNum 456); ("gw_static", JNum 789); ("dhcpc", JNum 0)]);
    ("rs485_1", JObj [("term", JNum 1); ("fail_safe", JStr "off"); ("tx_disabled", JStr "off"); ("baudrate", JNum 123456); ("stopbits", JStr "2.5");
       ("parity", JStr "all"); ("databits", JStr "2");
       ("bridge", JObj [("mode", JStr "station"); ("port", JNum 0); ("ip", JStr "201.250.252.256"); ("modbus", JStr "enabled")])]);
    ("rs485_2", JObj [("term", JStr "true"); ("fail_safe", JStr "true"); ("tx_disabled", JStr "true"); ("baudrate", JNum 0); ("stopbits", JStr "0.5");
       ("parity", JStr "disabled"); ("databits", JStr "4");
       ("bridge", JObj [("mode", JStr "server"); ("port", JNum 65536); ("ip", JStr "102.abc.126.18"); ("modbus", JStr "disabled")])]);
    ("vout", JStr "true"); ("io_bus", JStr "true")].

(** The cases of the per-field test. *)
Definition wifi_case (ap_ssid ap_ip ap_mask : string) : json :=
  JObj [("wifi", JObj [("mode", JStr "disabled"); ("ap_auth", JStr "close"); ("sta_auth", JStr "wep"); ("ap_ssid", JStr ap_ssid);
    ("sta_ssid", JStr "valid"); ("ap_ip_static", JStr ap_ip); ("ap_mask_static", JStr ap_mask); ("ap_gw_static", JStr "192.168.4.1");
    ("sta_ip_static", JStr "192.168.1.2"); ("sta_mask_static", JStr "255.255.255.0"); ("sta_gw_static", JStr "192.168.1.1")])].

Definition eth_case (ip : string) (mask : json) : json :=
  JObj [("ethernet", JObj [("ip_static", JStr ip); ("mask_static", mask); ("gw_static", JStr "192.168.1.1"); ("dhcpc", JBool true)])].

Definition rs485_case (term : json) (baudrate : Z) (stopbits parity databits mode : string) (port : Z) (ip : string) : json :=
  JObj [("rs485_1", JObj [("term", term); ("fail_safe", JStr "off"); ("tx_disabled", JBool false); ("baudrate", JNum baudrate);
    ("stopbits", JStr stopbits); ("parity", JStr parity); ("databits", JStr databits);
    ("bridge", JObj [("mode", JStr mode); ("port", JNum port); ("ip", JStr ip); ("modbus", JStr "true")])])].

Definition invalid_cases : list json :=
  [JObj [("hostname", JStr "invalid_hostname!")];
   JObj [("web_port", JNum 70000)];
   JObj [("web_port", JNum 0)];
   JObj [("update_channel", JStr "unstable")];
   JObj [("update_channel", JStr "")];
   JObj [("update_channel", JStr "Stable")];
   JObj [("update_channel", JNum 123)];
   wifi_case "" "192.168.4.1" "255.255.255.0";
   wifi_case (repeated 50 "a") "192.168.4.1" "255.255.255.0";
   wifi_case "valid" "123.456.789.101" "255.255.255.0";
   wifi_case "valid" "192.168.4.1" "abc.def.ghi.jkl";
   eth_case "123.456.789.101" (JStr "255.255.255.0");
   eth_case "192.168.1.2" (JNum 456);
   rs485_case (JNum 1) 123456 "1" "none" "8" "server" 502 "0.0.0.0";
   rs485_case (JBool false) 9600 "2.5" "none" "8" "server" 502 "0.0.0.0";
   rs485_case (JBool false) 9600 "1" "all" "8" "server" 502 "0.0.0.0";
   rs485_case (JBool false) 9600 "1" "none" "2" "server" 502 "0.0.0.0";
   rs485_case (JBool false) 9600 "1" "none" "8" "client" 0 "0.0.0.0";
   rs485_case (JBool false) 9600 "1" "none" "8" "client" 65536 "0.0.0.0";
   rs485_case (JBool false) 9600 "1" "none" "8" "client" 502 "201.250.252.256"].

(** ** The tests *)

Definition main_fields : list string := ["hostname"; "vout"; "web_port"; "io_bus"].
Definition rs485_main_fields : list string := ["term"; "fail_safe"; "tx_disabled"; "baudrate"; "stopbits"; "parity"; "databits"].

(** [assert new[k] == old[k]] for each field. *)
Definition same_fields (ks : list string) (new old : json) : outcome unit :=
  for_each (fun k => let? x := jindex k new in let? y := jindex k old in check (jeq x y)) ks.

(** The read-back of one port and of its bridge. *)
Definition same_port (port : string) (new old : json) : outcome unit :=
  let? p := jindex port new in
  let? q := jindex port old in
  let? _ := same_fields rs485_main_fields p q in
  let? b := jindex "bridge" p in
  let? c := jindex "bridge" q in
  same_fields bridge_fields b c.

Definition saved (new old : json) : outcome unit :=
  let? _ := same_fields main_fields new old in
  let? w := jindex "wifi" new in
  let? w' := jindex "wifi" old in
  let? _ := same_fields wifi_fields w w' in
  let? e := jindex "ethernet" new in
  let? e' := jindex "ethernet" old in
  let? _ := same_fields eth_fields e e' in
  let? _ := same_port "rs485_1" new old in
  same_port "rs485_2" new old.

(** [d.get(k) == b]: a number is compared with a boolean as Python does. *)
Definition got_equal (k : string) (b : bool) (j : json) : outcome bool :=
  let? v := py_get k j in Ok (match v with Some v => jeq v (JBool b) | None => false end).

(** [j[k1][k2]] *)
Definition jindex2 (k1 k2 : string) (j : json) : outcome json := let? v := jindex k1 j in jindex k2 v.

(** [len(v)] *)
Definition json_len (v : json) : outcome nat :=
  match v with
  | JStr s => Ok (String.length s)
  | JList l => Ok (length l)
  | JObj f => Ok (length f)
  | _ => Raise TypeError
  end.

(** [next(b for b in baudrate_options if b != original_baudrate)] *)
Definition new_baudrate (original : json) : outcome Z :=
  match filter (fun b => jeq (JNum b) original = false) baudrate_options with
  | b :: _ => Ok b
  | [] => Raise Exception_        (* StopIteration *)
  end.

Definition in_wifi (fields : list (string * json)) : json := JObj [("wifi", JObj fields)].
Definition in_rs485_1 (fields : list (string * json)) : json := JObj [("rs485_1", JObj fields)].

Section Tests.
Context {D : Type} (device : request -> D -> outcome response * D).
Context (text_post : string -> D -> outcome response * D).     (* POST /settings with this text as its body *)

Notation world := (aworld D).

Definition settings_ok : eff world json :=
  let* response := get_settings device in
  assert (status_code response =? 200) ;;;
  lift (resp_json response).

Definition posted (j : json) : eff world json :=
  let* response := update_settings device j in
  assert (status_code response =? 200) ;;;
  lift (resp_json response).

(** A POST whose answer must have [success] at [True], or at [False]. *)
Definition post_is (b : bool) (j : json) : eff world unit :=
  let* result := posted j in
  let* ok := lift (get_is "success" b result) in
  assert ok.

Definition post_equal (b : bool) (j : json) : eff world unit :=
  let* result := posted j in
  let* ok := lift (got_equal "success" b result) in
  assert ok.

(** The [finally] of every test. *)
Definition put_back (original : json) : eff world unit := let* _ := update_settings device original in ret tt.

(** [original = ...; try: body finally: put it back] *)
Definition with_restore (body : json -> eff world unit) : eff world unit :=
  let* original := settings_ok in
  try_finally (body original) (put_back original).

Definition valid_then_invalid (document : json) : eff world unit :=
  let* result := posted document in
  let* ok := lift (jindex "success" result) in
  assert (jeq ok (JBool true)) ;;;
  let* new_settings := settings_ok in
  lift (saved new_settings document) ;;;
  post_equal false invalid_document ;;;
  let* valid_settings := settings_ok in
  assert (jeq valid_settings new_settings).

Definition test_settings : eff world unit :=
  let* original := settings_ok in
  lift (structure original) ;;;
  let* document := lift (valid_document original) in
  try_finally (valid_then_invalid document) (put_back original).

(** A value of the settings, read back. *)
Definition port_mode_is (v : string) (current : json) : eff world unit :=
  let* m := lift (jindex2 "rs485_1" "port_mode" current) in
  assert (jeq m (JStr v)).

Definition test_port_mode_cache_en_round_trip : eff world unit :=
  with_restore (fun _ =>
    post_is true (in_rs485_1 [("port_mode", JStr "repeater"); ("cache_en", JBool true)]) ;;;
    let* current := settings_ok in
    port_mode_is "repeater" current ;;;
    let* c := lift (jindex2 "rs485_1" "cache_en" current) in
    assert (match c with JBool b => b | _ => false end) ;;;
    post_is false (in_rs485_1 [("port_mode", JStr "bogus")]) ;;;
    let* current := settings_ok in
    port_mode_is "repeater" current).

Definition channel_case (accepted : bool) (value : json) (expected : string) : eff world unit :=
  post_is accepted (JObj [("update_channel", value)]) ;;;
  let* s := settings_ok in
  let* c := lift (jindex "update_channel" s) in
  assert (jeq c (JStr expected)).

Fixpoint channels_accepted (l : list string) : eff world unit :=
  match l with [] => ret tt | c :: l => channel_case true (JStr c) c ;;; channels_accepted l end.
Fixpoint channels_rejected (l : list json) : eff world unit :=
  match l with [] => ret tt | v :: l => channel_case false v "stable" ;;; channels_rejected l end.

Definition test_update_channel_round_trip : eff world unit :=
  with_restore (fun _ =>
    channels_accepted ["testing"; "stable"] ;;;
    channels_rejected [JStr "unstable"; JStr ""; JStr "Stable"; JNum 123]).

(** Clear the station network, export the settings, import them again. *)
Definition export_import : eff world unit :=
  post_is true (in_wifi [("sta_ssid", JStr "")]) ;;;
  let* exported := settings_ok in
  let* ssid := lift (jindex2 "wifi" "sta_ssid" exported) in
  assert (jeq ssid (JStr "")) ;;;
  post_is true exported ;;;
  let* again := settings_ok in
  assert (jeq again exported).

Definition test_settings_document_round_trip : eff world unit :=
  let* original := settings_ok in
  let* wifi := lift (py_in "wifi" original) in
  if negb wifi then raise PytestSkip
  else try_finally export_import (put_back original).

(** The loop of the per-field test; the number of cases that were not
    refused. *)
Fixpoint per_field (cases : list json) (original : json) (failed : nat) : eff world nat :=
  match cases with
  | [] => ret failed
  | c :: cases =>
      let* result := posted c in
      let* refused := lift (got_equal "success" false result) in
      if negb refused then per_field cases original (S failed)
      else
        let* current := settings_ok in
        assert (jeq current original) ;;;
        asleep (1 # 10) ;;;
        per_field cases original failed
  end.

Definition test_per_field_validation : eff world unit :=
  let* original := settings_ok in
  let* failed := try_finally (per_field invalid_cases original 0) (put_back original) in
  assert (failed =? 0)%nat.

Definition valid_data : json :=
  JObj [("hostname", JStr "valid-hostname-123"); ("login", JStr "valid_user_123");
    ("wifi", JObj [("ap_ssid", JStr "ValidSSID"); ("ap_pass", JStr "ValidPass123")])].
Definition boundary_data : json := in_wifi [("ap_ssid", JStr "A"); ("ap_pass", JStr "12345678")].
Definition limit_data : json :=
  JObj [("wifi", JObj [("ap_ssid", JStr (repeated 50 "A")); ("ap_pass", JStr (repeated 100 "A"))]); ("web_port", JNum 70000)].

Definition test_validation_patterns : eff world unit :=
  with_restore (fun _ =>
    let* response := update_settings device valid_data in
    assert (status_code response =? 200) ;;;
    let* s := settings_ok in
    let* h := lift (jindex "hostname" s) in
    assert (jeq h (JStr "valid-hostname-123")) ;;;
    let* ssid := lift (jindex2 "wifi" "ap_ssid" s) in
    assert (jeq ssid (JStr "ValidSSID")) ;;;
    let* response := update_settings device boundary_data in
    assert (status_code response =? 200) ;;;
    let* response := update_settings device limit_data in
    assert ((status_code response =? 200) || (status_code response =? 400)) ;;;
    if status_code response =? 200 then
      let* s := settings_ok in
      let* p := lift (jindex "web_port" s) in
      assert (negb (jeq p (JNum 70000))) ;;;
      let* ssid := lift (jindex2 "wifi" "ap_ssid" s) in
      let* n := lift (json_len ssid) in
      assert (n <=? 31)%nat
    else ret tt).

Definition test_wifi_password_validation : eff world unit :=
  with_restore (fun _ =>
    post_is true (in_wifi [("sta_pass", JStr "")]) ;;;
    post_is true (in_wifi [("ap_pass", JStr "")]) ;;;
    post_is true (in_wifi [("sta_pass", JStr (repeated 40 "A"))]) ;;;
    let* s := settings_ok in
    let* p := lift (jindex2 "wifi" "sta_pass" s) in
    assert (jeq p (JStr (repeated 40 "A"))) ;;;
    post_is false (in_wifi [("sta_pass", JStr "short")]) ;;;
    post_is false (JObj [("pass", JStr "")])).

Definition preserved_fields : list string :=
  ["hostname"; "login"; "web_port"; "io_bus"; "cache_modbus_port"; "cache_modbus_server_enabled"; "cache_value_timeout_s"].
Definition rs485_preserved : list string := ["term"; "fail_safe"; "tx_disabled"; "stopbits"; "parity"; "databits"].

(** [if field in original: assert updated[field] == original[field]] *)
Definition preserved (updated original : json) : outcome unit :=
  for_each (fun k =>
    let? here := py_in k original in
    if here then same_fields [k] updated original else Ok tt) preserved_fields.

Definition test_settings_partial_update : eff world unit :=
  with_restore (fun original =>
    let* new_vout := lift (negated "vout" original) in
    post_equal true (JObj [("vout", new_vout)]) ;;;
    let* updated := settings_ok in
    let* v := lift (jindex "vout" updated) in
    assert (jeq v new_vout) ;;;
    lift (preserved updated original) ;;;
    let* original_baudrate := lift (jindex2 "rs485_1" "baudrate" original) in
    let* b := lift (new_baudrate original_baudrate) in
    post_equal true (in_rs485_1 [("baudrate", JNum b)]) ;;;
    let* updated2 := settings_ok in
    let* v := lift (jindex2 "rs485_1" "baudrate" updated2) in
    assert (jeq v (JNum b)) ;;;
    lift (let? new := jindex "rs485_1" updated2 in
          let? old := jindex "rs485_1" original in
          same_fields rs485_preserved new old)).

(** [api.session.post(..., data=text, timeout=10)]; the log of requests keeps
    the request without its text. *)
Definition post_text (text : string) : eff world response :=
  asleep DELAY_S ;;;
  (fun w =>
     let (r, d) := text_post text (dev w) in
     (r, AWorld d (log w ++ [Request POST "/settings" None (scalar 10)]) (store_cookies r (cookies w)) (open_sessions w)
           (now w + cost w (length (log w)))%Q (cost w))).

Definition test_post_malformed_json : eff world unit :=
  let* response := post_text "" in
  assert (status_code response =? 400) ;;;
  let* response := post_text (with_quotes "{'key': 'value'") in
  assert (status_code response =? 400).

Definition test_post_body_too_large : eff world unit :=
  let* response := post_text (repeated 4095 "A") in
  assert ((status_code response =? 400) || (status_code response =? 200)) ;;;
  let* response := post_text (repeated 4096 "A") in
  assert (status_code response =? 400).

End Tests.

(** ** The tests end and write the settings back *)

Section Restores.
Context {D : Type} (device : request -> D -> outcome response * D) (text_post : string -> D -> outcome response * D).
Context (Hdev : forall q d, settled (device q d).1).

Notation world := (aworld D).

(** A computation that ends, and only adds requests. *)
Definition sends {A} (m : eff world A) : Prop := forall w, settled (m w).1 /\ exists l, log (m w).2 = log w ++ l.

Lemma sends_bind {A B} (m : eff world A) (k : A -> eff world B) : sends m -> (forall a, sends (k a)) -> sends (bind m k).
Proof.
  intros Hm Hk w. unfold bind. destruct (Hm w) as [Hs [l Hl]]. destruct (m w) as [[a|e|] w1]; cbn in *; [|by split; [|exists l]|done].
  destruct (Hk a w1) as [Hs2 [l2 Hl2]]. split; [done|]. exists (l ++ l2). by rewrite Hl2, Hl, app_assoc.
Qed.

Lemma sends_still {A} (m : eff world A) : (forall w, settled (m w).1 /\ log (m w).2 = log w) -> sends m.
Proof. intros H w. destruct (H w) as [Hs Hl]. split; [done|]. exists []. by rewrite app_nil_r. Qed.

Lemma sends_lift {A} (r : outcome A) : settled r -> sends (lift r).
Proof. intros H. by apply sends_still. Qed.
Lemma sends_ret {A} (a : A) : sends (ret a).
Proof. by apply sends_still. Qed.
Lemma sends_assert (b : bool) : sends (assert b).
Proof. apply sends_still. by destruct b. Qed.
Lemma sends_sleep d : sends (asleep d).
Proof. by apply sends_still. Qed.

Lemma session_request_log q w : settled (session_request device q w).1 /\ log (session_request device q w).2 = log w ++ [q].
Proof.
  destruct (session_request_spec device q w) as (r & d & t & c & -> & Hd & _). split; [|done].
  specialize (Hdev q (dev w)). by rewrite Hd in Hdev.
Qed.

Lemma sends_request q : sends (session_request device q).
Proof. intros w. destruct (session_request_log q w). eauto. Qed.

Lemma for_each_settled {A} (f : A -> outcome unit) l : (forall x, settled (f x)) -> settled (for_each f l).
Proof. intros H. induction l; cbn; [done|]. by apply obind_settled. Qed.
Lemma check_settled b : settled (check b).
Proof. by destruct b. Qed.
Lemma json_len_settled j : settled (json_len j).
Proof. by destruct j. Qed.
Lemma new_baudrate_settled j : settled (new_baudrate j).
Proof. unfold new_baudrate. by destruct (filter _ _). Qed.

#[local] Hint Resolve sends_bind sends_lift sends_ret sends_assert sends_sleep sends_request for_each_settled check_settled
  jindex_settled py_in_settled py_get_settled resp_json_settled json_len_settled new_baudrate_settled : wbmge.

Ltac settle := repeat first
  [ progress intros
  | solve [eauto with wbmge nocore]
  | apply sends_request | apply sends_bind | apply sends_lift | apply obind_settled | apply for_each_settled
  | match goal with |- sends (if ?b then _ else _) => destruct b end
  | match goal with |- settled (if ?b then _ else _) => destruct b end ].

Lemma same_fields_settled ks a b : settled (same_fields ks a b).
Proof. unfold same_fields. settle. Qed.
Lemma same_port_settled p a b : settled (same_port p a b).
Proof. unfold same_port. settle; apply same_fields_settled. Qed.
Lemma saved_settled a b : settled (saved a b).
Proof. unfold saved. settle; first [apply same_fields_settled | apply same_port_settled]. Qed.
Lemma preserved_settled a b : settled (preserved a b).
Proof. unfold preserved. settle. Qed.

#[local] Hint Resolve same_fields_settled saved_settled preserved_settled : wbmge.

Lemma sends_settings : sends (settings_ok device).
Proof. unfold settings_ok, get_settings, http_get. settle. Qed.
Lemma sends_posted j : sends (posted device j).
Proof. unfold posted, update_settings, http_post. settle. Qed.
Lemma sends_update j : sends (update_settings device j).
Proof. apply sends_request. Qed.

#[local] Hint Resolve sends_settings sends_posted sends_update : wbmge.

Lemma sends_post_is b j : sends (post_is device b j).
Proof. unfold post_is, get_is. settle. Qed.
Lemma sends_post_equal b j : sends (post_equal device b j).
Proof. unfold post_equal, got_equal. settle. Qed.
Lemma sends_mode_is v j : sends (port_mode_is (D := D) v j).
Proof. unfold port_mode_is, jindex2. settle. Qed.

#[local] Hint Resolve sends_post_is sends_post_equal sends_mode_is : wbmge.

Lemma sends_channel b v e : sends (channel_case device b v e).
Proof. unfold channel_case. settle. Qed.
#[local] Hint Resolve sends_channel : wbmge.
Lemma sends_accepted l : sends (channels_accepted device l).
Proof. induction l; cbn; settle. Qed.
Lemma sends_rejected l : sends (channels_rejected device l).
Proof. induction l; cbn; settle. Qed.
Lemma sends_per_field cases s n : sends (per_field device cases s n).
Proof. revert n. induction cases; intros n; cbn; unfold got_equal; settle. Qed.
#[local] Hint Resolve sends_accepted sends_rejected sends_per_field : wbmge.

(** The request that puts a document back. *)
Definition restore_request (s : json) : request := Request POST "/settings" (Some s) (scalar 30).

Definition is_restore (l : list request) (s : json) : Prop := exists l', l = l' ++ [restore_request s].

(** The test ends; when the settings were read, it either asked for nothing
    more, or its last request writes them back. *)
Definition hands_back (test : eff world unit) (w : world) : Prop :=
  settled (test w).1 /\
  match settings_ok device w with
  | (Ok s, w1) => exists l, log (test w).2 = log w1 ++ l /\ (l = [] \/ is_restore l s)
  | (_, w1) => log (test w).2 = log w1
  end.

Lemma put_back_log s w : settled (put_back device s w).1 /\ log (put_back device s w).2 = log w ++ [restore_request s].
Proof.
  unfold put_back, bind. destruct (session_request_log (restore_request s) w) as [Hs Hl].
  change (update_settings device s w) with (session_request device (restore_request s) w).
  by destruct (session_request device (restore_request s) w) as [[r|e|] w1].
Qed.

Lemma finally_restores {A} (body : eff world A) s w : sends body ->
  settled (try_finally body (put_back device s) w).1 /\
  exists l, log (try_finally body (put_back device s) w).2 = log w ++ l /\ is_restore l s.
Proof.
  intros Hb. unfold try_finally. destruct (Hb w) as [Hs [l Hl]].
  destruct (body w) as [[a|e|] w1]; cbn in *; [| |done]; destruct (put_back_log s w1) as [Hp Hq];
    destruct (put_back device s w1) as [[x|e'|] w2]; cbn in *;
    (split; [done|]); exists (l ++ [restore_request s]); rewrite Hq, Hl, app_assoc; (split; [done|by exists l]).
Qed.

(** A test that does nothing but read before its [try]. *)
Lemma hands_back_by (guard : json -> outcome bool) (body : json -> eff world unit) (skip : eff world unit) (test : eff world unit) w :
  (forall s, settled (guard s)) -> (forall w, settled (skip w).1 /\ log (skip w).2 = log w) -> (forall s, sends (body s)) ->
  test w = (let* s := settings_ok device in
            let* go := lift (guard s) in
            if go then try_finally (body s) (put_back device s) else skip) w ->
  hands_back test w.
Proof.
  intros Hg Hk Hb E. unfold hands_back. rewrite E. destruct (sends_settings w) as [Hs _]. unfold bind, lift.
  destruct (settings_ok device w) as [[s|e|] w1]; [|done|done]. specialize (Hg s).
  destruct (guard s) as [[|]|e|]; [| | |done].
  - destruct (finally_restores (body s) s w1 (Hb s)) as [Hr (l & Hl & Hi)]. split; [done|]. exists l. auto.
  - destruct (Hk w1) as [Hr Hl]. split; [done|]. exists []. rewrite app_nil_r. auto.
  - split; [done|]. exists []. rewrite app_nil_r. auto.
Qed.

Definition settings_tests : list (eff world unit) :=
  [test_settings device; test_port_mode_cache_en_round_trip device; test_update_channel_round_trip device;
   test_settings_document_round_trip device; test_per_field_validation device; test_validation_patterns device;
   test_wifi_password_validation device; test_settings_partial_update device].

Lemma with_restore_hands_back body w : (forall s, sends (body s)) -> hands_back (with_restore device body) w.
Proof. intros H. by apply (hands_back_by (fun _ => Ok true) body (ret tt)). Qed.

Lemma structure_settled j : settled (structure j).
Proof. unfold structure, check_main, check_wifi, check_eth, check_rs485, has_all, check_bool, check_int, check_range, check_in. settle. Qed.
Lemma valid_document_settled j : settled (valid_document j).
Proof. unfold valid_document, rs485_doc, negated. settle. Qed.
#[local] Hint Resolve structure_settled valid_document_settled : wbmge.

Lemma test_settings_hands_back w : hands_back (test_settings device) w.
Proof.
  assert (Hv : forall j, sends (valid_then_invalid device j)) by (intros; unfold valid_then_invalid; settle).
  unfold hands_back, test_settings, bind, lift. destruct (sends_settings w) as [Hs _].
  destruct (settings_ok device w) as [[s|e|] w1]; [|done|done].
  pose proof (structure_settled s) as H1. destruct (structure s) as [[]|e|];
    [|by split; [|exists []; rewrite app_nil_r; auto]|done].
  pose proof (valid_document_settled s) as H2. destruct (valid_document s) as [doc|e|];
    [|by split; [|exists []; rewrite app_nil_r; auto]|done].
  destruct (finally_restores (valid_then_invalid device doc) s w1 (Hv doc)) as [Hr (l & Hl & Hi)]. eauto.
Qed.

Lemma per_field_hands_back w : hands_back (test_per_field_validation device) w.
Proof.
  unfold hands_back, test_per_field_validation, bind. destruct (sends_settings w) as [Hs _].
  destruct (settings_ok device w) as [[s|e|] w1]; [|done|done].
  destruct (finally_restores (per_field device invalid_cases s 0) s w1 (sends_per_field _ _ _)) as [Hr (l & Hl & Hi)].
  destruct (try_finally _ _ w1) as [[n|e|] w2]; cbn in Hr, Hl; [|by split; [|exists l; auto]|done].
  destruct (n =? 0)%nat; (split; [done|exists l; auto]).
Qed.

Lemma document_hands_back w : hands_back (test_settings_document_round_trip device) w.
Proof.
  apply (hands_back_by (py_in "wifi") (fun _ => export_import device) (raise PytestSkip));
    [intros; apply py_in_settled|by split|unfold export_import, jindex2; settle|].
  unfold test_settings_document_round_trip, bind, lift. destruct (settings_ok device w) as [[s|e|] w1]; [|done|done].
  by destruct (py_in "wifi" s) as [[|]|e|].
Qed.

(** C33. Every test of the file that reads the settings ends, whatever the device answers, and leaves the settings to the
    next test: either it asked for nothing after reading them, or its last request is the one that writes back
    exactly the document it read; this also where an assertion failed or a request raised in between. *)
Theorem settings_file_restores test w : test ∈ settings_tests -> hands_back test w.
Proof.
  intros Ht. repeat (apply elem_of_cons in Ht as [->|Ht]); [..|by apply elem_of_nil in Ht].
  - apply test_settings_hands_back.
  - apply with_restore_hands_back. unfold jindex2. settle.
  - apply with_restore_hands_back. settle.
  - apply document_hands_back.
  - apply per_field_hands_back.
  - apply with_restore_hands_back. unfold jindex2. settle.
  - apply with_restore_hands_back. unfold jindex2. settle.
  - apply with_restore_hands_back. unfold jindex2, negated. settle.
Qed.

End Restores.

(** ** A device that keeps its settings

    [accepts] is its validator, [merged] what a write makes of the settings. *)

Section Store.
Context (accepts : json -> bool) (merged : json -> json -> json).

Definition answer (j : json) : response := Response 200 "" (Some j) [].

Definition store (q : request) (s : json) : outcome response * json :=
  match meth q, payload q with
  | POST, Some j =>
      if accepts j then (Ok (answer (JObj [("success", JBool true)])), merged j s)
      else (Ok (answer (JObj [("success", JBool false)])), s)
  | _, _ => (Ok (answer s), s)
  end.

Lemma store_reads w : exists w', settings_ok store w = (Ok (dev w), w') /\ dev w' = dev w.
Proof. by eexists. Qed.

Lemma store_refuses j w : accepts j = false ->
  exists w', posted store j w = (Ok (JObj [("success", JBool false)]), w') /\ dev w' = dev w.
Proof.
  intros H. unfold posted, update_settings, http_post, bind, session_request, asleep, modify. cbn. rewrite H. by eexists.
Qed.

(** The per-field loop counts nothing on cases that are all refused. *)
Lemma per_field_refused cases n w : Forall (fun c => accepts c = false) cases -> jeq (dev w) (dev w) = true ->
  exists w', per_field store cases (dev w) n w = (Ok n, w') /\ dev w' = dev w.
Proof.
  revert w. induction cases as [|c cases IH]; intros w Hc Hj; [by exists w|].
  apply Forall_cons in Hc as [Hc Hr]. cbn [per_field]. unfold bind at 1.
  destruct (store_refuses c w Hc) as (w1 & -> & E1). 
  rewrite (eq_refl : got_equal "success" false (JObj [("success", JBool false)]) = Ok true).
  unfold bind at 1. cbn [lift negb]. unfold bind at 1. destruct (store_reads w1) as (w2 & -> & E2). rewrite E1, Hj. unfold bind at 1. cbn [assert ret].
  unfold bind at 1, asleep, modify. set (w3 := AWorld _ _ _ _ _ _).
  assert (E3 : dev w3 = dev w) by (unfold w3; cbn; congruence).
  rewrite <- E3 in Hj |- *. destruct (IH w3 Hr Hj) as (w' & -> & E). by exists w'.
Qed.

Lemma put_back_store s w : (put_back store s w).1 = Ok tt.
Proof. unfold put_back, update_settings, http_post, bind, session_request, asleep, modify. cbn. by destruct (accepts s). Qed.

(** What the cases of the per-field test have in common, group by group. *)
Definition plain_cases : list json :=
  [JObj [("hostname", JStr "invalid_hostname!")]; JObj [("web_port", JNum 70000)]; JObj [("web_port", JNum 0)];
   JObj [("update_channel", JStr "unstable")]; JObj [("update_channel", JStr "")]; JObj [("update_channel", JStr "Stable")];
   JObj [("update_channel", JNum 123)]; eth_case "123.456.789.101" (JStr "255.255.255.0"); eth_case "192.168.1.2" (JNum 456)].

Lemma cases_refused :
  Forall (fun c => accepts c = false) plain_cases ->
  (forall f, jget "mode" f = Some (JStr "disabled") -> accepts (in_wifi f) = false) ->
  (forall f, jget "fail_safe" f = Some (JStr "off") -> accepts (in_rs485_1 f) = false) ->
  Forall (fun c => accepts c = false) invalid_cases.
Proof.
  intros Hp Hw Hr. unfold plain_cases in Hp. rewrite !Forall_cons in Hp.
  destruct Hp as (? & ? & ? & ? & ? & ? & ? & ? & ? & _).
  unfold invalid_cases. repeat apply Forall_cons_2; [..|apply Forall_nil_2]; first [done | by apply Hw | by apply Hr].
Qed.

(** C40. The per-field test passes on every device that refuses its nine plain documents, a Wi-Fi mode "disabled" and a
    fail_safe "off", whatever else that device accepts: all its Wi-Fi cases carry the first and all its RS-485
    cases the second, so it says nothing about the validators of ap_ssid, ap_ip_static, ap_mask_static,
    baudrate, stopbits, parity, databits and of the bridge, which it names. *)
Theorem per_field_blind w :
  Forall (fun c => accepts c = false) plain_cases ->
  (forall f, jget "mode" f = Some (JStr "disabled") -> accepts (in_wifi f) = false) ->
  (forall f, jget "fail_safe" f = Some (JStr "off") -> accepts (in_rs485_1 f) = false) ->
  jeq (dev w) (dev w) = true ->
  (test_per_field_validation store w).1 = Ok tt.
Proof.
  intros Hp Hw Hr Hj. pose proof (cases_refused Hp Hw Hr) as Hc. unfold test_per_field_validation, bind at 1.
  destruct (store_reads w) as (w1 & -> & E1). unfold bind. rewrite <- E1 in Hj |- *.
  destruct (per_field_refused invalid_cases 0 w1 Hc Hj) as (w2 & E2 & _).
  unfold try_finally. rewrite E2. pose proof (put_back_store (dev w1) w2) as Hb.
  by destruct (put_back store (dev w1) w2) as [[[]|e|] w3].
Qed.

End Store.

(** ** What the structure check establishes *)

(** [j[k1][k2]...] *)
Fixpoint jpath (ks : list string) (j : json) : outcome json :=
  match ks with [] => Ok j | k :: ks => let? v := jindex k j in jpath ks v end.

(** A flag of the settings that the document turns over. *)
Definition flips (j doc : json) (path : list string) : Prop :=
  exists b, jpath path j = Ok (JBool b) /\ jpath path doc = Ok (JBool (negb b)).

Definition flags : list (list string) :=
  [["vout"]; ["io_bus"]; ["wifi"; "sta_dhcpc"]; ["ethernet"; "dhcpc"];
   ["rs485_1"; "term"]; ["rs485_1"; "fail_safe"]; ["rs485_1"; "tx_disabled"];
   ["rs485_2"; "term"]; ["rs485_2"; "fail_safe"]; ["rs485_2"; "tx_disabled"]].

Lemma check_bool_ok k j : check_bool k j = Ok tt -> exists b, jindex k j = Ok (JBool b).
Proof. intros H. apply obind_ok in H as (v & Hv & H). destruct v; try discriminate. eauto. Qed.

Lemma check_range_ok k good j : check_range k good j = Ok tt -> exists v n, jindex k j = Ok v /\ int_value v = Some n /\ good n = true.
Proof.
  intros H. apply obind_ok in H as (v & Hv & H). destruct (int_value v) as [n|] eqn:E; [|done]. destruct (good n) eqn:G; [|done]. eauto.
Qed.

(** The next step of a chain of checks. *)
Ltac step H x Hx := apply obind_ok in H as (x & Hx & H); try destruct x as [].

Lemma check_main_ok j : check_main j = Ok tt ->
  exists b1 b2 v n, jindex "vout" j = Ok (JBool b1) /\ jindex "io_bus" j = Ok (JBool b2) /\
    jindex "web_port" j = Ok v /\ int_value v = Some n /\ port_range n = true.
Proof.
  intros H. step H x H1. step H x H2. step H x H3. step H x H4. step H x H5. step H x H6.
  apply check_bool_ok in H3 as [b1 H3], H6 as [b2 H6]. apply check_range_ok in H5 as (v & n & Hv & Hn & Hg). by exists b1, b2, v, n.
Qed.

Lemma check_rs485_ok j port : check_rs485 j port = Ok tt ->
  exists p b1 b2 b3, jindex port j = Ok p /\ jindex "term" p = Ok (JBool b1) /\ jindex "fail_safe" p = Ok (JBool b2) /\
    jindex "tx_disabled" p = Ok (JBool b3).
Proof.
  intros H. apply obind_ok in H as (p & Hp & H). step H x H1. step H x H2. step H x H3. step H x H4.
  apply check_bool_ok in H2 as [b1 H2], H3 as [b2 H3], H4 as [b3 H4]. by exists p, b1, b2, b3.
Qed.

Lemma structure_ok j : structure j = Ok tt ->
  check_main j = Ok tt /\ check_rs485 j "rs485_1" = Ok tt /\ check_rs485 j "rs485_2" = Ok tt /\
  (exists wifi b, jindex "wifi" j = Ok wifi /\ jindex "sta_dhcpc" wifi = Ok (JBool b)) /\
  (exists eth b, jindex "ethernet" j = Ok eth /\ jindex "dhcpc" eth = Ok (JBool b)).
Proof.
  intros H. step H x H1. apply obind_ok in H as (wifi & Hw & H). step H x H2. apply obind_ok in H as (eth & He & H). step H x H3.
  cbn [for_each] in H. step H x H4. step H x H5. split_and!; [done|done|done| |].
  - step H2 x H6. step H2 x H7. apply check_bool_ok in H7 as [b Hb]. eauto.
  - step H3 x H6. apply check_bool_ok in H3 as [b Hb]. eauto.
Qed.

Lemma negated_ok k j b : jindex k j = Ok (JBool b) -> negated k j = Ok (JBool (negb b)).
Proof. intros H. unfold negated. by rewrite H. Qed.

Lemma rs485_doc_ok j port p b1 b2 b3 baud stop par data bridge :
  jindex port j = Ok p -> jindex "term" p = Ok (JBool b1) -> jindex "fail_safe" p = Ok (JBool b2) -> jindex "tx_disabled" p = Ok (JBool b3) ->
  rs485_doc j port baud stop par data bridge =
  Ok (JObj [("term", JBool (negb b1)); ("fail_safe", JBool (negb b2)); ("tx_disabled", JBool (negb b3)); ("baudrate", JNum baud);
    ("stopbits", JStr stop); ("parity", JStr par); ("databits", JStr data); ("bridge", bridge)]).
Proof.
  intros Hp H1 H2 H3. unfold rs485_doc. rewrite Hp. cbn [obind].
  by rewrite (negated_ok _ _ _ H1), (negated_ok _ _ _ H2), (negated_ok _ _ _ H3).
Qed.

(** What the read-back compares. *)
Definition compared (new doc : json) (path : list string) : Prop :=
  exists x y, jpath path new = Ok x /\ jpath path doc = Ok y /\ jeq x y = true.

Lemma for_each_ok {A} (f : A -> outcome unit) l x : for_each f l = Ok tt -> x ∈ l -> f x = Ok tt.
Proof.
  induction l as [|y l IH]; intros H Hx; [by apply elem_of_nil in Hx|]. cbn [for_each] in H. step H u H1.
  apply elem_of_cons in Hx as [->|Hx]; [done|by apply IH].
Qed.

Lemma same_fields_in ks new old k : same_fields ks new old = Ok tt -> k ∈ ks -> compared new old [k].
Proof.
  intros H Hk. apply (for_each_ok _ _ _ H) in Hk. apply obind_ok in Hk as (x & Hx & Hk). apply obind_ok in Hk as (y & Hy & Hk).
  exists x, y. cbn. rewrite Hx, Hy. split; [done|]. split; [done|]. by destruct (jeq x y).
Qed.

Lemma compared_under k path new old x y : jindex k new = Ok x -> jindex k old = Ok y -> compared x y path -> compared new old (k :: path).
Proof. intros Hx Hy (a & b & Ha & Hb & E). exists a, b. cbn. by rewrite Hx, Hy. Qed.

Lemma same_port_in port new old k : same_port port new old = Ok tt -> k ∈ rs485_main_fields -> compared new old [port; k].
Proof.
  intros H Hk. apply obind_ok in H as (p & Hp & H). apply obind_ok in H as (q & Hq & H). step H u H1.
  by apply (compared_under _ _ _ _ p q), (same_fields_in rs485_main_fields).
Qed.

Lemma saved_flags new doc : saved new doc = Ok tt -> Forall (compared new doc) flags.
Proof.
  intros H. step H u H1. apply obind_ok in H as (w & Hw & H). apply obind_ok in H as (w' & Hw' & H). step H u H2.
  apply obind_ok in H as (e & He & H). apply obind_ok in H as (e' & He' & H). step H u H3. step H u H4.
  repeat apply Forall_cons_2; [..|apply Forall_nil_2];
    first [apply (same_port_in "rs485_1"); [done|] | apply (same_port_in "rs485_2"); [done|]
          | apply (compared_under "wifi" _ _ _ w w'); [done|done|]; apply (same_fields_in wifi_fields); [done|]
          | apply (compared_under "ethernet" _ _ _ e e'); [done|done|]; apply (same_fields_in eth_fields); [done|]
          | apply (same_fields_in main_fields); [done|]];
    (apply (bool_decide_unpack _); vm_compute; exact I).
Qed.

(** Settings in which one of the flags still has its old value. *)
Lemma flipped_not_saved j doc new path : Forall (flips j doc) flags -> path ∈ flags -> jpath path new = jpath path j -> saved new doc <> Ok tt.
Proof.
  intros Hf Hp E H%saved_flags. rewrite Forall_forall in Hf, H. destruct (Hf _ Hp) as (b & H1 & H2).
  destruct (H _ Hp) as (x & y & H3 & H4 & H5). rewrite E, H1 in H3. rewrite H2 in H4. injection H3 as <-. injection H4 as <-. by destruct b.
Qed.

(** C35. Settings that pass the structure check have the types the rest of the test relies on: the document to be written
    can be built (no KeyError or TypeError), it keeps the web port, a number between 1 and 65535, and it turns
    over each of the ten flags; and the read-back notices a write that is ignored: it fails on any settings in which one
    of the ten flags still has its old value, on the old settings in particular. *)
Theorem structure_typed j : structure j = Ok tt ->
  exists doc v n, valid_document j = Ok doc /\ Forall (flips j doc) flags /\
    (jindex "web_port" j = Ok v /\ jindex "web_port" doc = Ok v /\ int_value v = Some n /\ 1 <= n <= 65535) /\
    (forall new path, path ∈ flags -> jpath path new = jpath path j -> saved new doc <> Ok tt).
Proof.
  intros (H1 & H2 & H3 & (wifi & bw & Hw & Hd) & eth & be & He & Hc)%structure_ok.
  apply check_main_ok in H1 as (bv & bi & v & n & Hv & Hi & Hp & Hn & Hg).
  apply check_rs485_ok in H2 as (p & b1 & b2 & b3 & P0 & P1 & P2 & P3).
  apply check_rs485_ok in H3 as (q & c1 & c2 & c3 & Q0 & Q1 & Q2 & Q3).
  unfold port_range in Hg. bool_to_prop. eexists _, v, n. split.
  - unfold valid_document. rewrite Hp. cbn [obind]. rewrite (negated_ok _ _ _ Hv), (negated_ok _ _ _ Hi). cbn [obind].
    rewrite Hw. cbn [obind]. rewrite (negated_ok _ _ _ Hd). cbn [obind]. rewrite He. cbn [obind]. rewrite (negated_ok _ _ _ Hc). cbn [obind].
    rewrite (rs485_doc_ok _ _ _ _ _ _ _ _ _ _ _ P0 P1 P2 P3). cbn [obind].
    rewrite (rs485_doc_ok _ _ _ _ _ _ _ _ _ _ _ Q0 Q1 Q2 Q3). reflexivity.
  - match goal with |- Forall (flips _ ?d) _ /\ _ => assert (Forall (flips j d) flags) as Hf end.
    { unfold flags, flips, jpath. repeat apply Forall_cons_2; [..|apply Forall_nil_2]; eexists.
      all: rewrite ?Hv, ?Hi, ?Hw, ?He, ?P0, ?Q0; cbn [obind]; rewrite ?Hd, ?Hc, ?P1, ?P2, ?P3, ?Q1, ?Q2, ?Q3; by split. }
    split; [exact Hf|]. split; [done|]. intros new path. by apply flipped_not_saved.
Qed.

(** ** Witnesses *)

Definition sample_port (baudrate : Z) : json :=
  JObj [("term", JBool false); ("fail_safe", JBool true); ("tx_disabled", JBool false); ("baudrate", JNum baudrate); ("stopbits", JStr "1");
    ("parity", JStr "none"); ("databits", JStr "8"); ("port_mode", JStr "tcp_bridge"); ("cache_en", JBool false);
    ("bridge", JObj [("mode", JStr "server"); ("port", JNum 502); ("ip", JStr "0.0.0.0"); ("modbus", JBool true)])].

Definition sample_settings : json :=
  JObj [("hostname", JStr "wb-mge"); ("login", JStr "admin"); ("pass", JStr "admin"); ("vout", JBool true); ("web_port", JNum 80); ("io_bus", JBool false);
    ("cache_modbus_port", JNum 503); ("cache_modbus_server_enabled", JBool false); ("cache_value_timeout_s", JNum 60); ("update_channel", JStr "stable");
    ("wifi", JObj [("mode", JStr "ap"); ("ap_auth", JStr "open"); ("sta_auth", JStr "open"); ("ap_ssid", JStr "wb"); ("ap_pass", JStr "");
       ("sta_ssid", JStr ""); ("sta_pass", JStr ""); ("ap_ip_static", JStr "192.168.42.1"); ("ap_mask_static", JStr "255.255.255.0");
       ("ap_gw_static", JStr "192.168.42.1"); ("sta_dhcpc", JBool true); ("sta_ip_static", JStr "192.168.1.5");
       ("sta_mask_static", JStr "255.255.255.0"); ("sta_gw_static", JStr "192.168.1.1")]);
    ("ethernet", JObj [("ip_static", JStr "192.168.0.7"); ("mask_static", JStr "255.255.255.0"); ("gw_static", JStr "192.168.0.1"); ("dhcpc", JBool true)]);
    ("rs485_1", sample_port 9600); ("rs485_2", sample_port 115200)].

Definition sample_world : aworld json := AWorld sample_settings [] ∅ 1 0 (fun _ => 1%Q).

(** A validator that looks at none of the fields the cases are named after. *)
Definition lax (c : json) : bool :=
  negb (existsb (fun d => jeq c d) plain_cases) &&
  match c with
  | JObj [(k, JObj f)] =>
      if String.eqb k "wifi" then match jget "mode" f with Some v => negb (jeq v (JStr "disabled")) | None => true end
      else if String.eqb k "rs485_1" then match jget "fail_safe" f with Some v => is_bool v | None => true end
      else true
  | _ => true
  end.

Lemma structure_typed_witness : structure sample_settings = Ok tt /\
  exists doc v n, valid_document sample_settings = Ok doc /\ Forall (flips sample_settings doc) flags /\
    (jindex "web_port" sample_settings = Ok v /\ jindex "web_port" doc = Ok v /\ int_value v = Some n /\ 1 <= n <= 65535) /\
    (forall new path, path ∈ flags -> jpath path new = jpath path sample_settings -> saved new doc <> Ok tt).
Proof. split; [reflexivity|]. apply (structure_typed sample_settings). reflexivity. Defined.

Lemma settings_file_restores_witness :
  hands_back (store lax (fun _ s => s)) (test_per_field_validation (store lax (fun _ s => s))) sample_world.
Proof.
  apply (settings_file_restores (store lax (fun _ s => s))).
  - intros q d. unfold store. destruct (meth q), (payload q); try done. by destruct (lax j).
  - unfold settings_tests. do 4 apply list_elem_of_further. apply list_elem_of_here.
Defined.

Lemma per_field_blind_witness :
  lax (in_rs485_1 [("baudrate", JNum 123456)]) = true /\ lax (in_wifi [("ap_ssid", JStr "")]) = true /\
  (test_per_field_validation (store lax (fun _ s => s)) sample_world).1 = Ok tt.
Proof.
  split; [reflexivity|]. split; [reflexivity|]. apply (per_field_blind lax (fun _ s => s) sample_world).
  - unfold plain_cases. rewrite !Forall_cons. split_and!; [reflexivity..|apply Forall_nil_2].
  - intros f E. unfold lax, in_wifi. cbn [String.eqb]. rewrite E. apply andb_false_r.
  - intros f E. unfold lax, in_rs485_1. rewrite E. apply andb_false_r.
  - reflexivity.
Defined.
