(* ===== verification/CachePool.v ===== *)
(** * The register cache of the firmware: main/bridge/cache_multimaster.c

    The pool is the array of the source, all of its slots included; the module
    state has its counters, the flag and the pending request of each port.  An
    operation of the source is one or more critical sections under its mutex;
    each section is a function here, and the theorems are about all sequences
    of sections, so about every interleaving of the tasks that use the cache.
    The time is an argument: microseconds since boot, as esp_timer_get_time
    gives it.

    Theorems: the used slots stay a prefix without duplicates and the pool
    implements a finite map of bounded size (the map the lookups answer from),
    and which values a full pool loses. *)

From Stdlib Require Import ZArith Lia.
From stdpp Require Import base list gmap.
From S2P Require Import Prelude PyBytes MbDevice Sniffer.

Open Scope Z_scope.

(** ** Data *)

Definition CACHE_MAX_ENTRIES : nat := 4096.
Definition CACHE_TYPE_MASK : Z := 0x07.
Definition CACHE_USED_BIT : Z := 0x80.

Record cache_entry_t := CacheEntry {
  e_slave_id : Z;
  e_type : Z;
  e_address : Z;
  e_value : Z;
  e_stamp_s : Z
}.

Definition free_entry : cache_entry_t := CacheEntry 0 0 0 0 0.

Definition used (e : cache_entry_t) : bool := negb (Z.land (e_type e) CACHE_USED_BIT =? 0).

Record pending_req_t := PendingReq {
  p_valid : bool;
  p_slave_id : Z;
  p_function : Z;
  p_start_reg : Z;
  p_count : Z
}.

Definition no_pending : pending_req_t := PendingReq false 0 0 0 0.

Record cache_t := Cache {
  s_pool : option (list cache_entry_t);
  s_cache_enabled : bool;
  s_cache_mutex : bool;                    (* created by cache_multimaster_init *)
  s_pending : list pending_req_t;
  s_packets_processed : Z;
  s_last_packet_us : Z;
  s_reset_us : Z;
  s_entries_dropped : Z;
  s_pool_generation : Z
}.

Definition cache_now_s16 (now_us : Z) : Z := u16 (now_us / 1000000).

Definition u32 (x : Z) : Z := x mod 2 ^ 32.

(** ** Requests worth remembering *)

Definition cache_fc_is_cacheable (fc : Z) : bool := (1 <=? fc) && (fc <=? 4).
Definition cache_fc_max_count (fc : Z) : Z := if (fc =? 3) || (fc =? 4) then 125 else 2000.

Definition request_is_cacheable (function start_reg count : Z) : bool :=
  if negb (cache_fc_is_cacheable function) then false
  else if (count =? 0) || (cache_fc_max_count function <? count) then false
  else negb (0x10000 <? start_reg + count).

(** ** The pool *)

Definition entry_is (slave_id type_value address : Z) (e : cache_entry_t) : bool :=
  (e_slave_id e =? slave_id) && (Z.land (e_type e) CACHE_TYPE_MASK =? type_value) && (e_address e =? address).

(** [find_or_alloc_entry], and what its callers write through the pointer it
    returns: the value and the stamp.  [None]: the pool is full. *)
Fixpoint put_entry (slave_id type_value address value stamp_s : Z) (pool : list cache_entry_t) : option (list cache_entry_t) :=
  match pool with
  | [] => None
  | e :: pool =>
      if negb (used e) then
        Some (CacheEntry slave_id (Z.lor CACHE_USED_BIT type_value) address value stamp_s :: pool)
      else if entry_is slave_id type_value address e then
        Some (CacheEntry (e_slave_id e) (e_type e) (e_address e) value stamp_s :: pool)
      else cons e <$> put_entry slave_id type_value address value stamp_s pool
  end.

Definition cache_count_entries_and_devices (pool : option (list cache_entry_t)) : Z * Z :=
  let es := filter (fun e => used e = true) (default [] pool) in
  (zlen es, zlen (remove_dups (e_slave_id <$> es))).

(** ** Switching on and off *)

Definition cache_multimaster_init (c : cache_t) (created : bool) : cache_t :=
  if created then
    Cache (s_pool c) false true (replicate 2 no_pending) (s_packets_processed c) (s_last_packet_us c) (s_reset_us c)
      (s_entries_dropped c) (s_pool_generation c)
  else
    Cache (s_pool c) (s_cache_enabled c) false (s_pending c) (s_packets_processed c) (s_last_packet_us c) (s_reset_us c)
      (s_entries_dropped c) (s_pool_generation c).

Inductive enable_result : Type := ENABLED | NO_MEM | INVALID_STATE.

(** The critical section of [cache_multimaster_enable]; [allocated]: the heap
    has the 32 KB. *)
Definition enable_pool (allocated : bool) (now_us : Z) (c : cache_t) : enable_result * cache_t :=
  if negb (s_cache_mutex c) then (INVALID_STATE, c)
  else if bool_decide (s_pool c = None) && negb allocated then (NO_MEM, c)
  else (ENABLED,
        Cache (Some (replicate CACHE_MAX_ENTRIES free_entry)) (s_cache_enabled c) true (replicate 2 no_pending)
          0 0 now_us 0 (u32 (s_pool_generation c + 1))).

Definition set_enabled (b : bool) (c : cache_t) : cache_t :=
  Cache (s_pool c) b (s_cache_mutex c) (s_pending c) (s_packets_processed c) (s_last_packet_us c) (s_reset_us c)
    (s_entries_dropped c) (s_pool_generation c).

Definition cache_multimaster_enable (allocated : bool) (now_us : Z) (c : cache_t) : enable_result * cache_t :=
  match enable_pool allocated now_us c with
  | (ENABLED, c) => (ENABLED, set_enabled true c)
  | r => r
  end.

Definition cache_multimaster_clear (now_us : Z) (c : cache_t) : cache_t :=
  if negb (s_cache_mutex c) then c
  else
    match s_pool c with
    | Some _ =>
        Cache (Some (replicate CACHE_MAX_ENTRIES free_entry)) (s_cache_enabled c) true (replicate 2 no_pending) 0 0 now_us 0
          (u32 (s_pool_generation c + 1))
    | None =>
        Cache None (s_cache_enabled c) true (replicate 2 no_pending) 0 0 now_us 0 (s_pool_generation c)
    end.

(** The last section of [cache_multimaster_disable]. *)
Definition free_pool (c : cache_t) : cache_t :=
  if negb (s_cache_mutex c) then c
  else Cache None (s_cache_enabled c) true (s_pending c) (s_packets_processed c) (s_last_packet_us c) (s_reset_us c)
         (s_entries_dropped c) (u32 (s_pool_generation c + 1)).

Definition cache_multimaster_disable (now_us : Z) (c : cache_t) : cache_t :=
  free_pool (cache_multimaster_clear now_us (set_enabled false c)).

(** ** Requests and responses seen on the bus *)

Definition set_pending (port : Z) (p : pending_req_t) (c : cache_t) : cache_t :=
  Cache (s_pool c) (s_cache_enabled c) (s_cache_mutex c) (<[Z.to_nat port := p]> (s_pending c)) (s_packets_processed c)
    (s_last_packet_us c) (s_reset_us c) (s_entries_dropped c) (s_pool_generation c).

Definition cache_multimaster_on_request (port slave_id function start_reg count : Z) (c : cache_t) : cache_t :=
  if BRIDGES_COUNT <=? port then c
  else set_pending port (PendingReq (request_is_cacheable function start_reg count) slave_id function start_reg count) c.

Definition invalidated (p : pending_req_t) : pending_req_t :=
  PendingReq false (p_slave_id p) (p_function p) (p_start_reg p) (p_count p).

Definition pending_of (port : Z) (c : cache_t) : pending_req_t := default no_pending (s_pending c !! Z.to_nat port).

Definition cache_multimaster_clear_pending (port : Z) (c : cache_t) : cache_t :=
  if BRIDGES_COUNT <=? port then c else set_pending port (invalidated (pending_of port c)) c.

(** The first section of [cache_multimaster_on_response]: the request the
    response answers, as its start and count. *)
Definition consume_pending (port slave_id function : Z) (c : cache_t) : option (Z * Z) * cache_t :=
  let p := pending_of port c in
  (if p_valid p && (p_slave_id p =? slave_id) && (p_function p =? function) then Some (p_start_reg p, p_count p) else None,
   set_pending port (invalidated p) c).

(** The bytes a response must declare. *)
Definition expected_bytes (function count : Z) : Z :=
  Z.land (if (function =? 3) || (function =? 4) then count * 2 else (count + 7) / 8) 0xFF.

(** The value of cell [i]. *)
Definition cell_value (function : Z) (data : list Z) (i : nat) : Z :=
  if (function =? 3) || (function =? 4) then
    Z.lor (Z.shiftl (byte_at data (3 + i * 2)) 8) (byte_at data (3 + i * 2 + 1))
  else Z.land (Z.shiftr (byte_at data (3 + i / 8)) (Z.of_nat (i mod 8))) 1.

(** The loop over the cells, from cell [i] on; the cells that were dropped. *)
Fixpoint store_cells (slave_id function start_addr stamp_s : Z) (data : list Z) (n i : nat) (pool : list cache_entry_t)
    : list cache_entry_t * Z :=
  match n with
  | O => (pool, 0)
  | S n =>
      match put_entry slave_id function (u16 (start_addr + Z.of_nat i)) (cell_value function data i) stamp_s pool with
      | None => (pool, Z.of_nat (S n))
      | Some pool => store_cells slave_id function start_addr stamp_s data n (S i) pool
      end
  end.

(** The second section: the values of the response. *)
Definition store_response (slave_id function start_addr count : Z) (data : list Z) (timestamp_us now_us : Z) (c : cache_t) : cache_t :=
  let (pool, dropped) :=
    match s_pool c with
    | None => (None, 0)
    | Some pool =>
        let (pool, d) := store_cells slave_id function start_addr (cache_now_s16 now_us) data (Z.to_nat count) 0 pool in (Some pool, d)
    end in
  Cache pool (s_cache_enabled c) (s_cache_mutex c) (s_pending c) (u32 (s_packets_processed c + 1)) timestamp_us (s_reset_us c)
    (u32 (s_entries_dropped c + dropped)) (s_pool_generation c).

(** Whether the response has the shape of an answer to the request. *)
Definition response_fits (function count : Z) (data : list Z) : bool :=
  (byte_at data 2 =? expected_bytes function count) && (3 + byte_at data 2 <=? zlen data).

Definition cache_multimaster_on_response (port slave_id function : Z) (data : list Z) (timestamp_us now_us : Z) (c : cache_t)
    : cache_t :=
  if (BRIDGES_COUNT <=? port) || (zlen data <? 4) then c
  else
    match consume_pending port slave_id function c with
    | (None, c) => c
    | (Some (start_addr, count), c) =>
        if s_cache_mutex c && response_fits function count data
        then store_response slave_id function start_addr count data timestamp_us now_us c else c
    end.

(** ** Lookups *)

Inductive cache_lookup_result_t : Type :=
| CACHE_LOOKUP_NOT_FOUND
| CACHE_LOOKUP_FOUND (value : Z)
| CACHE_LOOKUP_STALE (value : Z).

Definition age_verdict (value stamp_s value_timeout_s now_us : Z) : cache_lookup_result_t :=
  if (0 <? value_timeout_s) && (value_timeout_s <=? u16 (cache_now_s16 now_us - stamp_s))
  then CACHE_LOOKUP_STALE value else CACHE_LOOKUP_FOUND value.

Fixpoint lookup_pool (slave_id type_value address value_timeout_s now_us : Z) (pool : list cache_entry_t) : cache_lookup_result_t :=
  match pool with
  | [] => CACHE_LOOKUP_NOT_FOUND
  | e :: pool =>
      if negb (used e) then CACHE_LOOKUP_NOT_FOUND
      else if entry_is slave_id type_value address e then age_verdict (e_value e) (e_stamp_s e) value_timeout_s now_us
      else lookup_pool slave_id type_value address value_timeout_s now_us pool
  end.

Definition cache_multimaster_lookup (slave_id function_code address value_timeout_s now_us : Z) (c : cache_t)
    : cache_lookup_result_t :=
  if negb (s_cache_mutex c) then CACHE_LOOKUP_NOT_FOUND
  else if negb (cache_fc_is_cacheable function_code) then CACHE_LOOKUP_NOT_FOUND
  else match s_pool c with
       | None => CACHE_LOOKUP_NOT_FOUND
       | Some pool => lookup_pool slave_id function_code address value_timeout_s now_us pool
       end.

(** ** Statistics *)

Record cache_stats_t := CacheStats {
  packets_processed : Z;
  last_packet_age_s : Z;
  map_age_s : Z;
  devices_on_bus : Z
}.

Definition age_us (since now_us : Z) : Z := if (0 <? since) && (since <=? now_us) then now_us - since else 0.

Definition cache_multimaster_get_stats (now_us : Z) (c : cache_t) : cache_stats_t :=
  if negb (s_cache_mutex c) || bool_decide (s_pool c = None) then CacheStats 0 0 0 0
  else CacheStats (s_packets_processed c) (u32 (age_us (s_last_packet_us c) now_us / 1000000))
         (u32 (age_us (s_reset_us c) now_us / 1000000)) (u16 (cache_count_entries_and_devices (s_pool c)).2).

(** ** The critical sections, interleaved

    A response between its two sections is in flight: the request it answers,
    its data and its time of capture. *)

Record flight := Flight {
  f_slave_id : Z;
  f_function : Z;
  f_start : Z;
  f_count : Z;
  f_data : list Z;
  f_timestamp_us : Z
}.

Record system := System { cache : cache_t; flights : list flight }.

Inductive section : Type :=
| SEnable (allocated : bool) (now_us : Z)
| SFlag (b : bool)
| SClear (now_us : Z)
| SFree
| SRequest (port slave_id function start_reg count : Z)
| SClearPending (port : Z)
| SConsume (port slave_id function : Z) (data : list Z) (timestamp_us : Z)
| SStore (i : nat) (now_us : Z)
| SLookup (slave_id function address value_timeout_s now_us : Z)
| SStatus.

Inductive answer : Type :=
| AEnabled (r : enable_result)
| ALookup (r : cache_lookup_result_t)
| AStatus (entries devices packets dropped : Z).

(** The rest of [cache_multimaster_on_response] once the request is consumed. *)
Definition take_off (slave_id function : Z) (data : list Z) (timestamp_us : Z) (m : option (Z * Z)) (mutex : bool) : list flight :=
  match m with
  | Some (start, count) =>
      if mutex && response_fits function count data then [Flight slave_id function start count data timestamp_us] else []
  | None => []
  end.

Definition step (a : section) (x : system) : list answer * system :=
  let c := cache x in
  match a with
  | SEnable allocated now_us => let (r, c) := enable_pool allocated now_us c in ([AEnabled r], System c (flights x))
  | SFlag b => ([], System (set_enabled b c) (flights x))
  | SClear now_us => ([], System (cache_multimaster_clear now_us c) (flights x))
  | SFree => ([], System (free_pool c) (flights x))
  | SRequest port slave_id function start_reg count =>
      ([], System (cache_multimaster_on_request port slave_id function start_reg count c) (flights x))
  | SClearPending port => ([], System (cache_multimaster_clear_pending port c) (flights x))
  | SConsume port slave_id function data timestamp_us =>
      if (BRIDGES_COUNT <=? port) || (zlen data <? 4) then ([], x)
      else
        let (m, c) := consume_pending port slave_id function c in
        ([], System c (flights x ++ take_off slave_id function data timestamp_us m (s_cache_mutex c)))
  | SStore i now_us =>
      match flights x !! i with
      | Some f =>
          ([], System (store_response (f_slave_id f) (f_function f) (f_start f) (f_count f) (f_data f) (f_timestamp_us f) now_us c)
                 (delete i (flights x)))
      | None => ([], x)
      end
  | SLookup slave_id function address value_timeout_s now_us =>
      ([ALookup (cache_multimaster_lookup slave_id function address value_timeout_s now_us c)], x)
  | SStatus =>
      let (entries, devices) := cache_count_entries_and_devices (s_pool c) in
      ([AStatus entries devices (s_packets_processed c) (s_entries_dropped c)], x)
  end.

Fixpoint steps (l : list section) (x : system) : list answer * system :=
  match l with
  | [] => ([], x)
  | a :: l => let (r, x) := step a x in let (rs, x) := steps l x in (r ++ rs, x)
  end.

Definition boot : system :=
  System (cache_multimaster_init (Cache None false false (replicate 2 no_pending) 0 0 0 0 0) true) [].

(** With no other task in between, [cache_multimaster_on_response] is its two
    sections. *)
Lemma on_response_sections port slave_id function data timestamp_us now_us c :
  cache_multimaster_on_response port slave_id function data timestamp_us now_us c =
  cache (steps [SConsume port slave_id function data timestamp_us; SStore 0 now_us] (System c [])).2.
Proof.
  unfold cache_multimaster_on_response. cbn [steps step cache flights]. destruct (_ || _); [done|].
  unfold consume_pending. destruct (p_valid _ && _ && _); [|done]. cbn [take_off].
  by destruct (s_cache_mutex (set_pending _ _ _) && response_fits _ _ _).
Qed.

(** ** The specification

    A map from slave, function and address to the value and the second it was
    stored in, of at most 4096 registers; what each port expects; a response in
    flight as the registers it will write. *)

Notation register := (Z * Z * Z)%type.

Record spec := Spec {
  registers : option (gmap register (Z * Z));
  expected : list (option (Z * Z * Z * Z));
  arriving : list (list (register * Z));
  counted : Z;
  lost : Z
}.

Definition room (k : register) (m : gmap register (Z * Z)) : bool :=
  bool_decide (k ∈ dom m) || (size m <? CACHE_MAX_ENTRIES)%nat.

(** Write registers until one has no room. *)
Fixpoint spec_store (second : Z) (cells : list (register * Z)) (m : gmap register (Z * Z)) : gmap register (Z * Z) * Z :=
  match cells with
  | [] => (m, 0)
  | (k, v) :: rest => if room k m then spec_store second rest (<[k := (v, second)]> m) else (m, zlen cells)
  end.

Definition cells_of (slave_id function start count : Z) (data : list Z) : list (register * Z) :=
  (fun i => ((slave_id, function, start + Z.of_nat i), cell_value function data i)) <$> seq 0 (Z.to_nat count).

Definition expects (port : Z) (s : spec) : option (Z * Z * Z * Z) := default None (expected s !! Z.to_nat port).

Definition expect (port : Z) (e : option (Z * Z * Z * Z)) (s : spec) : spec :=
  Spec (registers s) (<[Z.to_nat port := e]> (expected s)) (arriving s) (counted s) (lost s).

(** Values older than the timeout are stale; ages are known modulo 2^16. *)
Definition spec_lookup (k : register) (value_timeout_s now_us : Z) (s : spec) : cache_lookup_result_t :=
  match registers s ≫= lookup k with
  | None => CACHE_LOOKUP_NOT_FOUND
  | Some (v, second) =>
      if (0 <? value_timeout_s) && (value_timeout_s <=? (now_us / 1000000 - second) mod 65536)
      then CACHE_LOOKUP_STALE v else CACHE_LOOKUP_FOUND v
  end.

Definition emptied (m : option (gmap register (Z * Z))) (s : spec) : spec :=
  Spec m (replicate 2 None) (arriving s) 0 0.

Definition spec_step (a : section) (s : spec) : list answer * spec :=
  match a with
  | SEnable allocated now_us =>
      match registers s, allocated with
      | None, false => ([AEnabled NO_MEM], s)
      | _, _ => ([AEnabled ENABLED], emptied (Some ∅) s)
      end
  | SFlag _ => ([], s)
  | SClear _ => ([], emptied ((fun _ => ∅) <$> registers s) s)
  | SFree => ([], Spec None (expected s) (arriving s) (counted s) (lost s))
  | SRequest port slave_id function start_reg count =>
      if BRIDGES_COUNT <=? port then ([], s)
      else ([], expect port (if request_is_cacheable function start_reg count then Some (slave_id, function, start_reg, count) else None) s)
  | SClearPending port => if BRIDGES_COUNT <=? port then ([], s) else ([], expect port None s)
  | SConsume port slave_id function data timestamp_us =>
      if (BRIDGES_COUNT <=? port) || (zlen data <? 4) then ([], s)
      else
        let landing :=
          match expects port s with
          | Some (slave', function', start, count) =>
              if (slave' =? slave_id) && (function' =? function) && response_fits function count data
              then [cells_of slave_id function start count data] else []
          | None => []
          end in
        let s := expect port None s in
        ([], Spec (registers s) (expected s) (arriving s ++ landing) (counted s) (lost s))
  | SStore i now_us =>
      match arriving s !! i with
      | Some cells =>
          let (m, d) :=
            match registers s with
            | Some m => let (m, d) := spec_store (now_us / 1000000) cells m in (Some m, d)
            | None => (None, 0)
            end in
          ([], Spec m (expected s) (delete i (arriving s)) (u32 (counted s + 1)) (u32 (lost s + d)))
      | None => ([], s)
      end
  | SLookup slave_id function address value_timeout_s now_us =>
      ([ALookup (spec_lookup (slave_id, function, address) value_timeout_s now_us s)], s)
  | SStatus =>
      let m := default ∅ (registers s) in
      ([AStatus (Z.of_nat (size m)) (Z.of_nat (size (set_map (fun k => k.1.1) (dom m) : gset Z))) (counted s) (lost s)], s)
  end.

Fixpoint spec_steps (l : list section) (s : spec) : list answer * spec :=
  match l with
  | [] => ([], s)
  | a :: l => let (r, s) := spec_step a s in let (rs, s) := spec_steps l s in (r ++ rs, s)
  end.

Definition spec_boot : spec := Spec None (replicate 2 None) [] 0 0.

(** The C types of the arguments. *)
Definition typed (a : section) : Prop :=
  match a with
  | SRequest port _ _ start_reg count => 0 <= port /\ 0 <= start_reg < 65536 /\ 0 <= count < 65536
  | SClearPending port => 0 <= port
  | SConsume port _ _ _ _ => 0 <= port
  | _ => True
  end.

(** ** The pool implements the map *)

Definition key (e : cache_entry_t) : register := (e_slave_id e, Z.land (e_type e) CACHE_TYPE_MASK, e_address e).

Definition entry_ok (e : cache_entry_t) : Prop := exists fc, 1 <= fc <= 4 /\ e_type e = Z.lor CACHE_USED_BIT fc.

(** The entry holds the value and the low half of the second. *)
Definition entry_of (e : cache_entry_t) (b : register * (Z * Z)) : Prop :=
  b.1 = key e /\ b.2.1 = e_value e /\ u16 b.2.2 = e_stamp_s e.

(** The used slots are a prefix, and hold the bindings of the map. *)
Record holds (pool : list cache_entry_t) (es : list cache_entry_t) (l : list (register * (Z * Z))) : Prop := {
  holds_prefix : exists n, pool = es ++ replicate n free_entry;
  holds_size : length pool = CACHE_MAX_ENTRIES;
  holds_ok : Forall entry_ok es;
  holds_bindings : Forall2 entry_of es l;
  holds_nodup : NoDup l.*1
}.

Definition pool_abs (pool : list cache_entry_t) (m : gmap register (Z * Z)) : Prop :=
  exists es l, holds pool es l /\ m = list_to_map l.

Lemma entry_used e : entry_ok e -> used e = true.
Proof.
  intros (fc & Hf & E). unfold used. rewrite E.
  by apply (all_below (fun n => negb (Z.land (Z.lor CACHE_USED_BIT n) CACHE_USED_BIT =? 0)) 5); [|lia].
Qed.

Lemma type_bits fc : 1 <= fc <= 4 -> Z.land (Z.lor CACHE_USED_BIT fc) CACHE_TYPE_MASK = fc.
Proof.
  intros H. apply Z.eqb_eq.
  by apply (all_below (fun n => Z.land (Z.lor CACHE_USED_BIT n) CACHE_TYPE_MASK =? n) 5); [|lia].
Qed.

Lemma key_fc e : entry_ok e -> 1 <= (key e).1.2 <= 4.
Proof. intros (fc & Hf & E). cbn. rewrite E, type_bits; lia. Qed.

Lemma entry_is_key s fc a e : entry_is s fc a e = bool_decide (key e = (s, fc, a)).
Proof.
  unfold entry_is, key. case_bool_decide as H.
  - injection H as -> -> ->. by rewrite !Z.eqb_refl.
  - apply not_true_iff_false. intros Hb. apply H. bool_to_prop. congruence.
Qed.

Lemma keys_of es l : Forall2 entry_of es l -> key <$> es = l.*1.
Proof. induction 1 as [|e b es l [E _] _ IH]; [done|]. rewrite !fmap_cons. congruence. Qed.

(** *** Searching *)

Lemma put_past s fc a v t es rest : Forall entry_ok es -> (s, fc, a) ∉ key <$> es ->
  put_entry s fc a v t (es ++ rest) = app es <$> put_entry s fc a v t rest.
Proof.
  induction es as [|e es IH]; intros Ho Hn; [rewrite app_nil_l; by destruct (put_entry s fc a v t rest)|].
  apply Forall_cons in Ho as [He Ho]. rewrite fmap_cons, not_elem_of_cons in Hn. destruct Hn as [Hk Hn].
  cbn [put_entry app]. rewrite (entry_used e He), entry_is_key. cbn [negb]. rewrite bool_decide_false by congruence.
  rewrite IH by done. by destruct (put_entry s fc a v t rest).
Qed.

Lemma put_at s fc a v t e rest : entry_ok e -> key e = (s, fc, a) ->
  put_entry s fc a v t (e :: rest) = Some (CacheEntry (e_slave_id e) (e_type e) (e_address e) v t :: rest).
Proof. intros He Hk. cbn [put_entry]. rewrite (entry_used e He), entry_is_key. cbn [negb]. by rewrite bool_decide_true. Qed.

Lemma lookup_past s fc a t now es rest : Forall entry_ok es -> (s, fc, a) ∉ key <$> es ->
  lookup_pool s fc a t now (es ++ rest) = lookup_pool s fc a t now rest.
Proof.
  induction es as [|e es IH]; intros Ho Hn; [done|].
  apply Forall_cons in Ho as [He Ho]. rewrite fmap_cons, not_elem_of_cons in Hn. destruct Hn as [Hk Hn].
  cbn [lookup_pool app]. rewrite (entry_used e He), entry_is_key. cbn [negb]. rewrite bool_decide_false by congruence. auto.
Qed.

Lemma holds_length pool es l : holds pool es l -> length l = length es /\ (length l <= CACHE_MAX_ENTRIES)%nat.
Proof.
  intros [[n Hp] Hs _ Hb _]. apply Forall2_length in Hb. rewrite Hp, length_app in Hs. lia.
Qed.

Lemma bindings_size (l : list (register * (Z * Z))) : NoDup l.*1 -> size (list_to_map l : gmap register (Z * Z)) = length l.
Proof.
  intros H. rewrite <- (length_map_to_list (list_to_map l : gmap register (Z * Z))). by rewrite map_to_list_to_map.
Qed.

(** *** Storing and looking up *)

Lemma pool_abs_lookup pool m s fc a t now : pool_abs pool m ->
  lookup_pool s fc a t now pool =
  match m !! (s, fc, a) with Some (v, second) => age_verdict v (u16 second) t now | None => CACHE_LOOKUP_NOT_FOUND end.
Proof.
  intros (es & l & [[n ->] _ Ho Hb Hn] & ->). pose proof (keys_of es l Hb) as Hk.
  destruct (list_to_map l !! (s, fc, a)) as [[v second]|] eqn:E.
  - apply elem_of_list_to_map_2, list_elem_of_lookup in E as [i Hi].
    destruct (Forall2_lookup_r _ _ _ _ _ Hb Hi) as (e & He & K & V & T). cbn in K, V, T.
    apply list_elem_of_split_length in He as (l1 & l2 & -> & ->).
    apply Forall_app in Ho as [Ho1 [He Ho2]%Forall_cons]. rewrite <- app_assoc, lookup_past; [|done|].
    + cbn [lookup_pool app]. rewrite (entry_used e He), entry_is_key. cbn [negb]. rewrite bool_decide_true by done. by rewrite V, T.
    + rewrite <- Hk, fmap_app, fmap_cons in Hn. apply NoDup_app in Hn as (_ & Hd & _). intros Hin. apply (Hd _ Hin).
      rewrite K. apply list_elem_of_here.
  - rewrite lookup_past; [by destruct n|done|]. rewrite Hk. by apply not_elem_of_list_to_map_2.
Qed.

Lemma key_put s fc a v t : 1 <= fc <= 4 -> key (CacheEntry s (Z.lor CACHE_USED_BIT fc) a v t) = (s, fc, a).
Proof. intros H. unfold key. cbn. by rewrite type_bits. Qed.

(** The pool takes a register exactly when the map has room for it. *)
Lemma pool_abs_put pool m s fc a v second : pool_abs pool m -> 1 <= fc <= 4 ->
  match put_entry s fc a v (u16 second) pool with
  | Some pool' => room (s, fc, a) m = true /\ pool_abs pool' (<[(s, fc, a) := (v, second)]> m)
  | None => room (s, fc, a) m = false
  end.
Proof.
  intros (es & l & Hh & ->) Hf. pose proof (holds_length _ _ _ Hh) as [Hl Hmax]. destruct Hh as [[n ->] Hs Ho Hb Hn].
  pose proof (keys_of es l Hb) as Hk. unfold room. rewrite dom_list_to_map_L, bindings_size by done.
  destruct (decide ((s, fc, a) ∈ l.*1)) as [Hin|Hout].
  - rewrite bool_decide_true by (by apply elem_of_list_to_set). rewrite <- Hk in Hin.
    apply list_elem_of_fmap in Hin as (e & Ek & He). apply list_elem_of_split in He as (es1 & es2 & ->).
    apply Forall2_app_inv_l in Hb as (l1 & l2' & Hb1 & Hb2 & ->). apply Forall2_cons_inv_l in Hb2 as ([k x] & l2 & [K X] & Hb2 & ->). cbn in K, X.
    apply Forall_app in Ho as [Ho1 [He Ho2]%Forall_cons].
    rewrite <- app_assoc, <- app_comm_cons, put_past, (put_at _ _ _ _ _ e); [|done|done|done|]; cycle 1.
    { rewrite <- Hk, fmap_app, fmap_cons in Hn. apply NoDup_app in Hn as (_ & Hd & _). intros Hi. apply (Hd _ Hi).
      rewrite Ek. apply list_elem_of_here. }
    cbn [fmap option_fmap option_map]. split; [done|]. rewrite Ek, <- K in *.
    destruct (list_to_map_replace l1 l2 k x (v, second) Hn) as [-> Hn'].
    eexists (es1 ++ CacheEntry (e_slave_id e) (e_type e) (e_address e) v (u16 second) :: es2), _. split; [|reflexivity]. split.
    + exists n. by rewrite <- app_assoc.
    + rewrite !length_app in Hs. rewrite length_app. cbn [length] in *. rewrite length_app. lia.
    + apply Forall_app. split; [done|]. by apply Forall_cons.
    + apply Forall2_app; [done|]. constructor; [|done]. by rewrite K.
    + done.
  - rewrite bool_decide_false by (by rewrite elem_of_list_to_set). cbn [orb]. rewrite put_past; [|done|by rewrite Hk].
    rewrite length_app, length_replicate in Hs. destruct n as [|n].
    + rewrite (eq_refl : put_entry s fc a v (u16 second) (replicate 0 free_entry) = None). cbn [fmap option_fmap option_map]. apply Nat.ltb_ge. lia.
    + cbn [replicate put_entry]. cbn [fmap option_fmap option_map]. split; [apply Nat.ltb_lt; lia|].
      rewrite <- list_to_map_snoc by done. eexists (es ++ [_]), _. split; [|reflexivity]. split.
      * exists n. by rewrite <- app_assoc.
      * rewrite length_app. cbn. rewrite length_replicate. lia.
      * apply Forall_app. split; [done|]. apply Forall_singleton. by exists fc.
      * apply Forall2_app; [done|]. constructor; [|done]. unfold entry_of. by rewrite key_put.
      * rewrite fmap_app. apply NoDup_app. split; [done|]. split; [|apply NoDup_singleton].
        intros y Hy ->%list_elem_of_singleton. done.
Qed.

(** ** Refinement of the sections *)

Lemma store_cells_spec s fc start now data n : forall i pool m, pool_abs pool m -> 1 <= fc <= 4 -> 0 <= start ->
  start + Z.of_nat (i + n) <= 65536 ->
  let (pool', d) := store_cells s fc start (u16 now) data n i pool in
  let (m', d') := spec_store now ((fun j => ((s, fc, start + Z.of_nat j), cell_value fc data j)) <$> seq i n) m in
  pool_abs pool' m' /\ d = d'.
Proof.
  induction n as [|n IH]; intros i pool m Hp Hf Hs Hb; [done|]. cbn [store_cells seq fmap list_fmap spec_store].
  assert (E : u16 (start + Z.of_nat i) = start + Z.of_nat i) by (apply Z.mod_small; lia). rewrite E.
  pose proof (pool_abs_put pool m s fc (start + Z.of_nat i) (cell_value fc data i) now Hp Hf) as H.
  destruct (put_entry _ _ _ _ _ pool) as [pool'|].
  - destruct H as [-> Hp']. apply IH; [done|done|done|lia].
  - rewrite H. split; [done|]. unfold zlen. cbn [length]. by rewrite length_fmap, length_seq.
Qed.

Definition waiting (p : pending_req_t) (e : option (Z * Z * Z * Z)) : Prop :=
  if p_valid p then
    e = Some (p_slave_id p, p_function p, p_start_reg p, p_count p) /\
    request_is_cacheable (p_function p) (p_start_reg p) (p_count p) = true /\ 0 <= p_start_reg p /\ 0 <= p_count p
  else e = None.

Definition flying (f : flight) (cells : list (register * Z)) : Prop :=
  cells = cells_of (f_slave_id f) (f_function f) (f_start f) (f_count f) (f_data f) /\
  request_is_cacheable (f_function f) (f_start f) (f_count f) = true /\ 0 <= f_start f /\ 0 <= f_count f.

Definition same_registers (pool : option (list cache_entry_t)) (m : option (gmap register (Z * Z))) : Prop :=
  match pool, m with
  | Some pool, Some m => pool_abs pool m
  | None, None => True
  | _, _ => False
  end.

Record refines (x : system) (s : spec) : Prop := {
  ref_mutex : s_cache_mutex (cache x) = true;
  ref_pool : same_registers (s_pool (cache x)) (registers s);
  ref_pending : Forall2 waiting (s_pending (cache x)) (expected s);
  ref_ports : length (expected s) = 2%nat;
  ref_flights : Forall2 flying (flights x) (arriving s);
  ref_counted : s_packets_processed (cache x) = counted s;
  ref_lost : s_entries_dropped (cache x) = lost s
}.

Lemma cacheable_bounds fc start count : request_is_cacheable fc start count = true ->
  1 <= fc <= 4 /\ start + count <= 65536.
Proof.
  unfold request_is_cacheable, cache_fc_is_cacheable. destruct (negb _) eqn:E1; [done|]. destruct (_ || _); [done|].
  intros H. bool_to_prop. lia.
Qed.

Lemma pool_abs_empty : pool_abs (replicate CACHE_MAX_ENTRIES free_entry) ∅.
Proof.
  exists [], []. split; [|done]. split; [by exists CACHE_MAX_ENTRIES|apply length_replicate|done|done|apply NoDup_nil_2].
Qed.

Lemma waiting_none : Forall2 waiting (replicate 2 no_pending) (replicate 2 None).
Proof. repeat constructor. Qed.

Lemma pending_expects x s port : refines x s -> 0 <= port < BRIDGES_COUNT -> waiting (pending_of port (cache x)) (expects port s).
Proof.
  intros [_ _ Hp Hl _ _ _] Hr. unfold pending_of, expects. pose proof (Forall2_length _ _ _ Hp) as Hlen.
  destruct (lookup_lt_is_Some_2 (expected s) (Z.to_nat port)) as [e He]; [unfold BRIDGES_COUNT in Hr; lia|].
  destruct (Forall2_lookup_r _ _ _ _ _ Hp He) as (p & Hpp & Hw). by rewrite Hpp, He.
Qed.

Lemma refines_pending x s port p e : refines x s -> waiting p e ->
  refines (System (set_pending port p (cache x)) (flights x)) (expect port e s).
Proof.
  intros [H1 H2 H3 H4 H5 H6 H7] Hw. split; cbn; try done; [by apply Forall2_insert|by rewrite length_insert].
Qed.

Lemma invalidated_waiting p : waiting (invalidated p) None.
Proof. done. Qed.

Lemma filter_used es n : Forall entry_ok es -> filter (fun e => used e = true) (es ++ replicate n free_entry) = es.
Proof.
  intros Ho. induction Ho as [|e es He Ho IH].
  - induction n as [|n IH]; [done|]. cbn [replicate app]. by rewrite filter_cons_False.
  - cbn [app]. rewrite filter_cons_True by (by apply entry_used). by rewrite IH.
Qed.

(** What the caches count: used slots and slaves. *)
Lemma pool_abs_counts pool m : pool_abs pool m ->
  cache_count_entries_and_devices (Some pool) = (Z.of_nat (size m), Z.of_nat (size (set_map (fun k => k.1.1) (dom m) : gset Z))).
Proof.
  intros (es & l & Hh & ->). pose proof (holds_length _ _ _ Hh) as [Hl _]. destruct Hh as [[n ->] _ Ho Hb Hn].
  unfold cache_count_entries_and_devices. change (default [] (Some (es ++ replicate n free_entry))) with (es ++ replicate n free_entry).
  rewrite (filter_used es n Ho), bindings_size by done. f_equal; [unfold zlen; lia|].
  unfold zlen. f_equal. transitivity (size (list_to_set (e_slave_id <$> es) : gset Z)).
  { rewrite <- (size_list_to_set (C := gset Z)) by apply NoDup_remove_dups. f_equal. apply set_eq. intros x.
    by rewrite !elem_of_list_to_set, elem_of_remove_dups. }
  f_equal. rewrite dom_list_to_map_L, <- (keys_of es l Hb). apply set_eq. intros x.
  rewrite elem_of_list_to_set, elem_of_map. setoid_rewrite elem_of_list_to_set. rewrite list_elem_of_fmap.
  setoid_rewrite list_elem_of_fmap. split.
  - intros (e & -> & He). exists (key e). eauto.
  - intros (k & -> & e & -> & He). exists e. eauto.
Qed.

Definition simulates (a : section) : Prop := forall x s, refines x s -> typed a ->
  (step a x).1 = (spec_step a s).1 /\ refines (step a x).2 (spec_step a s).2.

Lemma enable_simulates allocated now : simulates (SEnable allocated now).
Proof.
  intros x s [H1 H2 H3 H4 H5 H6 H7] _. cbn [step spec_step]. unfold enable_pool. rewrite H1. cbn [negb].
  unfold same_registers in H2. destruct (s_pool (cache x)) as [pool|] eqn:Ep, (registers s) as [m|] eqn:Em; try done.
  - rewrite bool_decide_false by done. cbn. destruct allocated; (split; [done|]);
      (split; cbn; try done; [apply pool_abs_empty|apply waiting_none]).
  - rewrite bool_decide_true by done. cbn [andb]. destruct allocated; cbn; (split; [done|]).
    + split; cbn; try done; [apply pool_abs_empty|apply waiting_none].
    + split; cbn; try done. by rewrite Ep, Em.
Qed.

Lemma clear_simulates now : simulates (SClear now).
Proof.
  intros x s [H1 H2 H3 H4 H5 H6 H7] _. cbn [step spec_step fst snd]. split; [done|].
  unfold cache_multimaster_clear. rewrite H1. cbn [negb]. unfold same_registers in H2.
  destruct (s_pool (cache x)), (registers s); try done; (split; cbn; try done; [..|apply waiting_none]); apply pool_abs_empty || done.
Qed.

Lemma free_simulates : simulates SFree.
Proof.
  intros x s [H1 H2 H3 H4 H5 H6 H7] _. cbn [step spec_step fst snd]. split; [done|].
  unfold free_pool. rewrite H1. by split.
Qed.

Lemma request_simulates port slave fc start count : simulates (SRequest port slave fc start count).
Proof.
  intros x s H (Hp & Hs & Hc). cbn [step spec_step]. unfold cache_multimaster_on_request. destruct (BRIDGES_COUNT <=? port).
  - split; [done|]. by destruct x.
  - split; [done|]. apply refines_pending; [done|]. unfold waiting. cbn.
    destruct (request_is_cacheable fc start count) eqn:E; [|done]. split_and!; done || lia.
Qed.

Lemma clear_pending_simulates port : simulates (SClearPending port).
Proof.
  intros x s H Hp. cbn [step spec_step]. unfold cache_multimaster_clear_pending. destruct (BRIDGES_COUNT <=? port).
  - split; [done|]. by destruct x.
  - split; [done|]. by apply refines_pending.
Qed.

Lemma consume_simulates port slave fc data ts : simulates (SConsume port slave fc data ts).
Proof.
  intros x s H Hp. cbn [step spec_step typed] in *. destruct (BRIDGES_COUNT <=? port) eqn:Eb; [done|]. cbn [orb].
  destruct (zlen data <? 4); [done|]. unfold consume_pending. cbn [fst snd]. split; [done|]. bool_to_prop.
  pose proof (pending_expects x s port H (conj Hp Eb)) as Hw.
  pose proof (refines_pending x s port _ None H (invalidated_waiting (pending_of port (cache x)))) as [R1 R2 R3 R4 R5 R6 R7].
  split; cbn; try done. cbn in R1. rewrite R1. cbn [andb]. unfold waiting in Hw.
  apply Forall2_app; [done|]. destruct (p_valid (pending_of port (cache x))) eqn:Ev.
  - destruct Hw as (-> & Hc & Hs & Hn). destruct (p_slave_id _ =? slave) eqn:E1; [|by constructor].
    destruct (p_function _ =? fc) eqn:E2; [|by constructor]. cbn [andb take_off]. bool_to_prop. rewrite E2 in Hc.
    destruct (response_fits fc (p_count (pending_of port (cache x))) data); constructor; [|done]. split_and!; done.
  - rewrite Hw. by constructor.
Qed.

Lemma store_simulates i now : simulates (SStore i now).
Proof.
  intros x s H _. cbn [step spec_step]. pose proof H as [H1 H2 H3 H4 H5 H6 H7].
  destruct (flights x !! i) as [f|] eqn:Ef; cycle 1.
  { destruct (arriving s !! i) as [cells|] eqn:Ea; [|done].
    destruct (Forall2_lookup_r _ _ _ _ _ H5 Ea) as (f & Hf & _). congruence. }
  destruct (Forall2_lookup_l _ _ _ _ _ H5 Ef) as (cells & -> & -> & Hc & Hs & Hn).
  apply cacheable_bounds in Hc as [Hfc Hb]. unfold store_response, cells_of. unfold same_registers in H2.
  destruct (s_pool (cache x)) as [pool|], (registers s) as [m|]; try done.
  - pose proof (store_cells_spec (f_slave_id f) (f_function f) (f_start f) (now / 1000000) (f_data f) (Z.to_nat (f_count f)) 0 pool m H2 Hfc Hs
      ltac:(lia)) as Hspec. change (u16 (now / 1000000)) with (cache_now_s16 now) in Hspec.
    destruct (store_cells _ _ _ _ _ _ _ pool) as [pool' d]. destruct (spec_store _ _ m) as [m' d']. destruct Hspec as [Hp ->].
    cbn [fst snd]. split; [done|]. split; cbn; try done; [by apply Forall2_delete|by rewrite H6|by rewrite H7].
  - cbn [fst snd]. split; [done|]. split; cbn; try done; [by apply Forall2_delete|by rewrite H6|by rewrite H7].
Qed.

Lemma keys_cacheable pool m k x : pool_abs pool m -> m !! k = Some x -> 1 <= k.1.2 <= 4.
Proof.
  intros (es & l & [_ _ Ho Hb _] & ->) Hx%elem_of_list_to_map_2%list_elem_of_lookup. destruct Hx as [i Hi].
  destruct (Forall2_lookup_r _ _ _ _ _ Hb Hi) as (e & He & K & _). cbn in K. rewrite K. rewrite Forall_lookup in Ho. by apply key_fc, (Ho i).
Qed.

Lemma age_u16 now second : u16 (cache_now_s16 now - u16 second) = (now / 1000000 - second) mod 65536.
Proof. unfold cache_now_s16, u16. by rewrite <- Zminus_mod. Qed.

Lemma lookup_simulates slave fc address timeout now : simulates (SLookup slave fc address timeout now).
Proof.
  intros x s H _. cbn [step spec_step fst snd]. split; [|done]. do 2 f_equal. pose proof H as [H1 H2 _ _ _ _ _].
  unfold cache_multimaster_lookup, spec_lookup. rewrite H1. cbn [negb]. unfold same_registers in H2.
  destruct (s_pool (cache x)) as [pool|], (registers s) as [m|]; try done; cbn [mbind option_bind].
  - rewrite (pool_abs_lookup pool m _ _ _ _ _ H2). destruct (m !! (slave, fc, address)) as [[v second]|] eqn:E.
    + pose proof (keys_cacheable _ _ _ _ H2 E) as Hk. cbn in Hk. unfold cache_fc_is_cacheable.
      rewrite (proj2 (Z.leb_le 1 fc)), (proj2 (Z.leb_le fc 4)) by lia. cbn. unfold age_verdict. by rewrite age_u16.
    + by destruct (negb _).
  - by destruct (negb _).
Qed.

Lemma status_simulates : simulates SStatus.
Proof.
  intros x s H _. pose proof H as [H1 H2 _ _ _ H6 H7]. cbn [step spec_step]. unfold same_registers in H2.
  destruct (s_pool (cache x)) as [pool|], (registers s) as [m|]; try done.
  - rewrite (pool_abs_counts pool m H2). cbn [fst snd default]. by rewrite H6, H7.
  - cbn [fst snd]. rewrite H6, H7. split; [|done]. reflexivity.
Qed.

Lemma step_simulates a : simulates a.
Proof.
  destruct a; [apply enable_simulates| |apply clear_simulates|apply free_simulates|apply request_simulates|
    apply clear_pending_simulates|apply consume_simulates|apply store_simulates|apply lookup_simulates|apply status_simulates].
  intros x s [H1 H2 H3 H4 H5 H6 H7] _. by split.
Qed.

Lemma steps_refine l : forall x s, refines x s -> Forall typed l ->
  (steps l x).1 = (spec_steps l s).1 /\ refines (steps l x).2 (spec_steps l s).2.
Proof.
  induction l as [|a l IH]; intros x s Hr Ht; [done|]. apply Forall_cons in Ht as [Ha Ht]. cbn [steps spec_steps].
  destruct (step_simulates a x s Hr Ha) as [E1 H1]. destruct (step a x) as [r x1], (spec_step a s) as [r' s1]. cbn in E1, H1.
  destruct (IH x1 s1 H1 Ht) as [E2 H2]. destruct (steps l x1) as [rs x2], (spec_steps l s1) as [rs' s2]. cbn in *. split; [congruence|done].
Qed.

Lemma boot_refines : refines boot spec_boot.
Proof. split; cbn; try done. apply waiting_none. Qed.

(** C5. The register cache implements a bounded map.  For every interleaving of the critical sections of its users, from boot on: every lookup and every status is answered as by a map from slave, function and address to the last value stored, with the age in seconds known modulo 65536; a response is stored only as the answer to the last request of its port, of the same slave and function and of the right shape; and after all of it the used slots of the pool are a prefix, one per register of the map. *)
Theorem cache_refines l : Forall typed l ->
  (steps l boot).1 = (spec_steps l spec_boot).1 /\
  same_registers (s_pool (cache (steps l boot).2)) (registers (spec_steps l spec_boot).2).
Proof. intros Ht. destruct (steps_refine l boot spec_boot boot_refines Ht) as [E [_ H _ _ _ _ _]]. by split. Qed.

(** A full pool also loses values it has a slot for: the cells of a response
    are written in order, and the first one without room ends the response. *)
Lemma full_pool_freezes slave fc start data now m v t :
  size m = CACHE_MAX_ENTRIES -> (slave, fc, start) ∉ dom m -> m !! (slave, fc, start + 1) = Some (v, t) ->
  spec_store now (cells_of slave fc start 2 data) m = (m, 2).
Proof.
  intros Hs Hn Hl. unfold cells_of. change (seq 0 (Z.to_nat 2)) with [0%nat; 1%nat]. cbn [fmap list_fmap spec_store].
  change (Z.of_nat 0) with 0. rewrite Z.add_0_r. unfold room at 1. rewrite bool_decide_false by done. by rewrite Hs, Nat.ltb_irrefl.
Qed.

(** One holding register, read by two masters' ports in turn: the values, and
    the age. *)
Definition demo_sections : list section :=
  [SEnable true 5000000; SFlag true; SRequest 0 1 3 10 2; SConsume 0 1 3 [1; 3; 4; 3; 232; 3; 233; 0; 0] 6000000; SClearPending 0;
   SStore 0 6000000; SLookup 1 3 11 60 7000000; SLookup 1 3 11 60 66000000; SLookup 1 4 11 60 7000000; SStatus].

Lemma cache_refines_witness :
  (spec_steps demo_sections spec_boot).1 =
    [AEnabled ENABLED; ALookup (CACHE_LOOKUP_FOUND 1001); ALookup (CACHE_LOOKUP_STALE 1001); ALookup CACHE_LOOKUP_NOT_FOUND; AStatus 2 1 1 0] /\
  (steps demo_sections boot).1 = (spec_steps demo_sections spec_boot).1 /\
  same_registers (s_pool (cache (steps demo_sections boot).2)) (registers (spec_steps demo_sections spec_boot).2).
Proof.
  split; [vm_compute; reflexivity|]. apply (cache_refines demo_sections). unfold demo_sections. repeat apply Forall_cons_2; cbn; try done; lia.
Defined.
