(* ===== verification/MbReasm.v ===== *)
(** * Modbus TCP stream reassembly: main/bridge/mbtcp_reasm.c

    A connection has a slot with the bytes that wait for the rest of their
    frame.  A feed appends what one recv() delivered, hands out every complete
    frame and keeps the remainder.  The callback does not touch the
    reassembler, so a feed gives back the frames it would be called with.

    Theorem: whatever the interleaving of up to eight connections, and however
    TCP cuts their streams, each connection gets exactly the frames that were
    sent on it, in order. *)

From Stdlib Require Import ZArith Lia.
From stdpp Require Import base list gmap.
From S2P Require Import Prelude PyBytes.

Open Scope Z_scope.

Definition MBTCP_REASM_MAX_CONNS : nat := 8.
Definition MBTCP_REASM_FRAME_MAX : nat := 300.

(** sizeof(mb_tcp_header_t): the MBAP header and the function code. *)
Definition HEADER_LEN : nat := 8.

Definition be16 (hi lo : Z) : Z := Z.lor (Z.shiftl hi 8) lo.

Definition mbtcp_reasm_frame_total_len (buf : list Z) : nat := Z.to_nat (be16 (byte_at buf 4) (byte_at buf 5) + 6).

Record slot := Slot { sock : Z; buf : list Z }.
Definition free_slot : slot := Slot (-1) [].

Record mbtcp_reasm_t := Reasm { slots : list slot; slot_exhausted : Z }.

Definition mbtcp_reasm_init : mbtcp_reasm_t := Reasm (replicate MBTCP_REASM_MAX_CONNS free_slot) 0.

(** [slot_get]: the index of the slot held by the socket, or of the first free
    one. *)
Definition slot_get (k : Z) (ss : list slot) : option nat :=
  match list_find (fun s => sock s = k) ss with
  | Some (i, _) => Some i
  | None => fst <$> list_find (fun s => sock s = -1) ss
  end.

Definition mbtcp_reasm_close (k : Z) (r : mbtcp_reasm_t) : mbtcp_reasm_t :=
  if k <? 0 then r
  else match list_find (fun s => sock s = k) (slots r) with
       | Some (i, _) => Reasm (<[i := free_slot]> (slots r)) (slot_exhausted r)
       | None => r
       end.

Definition mbtcp_reasm_pending (k : Z) (r : mbtcp_reasm_t) : nat :=
  if k <? 0 then 0
  else match list_find (fun s => sock s = k) (slots r) with Some (_, s) => length (buf s) | None => 0 end.

(** ** Frames of a buffer *)

Definition header_ok (h : list Z) : bool :=
  let flen := mbtcp_reasm_frame_total_len h in
  (be16 (byte_at h 2) (byte_at h 3) =? 0) && (HEADER_LEN <=? flen)%nat && (flen <=? MBTCP_REASM_FRAME_MAX)%nat.

(** The inner loop, from the position of [rest] on: the frames and the
    unconsumed tail. *)
Fixpoint scan_frames (fuel : nat) (rest : list Z) (resyncing : bool) : list (list Z) * list Z :=
  match fuel with
  | O => ([], rest)
  | S fuel =>
      if (length rest <? HEADER_LEN)%nat then ([], rest)
      else
        let flen := mbtcp_reasm_frame_total_len rest in
        if negb (header_ok rest) then scan_frames fuel (drop 1 rest) true
        else if (length rest <? flen)%nat then
          if resyncing : bool then scan_frames fuel (drop 1 rest) true else ([], rest)
        else
          let (fs, tl) := scan_frames fuel (drop flen rest) false in (take flen rest :: fs, tl)
  end.

(** Every round consumes a byte. *)
Definition scan (b : list Z) : list (list Z) * list Z := scan_frames (S (length b)) b false.

(** The outer loop: append what fits, take the frames, drop a full buffer. *)
Fixpoint feed_loop (fuel : nat) (b data : list Z) : list (list Z) * list Z :=
  match fuel with
  | O => ([], b)
  | S fuel =>
      match data with
      | [] => ([], b)
      | _ =>
          let space := (MBTCP_REASM_FRAME_MAX - length b)%nat in
          let (fs, tl) := scan (b ++ take space data) in
          let tl := if (length tl =? MBTCP_REASM_FRAME_MAX)%nat then [] else tl in
          let (gs, tl) := feed_loop fuel tl (drop space data) in (fs ++ gs, tl)
      end
  end.

(** Every round takes at least one byte: the buffer is never full. *)
Definition feed_buffer (b data : list Z) : list (list Z) * list Z := feed_loop (S (length data)) b data.

(** [None]: MBTCP_REASM_NO_SLOT. *)
Definition mbtcp_reasm_feed (k : Z) (data : list Z) (r : mbtcp_reasm_t) : option (list (list Z)) * mbtcp_reasm_t :=
  if k <? 0 then (None, r)
  else
    match slot_get k (slots r) with
    | None => (None, Reasm (slots r) ((slot_exhausted r + 1) mod 2 ^ 32))
    | Some i =>
        let s := default free_slot (slots r !! i) in
        let b := if sock s =? k then buf s else [] in
        let (fs, tl) := feed_buffer b data in
        (Some fs, Reasm (<[i := Slot k tl]> (slots r)) (slot_exhausted r))
    end.

(** ** Many connections *)

Inductive event : Type :=
| Recv (k : Z) (data : list Z)
| Close (k : Z).

#[export] Instance event_eq_dec : EqDecision event.
Proof. solve_decision. Defined.

Definition event_sock (e : event) : Z := match e with Recv k _ | Close k => k end.

(** The frames of a run, each with its socket. *)
Fixpoint run_events (l : list event) (r : mbtcp_reasm_t) : list (Z * list Z) * mbtcp_reasm_t :=
  match l with
  | [] => ([], r)
  | Recv k data :: l =>
      let (fs, r) := mbtcp_reasm_feed k data r in
      let (gs, r) := run_events l r in ((pair k <$> default [] fs) ++ gs, r)
  | Close k :: l => run_events l (mbtcp_reasm_close k r)
  end.

Definition frames_of (k : Z) (l : list (Z * list Z)) : list (list Z) := (filter (fun f => f.1 = k) l).*2.

(** One connection on its own. *)
Fixpoint run_alone (l : list event) (b : list Z) : list (list Z) * list Z :=
  match l with
  | [] => ([], b)
  | Recv _ data :: l => let (fs, b) := feed_buffer b data in let (gs, b) := run_alone l b in (fs ++ gs, b)
  | Close _ :: l => run_alone l []
  end.

(** ** A stream is cut at its frames *)

(** A frame as a peer sends it. *)
Definition adu (f : list Z) : Prop := header_ok f = true /\ length f = mbtcp_reasm_frame_total_len f /\ bytes_ok f.

Lemma adu_length f : adu f -> (HEADER_LEN <= length f <= MBTCP_REASM_FRAME_MAX)%nat.
Proof. intros (H & -> & _). unfold header_ok in H. bool_to_prop. lia. Qed.

Lemma byte_at_prefix b f i : (i < length b)%nat -> b `prefix_of` f -> byte_at b i = byte_at f i.
Proof. intros Hi [r ->]. unfold byte_at. by rewrite lookup_app_l. Qed.

(** The header of a prefix that is long enough. *)
Lemma header_prefix b f : (HEADER_LEN <= length b)%nat -> b `prefix_of` f ->
  header_ok b = header_ok f /\ mbtcp_reasm_frame_total_len b = mbtcp_reasm_frame_total_len f.
Proof.
  intros Hl Hp. unfold header_ok, mbtcp_reasm_frame_total_len, HEADER_LEN in *.
  by rewrite !(byte_at_prefix b f) by (done || lia).
Qed.

(** What waits in a buffer: the start of the first of the frames to come. *)
Definition waits (r : list Z) (hs : list (list Z)) : Prop :=
  match hs with [] => r = [] | f :: _ => r `prefix_of` f /\ (length r < length f)%nat end.

Lemma prefix_within (p f l : list Z) : p `prefix_of` f ++ l -> (length p <= length f)%nat -> p `prefix_of` f.
Proof.
  intros [q Hp] Hl. exists (drop (length p) f). rewrite <- (take_drop (length p) f) at 1. f_equal.
  assert (E : take (length p) (f ++ l) = p) by (by rewrite Hp, take_app_length). by rewrite take_app_le in E by lia.
Qed.

Lemma prefix_beyond (p f l : list Z) : p `prefix_of` f ++ l -> (length f <= length p)%nat -> exists p', p = f ++ p' /\ p' `prefix_of` l.
Proof.
  intros [q Hp] Hl. destruct (prefix_within f p q) as [p' ->]; [by exists l|done|].
  exists p'. split; [done|]. exists q. rewrite <- app_assoc in Hp. by apply app_inv_head in Hp.
Qed.

Lemma scan_aligned fs : forall fuel p, Forall adu fs -> p `prefix_of` concat fs -> (length p < fuel)%nat ->
  exists gs hs r, fs = gs ++ hs /\ p = concat gs ++ r /\ scan_frames fuel p false = (gs, r) /\ waits r hs.
Proof.
  induction fs as [|f fs IH]; intros fuel p Hf Hp Hl; (destruct fuel as [|fuel]; [lia|]).
  - apply prefix_nil_inv in Hp as ->. by exists [], [], [].
  - apply Forall_cons in Hf as [Ha Hf]. pose proof (adu_length f Ha) as Hlf. destruct Ha as (Hh & Hlen & _).
    destruct (decide (length p < length f)%nat) as [Hs|Hs].
    + exists [], (f :: fs), p. pose proof (prefix_within p f _ Hp ltac:(lia)) as Hpf.
      split; [done|]. split; [done|]. split; [|done]. cbn [scan_frames].
      destruct (length p <? HEADER_LEN)%nat eqn:E1; [done|]. apply Nat.ltb_ge in E1.
      destruct (header_prefix p f E1 Hpf) as [-> ->]. rewrite Hh. cbn [negb].
      by rewrite (proj2 (Nat.ltb_lt _ _)) by lia.
    + destruct (prefix_beyond p f _ Hp ltac:(lia)) as (p' & -> & Hp'). rewrite length_app in Hl, Hs.
      destruct (IH fuel p' Hf Hp') as (gs & hs & r & -> & -> & Es & Hw); [unfold HEADER_LEN in Hlf; lia|].
      exists (f :: gs), hs, r. split; [done|]. split; [by cbn; rewrite app_assoc|]. split; [|done].
      cbn [scan_frames]. assert (Hpre : f `prefix_of` f ++ concat gs ++ r) by (by eexists).
      destruct (header_prefix f _ (proj1 Hlf) Hpre) as [<- <-]. rewrite Hh, <- Hlen, length_app. cbn [negb].
      rewrite (proj2 (Nat.ltb_ge _ _)) by lia. rewrite (proj2 (Nat.ltb_ge _ _)) by lia.
      by rewrite drop_app_length, take_app_length, Es.
Qed.

Lemma waits_length r hs : Forall adu hs -> waits r hs -> (length r < MBTCP_REASM_FRAME_MAX)%nat.
Proof.
  destruct hs as [|f hs]; cbn; [intros _ ->; unfold MBTCP_REASM_FRAME_MAX; cbn; lia|].
  intros [Ha _]%Forall_cons [_ Hl]. apply adu_length in Ha. lia.
Qed.

Lemma waits_nil hs : Forall adu hs -> waits [] hs.
Proof.
  destruct hs as [|f hs]; [done|]. intros [Ha _]%Forall_cons. apply adu_length in Ha. split; [apply prefix_nil|].
  unfold HEADER_LEN in Ha. cbn. lia.
Qed.


(** A feed takes the frames the bytes complete. *)
Lemma feed_aligned fuel : forall b data fs, Forall adu fs -> waits b fs -> b ++ data `prefix_of` concat fs -> (length data < fuel)%nat ->
  exists gs hs r, fs = gs ++ hs /\ b ++ data = concat gs ++ r /\ feed_loop fuel b data = (gs, r) /\ waits r hs.
Proof.
  induction fuel as [|fuel IH]; intros b data fs Hf Hb Hp Hl; [lia|]. cbn [feed_loop].
  destruct data as [|x data]; [rewrite app_nil_r; by exists [], fs, b|].
  pose proof (waits_length b fs Hf Hb) as Hlb. set (space := (MBTCP_REASM_FRAME_MAX - length b)%nat).
  assert (Hspace : (0 < space)%nat) by (unfold space; lia). clearbody space.
  assert (Hd : x :: data = take space (x :: data) ++ drop space (x :: data)) by (by rewrite take_drop).
  set (c := take space (x :: data)) in *. set (d := drop space (x :: data)) in *.
  assert (Hld : (length d < fuel)%nat) by (unfold d; rewrite length_drop; cbn in *; lia).
  rewrite Hd, app_assoc in Hp |- *. clearbody c d. clear Hd Hl.
  assert (Hpc : b ++ c `prefix_of` concat fs) by (etrans; [|exact Hp]; by eexists).
  destruct (scan_aligned fs (S (length (b ++ c))) (b ++ c) Hf Hpc ltac:(lia)) as (gs & hs & r & -> & E & Es & Hw).
  apply Forall_app in Hf as [Hg Hh]. unfold scan. rewrite Es. pose proof (waits_length r hs Hh Hw).
  rewrite (proj2 (Nat.eqb_neq _ _)) by lia. rewrite E, concat_app, <- app_assoc in Hp. apply prefix_app_inv in Hp.
  destruct (IH r d hs Hh Hw Hp Hld) as (gs' & hs' & r' & -> & E' & -> & Hw').
  exists (gs ++ gs'), hs', r'. split; [by rewrite app_assoc|]. split; [|done].
  by rewrite E, <- (app_assoc _ r d), E', concat_app, app_assoc.
Qed.

(** ** Connections do not disturb each other *)

Lemma run_alone_aligned l : forall b fs, Forall adu fs -> waits b fs ->
  Forall (fun e => match e with Recv _ _ => True | Close _ => False end) l ->
  b ++ concat ((fun e => match e with Recv _ data => data | Close _ => [] end) <$> l) `prefix_of` concat fs ->
  exists gs hs r, fs = gs ++ hs /\ run_alone l b = (gs, r) /\ waits r hs /\
    b ++ concat ((fun e => match e with Recv _ data => data | Close _ => [] end) <$> l) = concat gs ++ r.
Proof.
  induction l as [|[k data|k] l IH]; intros b fs Hf Hb Hl Hp.
  - exists [], fs, b. cbn in *. rewrite app_nil_r in *. done.
  - apply Forall_cons in Hl as [_ Hl]. rewrite fmap_cons in Hp |- *. cbn [concat] in *. rewrite app_assoc in Hp |- *.
    assert (Hpd : b ++ data `prefix_of` concat fs) by (etrans; [|exact Hp]; by eexists).
    destruct (feed_aligned (S (length data)) b data fs Hf Hb Hpd ltac:(lia)) as (gs & hs & r & -> & E & Es & Hw).
    apply Forall_app in Hf as [Hg Hh]. cbn [run_alone]. unfold feed_buffer. rewrite Es.
    rewrite E, concat_app, <- app_assoc in Hp. apply prefix_app_inv in Hp.
    destruct (IH r hs Hh Hw Hl Hp) as (gs' & hs' & r' & -> & -> & Hw' & E').
    exists (gs ++ gs'), hs', r'. split; [by rewrite app_assoc|]. split; [done|]. split; [done|].
    by rewrite E, <- (app_assoc _ r _), E', concat_app, app_assoc.
  - by apply Forall_cons in Hl as [[] _].
Qed.

(** The slots as the connections that hold them. *)
Definition taken (ss : list slot) : list (Z * list Z) := (fun s => (sock s, buf s)) <$> filter (fun s => sock s <> -1) ss.

Record slots_ok (ss : list slot) (m : gmap Z (list Z)) : Prop := {
  ok_count : length ss = MBTCP_REASM_MAX_CONNS;
  ok_nodup : NoDup (taken ss).*1;
  ok_map : m = list_to_map (taken ss)
}.

Lemma taken_app ss tt : taken (ss ++ tt) = taken ss ++ taken tt.
Proof. unfold taken. by rewrite filter_app, fmap_app. Qed.

Lemma taken_cons s ss : taken (s :: ss) = if decide (sock s <> -1) then (sock s, buf s) :: taken ss else taken ss.
Proof. unfold taken. rewrite filter_cons. by destruct (decide _). Qed.

Lemma taken_elem k ss : k <> -1 -> k ∈ (taken ss).*1 <-> exists s, s ∈ ss /\ sock s = k.
Proof.
  intros Hk. unfold taken. rewrite <- list_fmap_compose, list_elem_of_fmap. split.
  - intros (s & -> & Hs). apply list_elem_of_filter in Hs as [_ Hs]. eauto.
  - intros (s & Hs & <-). exists s. split; [done|]. by apply list_elem_of_filter.
Qed.

Lemma taken_full ss : Forall (fun s => sock s <> -1) ss -> length (taken ss) = length ss.
Proof. induction 1 as [|s ss Hs _ IH]; [done|]. rewrite taken_cons, decide_True by done. cbn. congruence. Qed.

Lemma taken_size ss : NoDup (taken ss).*1 -> size (list_to_map (taken ss) : gmap Z (list Z)) = length (taken ss).
Proof. intros H. rewrite <- (length_map_to_list (list_to_map (taken ss) : gmap Z (list Z))). by rewrite map_to_list_to_map. Qed.

(** The slot a socket gets, and the bytes it holds. *)
Lemma slot_found k ss m : slots_ok ss m -> 0 <= k -> k ∈ dom m \/ (size m < MBTCP_REASM_MAX_CONNS)%nat ->
  exists l1 s l2, ss = l1 ++ s :: l2 /\ slot_get k ss = Some (length l1) /\ default [] (m !! k) = (if sock s =? k then buf s else []) /\
    (sock s = k \/ sock s = -1 /\ k ∉ (taken ss).*1).
Proof.
  intros [Hc Hn ->] Hk Hroom. unfold slot_get. destruct (list_find (fun s => sock s = k) ss) as [[i s]|] eqn:E.
  - apply list_find_Some in E as (Hs & <- & _). apply list_elem_of_split_length in Hs as (l1 & l2 & -> & ->).
    exists l1, s, l2. split; [done|]. split; [done|]. split; [|by left]. rewrite Z.eqb_refl.
    rewrite taken_app, taken_cons, decide_True in * by lia. rewrite list_to_map_middle by done. by rewrite lookup_insert_eq.
  - apply list_find_None in E. rewrite Forall_forall in E.
    assert (Hout : k ∉ (taken ss).*1). { intros (s & Hs & Ek)%taken_elem; [by apply (E s)|lia]. }
    destruct Hroom as [Hd|Hd]; [rewrite dom_list_to_map_L, elem_of_list_to_set in Hd; done|].
    destruct (list_find (fun s => sock s = -1) ss) as [[i s]|] eqn:E2.
    + apply list_find_Some in E2 as (Hs & Ef & _). apply list_elem_of_split_length in Hs as (l1 & l2 & -> & ->).
      exists l1, s, l2. split; [done|]. split; [done|]. rewrite Ef, (proj2 (Z.eqb_neq _ _)) by lia.
      rewrite (not_elem_of_list_to_map_1 _ _ Hout). auto.
    + apply list_find_None in E2. rewrite taken_size, taken_full in Hd by done. lia.
Qed.

Lemma slot_updated k l1 s l2 m tl : slots_ok (l1 ++ s :: l2) m -> 0 <= k ->
  sock s = k \/ sock s = -1 /\ k ∉ (taken (l1 ++ s :: l2)).*1 ->
  slots_ok (l1 ++ Slot k tl :: l2) (<[k := tl]> m).
Proof.
  intros [Hc Hn ->] Hk Hs. assert (Hne : k <> -1) by lia. rewrite !taken_app, !taken_cons in *. destruct Hs as [<-|[E Hout]].
  - rewrite decide_True in * by done. destruct (list_to_map_replace (taken l1) (taken l2) (sock s) (buf s) tl Hn) as [-> Hn'].
    split; [by rewrite !length_app in *| |]; rewrite taken_app, taken_cons, decide_True by done; done.
  - rewrite decide_False in * by (rewrite E; tauto).
    assert (Hn' : NoDup (taken l1 ++ (k, tl) :: taken l2).*1).
    { rewrite fmap_app in Hn, Hout |- *. rewrite fmap_cons. by rewrite <- Permutation_middle, NoDup_cons. }
    split; [by rewrite !length_app in *| |]; rewrite taken_app, taken_cons, decide_True by done; [done|].
    by rewrite list_to_map_middle.
Qed.

Lemma feed_spec k data r m fs tl : slots_ok (slots r) m -> 0 <= k -> k ∈ dom m \/ (size m < MBTCP_REASM_MAX_CONNS)%nat ->
  feed_buffer (default [] (m !! k)) data = (fs, tl) ->
  exists r', mbtcp_reasm_feed k data r = (Some fs, r') /\ slots_ok (slots r') (<[k := tl]> m).
Proof.
  intros Hok Hk Hroom Hf. destruct (slot_found k _ m Hok Hk Hroom) as (l1 & s & l2 & E & Eg & Eb & Hs).
  unfold mbtcp_reasm_feed. rewrite (proj2 (Z.ltb_ge _ _)) by lia. rewrite Eg, E, list_lookup_middle by done. cbn [default from_option id].
  rewrite <- Eb, Hf. eexists. split; [reflexivity|]. cbn [slots]. rewrite insert_app_r_alt, Nat.sub_diag by lia. cbn.
  rewrite E in Hok, Hs. by eapply slot_updated.
Qed.

Lemma close_spec k r m : slots_ok (slots r) m -> 0 <= k -> slots_ok (slots (mbtcp_reasm_close k r)) (delete k m).
Proof.
  intros Hok Hk. unfold mbtcp_reasm_close. rewrite (proj2 (Z.ltb_ge _ _)) by lia. destruct Hok as [Hc Hn ->].
  destruct (list_find (fun s => sock s = k) (slots r)) as [[i s]|] eqn:E.
  - apply list_find_Some in E as (Hs & Ek & _). apply list_elem_of_split_length in Hs as (l1 & l2 & E & ->). cbn [slots].
    rewrite E in *. rewrite insert_app_r_alt, Nat.sub_diag by lia.
    change (<[0%nat := free_slot]> (s :: l2)) with (free_slot :: l2).
    rewrite taken_app, taken_cons, decide_True in Hn |- * by lia. rewrite Ek in *.
    rewrite list_to_map_middle by done. rewrite delete_insert_eq, delete_id; cycle 1.
    { apply not_elem_of_list_to_map_1. rewrite fmap_app, fmap_cons in Hn. rewrite fmap_app.
      rewrite <- Permutation_middle, NoDup_cons in Hn. tauto. }
    split; [by rewrite !length_app in *| |]; rewrite taken_app, taken_cons, decide_False by (cbn; tauto); [|done].
    rewrite fmap_app, fmap_cons in Hn. rewrite fmap_app. rewrite <- Permutation_middle, NoDup_cons in Hn. tauto.
  - apply list_find_None in E. rewrite Forall_forall in E. rewrite delete_id; [done|].
    apply not_elem_of_list_to_map_1. intros (s & Hs & Es)%taken_elem; [by apply (E s)|lia].
Qed.

Definition my_events (k : Z) (l : list event) : list event := filter (fun e => event_sock e = k) l.

Lemma size_below (m : gmap Z (list Z)) (S : gset Z) k n : dom m ⊆ S -> k ∈ S -> (size S <= n)%nat -> k ∈ dom m \/ (size m < n)%nat.
Proof.
  intros Hs Hk Hn. destruct (decide (k ∈ dom m)) as [Hd|Hd]; [by left|right]. rewrite <- size_dom.
  apply (Nat.lt_le_trans _ (size S)); [|done]. apply subset_size. set_solver.
Qed.

(** Each connection sees only its own events. *)
Lemma run_events_alone (S : gset Z) k l : (size S <= MBTCP_REASM_MAX_CONNS)%nat -> forall r m,
  slots_ok (slots r) m -> dom m ⊆ S -> Forall (fun e => event_sock e ∈ S /\ 0 <= event_sock e) l ->
  frames_of k (run_events l r).1 = (run_alone (my_events k l) (default [] (m !! k))).1.
Proof.
  intros Hsize. induction l as [|e l IH]; intros r m Hok Hdom Hl; [done|].
  apply Forall_cons in Hl as [[HS Hk] Hl]. unfold my_events. rewrite filter_cons. fold (my_events k l). destruct e as [j data|j]; cbn [event_sock] in *.
  - destruct (feed_buffer (default [] (m !! j)) data) as [fs tl] eqn:Ef.
    destruct (feed_spec j data r m fs tl Hok Hk (size_below m S j _ Hdom HS Hsize) Ef) as (r' & Er & Hok').
    assert (Hdom' : dom (<[j := tl]> m) ⊆ S) by (rewrite dom_insert_L; set_solver).
    specialize (IH r' _ Hok' Hdom' Hl). cbn [run_events]. rewrite Er. destruct (run_events l r') as [gs r''] eqn:Eg. cbn in IH |- *.
    unfold frames_of in *. rewrite filter_app, fmap_app, IH. destruct (decide (j = k)) as [->|Hne].
    + cbn [run_alone]. rewrite Ef, lookup_insert_eq. cbn [default from_option id].
      destruct (run_alone (my_events k l) tl) as [hs tl'] eqn:Ea. cbn. f_equal.
      clear. induction fs as [|f fs IH]; [done|]. cbn [fmap list_fmap]. rewrite filter_cons_True by done. cbn. f_equal. exact IH.
    + rewrite lookup_insert_ne by done. replace (filter _ (pair j <$> fs)) with (@nil (Z * list Z)); [done|].
      clear - Hne. induction fs as [|f fs IH]; [done|]. cbn [fmap list_fmap]. by rewrite filter_cons_False.
  - pose proof (close_spec j r m Hok Hk) as Hok'. assert (Hdom' : dom (delete j m) ⊆ S) by (rewrite dom_delete_L; set_solver).
    specialize (IH _ _ Hok' Hdom' Hl). cbn [run_events]. rewrite IH. destruct (decide (j = k)) as [->|Hne].
    + cbn [run_alone]. by rewrite lookup_delete_eq.
    + by rewrite lookup_delete_ne.
Qed.

Lemma init_ok : slots_ok (slots mbtcp_reasm_init) ∅.
Proof. split; [done| |done]. cbn. apply NoDup_nil_2. Qed.

Lemma cut_unique fs f r gs hs r' :
  fs ++ [f] = gs ++ hs -> concat fs ++ r = concat gs ++ r' -> waits r' hs -> (length r < length f)%nat -> gs = fs.
Proof.
  intros E Ec Hw Hl. apply app_eq_app in E as (l & [[-> E]|[-> E]]).
  - destruct l as [|x l]; [by rewrite app_nil_r|]. cbn in E. subst hs. destruct Hw as [_ Hw].
    rewrite concat_app, <- app_assoc in Ec. apply app_inv_head in Ec. subst r'. cbn in Hw. rewrite !length_app in Hw. lia.
  - destruct l as [|x l]; [by rewrite app_nil_r|]. exfalso. injection E as -> E. symmetry in E. apply app_nil in E as [-> ->].
    cbn in Hw. subst r'. rewrite concat_app, <- app_assoc in Ec. apply app_inv_head in Ec. subst r. cbn in Hl. rewrite !app_nil_r in Hl. lia.
Qed.

(** The bytes a connection sent, in the pieces recv() returned. *)
Definition sent (k : Z) (l : list event) : list Z :=
  concat ((fun e => match e with Recv _ data => data | Close _ => [] end) <$> my_events k l).

(** Reassembly gives each connection its own frames back.  With at most eight connections at work in any interleaving, a connection that is not closed and on which a peer sends well-formed frames (perhaps the start of one more), cut by TCP in any way, gets exactly these frames, in order; what is kept is the start of the next. *)
Lemma reasm_frames_exact (S : gset Z) k l fs f r :
  (size S <= MBTCP_REASM_MAX_CONNS)%nat -> Forall (fun e => event_sock e ∈ S /\ 0 <= event_sock e) l ->
  Close k ∉ l -> Forall adu (fs ++ [f]) -> sent k l = concat fs ++ r -> r `prefix_of` f -> (length r < length f)%nat ->
  frames_of k (run_events l mbtcp_reasm_init).1 = fs.
Proof.
  intros HS Hl Hc Ha Hsent Hr Hlr. rewrite (run_events_alone S k l HS _ ∅ init_ok); [|set_solver|done]. rewrite lookup_empty. cbn [from_option].
  assert (Hnc : Forall (fun e => match e with Recv _ _ => True | Close _ => False end) (my_events k l)).
  { apply Forall_forall. intros [j data|j] [Hj Hin]%list_elem_of_filter; [done|]. cbn in Hj. by subst j. }
  assert (Hp : sent k l `prefix_of` concat (fs ++ [f])).
  { rewrite Hsent, concat_app. apply prefix_app. cbn. by rewrite app_nil_r. }
  destruct (run_alone_aligned (my_events k l) [] (fs ++ [f]) Ha) as (gs & hs & r' & E & -> & Hw & Es); [by apply waits_nil|done|done|].
  cbn [fst]. cbn [app] in Es. fold (sent k l) in Es. rewrite Hsent in Es.
  by apply (cut_unique fs f r gs hs r').
Qed.

(** Two connections, their requests cut in the middle of the header. *)
Definition demo_adu (tid : Z) : list Z := [0; tid; 0; 0; 0; 6; 1; 3; 0; 10; 0; 2].

Definition demo_events : list event :=
  [Recv 4 (take 5 (demo_adu 1)); Recv 7 (demo_adu 9 ++ take 3 (demo_adu 10)); Recv 4 (drop 5 (demo_adu 1) ++ demo_adu 2 ++ [0]);
   Recv 7 (drop 3 (demo_adu 10))].

Lemma reasm_frames_exact_witness :
  frames_of 4 (run_events demo_events mbtcp_reasm_init).1 = [demo_adu 1; demo_adu 2] /\
  (run_events demo_events mbtcp_reasm_init).1 = [(7, demo_adu 9); (4, demo_adu 1); (4, demo_adu 2); (7, demo_adu 10)].
Proof.
  split; [|vm_compute; reflexivity].
  apply (reasm_frames_exact {[4; 7]} 4 demo_events [demo_adu 1; demo_adu 2] (demo_adu 3) [0]).
  - vm_compute. lia.
  - unfold demo_events. repeat apply Forall_cons_2; cbn; try done; (split; [set_solver|lia]).
  - apply (bool_decide_unpack (Close 4 ∉ demo_events)). reflexivity.
  - repeat apply Forall_cons_2; [..|done]; (split; [reflexivity|split; [reflexivity|]]); unfold demo_adu; repeat constructor; lia.
  - reflexivity.
  - by exists (drop 1 (demo_adu 3)).
  - cbn. lia.
Defined.
