(* ===== verification/CacheServer.v ===== *)
(** * The cache Modbus TCP server: main/bridge/cache_modbus_server.c

    The server answers reads of a client from the register cache (CachePool),
    on the frames the reassembler (MbReasm) cuts out of the stream.  The cache
    is filled by other tasks while a response is built: every lookup sees the
    cache and the clock of its own moment, so a response is built from a
    sequence of moments.

    Theorem: whatever TCP does to the streams of up to eight connections, every
    read request is answered once, in order, and the client's decoder reads out
    of the answer exactly what the lookups found, or the exception of the first
    check that failed. *)

From Stdlib Require Import ZArith Lia String.
From stdpp Require Import base list gmap strings.
From S2P Require Import Prelude PyBytes RtuSlave Sockets ModbusTcp MbDevice CachePool MbReasm.

Open Scope Z_scope.

Definition MB_EX_GW_TARGET_FAILED : Z := 0x0B.
Definition MB_MAX_REGISTERS : Z := 125.
Definition MB_MAX_COILS : Z := 2000.
Definition MODBUS_TCP_REQUEST_MIN_LEN : Z := 8.

(** ** Response builders *)

(** What one lookup finds: by its number in the response and its address. *)
Definition lookups : Type := nat -> Z -> cache_lookup_result_t.

(** The loop of the register builder, from register [i] on: the bytes after
    the byte count, or the exception. *)
Fixpoint register_cells (look : lookups) (start_addr : Z) (n i : nat) : list Z + Z :=
  match n with
  | O => inl []
  | S n =>
      match look i (u16 (start_addr + Z.of_nat i)) with
      | CACHE_LOOKUP_NOT_FOUND => inr ILLEGAL_ADDRESS
      | CACHE_LOOKUP_STALE _ => inr MB_EX_GW_TARGET_FAILED
      | CACHE_LOOKUP_FOUND value =>
          match register_cells look start_addr n (S i) with inl l => inl (reg_be value ++ l) | inr e => inr e end
      end
  end.

(** The loop of the coil builder, on the bit buffer. *)
Fixpoint coil_cells (look : lookups) (start_addr : Z) (n i : nat) (bits : list Z) : list Z + Z :=
  match n with
  | O => inl bits
  | S n =>
      match look i (u16 (start_addr + Z.of_nat i)) with
      | CACHE_LOOKUP_NOT_FOUND => inr ILLEGAL_ADDRESS
      | CACHE_LOOKUP_STALE _ => inr MB_EX_GW_TARGET_FAILED
      | CACHE_LOOKUP_FOUND value =>
          coil_cells look start_addr n (S i)
            (if value =? 0 then bits
             else <[(i / 8)%nat := Z.lor (byte_at bits (i / 8)) (Z.shiftl 1 (Z.of_nat (i mod 8)))]> bits)
      end
  end.

(** The MBAP header, the function code, the byte count and the data. *)
Definition response_frame (tid : list Z) (unit_id fc byte_count : Z) (data : list Z) : list Z :=
  tid ++ [0; 0] ++ reg_be (3 + byte_count) ++ [unit_id; fc] ++ [byte_count] ++ data.

Definition build_register_response (look : lookups) (unit_id fc : Z) (tid : list Z) (start_addr count : Z) : list Z + Z :=
  if (count =? 0) || (MB_MAX_REGISTERS <? count) then inr ILLEGAL_DATA_VALUE
  else if 0x10000 <? start_addr + count then inr ILLEGAL_ADDRESS
  else
    let byte_count := (count * 2) mod 256 in
    match register_cells look start_addr (Z.to_nat count) 0 with
    | inl data => inl (response_frame tid unit_id fc byte_count data)
    | inr e => inr e
    end.

Definition build_coil_response (look : lookups) (unit_id fc : Z) (tid : list Z) (start_addr count : Z) : list Z + Z :=
  if (count =? 0) || (MB_MAX_COILS <? count) then inr ILLEGAL_DATA_VALUE
  else if 0x10000 <? start_addr + count then inr ILLEGAL_ADDRESS
  else
    let coil_bytes := ((count + 7) / 8) mod 256 in
    match coil_cells look start_addr (Z.to_nat count) 0 (replicate (Z.to_nat coil_bytes) 0) with
    | inl data => inl (response_frame tid unit_id fc coil_bytes data)
    | inr e => inr e
    end.

(** ** One frame *)

(** What a request finds while it is served: the device's own registers, the
    cache when it is checked, the setting, and the cache and the clock at each
    lookup. *)
Record serving := Serving {
  sv_device : device_env;
  sv_cache : cache_t;
  sv_value_timeout_s : Z;
  sv_moment : nat -> cache_t * Z
}.

Definition look_of (sv : serving) (unit_id fc : Z) : lookups := fun i address =>
  let (c, now_us) := sv_moment sv i in cache_multimaster_lookup unit_id fc address (u16 (sv_value_timeout_s sv)) now_us c.

Definition modbus_tcp_check_request (data : list Z) : bool :=
  if zlen data <? MODBUS_TCP_REQUEST_MIN_LEN then false
  else if negb (be16 (byte_at data 2) (byte_at data 3) =? 0) then false
  else u16 (be16 (byte_at data 4) (byte_at data 5) + 6) =? zlen data.

Definition modbus_pdu_parse_read_request (pdu : list Z) : Z * Z :=
  (be16 (byte_at pdu 0) (byte_at pdu 1), be16 (byte_at pdu 2) (byte_at pdu 3)).

Definition mb_device_is_self (unit_id : Z) : bool := unit_id =? 0xFF.

(** The bytes sent back; [None]: the frame is dropped. *)
Definition process_one_frame (sv : serving) (data : list Z) : option (list Z) :=
  if negb (modbus_tcp_check_request data) then None
  else
    let tid := take 2 data in
    let unit_id := byte_at data 6 in
    let fc := byte_at data 7 in
    let send_exception := build_exception tid unit_id fc in
    if mb_device_is_self unit_id then Some (mb_device_handle_self_request (sv_device sv) data)
    else if negb (s_cache_enabled (sv_cache sv)) then Some (send_exception ILLEGAL_ADDRESS)
    else if negb ((fc =? 1) || (fc =? 2) || (fc =? 3) || (fc =? 4)) then Some (send_exception ILLEGAL_FUNCTION)
    else if zlen data <? 8 + 4 then Some (send_exception ILLEGAL_FUNCTION)
    else
      let (start_addr, count) := modbus_pdu_parse_read_request (drop 8 data) in
      let is_reg := (fc =? 3) || (fc =? 4) in
      let max_count := if is_reg then MB_MAX_REGISTERS else MB_MAX_COILS in
      let build := if is_reg then build_register_response else build_coil_response in
      if (count =? 0) || (max_count <? count) then Some (send_exception ILLEGAL_DATA_VALUE)
      else
        match build (look_of sv unit_id fc) unit_id fc tid start_addr count with
        | inl resp => Some resp
        | inr exception_code => Some (send_exception exception_code)
        end.

(** ** The receive path *)

(** Frames [n], [n+1], ... of the server's life, each served in its own
    moment; the replies and the next number. *)
Fixpoint serve_frames (world : nat -> serving) (n : nat) (fs : list (list Z)) : list (list Z) * nat :=
  match fs with
  | [] => ([], n)
  | f :: fs =>
      let (rs, n') := serve_frames world (S n) fs in
      (match process_one_frame (world n) f with Some r => r :: rs | None => rs end, n')
  end.

Definition process_data_from_tcp (world : nat -> serving) (n : nat) (k : Z) (data : list Z) (r : mbtcp_reasm_t)
    : list (list Z) * nat * mbtcp_reasm_t :=
  match mbtcp_reasm_feed k data r with
  | (Some fs, r) => (serve_frames world n fs, r)
  | (None, r) => (serve_frames world n [data], r)
  end.

(** The replies of a run, each with its socket. *)
Fixpoint run_server (world : nat -> serving) (n : nat) (l : list event) (r : mbtcp_reasm_t) : list (Z * list Z) :=
  match l with
  | [] => []
  | Recv k data :: l =>
      let '(rs, n, r) := process_data_from_tcp world n k data r in (pair k <$> rs) ++ run_server world n l r
  | Close k :: l => run_server world n l (mbtcp_reasm_close k r)
  end.

(** ** Starting and stopping

    [sv_descriptors]: the listeners that exist, the one in [s_tcp_desc] and
    the ones nothing points to. *)

Record server := Server { s_tcp_desc : bool; s_port : Z; sv_descriptors : nat }.

Inductive esp_err_t : Type := ESP_OK | ESP_ERR_NO_MEM | ESP_FAIL.

Definition cache_modbus_server_deinit (tcp_server_deinit : esp_err_t) (s : server) : esp_err_t * server :=
  if negb (s_tcp_desc s) then (ESP_OK, s)
  else match tcp_server_deinit with
       | ESP_OK => (ESP_OK, Server false 0 (pred (sv_descriptors s)))
       | e => (e, s)
       end.

(** What follows the idempotency guard. *)
Definition start_server (port : Z) (mutex_created : bool) (tcp_server_init : esp_err_t) (s : server) : esp_err_t * server :=
  if negb mutex_created then (ESP_ERR_NO_MEM, s)
  else match tcp_server_init with
       | ESP_OK => (ESP_OK, Server true port (S (sv_descriptors s)))
       | e => (e, s)
       end.

Definition cache_modbus_server_init (port : Z) (tcp_server_deinit : esp_err_t) (mutex_created : bool) (tcp_server_init : esp_err_t)
    (s : server) : esp_err_t * server :=
  if s_tcp_desc s then
    if port =? s_port s then (ESP_OK, s)
    else match cache_modbus_server_deinit tcp_server_deinit s with
         | (ESP_OK, s) => start_server port mutex_created tcp_server_init s
         | r => r
         end
  else start_server port mutex_created tcp_server_init s.

Definition cache_modbus_server_get_port (s : server) : Z := s_port s.

(** Exactly the listener the module points to exists. *)
Definition server_ok (s : server) : Prop := sv_descriptors s = if s_tcp_desc s then 1%nat else 0%nat.

Lemma init_never_leaks port deinit_ret created init_ret s : server_ok s ->
  let (r, s') := cache_modbus_server_init port deinit_ret created init_ret s in
  server_ok s' /\ (r = ESP_OK -> s_tcp_desc s' = true /\ cache_modbus_server_get_port s' = port).
Proof.
  destruct s as [[] p n]; unfold server_ok, cache_modbus_server_get_port; cbn; intros ->.
  - destruct (Z.eqb_spec port p) as [->|]; [done|]. destruct deinit_ret; cbn; [|done|done]. by destruct created, init_ret.
  - by destruct created, init_ret.
Qed.

(** ** What a client is promised *)

Record request := Request { q_tid : Z; q_unit : Z; q_fc : Z; q_start : Z; q_count : Z }.

Definition request_ok (q : request) : Prop :=
  is_u16 (q_tid q) /\ is_byte (q_unit q) /\ is_byte (q_fc q) /\ is_u16 (q_start q) /\ is_u16 (q_count q).

Definition wire (q : request) : outcome (list Z) := make_mbap_request (q_tid q) (q_unit q) (q_fc q) (q_start q) (q_count q).

Inductive verdict : Type :=
| Values (vs : list Z)
| Refused (code : Z).

(** The first lookup that fails decides. *)
Fixpoint collect (rs : list cache_lookup_result_t) : verdict :=
  match rs with
  | [] => Values []
  | CACHE_LOOKUP_NOT_FOUND :: _ => Refused 2
  | CACHE_LOOKUP_STALE _ :: _ => Refused 0x0B
  | CACHE_LOOKUP_FOUND v :: rs => match collect rs with Values vs => Values (v :: vs) | Refused e => Refused e end
  end.

(** What the lookups of a request find, in order. *)
Definition found (sv : serving) (q : request) : list cache_lookup_result_t :=
  (fun i => look_of sv (q_unit q) (q_fc q) i (q_start q + Z.of_nat i)) <$> seq 0 (Z.to_nat (q_count q)).

(** Registers are reported as they are, coils as 0 or 1. *)
Definition shown (fc v : Z) : Z := if (fc =? 3) || (fc =? 4) then v else if v =? 0 then 0 else 1.

(** The checks in the order the client can rely on. *)
Definition due (sv : serving) (q : request) : verdict :=
  if negb (s_cache_enabled (sv_cache sv)) then Refused 2
  else if negb (cache_fc_is_cacheable (q_fc q)) then Refused 1
  else if (q_count q =? 0) || (cache_fc_max_count (q_fc q) <? q_count q) then Refused 3
  else if 0x10000 <? q_start q + q_count q then Refused 2
  else match collect (found sv q) with Values vs => Values (shown (q_fc q) <$> vs) | Refused e => Refused e end.

(** A reply as the client's decoder reads it. *)
Definition answers (sv : serving) (q : request) (reply : list Z) : Prop :=
  exists r, reply = encode_response r /\ r_tid r = q_tid q /\ r_unit r = q_unit q /\
    match due sv q with
    | Values vs => r_fc r = q_fc q /\ decode_response (q_fc q) (r_payload r) (q_count q) = Ok vs
    | Refused code => r_fc r = Z.lor (q_fc q) 0x80 /\ r_payload r = [code]
    end.

(** ** The builders *)

Lemma address_u16 start count i : 0 <= start -> start + count <= 65536 -> (i < Z.to_nat count)%nat ->
  u16 (start + Z.of_nat i) = start + Z.of_nat i.
Proof. intros. apply Z.mod_small. lia. Qed.

(** The lookups from number [i] on. *)
Definition found_from (look : lookups) (start : Z) (n i : nat) : list cache_lookup_result_t :=
  (fun i => look i (start + Z.of_nat i)) <$> seq i n.

Lemma register_cells_spec look start n : forall i, 0 <= start -> start + Z.of_nat (i + n) <= 65536 ->
  register_cells look start n i =
  match collect (found_from look start n i) with Values vs => inl (vs ≫= word_bytes) | Refused e => inr e end.
Proof.
  induction n as [|n IH]; intros i Hs Hn; [done|]. cbn [register_cells].
  unfold found_from. cbn [seq fmap list_fmap]. fold (found_from look start n (S i)).
  rewrite (address_u16 start (Z.of_nat (i + S n))) by lia. destruct (look i _) as [|v|v]; [done| |done].
  cbn [collect]. rewrite IH by lia. destruct (collect _) as [vs|e]; [|done]. by rewrite bind_cons, reg_be_word.
Qed.

Lemma collect_length rs vs : collect rs = Values vs -> length vs = length rs.
Proof.
  revert vs. induction rs as [|[|v|v] rs IH]; intros vs; cbn [collect]; [by intros [= <-]|done| |done].
  destruct (collect rs) as [ws|e]; [|done]. intros [= <-]. cbn. f_equal. by apply IH.
Qed.

Lemma coil_cells_spec look start n : forall i bits, 0 <= start -> start + Z.of_nat (i + n) <= 65536 -> (i + n <= 8 * length bits)%nat ->
  (forall j, (i <= j)%nat -> field_bit bits j = 0) ->
  match collect (found_from look start n i) with
  | Values vs => exists bits', coil_cells look start n i bits = inl bits' /\ length bits' = length bits /\
      (forall j, (j < i)%nat -> field_bit bits' j = field_bit bits j) /\ field_bit bits' <$> seq i n = shown 1 <$> vs
  | Refused e => coil_cells look start n i bits = inr e
  end.
Proof.
  induction n as [|n IH]; intros i bits Hs Hn Hl Hz; [by exists bits|]. cbn [coil_cells].
  unfold found_from. cbn [seq fmap list_fmap]. fold (found_from look start n (S i)).
  rewrite (address_u16 start (Z.of_nat (i + S n))) by lia. destruct (look i _) as [|v|v]; [done| |done]. cbn [collect].
  set (bits1 := if v =? 0 then bits else _).
  assert (Hi : (i / 8 < length bits)%nat) by (apply Nat.Div0.div_lt_upper_bound; lia).
  assert (Hb : forall j, field_bit bits1 j = if decide (i = j) then shown 1 v else field_bit bits j).
  { intros j. unfold bits1, shown. cbn. destruct (v =? 0); [|by apply field_bit_set].
    destruct (decide (i = j)) as [<-|]; [by apply Hz|done]. }
  assert (H1 : length bits1 = length bits) by (unfold bits1; destruct (v =? 0); by rewrite ?length_insert).
  specialize (IH (S i) bits1 Hs). rewrite H1 in IH. specialize (IH ltac:(lia) ltac:(lia)).
  destruct (collect _) as [vs|e].
  - destruct IH as (bits' & E & El & Hlow & Hbits).
    { intros j Hj. rewrite Hb, decide_False by lia. apply Hz. lia. }
    exists bits'. split; [done|]. split; [done|]. split.
    + intros j Hj. rewrite Hlow, Hb, decide_False by lia. done.
    + cbn [fmap list_fmap]. f_equal; [|exact Hbits]. by rewrite Hlow, Hb, decide_True by lia.
  - apply IH. intros j Hj. rewrite Hb, decide_False by lia. apply Hz. lia.
Qed.

(** ** One request *)

Definition frame_of (q : request) : list Z :=
  word (q_tid q) ++ word 0 ++ word 6 ++ [q_unit q; q_fc q] ++ word (q_start q) ++ word (q_count q).

Lemma wire_frame q : request_ok q -> wire q = Ok (frame_of q).
Proof. intros (Ht & Hu & Hf & Hs & Hc). by apply make_mbap_request_ok. Qed.

Lemma wire_ok q req : wire q = Ok req -> request_ok q.
Proof.
  unfold wire, make_mbap_request, pack_B. intros H.
  destruct (decide (is_byte (q_fc q))) as [Hf|]; [|done]. cbn [obind] in H.
  apply obind_ok in H as (a & [Ha _]%pack_H_inv & H). apply obind_ok in H as (c & [Hc _]%pack_H_inv & H).
  apply obind_ok in H as (t & [Ht _]%pack_H_inv & H). apply obind_ok in H as (p & _ & H). apply obind_ok in H as (l & _ & H).
  destruct (decide (is_byte (q_unit q))); [|done]. done.
Qed.

Lemma be16_word x : is_u16 x -> be16 (x / 256) (x mod 256) = x.
Proof.
  intros Hx. unfold be16. rewrite lor_shiftl_8; [apply u16_join|]. unfold is_byte. apply Z.mod_pos_bound. lia.
Qed.

Lemma build_exception_frame tid unit fc exc :
  build_exception (word tid) unit fc exc = encode_response (Response tid unit (Z.lor fc 0x80) [exc]).
Proof. reflexivity. Qed.

Lemma response_frame_encode tid unit fc data :
  response_frame (word tid) unit fc (zlen data) data = encode_response (Response tid unit fc (zlen data :: data)).
Proof.
  unfold response_frame, encode_response. cbn [r_tid r_unit r_fc r_payload]. rewrite reg_be_word.
  change ([0; 0] : list Z) with (word 0).
  replace (2 + zlen (zlen data :: data)) with (3 + zlen data) by (unfold zlen; cbn [length]; lia). done.
Qed.

(** The frame of a request passes the check, and its fields are read back. *)
Lemma frame_fields q : request_ok q ->
  modbus_tcp_check_request (frame_of q) = true /\ take 2 (frame_of q) = word (q_tid q) /\ byte_at (frame_of q) 6 = q_unit q /\
  byte_at (frame_of q) 7 = q_fc q /\ zlen (frame_of q) = 12 /\ modbus_pdu_parse_read_request (drop 8 (frame_of q)) = (q_start q, q_count q).
Proof.
  intros (_ & _ & _ & Hs & Hc). split_and!; try reflexivity.
  transitivity (be16 (q_start q / 256) (q_start q mod 256), be16 (q_count q / 256) (q_count q mod 256)); [reflexivity|].
  by rewrite !be16_word.
Qed.

Lemma cacheable_fc fc : cache_fc_is_cacheable fc = (fc =? 1) || (fc =? 2) || (fc =? 3) || (fc =? 4).
Proof.
  unfold cache_fc_is_cacheable. apply eq_bool_prop_intro. rewrite !orb_True, !andb_True, !Is_true_true, !Z.leb_le, !Z.eqb_eq. lia.
Qed.

(** The register builder, read by the client. *)
Lemma register_response_decodes look unit fc tid start count : fc = 3 \/ fc = 4 -> 0 < count <= 125 -> 0 <= start -> start + count <= 65536 ->
  match collect (found_from look start (Z.to_nat count) 0) with
  | Values vs => exists p, build_register_response look unit fc (word tid) start count = inl (encode_response (Response tid unit fc p)) /\
      decode_response fc p count = Ok (shown fc <$> vs)
  | Refused e => build_register_response look unit fc (word tid) start count = inr e
  end.
Proof.
  intros Hfc Hc Hs Ha. unfold build_register_response, MB_MAX_REGISTERS.
  rewrite (proj2 (Z.eqb_neq _ _)), (proj2 (Z.ltb_ge _ _)), (proj2 (Z.ltb_ge _ _)) by lia. cbn [orb].
  rewrite register_cells_spec by lia. destruct (collect _) as [vs|e] eqn:E; [|done].
  apply collect_length in E. unfold found_from in E. rewrite length_fmap, length_seq in E.
  assert (Hreg : (fc =? 3) || (fc =? 4) = true) by (by destruct Hfc as [-> | ->]).
  assert (El : (count * 2) mod 256 = zlen (vs ≫= word_bytes)).
  { unfold zlen. rewrite words_length, E, Z.mod_small by lia. lia. }
  eexists. rewrite El, response_frame_encode. split; [reflexivity|].
  unfold decode_response. rewrite Hreg. rewrite <- El, Z.mod_small by lia.
  replace (count * 2) with (2 * zlen vs) by (unfold zlen; lia). rewrite decode_registers. f_equal.
  symmetry. rewrite <- (list_fmap_id vs) at 2. apply list_fmap_ext. intros _ v _. unfold shown. by rewrite Hreg.
Qed.

(** The coil builder, read by the client. *)
Lemma coil_response_decodes look unit fc tid start count : fc = 1 \/ fc = 2 -> 0 < count <= 2000 -> 0 <= start -> start + count <= 65536 ->
  match collect (found_from look start (Z.to_nat count) 0) with
  | Values vs => exists p, build_coil_response look unit fc (word tid) start count = inl (encode_response (Response tid unit fc p)) /\
      decode_response fc p count = Ok (shown fc <$> vs)
  | Refused e => build_coil_response look unit fc (word tid) start count = inr e
  end.
Proof.
  intros Hfc Hc Hs Ha. unfold build_coil_response, MB_MAX_COILS.
  rewrite (proj2 (Z.eqb_neq _ _)), (proj2 (Z.ltb_ge _ _)), (proj2 (Z.ltb_ge _ _)) by lia. cbn [orb].
  assert (Hn : 0 < (count + 7) / 8 <= 250 /\ count <= 8 * ((count + 7) / 8)).
  { pose proof (Z.div_mod (count + 7) 8). pose proof (Z.mod_pos_bound (count + 7) 8). lia. }
  rewrite (Z.mod_small ((count + 7) / 8)) by lia. set (nb := (count + 7) / 8) in *. clearbody nb.
  pose proof (coil_cells_spec look start (Z.to_nat count) 0 (replicate (Z.to_nat nb) 0) Hs) as H.
  rewrite length_replicate in H. specialize (H ltac:(lia) ltac:(lia) (fun j _ => field_bit_zeros _ j)).
  destruct (collect _) as [vs|e]; [|by rewrite H]. destruct H as (bits & -> & Hl & _ & Hb).
  assert (El : nb = zlen bits) by (unfold zlen; lia). eexists. rewrite El, response_frame_encode. split; [reflexivity|].
  unfold decode_response. assert ((fc =? 3) || (fc =? 4) = false) as Hreg by (by destruct Hfc as [-> | ->]). rewrite Hreg.
  assert ((fc =? 1) || (fc =? 2) = true) as -> by (by destruct Hfc as [-> | ->]).
  replace count with (Z.of_nat (Z.to_nat count)) at 1 by lia. rewrite decode_bits by lia. rewrite Hb. f_equal.
  apply list_fmap_ext. intros _ v _. unfold shown. by rewrite Hreg.
Qed.

Lemma frame_answered sv q : request_ok q -> q_unit q <> 0xFF ->
  exists reply, process_one_frame sv (frame_of q) = Some reply /\ answers sv q reply.
Proof.
  intros Hq Hself. pose proof (frame_fields q Hq) as (Echk & Etid & Eu & Ef & El & Ep).
  destruct Hq as (Ht & Hu & Hf & Hs & Hc). unfold process_one_frame.
  rewrite Echk, Etid, Eu, Ef, El, Ep, <- cacheable_fc. cbn [negb]. unfold mb_device_is_self. rewrite (proj2 (Z.eqb_neq _ _)) by done.
  unfold answers, due. destruct (s_cache_enabled (sv_cache sv)); cbn [negb]; [|by eauto 10 using build_exception_frame].
  destruct (cache_fc_is_cacheable (q_fc q)) eqn:Efc; cbn [negb]; [|by eauto 10 using build_exception_frame].
  change (12 <? 8 + 4) with false. cbv iota. unfold cache_fc_max_count.
  change (if (q_fc q =? 3) || (q_fc q =? 4) then MB_MAX_REGISTERS else MB_MAX_COILS)
    with (if (q_fc q =? 3) || (q_fc q =? 4) then 125 else 2000).
  destruct ((q_count q =? 0) || (_ <? q_count q)) eqn:Ec; [by eauto 10 using build_exception_frame|].
  apply orb_false_iff in Ec as [E0 Emax]. bool_to_prop. unfold is_u16 in *.
  destruct (0x10000 <? q_start q + q_count q) eqn:Eover.
  { destruct ((q_fc q =? 3) || (q_fc q =? 4)) eqn:Er; unfold build_register_response, build_coil_response, MB_MAX_REGISTERS, MB_MAX_COILS;
      rewrite (proj2 (Z.eqb_neq _ _)), (proj2 (Z.ltb_ge _ _)), Eover by lia; cbn [orb]; by eauto 10 using build_exception_frame. }
  bool_to_prop. change (found sv q) with (found_from (look_of sv (q_unit q) (q_fc q)) (q_start q) (Z.to_nat (q_count q)) 0).
  assert (Hkind : if (q_fc q =? 3) || (q_fc q =? 4) then q_fc q = 3 \/ q_fc q = 4 else q_fc q = 1 \/ q_fc q = 2).
  { unfold cache_fc_is_cacheable in Efc. bool_to_prop. destruct (Z.eqb_spec (q_fc q) 3), (Z.eqb_spec (q_fc q) 4); cbn; lia. }
  destruct ((q_fc q =? 3) || (q_fc q =? 4));
    [pose proof (register_response_decodes (look_of sv (q_unit q) (q_fc q)) (q_unit q) (q_fc q) (q_tid q) (q_start q) (q_count q) Hkind
       ltac:(lia) ltac:(lia) ltac:(lia)) as H
    |pose proof (coil_response_decodes (look_of sv (q_unit q) (q_fc q)) (q_unit q) (q_fc q) (q_tid q) (q_start q) (q_count q) Hkind
       ltac:(lia) ltac:(lia) ltac:(lia)) as H];
    (destruct (collect _) as [vs|e]; [destruct H as (p & -> & Hd)|rewrite H]); eauto 10 using build_exception_frame.
Qed.

(** ** Whole runs *)

(** The frames of all connections served one after the other. *)
Fixpoint serve_all (world : nat -> serving) (n : nat) (fs : list (Z * list Z)) : list (Z * list Z) :=
  match fs with
  | [] => []
  | (k, f) :: fs =>
      match process_one_frame (world n) f with Some r => [(k, r)] | None => [] end ++ serve_all world (S n) fs
  end.

Lemma serve_frames_all world k fs gs : forall n,
  serve_all world n ((pair k <$> fs) ++ gs) =
  (pair k <$> (serve_frames world n fs).1) ++ serve_all world (serve_frames world n fs).2 gs.
Proof.
  induction fs as [|f fs IH]; intros n; [done|]. cbn [fmap list_fmap app serve_all serve_frames]. rewrite (IH (S n)).
  destruct (serve_frames world (S n) fs) as [rs n']. by destruct (process_one_frame (world n) f).
Qed.

Lemma run_server_frames world (S : gset Z) l : (size S <= MBTCP_REASM_MAX_CONNS)%nat -> forall n r m,
  slots_ok (slots r) m -> dom m ⊆ S -> Forall (fun e => event_sock e ∈ S /\ 0 <= event_sock e) l ->
  run_server world n l r = serve_all world n (run_events l r).1.
Proof.
  intros Hsize. induction l as [|e l IH]; intros n r m Hok Hdom Hl; [done|].
  apply Forall_cons in Hl as [[HS Hk] Hl]. destruct e as [k data|k]; cbn [event_sock] in *; cbn [run_server run_events].
  - destruct (feed_buffer (default [] (m !! k)) data) as [fs tl] eqn:Ef.
    destruct (feed_spec k data r m fs tl Hok Hk (size_below m S k _ Hdom HS Hsize) Ef) as (r' & Er & Hok').
    assert (Hdom' : dom (<[k := tl]> m) ⊆ S) by (rewrite dom_insert_L; set_solver).
    unfold process_data_from_tcp. rewrite Er. destruct (serve_frames world n fs) as [rs n'] eqn:Es.
    rewrite (IH n' r' _ Hok' Hdom' Hl). destruct (run_events l r') as [gs r'']. cbn [fst from_option id].
    by rewrite serve_frames_all, Es.
  - pose proof (close_spec k r m Hok Hk) as Hok'.
    apply (IH n _ (delete k m)); [done| |done]. rewrite dom_delete_L. set_solver.
Qed.

Lemma serve_all_answers world k fs : forall n qs,
  Forall (fun q => request_ok q /\ q_unit q <> 0xFF) qs -> frames_of k fs = frame_of <$> qs ->
  Forall2 (fun q reply => exists i, answers (world i) q reply) qs (frames_of k (serve_all world n fs)).
Proof.
  induction fs as [|[j f] fs IH]; intros n qs Hq Hf.
  - destruct qs; [constructor|done].
  - unfold frames_of in *. cbn [serve_all]. rewrite filter_cons in Hf. cbn [fst] in Hf. rewrite filter_app, fmap_app.
    destruct (decide (j = k)) as [->|Hne].
    + destruct qs as [|q qs]; [done|]. rewrite !fmap_cons in Hf. injection Hf as -> Hf. apply Forall_cons in Hq as [[Hq Hu] Hqs].
      destruct (frame_answered (world n) q Hq Hu) as (reply & -> & Ha).
      rewrite filter_cons_True by done. cbn. constructor; [by exists n|]. by apply IH.
    + replace (filter _ (match process_one_frame (world n) f with Some r => [(j, r)] | None => [] end)) with (@nil (Z * list Z)).
      * by apply IH.
      * by destruct (process_one_frame (world n) f); rewrite ?filter_cons_False.
Qed.

Lemma frame_adu q : request_ok q -> adu (frame_of q).
Proof.
  intros (Ht & Hu & Hf & Hs & Hc). split; [reflexivity|]. split; [reflexivity|].
  assert (Hw : forall x, is_u16 x -> bytes_ok (word x)).
  { intros x Hx. unfold word, is_u16 in *. pose proof (Z.mod_pos_bound x 256). pose proof (Z.div_mod x 256).
    repeat constructor; unfold is_byte; lia. }
  unfold frame_of. repeat (apply Forall_app; split); try (by apply Hw). by repeat apply Forall_cons_2.
Qed.

Lemma wires_frames qs : Forall (fun q => request_ok q /\ q_unit q <> 0xFF) qs -> mapM_ok wire qs = Ok (frame_of <$> qs).
Proof. induction 1 as [|q qs [Hq _] _ IH]; [done|]. cbn [mapM_ok fmap list_fmap]. by rewrite (wire_frame q Hq), IH. Qed.

(** C6. The cache server answers every read request, in order, with what the cache held.  For any interleaving of at most eight connections and any way TCP cuts the streams, a client that sends requests for units other than the gateway's own (0xFF) and whose connection stays open gets exactly one reply per request, in order, with the request's transaction and unit; the client's decoder reads out of it the values the lookups found (coils as bits), and a refusal has the code of the first check that fails: 2 for a disabled cache, 1 for a function that is not a read, 3 for a count out of range, 2 for a range past the address space, then 2 or 0x0B for the first register that is missing or stale. *)
Theorem cache_server_answers world (S : gset Z) k l qs frames :
  (size S <= MBTCP_REASM_MAX_CONNS)%nat -> Forall (fun e => event_sock e ∈ S /\ 0 <= event_sock e) l -> Close k ∉ l ->
  Forall (fun q => request_ok q /\ q_unit q <> 0xFF) qs -> mapM_ok wire qs = Ok frames -> sent k l = concat frames ->
  Forall2 (fun q reply => exists i, answers (world i) q reply) qs (frames_of k (run_server world 0 l mbtcp_reasm_init)).
Proof.
  intros HS Hl Hc Hq Hw Hsent. rewrite (wires_frames qs Hq) in Hw. injection Hw as <-. rewrite (run_server_frames world S l HS 0 _ ∅ init_ok); [|set_solver|done].
  apply serve_all_answers; [done|].
  apply (reasm_frames_exact S k l (frame_of <$> qs) (frame_of (Request 0 0 0 0 0)) []); [done|done|done| | | |cbn; lia].
  - apply Forall_app. split; [|apply Forall_singleton, frame_adu; unfold request_ok, is_u16, is_byte; cbn; lia].
    apply Forall_fmap. eapply Forall_impl; [exact Hq|]. intros q [Hr _]. by apply frame_adu.
  - by rewrite app_nil_r.
  - apply prefix_nil.
Qed.

(** A client whose three requests arrive in two pieces, while the cache fills:
    the second reads a register that is there by then. *)
Definition demo_cache : cache_t := cache (steps (take 6 demo_sections) boot).2.

Definition demo_device : device_env :=
  DeviceEnv 0 0 "" "" "" 0 "" 60 0 0 0 0 0 (fun _ => 0) ESP_RST_POWERON.

Definition demo_world (n : nat) : serving :=
  let c := if (n =? 0)%nat then cache (steps (take 2 demo_sections) boot).2 else demo_cache in
  Serving demo_device c 60 (fun _ => (c, 7000000)).

Definition demo_requests : list request := [Request 1 1 3 10 2; Request 2 1 3 10 2; Request 3 1 5 10 2].

Definition demo_stream : list event :=
  let b := concat (frame_of <$> demo_requests) in [Recv 9 (take 7 b); Recv 5 [0; 1]; Recv 9 (drop 7 b)].

Lemma cache_server_answers_witness :
  Forall2 (fun q reply => exists i, answers (demo_world i) q reply) demo_requests
    (frames_of 9 (run_server demo_world 0 demo_stream mbtcp_reasm_init)) /\
  frames_of 9 (run_server demo_world 0 demo_stream mbtcp_reasm_init) =
    [encode_response (Response 1 1 0x83 [2]); encode_response (Response 2 1 3 [4; 3; 232; 3; 233]); encode_response (Response 3 1 0x85 [1])].
Proof.
  split; [|vm_compute; reflexivity].
  apply (cache_server_answers demo_world {[5; 9]} 9 demo_stream demo_requests (frame_of <$> demo_requests)).
  - vm_compute. lia.
  - unfold demo_stream. repeat apply Forall_cons_2; cbn; try done; (split; [set_solver|lia]).
  - apply (bool_decide_unpack (Close 9 ∉ demo_stream)). reflexivity.
  - unfold demo_requests, request_ok, is_u16, is_byte. repeat apply Forall_cons_2; cbn; try done; lia.
  - reflexivity.
  - reflexivity.
Defined.
