(* ===== verification/CacheTests.v ===== *)
(** * The cache server tests: api_tests/31_test_cache_modbus_server_e2e.py

    The fixture that fills the cache over the serial line and the tests
    CM-01 to CM-07 that read it back over Modbus TCP.  A test sees the gateway
    through HTTP, through a TCP connection, on which whatever the server sends
    in answer to a request arrives in any pieces, and through the UART; what
    the gateway does on each of them is a parameter.

    Theorems: which answers the tests accept, that they accept the firmware
    (the sniffer, the cache and the cache server of the other files), and what
    the fixture leaves behind. *)

From Stdlib Require Import QArith Lqa.
From stdpp Require Import base list gmap strings.
From Stdlib Require Import ZArith Lia.
From S2P Require Import WsTests Prelude PyBytes ModbusCrc RtuFrames StreamSplitter Sniffer SnifferWire MbDevice CachePool MbReasm CacheServer.
From S2P Require Import QemuPorts Gateway NetLog ModbusTcp Sockets ApiClient.

Open Scope Z_scope.
Open Scope py_scope.

(** [(tid, fc, payload)] *)
Definition _recv_one_response : eff sock (Z * Z * list Z) :=
  let* header := recv_exactly MIN_RESPONSE_SIZE in
  let tid := 256 * byte_at header 0 + byte_at header 1 in
  let length := 256 * byte_at header 4 + byte_at header 5 in
  let fc := byte_at header 7 in
  let remaining := length - 2 in
  let* payload := if 0 <? remaining then recv_exactly remaining else ret [] in
  ret (tid, fc, payload).

(** What the gateway does. *)
Record outside (D : Type) := Outside {
  http : ApiClient.request -> D -> outcome ApiClient.response * D;
  probe_code : D -> Z;                              (* connect_ex on the cache port *)
  dial_err : D -> option exn;                       (* what connect raises *)
  send_script : D -> list (option exn);             (* outcomes of sendall on a new connection *)
  reacts : list Z -> D -> list arrival * D;         (* what arrives once this request is sent *)
  uart_connect : D -> option exn * D;
  uart_send : list Z -> D -> option exn * D
}.
Arguments http {D}.
Arguments probe_code {D}.
Arguments dial_err {D}.
Arguments send_script {D}.
Arguments reacts {D}.
Arguments uart_connect {D}.
Arguments uart_send {D}.

(** The UART sockets of the process: those not closed, and what [connect]
    raised in the calls of [open_uart_socket] that failed. *)
Record uart_side := Uart { uart_open : nat; refusals : list exn }.

Record station (D : Type) := Station {
  net : aworld D;
  conn : sock;              (* the socket made last *)
  tcp_open : nat;           (* TCP sockets not closed *)
  uart : uart_side
}.
Arguments Station {D}.
Arguments net {D}.
Arguments conn {D}.
Arguments tcp_open {D}.
Arguments uart {D}.

(** The traffic of the fixture, one burst per exchange. *)
Definition traffic : outcome (list (list Z)) :=
  let? c100 := build_fc01_exchange 1 100 1 1 in
  let? c101 := build_fc01_exchange 1 101 1 0 in
  let? d200 := build_fc02_exchange 1 200 1 1 in
  let? h10 := build_fc03_exchange 1 10 5 1000 in
  let? i300 := build_fc04_exchange 1 300 3 3000 in
  Ok [c100; c101; d200; h10; i300].

Definition EXPECTED_ENTRIES : Z := 11.

(** [d.get(k, default)] *)
Definition get_default (k : string) (dflt : json) (d : json) : outcome json := let? v := py_get k d in Ok (default dflt v).

Section Tests.
Context {D : Type} (o : outside D) (fuel : nat).
Notation St := (station D).

Definition set_net (a : aworld D) (s : St) : St := Station a (conn s) (tcp_open s) (uart s).
Definition set_device (d : D) (a : aworld D) : aworld D := AWorld d (log a) (cookies a) (open_sessions a) (now a) (cost a).

Definition on_net {A} (m : eff (aworld D) A) : eff St A := fun s => let (r, a) := m (net s) in (r, set_net a s).
Definition on_conn {A} (m : eff sock A) : eff St A := fun s =>
  let (r, k) := m (conn s) in (r, Station (net s) k (tcp_open s) (uart s)).
Definition sleep (t : Q) : eff St unit := on_net (asleep t).

(** ** Connections *)

(** [socket.socket(...)] with a timeout set *)
Definition new_socket : eff St unit :=
  modify (fun s => Station (net s) (Sock [] true [] (send_script o (dev (net s))) false) (S (tcp_open s)) (uart s)).
Definition close_socket : eff St unit := fun s =>
  (on_conn sock_close ;;; modify (fun s => Station (net s) (conn s) (pred (tcp_open s)) (uart s))) s.

Definition dial : eff St unit := fun s => match dial_err o (dev (net s)) with Some e => (Raise e, s) | None => (Ok tt, s) end.

Definition with_connection (body : eff St unit) : eff St unit :=
  new_socket ;;; try_finally (dial ;;; body) close_socket.

(** [sock.sendall(req)], and what the server makes of it. *)
Definition send (req : list Z) : eff St unit :=
  on_conn (sock_sendall req) ;;;
  modify (fun s =>
    let (q, d) := reacts o req (dev (net s)) in
    Station (set_device d (net s)) (set_incoming (incoming (conn s) ++ q) (conn s)) (tcp_open s) (uart s)).

Definition ask (tid slave_id fc start_addr count : Z) : eff St (Z * Z * list Z) :=
  let* req := lift (make_mbap_request tid slave_id fc start_addr count) in
  send req ;;;
  on_conn _recv_one_response.

(** The checks on an exception response. *)
Definition refused (tid fc code : Z) (r : Z * Z * list Z) : eff St unit :=
  let '(tid', fc', payload) := r in
  assert (tid' =? tid) ;;;
  assert (fc' =? Z.lor fc 0x80) ;;;
  assert (1 <=? zlen payload) ;;;
  assert (byte_at payload 0 =? code).

(** The checks before the payload of a normal response is decoded. *)
Definition accepted (tid fc : Z) (r : Z * Z * list Z) : eff St (list Z) :=
  let '(tid', fc', payload) := r in
  assert (tid' =? tid) ;;;
  assert (Z.land fc' 0x80 =? 0) ;;;
  assert (fc' =? fc) ;;;
  ret payload.

Definition decodes_to (decoded : outcome (list Z)) (vs : list Z) : eff St unit :=
  let* l := lift decoded in assert (bool_decide (l = vs)).

(** ** The tests *)

Definition test_cm01_fc01_coil_response_lsb_bit_packing : eff St unit :=
  with_connection (
    let* r := ask 1 1 0x01 100 2 in
    let* payload := accepted 1 0x01 r in
    assert (2 <=? zlen payload) ;;;
    assert (byte_at payload 0 =? 1) ;;;
    assert (byte_at payload 1 =? 0x01) ;;;
    decodes_to (decode_fc01_fc02 payload 2) [1; 0]).

Definition test_cm02_fc02_discrete_vs_coil_type_separation : eff St unit :=
  with_connection (
    let* r := ask 2 1 0x02 200 1 in
    let* payload := accepted 2 0x02 r in
    decodes_to (decode_fc01_fc02 payload 1) [1]) ;;;
  with_connection (
    let* r := ask 3 1 0x01 200 1 in
    refused 3 0x01 0x02 r).

Definition test_cm03_fc04_input_vs_holding_type_separation : eff St unit :=
  with_connection (
    let* r := ask 4 1 0x04 300 3 in
    let* payload := accepted 4 0x04 r in
    decodes_to (decode_fc03_fc04 payload 3) [3000; 3001; 3002] ;;;
    let* r := ask 5 1 0x03 300 1 in
    refused 5 0x03 0x02 r).

Definition test_cm04_unsupported_fc_returns_illegal_function : eff St unit :=
  with_connection (
    let* r := ask 1 1 0x05 100 0xFF00 in
    refused 1 0x05 0x01 r).

(** The last answer may be anything but exception 3. *)
Definition not_data_value (tid : Z) (r : Z * Z * list Z) : eff St unit :=
  let '(tid', fc', payload) := r in
  assert (tid' =? tid) ;;;
  if negb (Z.land fc' 0x80 =? 0) then
    assert (1 <=? zlen payload) ;;;
    assert (negb (byte_at payload 0 =? 0x03))
  else ret tt.

Definition test_cm05_fc03_count_boundary_illegal_data_value : eff St unit :=
  with_connection (
    let* r := ask 10 1 0x03 10 0 in
    refused 10 0x03 0x03 r ;;;
    let* r := ask 11 1 0x03 10 126 in
    refused 11 0x03 0x03 r ;;;
    let* r := ask 12 1 0x03 10 125 in
    not_data_value 12 r).

Definition test_cm07_cache_miss_returns_illegal_address : eff St unit :=
  with_connection (
    let* r := ask 7 1 0x03 9990 1 in
    refused 7 0x03 0x02 r).

(** ** Fixtures *)

Definition assert_200 (resp : ApiClient.response) : eff St unit := assert (status_code resp =? 200).

Definition settings_of (enabled port timeout : option json) : json :=
  JObj (match enabled with Some v => [("cache_modbus_server_enabled", v)] | None => [] end ++
        match port with Some v => [("cache_modbus_port", v)] | None => [] end ++
        match timeout with Some v => [("cache_value_timeout_s", v)] | None => [] end)%list.

Definition post_settings (data : json) : eff St ApiClient.response := on_net (update_settings (http o) data).
Definition port_mode (mode : json) : eff St ApiClient.response := on_net (set_port_mode_default (http o) 1 mode).
Definition port_cache (b : bool) : eff St ApiClient.response := on_net (set_port_cache (http o) 1 b).

Definition _baseline : eff St unit :=
  let* resp := post_settings (settings_of (Some (JBool true)) None (Some (JNum 60))) in
  assert_200 resp ;;;
  let* resp := port_mode (JStr "tcp_bridge") in
  assert_200 resp.

(** The skip guard. *)
Definition skip_guard : eff St unit :=
  new_socket ;;;
  let* result := try_finally (fun s => (Ok (probe_code o (dev (net s))), s)) close_socket in
  if negb (result =? 0) then raise PytestSkip else ret tt.

(** [open_uart_socket(port=1)]: the socket is made before the connect, and
    not closed when the connect raises. *)
Definition open_uart : eff St unit := fun s =>
  let (e, d) := uart_connect o (dev (net s)) in
  match e with
  | Some e => (Raise e, Station (set_device d (net s)) (conn s) (tcp_open s) (Uart (S (uart_open (uart s))) (refusals (uart s) ++ [e])))
  | None => (Ok tt, Station (set_device d (net s)) (conn s) (tcp_open s) (Uart (S (uart_open (uart s))) (refusals (uart s))))
  end.
Definition close_uart : eff St unit :=
  modify (fun s => Station (net s) (conn s) (tcp_open s) (Uart (pred (uart_open (uart s))) (refusals (uart s)))).

Definition inject_bytes (data : list Z) : eff St unit := fun s =>
  let (e, d) := uart_send o data (dev (net s)) in
  (match e with Some e => Raise e | None => Ok tt end, set_net (set_device d (net s)) s).

Fixpoint inject_all (l : list (list Z)) : eff St unit :=
  match l with [] => ret tt | data :: l => inject_bytes data ;;; inject_all l end.

(** [st.status_code == 200 and st.json().get("entries", 0) >= 11] *)
Definition filled (st : ApiClient.response) : outcome bool :=
  if status_code st =? 200 then
    let? j := resp_json st in
    let? n := get_default "entries" (JNum 0) j in
    py_ge n (JNum EXPECTED_ENTRIES)
  else Ok false.

(** [while ... else: pytest.fail] *)
Fixpoint fill_loop (fuel : nat) (deadline : Q) : eff St unit :=
  match fuel with
  | O => block
  | S fuel =>
      let* t := on_net anow in
      if negb (Qle_bool deadline t) then
        sleep 1 ;;;
        let* st := on_net (get_cache_status (http o)) in
        let* full := lift (filled st) in
        if full : bool then ret tt else fill_loop fuel deadline
      else raise PytestFail
  end.

(** The original port mode and Modbus port. *)
Definition originals (info : json) : outcome (json * json) :=
  let? p := get_default "rs485_1" (JObj []) info in
  let? mode := get_default "port_mode" (JStr "tcp_bridge") p in
  let? port := get_default "cache_modbus_port" (JNum 504) info in
  Ok (mode, port).

Definition GUEST_PORT : json := JNum _GUEST_CACHE_MODBUS.

(** The [try] block up to the [yield]. *)
Definition populate : eff St unit :=
  let* resp := post_settings (settings_of (Some (JBool true)) (Some GUEST_PORT) (Some (JNum 60))) in
  assert_200 resp ;;;
  sleep 1 ;;;
  let* resp := port_mode (JStr "passive") in
  assert_200 resp ;;;
  let* resp := port_cache true in
  assert_200 resp ;;;
  open_uart ;;;
  try_finally (let* bursts := lift traffic in inject_all bursts) close_uart ;;;
  let* t := on_net anow in
  fill_loop fuel (t + 30).

(** [try: m except Exception: restore_errors.append(...)] *)
Definition failing (m : eff St ApiClient.response) : eff St bool :=
  try_except (m ;;; ret false) (catches Exception_) (fun _ => ret true).

Definition restore (mode port : json) : eff St unit :=
  let* e1 := failing (post_settings (settings_of None (Some port) None)) in
  let* e2 := failing (port_cache false) in
  let* e3 := failing (port_mode mode) in
  if e1 || e2 || e3 then raise AssertionError else ret tt.

(** The fixture around the tests that use it. *)
Definition cache_server_e2e (tests : eff St unit) : eff St unit :=
  skip_guard ;;;
  let* info_resp := on_net (get_info (http o)) in
  assert_200 info_resp ;;;
  let* info := lift (resp_json info_resp) in
  let* original := lift (originals info) in
  try_finally (populate ;;; tests) (restore original.1 original.2).

(** ** The disabled cache *)

Definition cm06_body : eff St unit :=
  let* resp := port_cache false in
  assert_200 resp ;;;
  sleep (1 # 2) ;;;
  with_connection (
    let* r := ask 6 1 0x03 10 1 in
    refused 6 0x03 0x02 r).

Definition cm06_restore (enabled port : json) : eff St unit :=
  let* _ := port_mode (JStr "tcp_bridge") in
  let* _ := post_settings (settings_of (Some enabled) (Some port) None) in
  ret tt.

Definition test_cm06_cache_disabled_returns_illegal_address : eff St unit :=
  let* settings_resp := on_net (get_settings (http o)) in
  assert_200 settings_resp ;;;
  let* orig_settings := lift (resp_json settings_resp) in
  let* original_modbus_port := lift (get_default "cache_modbus_port" (JNum 504) orig_settings) in
  let* original_server_enabled := lift (get_default "cache_modbus_server_enabled" (JBool true) orig_settings) in
  let* resp := post_settings (settings_of (Some (JBool true)) (Some GUEST_PORT) None) in
  assert_200 resp ;;;
  sleep 1 ;;;
  skip_guard ;;;
  try_finally cm06_body (cm06_restore original_server_enabled original_modbus_port).

End Tests.

(** ** What the tests accept *)

(** A response as [_recv_one_response] returns it. *)
Definition parts (r : ModbusTcp.response) : Z * Z * list Z := (r_tid r, r_fc r, r_payload r).

Lemma recv_one_response k : _recv_one_response k = (let* r := receive_response in ret (parts r)) k.
Proof.
  unfold _recv_one_response, receive_response. rewrite bind_bind. unfold bind. destruct (recv_exactly _ k) as [[header|e|] k1]; [|done..].
  destruct (0 <? _); [|done]. by destruct (recv_exactly _ k1) as [[payload|e|] k2].
Qed.

(** A server that sends one frame in answer to a request for unit 1, in any
    pieces. *)
Section Answers.
Context {D : Type} (o : outside D) (P : D -> Prop) (reply : D -> CacheServer.request -> ModbusTcp.response).
Notation St := (station D).

Record answering : Prop := {
  an_dial : forall d, P d -> dial_err o d = None;
  an_script : forall d, P d -> Forall (fun e => e = None) (send_script o d);
  an_reply : forall d q req, P d -> q_unit q = 1 -> CacheServer.wire q = Ok req ->
    ready (reacts o req d).1 = encode_response (reply d q) /\ obstacle (reacts o req d).1 = [] /\ P (reacts o req d).2
}.
Context (Ha : answering).

(** Between two exchanges of an open connection. *)
Record idle (s : St) : Prop := {
  idle_device : P (dev (net s));
  idle_open : is_closed (conn s) = false;
  idle_queue : incoming (conn s) = [];
  idle_script : Forall (fun e => e = None) (send_faults (conn s))
}.

Lemma arrived_empty (q : list arrival) : ready q = [] -> obstacle q = [] -> q = [].
Proof. by destruct q as [|[]]. Qed.

Lemma ask_eq tid fc start count s : idle s ->
  CacheServer.request_ok (CacheServer.Request tid 1 fc start count) ->
  exists s', ask o tid 1 fc start count s = (Ok (parts (reply (dev (net s)) (CacheServer.Request tid 1 fc start count))), s') /\ idle s'.
Proof.
  intros [Hp Ho Hq Hs] Hr. pose proof (wire_frame _ Hr) as Hw. set (q := CacheServer.Request tid 1 fc start count) in *.
  destruct (an_reply Ha (dev (net s)) q (frame_of q) Hp eq_refl Hw) as (Hrd & Hob & Hp').
  unfold ask. change (make_mbap_request tid 1 fc start count) with (CacheServer.wire q). rewrite Hw.
  unfold bind at 1, lift. unfold send. rewrite bind_bind. unfold bind at 1, on_conn at 1. rewrite sendall_ok; [|done|].
  2: { intros e He. destruct (send_faults (conn s)) as [|x l]; [done|]. injection He as ->. by apply Forall_cons in Hs as [? _]. }
  unfold bind at 1, modify. cbn [net conn incoming]. rewrite Hq. cbn [app].
  destruct (reacts o (frame_of q) (dev (net s))) as [arr d]. cbn [fst snd] in *.
  unfold on_conn. rewrite recv_one_response. unfold bind. cbn [conn]. unfold set_incoming. cbn [armed outgoing send_faults is_closed].
  set (k := Sock arr _ _ _ _).
  destruct (receive_framing k (reply (dev (net s)) q) []) as (k' & -> & Hr' & Hob' & _ & Hc' & Hs'); [done|by rewrite app_nil_r|].
  eexists. split; [reflexivity|]. split; [exact Hp'|exact Hc'| |].
  - apply arrived_empty; [done|]. cbn [conn] in *. by rewrite Hob'.
  - cbn [conn]. rewrite Hs'. cbn. by apply Forall_tail.
Qed.

Lemma with_connection_eq (body : eff St unit) s : P (dev (net s)) -> exists s1, idle s1 /\ dev (net s1) = dev (net s) /\
  (with_connection o body s).1 = (body s1).1 /\ dev (net (with_connection o body s).2) = dev (net (body s1).2).
Proof.
  intros Hp. exists (Station (net s) (Sock [] true [] (send_script o (dev (net s))) false) (S (tcp_open s)) (uart s)).
  split; [split; [done|done|done|by apply (an_script Ha)]|]. split; [done|].
  unfold with_connection, new_socket. unfold bind at 1 3. unfold modify. unfold try_finally, bind, dial. cbn [net].
  rewrite (an_dial Ha) by done. by destruct (body _) as [[[]|e|] s2].
Qed.

(** The answers a test takes for a refusal. *)
Definition refusal (tid fc code : Z) (r : ModbusTcp.response) : Prop :=
  r_tid r = tid /\ r_fc r = Z.lor fc 0x80 /\ exists rest, r_payload r = code :: rest.

Definition normal (tid fc : Z) (r : ModbusTcp.response) : Prop := r_tid r = tid /\ r_fc r = fc.

Lemma assert_eq {A} (b : bool) (k : eff St A) (s : St) : (assert b ;;; k) s = if b then k s else (Raise AssertionError, s).
Proof. by destruct b. Qed.

Lemma refused_eq tid fc code r (s : St) : (refused tid fc code (parts r) s).2 = s /\ ((refused tid fc code (parts r) s).1 = Ok tt <-> refusal tid fc code r).
Proof.
  destruct r as [t u f p]. unfold refused, parts, refusal. cbn [r_tid r_fc r_payload]. rewrite !assert_eq. unfold assert.
  destruct (Z.eqb_spec t tid) as [->|]; [|split; [done|]; split; [done|tauto]].
  destruct (Z.eqb_spec f (Z.lor fc 0x80)) as [->|]; [|split; [done|]; split; [done|tauto]].
  destruct p as [|b p]; [split; [done|]; split; [done|by intros (_ & _ & ? & ?)]|].
  rewrite (proj2 (Z.leb_le _ _)) by (unfold zlen; cbn; lia). change (byte_at (b :: p) 0) with b.
  destruct (Z.eqb_spec b code) as [->|]; split; try done; split; try done; [eauto|]. intros (_ & _ & ? & [= ? ?]). done.
Qed.

Lemma accepted_eq {A} tid fc r (k : list Z -> eff St A) (s : St) : Z.land fc 0x80 = 0 ->
  (normal tid fc r /\ (let* p := accepted tid fc (parts r) in k p) s = k (r_payload r) s) \/
  (~ normal tid fc r /\ (let* p := accepted tid fc (parts r) in k p) s = (Raise AssertionError, s)).
Proof.
  intros Hfc. destruct r as [t u f p]. unfold normal, accepted, parts, bind, assert. cbn [r_tid r_fc r_payload].
  destruct (Z.eqb_spec t tid) as [->|]; [|right; split; [tauto|done]].
  destruct (Z.eqb_spec f fc) as [->|]; [left; rewrite Hfc; done|].
  right. split; [tauto|]. by destruct (Z.land f 0x80 =? 0).
Qed.

Notation Req := CacheServer.Request.

Definition passes (m : eff St unit) (s : St) : Prop := (m s).1 = Ok tt.

Lemma passes_seq (m k : eff St unit) s : passes (m ;;; k) s <-> passes m s /\ passes k (m s).2.
Proof. unfold passes, bind. destruct (m s) as [[[]|e|] s1]; cbn; [tauto|by split; [|intros []]..]. Qed.

Lemma passes_refused tid fc code r (s : St) : passes (refused tid fc code (parts r)) s <-> refusal tid fc code r.
Proof. apply refused_eq. Qed.

Lemma passes_decodes x vs (s : St) : (decodes_to x vs s).2 = s /\ (passes (decodes_to x vs) s <-> x = Ok vs).
Proof.
  unfold passes, decodes_to, bind, lift, assert. destruct x as [l|e|]; [|by split..]. split; [by destruct (bool_decide _)|].
  case_bool_decide as E; [by rewrite E|]. split; [done|]. by intros [= ?].
Qed.

Lemma passes_connection (body : eff St unit) s : P (dev (net s)) -> exists s1, idle s1 /\ dev (net s1) = dev (net s) /\
  (passes (with_connection o body) s <-> passes body s1) /\ dev (net (with_connection o body s).2) = dev (net (body s1).2).
Proof.
  intros Hp. destruct (with_connection_eq body s Hp) as (s1 & Hi & Hd & E1 & E2). exists s1. unfold passes. by rewrite E1.
Qed.

(** An exchange and what is made of the answer. *)
Lemma ask_then (k : Z * Z * list Z -> eff St unit) tid fc start count s : idle s -> CacheServer.request_ok (Req tid 1 fc start count) ->
  let r := parts (reply (dev (net s)) (Req tid 1 fc start count)) in
  exists s', idle s' /\ ((let* r := ask o tid 1 fc start count in k r) s).2 = (k r s').2 /\
    (passes (let* r := ask o tid 1 fc start count in k r) s <-> passes (k r) s').
Proof.
  intros Hi Hq. destruct (ask_eq tid fc start count s Hi Hq) as (s' & E & Hi'). exists s'. split; [done|].
  unfold passes, bind. by rewrite E.
Qed.

Lemma passes_accepted tid fc r (k : list Z -> eff St unit) (s : St) : Z.land fc 0x80 = 0 ->
  passes (let* p := accepted tid fc (parts r) in k p) s <-> normal tid fc r /\ passes (k (r_payload r)) s.
Proof. intros Hfc. unfold passes. destruct (accepted_eq tid fc r k s Hfc) as [[Hn ->]|[Hn ->]]; [tauto|]. split; [done|tauto]. Qed.

(** Open the connection of the test; make its next exchange. *)
Ltac connecting s1 Hi Hd :=
  match goal with Hp : P (dev (net ?s)) |- context [with_connection o ?b] =>
    let H := fresh in destruct (passes_connection b s Hp) as (s1 & Hi & _ & H & Hd); rewrite ?H end.
Ltac asking s1 Hi s2 Hi2 Hd :=
  match goal with |- context [passes (bind (ask o ?t 1 ?f ?a ?c) ?k) s1] =>
    let H := fresh in
    destruct (ask_then k t f a c s1 Hi) as (s2 & Hi2 & Hd & H); [unfold request_ok, is_u16, is_byte; cbn; lia|];
    rewrite H; cbv beta end.

(** One refusal on a connection of its own. *)
Lemma passes_refusal_test tid fc start count code s : P (dev (net s)) -> CacheServer.request_ok (Req tid 1 fc start count) ->
  exists d, P d /\
    (passes (with_connection o (let* r := ask o tid 1 fc start count in refused tid fc code r)) s <->
     refusal tid fc code (reply d (Req tid 1 fc start count))).
Proof.
  intros Hp Hq. destruct (passes_connection (let* r := ask o tid 1 fc start count in refused tid fc code r) s Hp) as (s1 & Hi & _ & Hpass & _).
  exists (dev (net s1)). split; [apply Hi|]. rewrite Hpass. destruct (ask_then (refused tid fc code) tid fc start count s1 Hi Hq) as (s2 & _ & _ & H).
  rewrite H. apply passes_refused.
Qed.

Lemma passes_cm01 s : P (dev (net s)) -> exists d, P d /\
  let r := reply d (Req 1 1 1 100 2) in
  (passes (test_cm01_fc01_coil_response_lsb_bit_packing o) s <-> normal 1 1 r /\ exists rest, r_payload r = 1 :: 1 :: rest).
Proof.
  intros Hp. unfold test_cm01_fc01_coil_response_lsb_bit_packing. connecting s1 Hi Hd.
  exists (dev (net s1)). split; [apply Hi|]. cbv zeta. rewrite H. asking s1 Hi s2 Hi2 Hd2.
  rewrite passes_accepted by done. set (p := r_payload _). clearbody p. apply and_iff_compat_l. unfold passes. rewrite !assert_eq.
  destruct p as [|a [|b p]]; [by split; [|intros [? ?]]..|].
  rewrite (proj2 (Z.leb_le _ _)) by (unfold zlen; cbn; lia).
  change (byte_at (a :: b :: p) 0) with a. change (byte_at (a :: b :: p) 1) with b.
  destruct (Z.eqb_spec a 1) as [->|]; [|split; [done|by intros [? [= ? ?]]]].
  destruct (Z.eqb_spec b 1) as [->|]; [|split; [done|by intros [? [= ?]]]].
  split; [by eauto|]. intros _. apply passes_decodes. unfold decode_fc01_fc02.
  rewrite (proj2 (Z.ltb_ge _ _)) by (unfold zlen; cbn; lia). reflexivity.
Qed.

Lemma passes_cm02 s : P (dev (net s)) -> exists d d', P d /\ P d' /\
  let r := reply d (Req 2 1 2 200 1) in
  (passes (test_cm02_fc02_discrete_vs_coil_type_separation o) s <->
   (normal 2 2 r /\ decode_fc01_fc02 (r_payload r) 1 = Ok [1]) /\ refusal 3 1 2 (reply d' (Req 3 1 1 200 1))).
Proof.
  intros Hp. unfold test_cm02_fc02_discrete_vs_coil_type_separation. connecting s1 Hi Hd. exists (dev (net s1)).
  revert H Hd. asking s1 Hi s2 Hi2 Hd2. intros Hpass Hd. rewrite passes_accepted in Hpass by done. rewrite Hd2 in Hd.
  assert (Hp' : P (dev (net (with_connection o (let* r := ask o 2 1 2 200 1 in let* payload := accepted 2 2 r in
      decodes_to (decode_fc01_fc02 payload 1) [1]) s).2))).
  { rewrite Hd. set (r := reply _ _). destruct (accepted_eq 2 2 r (fun p => decodes_to (decode_fc01_fc02 p 1) [1]) s2 eq_refl) as [[_ ->]|[_ ->]];
      [rewrite (proj1 (passes_decodes _ _ _))|]; apply Hi2. }
  destruct (passes_refusal_test 3 1 200 1 2 _ Hp') as (d' & Hd' & Href); [unfold request_ok, is_u16, is_byte; cbn; lia|].
  exists d'. split; [apply Hi|]. split; [done|]. cbv zeta. rewrite passes_seq, Hpass, Href.
  by rewrite (proj2 (passes_decodes _ _ _)).
Qed.

Lemma passes_cm03 s : P (dev (net s)) -> exists d d', P d /\ P d' /\
  let r := reply d (Req 4 1 4 300 3) in
  (passes (test_cm03_fc04_input_vs_holding_type_separation o) s <->
   normal 4 4 r /\ decode_fc03_fc04 (r_payload r) 3 = Ok [3000; 3001; 3002] /\ refusal 5 3 2 (reply d' (Req 5 1 3 300 1))).
Proof.
  intros Hp. unfold test_cm03_fc04_input_vs_holding_type_separation. connecting s1 Hi Hd.
  revert H. asking s1 Hi s2 Hi2 Hd2. intros Hpass. exists (dev (net s1)), (dev (net s2)). split; [apply Hi|]. split; [apply Hi2|].
  cbv zeta. rewrite Hpass, passes_accepted by done. rewrite passes_seq. destruct (passes_decodes (decode_fc03_fc04 (r_payload (reply (dev (net s1)) (Req 4 1 4 300 3))) 3) [3000; 3001; 3002] s2) as [-> ->].
  asking s2 Hi2 s3 Hi3 Hd3. by rewrite passes_refused.
Qed.

Lemma passes_cm05 s : P (dev (net s)) -> exists d1 d2 d3, P d1 /\ P d2 /\ P d3 /\
  let r := reply d3 (Req 12 1 3 10 125) in
  (passes (test_cm05_fc03_count_boundary_illegal_data_value o) s <->
   refusal 10 3 3 (reply d1 (Req 10 1 3 10 0)) /\ refusal 11 3 3 (reply d2 (Req 11 1 3 10 126)) /\
   r_tid r = 12 /\ (Z.land (r_fc r) 0x80 <> 0 -> exists code rest, r_payload r = code :: rest /\ code <> 3)).
Proof.
  intros Hp. unfold test_cm05_fc03_count_boundary_illegal_data_value. connecting s1 Hi Hd.
  revert H. asking s1 Hi s2 Hi2 Hd2. rewrite passes_seq, passes_refused. rewrite (proj1 (refused_eq _ _ _ _ _)).
  asking s2 Hi2 s3 Hi3 Hd3. rewrite passes_seq, passes_refused. rewrite (proj1 (refused_eq _ _ _ _ _)). asking s3 Hi3 s4 Hi4 Hd4.
  intros Hpass. exists (dev (net s1)), (dev (net s2)), (dev (net s3)). split; [apply Hi|]. split; [apply Hi2|]. split; [apply Hi3|].
  cbv zeta. rewrite Hpass. do 2 apply and_iff_compat_l.
  destruct (reply (dev (net s3)) (Req 12 1 3 10 125)) as [t u f p]. unfold passes, not_data_value, parts. cbn [r_tid r_fc r_payload].
  rewrite !assert_eq. destruct (Z.eqb_spec t 12) as [->|]; [|by split; [|intros [? _]]].
  destruct (Z.eqb_spec (Z.land f 0x80) 0) as [E|E]; cbn [negb]; [by split|].
  rewrite assert_eq. unfold assert. destruct p as [|c p]; [split; [done|]; intros [_ Hn]; by destruct (Hn E) as (? & ? & ? & _)|].
  rewrite (proj2 (Z.leb_le _ _)) by (unfold zlen; cbn; lia). change (byte_at (c :: p) 0) with c.
  destruct (Z.eqb_spec c 3) as [->|]; cbn [negb]; split; try done; [|by eauto 8].
  intros [_ Hn]. by destruct (Hn E) as (? & ? & [= -> _] & ?).
Qed.
End Answers.

(** C19. What the cache server tests look at.  On a server that answers each request with one frame, in any pieces, each of CM-01 to CM-05 and CM-07 passes exactly when the frames have the transaction, the function and the payload stated here: the packed byte of CM-01, the decoded values of CM-02 and CM-03, the exception codes, and for 125 registers anything but exception 3.  The unit of an answer and bytes after the ones that are read make no difference. *)
Theorem cm_tests_exact {D} (o : outside D) (P : D -> Prop) (f : CacheServer.request -> ModbusTcp.response) s :
  answering o P (fun _ => f) -> P (dev (net s)) ->
  let ok01 := f (CacheServer.Request 1 1 1 100 2) in
  let ok02 := f (CacheServer.Request 2 1 2 200 1) in
  let ok03 := f (CacheServer.Request 4 1 4 300 3) in
  let max := f (CacheServer.Request 12 1 3 10 125) in
  (passes (test_cm01_fc01_coil_response_lsb_bit_packing o) s <-> normal 1 1 ok01 /\ exists rest, r_payload ok01 = 1 :: 1 :: rest) /\
  (passes (test_cm02_fc02_discrete_vs_coil_type_separation o) s <->
     (normal 2 2 ok02 /\ decode_fc01_fc02 (r_payload ok02) 1 = Ok [1]) /\ refusal 3 1 2 (f (CacheServer.Request 3 1 1 200 1))) /\
  (passes (test_cm03_fc04_input_vs_holding_type_separation o) s <->
     normal 4 4 ok03 /\ decode_fc03_fc04 (r_payload ok03) 3 = Ok [3000; 3001; 3002] /\
     refusal 5 3 2 (f (CacheServer.Request 5 1 3 300 1))) /\
  (passes (test_cm04_unsupported_fc_returns_illegal_function o) s <-> refusal 1 5 1 (f (CacheServer.Request 1 1 5 100 0xFF00))) /\
  (passes (test_cm05_fc03_count_boundary_illegal_data_value o) s <->
     refusal 10 3 3 (f (CacheServer.Request 10 1 3 10 0)) /\ refusal 11 3 3 (f (CacheServer.Request 11 1 3 10 126)) /\
     r_tid max = 12 /\ (Z.land (r_fc max) 0x80 <> 0 -> exists code rest, r_payload max = code :: rest /\ code <> 3)) /\
  (passes (test_cm07_cache_miss_returns_illegal_address o) s <-> refusal 7 3 2 (f (CacheServer.Request 7 1 3 9990 1))).
Proof.
  intros Ha Hp. cbv zeta. split_and!.
  - by destruct (passes_cm01 o P (fun _ => f) Ha s Hp) as (d & _ & H).
  - by destruct (passes_cm02 o P (fun _ => f) Ha s Hp) as (d & d' & _ & _ & H).
  - by destruct (passes_cm03 o P (fun _ => f) Ha s Hp) as (d & d' & _ & _ & H).
  - destruct (passes_refusal_test o P (fun _ => f) Ha 1 5 100 0xFF00 1 s Hp) as (d & _ & H); [unfold request_ok, is_u16, is_byte; cbn; lia|done].
  - by destruct (passes_cm05 o P (fun _ => f) Ha s Hp) as (d1 & d2 & d3 & _ & _ & _ & H).
  - destruct (passes_refusal_test o P (fun _ => f) Ha 7 3 9990 1 2 s Hp) as (d & _ & H); [unfold request_ok, is_u16, is_byte; cbn; lia|done].
Qed.

(** ** The firmware *)

(** What the cache task does with a packet of the sniffer. *)
Definition apply_event (now_us : Z) (e : cache_event) (c : cache_t) : cache_t :=
  match e with
  | OnRequest port slave_id function start_reg count => cache_multimaster_on_request port slave_id function start_reg count c
  | OnResponse port slave_id function data timestamp_us => cache_multimaster_on_response port slave_id function data timestamp_us now_us c
  | ClearPending port => cache_multimaster_clear_pending port c
  end.

(** A burst on the first serial port: the sniffer cuts and labels it, the cache
    takes the packets. *)
Definition take_burst (at_us : Z) (data : list Z) (x : cache_t * Sniffer.port) : cache_t * Sniffer.port :=
  match sniffer_process 0 (fun _ => FrameIo at_us true true true) data x.2 with
  | Some (_, p) =>
      (fold_left (fun c pkt => apply_event at_us (cache_feed pkt) c) (sniff_queue p) x.1,
       Port (Sniffer.ctx p) (Sniffer.armed p) (commands p) [] (expiring p) (tasks p))
  | None => x
  end.

Fixpoint take_bursts (at_us : nat -> Z) (i : nat) (l : list (list Z)) (x : cache_t * Sniffer.port) : cache_t * Sniffer.port :=
  match l with [] => x | data :: l => take_bursts at_us (S i) l (take_burst (at_us i) data x) end.

(** The cache overlay enabled on an idle port, and the traffic of the fixture. *)
Definition populated (enabled_us : Z) (at_us : nat -> Z) : cache_t :=
  let c := (cache_multimaster_enable true enabled_us (cache boot)).2 in
  let p := set_ctx (sniffer_enable SNIFF_REASON_CACHE init_ctx) (init_port 1) in
  match traffic with Ok l => (take_bursts at_us 0 l (c, p)).1 | _ => c end.

(** The value and the stamp a lookup meets. *)
Fixpoint entry_for (slave_id fc address : Z) (pool : list cache_entry_t) : option (Z * Z) :=
  match pool with
  | [] => None
  | e :: pool =>
      if negb (used e) then None
      else if entry_is slave_id fc address e then Some (e_value e, e_stamp_s e)
      else entry_for slave_id fc address pool
  end.

Lemma lookup_entry_for s fc a t now pool :
  lookup_pool s fc a t now pool =
  match entry_for s fc a pool with Some (v, stamp) => age_verdict v stamp t now | None => CACHE_LOOKUP_NOT_FOUND end.
Proof. induction pool as [|e pool IH]; [done|]. cbn. destruct (negb (used e)); [done|]. by destruct (entry_is s fc a e). Qed.

(** The server runs on the populated cache, and no value is a minute old. *)
Record serves (enabled_us : Z) (at_us : nat -> Z) (sv : serving) : Prop := {
  sv_enabled : s_cache_enabled (sv_cache sv) = true;
  sv_timeout : sv_value_timeout_s sv = 60;
  sv_holds : forall i, (sv_moment sv i).1 = populated enabled_us at_us;
  sv_fresh : forall i j, (j < 5)%nat -> ((sv_moment sv i).2 / 1000000 - at_us j / 1000000) mod 65536 < 60
}.

Definition populated_pool (enabled_us : Z) (at_us : nat -> Z) : list cache_entry_t := default [] (s_pool (populated enabled_us at_us)).

Lemma populated_up enabled_us at_us :
  s_pool (populated enabled_us at_us) = Some (populated_pool enabled_us at_us) /\ s_cache_mutex (populated enabled_us at_us) = true.
Proof.
  split; [|cbv -[cache_now_s16]; reflexivity]. unfold populated_pool.
  assert (bool_decide (is_Some (s_pool (populated enabled_us at_us))) = true) as H by (cbv -[cache_now_s16]; reflexivity).
  apply bool_decide_eq_true in H as [pool ->]. done.
Qed.

Section Served.
Context {enabled_us : Z} {at_us : nat -> Z} {sv : serving} (Hs : serves enabled_us at_us sv).

Lemma look_entry fc i a : 1 <= fc <= 4 ->
  look_of sv 1 fc i a =
  match entry_for 1 fc a (populated_pool enabled_us at_us) with
  | Some (v, stamp) => age_verdict v stamp 60 (sv_moment sv i).2
  | None => CACHE_LOOKUP_NOT_FOUND
  end.
Proof.
  intros Hf. pose proof (sv_holds _ _ _ Hs i) as Hc. unfold look_of. destruct (sv_moment sv i) as [c now]. cbn in Hc. subst c.
  rewrite (sv_timeout _ _ _ Hs). change (u16 60) with 60. unfold cache_multimaster_lookup. destruct (populated_up enabled_us at_us) as [-> ->].
  assert (cache_fc_is_cacheable fc = true) as -> by (unfold cache_fc_is_cacheable; rewrite !(proj2 (Z.leb_le _ _)) by lia; done).
  apply lookup_entry_for.
Qed.

(** A register of burst [j] is found, whatever the moment. *)
Lemma look_found fc i a v j : 1 <= fc <= 4 -> (j < 5)%nat ->
  entry_for 1 fc a (populated_pool enabled_us at_us) = Some (v, cache_now_s16 (at_us j)) -> look_of sv 1 fc i a = CACHE_LOOKUP_FOUND v.
Proof.
  intros Hf Hj E. rewrite look_entry, E by done. unfold age_verdict.
  change (cache_now_s16 (at_us j)) with (u16 (at_us j / 1000000)). rewrite age_u16.
  pose proof (sv_fresh _ _ _ Hs i j Hj). rewrite (proj2 (Z.leb_gt _ _)) by done. by rewrite andb_false_r.
Qed.
End Served.

(** ** The firmware's answers *)

Lemma collect_not_3 rs code : collect rs = Refused code -> code = 2 \/ code = 0x0B.
Proof.
  induction rs as [|[|v|v] rs IH]; cbn [collect]; [done|by intros [= <-]; left| |by intros [= <-]; right].
  destruct (collect rs) as [vs|e]; [done|]. intros [= <-]. by apply IH.
Qed.

(** The frame of an answer, taken apart. *)
Definition parse_response (f : list Z) : ModbusTcp.response :=
  ModbusTcp.Response (256 * byte_at f 0 + byte_at f 1) (byte_at f 6) (byte_at f 7) (drop 8 f).

Lemma parse_encode r : parse_response (encode_response r) = r.
Proof.
  destruct r as [t u f p]. unfold parse_response, encode_response. cbn [r_tid r_unit r_fc r_payload].
  change (256 * byte_at _ 0 + byte_at _ 1) with (256 * (t / 256) + t mod 256). rewrite u16_join. cbn. by rewrite drop_0.
Qed.

Definition firmware_reply (sv : serving) (q : CacheServer.request) : ModbusTcp.response :=
  parse_response (default [] (process_one_frame sv (frame_of q))).

Lemma firmware_reply_answers sv q : request_ok q -> q_unit q = 1 ->
  process_one_frame sv (frame_of q) = Some (encode_response (firmware_reply sv q)) /\
  CacheServer.answers sv q (encode_response (firmware_reply sv q)) /\ r_tid (firmware_reply sv q) = q_tid q.
Proof.
  intros Hq Hu. destruct (frame_answered sv q Hq) as (reply & E & r & -> & Ht & H); [by rewrite Hu|].
  unfold firmware_reply. rewrite E. cbn [default from_option id]. rewrite parse_encode. split; [done|]. split; [|done]. by exists r.
Qed.

Lemma reply_values sv q vs : request_ok q -> q_unit q = 1 -> due sv q = Values vs ->
  normal (q_tid q) (q_fc q) (firmware_reply sv q) /\ decode_response (q_fc q) (r_payload (firmware_reply sv q)) (q_count q) = Ok vs.
Proof.
  intros Hq Hu Hd. destruct (frame_answered sv q Hq) as (reply & E & r & -> & Ht & _ & H); [by rewrite Hu|].
  rewrite Hd in H. unfold firmware_reply. rewrite E. cbn [default from_option id]. rewrite parse_encode. by destruct H.
Qed.

Lemma reply_refused sv q code : request_ok q -> q_unit q = 1 -> due sv q = Refused code ->
  refusal (q_tid q) (q_fc q) code (firmware_reply sv q).
Proof.
  intros Hq Hu Hd. destruct (frame_answered sv q Hq) as (reply & E & r & -> & Ht & _ & H); [by rewrite Hu|].
  rewrite Hd in H. unfold firmware_reply. rewrite E. cbn [default from_option id]. rewrite parse_encode. destruct H as [Hf Hp].
  split; [done|]. split; [done|]. by exists [].
Qed.

Lemma due_collect sv q : s_cache_enabled (sv_cache sv) = true -> cache_fc_is_cacheable (q_fc q) = true ->
  0 < q_count q <= cache_fc_max_count (q_fc q) -> q_start q + q_count q <= 65536 ->
  due sv q = match collect (found sv q) with Values vs => Values (shown (q_fc q) <$> vs) | Refused e => Refused e end.
Proof.
  intros He Hf Hc Ha. unfold due. rewrite He, Hf, (proj2 (Z.eqb_neq _ _)), !(proj2 (Z.ltb_ge _ _)) by lia. done.
Qed.

Section Replies.
Context {enabled_us : Z} {at_us : nat -> Z} {sv : serving} (Hs : serves enabled_us at_us sv).
Notation Req := CacheServer.Request.

Lemma due_fetch q : cache_fc_is_cacheable (q_fc q) = true ->
  0 < q_count q <= cache_fc_max_count (q_fc q) -> q_start q + q_count q <= 65536 ->
  due sv q = match collect (found sv q) with Values vs => Values (shown (q_fc q) <$> vs) | Refused e => Refused e end.
Proof. apply due_collect, (sv_enabled _ _ _ Hs). Qed.

(** Lookups evaluated: a register of burst [j], and one that was never sent. *)
Ltac fetch n := rewrite due_fetch by (done || (cbn; lia)); unfold found; cbn [q_unit q_fc q_start q_count];
  change (Z.to_nat _) with n; cbn [seq fmap list_fmap].
Ltac hit fc i v j := rewrite (look_found Hs fc i _ v j) by (lia || (cbv -[cache_now_s16]; reflexivity)).
Ltac miss fc a :=
  rewrite (look_entry Hs) by lia; change (entry_for 1 fc _ _) with (entry_for 1 fc a (populated_pool enabled_us at_us));
  assert (entry_for 1 fc a (populated_pool enabled_us at_us) = None) as -> by (cbv -[cache_now_s16]; reflexivity).

Lemma due_coils : due sv (Req 2 1 2 200 1) = Values [1] /\ due sv (Req 3 1 1 200 1) = Refused 2.
Proof. split; fetch 1%nat; [by hit 2 0%nat 1 2%nat|by miss 1 200]. Qed.

Lemma due_registers : due sv (Req 4 1 4 300 3) = Values [3000; 3001; 3002] /\ due sv (Req 5 1 3 300 1) = Refused 2 /\
  due sv (Req 7 1 3 9990 1) = Refused 2.
Proof.
  split; [fetch 3%nat; hit 4 0%nat 3000 4%nat; hit 4 1%nat 3001 4%nat; by hit 4 2%nat 3002 4%nat|].
  split; fetch 1%nat; [by miss 3 300|by miss 3 9990].
Qed.

(** The checks that come before any lookup. *)
Lemma due_early : due sv (Req 1 1 5 100 0xFF00) = Refused 1 /\ due sv (Req 10 1 3 10 0) = Refused 3 /\ due sv (Req 11 1 3 10 126) = Refused 3.
Proof. unfold due. by rewrite (sv_enabled _ _ _ Hs). Qed.

Lemma due_largest : match due sv (Req 12 1 3 10 125) with Values _ => True | Refused code => code <> 3 end.
Proof.
  rewrite due_fetch by (done || (cbn; lia)). destruct (collect _) as [vs|e] eqn:E; [done|].
  apply collect_not_3 in E. lia.
Qed.

Lemma reply_packed : firmware_reply sv (Req 1 1 1 100 2) = ModbusTcp.Response 1 1 1 [1; 1].
Proof.
  assert (E : build_coil_response (look_of sv 1 1) 1 1 (word 1) 100 2 = inl (encode_response (ModbusTcp.Response 1 1 1 [1; 1]))).
  { unfold build_coil_response. change ((2 =? 0) || (MB_MAX_COILS <? 2)) with false. change (0x10000 <? 100 + 2) with false.
    cbv beta iota zeta. change (Z.to_nat 2) with 2%nat. cbn [coil_cells].
    rewrite (look_found Hs 1 0 _ 1 0), (look_found Hs 1 1 _ 0 1) by (lia || (cbv -[cache_now_s16]; reflexivity)). reflexivity. }
  unfold firmware_reply, process_one_frame. rewrite (sv_enabled _ _ _ Hs).
  change (parse_response (default [] (match build_coil_response (look_of sv 1 1) 1 1 (word 1) 100 2 with
    | inl resp => Some resp | inr e => Some (build_exception (word 1) 1 1 e) end)) = ModbusTcp.Response 1 1 1 [1; 1]).
  rewrite E. apply parse_encode.
Qed.

Lemma reply_largest : let r := firmware_reply sv (Req 12 1 3 10 125) in
  r_tid r = 12 /\ (Z.land (r_fc r) 0x80 <> 0 -> exists code rest, r_payload r = code :: rest /\ code <> 3).
Proof.
  cbv zeta. pose proof due_largest as Hd. assert (Hq : request_ok (Req 12 1 3 10 125)) by done.
  destruct (due sv (Req 12 1 3 10 125)) as [vs|code] eqn:E.
  - apply reply_values in E as [[-> ->] _]; [|done..]. split; [done|]. by intros [].
  - apply reply_refused in E as (-> & _ & rest & ->); [|done..]. split; [done|]. by exists code, rest.
Qed.
End Replies.

Lemma firmware_answering {D} (o : outside D) (P : D -> Prop) (sv_of : D -> serving) :
  (forall d, P d -> dial_err o d = None /\ Forall (fun e => e = None) (send_script o d)) ->
  (forall d req, P d -> ready (reacts o req d).1 = default [] (process_one_frame (sv_of d) req) /\
     obstacle (reacts o req d).1 = [] /\ P (reacts o req d).2) ->
  answering o P (fun d => firmware_reply (sv_of d)).
Proof.
  intros Hdial Hreact. split; [by intros d Hd; apply Hdial|by intros d Hd; apply Hdial|]. intros d q req Hd Hu Hw.
  destruct (Hreact d req Hd) as (Hr & Ho & Hn). split; [|done]. rewrite Hr.
  assert (Hq : request_ok q) by (by apply (wire_ok q req)). rewrite (wire_frame q Hq) in Hw. injection Hw as <-.
  by destruct (firmware_reply_answers (sv_of d) q Hq Hu) as [-> _].
Qed.

(** C15. The tests accept the firmware.  When the sniffer and the cache of the firmware have taken the fixture's traffic, at any times, and the cache server answers from that cache before any value is a minute old, CM-01 to CM-05 and CM-07 pass, at any moment and however the answers are cut. *)
Theorem cm_tests_accept_firmware {D} (o : outside D) (P : D -> Prop) (sv_of : D -> serving) enabled_us at_us s :
  (forall d, P d -> serves enabled_us at_us (sv_of d)) ->
  (forall d, P d -> dial_err o d = None /\ Forall (fun e => e = None) (send_script o d)) ->
  (forall d req, P d -> ready (reacts o req d).1 = default [] (process_one_frame (sv_of d) req) /\
     obstacle (reacts o req d).1 = [] /\ P (reacts o req d).2) ->
  P (dev (net s)) ->
  Forall (fun test => passes (test D o) s)
    [@test_cm01_fc01_coil_response_lsb_bit_packing; @test_cm02_fc02_discrete_vs_coil_type_separation;
     @test_cm03_fc04_input_vs_holding_type_separation; @test_cm04_unsupported_fc_returns_illegal_function;
     @test_cm05_fc03_count_boundary_illegal_data_value; @test_cm07_cache_miss_returns_illegal_address].
Proof.
  intros Hserves Hdial Hreact Hp.
  pose proof (firmware_answering o P sv_of Hdial Hreact) as Ha.
  repeat apply Forall_cons_2; [..|apply Forall_nil_2].
  - destruct (passes_cm01 o P _ Ha s Hp) as (d & Hd & H). apply H. rewrite (reply_packed (Hserves d Hd)). split; [done|]. by exists [].
  - destruct (passes_cm02 o P _ Ha s Hp) as (d & d' & Hd & Hd' & H). apply H.
    destruct (due_coils (Hserves d Hd)) as [H1 _], (due_coils (Hserves d' Hd')) as [_ H2].
    by split; [apply reply_values in H1|apply reply_refused in H2].
  - destruct (passes_cm03 o P _ Ha s Hp) as (d & d' & Hd & Hd' & H). apply H.
    destruct (due_registers (Hserves d Hd)) as [H1 _], (due_registers (Hserves d' Hd')) as (_ & H2 & _).
    apply reply_values in H1 as [? ?]; [|done..]. by apply reply_refused in H2.
  - destruct (passes_refusal_test o P _ Ha 1 5 100 0xFF00 1 s Hp) as (d & Hd & H); [done|]. apply H.
    by apply (reply_refused (sv_of d) (CacheServer.Request 1 1 5 100 0xFF00)), (due_early (Hserves d Hd)).
  - destruct (passes_cm05 o P _ Ha s Hp) as (d1 & d2 & d3 & Hd1 & Hd2 & Hd3 & H). apply H.
    destruct (due_early (Hserves d1 Hd1)) as (_ & H1 & _), (due_early (Hserves d2 Hd2)) as (_ & _ & H2).
    split; [by apply reply_refused in H1|]. split; [by apply reply_refused in H2|]. exact (reply_largest (Hserves d3 Hd3)).
  - destruct (passes_refusal_test o P _ Ha 7 3 9990 1 2 s Hp) as (d & Hd & H); [done|]. apply H.
    by apply (reply_refused (sv_of d) (CacheServer.Request 7 1 3 9990 1)), (due_registers (Hserves d Hd)).
Qed.

(** ** The disabled cache *)

(** A cache without a pool refuses the read of CM-06 with 2, whether or not the
    server looks at the flag. *)
Lemma due_without_pool sv tid : (forall i, s_pool (sv_moment sv i).1 = None) -> due sv (CacheServer.Request tid 1 3 10 1) = Refused 2.
Proof.
  intros Hn. destruct (s_cache_enabled (sv_cache sv)) eqn:E; [|unfold due; by rewrite E].
  rewrite due_collect by (done || (cbn; lia)). unfold found. cbn [q_unit q_fc q_start q_count]. change (Z.to_nat 1) with 1%nat.
  cbn [seq fmap list_fmap]. unfold look_of. specialize (Hn 0%nat). destruct (sv_moment sv 0) as [c now]. cbn in Hn.
  unfold cache_multimaster_lookup. rewrite Hn. by destruct (negb (s_cache_mutex c)), (negb (cache_fc_is_cacheable 3)).
Qed.

Lemma disabled_without_pool now c : s_cache_mutex c = true ->
  s_pool (cache_multimaster_disable now c) = None /\ s_cache_enabled (cache_multimaster_disable now c) = false.
Proof.
  intros Hm. unfold cache_multimaster_disable, free_pool, cache_multimaster_clear, set_enabled. cbn [s_cache_mutex s_pool]. rewrite Hm.
  cbn [negb]. generalize (replicate CACHE_MAX_ENTRIES free_entry). intros pool. by destruct (s_pool c).
Qed.

(** ** What is left behind *)

Section LeftBehind.
Context {D : Type} (o : outside D) (Hhttp : forall q d, NetLog.answers (http o q d).1).
Notation St := (station D).

(** The code ends, closes the sockets it opened, and keeps [I]. *)
Definition keeps (I : St -> Prop) {A} (m : eff St A) : Prop := forall s, I s ->
  settled (m s).1 /\ tcp_open (m s).2 = tcp_open s /\ uart (m s).2 = uart s /\ I (m s).2.

Section Generic.
Context {I : St -> Prop}.

Lemma keeps_still {A} (r : outcome A) : settled r -> keeps I (lift r).
Proof. by intros Hr s Hs. Qed.
Lemma keeps_assert b : keeps I (assert b).
Proof. intros s Hs. by destruct b. Qed.

Lemma keeps_bind {A B} (m : eff St A) (k : A -> eff St B) : keeps I m -> (forall a, keeps I (k a)) -> keeps I (bind m k).
Proof.
  intros Hm Hk s Hs. unfold bind. destruct (Hm s Hs) as (H1 & H2 & H3 & H4). destruct (m s) as [[a|e|] s1]; cbn [fst snd] in *; [|done|done].
  destruct (Hk a s1 H4) as (K1 & K2 & K3 & K4). split_and!; [done|congruence|congruence|done].
Qed.

Lemma keeps_finally {A} (m : eff St A) f : keeps I m -> keeps I f -> keeps I (try_finally m f).
Proof.
  intros Hm Hf s Hs. unfold try_finally. destruct (Hm s Hs) as (H1 & H2 & H3 & H4). destruct (m s) as [[a|e|] s1]; cbn [fst snd] in *; [| |done].
  all: destruct (Hf s1 H4) as (K1 & K2 & K3 & K4); destruct (f s1) as [[[]|e'|] s2]; cbn [fst snd] in *; by split_and!; try congruence.
Qed.

Lemma keeps_except {A} (m : eff St A) c h : keeps I m -> (forall e, keeps I (h e)) -> keeps I (try_except m c h).
Proof.
  intros Hm Hh s Hs. unfold try_except. destruct (Hm s Hs) as (H1 & H2 & H3 & H4). destruct (m s) as [[a|e|] s1]; cbn [fst snd] in *; [done| |done].
  destruct (c e); [|done]. destruct (Hh e s1 H4) as (K1 & K2 & K3 & K4). split_and!; [done|congruence|congruence|done].
Qed.
End Generic.

Definition patient (s : St) : Prop := forall n, (0 <= cost (net s) n)%Q.
Definition live (s : St) : Prop := patient s /\ is_closed (conn s) = false /\ armed (conn s) = true.

Lemma http_settled q d : settled (http o q d).1.
Proof. specialize (Hhttp q d). by destruct (http o q d).1. Qed.

Lemma keeps_request q : keeps patient (on_net (session_request (http o) q)).
Proof.
  intros s Hs. unfold on_net. pose proof (session_request_settled (http o) q (net s) http_settled) as H.
  destruct (session_request_spec (http o) q (net s)) as (r & d & t & c & E & _ & _). rewrite E in *. done.
Qed.

Lemma keeps_sleep t : keeps patient (sleep t).
Proof. by intros s Hs. Qed.

Lemma mode_attempts_cost more q settle_s (w : aworld D) : cost (mode_attempts (http o) more q settle_s w).2 = cost w.
Proof.
  revert w. induction more as [|more IH]; intros w; cbn [mode_attempts]; unfold bind;
    destruct (session_request_spec (http o) q w) as (r & d & t & c & -> & _ & _); destruct r as [resp|e|]; try done;
    destruct (negb (transient resp)); try done. unfold asleep, modify. by rewrite IH.
Qed.

Lemma keeps_mode mode : keeps patient (port_mode o mode).
Proof.
  intros s Hs. unfold port_mode, on_net, set_port_mode_default, set_port_mode.
  pose proof (mode_attempts_settled (http o) 2 (mode_request 1 mode) (1 # 2) (net s) http_settled) as H.
  pose proof (mode_attempts_cost 2 (mode_request 1 mode) (1 # 2) (net s)) as Hc.
  destruct (mode_attempts (http o) 2 (mode_request 1 mode) (1 # 2) (net s)) as [r a]. cbn in *. split_and!; [done..|].
  intros n. cbn. rewrite Hc. apply Hs.
Qed.

(** A connection is closed whatever happens on it. *)
Lemma keeps_connection body : keeps live body -> keeps patient (with_connection o body).
Proof.
  intros Hb s Hs. unfold with_connection, new_socket. unfold bind at 1. unfold modify. unfold try_finally, bind, dial. cbn [net].
  destruct (dial_err o (dev (net s))); [by split_and!|]. set (s1 := Station _ _ _ _).
  destruct (Hb s1) as (H1 & H2 & H3 & H4 & _); [by split_and!|].
  destruct (body s1) as [[[]|e|] s2]; cbn in H1, H2, H3 |- *; [| |done]; (split_and!; [done|by rewrite H2|by rewrite H3|done]).
Qed.

Lemma keeps_ask tid slave fc start count : keeps live (ask o tid slave fc start count).
Proof.
  unfold ask. apply keeps_bind; [apply keeps_still|intros req].
  { unfold make_mbap_request, pack_B, pack_H. repeat case_decide; done. }
  apply keeps_bind; [|intros _].
  - intros s (Hc & Ho & Ht). unfold send, bind, on_conn, sock_sendall, modify. rewrite Ho.
    destruct (send_faults (conn s)) as [|[e|] l]; cbn; [|by split_and!|];
      (destruct (reacts o req (dev (net s))) as [q d]; by split_and!).
  - intros s (Hc & Ho & Ht). unfold on_conn, _recv_one_response, bind.
    pose proof (recv_exactly_spec MIN_RESPONSE_SIZE (conn s) Ho) as H1. destruct (recv_exactly _ (conn s)) as [r1 k1].
    destruct H1 as (A1 & C1 & _ & _ & H1). assert (settled r1).
    { revert H1. case_decide; [by intros (-> & _)|intros ->]. unfold starved. repeat split_match; done || congruence. }
    destruct r1 as [header|e|]; [|unfold live; split_and!; done || (cbn; congruence)|done].
    destruct (0 <? _); [|unfold live; split_and!; done || (cbn; congruence)].
    match goal with |- context [recv_exactly ?n k1] => pose proof (recv_exactly_spec n k1 C1) as H2; destruct (recv_exactly n k1) as [r2 k2] end.
    destruct H2 as (A2 & C2 & _ & _ & H2). clear H1. assert (settled r2).
    { revert H2. case_decide; [by intros (-> & _)|intros ->]. unfold starved. repeat split_match; done || congruence. }
    destruct r2; [unfold live; split_and!; done || (cbn; congruence)|unfold live; split_and!; done || (cbn; congruence)|done].
Qed.

Lemma keeps_refused tid fc code r : keeps live (refused tid fc code r).
Proof. destruct r as [[t f] p]. repeat (apply keeps_bind; [apply keeps_assert|intros _]). apply keeps_assert. Qed.

Lemma keeps_accepted tid fc r : keeps live (accepted tid fc r).
Proof. destruct r as [[t f] p]. repeat (apply keeps_bind; [apply keeps_assert|intros _]). by intros s Hs. Qed.

Lemma decoders_settled p n : settled (decode_fc01_fc02 p n) /\ settled (decode_fc03_fc04 p n).
Proof.
  split; [unfold decode_fc01_fc02; destruct p as [|b p]; [done|]; by destruct (_ <? _)|].
  unfold decode_fc03_fc04. destruct p as [|b p]; [done|]. destruct (_ <? _); [done|]. generalize (seq 0 (Z.to_nat (b / 2))). intros l.
  induction l as [|i l IH]; [done|]. cbn [mapM_ok]. apply obind_settled; [unfold unpack_H; by repeat split_match|].
  intros x. by apply obind_settled.
Qed.

Lemma keeps_decodes x vs : settled x -> keeps live (decodes_to x vs).
Proof. intros Hx. apply keeps_bind; [by apply keeps_still|intros l; apply keeps_assert]. Qed.

Lemma keeps_data_value tid r : keeps live (not_data_value tid r).
Proof.
  destruct r as [[t f] p]. apply keeps_bind; [apply keeps_assert|intros _]. destruct (negb _); [|by intros s Hs].
  apply keeps_bind; [apply keeps_assert|intros _; apply keeps_assert].
Qed.

#[local] Hint Resolve keeps_assert keeps_ask keeps_refused keeps_accepted keeps_decodes keeps_data_value
  keeps_request keeps_mode keeps_sleep keeps_still : wbmge.
#[local] Hint Extern 1 (settled (decode_fc01_fc02 _ _)) => apply decoders_settled : wbmge.
#[local] Hint Extern 1 (settled (decode_fc03_fc04 _ _)) => apply decoders_settled : wbmge.

(** The tests on a connection each end and close it. *)
Lemma keeps_tests :
  Forall (keeps patient)
    [test_cm01_fc01_coil_response_lsb_bit_packing o; test_cm02_fc02_discrete_vs_coil_type_separation o;
     test_cm03_fc04_input_vs_holding_type_separation o; test_cm04_unsupported_fc_returns_illegal_function o;
     test_cm05_fc03_count_boundary_illegal_data_value o; test_cm07_cache_miss_returns_illegal_address o].
Proof.
  repeat apply Forall_cons_2; [..|apply Forall_nil_2];
    [unfold test_cm01_fc01_coil_response_lsb_bit_packing|unfold test_cm02_fc02_discrete_vs_coil_type_separation
    |unfold test_cm03_fc04_input_vs_holding_type_separation|unfold test_cm04_unsupported_fc_returns_illegal_function
    |unfold test_cm05_fc03_count_boundary_illegal_data_value|unfold test_cm07_cache_miss_returns_illegal_address];
    repeat first [progress intros|apply keeps_connection|solve [auto with wbmge nocore]|apply keeps_bind].
Qed.

(** The poll ends: each round takes more than a second. *)
Lemma fill_loop_keeps n : forall deadline s, patient s -> (deadline <= now (net s) + inject_Z (Z.of_nat n))%Q ->
  settled (fill_loop o (S n) deadline s).1 /\ tcp_open (fill_loop o (S n) deadline s).2 = tcp_open s /\
  uart (fill_loop o (S n) deadline s).2 = uart s /\ patient (fill_loop o (S n) deadline s).2.
Proof.
  induction n as [|n IH]; intros deadline s Hs Hd; [|remember (S n) as m eqn:Em];
    cbn [fill_loop]; unfold bind, on_net, anow; cbn [net set_net].
  { assert (Qle_bool deadline (now (net s)) = true) as -> by (apply Qle_bool_iff; change (inject_Z (Z.of_nat 0)) with 0%Q in Hd; lra).
    done. }
  destruct (Qle_bool deadline (now (net s))); [done|]. cbn [negb]. unfold sleep, on_net, asleep, modify. cbn [net set_net].
  pose proof (session_request_settled (http o) (Request GET "/cache/status" None (scalar 10)) (AWorld (dev (net s)) (log (net s)) (cookies (net s))
    (open_sessions (net s)) (now (net s) + 1) (cost (net s))) http_settled) as Hset.
  unfold get_cache_status, http_get. destruct (session_request_spec (http o) (Request GET "/cache/status" None (scalar 10))
    (AWorld (dev (net s)) (log (net s)) (cookies (net s)) (open_sessions (net s)) (now (net s) + 1) (cost (net s))))
    as (r & d & t & c & E & _ & Ht). rewrite E in Hset |- *. cbn [fst cost now] in Hset, Ht. specialize (Ht Hs).
  destruct r as [st|e|]; [|done|done]. unfold lift. destruct (filled st) as [[]|e|] eqn:Ef; [done| |done|].
  - set (s1 := set_net _ _). apply (IH deadline s1 Hs). subst m.
    cbn [net set_net now s1]. rewrite Nat2Z.inj_succ in Hd. unfold Z.succ in Hd. rewrite inject_Z_plus in Hd. change (inject_Z 1) with 1%Q in Hd.
    unfold DELAY_S in Ht. lra.
  - exfalso. revert Ef. unfold filled, get_default. destruct (_ =? 200); [|done]. pose proof (resp_json_settled st) as Hj.
    destruct (resp_json st) as [j|e|]; [|done|done]. cbn [obind]. pose proof (py_get_settled "entries" j) as Hg.
    destruct (py_get "entries" j) as [v|e|]; [|done|done]. cbn [obind]. apply py_ge_settled.
Qed.

(** The UART sockets left behind by code that came to [r]: none, or the one
    whose connect was refused, and then the code has failed. *)
Definition uart_left {A} (before : uart_side) (r : outcome A) (after : uart_side) : Prop :=
  after = before \/
  (exists e, r = Raise e /\ after = Uart (S (uart_open before)) (refusals before ++ [e])).

Definition keeps_but_uart (m : eff St unit) : Prop := forall s, patient s ->
  settled (m s).1 /\ tcp_open (m s).2 = tcp_open s /\ uart_left (uart s) (m s).1 (uart (m s).2) /\ patient (m s).2.

Lemma but_uart_after {A} (m : eff St A) (k : A -> eff St unit) :
  keeps patient m -> (forall a, keeps_but_uart (k a)) -> keeps_but_uart (bind m k).
Proof.
  intros Hm Hk s Hs. unfold bind. destruct (Hm s Hs) as (H1 & H2 & H3 & H4).
  destruct (m s) as [[a|e|] s1]; cbn [fst snd] in *; [|split_and!; [done|done|by left|done]|done].
  destruct (Hk a s1 H4) as (K1 & K2 & K3 & K4). rewrite H3 in K3. split_and!; [done|congruence|done|done].
Qed.

Lemma but_uart_then (m k : eff St unit) : keeps_but_uart m -> keeps patient k -> keeps_but_uart (m ;;; k).
Proof.
  intros Hm Hk s Hs. unfold bind. destruct (Hm s Hs) as (H1 & H2 & H3 & H4).
  destruct (m s) as [[[]|e|] s1]; cbn [fst snd] in *; [|by split_and!|done].
  destruct (Hk s1 H4) as (K1 & K2 & K3 & K4). destruct H3 as [H3|(e & [=] & _)].
  split_and!; [done|congruence|left; congruence|done].
Qed.

(** A connected UART socket is closed whatever the traffic meets. *)
Lemma but_uart_open (x k : eff St unit) : keeps patient x -> keeps patient k ->
  keeps_but_uart (open_uart o ;;; try_finally x close_uart ;;; k).
Proof.
  intros Hx Hk s Hs. unfold bind, open_uart. destruct (uart_connect o (dev (net s))) as [[e|] d].
  { split_and!; [done|done|right; by exists e|exact Hs]. }
  unfold try_finally, close_uart, modify. set (s1 := Station _ _ _ _).
  destruct (Hx s1 Hs) as (H1 & H2 & H3 & H4). destruct (x s1) as [[[]|e|] s2]; cbn [fst snd] in *; [| |done].
  - set (s3 := Station _ _ _ _). destruct (Hk s3 H4) as (K1 & K2 & K3 & K4). split_and!; [done|by rewrite K2| |done].
    left. rewrite K3. cbn. rewrite H3. by destruct (uart s).
  - split_and!; [done|done| |done]. left. cbn. rewrite H3. by destruct (uart s).
Qed.

Lemma keeps_inject l : keeps patient (inject_all o l).
Proof.
  induction l as [|data l IH]; [by intros s Hs|]. apply keeps_bind; [|intros _; exact IH]. intros s Hs. unfold inject_bytes.
  destruct (uart_send o data (dev (net s))) as [[e|] d]; split_and!; done || exact Hs.
Qed.

Lemma keeps_populate fuel : (30 < fuel)%nat -> keeps_but_uart (populate o fuel).
Proof.
  intros Hf. unfold populate, post_settings, port_cache, update_settings, set_port_cache, http_post, assert_200.
  do 7 (apply but_uart_after; [auto with wbmge nocore|intros ?]).
  apply but_uart_open.
  - apply keeps_bind; [by apply keeps_still|intros bursts; apply keeps_inject].
  - intros [w c t u] Hs. unfold bind, on_net, anow. cbn [net set_net]. destruct fuel as [|n]; [lia|].
    apply (fill_loop_keeps n (now w + 30) (Station w c t u)); [done|]. cbn [net]. apply Qplus_le_r. change 30%Q with (inject_Z 30). rewrite <- Zle_Qle. lia.
Qed.

Lemma mode_attempts_answers more q settle_s (w : aworld D) : NetLog.answers (mode_attempts (http o) more q settle_s w).1.
Proof.
  revert w. induction more as [|more IH]; intros w; cbn [mode_attempts]; unfold bind;
    destruct (session_request_spec (http o) q w) as (r & d & t & c & -> & E & _); specialize (Hhttp q (dev w)); rewrite E in Hhttp;
    destruct r as [resp|e|]; try done; destruct (negb (transient resp)); try done. apply IH.
Qed.

(** An attempt to restore goes on whatever came of it. *)
Lemma failing_eq (m : eff St ApiClient.response) s : NetLog.answers (m s).1 -> exists b, failing m s = (Ok b, (m s).2).
Proof.
  unfold failing, try_except, bind. destruct (m s) as [[x|e|] s1]; cbn; [eauto| |done]. intros ->. eauto.
Qed.

Definition settings_post (port : json) : ApiClient.request := Request POST "/settings" (Some (settings_of None (Some port) None)) (scalar 30).
Definition cache_off : ApiClient.request := Request POST "/ports/1/cache" (Some (JObj [("enabled", JBool false)])) (scalar 10).

Lemma on_request_log q (s : St) : NetLog.answers (on_net (session_request (http o) q) s).1 /\
  exists a, (on_net (session_request (http o) q) s).2 = set_net a s /\ log a = log (net s) ++ [q] /\ cost a = cost (net s).
Proof.
  unfold on_net. destruct (session_request_spec (http o) q (net s)) as (r & d & t & c & -> & E & _). specialize (Hhttp q (dev (net s))).
  rewrite E in Hhttp. split; [done|]. by eexists.
Qed.

Lemma restore_log mode port s : exists n r a, (1 <= n <= 3)%nat /\ restore o mode port s = (r, set_net a s) /\ (r = Ok tt \/ r = Raise AssertionError) /\
  log a = log (net s) ++ [settings_post port; cache_off] ++ replicate n (mode_request 1 mode).
Proof.
  unfold restore. destruct (on_request_log (settings_post port) s) as (A1 & a1 & E1 & L1 & _).
  destruct (failing_eq (post_settings o (settings_of None (Some port) None)) s A1) as [b1 F1].
  change (on_net (session_request (http o) (settings_post port)) s) with (post_settings o (settings_of None (Some port) None) s) in E1.
  unfold bind at 1. rewrite F1, E1. set (s1 := set_net a1 s).
  destruct (on_request_log cache_off s1) as (A2 & a2 & E2 & L2 & _). destruct (failing_eq (port_cache o false) s1 A2) as [b2 F2].
  change (on_net (session_request (http o) cache_off) s1) with (port_cache o false s1) in E2. unfold bind at 1. rewrite F2, E2. set (s2 := set_net a2 s1).
  pose proof (mode_attempts_answers 2 (mode_request 1 mode) (1 # 2) (net s2)) as A3.
  destruct (mode_attempts_spec (http o) 2 (mode_request 1 mode) (1 # 2) (net s2)) as (n & r & a3 & E3 & Hn & L3 & _ & _).
  assert (port_mode o mode s2 = (r, set_net a3 s2)) as E4.
  { unfold port_mode, on_net, set_port_mode_default, set_port_mode. by rewrite E3. }
  destruct (failing_eq (port_mode o mode) s2) as [b3 F3]; [rewrite E4; by rewrite E3 in A3|].
  unfold bind. rewrite F3, E4. cbn [snd].
  assert (L : log a3 = log (net s) ++ [settings_post port; cache_off] ++ replicate n (mode_request 1 mode)).
  { rewrite L3. cbn [net set_net s2]. rewrite L2. cbn [net set_net s1]. rewrite L1. by rewrite <- !app_assoc. }
  exists n. destruct (b1 || b2 || b3); unfold raise, ret; (eexists _, a3; split; [done|]; split; [reflexivity|]; split; [tauto|done]).
Qed.

Lemma keeps_skip_guard : keeps patient (skip_guard o).
Proof.
  intros s Hs. unfold skip_guard, new_socket, bind, modify, try_finally, close_socket, on_conn, sock_close. cbn.
  by destruct (negb _).
Qed.

Lemma skip_guard_net (s : St) : net (skip_guard o s).2 = net s /\ (probe_code o (dev (net s)) = 0 -> (skip_guard o s).1 = Ok tt).
Proof.
  unfold skip_guard, new_socket, bind, modify, try_finally, close_socket, on_conn, sock_close. cbn. split; [by destruct (negb _)|].
  by intros ->.
Qed.

Lemma request_result q (s : St) : (on_net (session_request (http o) q) s).1 = (http o q (dev (net s))).1.
Proof. unfold on_net. destruct (session_request_spec (http o) q (net s)) as (r & d & t & c & -> & -> & _). done. Qed.

(** The same once the attempts to restore have run: they may replace the error
    of the connect by their own. *)
Definition uart_balance (before : uart_side) (r : outcome unit) (after : uart_side) : Prop :=
  after = before \/
  (exists e, (r = Raise e \/ r = Raise AssertionError) /\ after = Uart (S (uart_open before)) (refusals before ++ [e])).

Lemma uart_balance_after before (x r : outcome unit) after : uart_left before x after -> (r = Ok tt \/ r = Raise AssertionError) ->
  uart_balance before (match r with Ok _ => x | _ => r end) after.
Proof. intros [->|(e & -> & ->)] [->| ->]; try (by left); right; exists e; split; done || tauto. Qed.

(** The [try] block and its [finally]. *)
Lemma guarded_restores fuel (tests : eff St unit) mode port (s : St) : (30 < fuel)%nat -> patient s -> keeps patient tests ->
  let m := try_finally (populate o fuel ;;; tests) (restore o mode port) in
  settled (m s).1 /\ tcp_open (m s).2 = tcp_open s /\ uart_balance (uart s) (m s).1 (uart (m s).2) /\
  exists l n, (1 <= n <= 3)%nat /\ log (net (m s).2) = l ++ [settings_post port; cache_off] ++ replicate n (mode_request 1 mode).
Proof.
  intros Hf Hs Ht. cbv zeta. unfold try_finally.
  destruct (but_uart_then _ tests (keeps_populate fuel Hf) Ht s Hs) as (H1 & H2 & H3 & _).
  destruct ((populate o fuel ;;; tests) s) as [x s1]; cbn [fst snd] in *.
  destruct (restore_log mode port s1) as (n & r & a & Hn & E & Hr & L). pose proof (uart_balance_after _ _ r _ H3 Hr) as H4.
  destruct x as [[]|e|]; [| |done]; rewrite E; clear E; (destruct Hr as [->| ->]; cbn [fst snd set_net tcp_open uart net] in *; (split_and!; [done|done|exact H4|]); by exists (log (net s1)), n).
Qed.

Lemma originals_settled info : settled (originals info).
Proof.
  assert (forall k d j, settled (get_default k d j)) as G by (intros; unfold get_default; apply obind_settled; [apply py_get_settled|done]).
  unfold originals. repeat (apply obind_settled; [apply G|intros ?]). done.
Qed.
End LeftBehind.

(** C34. The fixture ends and hands the port back.  On any gateway whose HTTP server answers or fails, and with tests that end and close what they opened: the fixture ends and closes its TCP sockets; it leaves no UART socket open when the connect to the UART succeeds, and when that connect is refused it leaves exactly the one socket [open_uart_socket] made and fails, with the error of the connect or that of the restore; and once it has read the original mode and Modbus port it makes every attempt to restore them last, in order (the Modbus port, the cache overlay, the port mode with at most two repeats), whatever the setup, the tests or the earlier attempts ran into. *)
Theorem cache_fixture_restores {D} (o : outside D) fuel tests s :
  (forall q d, NetLog.answers (http o q d).1) -> (30 < fuel)%nat -> patient s -> keeps patient tests ->
  let (r, s') := cache_server_e2e o fuel tests s in
  settled r /\ tcp_open s' = tcp_open s /\ uart_balance (uart s) r (uart s') /\
  forall resp d info mode port, probe_code o (dev (net s)) = 0 -> http o info_request (dev (net s)) = (Ok resp, d) -> status_code resp = 200 ->
    resp_json resp = Ok info -> originals info = Ok (mode, port) ->
    exists l n, (1 <= n <= 3)%nat /\
      log (net s') = l ++ [settings_post port; cache_off] ++ replicate n (mode_request 1 mode).
Proof.
  intros Hhttp Hfuel Hs Htests. destruct (cache_server_e2e o fuel tests s) as [r s'] eqn:E. unfold cache_server_e2e in E.
  destruct (keeps_skip_guard o s Hs) as (G1 & G2 & G3 & G4). destruct (skip_guard_net o s) as [G5 G6].
  unfold bind at 1 in E. destruct (skip_guard o s) as [[[]|e|] s0]; cbn [fst snd] in *; [| |done].
  2: { injection E as <- <-. split_and!; [done|done|by left|]. intros resp d info mode port Hprobe. by apply G6 in Hprobe. }
  destruct (keeps_request o Hhttp info_request s0 G4) as (A1 & A2 & A3 & A4). pose proof (request_result o info_request s0) as R1.
  unfold bind at 1 in E. change (on_net (get_info (http o))) with (on_net (session_request (http o) info_request)) in E.
  destruct (on_net (session_request (http o) info_request) s0) as [[info_resp|e|] s1]; cbn [fst snd] in *; [| |done]; rewrite G5 in R1.
  2: { injection E as <- <-. split_and!; [done|congruence|left; congruence|]. intros resp d info mode port _ Hi. by rewrite Hi in R1. }
  unfold assert_200 in E. unfold bind at 1, assert in E. destruct (status_code info_resp =? 200) eqn:Est.
  2: { injection E as <- <-. split_and!; [done|congruence|left; congruence|]. intros resp d info mode port _ Hi H200. rewrite Hi in R1. injection R1 as ->.
       by rewrite H200 in Est. }
  unfold ret, bind at 1, lift in E. pose proof (resp_json_settled info_resp) as Hj. destruct (resp_json info_resp) as [info|e|] eqn:Ej; [| |done].
  2: { injection E as <- <-. split_and!; [done|congruence|left; congruence|]. intros resp d info mode port _ Hi _ Hj'. rewrite Hi in R1. injection R1 as ->.
       by rewrite Hj' in Ej. }
  unfold bind at 1 in E. pose proof (originals_settled info) as Ho. destruct (originals info) as [[mode port]|e|] eqn:Eo; [| |done].
  2: { injection E as <- <-. split_and!; [done|congruence|left; congruence|]. intros resp d info' mode port _ Hi _ Hj' Ho'. rewrite Hi in R1. injection R1 as ->.
       rewrite Hj' in Ej. injection Ej as ->. by rewrite Ho' in Eo. }
  destruct (guarded_restores o Hhttp fuel tests mode port s1 Hfuel A4 Htests) as (B1 & B2 & B3 & B4). cbn [fst snd] in E. rewrite E in *. cbn [fst snd] in *.
  assert (uart s1 = uart s) as Hu by congruence. rewrite Hu in B3. split_and!; [done|congruence|done|]. intros resp d info' mode' port' _ Hi _ Hj' Ho'. rewrite Hi in R1. injection R1 as ->.
  rewrite Hj' in Ej. injection Ej as ->. rewrite Ho' in Eo. by injection Eo as -> ->.
Qed.

(** ** A gateway to try it on *)

Definition demo_serving : serving :=
  let c := populated 5000000 (fun _ => 6000000) in Serving CacheServer.demo_device c 60 (fun _ => (c, 7000000)).

(** Answers arrive in two pieces. *)
Definition in_two (l : list Z) : list arrival := push_bytes (take 3 l) (push_bytes (drop 3 l) []).

Definition demo_http (q : ApiClient.request) : ApiClient.response :=
  ApiClient.Response 200 "" (Some (if String.eqb (url_path q) "/info"
    then JObj [("rs485_1", JObj [("port_mode", JStr "repeater")]); ("cache_modbus_port", JNum 504)]
    else JObj [("entries", JNum 11)])) [].

Definition demo_gateway : outside unit := {|
  http := fun q d => (Ok (demo_http q), d);
  probe_code := fun _ => 0;
  dial_err := fun _ => None;
  send_script := fun _ => [];
  reacts := fun req d => (in_two (default [] (process_one_frame demo_serving req)), d);
  uart_connect := fun d => (None, d);
  uart_send := fun _ d => (None, d)
|}.

Definition demo_bench : station unit := Station (AWorld tt [] ∅ 1 0 (fun _ => 1%Q)) (Sock [] true [] [] true) 0 (Uart 0 []).

Lemma in_two_ready l : ready (in_two l) = l /\ obstacle (in_two l) = [].
Proof. unfold in_two. rewrite !push_bytes_ready, !push_bytes_obstacle. cbn. by rewrite app_nil_r, take_drop. Qed.

Lemma demo_reacts d req : True -> ready (reacts demo_gateway req d).1 = default [] (process_one_frame demo_serving req) /\
  obstacle (reacts demo_gateway req d).1 = [] /\ True.
Proof. intros _. cbn [reacts demo_gateway fst]. by destruct (in_two_ready (default [] (process_one_frame demo_serving req))) as [-> ->]. Qed.

Lemma demo_serves : serves 5000000 (fun _ => 6000000) demo_serving.
Proof. by split. Qed.

Lemma cm_tests_exact_witness :
  (passes (test_cm04_unsupported_fc_returns_illegal_function demo_gateway) demo_bench <->
     refusal 1 5 1 (firmware_reply demo_serving (CacheServer.Request 1 1 5 100 0xFF00))) /\
  firmware_reply demo_serving (CacheServer.Request 1 1 5 100 0xFF00) = ModbusTcp.Response 1 1 0x85 [1].
Proof.
  split; [|reflexivity].
  apply (cm_tests_exact demo_gateway (fun _ => True) (firmware_reply demo_serving) demo_bench); [|done].
  by apply (firmware_answering demo_gateway (fun _ => True) (fun _ => demo_serving)); [|intros d req; apply demo_reacts].
Defined.

Lemma cm_tests_accept_firmware_witness :
  passes (test_cm03_fc04_input_vs_holding_type_separation demo_gateway) demo_bench.
Proof.
  assert (H := cm_tests_accept_firmware demo_gateway (fun _ => True) (fun _ => demo_serving) 5000000 (fun _ => 6000000) demo_bench
    (fun _ _ => demo_serves) (fun _ _ => conj eq_refl (Forall_nil_2 _)) demo_reacts I).
  apply Forall_cons in H as [_ H]. apply Forall_cons in H as [_ H]. by apply Forall_cons in H as [H _].
Defined.

Lemma cache_fixture_restores_witness :
  let (r, s') := cache_server_e2e demo_gateway 31 (test_cm07_cache_miss_returns_illegal_address demo_gateway) demo_bench in
  r = Ok tt /\ tcp_open s' = 0%nat /\ uart s' = Uart 0 [] /\
  exists l n, (1 <= n <= 3)%nat /\ log (net s') = l ++ [settings_post (JNum 504); cache_off] ++ replicate n (mode_request 1 (JStr "repeater")).
Proof.
  assert (Hk : keeps patient (test_cm07_cache_miss_returns_illegal_address demo_gateway)).
  { pose proof (keeps_tests demo_gateway) as H. do 5 apply Forall_cons in H as [_ H]. by apply Forall_cons in H as [H _]. }
  assert (Hp : patient demo_bench) by (intros n; cbn; lra).
  pose proof (cache_fixture_restores demo_gateway 31 (test_cm07_cache_miss_returns_illegal_address demo_gateway) demo_bench
    (fun _ _ => I) ltac:(lia) Hp Hk) as H.
  assert ((cache_server_e2e demo_gateway 31 (test_cm07_cache_miss_returns_illegal_address demo_gateway) demo_bench).1 = Ok tt) as E
    by (vm_compute; reflexivity).
  destruct (cache_server_e2e demo_gateway 31 (test_cm07_cache_miss_returns_illegal_address demo_gateway) demo_bench) as [r s']. cbn [fst] in E.
  destruct H as (_ & H2 & H3 & H4). split; [exact E|]. split; [exact H2|]. split; [destruct H3 as [H3|(e & [Hr|Hr] & _)]; [exact H3|congruence..]|].
  by apply (H4 _ tt _ (JStr "repeater") (JNum 504) eq_refl eq_refl eq_refl eq_refl).
Defined.
